(* ===== verification/_CoqProject ===== *)
-Q . S2P
Prelude.v
Smi.v
Packer.v
Layout.v
UdHeader.v
QpState.v
SaTables.v
VerbsAttr.v
VerbsObj.v
RmppRecv.v
Bytes.v
RmppSend.v
MadSend.v
MadSendSafe.v
Buddy.v
IcmPool.v
UmemBlocks.v
SgPages.v
Counting.v
McastTable.v
Multicast.v
MulticastSafe.v
MulticastRun.v
MulticastLive.v
Uobject.v
UobjectSafe.v
UobjectRun.v
UobjectAssign.v
UobjectClean.v
UobjectLive.v
GidCache.v
GidCacheSafe.v
GidCacheRun.v
GidCacheLive.v
PortCache.v
MadReg.v
MadRegTables.v
MadRegVendor.v
MadRegSpec.v
MadAgent.v
MadAgentSafe.v
MadAgentLive.v
IwCm.v
IwCmSafe.v
IwCmCalls.v
IwCmWork.v
IwCmRun.v
IwCmQuiet.v
IwCmLive.v
