(* ===== verification/Prelude.v ===== *)
(** * A verification of the InfiniBand core and of the mlx5 steering memory

    This development models parts of the OFED kernel tree under src/ and proves
    what makes them correct. A definition has the name of the C function it
    translates wherever it can; the rest of this comment says which file models
    what, how the parts meet, what is shown, and what is left out. Paths below
    are relative to src/drivers/infiniband/core unless they start with
    include/ (src/include) or mlx5/ (src/drivers/net/ethernet/mellanox/mlx5/core).

    ** Conventions

    Machine integers are [Z] with their wrap-around written out where the code
    can reach it ([wrap], [u8], ..., [s32]). An array is a list read with
    [arr_get] and written with [arr_set], and a byte memory is read and written
    with the functions of Packer; reaching outside one is [None]. So are a null
    or dangling pointer, a shift by a negative amount, a loop that does not end
    within its fuel. Such a [None] is never an answer of the program: safety
    theorems say that it does not arise. Answers of the program, its negative
    [errno] values included, are values of the result type.

    What the code calls and this tree does not define (allocation, the devices
    behind their commands, DMA mapping, timers, user memory) is an argument of
    the definitions, so that a theorem holds for all its answers; where the code
    relies on more, the reliance is a named hypothesis or the law of a class.
    Concurrency is a sequence of atomic steps: a step is what the code does
    while it holds the lock that protects the state, and calls made after the
    lock was dropped are steps of their own that others may come before.

    ** Files

    - Prelude: integers, arrays, endianness, errno values, tactics, hints.
    - Smi: smi.c, smi.h, opa_smi.h and their use in mad.c. Deciding where a
      directed-route SMP goes, and running it through a path of switches.
    - Packer: packer.c. [ib_pack] and [ib_unpack], interpreted over any field
      table. Layout: the ABI layout of structures, from which the tables take
      their offsets. UdHeader: ud_header.c and its eight tables. SaTables: the
      tables of sa_query.c and the conversions between path records. The laws of
      the packer are proved once for every well-formed table, and UdHeader and
      SaTables only establish that their tables are well formed.
    - QpState: verbs.c, [qp_state_table] and [ib_modify_qp_is_ok].
    - VerbsAttr: verbs.c, rates, link widths, network headers, messages.
    - VerbsObj: verbs.c, creation and destruction of protection domains, address
      handles, SRQs, QPs, CQs, MRs, XRC domains, WQs; uverbs_cmd.c, the table of
      XRC domains by inode. The state is a heap of objects with their use counts.
    - Bytes: reading back what was written, for RmppSend.
    - RmppRecv: mad_rmpp.c, reassembly. A context holds the ordered segments, the
      window and the state of the receive transaction.
    - RmppSend: mad.c, mad_rmpp.c, user_mad.c. Segment lists of a message, the
      header of each segment, and the copies from and to user memory. Its end to
      end theorem composes with RmppRecv.
    - MadSend, MadSendSafe: mad.c and mad_rmpp.c. The life of a send request of
      an agent: its lists, its reference count, its deadlines. The first file
      has the definitions and the second the invariant and what follows.
    - Buddy: mlx5/steering/dr_buddy.c. IcmPool: mlx5/steering/dr_icm_pool.c,
      which uses Buddy through its contract.
    - UmemBlocks: umem.c, verbs.c and include/rdma/ib_umem.h. The page size of a
      pinned region and the iterator over its blocks.
    - SgPages: [ib_sg_to_pages] of verbs.c against an interface of the driver,
      [PageDriver], with the page setter of src/drivers/infiniband/hw/mlx5/mr.c
      as an instance.
    - McastTable: multicast.c, the tree of a port's groups. The kernel's
      red-black tree is the class [RbTree] with the laws the code relies on;
      search and insertion are the source's. Multicast: multicast.c, groups and
      members, the thread of a group, users' calls, answers of the subnet
      administrator, and events, as steps. MulticastSafe has the contract and
      the invariant, MulticastRun that every step keeps it, MulticastLive what
      follows for runs, and the runs that go wrong.
    - Counting: counting the objects of a map that have a property, for the
      components with reference counts.
    - Uobject: rdma_core.c, the objects that user space names by handles. A command
      in flight is a hold, the point its thread has reached with one object, and a
      step is one atomic operation; what drivers and allocators answer is an
      argument. UobjectSafe has the contract and the invariant, UobjectRun that
      every step keeps it, UobjectAssign the replacement of an object,
      UobjectClean the clean-up of a file, UobjectLive what follows.
    - GidCache: cache.c, the GID table of one port, with roce_gid_mgmt.c where it
      calls it. Entries are on a heap; a writer holds the mutex and is one step,
      readers, the work that frees an entry and the RCU callbacks are others.
      GidCacheSafe has the invariant, GidCacheRun that every step keeps it,
      GidCacheLive what follows. PortCache: the rest of cache.c, P_Key lookups
      and the update of a port, which uses GidCache through its steps.
    - MadReg: mad.c, the tables through which a port finds the agent of a MAD: by
      class version, class, OUI and method. A table is a map without the null
      entries of the array. MadRegTables and MadRegVendor prove the two halves,
      MadRegSpec that together they implement a map from agents to requests.
      MadAgent: the agents, the array of clients by transaction identifier and
      received MADs on their way to an agent; the places of a thread between
      two accesses to shared state are the stages of an agent and of a received
      MAD. MadAgentSafe has the invariant and that every step keeps it,
      MadAgentLive what follows and two runs that go wrong.
    - IwCm: iwcm.c, the connection manager of iWARP. An identifier is a record
      with the places where threads stand with it: a client's call, the work, the
      provider's endpoint; and with the history of what was done to the outside. Steps
      are critical sections and the answers of providers and clients. IwCmSafe has the
      contract of clients and providers and the invariant; IwCmCalls and IwCmWork prove
      that each step keeps it, by tactics that split the cases of state, call and work;
      IwCmRun lifts this to all identifiers and has the measure of what is left
      to do, IwCmQuiet what can always go on, IwCmLive what follows for runs.

    ** What is shown

    - Memory safety. Smi never indexes the path arrays out of range, whatever
      arrives. VerbsObj, RmppRecv, MadSend, MadAgent, Multicast, Uobject,
      IwCm,
      GidCache and IcmPool have an invariant that counts the users of every object; from it follow that nothing is used after
      it was freed and nothing is freed twice or forgotten, in every
      interleaving.
    - Round trips. Packing and unpacking, the UD headers, the records of the
      subnet administrator, a message written by one user and read by another
      across a network that loses, repeats and reorders.
    - Functional correctness. The QP transition check against the table; the
      return path of an SMP; exact outcome of destruction; the best page size;
      the translation of every byte of a region by blocks and by pages.
    - Refinement. Buddy implements an abstract allocator of disjoint aligned
      blocks, for every client and every sequence of calls. The clean-up of a
      file does to the hardware what a function on the list of its objects does,
      whatever the driver answers, and leaves no object behind. The GID cache of
      a port agrees with the table of the driver at every index. A MAD goes to the
      agent whose registered request covers it, whatever the history of the tables.
      The callbacks of an iWARP client are those of an abstract connection, whose
      state is that of the identifier.
    - Equivalence. The loop of [find_gid] that stops early does what two complete
      first-match searches do.
    - Agreement with the outside. A multicast group at rest is joined with the
      subnet administrator in exactly the states its members asked for, and a
      member is told the outcome of its join once.
    - Types. Every MAD agent is what the tests of its registration let through.
    - Bounds. The work entries that a connection gets are enough for its events.
    - Termination and progress. A wait in [ib_sa_free_multicast] ends; unregistering an
      agent ends and leaves no table behind; an iWARP
      identifier that was destroyed is freed after a bounded number of steps; cancelling an
      agent's requests comes to an end;
      a transfer whose segments arrive in order is handed over; the allocator
      always returns.
    - Errors. What a failing creation undoes, and one it does not; the runs in
      which the code does not do what it means to. These are stated as theorems
      about concrete runs of the same definitions.

    ** Bounds and fuel

    The loops of the packer, of the path of an SMP and over lists are bounded by
    the tables or lists they walk and are structural. Loops whose bound is a
    machine word carry fuel: [find_from], [split_down] and [merge_up] of Buddy
    have as many steps as there are orders; the retry of a chunk allocation in
    IcmPool two, because a pool that was just extended has room; the loops that
    build and fill segments in RmppSend as many as there are bytes left, each
    step taking at least one; the passes of a clean-up in Uobject one more than the
    objects of the file; the block iterator of UmemBlocks one more than the
    announced number of blocks; the page loop of SgPages two more than the whole
    pages of the entry. In each case a theorem or lemma says that the fuel is
    enough, so that an answer [None] is not one of exhaustion. Reference counts
    are integers without wrap-around; a count counts live references, of which
    there are fewer than the width allows.

    ** Not modelled

    The data path of the drivers and the network stack; the formats of firmware
    commands, which are in the device and not in the tree; the connection
    managers cm.c and cma.c, whose state machines are the next candidates; of
    iwcm.c addresses, the port mapper and queue-pair attributes;
    the choice of GIDs from network events (roce_gid_mgmt.c); of rdma_core.c the objects that are
    files, whose references are counted by the kernel's struct file; the
    queries of sa_query.c around its tables; backports, vendored copies of NVMe,
    NFS and storage clients; registers and dump tables (mlx5_ifc.h,
    mlx5/mst_dump.c), which are data without a contract in the source. Within
    the modelled parts: locks themselves (a step is a locked region), interrupt
    context, memory ordering, and tracing. *)

From stdpp Require Export base list numbers gmap fin_maps option.
From Stdlib Require Export ZArith Lia.

Declare Scope kernel_scope.
Delimit Scope kernel_scope with kernel.
#[global] Open Scope Z_scope.

(** * Machine integers *)

(** Value of [z] stored in an unsigned object of [w] bits. *)
Definition wrap (w z : Z) : Z := z mod 2 ^ w.

Abbreviation u8 := (wrap 8).
Abbreviation u16 := (wrap 16).
Abbreviation u32 := (wrap 32).
Abbreviation u64 := (wrap 64).

(** Value of [z] stored in a two's complement [int]. *)
Definition s32 (z : Z) : Z :=
  let r := wrap 32 z in if r <? 2 ^ 31 then r else r - 2 ^ 32.

(** [z] fits an unsigned object of [w] bits. *)
Definition fits (w z : Z) : Prop := 0 <= z < 2 ^ w.

#[global] Instance fits_dec w z : Decision (fits w z).
Proof. unfold fits. apply _. Defined.

(** C truth values: any non-zero integer is true, comparisons yield 0 or 1. *)
Definition c_true (z : Z) : bool := negb (z =? 0).
Definition c_bool (b : bool) : Z := if b then 1 else 0.

Definition is_some {A} (o : option A) : bool := match o with Some _ => true | None => false end.

(** * errno values *)

Definition EPERM : Z := 1.
Definition ENOENT : Z := 2.
Definition EAGAIN : Z := 11.
Definition ENOMEM : Z := 12.
Definition EBUSY : Z := 16.
Definition EEXIST : Z := 17.
Definition ENODEV : Z := 19.
Definition EINVAL : Z := 22.
Definition ENOSPC : Z := 28.
Definition EOPNOTSUPP : Z := 95.

(** * Arrays *)

Definition arr_get {A} (l : list A) (i : Z) : option A :=
  if decide (0 <= i) then l !! Z.to_nat i else None.

Definition arr_set {A} (l : list A) (i : Z) (v : A) : option (list A) :=
  if decide (0 <= i < Z.of_nat (length l)) then Some (<[Z.to_nat i := v]> l)
  else None.

(** * Byte order *)

(** [to_be n z]: the [n] bytes of [z], most significant first. *)
Fixpoint to_be (n : nat) (z : Z) : list Z :=
  match n with
  | O => []
  | S m => wrap 8 (Z.shiftr z (8 * Z.of_nat m)) :: to_be m z
  end.

(** The number whose big-endian bytes are [bs]. *)
Definition of_be (bs : list Z) : Z :=
  fold_left (fun acc b => acc * 256 + b) bs 0.

(** Hint databases of the development: [arr] for array accesses in range,
    [mach] for ranges of machine integers. *)
Create HintDb arr.
Create HintDb mach.

(** * Lemmas on machine integers *)

Lemma wrap_fits w z : 0 <= w -> fits w (wrap w z).
Proof. intros. unfold fits, wrap. apply Z.mod_pos_bound. lia. Qed.

Lemma wrap_small w z : fits w z -> wrap w z = z.
Proof. intros. by apply Z.mod_small. Qed.

Lemma wrap_land w z : 0 <= w -> wrap w z = Z.land z (Z.ones w).
Proof. intros. unfold wrap. by rewrite Z.land_ones. Qed.

Lemma wrap_testbit w z i :
  0 <= w -> 0 <= i -> Z.testbit (wrap w z) i = (i <? w) && Z.testbit z i.
Proof.
  intros. unfold wrap. destruct (Z.ltb_spec i w).
  - by rewrite Z.mod_pow2_bits_low.
  - by rewrite Z.mod_pow2_bits_high.
Qed.

Lemma ones_testbit n i : 0 <= n -> Z.testbit (Z.ones n) i = (0 <=? i) && (i <? n).
Proof.
  intros. destruct (Z.leb_spec 0 i); [|by rewrite Z.testbit_neg_r].
  destruct (Z.ltb_spec i n); [by rewrite Z.ones_spec_low|by rewrite Z.ones_spec_high].
Qed.

Lemma s32_range z : - 2 ^ 31 <= s32 z < 2 ^ 31.
Proof.
  unfold s32, wrap. pose proof (Z.mod_pos_bound z (2 ^ 32) ltac:(done)).
  destruct (Z.ltb_spec (z mod 2 ^ 32) (2 ^ 31)); lia.
Qed.

Lemma s32_small z : 0 <= z < 2 ^ 31 -> s32 z = z.
Proof.
  intros. unfold s32. rewrite wrap_small by (unfold fits; lia).
  destruct (Z.ltb_spec z (2 ^ 31)); lia.
Qed.

Lemma s32_id z : - 2 ^ 31 <= z < 2 ^ 31 -> s32 z = z.
Proof.
  intros Hz. destruct (Z.le_gt_cases 0 z); [apply s32_small; lia|].
  unfold s32, wrap. rewrite <- (Z.mod_unique_pos z (2 ^ 32) (-1) (z + 2 ^ 32)) by lia.
  destruct (Z.ltb_spec (z + 2 ^ 32) (2 ^ 31)); lia.
Qed.

#[export] Hint Resolve wrap_fits : mach.
#[export] Hint Rewrite wrap_small using (unfold fits in *; lia) : mach.

Lemma c_true_spec z : c_true z = true <-> z <> 0.
Proof. unfold c_true. destruct (Z.eqb_spec z 0); naive_solver. Qed.

Lemma c_true_false z : c_true z = false <-> z = 0.
Proof. unfold c_true. destruct (Z.eqb_spec z 0); naive_solver. Qed.

Lemma c_true_bool b : c_true (c_bool b) = b.
Proof. by destruct b. Qed.
#[export] Hint Rewrite c_true_bool : mach.

(** * Lemmas on arrays *)

Section arrays.
Context {A : Type}.
Implicit Types (l : list A) (i : Z) (v : A).

Lemma arr_get_lookup l i : 0 <= i -> arr_get l i = l !! Z.to_nat i.
Proof. intros. unfold arr_get. by rewrite decide_True. Qed.

Lemma arr_get_Some l i :
  0 <= i < Z.of_nat (length l) -> exists v, arr_get l i = Some v.
Proof.
  intros [Hi Hl]. rewrite arr_get_lookup by done.
  apply lookup_lt_is_Some_2. lia.
Qed.

Lemma arr_get_inv l i v :
  arr_get l i = Some v -> 0 <= i < Z.of_nat (length l).
Proof.
  unfold arr_get. case_decide; [|done]. intros Hv.
  apply lookup_lt_Some in Hv. lia.
Qed.

Lemma arr_set_Some l i v :
  0 <= i < Z.of_nat (length l) ->
  arr_set l i v = Some (<[Z.to_nat i := v]> l).
Proof. intros. unfold arr_set. by rewrite decide_True. Qed.

Lemma arr_set_inv l i v l' :
  arr_set l i v = Some l' ->
  0 <= i < Z.of_nat (length l) /\ l' = <[Z.to_nat i := v]> l.
Proof. unfold arr_set. case_decide; naive_solver. Qed.

Lemma arr_set_length l i v l' : arr_set l i v = Some l' -> length l' = length l.
Proof. intros [_ ->]%arr_set_inv. apply length_insert. Qed.

Lemma arr_get_set l i v l' j :
  arr_set l i v = Some l' ->
  arr_get l' j = if decide (i = j) then Some v else arr_get l j.
Proof.
  intros [Hi ->]%arr_set_inv. unfold arr_get.
  destruct (decide (i = j)) as [<-|Hij].
  - rewrite decide_True by lia. apply list_lookup_insert_eq. lia.
  - case_decide; [|done]. apply list_lookup_insert_ne. lia.
Qed.
End arrays.

#[export] Hint Resolve arr_get_Some arr_set_length : arr.

(** * Lemmas on byte order *)

Lemma length_to_be n z : length (to_be n z) = n.
Proof. induction n; simpl; congruence. Qed.
#[export] Hint Rewrite length_to_be : mach.

Lemma to_be_bytes n z : Forall (fits 8) (to_be n z).
Proof. induction n; simpl; constructor; auto with mach lia. Qed.

Lemma of_be_acc bs a :
  fold_left (fun acc b => acc * 256 + b) bs a
  = a * 2 ^ (8 * Z.of_nat (length bs)) + of_be bs.
Proof.
  unfold of_be. revert a. induction bs as [|b bs IH]; intros a; [simpl; lia|].
  cbn [fold_left length]. rewrite IH, (IH (0 * 256 + b)).
  replace (8 * Z.of_nat (S (length bs))) with (8 + 8 * Z.of_nat (length bs)) by lia.
  rewrite Z.pow_add_r by lia. lia.
Qed.

Lemma of_be_cons b bs :
  of_be (b :: bs) = b * 2 ^ (8 * Z.of_nat (length bs)) + of_be bs.
Proof. unfold of_be at 1. cbn [fold_left]. rewrite of_be_acc. lia. Qed.

Lemma of_be_range bs :
  Forall (fits 8) bs -> fits (8 * Z.of_nat (length bs)) (of_be bs).
Proof.
  unfold fits. induction 1 as [|b bs Hb _ IH]; [done|].
  rewrite of_be_cons. cbn [length].
  replace (8 * Z.of_nat (S (length bs))) with (8 + 8 * Z.of_nat (length bs)) by lia.
  rewrite Z.pow_add_r by lia. nia.
Qed.

(** Decoding what was encoded keeps the low [8 * n] bits. *)
Lemma of_be_to_be n z : of_be (to_be n z) = wrap (8 * Z.of_nat n) z.
Proof.
  induction n as [|n IH]; [unfold wrap; cbn; by rewrite Z.mod_1_r|].
  cbn [to_be]. rewrite of_be_cons, IH, length_to_be.
  replace (8 * Z.of_nat (S n)) with (8 * Z.of_nat n + 8) by lia.
  unfold wrap. rewrite Z.pow_add_r, Z.shiftr_div_pow2 by lia.
  rewrite Z.rem_mul_r by lia. lia.
Qed.

(** Encoding what was decoded gives the bytes back. *)
Lemma to_be_of_be bs :
  Forall (fits 8) bs -> to_be (length bs) (of_be bs) = bs.
Proof.
  assert (Hhi : forall n a z, to_be n (a * 2 ^ (8 * Z.of_nat n) + z) = to_be n z).
  { induction n as [|n IH]; intros a z; [done|]. cbn [to_be].
    replace (8 * Z.of_nat (S n)) with (8 + 8 * Z.of_nat n) by lia.
    rewrite Z.pow_add_r, Z.mul_assoc by lia. f_equal; [|apply IH].
    unfold wrap. rewrite !Z.shiftr_div_pow2, Z.div_add_l by lia.
    rewrite Z.add_comm. apply Z.mod_add. lia. }
  induction 1 as [|b bs Hb Hbs IH]; [done|].
  rewrite of_be_cons. cbn [length to_be]. rewrite Hhi, IH.
  pose proof (of_be_range _ Hbs) as Hr. unfold fits in Hr. f_equal.
  rewrite Z.shiftr_div_pow2, Z.div_add_l by lia.
  rewrite (Z.div_small (of_be bs)) by lia. rewrite Z.add_0_r. by apply wrap_small.
Qed.

(** * Tactics *)

(** Turn the boolean comparisons of the code, in hypotheses and goal, into
    arithmetic facts. *)
Ltac bool_arith :=
  repeat match goal with
  | H : _ && _ = true |- _ => apply andb_prop in H as [? ?]
  | H : _ || _ = false |- _ => apply orb_false_elim in H as [? ?]
  | H : negb _ = true |- _ => apply negb_true_iff in H
  | H : negb _ = false |- _ => apply negb_false_iff in H
  | H : (_ =? _) = true |- _ => apply Z.eqb_eq in H
  | H : (_ =? _) = false |- _ => apply Z.eqb_neq in H
  | H : (_ <? _) = true |- _ => apply Z.ltb_lt in H
  | H : (_ <? _) = false |- _ => apply Z.ltb_ge in H
  | H : (_ <=? _) = true |- _ => apply Z.leb_le in H
  | H : (_ <=? _) = false |- _ => apply Z.leb_gt in H
  end.

(** Case analysis on the next test the goal depends on. *)
Ltac case_test :=
  match goal with
  | |- context [if ?b then _ else _] =>
      lazymatch type of b with
      | bool => let E := fresh "E" in destruct b eqn:E
      end
  end.

(** Decide a boolean test of the goal by arithmetic. *)
Ltac decide_test :=
  match goal with
  | |- context [if ?b then _ else _] =>
      first [ replace b with true by (symmetry; lia)
            | replace b with false by (symmetry; lia) ]
  end.

(** Evaluate a conjunction of closed facts about concrete data. *)
Ltac eval_conj := repeat split; vm_compute; congruence.
