(* ===== verification/Smi.v ===== *)
(** Directed-route subnet management packets: the routing decisions of
    drivers/infiniband/core/smi.c, smi.h and opa_smi.h and their use on the
    receive and send paths of mad.c.

    A [__be16]/[__be32] field is modelled by its host-order value. Every access
    to the two path arrays goes through [arr_get]/[arr_set], so a handler that
    would read or write outside an array answers [None]. *)

From S2P Require Import Prelude.

Definition IB_SMP_MAX_PATH_HOPS : Z := 64.
Definition IB_SMP_DIRECTION : Z := 0x8000.
Definition IB_LID_PERMISSIVE : Z := 0xFFFF.
Definition OPA_LID_PERMISSIVE : Z := 0xFFFFFFFF.
Definition OPA_MGMT_BASE_VERSION : Z := 0x80.
Definition OPA_SM_CLASS_VERSION : Z := 0x80.
Definition IB_MGMT_CLASS_SUBN_DIRECTED_ROUTE : Z := 0x81.

Inductive smi_action := IB_SMI_DISCARD | IB_SMI_HANDLE.
Inductive smi_forward_action := IB_SMI_LOCAL | IB_SMI_SEND | IB_SMI_FORWARD.

#[export] Instance smi_action_eq_dec : EqDecision smi_action.
Proof. solve_decision. Defined.

(** [struct ib_smp]: the header fields, the data and the two paths. *)
Record ib_smp := {
  base_version : Z; mgmt_class : Z; class_version : Z; method : Z;
  status : Z; hop_ptr : Z; hop_cnt : Z; tid : Z; attr_id : Z; resv : Z;
  attr_mod : Z; mkey : Z; dr_slid : Z; dr_dlid : Z;
  reserved : list Z; data : list Z;
  initial_path : list Z; return_path : list Z
}.

(** [struct opa_smp] with the directed-route member of its route union. *)
Record opa_smp := {
  o_base_version : Z; o_mgmt_class : Z; o_class_version : Z; o_method : Z;
  o_status : Z; o_hop_ptr : Z; o_hop_cnt : Z; o_tid : Z; o_attr_id : Z;
  o_resv : Z; o_attr_mod : Z; o_mkey : Z;
  o_dr_slid : Z; o_dr_dlid : Z;
  o_initial_path : list Z; o_return_path : list Z;
  o_reserved : list Z; o_data : list Z
}.

(** The device attributes the code consults. *)
Record smi_device := {
  is_switch : bool;        (* rdma_cap_ib_switch(device) *)
  phys_port_cnt : Z;
  process_mad : bool       (* device->ops.process_mad != NULL *)
}.

Definition ib_get_smp_direction (smp : ib_smp) : bool :=
  Z.land smp.(status) IB_SMP_DIRECTION =? IB_SMP_DIRECTION.

Definition opa_get_smp_direction (smp : opa_smp) : bool :=
  Z.land smp.(o_status) IB_SMP_DIRECTION =? IB_SMP_DIRECTION.

Definition handle_if (b : bool) : smi_action :=
  if b then IB_SMI_HANDLE else IB_SMI_DISCARD.

(** [__smi_handle_dr_smp_send]: the action and the updated [*hop_ptr]. *)
Definition __smi_handle_dr_smp_send (is_switch : bool) (port_num hop_ptr hop_cnt : Z)
    (initial_path return_path : list Z) (direction : bool)
    (dr_dlid_is_permissive dr_slid_is_permissive : bool)
    : option (smi_action * Z) :=
  (* C14-6 -- valid hop_cnt values are from 0 to 63 *)
  if IB_SMP_MAX_PATH_HOPS <=? hop_cnt then Some (IB_SMI_DISCARD, hop_ptr) else
  if negb direction then
    (* C14-9:1 *)
    if c_true hop_cnt && (hop_ptr =? 0) then
      let hop_ptr := u8 (hop_ptr + 1) in
      p ← arr_get initial_path hop_ptr;
      Some (handle_if (p =? port_num), hop_ptr)
    (* C14-9:2 *)
    else if c_true hop_ptr && (hop_ptr <? hop_cnt) then
      if negb is_switch then Some (IB_SMI_DISCARD, hop_ptr) else
      let hop_ptr := u8 (hop_ptr + 1) in
      p ← arr_get initial_path hop_ptr;
      Some (handle_if (p =? port_num), hop_ptr)
    (* C14-9:3 -- end of the DR segment of path *)
    else if hop_ptr =? hop_cnt then
      Some (handle_if (is_switch || dr_dlid_is_permissive), u8 (hop_ptr + 1))
    (* C14-9:4, C14-9:5 *)
    else Some (handle_if (hop_ptr =? hop_cnt + 1), hop_ptr)
  else
    (* C14-13:1 *)
    if c_true hop_cnt && (hop_ptr =? hop_cnt + 1) then
      let hop_ptr := u8 (hop_ptr - 1) in
      p ← arr_get return_path hop_ptr;
      Some (handle_if (p =? port_num), hop_ptr)
    (* C14-13:2 *)
    else if (2 <=? hop_ptr) && (hop_ptr <=? hop_cnt) then
      if negb is_switch then Some (IB_SMI_DISCARD, hop_ptr) else
      let hop_ptr := u8 (hop_ptr - 1) in
      p ← arr_get return_path hop_ptr;
      Some (handle_if (p =? port_num), hop_ptr)
    (* C14-13:3 *)
    else if hop_ptr =? 1 then
      Some (handle_if (is_switch || dr_slid_is_permissive), u8 (hop_ptr - 1))
    (* C14-13:4, C14-13:5 *)
    else Some (handle_if (hop_ptr =? 0), hop_ptr).

(** [__smi_handle_dr_smp_recv]: the action, [*hop_ptr] and the return path. *)
Definition __smi_handle_dr_smp_recv (is_switch : bool) (port_num phys_port_cnt
    hop_ptr hop_cnt : Z) (initial_path return_path : list Z) (direction : bool)
    (dr_dlid_is_permissive dr_slid_is_permissive : bool)
    : option (smi_action * Z * list Z) :=
  if IB_SMP_MAX_PATH_HOPS <=? hop_cnt
  then Some (IB_SMI_DISCARD, hop_ptr, return_path) else
  if negb direction then
    (* C14-9:1 -- sender should have incremented hop_ptr *)
    if c_true hop_cnt && (hop_ptr =? 0)
    then Some (IB_SMI_DISCARD, hop_ptr, return_path)
    (* C14-9:2 -- intermediate hop *)
    else if c_true hop_ptr && (hop_ptr <? hop_cnt) then
      if negb is_switch then Some (IB_SMI_DISCARD, hop_ptr, return_path) else
      return_path ← arr_set return_path hop_ptr (u8 port_num);
      p ← arr_get initial_path (hop_ptr + 1);
      Some (handle_if (p <=? phys_port_cnt), hop_ptr, return_path)
    (* C14-9:3 -- end of the DR segment of path *)
    else if hop_ptr =? hop_cnt then
      return_path ← (if c_true hop_cnt
                     then arr_set return_path hop_ptr (u8 port_num)
                     else Some return_path);
      Some (handle_if (is_switch || dr_dlid_is_permissive), hop_ptr, return_path)
    (* C14-9:4, C14-9:5 *)
    else Some (handle_if (hop_ptr =? hop_cnt + 1), hop_ptr, return_path)
  else
    (* C14-13:1 *)
    if c_true hop_cnt && (hop_ptr =? hop_cnt + 1) then
      let hop_ptr := u8 (hop_ptr - 1) in
      p ← arr_get return_path hop_ptr;
      Some (handle_if (p =? port_num), hop_ptr, return_path)
    (* C14-13:2 *)
    else if (2 <=? hop_ptr) && (hop_ptr <=? hop_cnt) then
      if negb is_switch then Some (IB_SMI_DISCARD, hop_ptr, return_path) else
      p ← arr_get return_path (hop_ptr - 1);
      Some (handle_if (p <=? phys_port_cnt), hop_ptr, return_path)
    (* C14-13:3 *)
    else if hop_ptr =? 1 then
      if dr_slid_is_permissive
      then Some (IB_SMI_HANDLE, u8 (hop_ptr - 1), return_path)
      else Some (handle_if is_switch, hop_ptr, return_path)
    (* C14-13:4, C14-13:5 *)
    else Some (handle_if (hop_ptr =? 0), hop_ptr, return_path).

Definition __smi_check_forward_dr_smp (hop_ptr hop_cnt : Z) (direction : bool)
    (dr_dlid_is_permissive dr_slid_is_permissive : bool) : smi_forward_action :=
  if negb direction then
    if c_true hop_ptr && (hop_ptr <? hop_cnt) then IB_SMI_FORWARD
    else if hop_ptr =? hop_cnt then
      if dr_dlid_is_permissive then IB_SMI_SEND else IB_SMI_LOCAL
    else if hop_ptr =? hop_cnt + 1 then IB_SMI_SEND
    else IB_SMI_LOCAL
  else
    if (2 <=? hop_ptr) && (hop_ptr <=? hop_cnt) then IB_SMI_FORWARD
    else if hop_ptr =? 1 then
      if negb dr_slid_is_permissive then IB_SMI_SEND else IB_SMI_LOCAL
    else IB_SMI_LOCAL.

(** * InfiniBand packets *)

Definition set_route (smp : ib_smp) (ptr : Z) (rp : list Z) : ib_smp :=
  {| base_version := smp.(base_version); mgmt_class := smp.(mgmt_class);
     class_version := smp.(class_version); method := smp.(method);
     status := smp.(status); hop_ptr := ptr; hop_cnt := smp.(hop_cnt);
     tid := smp.(tid); attr_id := smp.(attr_id); resv := smp.(resv);
     attr_mod := smp.(attr_mod); mkey := smp.(mkey);
     dr_slid := smp.(dr_slid); dr_dlid := smp.(dr_dlid);
     reserved := smp.(reserved); data := smp.(data);
     initial_path := smp.(initial_path); return_path := rp |}.

Definition smi_handle_dr_smp_send (smp : ib_smp) (is_switch : bool) (port_num : Z)
    : option (smi_action * ib_smp) :=
  '(act, ptr) ← __smi_handle_dr_smp_send is_switch port_num
      smp.(hop_ptr) smp.(hop_cnt) smp.(initial_path) smp.(return_path)
      (ib_get_smp_direction smp)
      (smp.(dr_dlid) =? IB_LID_PERMISSIVE) (smp.(dr_slid) =? IB_LID_PERMISSIVE);
  Some (act, set_route smp ptr smp.(return_path)).

Definition smi_handle_dr_smp_recv (smp : ib_smp) (is_switch : bool)
    (port_num phys_port_cnt : Z) : option (smi_action * ib_smp) :=
  '(act, ptr, rp) ← __smi_handle_dr_smp_recv is_switch port_num phys_port_cnt
      smp.(hop_ptr) smp.(hop_cnt) smp.(initial_path) smp.(return_path)
      (ib_get_smp_direction smp)
      (smp.(dr_dlid) =? IB_LID_PERMISSIVE) (smp.(dr_slid) =? IB_LID_PERMISSIVE);
  Some (act, set_route smp ptr rp).

Definition smi_check_forward_dr_smp (smp : ib_smp) : smi_forward_action :=
  __smi_check_forward_dr_smp smp.(hop_ptr) smp.(hop_cnt) (ib_get_smp_direction smp)
    (smp.(dr_dlid) =? IB_LID_PERMISSIVE) (smp.(dr_slid) =? IB_LID_PERMISSIVE).

Definition smi_get_fwd_port (smp : ib_smp) : option Z :=
  if negb (ib_get_smp_direction smp)
  then arr_get smp.(initial_path) (smp.(hop_ptr) + 1)
  else arr_get smp.(return_path) (smp.(hop_ptr) - 1).

Definition smi_check_local_smp (smp : ib_smp) (device : smi_device) : smi_action :=
  handle_if (device.(process_mad) && negb (ib_get_smp_direction smp)
             && (smp.(hop_ptr) =? smp.(hop_cnt) + 1)).

Definition smi_check_local_returning_smp (smp : ib_smp) (device : smi_device)
    : smi_action :=
  handle_if (device.(process_mad) && ib_get_smp_direction smp
             && (smp.(hop_ptr) =? 0)).

(** * OPA packets *)

Definition opa_set_route (smp : opa_smp) (ptr : Z) (rp : list Z) : opa_smp :=
  {| o_base_version := smp.(o_base_version); o_mgmt_class := smp.(o_mgmt_class);
     o_class_version := smp.(o_class_version); o_method := smp.(o_method);
     o_status := smp.(o_status); o_hop_ptr := ptr; o_hop_cnt := smp.(o_hop_cnt);
     o_tid := smp.(o_tid); o_attr_id := smp.(o_attr_id); o_resv := smp.(o_resv);
     o_attr_mod := smp.(o_attr_mod); o_mkey := smp.(o_mkey);
     o_dr_slid := smp.(o_dr_slid); o_dr_dlid := smp.(o_dr_dlid);
     o_initial_path := smp.(o_initial_path); o_return_path := rp;
     o_reserved := smp.(o_reserved); o_data := smp.(o_data) |}.

Definition opa_smi_handle_dr_smp_send (smp : opa_smp) (is_switch : bool)
    (port_num : Z) : option (smi_action * opa_smp) :=
  '(act, ptr) ← __smi_handle_dr_smp_send is_switch port_num
      smp.(o_hop_ptr) smp.(o_hop_cnt) smp.(o_initial_path) smp.(o_return_path)
      (opa_get_smp_direction smp)
      (smp.(o_dr_dlid) =? OPA_LID_PERMISSIVE)
      (smp.(o_dr_slid) =? OPA_LID_PERMISSIVE);
  Some (act, opa_set_route smp ptr smp.(o_return_path)).

Definition opa_smi_handle_dr_smp_recv (smp : opa_smp) (is_switch : bool)
    (port_num phys_port_cnt : Z) : option (smi_action * opa_smp) :=
  '(act, ptr, rp) ← __smi_handle_dr_smp_recv is_switch port_num phys_port_cnt
      smp.(o_hop_ptr) smp.(o_hop_cnt) smp.(o_initial_path) smp.(o_return_path)
      (opa_get_smp_direction smp)
      (smp.(o_dr_dlid) =? OPA_LID_PERMISSIVE)
      (smp.(o_dr_slid) =? OPA_LID_PERMISSIVE);
  Some (act, opa_set_route smp ptr rp).

Definition opa_smi_check_forward_dr_smp (smp : opa_smp) : smi_forward_action :=
  __smi_check_forward_dr_smp smp.(o_hop_ptr) smp.(o_hop_cnt)
    (opa_get_smp_direction smp)
    (smp.(o_dr_dlid) =? OPA_LID_PERMISSIVE)
    (smp.(o_dr_slid) =? OPA_LID_PERMISSIVE).

Definition opa_smi_get_fwd_port (smp : opa_smp) : option Z :=
  if negb (opa_get_smp_direction smp)
  then arr_get smp.(o_initial_path) (smp.(o_hop_ptr) + 1)
  else arr_get smp.(o_return_path) (smp.(o_hop_ptr) - 1).

Definition opa_smi_check_local_smp (smp : opa_smp) (device : smi_device)
    : smi_action :=
  handle_if (device.(process_mad) && negb (opa_get_smp_direction smp)
             && (smp.(o_hop_ptr) =? smp.(o_hop_cnt) + 1)).

Definition opa_smi_check_local_returning_smp (smp : opa_smp) (device : smi_device)
    : smi_action :=
  handle_if (device.(process_mad) && opa_get_smp_direction smp
             && (smp.(o_hop_ptr) =? 0)).

(** * The interface the MAD layer relies on

    [handle_ib_smi] and [handle_opa_smi] of mad.c are the same program over the
    two packet formats; the class lists the operations they call and the laws
    the routing theorems need. *)

Record dr_view := {
  v_ptr : Z; v_cnt : Z; v_init : list Z; v_ret : list Z; v_dir : bool;
  v_dlid_perm : bool; v_slid_perm : bool
}.

Class DrSmp (S : Type) := {
  view : S -> dr_view;
  set_view_route : S -> Z -> list Z -> S;
  dr_recv : S -> bool -> Z -> Z -> option (smi_action * S);
  dr_send : S -> bool -> Z -> option (smi_action * S);
  dr_check_forward : S -> smi_forward_action;
  dr_fwd_port : S -> option Z;
  dr_check_local : S -> smi_device -> smi_action;
  dr_check_local_returning : S -> smi_device -> smi_action
}.

Definition with_route (v : dr_view) (ptr : Z) (rp : list Z) : dr_view :=
  {| v_ptr := ptr; v_cnt := v.(v_cnt); v_init := v.(v_init); v_ret := rp;
     v_dir := v.(v_dir); v_dlid_perm := v.(v_dlid_perm);
     v_slid_perm := v.(v_slid_perm) |}.

Class DrSmpLaws (S : Type) `{DrSmp S} := {
  view_set_route s ptr rp : view (set_view_route s ptr rp) = with_route (view s) ptr rp;
  dr_recv_spec s sw port phys :
    dr_recv s sw port phys
    = '(act, ptr, rp) ← __smi_handle_dr_smp_recv sw port phys (view s).(v_ptr)
          (view s).(v_cnt) (view s).(v_init) (view s).(v_ret) (view s).(v_dir)
          (view s).(v_dlid_perm) (view s).(v_slid_perm);
      Some (act, set_view_route s ptr rp);
  dr_send_spec s sw port :
    dr_send s sw port
    = '(act, ptr) ← __smi_handle_dr_smp_send sw port (view s).(v_ptr)
          (view s).(v_cnt) (view s).(v_init) (view s).(v_ret) (view s).(v_dir)
          (view s).(v_dlid_perm) (view s).(v_slid_perm);
      Some (act, set_view_route s ptr (view s).(v_ret));
  dr_check_forward_spec s :
    dr_check_forward s
    = __smi_check_forward_dr_smp (view s).(v_ptr) (view s).(v_cnt) (view s).(v_dir)
        (view s).(v_dlid_perm) (view s).(v_slid_perm);
  dr_fwd_port_spec s :
    dr_fwd_port s
    = if negb (view s).(v_dir) then arr_get (view s).(v_init) ((view s).(v_ptr) + 1)
      else arr_get (view s).(v_ret) ((view s).(v_ptr) - 1);
  dr_check_local_spec s d :
    dr_check_local s d
    = handle_if (d.(process_mad) && negb (view s).(v_dir)
                 && ((view s).(v_ptr) =? (view s).(v_cnt) + 1));
  dr_check_local_returning_spec s d :
    dr_check_local_returning s d
    = handle_if (d.(process_mad) && (view s).(v_dir) && ((view s).(v_ptr) =? 0))
}.

Definition ib_view (s : ib_smp) : dr_view :=
  {| v_ptr := s.(hop_ptr); v_cnt := s.(hop_cnt); v_init := s.(initial_path);
     v_ret := s.(return_path); v_dir := ib_get_smp_direction s;
     v_dlid_perm := s.(dr_dlid) =? IB_LID_PERMISSIVE;
     v_slid_perm := s.(dr_slid) =? IB_LID_PERMISSIVE |}.

Definition opa_view (s : opa_smp) : dr_view :=
  {| v_ptr := s.(o_hop_ptr); v_cnt := s.(o_hop_cnt); v_init := s.(o_initial_path);
     v_ret := s.(o_return_path); v_dir := opa_get_smp_direction s;
     v_dlid_perm := s.(o_dr_dlid) =? OPA_LID_PERMISSIVE;
     v_slid_perm := s.(o_dr_slid) =? OPA_LID_PERMISSIVE |}.

#[export] Instance ib_dr_smp : DrSmp ib_smp := {
  view := ib_view; set_view_route := set_route;
  dr_recv := smi_handle_dr_smp_recv; dr_send := smi_handle_dr_smp_send;
  dr_check_forward := smi_check_forward_dr_smp; dr_fwd_port := smi_get_fwd_port;
  dr_check_local := smi_check_local_smp;
  dr_check_local_returning := smi_check_local_returning_smp
}.

#[export] Instance opa_dr_smp : DrSmp opa_smp := {
  view := opa_view; set_view_route := opa_set_route;
  dr_recv := opa_smi_handle_dr_smp_recv; dr_send := opa_smi_handle_dr_smp_send;
  dr_check_forward := opa_smi_check_forward_dr_smp;
  dr_fwd_port := opa_smi_get_fwd_port;
  dr_check_local := opa_smi_check_local_smp;
  dr_check_local_returning := opa_smi_check_local_returning_smp
}.

#[export] Instance ib_dr_smp_laws : DrSmpLaws ib_smp.
Proof. split; reflexivity. Qed.

#[export] Instance opa_dr_smp_laws : DrSmpLaws opa_smp.
Proof. split; reflexivity. Qed.

(** * The receive path of mad.c

    Result: the action returned to [ib_mad_recv_done], the port the packet is
    forwarded through when [agent_send_response] is called, and the packet. *)

Definition handle_ib_smi (smp : ib_smp) (device : smi_device) (port_num : Z)
    : option (smi_action * option Z * ib_smp) :=
  '(act, smp) ← smi_handle_dr_smp_recv smp device.(is_switch) port_num
                  device.(phys_port_cnt);
  if decide (act = IB_SMI_DISCARD) then Some (IB_SMI_DISCARD, None, smp) else
  match smi_check_forward_dr_smp smp with
  | IB_SMI_LOCAL => Some (IB_SMI_HANDLE, None, smp)
  | IB_SMI_SEND =>
      '(act, smp) ← smi_handle_dr_smp_send smp device.(is_switch) port_num;
      if decide (act = IB_SMI_DISCARD) then Some (IB_SMI_DISCARD, None, smp)
      else if decide (smi_check_local_smp smp device = IB_SMI_DISCARD)
      then Some (IB_SMI_DISCARD, None, smp)
      else Some (IB_SMI_HANDLE, None, smp)
  | IB_SMI_FORWARD =>
      if device.(is_switch) then
        port ← smi_get_fwd_port smp;
        Some (IB_SMI_DISCARD, Some port, smp)
      else Some (IB_SMI_HANDLE, None, smp)
  end.

Definition handle_opa_smi (smp : opa_smp) (device : smi_device) (port_num : Z)
    : option (smi_action * option Z * opa_smp) :=
  '(act, smp) ← opa_smi_handle_dr_smp_recv smp device.(is_switch) port_num
                  device.(phys_port_cnt);
  if decide (act = IB_SMI_DISCARD) then Some (IB_SMI_DISCARD, None, smp) else
  match opa_smi_check_forward_dr_smp smp with
  | IB_SMI_LOCAL => Some (IB_SMI_HANDLE, None, smp)
  | IB_SMI_SEND =>
      '(act, smp) ← opa_smi_handle_dr_smp_send smp device.(is_switch) port_num;
      if decide (act = IB_SMI_DISCARD) then Some (IB_SMI_DISCARD, None, smp)
      else if decide (opa_smi_check_local_smp smp device = IB_SMI_DISCARD)
      then Some (IB_SMI_DISCARD, None, smp)
      else Some (IB_SMI_HANDLE, None, smp)
  | IB_SMI_FORWARD =>
      if device.(is_switch) then
        port ← opa_smi_get_fwd_port smp;
        Some (IB_SMI_DISCARD, Some port, smp)
      else Some (IB_SMI_HANDLE, None, smp)
  end.

(** * The send path of mad.c: the routing decision of [handle_outgoing_dr_smp] *)

Inductive out_decision :=
  | OutError (e : Z)        (* negative errno, nothing is sent *)
  | OutPost                 (* post the packet on the QP *)
  | OutLocal (drslid : Z).  (* hand the packet to the local process_mad *)

Definition outgoing_port_num (device : smi_device) (mgmt_class wr_port agent_port : Z)
    : Z :=
  if device.(is_switch) && (mgmt_class =? IB_MGMT_CLASS_SUBN_DIRECTED_ROUTE)
  then wr_port else agent_port.

Definition handle_outgoing_dr_smp_ib (smp : ib_smp) (device : smi_device)
    (port_num : Z) : option (out_decision * ib_smp) :=
  '(bad, smp) ←
    (if (if ib_get_smp_direction smp then smp.(dr_dlid) else smp.(dr_slid))
        =? IB_LID_PERMISSIVE
     then '(act, smp) ← smi_handle_dr_smp_send smp device.(is_switch) port_num;
          Some (bool_decide (act = IB_SMI_DISCARD), smp)
     else Some (false, smp));
  if bad : bool then Some (OutError (- EINVAL), smp)
  else if decide (smi_check_local_smp smp device = IB_SMI_DISCARD /\
                  smi_check_local_returning_smp smp device = IB_SMI_DISCARD)
  then Some (OutPost, smp)
  else Some (OutLocal smp.(dr_slid), smp).

Definition handle_outgoing_dr_smp_opa (smp : opa_smp) (device : smi_device)
    (port_num : Z) : option (out_decision * opa_smp) :=
  '(bad, smp) ←
    (if (if opa_get_smp_direction smp then smp.(o_dr_dlid) else smp.(o_dr_slid))
        =? OPA_LID_PERMISSIVE
     then '(act, smp) ← opa_smi_handle_dr_smp_send smp device.(is_switch) port_num;
          Some (bool_decide (act = IB_SMI_DISCARD), smp)
     else Some (false, smp));
  if bad : bool then Some (OutError (- EINVAL), smp)
  else
    let opa_drslid := smp.(o_dr_slid) in
    if negb (opa_drslid =? OPA_LID_PERMISSIVE)
       && c_true (Z.land opa_drslid 0xffff0000)
    then Some (OutError (- EINVAL), smp)
    else if decide (opa_smi_check_local_smp smp device = IB_SMI_DISCARD /\
                    opa_smi_check_local_returning_smp smp device = IB_SMI_DISCARD)
    then Some (OutPost, smp)
    else Some (OutLocal (Z.land opa_drslid 0xffff), smp).

(** * Generic form of the two paths over the interface *)

Section generic.
Context {P : Type} `{DrSmpLaws P}.
Implicit Types (s : P) (d : smi_device).

Definition handle_dr_smi s d (port : Z) : option (smi_action * option Z * P) :=
  '(act, s) ← dr_recv s d.(is_switch) port d.(phys_port_cnt);
  if decide (act = IB_SMI_DISCARD) then Some (IB_SMI_DISCARD, None, s) else
  match dr_check_forward s with
  | IB_SMI_LOCAL => Some (IB_SMI_HANDLE, None, s)
  | IB_SMI_SEND =>
      '(act, s) ← dr_send s d.(is_switch) port;
      if decide (act = IB_SMI_DISCARD) then Some (IB_SMI_DISCARD, None, s)
      else if decide (dr_check_local s d = IB_SMI_DISCARD)
      then Some (IB_SMI_DISCARD, None, s)
      else Some (IB_SMI_HANDLE, None, s)
  | IB_SMI_FORWARD =>
      if d.(is_switch) then p ← dr_fwd_port s; Some (IB_SMI_DISCARD, Some p, s)
      else Some (IB_SMI_HANDLE, None, s)
  end.

(** Post a packet whose source and destination LIDs are both permissive. *)
Definition post_dr_smi s d (port : Z) : option P :=
  '(act, s) ← dr_send s d.(is_switch) port;
  if decide (act = IB_SMI_HANDLE /\ dr_check_local s d = IB_SMI_DISCARD /\
             dr_check_local_returning s d = IB_SMI_DISCARD)
  then Some s else None.

(** ** Memory safety *)

Definition wf_view (v : dr_view) : Prop :=
  fits 8 v.(v_ptr) /\ fits 8 v.(v_cnt) /\ length v.(v_init) = 64%nat /\
  length v.(v_ret) = 64%nat.

End generic.

(** ** The operations a network of nodes is made of

    [dr_handle] is the receive path and [dr_post] the send path of a packet
    format; the laws say that they are the generic programs above. *)

Class DrMad (P : Type) := {
  dr_handle : P -> smi_device -> Z -> option (smi_action * option Z * P);
  dr_post : P -> smi_device -> Z -> option P
}.

Class DrMadLaws (P : Type) `{DrSmpLaws P} `{DrMad P} := {
  dr_handle_spec s d port : dr_handle s d port = handle_dr_smi s d port;
  dr_post_spec s d port :
    (view s).(v_dlid_perm) = true -> (view s).(v_slid_perm) = true ->
    dr_post s d port = post_dr_smi s d port
}.

Section network.
Context {P : Type} `{DrMad P}.
Implicit Types (s : P).

(** One switch: receive on [hop.1], forward, post on the chosen port. *)
Definition switch_device (phys : Z) : smi_device :=
  {| is_switch := true; phys_port_cnt := phys; process_mad := true |}.

Definition switch_hop s (hop : Z * Z) : option (Z * P) :=
  '(_, fwd, s) ← dr_handle s (switch_device hop.2) hop.1;
  out ← fwd;
  s ← dr_post s (switch_device hop.2) out;
  Some (out, s).

Fixpoint relay s (hops : list (Z * Z)) : option (list Z * P) :=
  match hops with
  | [] => Some ([], s)
  | hop :: hops =>
      '(out, s) ← switch_hop s hop;
      '(outs, s) ← relay s hops;
      Some (out :: outs, s)
  end.

(** A request from [src] through the switches [hops] to [dst]; the result
    lists the egress ports used after the first. *)
Definition dr_transit s (src : smi_device) (first_port : Z)
    (hops : list (Z * Z)) (dst : smi_device) (dst_port : Z)
    : option (list Z * P) :=
  s ← dr_post s src first_port;
  '(outs, s) ← relay s hops;
  '(act, fwd, s) ← dr_handle s dst dst_port;
  if decide (act = IB_SMI_HANDLE /\ fwd = None) then Some (outs, s) else None.
End network.

Ltac in_bounds :=
  match goal with
  | |- context [arr_get ?l ?i] =>
      let v := fresh "v" in let E := fresh "Ev" in
      destruct (arr_get_Some l i) as [v E]; [lia|rewrite E; clear E]
  | |- context [arr_set ?l ?i ?v] => rewrite (arr_set_Some l i v) by lia
  end.

(** ** Memory safety of the four decision functions *)

Lemma recv_safe sw port phys ptr cnt ip rp dir dl sl :
  fits 8 ptr -> fits 8 cnt -> length ip = 64%nat -> length rp = 64%nat ->
  exists act ptr' rp',
    __smi_handle_dr_smp_recv sw port phys ptr cnt ip rp dir dl sl
    = Some (act, ptr', rp') /\ fits 8 ptr' /\ length rp' = 64%nat /\
    (act = IB_SMI_HANDLE -> cnt < 64).
Proof.
  unfold __smi_handle_dr_smp_recv, IB_SMP_MAX_PATH_HOPS, c_true, fits.
  intros Hp Hc Hi Hr.
  repeat case_test; bool_arith; cbn [mbind option_bind negb];
    rewrite ?(wrap_small 8 (ptr + 1)), ?(wrap_small 8 (ptr - 1)) by (unfold fits; lia); repeat in_bounds;
    cbn [mbind option_bind]; do 3 eexists;
    (split; [reflexivity|]); rewrite ?length_insert; split_and!; try done; lia.
Qed.

Lemma send_safe sw port ptr cnt ip rp dir dl sl :
  fits 8 ptr -> fits 8 cnt -> length ip = 64%nat -> length rp = 64%nat ->
  exists act ptr',
    __smi_handle_dr_smp_send sw port ptr cnt ip rp dir dl sl = Some (act, ptr') /\
    fits 8 ptr'.
Proof.
  unfold __smi_handle_dr_smp_send, IB_SMP_MAX_PATH_HOPS, c_true, fits.
  intros Hp Hc Hi Hr.
  repeat case_test; bool_arith; cbn [mbind option_bind negb];
    rewrite ?(wrap_small 8 (ptr + 1)), ?(wrap_small 8 (ptr - 1)) by (unfold fits; lia); repeat in_bounds;
    cbn [mbind option_bind]; do 2 eexists; (split; [reflexivity|lia]).
Qed.

(** A packet that is to be forwarded names its next port inside the path. *)
Lemma forward_safe ptr cnt dir dl sl :
  0 <= ptr -> cnt < 64 -> __smi_check_forward_dr_smp ptr cnt dir dl sl = IB_SMI_FORWARD ->
  (dir = false /\ 0 < ptr + 1 < 64) \/ (dir = true /\ 0 < ptr - 1 < 64).
Proof.
  unfold __smi_check_forward_dr_smp, c_true. intros Hp Hc.
  destruct dir; cbn [negb]; repeat case_test; bool_arith; try done; intros _;
    [right|left]; split; (done || lia).
Qed.

Section safety_lemmas.
Context {P : Type} `{DrSmpLaws P}.
Implicit Types (s : P) (d : smi_device) (v : dr_view).

Lemma handle_dr_smi_safe s d port :
  wf_view (view s) ->
  exists act fwd s', handle_dr_smi s d port = Some (act, fwd, s') /\
                     wf_view (view s').
Proof.
  intros (Hp & Hc & Hi & Hr). unfold handle_dr_smi.
  rewrite dr_recv_spec.
  destruct (recv_safe (is_switch d) port (phys_port_cnt d) (v_ptr (view s))
    (v_cnt (view s)) (v_init (view s)) (v_ret (view s)) (v_dir (view s))
    (v_dlid_perm (view s)) (v_slid_perm (view s)))
    as (act & ptr & rp & -> & Hp' & Hr' & Hact); try done.
  cbn [mbind option_bind].
  assert (Hwf : wf_view (view (set_view_route s ptr rp)))
    by (rewrite view_set_route; unfold wf_view; naive_solver).
  destruct (decide (act = IB_SMI_DISCARD)) as [|Hnd]; [eauto 6|].
  assert (v_cnt (view s) < 64) by (destruct act; naive_solver).
  destruct (dr_check_forward _) eqn:Ef.
  - eauto 6.
  - rewrite dr_send_spec, view_set_route. cbn [with_route v_ptr v_cnt v_init v_ret
      v_dir v_dlid_perm v_slid_perm].
    destruct (send_safe (is_switch d) port ptr (v_cnt (view s)) (v_init (view s)) rp
      (v_dir (view s)) (v_dlid_perm (view s)) (v_slid_perm (view s)))
      as (act2 & ptr2 & -> & Hp2); try done.
    cbn [mbind option_bind]. unfold wf_view in *.
    repeat case_decide; do 3 eexists; (split; [reflexivity|]);
      rewrite !view_set_route; cbn; naive_solver.
  - case_test; [|eauto 6].
    rewrite dr_check_forward_spec, view_set_route in Ef. cbn in Ef.
    apply forward_safe in Ef; [|unfold fits in *; lia|lia].
    rewrite dr_fwd_port_spec, view_set_route. cbn.
    destruct Ef as [[-> ?]|[-> ?]]; cbn; in_bounds; cbn; eauto 6.
Qed.

End safety_lemmas.

(** ** Routing *)

Section routing_lemmas.
Context {P : Type} `{DrMadLaws P}.
Implicit Types (s : P) (d : smi_device) (v : dr_view).

Definition dr_ready v : Prop :=
  wf_view v /\ v.(v_dlid_perm) = true /\ v.(v_slid_perm) = true /\ v.(v_cnt) < 64.

Ltac view_simpl :=
  rewrite ?view_set_route;
  cbn [with_route v_ptr v_cnt v_init v_ret v_dir v_dlid_perm v_slid_perm
       mbind option_bind negb switch_device is_switch phys_port_cnt process_mad
       fst snd].

(** An intermediate switch passes a request on: it records the arrival port
    in the return path and sends through the next port of the path. *)
Lemma switch_hop_request s in_port phys e :
  dr_ready (view s) -> (view s).(v_dir) = false ->
  0 < (view s).(v_ptr) < (view s).(v_cnt) -> fits 8 in_port ->
  (view s).(v_init) !! Z.to_nat ((view s).(v_ptr) + 1) = Some e -> e <= phys ->
  exists s', switch_hop s (in_port, phys) = Some (e, s') /\
    view s' = with_route (view s) ((view s).(v_ptr) + 1)
      (<[Z.to_nat (view s).(v_ptr) := in_port]> (view s).(v_ret)).
Proof.
  intros ((Hp & Hc & Hi & Hr) & Hdl & Hsl & Hn) Hdir Hptr Hin He Hle.
  unfold fits in *.
  assert (Hg : arr_get (v_init (view s)) (v_ptr (view s) + 1) = Some e)
    by (rewrite arr_get_lookup; [done|lia]).
  unfold switch_hop. rewrite dr_handle_spec. unfold handle_dr_smi.
  rewrite dr_recv_spec. unfold __smi_handle_dr_smp_recv, IB_SMP_MAX_PATH_HOPS, c_true.
  rewrite Hdir. view_simpl. do 3 decide_test.
  rewrite arr_set_Some by lia. view_simpl. rewrite Hg, wrap_small by done. view_simpl.
  rewrite (proj2 (Z.leb_le e phys)) by done. cbn [handle_if].
  rewrite decide_False by done.
  rewrite dr_check_forward_spec. view_simpl. unfold __smi_check_forward_dr_smp, c_true.
  rewrite Hdir. cbn [negb]. decide_test.
  rewrite dr_fwd_port_spec. view_simpl. rewrite Hdir. cbn [negb]. rewrite Hg. view_simpl.
  rewrite dr_post_spec by (rewrite !view_set_route; done). unfold post_dr_smi.
  rewrite dr_send_spec. view_simpl. rewrite Hdir.
  unfold __smi_handle_dr_smp_send, IB_SMP_MAX_PATH_HOPS, c_true. view_simpl.
  do 3 decide_test. rewrite wrap_small by (unfold fits; lia). rewrite Hg. view_simpl.
  rewrite Z.eqb_refl. cbn [handle_if].
  rewrite dr_check_local_spec, dr_check_local_returning_spec. view_simpl. rewrite Hdir.
  cbn [negb andb]. rewrite decide_True.
  2:{ replace (_ =? v_cnt _ + 1) with false by lia. done. }
  view_simpl. eexists. split; [reflexivity|]. by rewrite !view_set_route.
Qed.
(** On the way back it sends through the port the request arrived on. *)
Lemma switch_hop_response s in_port phys e :
  dr_ready (view s) -> (view s).(v_dir) = true ->
  2 <= (view s).(v_ptr) <= (view s).(v_cnt) ->
  (view s).(v_ret) !! Z.to_nat ((view s).(v_ptr) - 1) = Some e -> e <= phys ->
  exists s', switch_hop s (in_port, phys) = Some (e, s') /\
    view s' = with_route (view s) ((view s).(v_ptr) - 1) (view s).(v_ret).
Proof.
  intros ((Hp & Hc & Hi & Hr) & Hdl & Hsl & Hn) Hdir Hptr He Hle.
  unfold fits in *.
  assert (Hg : arr_get (v_ret (view s)) (v_ptr (view s) - 1) = Some e)
    by (rewrite arr_get_lookup; [done|lia]).
  unfold switch_hop. rewrite dr_handle_spec. unfold handle_dr_smi.
  rewrite dr_recv_spec. unfold __smi_handle_dr_smp_recv, IB_SMP_MAX_PATH_HOPS, c_true.
  rewrite Hdir. view_simpl. do 3 decide_test. rewrite Hg. view_simpl.
  rewrite (proj2 (Z.leb_le e phys)) by done. cbn [handle_if].
  rewrite decide_False by done.
  rewrite dr_check_forward_spec. view_simpl. unfold __smi_check_forward_dr_smp, c_true.
  rewrite Hdir. cbn [negb]. decide_test.
  rewrite dr_fwd_port_spec. view_simpl. rewrite Hdir. cbn [negb]. rewrite Hg. view_simpl.
  rewrite dr_post_spec by (rewrite !view_set_route; done). unfold post_dr_smi.
  rewrite dr_send_spec. view_simpl. rewrite Hdir.
  unfold __smi_handle_dr_smp_send, IB_SMP_MAX_PATH_HOPS, c_true. view_simpl.
  do 3 decide_test. rewrite wrap_small by (unfold fits; lia). rewrite Hg. view_simpl.
  rewrite Z.eqb_refl. cbn [handle_if].
  rewrite dr_check_local_spec, dr_check_local_returning_spec. view_simpl. rewrite Hdir.
  rewrite andb_false_r, andb_true_r. cbn [negb andb]. rewrite decide_True.
  2:{ replace (_ =? 0) with false by lia. done. }
  view_simpl. eexists. split; [reflexivity|]. by rewrite !view_set_route.
Qed.

(** Ready views stay ready when the pointer moves inside the path. *)
Lemma dr_ready_route v ptr rp :
  dr_ready v -> fits 8 ptr -> length rp = length v.(v_ret) ->
  dr_ready (with_route v ptr rp).
Proof. intros ((?&?&?&?)&?&?&?) ? ?. unfold dr_ready, wf_view; cbn. split_and!; (done || lia). Qed.

(** The ports of the path from hop [k] on that the switches [hops] serve. *)
Definition route_ok (path : list Z) (hops : list (Z * Z)) : Prop :=
  Forall2 (fun e hop => e <= hop.2 /\ fits 8 hop.1) path hops.

Lemma relay_request hops s path :
  dr_ready (view s) -> (view s).(v_dir) = false -> 0 < (view s).(v_ptr) ->
  (view s).(v_ptr) + Z.of_nat (length hops) = (view s).(v_cnt) ->
  path = take (length hops)
           (drop (Z.to_nat ((view s).(v_ptr) + 1)) (view s).(v_init)) ->
  route_ok path hops ->
  exists s', relay s hops = Some (path, s') /\
    view s' = with_route (view s) (view s).(v_cnt)
      (list_inserts (Z.to_nat (view s).(v_ptr)) hops.*1 (view s).(v_ret)).
Proof.
  revert s path. induction hops as [|[i phys] hops IH]; intros s path Hrd Hdir Hp Hc -> Hok.
  { cbn in *. exists s. split; [done|]. 
    replace (v_cnt (view s)) with (v_ptr (view s)) by lia. by destruct (view s). }
  pose proof Hrd as [Hwf Hrd'].
  pose proof Hwf as (Hpf & Hcf & Hi & Hr). unfold fits in Hpf, Hcf.
  cbn [length] in *.
  destruct (lookup_lt_is_Some_2 (v_init (view s)) (Z.to_nat (v_ptr (view s) + 1)))
    as [e He]; [destruct Hrd' as (_ & _ & ?); lia|].
  rewrite (drop_S _ _ _ He) in *. cbn [take] in *.
  apply Forall2_cons_1 in Hok as [[Hle Hfit] Hok].
  destruct (switch_hop_request s i phys e) as (s1 & Hhop & Hv1);
    [done..|lia|done|done|done|].
  destruct (IH s1 (take (length hops) (drop (S (Z.to_nat (v_ptr (view s) + 1)))
    (v_init (view s))))) as (s2 & Hrel & Hv2); rewrite ?Hv1; cbn.
  - apply dr_ready_route; [done|unfold fits; lia|apply length_insert].
  - done.
  - lia.
  - lia.
  - do 2 f_equal. lia.
  - done.
  - exists s2. cbn. rewrite Hhop. cbn. rewrite Hrel. cbn. split; [done|].
    rewrite Hv2, Hv1. unfold with_route; cbn. f_equal.
    replace (Z.to_nat (v_ptr (view s) + 1)) with (S (Z.to_nat (v_ptr (view s)))) by lia.
    symmetry. apply list_insert_inserts_lt. lia.
Qed.
(** The response visits the switches in reverse order, entering each one by
    the port [i'] and leaving it by the port the request entered. *)
Lemma relay_response hops s path :
  dr_ready (view s) -> (view s).(v_dir) = true -> 1 <= (view s).(v_ptr) ->
  (view s).(v_ptr) = 1 + Z.of_nat (length hops) ->
  (view s).(v_ptr) <= (view s).(v_cnt) ->
  path = reverse (take (length hops) (drop 1 (view s).(v_ret))) ->
  route_ok path hops ->
  exists s', relay s hops = Some (path, s') /\
    view s' = with_route (view s) 1 (view s).(v_ret).
Proof.
  revert s path. induction hops as [|[i phys] hops IH]; intros s path Hrd Hdir Hp1 Hl Hc -> Hok.
  { cbn in *. exists s. split; [done|].
    replace 1 with (v_ptr (view s)) by lia. by destruct (view s). }
  pose proof Hrd as [Hwf Hrd'].
  pose proof Hwf as (Hpf & Hcf & Hi & Hr). unfold fits in Hpf, Hcf.
  cbn [length] in *.
  destruct (lookup_lt_is_Some_2 (v_ret (view s)) (S (length hops))) as [e He];
    [destruct Hrd' as (_ & _ & ?); lia|].
  rewrite (take_S_r _ _ e), reverse_app in * by (rewrite lookup_drop; done).
  cbn [reverse app] in *.
  apply Forall2_cons_1 in Hok as [[Hle Hfit] Hok].
  destruct (switch_hop_response s i phys e) as (s1 & Hhop & Hv1);
    [done..|lia| |done|].
  { rewrite <- He. f_equal. lia. }
  destruct (IH s1 (reverse (take (length hops) (drop 1 (v_ret (view s))))))
    as (s2 & Hrel & Hv2); rewrite ?Hv1; cbn; try done; try lia.
  - apply dr_ready_route; [done|unfold fits; lia|done].
  - exists s2. cbn [relay]. rewrite Hhop. cbn. rewrite Hrel. cbn. split; [done|].
    by rewrite Hv2, Hv1.
Qed.

(** *** End points *)

Lemma post_request s d port :
  dr_ready (view s) -> (view s).(v_dir) = false -> (view s).(v_ptr) = 0 ->
  0 < (view s).(v_cnt) -> (view s).(v_init) !! 1%nat = Some port ->
  exists s', dr_post s d port = Some s' /\
    view s' = with_route (view s) 1 (view s).(v_ret).
Proof.
  intros (Hwf & Hdl & Hsl & Hn) Hdir Hp Hc Hi.
  rewrite dr_post_spec by done. unfold post_dr_smi. rewrite dr_send_spec.
  unfold __smi_handle_dr_smp_send, IB_SMP_MAX_PATH_HOPS, c_true.
  rewrite Hdir, Hp. cbn [negb]. do 2 decide_test.
  change (u8 (0 + 1)) with 1. rewrite arr_get_lookup by lia.
  change (Z.to_nat 1) with 1%nat. rewrite Hi. view_simpl.
  rewrite Z.eqb_refl. cbn [handle_if].
  rewrite dr_check_local_spec, dr_check_local_returning_spec. view_simpl. rewrite Hdir.
  rewrite andb_false_r, andb_true_r. rewrite decide_True.
  2:{ replace (1 =? _) with false by lia. by rewrite andb_false_r. }
  eexists. split; [reflexivity|]. by rewrite view_set_route.
Qed.

Lemma post_response s d port :
  dr_ready (view s) -> (view s).(v_dir) = true ->
  (view s).(v_ptr) = (view s).(v_cnt) + 1 -> 0 < (view s).(v_cnt) ->
  (view s).(v_ret) !! Z.to_nat (view s).(v_cnt) = Some port ->
  exists s', dr_post s d port = Some s' /\
    view s' = with_route (view s) (view s).(v_cnt) (view s).(v_ret).
Proof.
  intros (Hwf & Hdl & Hsl & Hn) Hdir Hp Hc Hi.
  rewrite dr_post_spec by done. unfold post_dr_smi. rewrite dr_send_spec.
  unfold __smi_handle_dr_smp_send, IB_SMP_MAX_PATH_HOPS, c_true.
  rewrite Hdir, Hp. cbn [negb]. do 2 decide_test.
  replace (u8 (v_cnt (view s) + 1 - 1)) with (v_cnt (view s))
    by (rewrite wrap_small; unfold fits; lia).
  rewrite arr_get_lookup, Hi by lia. view_simpl.
  rewrite Z.eqb_refl. cbn [handle_if].
  rewrite dr_check_local_spec, dr_check_local_returning_spec. view_simpl. rewrite Hdir.
  rewrite andb_false_r, andb_true_r. rewrite decide_True.
  2:{ replace (_ =? 0) with false by lia. by rewrite andb_false_r. }
  eexists. split; [reflexivity|]. by rewrite view_set_route.
Qed.

(** The last node of the route hands the request to its management agent. *)
Lemma arrive_request s d port :
  dr_ready (view s) -> (view s).(v_dir) = false -> d.(process_mad) = true ->
  (view s).(v_ptr) = (view s).(v_cnt) -> 0 < (view s).(v_cnt) -> fits 8 port ->
  exists s', dr_handle s d port = Some (IB_SMI_HANDLE, None, s') /\
    view s' = with_route (view s) ((view s).(v_cnt) + 1)
                (<[Z.to_nat (view s).(v_cnt) := port]> (view s).(v_ret)).
Proof.
  intros ((_ & _ & Hi & Hr) & Hdl & Hsl & Hn) Hdir Hpm Hp Hc Hf.
  rewrite dr_handle_spec. unfold handle_dr_smi. rewrite dr_recv_spec.
  unfold __smi_handle_dr_smp_recv, IB_SMP_MAX_PATH_HOPS, c_true.
  rewrite Hdir, Hp, Hdl. cbn [negb]. do 3 decide_test.
  rewrite Z.eqb_refl. decide_test. rewrite arr_set_Some by lia. view_simpl.
  rewrite orb_true_r. cbn [handle_if]. rewrite decide_False by done.
  rewrite dr_check_forward_spec. view_simpl. unfold __smi_check_forward_dr_smp, c_true.
  rewrite Hdir, Hdl. cbn [negb]. decide_test. rewrite Z.eqb_refl.
  rewrite dr_send_spec. view_simpl. rewrite Hdir, Hdl.
  unfold __smi_handle_dr_smp_send, IB_SMP_MAX_PATH_HOPS, c_true. view_simpl.
  do 3 decide_test. rewrite Z.eqb_refl, orb_true_r. view_simpl. cbn [handle_if].
  rewrite decide_False by done.
  rewrite dr_check_local_spec. view_simpl. rewrite Hdir, Hpm.
  rewrite !wrap_small by (unfold fits in *; lia). rewrite Z.eqb_refl. cbn [negb andb handle_if].
  rewrite decide_False by done. eexists. split; [reflexivity|].
  by rewrite !view_set_route.
Qed.

(** Back at the origin the response is handed to the subnet manager. *)
Lemma arrive_response s d port :
  dr_ready (view s) -> (view s).(v_dir) = true ->
  (view s).(v_ptr) = 1 -> 0 < (view s).(v_cnt) ->
  exists s', dr_handle s d port = Some (IB_SMI_HANDLE, None, s') /\
    view s' = with_route (view s) 0 (view s).(v_ret).
Proof.
  intros (Hwf & Hdl & Hsl & Hn) Hdir Hp Hc.
  rewrite dr_handle_spec. unfold handle_dr_smi. rewrite dr_recv_spec.
  unfold __smi_handle_dr_smp_recv, IB_SMP_MAX_PATH_HOPS, c_true.
  rewrite Hdir, Hp, Hsl. cbn [negb]. do 4 decide_test. view_simpl.
  rewrite decide_False by done.
  rewrite dr_check_forward_spec. view_simpl. unfold __smi_check_forward_dr_smp, c_true.
  rewrite Hdir. cbn [negb]. rewrite wrap_small by (unfold fits; lia).
  eexists. split; [reflexivity|]. by rewrite view_set_route.
Qed.

(** *** A request and its response *)

(** A fresh request of [src] over the hops [hops]: the path lists the egress
    port of the source and of every switch. *)
Definition fresh_request v (first : Z) (path : list Z) : Prop :=
  dr_ready v /\ v.(v_dir) = false /\ v.(v_ptr) = 0 /\
  v.(v_cnt) = 1 + Z.of_nat (length path) /\
  take (S (length path)) (drop 1 v.(v_init)) = first :: path.

(** The reply [v'] to a delivered request [v]: only the direction differs. *)
Definition reply_to v v' : Prop :=
  v' = {| v_ptr := v.(v_ptr); v_cnt := v.(v_cnt); v_init := v.(v_init);
          v_ret := v.(v_ret); v_dir := true; v_dlid_perm := v.(v_dlid_perm);
          v_slid_perm := v.(v_slid_perm) |}.

Lemma transit_request s src dst first path hops port :
  fresh_request (view s) first path -> route_ok path hops -> fits 8 port ->
  dst.(process_mad) = true ->
  exists s', dr_transit s src first hops dst port = Some (path, s') /\
    view s' = with_route (view s) ((view s).(v_cnt) + 1)
                (list_inserts 1 (hops.*1 ++ [port]) (view s).(v_ret)).
Proof.
  intros (Hrd & Hdir & Hp & Hc & Hpath) Hok Hport Hpm.
  pose proof Hrd as ((_ & Hcf & Hi & Hr) & _ & _ & Hn).
  pose proof Hok as Hlen%Forall2_length.
  assert (Hfirst : v_init (view s) !! 1%nat = Some first).
  { apply (f_equal (.!! 0%nat)) in Hpath. rewrite lookup_take_lt, lookup_drop in Hpath by lia.
    done. }
  assert (Hrest : path = take (length hops) (drop 2 (v_init (view s)))).
  { rewrite (drop_S _ _ _ Hfirst) in Hpath. cbn in Hpath. congruence. }
  unfold dr_transit.
  destruct (post_request s src first) as (s1 & -> & Hv1); try done; [lia|].
  cbn [mbind option_bind].
  destruct (relay_request hops s1 path) as (s2 & -> & Hv2);
    rewrite ?Hv1; cbn; try done; try lia.
  { apply dr_ready_route; [done|unfold fits; lia|done]. }
  cbn [mbind option_bind].
  destruct (arrive_request s2 dst port) as (s3 & -> & Hv3);
    rewrite ?Hv2, ?Hv1; cbn; try done; try lia.
  { apply dr_ready_route; [apply dr_ready_route; [done|unfold fits; lia|done]| |].
    - unfold fits; lia.
    - cbn. apply length_inserts. }
  rewrite decide_True by done. exists s3. split; [done|].
  rewrite Hv3, Hv2, Hv1. unfold with_route; cbn. f_equal.
  rewrite list_inserts_app_l. cbn [list_inserts].
  rewrite length_fmap. replace (Z.to_nat (v_cnt (view s))) with (length hops + 1)%nat by lia.
  by rewrite Nat.add_comm.
Qed.

(** The reply travels back: [back] gives, for the switches in the order the
    reply meets them, the port it enters by and the number of ports. *)
Lemma transit_response s src dst back ins src_port last :
  dr_ready (view s) -> (view s).(v_dir) = true ->
  (view s).(v_ptr) = (view s).(v_cnt) + 1 ->
  (view s).(v_cnt) = 1 + Z.of_nat (length back) ->
  take (length back) (drop 1 (view s).(v_ret)) = ins ->
  (view s).(v_ret) !! Z.to_nat (view s).(v_cnt) = Some last ->
  route_ok (reverse ins) back ->
  exists s', dr_transit s dst last back src src_port = Some (reverse ins, s') /\
    view s' = with_route (view s) 0 (view s).(v_ret).
Proof.
  intros Hrd Hdir Hp Hc <- Hlast Hok.
  pose proof Hrd as ((Hpf & Hcf & Hi & Hr) & _ & _ & Hn). unfold fits in Hpf, Hcf.
  unfold dr_transit.
  destruct (post_response s dst last) as (s1 & -> & Hv1); try done; [lia|].
  cbn [mbind option_bind].
  destruct (relay_response back s1 (reverse (take (length back) (drop 1 (v_ret (view s))))))
    as (s2 & -> & Hv2); rewrite ?Hv1; cbn; try done; try lia.
  { apply dr_ready_route; [done|unfold fits; lia|done]. }
  cbn [mbind option_bind].
  destruct (arrive_response s2 src src_port) as (s3 & -> & Hv3);
    rewrite ?Hv2, ?Hv1; cbn; try done; try lia.
  { apply dr_ready_route; [apply dr_ready_route|..]; done || (unfold fits; lia). }
  rewrite decide_True by done. exists s3. split; [done|]. by rewrite Hv3, Hv2, Hv1.
Qed.

Lemma round_trip s src dst first path hops port :
  fresh_request (view s) first path -> route_ok path hops -> fits 8 port ->
  dst.(process_mad) = true ->
  exists s1, dr_transit s src first hops dst port = Some (path, s1) /\
    forall s2 back src_port, reply_to (view s1) (view s2) ->
      route_ok (reverse hops.*1) back ->
      exists s3, dr_transit s2 dst port back src src_port = Some (reverse hops.*1, s3)
        /\ (view s3).(v_ptr) = 0.
Proof.
  intros Hf Hok Hport Hpm.
  destruct (transit_request s src dst first path hops port) as (s1 & Ht & Hv1); try done.
  exists s1. split; [done|]. intros s2 back src_port Hrep Hback.
  destruct Hf as (Hrd & Hdir & Hp & Hc & _).
  pose proof Hrd as ((_ & Hcf & Hi & Hr) & Hdl & Hsl & Hn). unfold fits in Hcf.
  pose proof Hok as Hlen%Forall2_length. pose proof Hback as Hlenb%Forall2_length.
  rewrite length_reverse, length_fmap in Hlenb.
  unfold reply_to in Hrep. rewrite Hv1 in Hrep. cbn in Hrep.
  assert (Hret : forall i, (i <= length hops)%nat ->
    v_ret (view s2) !! (1 + i)%nat = (hops.*1 ++ [port]) !! i).
  { intros i Hi'. rewrite Hrep; cbn.
    rewrite list_lookup_inserts;
      [f_equal; lia|rewrite length_app, length_fmap; cbn; lia|lia]. }
  assert (Hins : take (length back) (drop 1 (v_ret (view s2))) = hops.*1).
  { apply list_eq. intros i. destruct (decide (i < length hops)%nat).
    - rewrite lookup_take_lt, lookup_drop by lia. rewrite Hret by lia.
      apply lookup_app_l. rewrite length_fmap. lia.
    - rewrite lookup_take_ge by lia. symmetry. apply lookup_ge_None_2.
      rewrite length_fmap. lia. }
  destruct (transit_response s2 src dst back (hops.*1) src_port port)
    as (s3 & Ht3 & Hv3); rewrite ?Hrep; cbn; try done; try lia.
  - unfold dr_ready, wf_view; cbn. rewrite length_inserts. unfold fits.
    split_and!; (done || lia).
  - by rewrite Hrep in Hins.
  - specialize (Hret (length hops)). rewrite Hrep in Hret; cbn in Hret.
    replace (Z.to_nat (v_cnt (view s))) with (S (length hops)) by lia.
    rewrite Hret by lia. rewrite lookup_app_r; rewrite length_fmap; [|lia].
    by rewrite Nat.sub_diag.
  - exists s3. split; [done|]. by rewrite Hv3.
Qed.
End routing_lemmas.

(** * The two packet formats *)

Lemma handle_ib_smi_generic smp d port : handle_ib_smi smp d port = handle_dr_smi smp d port.
Proof. reflexivity. Qed.

Lemma handle_opa_smi_generic smp d port :
  handle_opa_smi smp d port = handle_dr_smi smp d port.
Proof. reflexivity. Qed.

(** Send a packet whose two LIDs are permissive through a port; [None] when it
    is not put on the wire. *)
Definition ib_post (smp : ib_smp) (d : smi_device) (port : Z) : option ib_smp :=
  match handle_outgoing_dr_smp_ib smp d port with
  | Some (OutPost, smp) => Some smp
  | _ => None
  end.

Definition opa_post (smp : opa_smp) (d : smi_device) (port : Z) : option opa_smp :=
  match handle_outgoing_dr_smp_opa smp d port with
  | Some (OutPost, smp) => Some smp
  | _ => None
  end.

Lemma ib_post_generic smp d port :
  smp.(dr_dlid) = IB_LID_PERMISSIVE -> smp.(dr_slid) = IB_LID_PERMISSIVE ->
  ib_post smp d port = post_dr_smi smp d port.
Proof.
  intros Hd Hs. unfold ib_post, handle_outgoing_dr_smp_ib, post_dr_smi.
  cbn [dr_send dr_check_local dr_check_local_returning ib_dr_smp].
  rewrite Hd, Hs. destruct (ib_get_smp_direction smp); rewrite Z.eqb_refl;
    (destruct (smi_handle_dr_smp_send smp (is_switch d) port) as [[[] s]|]; cbn; try done;
     repeat case_decide; naive_solver).
Qed.

Lemma opa_post_generic smp d port :
  smp.(o_dr_dlid) = OPA_LID_PERMISSIVE -> smp.(o_dr_slid) = OPA_LID_PERMISSIVE ->
  opa_post smp d port = post_dr_smi smp d port.
Proof.
  intros Hd Hs. unfold opa_post, handle_outgoing_dr_smp_opa, post_dr_smi.
  cbn [dr_send dr_check_local dr_check_local_returning opa_dr_smp].
  rewrite Hd, Hs.
  destruct (opa_get_smp_direction smp); rewrite Z.eqb_refl;
    (unfold opa_smi_handle_dr_smp_send;
     destruct (__smi_handle_dr_smp_send _ _ _ _ _ _ _ _ _) as [[[] p]|]; cbn; try done;
     rewrite Hs; cbn; repeat case_decide; naive_solver).
Qed.

#[export] Instance ib_dr_mad : DrMad ib_smp :=
  { dr_handle := handle_ib_smi; dr_post := ib_post }.
#[export] Instance opa_dr_mad : DrMad opa_smp :=
  { dr_handle := handle_opa_smi; dr_post := opa_post }.

#[export] Instance ib_dr_mad_laws : DrMadLaws ib_smp.
Proof.
  split; [reflexivity|]. intros s d port Hd Hs. cbn in Hd, Hs. bool_arith.
  by apply ib_post_generic.
Qed.

#[export] Instance opa_dr_mad_laws : DrMadLaws opa_smp.
Proof.
  split; [reflexivity|]. intros s d port Hd Hs. cbn in Hd, Hs. bool_arith.
  by apply opa_post_generic.
Qed.

(** * Theorems *)

(** A packet as the hardware hands it over: byte-sized hop fields, two arrays of
    64 entries. *)
Definition ib_wf (smp : ib_smp) : Prop := wf_view (view smp).
Definition opa_wf (smp : opa_smp) : Prop := wf_view (view smp).

Lemma post_safe {P} `{DrSmpLaws P} (s : P) sw port :
  wf_view (view s) ->
  exists act s', dr_send s sw port = Some (act, s') /\ wf_view (view s').
Proof.
  intros (Hp & Hc & Hi & Hr). rewrite dr_send_spec.
  destruct (send_safe sw port (v_ptr (view s)) (v_cnt (view s)) (v_init (view s))
    (v_ret (view s)) (v_dir (view s)) (v_dlid_perm (view s)) (v_slid_perm (view s)))
    as (act & p & -> & Hp2); try done.
  do 2 eexists. split; [reflexivity|]. rewrite view_set_route. by unfold wf_view.
Qed.

Ltac out_cases :=
  cbn; repeat (case_test; cbn); repeat (case_decide; cbn); eauto.

(** C37: no received or sent directed-route packet, however malformed its hop
    pointer and hop count, makes the SMI code read or write outside the two
    64-entry path arrays, for the InfiniBand and for the OPA format; the packet
    stays well formed. *)
Theorem smi_memory_safe (smp : ib_smp) (osmp : opa_smp) (d : smi_device) (port : Z) :
  ib_wf smp -> opa_wf osmp ->
  (exists act fwd smp', handle_ib_smi smp d port = Some (act, fwd, smp') /\ ib_wf smp') /\
  (exists act fwd smp', handle_opa_smi osmp d port = Some (act, fwd, smp') /\ opa_wf smp') /\
  (exists dec smp', handle_outgoing_dr_smp_ib smp d port = Some (dec, smp') /\ ib_wf smp') /\
  (exists dec smp', handle_outgoing_dr_smp_opa osmp d port = Some (dec, smp') /\ opa_wf smp').
Proof.
  intros Hi Ho. split_and!.
  - rewrite handle_ib_smi_generic. by apply handle_dr_smi_safe.
  - rewrite handle_opa_smi_generic. by apply handle_dr_smi_safe.
  - destruct (post_safe smp (is_switch d) port Hi) as (act & s' & Hs & Hw). cbn in Hs.
    unfold handle_outgoing_dr_smp_ib. rewrite Hs. out_cases.
  - destruct (post_safe osmp (is_switch d) port Ho) as (act & s' & Hs & Hw). cbn in Hs.
    unfold handle_outgoing_dr_smp_opa. rewrite Hs. out_cases.
Qed.

(** Directed-route traffic of the packet format [P] over a network of nodes:
    a fresh request of [src] that names [first] and then [path] as egress ports
    crosses the switches [hops] (arrival port, number of ports), leaves each one
    through the named port and is handed to the agent of [dst]; the agent's reply
    crosses the same switches backwards, leaves each one through the port the
    request arrived on, and is handed to the manager of [src] with hop pointer 0. *)
Definition round_trips (P : Type) `{DrSmp P} `{DrMad P} : Prop :=
  forall (s : P) src dst first path hops port,
    fresh_request (view s) first path -> route_ok path hops -> fits 8 port ->
    dst.(process_mad) = true ->
    exists s1, dr_transit s src first hops dst port = Some (path, s1) /\
      forall s2 back src_port, reply_to (view s1) (view s2) ->
        route_ok (reverse hops.*1) back ->
        exists s3, dr_transit s2 dst port back src src_port = Some (reverse hops.*1, s3)
          /\ (view s3).(v_ptr) = 0.

(** C38: directed routing works end to end, for both packet formats: along any
    route of at most 63 hops the request is delivered to the last node, and the
    reply retraces the route and returns to the originator with hop pointer 0. *)
Theorem smp_round_trip : round_trips ib_smp /\ round_trips opa_smp.
Proof. split; intros s src dst; apply round_trip. Qed.

Section example.
(** Three hops: out of port 1, then ports 2 and 3 of two switches that are
    entered by ports 4 and 5, into port 6 of the destination. *)
Definition example_request : ib_smp :=
  {| base_version := 1; mgmt_class := 0x81; class_version := 1; method := 1;
     status := 0; hop_ptr := 0; hop_cnt := 3; tid := 7; attr_id := 0x11; resv := 0;
     attr_mod := 0; mkey := 0; dr_slid := 0xFFFF; dr_dlid := 0xFFFF;
     reserved := []; data := [];
     initial_path := [0; 1; 2; 3] ++ replicate 60 0; return_path := replicate 64 0 |}.

Definition example_node : smi_device :=
  {| is_switch := false; phys_port_cnt := 8; process_mad := true |}.

Lemma smi_memory_safe_witness :
  ib_wf example_request /\
  exists act fwd smp', handle_ib_smi example_request example_node 6 = Some (act, fwd, smp').
Proof.
  assert (Hwf : ib_wf example_request) by (eval_conj).
  split; [exact Hwf|].
  destruct (smi_memory_safe example_request
    {| o_base_version := 0x80; o_mgmt_class := 0x81; o_class_version := 0x80;
       o_method := 1; o_status := 0; o_hop_ptr := 200; o_hop_cnt := 201; o_tid := 0;
       o_attr_id := 0; o_resv := 0; o_attr_mod := 0; o_mkey := 0; o_dr_slid := 0;
       o_dr_dlid := 0; o_initial_path := replicate 64 0;
       o_return_path := replicate 64 0; o_reserved := []; o_data := [] |}
    example_node 6 Hwf) as ((act & fwd & smp' & Heq & _) & _).
  - eval_conj.
  - eauto.
Defined.

Lemma smp_round_trip_witness :
  exists s1, dr_transit example_request example_node 1 [(4, 8); (5, 8)] example_node 6
             = Some ([2; 3], s1).
Proof.
  destruct (proj1 smp_round_trip example_request example_node example_node 1 [2; 3]
    [(4, 8); (5, 8)] 6) as (s1 & Ht & _).
  - eval_conj.
  - repeat constructor; vm_compute; congruence.
  - eval_conj.
  - reflexivity.
  - eauto.
Defined.
End example.
