(* ===== verification/Packer.v ===== *)
(** Table-driven packing of host structures into wire formats:
    drivers/infiniband/core/packer.c.

    Structures and wire buffers are byte lists. A read or write outside the
    buffer, and a shift by a negative amount, answer [None]. A multi-byte field
    of a structure holds a big-endian value, as its [__be] type says. *)

From stdpp Require Export strings.
From S2P Require Import Prelude.

(** [struct ib_field]; a reserved entry has [struct_size_bytes = 0]. *)
Record ib_field := mk_field {
  struct_offset_bytes : Z;
  struct_size_bytes : Z;
  offset_words : Z;
  offset_bits : Z;
  size_bits : Z;
  field_name : string
}.

(** ** Memory *)

Definition mem_get (m : list Z) (off n : Z) : option (list Z) :=
  if decide (0 <= off /\ 0 <= n /\ off + n <= Z.of_nat (length m))
  then Some (take (Z.to_nat n) (drop (Z.to_nat off) m)) else None.

Definition mem_put (m : list Z) (off : Z) (bs : list Z) : option (list Z) :=
  if decide (0 <= off /\ off + Z.of_nat (length bs) <= Z.of_nat (length m))
  then Some (list_inserts (Z.to_nat off) bs m) else None.

Definition be_get (m : list Z) (off n : Z) : option Z := of_be <$> mem_get m off n.
Definition be_put (m : list Z) (off : Z) (n : nat) (v : Z) : option (list Z) :=
  mem_put m off (to_be n v).

(** ** packer.c *)

Definition value_read (offset size : Z) (structure : list Z) : option Z :=
  if (size =? 1) || (size =? 2) || (size =? 4) || (size =? 8)
  then be_get structure offset size
  else Some 0.

Definition pack_field (desc : ib_field) (structure buf : list Z) : option (list Z) :=
  if desc.(size_bits) <=? 32 then
    let shift := 32 - desc.(offset_bits) - desc.(size_bits) in
    if shift <? 0 then None else
    val ← (if c_true desc.(struct_size_bytes) then
             v ← value_read desc.(struct_offset_bytes) desc.(struct_size_bytes) structure;
             Some (u32 (u64 (Z.shiftl v shift)))
           else Some 0);
    let mask := u32 (u64 (Z.shiftl (Z.shiftl 1 desc.(size_bits) - 1) shift)) in
    w ← be_get buf (4 * desc.(offset_words)) 4;
    be_put buf (4 * desc.(offset_words)) 4
      (Z.lor (Z.land w (u32 (Z.lnot mask))) (Z.land val mask))
  else if desc.(size_bits) <=? 64 then
    let shift := 64 - desc.(offset_bits) - desc.(size_bits) in
    if shift <? 0 then None else
    val ← (if c_true desc.(struct_size_bytes) then
             v ← value_read desc.(struct_offset_bytes) desc.(struct_size_bytes) structure;
             Some (u64 (Z.shiftl v shift))
           else Some 0);
    let mask := u64 (Z.shiftl (Z.shiftr (u64 (Z.lnot 0)) (64 - desc.(size_bits))) shift) in
    w ← be_get buf (4 * desc.(offset_words)) 8;
    be_put buf (4 * desc.(offset_words)) 8
      (Z.lor (Z.land w (u64 (Z.lnot mask))) (Z.land val mask))
  else
    (* a field that is not byte-aligned only logs a warning *)
    let n := Z.quot desc.(size_bits) 8 in
    let dst := 4 * desc.(offset_words) + Z.quot desc.(offset_bits) 8 in
    if c_true desc.(struct_size_bytes) then
      bs ← mem_get structure desc.(struct_offset_bytes) n;
      mem_put buf dst bs
    else mem_put buf dst (replicate (Z.to_nat n) 0).

Fixpoint ib_pack (desc : list ib_field) (structure buf : list Z) : option (list Z) :=
  match desc with
  | [] => Some buf
  | f :: desc => buf ← pack_field f structure buf; ib_pack desc structure buf
  end.

Definition value_write (offset size val : Z) (structure : list Z) : option (list Z) :=
  if (size * 8 =? 8) || (size * 8 =? 16) || (size * 8 =? 32) || (size * 8 =? 64)
  then be_put structure offset (Z.to_nat size) val
  else Some structure.

Definition unpack_field (desc : ib_field) (buf structure : list Z) : option (list Z) :=
  if negb (c_true desc.(struct_size_bytes)) then Some structure else
  if desc.(size_bits) <=? 32 then
    let shift := 32 - desc.(offset_bits) - desc.(size_bits) in
    if shift <? 0 then None else
    let mask := u32 (u64 (Z.shiftl (Z.shiftl 1 desc.(size_bits) - 1) shift)) in
    w ← be_get buf (4 * desc.(offset_words)) 4;
    value_write desc.(struct_offset_bytes) desc.(struct_size_bytes)
      (Z.shiftr (Z.land w mask) shift) structure
  else if desc.(size_bits) <=? 64 then
    let shift := 64 - desc.(offset_bits) - desc.(size_bits) in
    if shift <? 0 then None else
    let mask := u64 (Z.shiftl (Z.shiftr (u64 (Z.lnot 0)) (64 - desc.(size_bits))) shift) in
    (* the source adds offset_words to a __be64 pointer here *)
    w ← be_get buf (8 * desc.(offset_words)) 8;
    value_write desc.(struct_offset_bytes) desc.(struct_size_bytes)
      (Z.shiftr (Z.land w mask) shift) structure
  else
    bs ← mem_get buf (4 * desc.(offset_words) + Z.quot desc.(offset_bits) 8)
           (Z.quot desc.(size_bits) 8);
    mem_put structure desc.(struct_offset_bytes) bs.

Fixpoint ib_unpack (desc : list ib_field) (buf structure : list Z) : option (list Z) :=
  match desc with
  | [] => Some structure
  | f :: desc => structure ← unpack_field f buf structure; ib_unpack desc buf structure
  end.

(** ** Well-formed tables *)

(** First wire bit of a field, and one past its last bit. *)
Definition wire_lo (f : ib_field) : Z := 32 * f.(offset_words) + f.(offset_bits).
Definition wire_hi (f : ib_field) : Z := wire_lo f + f.(size_bits).

Definition struct_lo (f : ib_field) : Z := f.(struct_offset_bytes).
Definition struct_hi (f : ib_field) : Z := f.(struct_offset_bytes) + f.(struct_size_bytes).

(** [field_ok n m f]: the field is served by one of the three cases of the code
    for a wire buffer of [n] bytes and a structure of [m] bytes. *)
Definition field_ok (n m : Z) (f : ib_field) : bool :=
  (0 <=? f.(offset_words)) && (0 <=? f.(offset_bits)) && (0 <? f.(size_bits)) &&
  (0 <=? f.(struct_offset_bytes)) && (0 <=? f.(struct_size_bytes)) &&
  (struct_hi f <=? m) &&
  ((f.(struct_size_bytes) =? 0) || (f.(size_bits) <=? 8 * f.(struct_size_bytes))) &&
  (if f.(size_bits) <=? 32 then
     (f.(offset_bits) + f.(size_bits) <=? 32) && (4 * f.(offset_words) + 4 <=? n) &&
     bool_decide (f.(struct_size_bytes) ∈ [0; 1; 2; 4; 8])
   else if f.(size_bits) <=? 64 then
     (f.(offset_bits) + f.(size_bits) <=? 64) && (4 * f.(offset_words) + 8 <=? n) &&
     bool_decide (f.(struct_size_bytes) ∈ [0; 1; 2; 4; 8]) &&
     ((f.(offset_words) =? 0) || (f.(struct_size_bytes) =? 0))
   else
     (f.(offset_bits) mod 8 =? 0) && (f.(size_bits) mod 8 =? 0) &&
     (wire_hi f <=? 8 * n) &&
     ((f.(struct_size_bytes) =? 0) || (f.(struct_size_bytes) * 8 =? f.(size_bits)))).

Definition wire_disjoint (f g : ib_field) : bool :=
  (wire_hi f <=? wire_lo g) || (wire_hi g <=? wire_lo f).

Definition struct_disjoint (f g : ib_field) : bool :=
  (f.(struct_size_bytes) =? 0) || (g.(struct_size_bytes) =? 0) ||
  (struct_hi f <=? struct_lo g) || (struct_hi g <=? struct_lo f).

Fixpoint pairwise {A} (r : A -> A -> bool) (l : list A) : bool :=
  match l with
  | [] => true
  | x :: l => forallb (r x) l && pairwise r l
  end.

Definition table_ok (n m : Z) (desc : list ib_field) : bool :=
  forallb (field_ok n m) desc && pairwise wire_disjoint desc
  && pairwise struct_disjoint desc.

(** ** Bits of a buffer

    [wbit buf p] is bit [p] of a buffer in transmission order: bit 0 is the
    most significant bit of the first byte. *)

Abbreviation bytes_ok := (Forall (fits 8)).

#[local] Ltac Zify.zify_post_hook ::= Z.to_euclidean_division_equations.

Definition wbit (buf : list Z) (p : Z) : bool :=
  Z.testbit (default 0 (buf !! Z.to_nat (p / 8))) (7 - p mod 8).

Lemma fits_testbit_high w z i : fits w z -> w <= i -> Z.testbit z i = false.
Proof.
  intros Hz Hi. rewrite <- (wrap_small w z Hz). unfold wrap, fits in *.
  destruct (decide (0 <= w)).
  - apply Z.mod_pow2_bits_high. lia.
  - rewrite (Z.pow_neg_r 2 w) in Hz by lia. lia.
Qed.

Lemma of_be_testbit bs i :
  bytes_ok bs -> 0 <= i < 8 * Z.of_nat (length bs) ->
  Z.testbit (of_be bs) i = wbit bs (8 * Z.of_nat (length bs) - 1 - i).
Proof.
  intros Hbs. revert i. induction Hbs as [|b bs Hb Hbs IH]; intros i Hi; [cbn in Hi; lia|].
  rewrite of_be_cons. cbn [length] in *.
  pose proof (of_be_range bs Hbs) as Hr. unfold fits in Hr, Hb.
  replace (8 * Z.of_nat (S (length bs))) with (8 * Z.of_nat (length bs) + 8) in * by lia.
  remember (8 * Z.of_nat (length bs)) as L eqn:HL.
  unfold wbit. destruct (Z.lt_ge_cases i L) as [Hlt|Hge].
  - rewrite <- (Z.mod_pow2_bits_low _ L) by lia.
    rewrite Z.add_comm, Z.mod_add, Z.mod_small, IH by lia. unfold wbit.
    replace (Z.to_nat ((L + 8 - 1 - i) / 8)) with (S (Z.to_nat ((L - 1 - i) / 8))) by lia.
    cbn. f_equal. lia.
  - replace i with ((i - L) + L) at 1 by lia. rewrite <- Z.div_pow2_bits by lia.
    rewrite Z.div_add_l, (Z.div_small (of_be bs)) by lia. rewrite Z.add_0_r.
    replace (Z.to_nat ((L + 8 - 1 - i) / 8)) with 0%nat by lia. cbn. f_equal. lia.
Qed.

Lemma bytes_take_drop buf i n : bytes_ok buf -> bytes_ok (take i (drop n buf)).
Proof. intros. by apply Forall_take, Forall_drop. Qed.

Lemma wbit_slice buf off n p :
  0 <= off -> 0 <= p < 8 * n ->
  wbit (take (Z.to_nat n) (drop (Z.to_nat off) buf)) p = wbit buf (8 * off + p).
Proof.
  intros. unfold wbit. rewrite lookup_take_lt, lookup_drop by lia.
  replace (Z.to_nat ((8 * off + p) / 8)) with (Z.to_nat off + Z.to_nat (p / 8))%nat by lia.
  f_equal. lia.
Qed.

Lemma mem_get_spec buf off n :
  0 <= off -> 0 <= n -> off + n <= Z.of_nat (length buf) ->
  exists bs, mem_get buf off n = Some bs /\ length bs = Z.to_nat n /\
    (bytes_ok buf -> bytes_ok bs) /\
    forall p, 0 <= p < 8 * n -> wbit bs p = wbit buf (8 * off + p).
Proof.
  intros. unfold mem_get. rewrite decide_True by lia. eexists. split_and!; [done|..].
  - rewrite length_take, length_drop. lia.
  - apply bytes_take_drop.
  - intros. by apply wbit_slice.
Qed.

Lemma be_get_spec buf off n :
  bytes_ok buf -> 0 <= off -> 0 <= n -> off + n <= Z.of_nat (length buf) ->
  exists w, be_get buf off n = Some w /\ fits (8 * n) w /\
    forall i, 0 <= i < 8 * n -> Z.testbit w i = wbit buf (8 * (off + n) - 1 - i).
Proof.
  intros Hb H1 H2 H3. destruct (mem_get_spec buf off n) as (bs & Hg & Hl & Hok & Hbit); try done.
  unfold be_get. rewrite Hg. cbn. eexists. split_and!; [done|..].
  - pose proof (of_be_range bs (Hok Hb)). by rewrite Hl, Z2Nat.id in * by lia.
  - intros i Hi. rewrite of_be_testbit, Hl, Z2Nat.id, Hbit by (auto; lia). f_equal. lia.
Qed.

Lemma wbit_inserts m o bs p :
  0 <= p -> (o + length bs <= length m)%nat ->
  wbit (list_inserts o bs m) p
  = if decide (8 * Z.of_nat o <= p < 8 * (Z.of_nat o + Z.of_nat (length bs)))
    then wbit bs (p - 8 * Z.of_nat o) else wbit m p.
Proof.
  intros Hp Hl. unfold wbit. case_decide as Hd.
  - rewrite list_lookup_inserts by lia.
    replace (Z.to_nat ((p - 8 * Z.of_nat o) / 8)) with (Z.to_nat (p / 8) - o)%nat by lia.
    f_equal. lia.
  - destruct (decide (Z.to_nat (p / 8) < o)%nat).
    + by rewrite list_lookup_inserts_lt.
    + rewrite list_lookup_inserts_ge; [done|lia].
Qed.

Lemma bytes_inserts m o bs : bytes_ok m -> bytes_ok bs -> bytes_ok (list_inserts o bs m).
Proof.
  intros Hm Hbs. revert o. induction Hbs; intros o; cbn; [done|].
  by apply Forall_insert.
Qed.

Lemma mem_put_spec m off bs :
  bytes_ok m -> bytes_ok bs ->
  0 <= off -> off + Z.of_nat (length bs) <= Z.of_nat (length m) ->
  exists m', mem_put m off bs = Some m' /\ bytes_ok m' /\ length m' = length m /\
    forall p, 0 <= p ->
      wbit m' p = if decide (8 * off <= p < 8 * (off + Z.of_nat (length bs)))
                  then wbit bs (p - 8 * off) else wbit m p.
Proof.
  intros. unfold mem_put. rewrite decide_True by lia. eexists. split_and!; [done|..].
  - by apply bytes_inserts.
  - apply length_inserts.
  - intros p Hp. rewrite wbit_inserts by lia. rewrite Z2Nat.id by lia. done.
Qed.

Lemma lookup_to_be n v k :
  (k < n)%nat -> to_be n v !! k = Some (wrap 8 (Z.shiftr v (8 * (Z.of_nat n - 1 - Z.of_nat k)))).
Proof.
  revert k. induction n as [|n IH]; intros k Hk; [lia|]. destruct k as [|k]; cbn.
  - do 3 f_equal. lia.
  - rewrite IH by lia. do 3 f_equal. lia.
Qed.

Lemma wbit_to_be n v p :
  0 <= p < 8 * Z.of_nat n -> wbit (to_be n v) p = Z.testbit v (8 * Z.of_nat n - 1 - p).
Proof.
  intros. unfold wbit. rewrite lookup_to_be by lia. cbn. unfold wrap.
  rewrite Z.mod_pow2_bits_low, Z.shiftr_spec by lia. f_equal. lia.
Qed.

Lemma be_put_spec m off n v :
  bytes_ok m -> 0 <= off -> off + Z.of_nat n <= Z.of_nat (length m) ->
  exists m', be_put m off n v = Some m' /\ bytes_ok m' /\ length m' = length m /\
    forall p, 0 <= p ->
      wbit m' p = if decide (8 * off <= p < 8 * (off + Z.of_nat n))
                  then Z.testbit v (8 * (off + Z.of_nat n) - 1 - p) else wbit m p.
Proof.
  intros. unfold be_put.
  destruct (mem_put_spec m off (to_be n v)) as (m' & Hp & Hok & Hl & Hbit); try done.
  - apply to_be_bytes.
  - by rewrite length_to_be.
  - exists m'. split_and!; try done. intros p Hpos. rewrite Hbit, length_to_be by done.
    case_decide; [|done]. rewrite wbit_to_be by lia. f_equal. lia.
Qed.

(** Two byte strings with the same bits are equal. *)
Lemma wbit_ext m1 m2 :
  bytes_ok m1 -> bytes_ok m2 -> length m1 = length m2 ->
  (forall p, 0 <= p < 8 * Z.of_nat (length m1) -> wbit m1 p = wbit m2 p) -> m1 = m2.
Proof.
  intros H1 H2 Hl Hbit. apply (list_eq_same_length _ _ (length m1)); [done..|].
  intros i x y Hi Hx Hy. apply Z.bits_inj'. intros k Hk.
  destruct (Z.lt_ge_cases k 8).
  - specialize (Hbit (8 * Z.of_nat i + (7 - k))). unfold wbit in Hbit.
    replace (Z.to_nat ((8 * Z.of_nat i + (7 - k)) / 8)) with i in Hbit by lia.
    replace (7 - (8 * Z.of_nat i + (7 - k)) mod 8) with k in Hbit by lia.
    rewrite Hx, Hy in Hbit. apply Hbit. lia.
  - pose proof (Forall_lookup_1 _ _ _ _ H1 Hx). pose proof (Forall_lookup_1 _ _ _ _ H2 Hy).
    by rewrite !(fits_testbit_high 8).
Qed.

(** ** The effect of one table entry *)

Definition reserved (f : ib_field) : bool := f.(struct_size_bytes) =? 0.

(** Packing a field copies wire bit [p] from structure bit [p + delta f]. *)
Definition delta (f : ib_field) : Z := 8 * struct_hi f - wire_hi f.

Lemma value_read_spec m f :
  bytes_ok m -> f.(struct_size_bytes) ∈ [1; 2; 4; 8] -> 0 <= struct_lo f ->
  struct_hi f <= Z.of_nat (length m) ->
  exists v, value_read f.(struct_offset_bytes) f.(struct_size_bytes) m = Some v /\
    fits (8 * f.(struct_size_bytes)) v /\
    forall i, 0 <= i < 8 * f.(struct_size_bytes) ->
      Z.testbit v i = wbit m (8 * struct_hi f - 1 - i).
Proof.
  unfold value_read, struct_lo, struct_hi. intros Hm Hs Hlo Hhi.
  destruct (be_get_spec m f.(struct_offset_bytes) f.(struct_size_bytes))
    as (v & Hg & Hf & Hb); [done|done|set_solver by lia|lia|].
  exists v. split_and!; [|done|done]. rewrite <- Hg.
  by repeat (apply elem_of_cons in Hs as [->|Hs]); [..|apply elem_of_nil in Hs].
Qed.

Lemma field_mask size shift i :
  0 <= size -> 0 <= shift -> 0 <= i ->
  Z.testbit (Z.shiftl (Z.shiftl 1 size - 1) shift) i = (shift <=? i) && (i <? shift + size).
Proof.
  intros. rewrite Z.shiftl_spec by done.
  replace (Z.shiftl 1 size - 1) with (Z.ones size)
    by (rewrite Z.ones_equiv, Z.shiftl_1_l; lia).
  rewrite ones_testbit by done. apply eq_true_iff_eq. rewrite !andb_true_iff. lia.
Qed.

Lemma field_mask64 size shift i :
  0 <= size <= 64 -> 0 <= shift -> 0 <= i ->
  Z.testbit (Z.shiftl (Z.shiftr (u64 (Z.lnot 0)) (64 - size)) shift) i
  = (shift <=? i) && (i <? shift + size).
Proof.
  intros. rewrite Z.shiftl_spec by done.
  destruct (Z.leb_spec shift i); [|by rewrite Z.testbit_neg_r by lia].
  rewrite Z.shiftr_spec, wrap_testbit by lia. rewrite Z.bits_m1 by lia.
  apply eq_true_iff_eq. rewrite !andb_true_iff. lia.
Qed.

(** Replacing the masked bits of the word of [n] bytes at word [ow]. *)
Lemma pack_word_spec buf (n : nat) ow ob size mask val :
  bytes_ok buf -> 0 <= ow -> 0 <= ob -> 0 <= size ->
  ob + size <= 8 * Z.of_nat n ->
  4 * ow + Z.of_nat n <= Z.of_nat (length buf) ->
  (forall i, 0 <= i < 8 * Z.of_nat n ->
     Z.testbit mask i = (8 * Z.of_nat n - ob - size <=? i) && (i <? 8 * Z.of_nat n - ob)) ->
  exists w buf', be_get buf (4 * ow) (Z.of_nat n) = Some w /\
    be_put buf (4 * ow) n
      (Z.lor (Z.land w (wrap (8 * Z.of_nat n) (Z.lnot mask))) (Z.land val mask)) = Some buf' /\
    bytes_ok buf' /\ length buf' = length buf /\
    forall p, 0 <= p ->
      wbit buf' p = if decide (32 * ow + ob <= p < 32 * ow + ob + size)
                    then Z.testbit val (8 * (4 * ow + Z.of_nat n) - 1 - p)
                    else wbit buf p.
Proof.
  intros Hb How Hob Hs Hfit Hlen Hmask.
  destruct (be_get_spec buf (4 * ow) (Z.of_nat n)) as (w & Hg & _ & Hw); [done|lia..|].
  destruct (be_put_spec buf (4 * ow) n
    (Z.lor (Z.land w (wrap (8 * Z.of_nat n) (Z.lnot mask))) (Z.land val mask)))
    as (buf' & Hp & Hok & Hl & Hbit); [done|lia..|].
  exists w, buf'. split_and!; try done. intros p Hpos. rewrite Hbit by done.
  destruct (decide (8 * (4 * ow) <= p < 8 * (4 * ow + Z.of_nat n))) as [Hin|Hout];
    [|rewrite decide_False by lia; done].
  rewrite Z.lor_spec, !Z.land_spec, wrap_testbit, Z.lnot_spec by lia.
  rewrite Hmask, Hw by lia.
  replace (8 * (4 * ow + Z.of_nat n) - 1 - (8 * (4 * ow + Z.of_nat n) - 1 - p)) with p by lia.
  rewrite (proj2 (Z.ltb_lt _ (8 * Z.of_nat n))) by lia.
  destruct (decide (32 * ow + ob <= p < 32 * ow + ob + size)).
  - rewrite (proj2 (Z.leb_le _ _)), (proj2 (Z.ltb_lt _ _)) by lia. cbn.
    by rewrite andb_false_r, andb_true_r.
  - replace ((_ <=? _) && (_ <? 8 * Z.of_nat n - ob)) with false.
    + cbn. by rewrite andb_true_r, andb_false_r, orb_false_r.
    + symmetry. apply andb_false_iff. lia.
Qed.

Lemma field_ok_inv n m f :
  field_ok n m f = true ->
  0 <= offset_words f /\ 0 <= offset_bits f /\ 0 < size_bits f /\
  0 <= struct_lo f /\ 0 <= struct_size_bytes f /\ struct_hi f <= m /\
  (struct_size_bytes f <> 0 -> size_bits f <= 8 * struct_size_bytes f) /\
  ((size_bits f <= 32 /\ offset_bits f + size_bits f <= 32 /\
    4 * offset_words f + 4 <= n /\ struct_size_bytes f ∈ [0; 1; 2; 4; 8]) \/
   (32 < size_bits f <= 64 /\ offset_bits f + size_bits f <= 64 /\
    4 * offset_words f + 8 <= n /\ struct_size_bytes f ∈ [0; 1; 2; 4; 8] /\
    (offset_words f = 0 \/ struct_size_bytes f = 0)) \/
   (64 < size_bits f /\ offset_bits f mod 8 = 0 /\ size_bits f mod 8 = 0 /\
    wire_hi f <= 8 * n /\
    (struct_size_bytes f = 0 \/ struct_size_bytes f * 8 = size_bits f))).
Proof.
  unfold field_ok, struct_lo. intros H. bool_arith.
  repeat match goal with H : _ || _ = true |- _ => apply orb_prop in H end.
  rewrite !Z.eqb_eq, !Z.leb_le in *.
  split_and!; try lia.
  destruct (Z.leb_spec (size_bits f) 32); [left|right].
  - bool_arith. rewrite bool_decide_eq_true in *. tauto.
  - destruct (Z.leb_spec (size_bits f) 64); [left|right]; bool_arith;
      rewrite ?orb_true_iff, ?Z.eqb_eq, ?bool_decide_eq_true in *; split_and!; tauto || lia.
Qed.

Lemma struct_size_nonzero f l :
  struct_size_bytes f ∈ 0 :: l -> struct_size_bytes f <> 0 -> struct_size_bytes f ∈ l.
Proof. set_solver. Qed.

(** The value the code shifts into place: reserved fields are packed as zero. *)
Lemma pack_value_spec m f w shift (g : Z -> Z) :
  (forall z i, 0 <= i < w -> Z.testbit (g z) i = Z.testbit z i) ->
  bytes_ok m -> 0 <= struct_lo f -> struct_hi f <= Z.of_nat (length m) ->
  struct_size_bytes f ∈ [0; 1; 2; 4; 8] -> 0 <= shift -> 0 < size_bits f ->
  (struct_size_bytes f <> 0 -> size_bits f <= 8 * struct_size_bytes f) ->
  w = shift + size_bits f + offset_bits f -> 0 <= offset_bits f -> 0 <= w ->
  exists val,
    (if c_true (struct_size_bytes f)
     then v ← value_read (struct_offset_bytes f) (struct_size_bytes f) m;
          Some (g (Z.shiftl v shift))
     else Some 0) = Some val /\
    forall i, shift <= i < shift + size_bits f ->
      Z.testbit val i = negb (reserved f) && wbit m (8 * struct_hi f - 1 - (i - shift)).
Proof.
  intros Hgb Hm Hlo Hhi Hin Hs Hsz Hfit -> Hob Hw. unfold reserved, c_true.
  destruct (Z.eqb_spec (struct_size_bytes f) 0) as [Hz|Hnz]; cbn [negb].
  - exists 0. split; [done|]. intros. by rewrite Z.bits_0.
  - destruct (value_read_spec m f) as (v & Hr & _ & Hb); try done.
    { by eapply struct_size_nonzero. }
    rewrite Hr. eexists. split; [reflexivity|]. intros i Hi. specialize (Hfit Hnz).
    by rewrite Hgb, Z.shiftl_spec, Hb by lia.
Qed.

(** The bytes copied for a field wider than 64 bits. *)
Lemma copy_source_spec s f :
  bytes_ok s -> 0 <= struct_lo f -> struct_hi f <= Z.of_nat (length s) ->
  0 < size_bits f -> size_bits f mod 8 = 0 ->
  (struct_size_bytes f = 0 \/ struct_size_bytes f * 8 = size_bits f) ->
  exists bs,
    (if c_true (struct_size_bytes f)
     then mem_get s (struct_offset_bytes f) (size_bits f / 8)
     else Some (replicate (Z.to_nat (size_bits f / 8)) 0)) = Some bs /\
    bytes_ok bs /\ length bs = Z.to_nat (size_bits f / 8) /\
    forall p, 0 <= p < size_bits f ->
      wbit bs p = negb (reserved f) && wbit s (8 * struct_lo f + p).
Proof.
  unfold c_true, reserved, struct_lo, struct_hi. intros Hs Hlo Hhi Hsz Hmod Hor.
  destruct (Z.eqb_spec (struct_size_bytes f) 0); cbn [negb].
  - eexists. split_and!; [done|by apply Forall_replicate|apply length_replicate|].
    intros p Hp. unfold wbit. rewrite lookup_replicate_2 by lia. apply Z.bits_0.
  - destruct (mem_get_spec s (struct_offset_bytes f) (size_bits f / 8))
      as (bs & Hg & Hl & Hbok & Hbit); [lia..|].
    exists bs. split_and!; auto. intros p Hp. apply Hbit. lia.
Qed.

Lemma pack_field_spec n m f s buf :
  field_ok n m f = true -> bytes_ok s -> bytes_ok buf ->
  Z.of_nat (length s) = m -> Z.of_nat (length buf) = n ->
  exists buf', pack_field f s buf = Some buf' /\ bytes_ok buf' /\
    length buf' = length buf /\
    forall p, 0 <= p ->
      wbit buf' p = if decide (wire_lo f <= p < wire_hi f)
                    then negb (reserved f) && wbit s (p + delta f) else wbit buf p.
Proof.
  intros Hok Hs Hb Hm Hn.
  apply field_ok_inv in Hok as (Hw & Hob & Hsz & Hlo & Hss & Hhi & Hfit & Hcase).
  unfold pack_field, delta, wire_hi, wire_lo.
  destruct Hcase as [(H1 & H2 & H3 & H4)|[(H1 & H2 & H3 & H4 & _)|(H1 & H2 & H3 & H4 & H5)]].
  - rewrite (proj2 (Z.leb_le _ 32)), (proj2 (Z.ltb_ge _ 0)) by lia.
    destruct (pack_value_spec s f 32 (32 - offset_bits f - size_bits f)
      (fun z => u32 (u64 z))) as (val & Hval & Hbits); try done; try lia.
    { intros. rewrite !wrap_testbit by lia.
      by rewrite (proj2 (Z.ltb_lt i 32)), (proj2 (Z.ltb_lt i 64)) by lia. }
    rewrite Hval. cbn [mbind option_bind].
    edestruct (pack_word_spec buf 4 (offset_words f) (offset_bits f) (size_bits f))
      as (w & buf' & Hg & Hp & Hok & Hl & Hbit); [done|lia..| |].
    2:{ change (Z.of_nat 4) with 4 in Hg, Hbit. rewrite Hg. cbn [mbind option_bind]. exists buf'. split_and!; [exact Hp|done..|].
        intros p Hpos. rewrite Hbit by done. repeat case_decide; try lia; [|done].
        rewrite Hbits by lia. do 2 f_equal. lia. }
    intros i Hi. rewrite !wrap_testbit, field_mask by lia.
    rewrite (proj2 (Z.ltb_lt i 32)), (proj2 (Z.ltb_lt i 64)) by lia. cbn. do 2 f_equal; lia.
  - rewrite (proj2 (Z.leb_gt _ 32)), (proj2 (Z.leb_le _ 64)), (proj2 (Z.ltb_ge _ 0)) by lia.
    destruct (pack_value_spec s f 64 (64 - offset_bits f - size_bits f) u64)
      as (val & Hval & Hbits); try done; try lia.
    { intros. rewrite !wrap_testbit by lia. by rewrite (proj2 (Z.ltb_lt i 64)) by lia. }
    rewrite Hval. cbn [mbind option_bind].
    edestruct (pack_word_spec buf 8 (offset_words f) (offset_bits f) (size_bits f))
      as (w & buf' & Hg & Hp & Hok & Hl & Hbit); [done|lia..| |].
    2:{ change (Z.of_nat 8) with 8 in Hg, Hbit. rewrite Hg. cbn [mbind option_bind]. exists buf'. split_and!; [exact Hp|done..|].
        intros p Hpos. rewrite Hbit by done. repeat case_decide; try lia; [|done].
        rewrite Hbits by lia. do 2 f_equal. lia. }
    intros i Hi. rewrite wrap_testbit, field_mask64 by lia.
    rewrite (proj2 (Z.ltb_lt i 64)) by lia. cbn. do 2 f_equal; lia.
  - rewrite (proj2 (Z.leb_gt _ 32)), (proj2 (Z.leb_gt _ 64)) by lia.
    unfold wire_hi, wire_lo in H4. rewrite !Z.quot_div_nonneg by lia.
    destruct (copy_source_spec s f) as (bs & Hg & Hbok & Hbl & Hbit); [done|lia..|].
    destruct (mem_put_spec buf (4 * offset_words f + offset_bits f / 8) bs)
      as (buf' & Hp & Hok & Hl & Hpbit); [done|done|lia..|].
    exists buf'. split_and!; [|done|done|].
    { rewrite <- Hp. by destruct (c_true (struct_size_bytes f)); simplify_option_eq. }
    intros p Hpos. rewrite Hpbit by done. rewrite Hbl, Z2Nat.id by lia.
    repeat case_decide; try lia; [|done]. rewrite Hbit by lia.
    unfold reserved, struct_hi, struct_lo in *.
    destruct (Z.eqb_spec (struct_size_bytes f) 0); [done|]. cbn. f_equal. lia.
Qed.

Lemma value_write_spec m f v :
  bytes_ok m -> struct_size_bytes f ∈ [1; 2; 4; 8] -> 0 <= struct_lo f ->
  struct_hi f <= Z.of_nat (length m) ->
  exists m', value_write (struct_offset_bytes f) (struct_size_bytes f) v m = Some m' /\
    bytes_ok m' /\ length m' = length m /\
    forall q, 0 <= q ->
      wbit m' q = if decide (8 * struct_lo f <= q < 8 * struct_hi f)
                  then Z.testbit v (8 * struct_hi f - 1 - q) else wbit m q.
Proof.
  unfold value_write, struct_lo, struct_hi. intros Hm Hs Hlo Hhi.
  assert (0 < struct_size_bytes f) by set_solver by lia.
  destruct (be_put_spec m (struct_offset_bytes f) (Z.to_nat (struct_size_bytes f)) v)
    as (m' & Hp & Hok & Hl & Hbit); [done|lia..|].
  exists m'. split_and!; [|done|done|].
  - rewrite <- Hp.
    by repeat (apply elem_of_cons in Hs as [->|Hs]); [..|apply elem_of_nil in Hs].
  - intros q Hq. rewrite Hbit, Z2Nat.id by lia. done.
Qed.

(** Extracting the masked bits of the word of [n] bytes at byte [off]. *)
Lemma unpack_word_spec buf (n : nat) off ob size mask :
  bytes_ok buf -> 0 <= off -> 0 <= ob -> 0 <= size -> ob + size <= 8 * Z.of_nat n ->
  off + Z.of_nat n <= Z.of_nat (length buf) ->
  (forall i, 0 <= i < 8 * Z.of_nat n ->
     Z.testbit mask i = (8 * Z.of_nat n - ob - size <=? i) && (i <? 8 * Z.of_nat n - ob)) ->
  exists w, be_get buf off (Z.of_nat n) = Some w /\
    forall i, 0 <= i ->
      Z.testbit (Z.shiftr (Z.land w mask) (8 * Z.of_nat n - ob - size)) i
      = (i <? size) && wbit buf (8 * off + ob + size - 1 - i).
Proof.
  intros Hb How Hob Hs Hfit Hlen Hmask.
  destruct (be_get_spec buf off (Z.of_nat n)) as (w & Hg & Hf & Hw); [done|lia..|].
  exists w. split; [done|]. intros i Hi.
  rewrite Z.shiftr_spec, Z.land_spec by lia.
  destruct (Z.ltb_spec i size).
  - rewrite Hmask, Hw by lia.
    rewrite (proj2 (Z.leb_le _ _)), (proj2 (Z.ltb_lt _ _)) by lia. cbn.
    rewrite andb_true_r. f_equal. lia.
  - destruct (Z.lt_ge_cases (i + (8 * Z.of_nat n - ob - size)) (8 * Z.of_nat n)).
    + rewrite Hmask by lia. replace (_ <? 8 * Z.of_nat n - ob) with false by lia.
      by rewrite !andb_false_r.
    + by rewrite (fits_testbit_high _ w _ Hf) by lia.
Qed.

Lemma unpack_field_spec n m f buf s :
  field_ok n m f = true -> bytes_ok s -> bytes_ok buf ->
  Z.of_nat (length s) = m -> Z.of_nat (length buf) = n ->
  exists s', unpack_field f buf s = Some s' /\ bytes_ok s' /\ length s' = length s /\
    forall q, 0 <= q ->
      wbit s' q = if decide (8 * struct_lo f <= q < 8 * struct_hi f)
                  then (8 * struct_hi f - size_bits f <=? q) && wbit buf (q - delta f)
                  else wbit s q.
Proof.
  intros Hok Hs Hb Hm Hn.
  apply field_ok_inv in Hok as (Hw & Hob & Hsz & Hlo & Hss & Hhi & Hfit & Hcase).
  unfold unpack_field, c_true. rewrite negb_involutive.
  destruct (Z.eqb_spec (struct_size_bytes f) 0) as [Hz|Hnz].
  { exists s. split_and!; try done. intros q Hq. unfold struct_hi, struct_lo.
    by rewrite decide_False by lia. }
  unfold delta, wire_hi, wire_lo.
  destruct Hcase as [(H1 & H2 & H3 & H4)|[(H1 & H2 & H3 & H4 & H5)|(H1 & H2 & H3 & H4 & H5)]].
  - rewrite (proj2 (Z.leb_le _ 32)), (proj2 (Z.ltb_ge _ 0)) by lia.
    edestruct (unpack_word_spec buf 4 (4 * offset_words f) (offset_bits f) (size_bits f)
      (u32 (u64 (Z.shiftl (Z.shiftl 1 (size_bits f) - 1)
         (32 - offset_bits f - size_bits f))))) as (w & Hg & Hbit); [done|lia..| |].
    { intros i Hi. rewrite !wrap_testbit, field_mask by lia.
      rewrite (proj2 (Z.ltb_lt i 32)), (proj2 (Z.ltb_lt i 64)) by lia. cbn. do 2 f_equal; lia. }
    change (Z.of_nat 4) with 4 in *. rewrite Hg. cbn [mbind option_bind].
    edestruct value_write_spec as (s' & Hp & Hok & Hl & Hq);
      [exact Hs|by eapply struct_size_nonzero|done|lia|].
    exists s'. split_and!; [exact Hp|done|done|]. intros q Hq0. rewrite Hq by done.
    case_decide; [|done]. change (8 * 4) with 32 in Hbit. rewrite Hbit by lia.
    f_equal; [|f_equal; lia]. apply eq_true_iff_eq. lia.
  - rewrite (proj2 (Z.leb_gt _ 32)), (proj2 (Z.leb_le _ 64)), (proj2 (Z.ltb_ge _ 0)) by lia.
    edestruct (unpack_word_spec buf 8 (8 * offset_words f) (offset_bits f) (size_bits f)
      (u64 (Z.shiftl (Z.shiftr (u64 (Z.lnot 0)) (64 - size_bits f))
         (64 - offset_bits f - size_bits f)))) as (w & Hg & Hbit); [done|lia..| |].
    { intros i Hi. rewrite wrap_testbit, field_mask64 by lia.
      rewrite (proj2 (Z.ltb_lt i 64)) by lia. cbn. do 2 f_equal; lia. }
    change (Z.of_nat 8) with 8 in *. rewrite Hg. cbn [mbind option_bind].
    edestruct value_write_spec as (s' & Hp & Hok & Hl & Hq);
      [exact Hs|by eapply struct_size_nonzero|done|lia|].
    exists s'. split_and!; [exact Hp|done|done|]. intros q Hq0. rewrite Hq by done.
    case_decide; [|done]. change (8 * 8) with 64 in Hbit. rewrite Hbit by lia.
    f_equal; [|f_equal; lia]. apply eq_true_iff_eq. lia.
  - rewrite (proj2 (Z.leb_gt _ 32)), (proj2 (Z.leb_gt _ 64)) by lia.
    unfold wire_hi, wire_lo, struct_hi, struct_lo in *. rewrite !Z.quot_div_nonneg by lia.
    destruct (mem_get_spec buf (4 * offset_words f + offset_bits f / 8) (size_bits f / 8))
      as (bs & Hg & Hbl & Hbok & Hbit); [lia..|].
    rewrite Hg. cbn [mbind option_bind].
    destruct (mem_put_spec s (struct_offset_bytes f) bs)
      as (s' & Hp & Hok & Hl & Hq); [done|auto|lia..|].
    exists s'. split_and!; try done. intros q Hq0. rewrite Hq by done.
    rewrite Hbl, Z2Nat.id by lia. repeat case_decide; try lia; [|done].
    rewrite Hbit by lia. rewrite (proj2 (Z.leb_le _ q)) by lia. cbn. f_equal. lia.
Qed.

(** ** Whole tables *)

Section table.
Variables (n m : Z).

(** Bit [p] is inside field [f], on the wire and in the structure. *)
Definition on_wire (f : ib_field) (p : Z) : Prop := wire_lo f <= p < wire_hi f.
Definition in_struct (f : ib_field) (q : Z) : Prop := 8 * struct_lo f <= q < 8 * struct_hi f.

Lemma on_wire_pos f p : field_ok n m f = true -> on_wire f p -> 0 <= p.
Proof. intros Hf%field_ok_inv. unfold on_wire, wire_lo. lia. Qed.

Lemma in_struct_pos f q : field_ok n m f = true -> in_struct f q -> 0 <= q.
Proof. intros Hf%field_ok_inv. unfold in_struct. lia. Qed.

Lemma wire_disjoint_spec f g p :
  wire_disjoint f g = true -> on_wire f p -> ~ on_wire g p.
Proof. unfold wire_disjoint, on_wire. rewrite orb_true_iff. lia. Qed.

Lemma struct_disjoint_spec f g q :
  struct_disjoint f g = true -> in_struct f q -> ~ in_struct g q.
Proof.
  unfold struct_disjoint, in_struct, struct_hi, struct_lo. rewrite !orb_true_iff. lia.
Qed.

Lemma ib_pack_spec desc s buf :
  forallb (field_ok n m) desc = true -> pairwise wire_disjoint desc = true ->
  bytes_ok s -> bytes_ok buf -> Z.of_nat (length s) = m -> Z.of_nat (length buf) = n ->
  exists buf', ib_pack desc s buf = Some buf' /\ bytes_ok buf' /\
    length buf' = length buf /\
    (forall f p, f ∈ desc -> on_wire f p ->
       wbit buf' p = negb (reserved f) && wbit s (p + delta f)) /\
    (forall p, 0 <= p -> (forall f, f ∈ desc -> ~ on_wire f p) ->
       wbit buf' p = wbit buf p).
Proof.
  revert buf. induction desc as [|f desc IH]; intros buf Hok Hdis Hs Hb Hm Hn.
  { exists buf. split_and!; try done. intros f p []%elem_of_nil. }
  cbn in Hok, Hdis. bool_arith.
  destruct (pack_field_spec n m f s buf) as (b1 & Hp & Hb1 & Hl1 & Hbit); try done.
  destruct (IH b1) as (b2 & Hp2 & Hb2 & Hl2 & Hin & Hout); try done; [lia|].
  exists b2. cbn. rewrite Hp. cbn. split_and!; try done; [lia| |].
  - intros g p [->|Hg]%elem_of_cons Hw; [|by apply Hin].
    rewrite Hout, Hbit, decide_True; eauto using on_wire_pos.
    intros h Hh. eapply wire_disjoint_spec; [|done].
    eapply forallb_forall; [done|]. by apply list_elem_of_In.
  - intros p Hp0 Hnot. rewrite Hout; [|done|set_solver].
    rewrite Hbit, decide_False; [done| |done]. apply Hnot. set_solver.
Qed.

Lemma ib_unpack_spec desc buf s :
  forallb (field_ok n m) desc = true -> pairwise struct_disjoint desc = true ->
  bytes_ok s -> bytes_ok buf -> Z.of_nat (length s) = m -> Z.of_nat (length buf) = n ->
  exists s', ib_unpack desc buf s = Some s' /\ bytes_ok s' /\ length s' = length s /\
    (forall f q, f ∈ desc -> in_struct f q ->
       wbit s' q = (8 * struct_hi f - size_bits f <=? q) && wbit buf (q - delta f)) /\
    (forall q, 0 <= q -> (forall f, f ∈ desc -> ~ in_struct f q) ->
       wbit s' q = wbit s q).
Proof.
  revert s. induction desc as [|f desc IH]; intros s Hok Hdis Hs Hb Hm Hn.
  { exists s. split_and!; try done. intros f p []%elem_of_nil. }
  cbn in Hok, Hdis. bool_arith.
  destruct (unpack_field_spec n m f buf s) as (s1 & Hp & Hs1 & Hl1 & Hbit); try done.
  destruct (IH s1) as (s2 & Hp2 & Hs2 & Hl2 & Hin & Hout); try done; [lia|].
  exists s2. cbn. rewrite Hp. cbn. split_and!; try done; [lia| |].
  - intros g q [->|Hg]%elem_of_cons Hw; [|by apply Hin].
    rewrite Hout, Hbit, decide_True; eauto using in_struct_pos.
    intros h Hh. eapply struct_disjoint_spec; [|done].
    eapply forallb_forall; [done|]. by apply list_elem_of_In.
  - intros q Hq0 Hnot. rewrite Hout; [|done|set_solver].
    rewrite Hbit, decide_False; [done| |done]. apply Hnot. set_solver.
Qed.
End table.

Lemma table_ok_inv n m desc :
  table_ok n m desc = true ->
  forallb (field_ok n m) desc = true /\ pairwise wire_disjoint desc = true /\
  pairwise struct_disjoint desc = true.
Proof. unfold table_ok. rewrite !andb_true_iff. tauto. Qed.

Lemma table_field n m desc f :
  forallb (field_ok n m) desc = true -> f ∈ desc -> field_ok n m f = true.
Proof. rewrite forallb_forall. intros H Hf. apply H. by apply list_elem_of_In. Qed.

(** A table that fits a buffer fits every longer buffer. *)
Lemma field_ok_mono n n' m f : n <= n' -> field_ok n m f = true -> field_ok n' m f = true.
Proof.
  unfold field_ok. rewrite !andb_true_iff. intros Hn ([Hpre Hfit] & Hcase).
  split; [done|].
  destruct (size_bits f <=? 32), (size_bits f <=? 64);
    rewrite !andb_true_iff, !Z.leb_le in *; intuition lia.
Qed.

Lemma table_ok_mono n n' m desc : n <= n' -> table_ok n m desc = true -> table_ok n' m desc = true.
Proof.
  intros Hn. unfold table_ok. rewrite !andb_true_iff, !forallb_forall.
  intros ((Hf & Hw) & Hs). split_and!; try done. intros f Hin.
  eapply field_ok_mono; eauto.
Qed.

Lemma wbit_drop buf k p : 0 <= p -> wbit (drop k buf) p = wbit buf (8 * Z.of_nat k + p).
Proof. intros. unfold wbit. rewrite lookup_drop. f_equal; [do 2 f_equal|]; lia. Qed.

Lemma wbit_app a b p :
  0 <= p ->
  wbit (a ++ b) p = if decide (p < 8 * Z.of_nat (length a)) then wbit a p
                    else wbit b (p - 8 * Z.of_nat (length a)).
Proof.
  intros. unfold wbit. case_decide.
  - by rewrite lookup_app_l by lia.
  - rewrite lookup_app_r by lia. f_equal; [do 2 f_equal|]; lia.
Qed.

Lemma wbit_take buf k p : 0 <= p < 8 * Z.of_nat k -> wbit (take k buf) p = wbit buf p.
Proof. intros. unfold wbit. by rewrite lookup_take_lt by lia. Qed.

(** The value a structure holds for a field. *)
Definition field_value (f : ib_field) (s : list Z) : option Z :=
  be_get s f.(struct_offset_bytes) f.(struct_size_bytes).

Lemma field_value_spec n m f s :
  field_ok n m f = true -> bytes_ok s -> Z.of_nat (length s) = m ->
  exists v, field_value f s = Some v /\ fits (8 * struct_size_bytes f) v /\
    forall i, 0 <= i < 8 * struct_size_bytes f ->
      Z.testbit v i = wbit s (8 * struct_hi f - 1 - i).
Proof.
  intros Hf%field_ok_inv Hs Hm. unfold field_value, struct_hi, struct_lo in *.
  apply be_get_spec; [done|lia..].
Qed.

(** [s'] holds what a wire that carries [s] can tell: every described field,
    truncated to its width. *)
Definition agrees (desc : list ib_field) (s s' : list Z) : Prop :=
  forall f, f ∈ desc -> reserved f = false ->
    exists v, field_value f s = Some v /\ field_value f s' = Some (wrap (size_bits f) v).

(** Unpacking a buffer that carries the bits of [s] agrees with [s]. *)
Lemma unpack_agrees n m desc s buf s0 :
  table_ok n m desc = true -> bytes_ok s -> Z.of_nat (length s) = m ->
  bytes_ok buf -> Z.of_nat (length buf) = n ->
  bytes_ok s0 -> Z.of_nat (length s0) = m ->
  (forall f p, f ∈ desc -> on_wire f p ->
     wbit buf p = negb (reserved f) && wbit s (p + delta f)) ->
  exists s', ib_unpack desc buf s0 = Some s' /\ bytes_ok s' /\ length s' = length s0 /\
    agrees desc s s'.
Proof.
  intros (Hok & Hwd & Hsd)%table_ok_inv Hs Hm Hb' Hn Hs0 Hm0 Hin.
  destruct (ib_unpack_spec n m desc buf s0) as (s' & Hu & Hs' & Hls & Hin' & _); try done.
  exists s'. split_and!; [done..|]. intros f Hf Hr.
  pose proof (table_field _ _ _ _ Hok Hf) as Hfok.
  destruct (field_value_spec n m f s) as (v & Hv & Hvf & Hvb); try done.
  destruct (field_value_spec n m f s') as (v' & Hv' & Hvf' & Hvb'); try done; [lia|].
  exists v. split; [done|]. rewrite Hv'. f_equal. apply Z.bits_inj'. intros i Hi.
  apply field_ok_inv in Hfok as (Hw & Hob & Hsz & Hlo & Hss & Hhi & Hfit & _).
  unfold reserved in Hr. bool_arith. specialize (Hfit Hr).
  rewrite wrap_testbit by lia.
  destruct (Z.lt_ge_cases i (8 * struct_size_bytes f)) as [Hlt|Hge].
  - rewrite Hvb', (Hin' f) by (done || unfold in_struct, struct_hi, struct_lo in *; lia).
    destruct (Z.ltb_spec i (size_bits f)).
    + rewrite (proj2 (Z.leb_le _ _)) by lia. cbn.
      rewrite (Hin f); [|done|unfold on_wire, delta, wire_hi in *; lia].
      unfold reserved. rewrite (proj2 (Z.eqb_neq _ _)) by done. cbn.
      rewrite Hvb by lia. f_equal. lia.
    + rewrite (proj2 (Z.leb_gt _ _)) by lia. done.
  - rewrite (fits_testbit_high _ _ _ Hvf') by done.
    by rewrite (fits_testbit_high _ _ _ Hvf), andb_false_r.
Qed.

(** C39: packing a structure with a well-formed table and unpacking the result
    recovers, for every described field, the packed value truncated to the
    width of the field on the wire. *)
Theorem ib_pack_unpack n m desc s buf s0 :
  table_ok n m desc = true ->
  bytes_ok s -> Z.of_nat (length s) = m ->
  bytes_ok buf -> Z.of_nat (length buf) = n ->
  bytes_ok s0 -> Z.of_nat (length s0) = m ->
  exists buf' s', ib_pack desc s buf = Some buf' /\ ib_unpack desc buf' s0 = Some s' /\
    agrees desc s s'.
Proof.
  intros Htab Hs Hm Hb Hn Hs0 Hm0. pose proof Htab as (Hok & Hwd & Hsd)%table_ok_inv.
  destruct (ib_pack_spec n m desc s buf) as (buf' & Hp & Hb' & Hl' & Hin & _); try done.
  destruct (unpack_agrees n m desc s buf' s0) as (s' & Hu & _ & _ & Ha); try done; [lia|].
  eauto.
Qed.

(** Unpacking a buffer and packing the structure again. *)
Lemma unpack_pack_bits n m desc buf s0 buf0 :
  table_ok n m desc = true ->
  bytes_ok buf -> Z.of_nat (length buf) = n ->
  bytes_ok s0 -> Z.of_nat (length s0) = m ->
  bytes_ok buf0 -> Z.of_nat (length buf0) = n ->
  exists s' buf', ib_unpack desc buf s0 = Some s' /\ ib_pack desc s' buf0 = Some buf' /\
    (forall f p, f ∈ desc -> on_wire f p ->
       wbit buf' p = negb (reserved f) && wbit buf p) /\
    (forall p, 0 <= p -> (forall f, f ∈ desc -> ~ on_wire f p) ->
       wbit buf' p = wbit buf0 p).
Proof.
  intros (Hok & Hwd & Hsd)%table_ok_inv Hb Hn Hs0 Hm Hb0 Hn0.
  destruct (ib_unpack_spec n m desc buf s0) as (s' & Hu & Hs' & Hls & Hin & _); try done.
  destruct (ib_pack_spec n m desc s' buf0) as (buf' & Hp & Hb' & Hl' & Hin' & Hout);
    try done; [lia|].
  exists s', buf'. split_and!; try done. intros f p Hf Hw. rewrite (Hin' f) by done.
  destruct (reserved f) eqn:Hr; [done|]. cbn. unfold reserved in Hr. bool_arith.
  pose proof (table_field _ _ _ _ Hok Hf) as Hfok%field_ok_inv.
  rewrite (Hin f); [|done|unfold in_struct, on_wire, delta, wire_hi, struct_hi, struct_lo in *; lia].
  rewrite (proj2 (Z.leb_le _ _)) by (unfold delta, on_wire, wire_hi in *; lia).
  cbn. f_equal. lia.
Qed.

(** Unpacking a wire buffer and packing the result into another buffer
    reproduces every wire bit of the described fields, clears the reserved bits
    and leaves all bits outside the table as they were. *)
Theorem ib_unpack_pack n m desc buf s0 buf0 :
  table_ok n m desc = true ->
  bytes_ok buf -> Z.of_nat (length buf) = n ->
  bytes_ok s0 -> Z.of_nat (length s0) = m ->
  bytes_ok buf0 -> Z.of_nat (length buf0) = n ->
  exists s' buf', ib_unpack desc buf s0 = Some s' /\ ib_pack desc s' buf0 = Some buf' /\
    (forall f p, f ∈ desc -> on_wire f p ->
       wbit buf' p = negb (reserved f) && wbit buf p) /\
    (forall p, 0 <= p -> (forall f, f ∈ desc -> ~ on_wire f p) ->
       wbit buf' p = wbit buf0 p).
Proof. apply unpack_pack_bits. Qed.

(** ** The 64-bit case of [ib_unpack]

    [ib_pack] addresses a field of 33 to 64 bits at 32-bit word [offset_words],
    [ib_unpack] at 64-bit word [offset_words]. *)

Definition wide_example : ib_field := mk_field 0 8 1 0 64 "wide".

(** The 64-bit case of [ib_unpack] scales [offset_words] by eight bytes
    instead of four, so a 64-bit field that does not start at word 0 is not
    recovered from what [ib_pack] wrote. *)
Theorem ib_unpack_wide_field_misplaced :
  exists s buf buf' s',
    ib_pack [wide_example] s buf = Some buf' /\
    ib_unpack [wide_example] buf' s = Some s' /\
    field_value wide_example s' <> field_value wide_example s.
Proof.
  exists [1; 2; 3; 4; 5; 6; 7; 8], (replicate 16 0).
  do 2 eexists. split_and!; [vm_compute; reflexivity..|vm_compute; discriminate].
Qed.

(** ** Witnesses *)

Definition example_table : list ib_field :=
  [mk_field 0 1 0 0 4 "a"; mk_field 0 0 0 4 8 "reserved"; mk_field 4 4 0 12 20 "b";
   mk_field 8 16 1 0 128 "c"].

Lemma ib_pack_unpack_witness :
  exists buf' s', ib_pack example_table (replicate 24 255) (replicate 20 0) = Some buf' /\
    ib_unpack example_table buf' (replicate 24 0) = Some s'.
Proof.
  destruct (ib_pack_unpack 20 24 example_table (replicate 24 255) (replicate 20 0)
    (replicate 24 0)) as (buf' & s' & H1 & H2 & _);
    [reflexivity|apply Forall_replicate; eval_conj|reflexivity|
     apply Forall_replicate; eval_conj|reflexivity|apply Forall_replicate; eval_conj|
     reflexivity|].
  eauto.
Defined.

Lemma ib_unpack_pack_witness :
  exists s' buf', ib_unpack example_table (replicate 20 170) (replicate 24 0) = Some s' /\
    ib_pack example_table s' (replicate 20 0) = Some buf'.
Proof.
  destruct (ib_unpack_pack 20 24 example_table (replicate 20 170) (replicate 24 0)
    (replicate 20 0)) as (s' & buf' & H1 & H2 & _);
    [reflexivity|apply Forall_replicate; eval_conj|reflexivity|
     apply Forall_replicate; eval_conj|reflexivity|apply Forall_replicate; eval_conj|
     reflexivity|].
  eauto.
Defined.
