(* ===== verification/Layout.v ===== *)
(** Structures in memory: the layout of C structures under the natural-alignment
    rules of the ABI, reading and writing their members, and the properties of
    the field tables that describe them to [ib_pack] and [ib_unpack]. *)

From S2P Require Import Prelude Packer.
Open Scope Z_scope.

(** ** Structure layout *)

(** A member: name, size and alignment in bytes. *)
Definition member : Type := string * Z * Z.

Definition align_up (off a : Z) : Z := (off + a - 1) / a * a.

(** Name, offset and size of every member, from offset [off]. *)
Fixpoint layout (off : Z) (ms : list member) : list (string * (Z * Z)) :=
  match ms with
  | [] => []
  | (name, size, a) :: ms =>
      let o := align_up off a in (name, (o, size)) :: layout (o + size) ms
  end.

Definition layout_end (off : Z) (ms : list member) : Z :=
  fold_left (fun o '(_, size, a) => align_up o a + size) ms off.

Definition struct_align (ms : list member) : Z :=
  fold_left (fun a '(_, _, b) => Z.max a b) ms 1.

Definition sizeof (ms : list member) : Z := align_up (layout_end 0 ms) (struct_align ms).

Definition u8_ (name : string) : member := (name, 1, 1).
Definition be16_ (name : string) : member := (name, 2, 2).
Definition be32_ (name : string) : member := (name, 4, 4).
Definition gid_ (name : string) : member := (name, 16, 8).

(** Offset and size of a member; [(-1, 0)] for a name the structure lacks. *)
Definition member_at (ms : list member) (name : string) : Z * Z :=
  match find (fun '(n, _) => String.eqb n name) (layout 0 ms) with
  | Some (_, os) => os
  | None => (-1, 0)
  end.

Definition STRUCT_FIELD (ms : list member) (name : string) (ow ob sz : Z) : ib_field :=
  mk_field (fst (member_at ms name)) (snd (member_at ms name)) ow ob sz name.

Definition RESERVED (ow ob sz : Z) : ib_field := mk_field 0 0 ow ob sz "reserved".

Definition zeroes (n : Z) : list Z := replicate (Z.to_nat n) 0.

(** Read and assign a member of a structure. *)
Definition st_get (ms : list member) (name : string) (s : list Z) : Z :=
  default 0 (be_get s (fst (member_at ms name)) (snd (member_at ms name))).

Definition st_set (ms : list member) (name : string) (v : Z) (s : list Z) : list Z :=
  default s (be_put s (fst (member_at ms name)) (Z.to_nat (snd (member_at ms name))) v).

(** ** Well-formed structures *)

Definition struct_ok (m : Z) (s : list Z) : Prop := bytes_ok s /\ Z.of_nat (length s) = m.

Lemma struct_okb m s :
  forallb (fun b => (0 <=? b) && (b <? 256)) s && (Z.of_nat (length s) =? m) = true ->
  struct_ok m s.
Proof.
  rewrite andb_true_iff, forallb_forall. intros [Hs Hl]. split; [|lia].
  apply Forall_forall. intros b Hb. specialize (Hs b (proj1 (list_elem_of_In _ _) Hb)).
  unfold fits. lia.
Qed.

Lemma zeroes_ok ms : 0 <= sizeof ms -> struct_ok (sizeof ms) (zeroes (sizeof ms)).
Proof.
  intros. unfold struct_ok, zeroes. rewrite length_replicate. split; [|lia].
  by apply Forall_replicate.
Qed.

(** Nothing outside bytes [lo, hi) changed. *)
Definition frame (lo hi : Z) (buf buf' : list Z) : Prop :=
  forall p, 0 <= p -> p < 8 * lo \/ 8 * hi <= p -> wbit buf' p = wbit buf p.

(** What was stored is what is read. *)
Lemma mem_get_put m off bs :
  bytes_ok m -> bytes_ok bs -> 0 <= off -> off + Z.of_nat (length bs) <= Z.of_nat (length m) ->
  exists m', mem_put m off bs = Some m' /\ bytes_ok m' /\ length m' = length m /\
    frame off (off + Z.of_nat (length bs)) m m' /\
    mem_get m' off (Z.of_nat (length bs)) = Some bs.
Proof.
  intros Hm Hbs Ho Hl. destruct (mem_put_spec m off bs) as (m' & Hp & Hok & Hlm & Hbit); try done.
  destruct (mem_get_spec m' off (Z.of_nat (length bs))) as (r & Hg & Hlr & Hrok & Hrbit); [lia..|].
  exists m'. split_and!; [done..| |].
  - intros p Hp0 Hout. rewrite Hbit by done. by rewrite decide_False by lia.
  - rewrite Hg. f_equal. rewrite Nat2Z.id in Hlr. apply wbit_ext; [auto|done|done|].
    intros p Hp'. rewrite Hrbit, Hbit, decide_True by lia. f_equal. lia.
Qed.

(** ** Reading and writing members *)

Definition member_ok (ms : list member) (name : string) : bool :=
  (0 <=? fst (member_at ms name)) && (0 <=? snd (member_at ms name)) &&
  (fst (member_at ms name) + snd (member_at ms name) <=? sizeof ms).

Definition member_disjoint (ms : list member) (a b : string) : bool :=
  (fst (member_at ms a) + snd (member_at ms a) <=? fst (member_at ms b)) ||
  (fst (member_at ms b) + snd (member_at ms b) <=? fst (member_at ms a)).

Lemma st_set_ok ms name v s :
  struct_ok (sizeof ms) s -> struct_ok (sizeof ms) (st_set ms name v s).
Proof.
  intros [Hs Hl]. unfold st_set, be_put, mem_put. case_decide as Hd; [|done]. cbn. split.
  - apply bytes_inserts; [done|apply to_be_bytes].
  - by rewrite length_inserts.
Qed.

Lemma st_get_set ms name v s :
  struct_ok (sizeof ms) s -> member_ok ms name = true ->
  st_get ms name (st_set ms name v s) = wrap (8 * snd (member_at ms name)) v.
Proof.
  unfold member_ok. intros [Hs Hl] Hm. bool_arith. unfold st_get, st_set, be_put, be_get.
  destruct (member_at ms name) as [o n]. cbn [fst snd] in *.
  destruct (mem_get_put s o (to_be (Z.to_nat n) v)) as (s' & Hp & _ & _ & _ & Hg);
    [done|apply to_be_bytes|done|rewrite length_to_be; lia|].
  rewrite length_to_be, Z2Nat.id in Hg by lia. rewrite Hp. cbn. rewrite Hg. cbn.
  by rewrite of_be_to_be, Z2Nat.id by lia.
Qed.

(** A word is unchanged by a store that does not touch it. *)
Lemma be_get_put_ne s o n o' n' v :
  bytes_ok s -> 0 <= o -> 0 <= n -> o + n <= Z.of_nat (length s) ->
  0 <= o' -> 0 <= n' -> o' + n' <= Z.of_nat (length s) -> o + n <= o' \/ o' + n' <= o ->
  be_get (default s (be_put s o (Z.to_nat n) v)) o' n' = be_get s o' n'.
Proof.
  intros Hs ?????? Hd. unfold be_put, be_get.
  destruct (mem_get_put s o (to_be (Z.to_nat n) v)) as (s' & Hp & Hok & Hl' & Hfr & _);
    [done|apply to_be_bytes|done|rewrite length_to_be; lia|].
  rewrite length_to_be, Z2Nat.id in Hfr by lia. rewrite Hp. cbn. f_equal.
  destruct (mem_get_spec s' o' n') as (b1 & -> & Hl1 & Hb1 & Hbit1); [lia..|].
  destruct (mem_get_spec s o' n') as (b2 & -> & Hl2 & Hb2 & Hbit2); [lia..|].
  f_equal. apply wbit_ext; [auto|auto|congruence|]. intros p Hp'.
  rewrite Hbit1, Hbit2 by lia. apply Hfr; lia.
Qed.

Lemma st_get_set_ne ms name name' v s :
  struct_ok (sizeof ms) s -> member_ok ms name = true -> member_ok ms name' = true ->
  member_disjoint ms name name' = true ->
  st_get ms name' (st_set ms name v s) = st_get ms name' s.
Proof.
  unfold member_ok, member_disjoint. intros [Hs Hl] Hm Hm' Hd. bool_arith.
  apply orb_true_iff in Hd. rewrite !Z.leb_le in Hd. unfold st_get, st_set.
  rewrite be_get_put_ne by (done || lia). done.
Qed.

(** Read a member back through the assignments of a block. *)
Ltac members :=
  repeat first
    [ rewrite st_get_set by (first [done | auto using st_set_ok])
    | rewrite st_get_set_ne by (first [done | auto using st_set_ok]) ].

(** ** Tables that describe a structure *)

(** The entries follow each other on the wire from bit [p] to bit [hi]. *)
Fixpoint tiles (p hi : Z) (desc : list ib_field) : bool :=
  match desc with
  | [] => p =? hi
  | f :: desc => (wire_lo f =? p) && tiles (wire_hi f) hi desc
  end.

(** No entry of a tiling table reaches beyond its end. *)
Lemma tiles_bound desc lo hi :
  tiles lo hi desc = true -> (forall f, f ∈ desc -> 0 <= size_bits f) ->
  lo <= hi /\ forall f, f ∈ desc -> wire_hi f <= hi.
Proof.
  revert lo. induction desc as [|f desc IH]; intros lo Ht Hpos; cbn in Ht; bool_arith.
  { split; [lia|]. by intros f ?%elem_of_nil. }
  destruct (IH (wire_hi f)) as [Hle Hb]; [done|set_solver|].
  pose proof (Hpos f ltac:(left)). unfold wire_hi in Hle. split; [lia|].
  intros g [->|Hg]%elem_of_cons; [unfold wire_hi; lia|by apply Hb].
Qed.

(** Every member of the structure is described by exactly one entry, with the
    offset and size of the member. *)
Definition describes (ms : list member) (desc : list ib_field) : bool :=
  forallb (fun '(name, (o, sz)) =>
    match filter (fun f => f.(field_name) = name) desc with
    | [f] => (f.(struct_offset_bytes) =? o) && (f.(struct_size_bytes) =? sz)
    | _ => false
    end) (layout 0 ms) &&
  forallb (fun f => reserved f || existsb (fun '(n, _) => String.eqb n f.(field_name))
                                     (layout 0 ms)) desc.

(** A described member of the unpacked structure is the packed one truncated to
    its width on the wire. *)
Lemma agrees_member desc ms name ow ob sz s s' :
  agrees desc s s' -> STRUCT_FIELD ms name ow ob sz ∈ desc ->
  reserved (STRUCT_FIELD ms name ow ob sz) = false ->
  st_get ms name s' = wrap sz (st_get ms name s).
Proof.
  intros Ha Hf Hr. destruct (Ha _ Hf Hr) as (v & Hv & Hv').
  unfold field_value in *. cbn in *. unfold st_get. by rewrite Hv, Hv'.
Qed.

(** [member_of] reads a member of an unpacked structure back from the packed one. *)
Ltac member_of Ha :=
  erewrite (agrees_member _ _ _ _ _ _ _ _ Ha); [|
    repeat first [apply list_elem_of_here | apply list_elem_of_further] | reflexivity].
