(* ===== verification/UdHeader.v ===== *)
(** Unreliable-datagram packet headers: drivers/infiniband/core/ud_header.c with
    the structures of include/rdma/ib_pack.h.

    The unpacked structures are byte lists laid out by [Layout]; the eight field
    tables are those of the source, their structure offsets and sizes computed
    from the layouts as [STRUCT_FIELD] does with [offsetof] and
    [sizeof_field]. *)

From S2P Require Import Prelude Packer Layout.
Open Scope Z_scope.

Definition IB_LRH_BYTES : Z := 8.
Definition IB_ETH_BYTES : Z := 14.
Definition IB_VLAN_BYTES : Z := 4.
Definition IB_GRH_BYTES : Z := 40.
Definition IB_IP4_BYTES : Z := 20.
Definition IB_UDP_BYTES : Z := 8.
Definition IB_BTH_BYTES : Z := 12.
Definition IB_DETH_BYTES : Z := 8.

Definition IB_LNH_IBA_LOCAL : Z := 2.
Definition IB_LNH_IBA_GLOBAL : Z := 3.
Definition IB_OPCODE_UD : Z := 0x60.
Definition IB_OPCODE_SEND_ONLY : Z := 0x04.
Definition IB_OPCODE_SEND_ONLY_WITH_IMMEDIATE : Z := 0x05.
Definition IB_OPCODE_UD_SEND_ONLY : Z := IB_OPCODE_UD + IB_OPCODE_SEND_ONLY.
Definition IB_OPCODE_UD_SEND_ONLY_WITH_IMMEDIATE : Z :=
  IB_OPCODE_UD + IB_OPCODE_SEND_ONLY_WITH_IMMEDIATE.
Definition ETH_P_8021Q : Z := 0x8100.
Definition IPPROTO_UDP : Z := 17.

Definition ib_unpacked_lrh : list member :=
  [u8_ "virtual_lane"; u8_ "link_version"; u8_ "service_level"; u8_ "link_next_header";
   be16_ "destination_lid"; be16_ "packet_length"; be16_ "source_lid"].

Definition ib_unpacked_grh : list member :=
  [u8_ "ip_version"; u8_ "traffic_class"; be32_ "flow_label"; be16_ "payload_length";
   u8_ "next_header"; u8_ "hop_limit"; gid_ "source_gid"; gid_ "destination_gid"].

Definition ib_unpacked_bth : list member :=
  [u8_ "opcode"; u8_ "solicited_event"; u8_ "mig_req"; u8_ "pad_count";
   u8_ "transport_header_version"; be16_ "pkey"; be32_ "destination_qpn";
   u8_ "ack_req"; be32_ "psn"].

Definition ib_unpacked_deth : list member := [be32_ "qkey"; be32_ "source_qpn"].

Definition ib_unpacked_eth : list member :=
  [("dmac_h", 4, 1); ("dmac_l", 2, 1); ("smac_h", 2, 1); ("smac_l", 4, 1); be16_ "type"].

Definition ib_unpacked_ip4 : list member :=
  [u8_ "ver"; u8_ "hdr_len"; u8_ "tos"; be16_ "tot_len"; be16_ "id"; be16_ "frag_off";
   u8_ "ttl"; u8_ "protocol"; be16_ "check"; be32_ "saddr"; be32_ "daddr"].

Definition ib_unpacked_udp : list member :=
  [be16_ "sport"; be16_ "dport"; be16_ "length"; be16_ "csum"].

Definition ib_unpacked_vlan : list member := [be16_ "tag"; be16_ "type"].

(** ** Field tables *)

Definition lrh_table : list ib_field :=
  let F := STRUCT_FIELD ib_unpacked_lrh in
  [F "virtual_lane" 0 0 4; F "link_version" 0 4 4; F "service_level" 0 8 4;
   RESERVED 0 12 2; F "link_next_header" 0 14 2; F "destination_lid" 0 16 16;
   RESERVED 1 0 5; F "packet_length" 1 5 11; F "source_lid" 1 16 16].

Definition eth_table : list ib_field :=
  let F := STRUCT_FIELD ib_unpacked_eth in
  [F "dmac_h" 0 0 32; F "dmac_l" 1 0 16; F "smac_h" 1 16 16; F "smac_l" 2 0 32;
   F "type" 3 0 16].

Definition vlan_table : list ib_field :=
  let F := STRUCT_FIELD ib_unpacked_vlan in [F "tag" 0 0 16; F "type" 0 16 16].

Definition ip4_table : list ib_field :=
  let F := STRUCT_FIELD ib_unpacked_ip4 in
  [F "ver" 0 0 4; F "hdr_len" 0 4 4; F "tos" 0 8 8; F "tot_len" 0 16 16;
   F "id" 1 0 16; F "frag_off" 1 16 16; F "ttl" 2 0 8; F "protocol" 2 8 8;
   F "check" 2 16 16; F "saddr" 3 0 32; F "daddr" 4 0 32].

Definition udp_table : list ib_field :=
  let F := STRUCT_FIELD ib_unpacked_udp in
  [F "sport" 0 0 16; F "dport" 0 16 16; F "length" 1 0 16; F "csum" 1 16 16].

Definition grh_table : list ib_field :=
  let F := STRUCT_FIELD ib_unpacked_grh in
  [F "ip_version" 0 0 4; F "traffic_class" 0 4 8; F "flow_label" 0 12 20;
   F "payload_length" 1 0 16; F "next_header" 1 16 8; F "hop_limit" 1 24 8;
   F "source_gid" 2 0 128; F "destination_gid" 6 0 128].

Definition bth_table : list ib_field :=
  let F := STRUCT_FIELD ib_unpacked_bth in
  [F "opcode" 0 0 8; F "solicited_event" 0 8 1; F "mig_req" 0 9 1; F "pad_count" 0 10 2;
   F "transport_header_version" 0 12 4; F "pkey" 0 16 16; RESERVED 1 0 8;
   F "destination_qpn" 1 8 24; F "ack_req" 2 0 1; RESERVED 2 1 7; F "psn" 2 8 24].

Definition deth_table : list ib_field :=
  let F := STRUCT_FIELD ib_unpacked_deth in
  [F "qkey" 0 0 32; RESERVED 1 0 8; F "source_qpn" 1 8 24].

(** ** The header *)

Record ib_ud_header := mk_ud {
  lrh_present : Z; lrh : list Z;
  eth_present : Z; eth : list Z;
  vlan_present : Z; vlan : list Z;
  grh_present : Z; grh : list Z;
  ipv4_present : Z; ip4 : list Z;
  udp_present : Z; udp : list Z;
  bth : list Z; deth : list Z;
  immediate_present : Z; immediate_data : list Z
}.

(** [memset(header, 0, sizeof *header)] *)
Definition zero_header : ib_ud_header :=
  mk_ud 0 (zeroes (sizeof ib_unpacked_lrh)) 0 (zeroes (sizeof ib_unpacked_eth))
        0 (zeroes (sizeof ib_unpacked_vlan)) 0 (zeroes (sizeof ib_unpacked_grh))
        0 (zeroes (sizeof ib_unpacked_ip4)) 0 (zeroes (sizeof ib_unpacked_udp))
        (zeroes (sizeof ib_unpacked_bth)) (zeroes (sizeof ib_unpacked_deth))
        0 (zeroes 4).

(** The value part of [ib_ud_header_init]: the members written by each of its
    blocks, in the order of the source. *)
Definition ib_ud_header_init (payload_bytes lrh_present eth_present vlan_present
    grh_present ip_version udp_present immediate_present : Z) : Z * ib_ud_header :=
  let udp_bytes := if c_true udp_present then IB_UDP_BYTES else 0 in
  let grh_present := c_true grh_present && negb (c_true ip_version) in
  let header := zero_header in
  (* UDP header without IP header doesn't make sense *)
  if c_true udp_present && negb (ip_version =? 4) && negb (ip_version =? 6)
  then (- EINVAL, header) else
  let lrh' :=
    if c_true lrh_present then
      let packet_length := u16 (Z.quot (IB_LRH_BYTES + IB_BTH_BYTES + IB_DETH_BYTES +
        (if grh_present then IB_GRH_BYTES else 0) + payload_bytes + 4 + 3) 4) in
      st_set ib_unpacked_lrh "packet_length" packet_length
        (st_set ib_unpacked_lrh "link_next_header"
           (if grh_present then IB_LNH_IBA_GLOBAL else IB_LNH_IBA_LOCAL)
           (st_set ib_unpacked_lrh "link_version" 0 header.(lrh)))
    else header.(lrh) in
  let eth' := if c_true vlan_present
              then st_set ib_unpacked_eth "type" ETH_P_8021Q header.(eth)
              else header.(eth) in
  let grh' :=
    if (ip_version =? 6) || grh_present then
      st_set ib_unpacked_grh "next_header" (if c_true udp_present then IPPROTO_UDP else 0x1b)
        (st_set ib_unpacked_grh "payload_length"
           (u16 (Z.land (u64 (udp_bytes + IB_BTH_BYTES + IB_DETH_BYTES + payload_bytes + 4 + 3))
                        (u64 (Z.lnot 3))))
           (st_set ib_unpacked_grh "ip_version" 6 header.(grh)))
    else header.(grh) in
  let ip4' :=
    if ip_version =? 4 then
      st_set ib_unpacked_ip4 "protocol" IPPROTO_UDP
        (st_set ib_unpacked_ip4 "tot_len"
           (u16 (u64 (IB_IP4_BYTES + udp_bytes + IB_BTH_BYTES + IB_DETH_BYTES +
                      payload_bytes + 4)))
           (st_set ib_unpacked_ip4 "hdr_len" 5
              (st_set ib_unpacked_ip4 "ver" 4 header.(ip4))))
    else header.(ip4) in
  let udp' :=
    if c_true udp_present && c_true ip_version then
      st_set ib_unpacked_udp "length"
        (u16 (IB_UDP_BYTES + IB_BTH_BYTES + IB_DETH_BYTES + payload_bytes + 4)) header.(udp)
    else header.(udp) in
  let bth' :=
    st_set ib_unpacked_bth "transport_header_version" 0
      (st_set ib_unpacked_bth "pad_count" (Z.land (4 - payload_bytes) 3)
         (st_set ib_unpacked_bth "opcode"
            (if c_true immediate_present then IB_OPCODE_UD_SEND_ONLY_WITH_IMMEDIATE
             else IB_OPCODE_UD_SEND_ONLY) header.(bth))) in
  (0, mk_ud lrh_present lrh' eth_present eth' vlan_present header.(vlan)
        (c_bool (grh_present || (ip_version =? 6))) grh'
        (c_bool (ip_version =? 4)) ip4' udp_present udp' bth' header.(deth)
        immediate_present header.(immediate_data)).

(** Pack a structure at byte [len] of the buffer. *)
Definition pack_at (desc : list ib_field) (s : list Z) (buf : list Z) (len : Z)
    : option (list Z) :=
  rest ← ib_pack desc s (drop (Z.to_nat len) buf);
  Some (take (Z.to_nat len) buf ++ rest).

(** One conditional block of [ib_ud_header_pack]. *)
Definition pack_if (present : Z) (desc : list ib_field) (s : list Z) (bytes : Z)
    (st : Z * list Z) : option (Z * list Z) :=
  if c_true present then
    buf ← pack_at desc s st.2 st.1; Some (st.1 + bytes, buf)
  else Some st.

(** The last block: the immediate data is copied as it is. *)
Definition pack_imm (present : Z) (d : list Z) (st : Z * list Z) : option (Z * list Z) :=
  if c_true present then
    buf ← mem_put st.2 st.1 d; Some (st.1 + Z.of_nat (length d), buf)
  else Some st.

Definition ib_ud_header_pack (header : ib_ud_header) (buf : list Z)
    : option (Z * list Z) :=
  st ← pack_if header.(lrh_present) lrh_table header.(lrh) IB_LRH_BYTES (0, buf);
  st ← pack_if header.(eth_present) eth_table header.(eth) IB_ETH_BYTES st;
  st ← pack_if header.(vlan_present) vlan_table header.(vlan) IB_VLAN_BYTES st;
  st ← pack_if header.(grh_present) grh_table header.(grh) IB_GRH_BYTES st;
  st ← pack_if header.(ipv4_present) ip4_table header.(ip4) IB_IP4_BYTES st;
  st ← pack_if header.(udp_present) udp_table header.(udp) IB_UDP_BYTES st;
  st ← pack_if 1 bth_table header.(bth) IB_BTH_BYTES st;
  st ← pack_if 1 deth_table header.(deth) IB_DETH_BYTES st;
  pack_imm header.(immediate_present) header.(immediate_data) st.

Definition set_lrh h s := mk_ud h.(lrh_present) s h.(eth_present) h.(eth)
  h.(vlan_present) h.(vlan) h.(grh_present) h.(grh) h.(ipv4_present) h.(ip4)
  h.(udp_present) h.(udp) h.(bth) h.(deth) h.(immediate_present) h.(immediate_data).
Definition set_grh h present s := mk_ud h.(lrh_present) h.(lrh) h.(eth_present) h.(eth)
  h.(vlan_present) h.(vlan) present s h.(ipv4_present) h.(ip4)
  h.(udp_present) h.(udp) h.(bth) h.(deth) h.(immediate_present) h.(immediate_data).
Definition set_bth h s := mk_ud h.(lrh_present) h.(lrh) h.(eth_present) h.(eth)
  h.(vlan_present) h.(vlan) h.(grh_present) h.(grh) h.(ipv4_present) h.(ip4)
  h.(udp_present) h.(udp) s h.(deth) h.(immediate_present) h.(immediate_data).
Definition set_deth h s := mk_ud h.(lrh_present) h.(lrh) h.(eth_present) h.(eth)
  h.(vlan_present) h.(vlan) h.(grh_present) h.(grh) h.(ipv4_present) h.(ip4)
  h.(udp_present) h.(udp) h.(bth) s h.(immediate_present) h.(immediate_data).
Definition set_imm h present d := mk_ud h.(lrh_present) h.(lrh) h.(eth_present) h.(eth)
  h.(vlan_present) h.(vlan) h.(grh_present) h.(grh) h.(ipv4_present) h.(ip4)
  h.(udp_present) h.(udp) h.(bth) h.(deth) present d.

(** Result: the return value and the header as far as it was unpacked; [None]
    for an access outside the buffer. *)
Definition ib_ud_header_unpack (buf : list Z) (header : ib_ud_header)
    : option (Z * ib_ud_header) :=
  s ← ib_unpack lrh_table buf header.(lrh);
  let header := set_lrh header s in
  let buf := drop (Z.to_nat IB_LRH_BYTES) buf in
  if c_true (st_get ib_unpacked_lrh "link_version" header.(lrh))
  then Some (- EINVAL, header) else
  let lnh := st_get ib_unpacked_lrh "link_next_header" header.(lrh) in
  '(err, header, buf) ←
    (if lnh =? IB_LNH_IBA_LOCAL
     then Some (false, set_grh header 0 header.(grh), buf)
     else if lnh =? IB_LNH_IBA_GLOBAL then
       s ← ib_unpack grh_table buf header.(grh);
       let header := set_grh header 1 s in
       let buf := drop (Z.to_nat IB_GRH_BYTES) buf in
       if negb (st_get ib_unpacked_grh "ip_version" header.(grh) =? 6)
       then Some (true, header, buf)
       else if negb (st_get ib_unpacked_grh "next_header" header.(grh) =? 0x1b)
       then Some (true, header, buf)
       else Some (false, header, buf)
     else Some (true, header, buf));
  if err : bool then Some (- EINVAL, header) else
  s ← ib_unpack bth_table buf header.(bth);
  let header := set_bth header s in
  let buf := drop (Z.to_nat IB_BTH_BYTES) buf in
  let opcode := st_get ib_unpacked_bth "opcode" header.(bth) in
  '(err, header) ←
    (if opcode =? IB_OPCODE_UD_SEND_ONLY
     then Some (false, set_imm header 0 header.(immediate_data))
     else if opcode =? IB_OPCODE_UD_SEND_ONLY_WITH_IMMEDIATE
     then Some (false, set_imm header 1 header.(immediate_data))
     else Some (true, header));
  if err : bool then Some (- EINVAL, header) else
  if c_true (st_get ib_unpacked_bth "transport_header_version" header.(bth))
  then Some (- EINVAL, header) else
  s ← ib_unpack deth_table buf header.(deth);
  let header := set_deth header s in
  let buf := drop (Z.to_nat IB_DETH_BYTES) buf in
  if c_true header.(immediate_present) then
    d ← mem_get buf 0 4;
    Some (0, set_imm header header.(immediate_present) d)
  else Some (0, header).

(** ** Lemmas: packing one header of the stack *)

(** The buffer carries the packed form of [s] at byte [off]. *)
Definition carries (buf : list Z) (off : Z) (desc : list ib_field) (s : list Z) : Prop :=
  forall f p, f ∈ desc -> on_wire f p ->
    wbit buf (8 * off + p) = negb (reserved f) && wbit s (p + delta f).

(** [desc] describes a header of [bytes] bytes held in [m] bytes of structure; its
    word accesses stay inside the first [room] bytes. *)
Definition header_table (desc : list ib_field) (bytes room m : Z) : Prop :=
  table_ok room m desc = true /\ forallb (fun f => wire_hi f <=? 8 * bytes) desc = true /\
  0 <= bytes <= room.

Lemma lrh_header : header_table lrh_table IB_LRH_BYTES 8 (sizeof ib_unpacked_lrh).
Proof. split_and!; vm_compute; congruence. Qed.
Lemma eth_header : header_table eth_table IB_ETH_BYTES 16 (sizeof ib_unpacked_eth).
Proof. split_and!; vm_compute; congruence. Qed.
Lemma vlan_header : header_table vlan_table IB_VLAN_BYTES 4 (sizeof ib_unpacked_vlan).
Proof. split_and!; vm_compute; congruence. Qed.
Lemma grh_header : header_table grh_table IB_GRH_BYTES 40 (sizeof ib_unpacked_grh).
Proof. split_and!; vm_compute; congruence. Qed.
Lemma ip4_header : header_table ip4_table IB_IP4_BYTES 20 (sizeof ib_unpacked_ip4).
Proof. split_and!; vm_compute; congruence. Qed.
Lemma udp_header : header_table udp_table IB_UDP_BYTES 8 (sizeof ib_unpacked_udp).
Proof. split_and!; vm_compute; congruence. Qed.
Lemma bth_header : header_table bth_table IB_BTH_BYTES 12 (sizeof ib_unpacked_bth).
Proof. split_and!; vm_compute; congruence. Qed.
Lemma deth_header : header_table deth_table IB_DETH_BYTES 8 (sizeof ib_unpacked_deth).
Proof. split_and!; vm_compute; congruence. Qed.

Create HintDb ud.
#[export] Hint Resolve lrh_header eth_header vlan_header grh_header ip4_header udp_header
  bth_header deth_header : ud.

Lemma frame_trans lo mid hi b1 b2 b3 :
  frame lo mid b1 b2 -> frame mid hi b2 b3 -> 0 <= lo <= mid -> mid <= hi -> frame lo hi b1 b3.
Proof. intros H1 H2 ?? p Hp Ho. rewrite H2, H1 by lia. done. Qed.

Lemma frame_refl lo b : frame lo lo b b.
Proof. by intros p _ _. Qed.

Lemma on_wire_bound desc bytes room m f p :
  header_table desc bytes room m -> f ∈ desc -> on_wire f p -> 0 <= p < 8 * bytes.
Proof.
  intros (Ht & Hb & _) Hf Hw. apply table_ok_inv in Ht as (Hok & _ & _).
  split; [eapply on_wire_pos; [by eapply table_field|done]|].
  rewrite forallb_forall in Hb. specialize (Hb f (proj1 (list_elem_of_In _ _) Hf)).
  apply Z.leb_le in Hb. unfold on_wire in Hw. lia.
Qed.

(** What was packed stays as long as later writes are further on. *)
Lemma carries_frame desc bytes room m off lo hi s b b' :
  header_table desc bytes room m -> 0 <= off -> off + bytes <= lo ->
  frame lo hi b b' -> carries b off desc s -> carries b' off desc s.
Proof.
  intros Ht Ho Hl Hfr Hc f p Hf Hw.
  pose proof (on_wire_bound _ _ _ _ _ _ Ht Hf Hw).
  rewrite Hfr by lia. by apply Hc.
Qed.

Lemma pack_at_spec desc bytes room m s buf len :
  header_table desc bytes room m -> struct_ok m s -> bytes_ok buf -> 0 <= len ->
  len + room <= Z.of_nat (length buf) ->
  exists buf', pack_at desc s buf len = Some buf' /\ bytes_ok buf' /\
    length buf' = length buf /\ carries buf' len desc s /\ frame len (len + bytes) buf buf'.
Proof.
  intros Ht [Hs Hm] Hb Hlen Hroom. pose proof Ht as (Htab & Hbytes & Hle).
  pose proof Htab as (Hok & Hwd & _)%(table_ok_mono _
    (Z.of_nat (length (drop (Z.to_nat len) buf))))%table_ok_inv; [|rewrite length_drop; lia].
  destruct (ib_pack_spec _ m desc s (drop (Z.to_nat len) buf) Hok Hwd)
    as (r & Hp & Hrb & Hrl & Hin & Hout); try done; [by apply Forall_drop|].
  unfold pack_at. rewrite Hp. cbn. rewrite length_drop in Hrl.
  assert (Htk : length (take (Z.to_nat len) buf) = Z.to_nat len)
    by (rewrite length_take; lia).
  eexists. split_and!; [done|apply Forall_app_2; [by apply Forall_take|done]|..].
  - rewrite length_app, Htk, Hrl. lia.
  - intros f p Hf Hw. pose proof (on_wire_bound _ _ _ _ _ _ Ht Hf Hw).
    rewrite wbit_app, Htk, decide_False by lia. rewrite <- (Hin f p Hf Hw). f_equal. lia.
  - intros p Hp0 Ho. rewrite wbit_app, Htk by done. case_decide.
    + rewrite wbit_take by lia. done.
    + rewrite Hout; [rewrite wbit_drop by lia; f_equal; lia|lia|].
      intros f Hf Hw. pose proof (on_wire_bound _ _ _ _ _ _ Ht Hf Hw). lia.
Qed.

Definition when (present bytes : Z) : Z := if c_true present then bytes else 0.

Lemma pack_if_spec present desc bytes room m s buf len :
  header_table desc bytes room m -> struct_ok m s -> bytes_ok buf -> 0 <= len ->
  (c_true present = true -> len + room <= Z.of_nat (length buf)) ->
  exists buf', pack_if present desc s bytes (len, buf)
      = Some (len + when present bytes, buf') /\ bytes_ok buf' /\
    length buf' = length buf /\ frame len (len + when present bytes) buf buf' /\
    (c_true present = true -> carries buf' len desc s).
Proof.
  intros Ht Hs Hb Hlen Hroom. unfold pack_if, when. case_test; cbn.
  - destruct (pack_at_spec desc bytes room m s buf len) as (b & -> & ? & ? & ? & ?);
      try done; [by apply Hroom|].
    cbn. eauto 6.
  - exists buf. rewrite Z.add_0_r. split_and!; try done.
Qed.

Lemma pack_imm_spec present d buf len :
  struct_ok 4 d -> bytes_ok buf -> 0 <= len ->
  len + when present 4 <= Z.of_nat (length buf) ->
  exists buf', pack_imm present d (len, buf) = Some (len + when present 4, buf') /\
    bytes_ok buf' /\ length buf' = length buf /\ frame len (len + when present 4) buf buf' /\
    (c_true present = true -> mem_get buf' len 4 = Some d).
Proof.
  intros [Hd Hl] Hb Hlen Hroom. unfold pack_imm, when in *. case_test.
  - destruct (mem_get_put buf len d) as (b & Hp & ? & ? & Hf & Hg); [done..|lia|].
    cbn [fst snd]. rewrite Hp. cbn. rewrite Hl in *. eauto 6.
  - exists buf. rewrite Z.add_0_r. by split_and!.
Qed.

(** ** The whole stack *)

Definition ud_length (h : ib_ud_header) : Z :=
  when h.(lrh_present) IB_LRH_BYTES + when h.(eth_present) IB_ETH_BYTES +
  when h.(vlan_present) IB_VLAN_BYTES + when h.(grh_present) IB_GRH_BYTES +
  when h.(ipv4_present) IB_IP4_BYTES + when h.(udp_present) IB_UDP_BYTES +
  IB_BTH_BYTES + IB_DETH_BYTES + when h.(immediate_present) 4.

Definition header_ok (h : ib_ud_header) : Prop :=
  struct_ok (sizeof ib_unpacked_lrh) h.(lrh) /\ struct_ok (sizeof ib_unpacked_eth) h.(eth) /\
  struct_ok (sizeof ib_unpacked_vlan) h.(vlan) /\ struct_ok (sizeof ib_unpacked_grh) h.(grh) /\
  struct_ok (sizeof ib_unpacked_ip4) h.(ip4) /\ struct_ok (sizeof ib_unpacked_udp) h.(udp) /\
  struct_ok (sizeof ib_unpacked_bth) h.(bth) /\ struct_ok (sizeof ib_unpacked_deth) h.(deth) /\
  struct_ok 4 h.(immediate_data).

Lemma when_range present bytes : 0 <= bytes -> 0 <= when present bytes <= bytes.
Proof. unfold when. case_test; lia. Qed.

Lemma when_true present bytes : c_true present = true -> when present bytes = bytes.
Proof. unfold when. by intros ->. Qed.

(** One block of [ib_ud_header_pack]: consume the next [pack_if] of the goal. *)
Ltac pack_step Hdr Hok :=
  match goal with
  | |- context [pack_if ?pr ?t ?s ?b (?l, ?buf)] =>
      let b' := fresh "buf" in
      let Hbo := fresh "Hbo" in let Hbl := fresh "Hbl" in
      let Hfr := fresh "Hfr" in let Hca := fresh "Hca" in
      destruct (pack_if_spec pr t b _ _ s buf l Hdr Hok)
        as (b' & -> & Hbo & Hbl & Hfr & Hca);
      [assumption|lia|let Hp := fresh in intros Hp; rewrite ?(when_true _ _ Hp) in *; lia|
       cbn [mbind option_bind]]
  end.

(** The header packed by an earlier block is still there at the end. *)
Ltac carried Hdr Hfr Hca Hpr :=
  refine (carries_frame _ _ _ _ _ _ _ _ _ _ Hdr _ _ Hfr (Hca Hpr));
  rewrite ?(when_true _ _ Hpr) in *;
  unfold IB_LRH_BYTES, IB_ETH_BYTES, IB_VLAN_BYTES, IB_GRH_BYTES, IB_IP4_BYTES, IB_UDP_BYTES,
    IB_BTH_BYTES, IB_DETH_BYTES in *; lia.

(** The headers of the stack in wire order: presence flag, length on the wire,
    field table and structure. *)
Definition ud_stack (h : ib_ud_header) : list (Z * Z * list ib_field * list Z) :=
  [(h.(lrh_present), IB_LRH_BYTES, lrh_table, h.(lrh));
   (h.(eth_present), IB_ETH_BYTES, eth_table, h.(eth));
   (h.(vlan_present), IB_VLAN_BYTES, vlan_table, h.(vlan));
   (h.(grh_present), IB_GRH_BYTES, grh_table, h.(grh));
   (h.(ipv4_present), IB_IP4_BYTES, ip4_table, h.(ip4));
   (h.(udp_present), IB_UDP_BYTES, udp_table, h.(udp));
   (1, IB_BTH_BYTES, bth_table, h.(bth));
   (1, IB_DETH_BYTES, deth_table, h.(deth))].

(** Bytes taken by the headers before the [i]-th one. *)
Definition stack_off (h : ib_ud_header) (i : nat) : Z :=
  fold_left (fun n '(pr, b, _, _) => n + when pr b) (take i (ud_stack h)) 0.

Lemma ud_pack_stack h buf :
  header_ok h -> bytes_ok buf -> ud_length h <= Z.of_nat (length buf) ->
  exists buf', ib_ud_header_pack h buf = Some (ud_length h, buf') /\ bytes_ok buf' /\
    length buf' = length buf /\ frame 0 (ud_length h) buf buf' /\
    (c_true h.(immediate_present) = true ->
       mem_get buf' (stack_off h 8) 4 = Some h.(immediate_data)) /\
    forall i pr b t s, ud_stack h !! i = Some (pr, b, t, s) -> c_true pr = true ->
      carries buf' (stack_off h i) t s.
Proof.
  intros (Hlrh & Heth & Hvlan & Hgrh & Hip4 & Hudp & Hbth & Hdeth & Hipos & Himm) Hb Hlen.
  unfold ib_ud_header_pack. cbn zeta. unfold ud_length in *.
  pose proof (when_range (immediate_present h) 4 ltac:(done)) as Hri.
  pose proof (when_range (lrh_present h) IB_LRH_BYTES ltac:(done)).
  pose proof (when_range (eth_present h) IB_ETH_BYTES ltac:(done)).
  pose proof (when_range (vlan_present h) IB_VLAN_BYTES ltac:(done)).
  pose proof (when_range (grh_present h) IB_GRH_BYTES ltac:(done)).
  pose proof (when_range (ipv4_present h) IB_IP4_BYTES ltac:(done)).
  pose proof (when_range (udp_present h) IB_UDP_BYTES ltac:(done)).
  assert (Hwb : when 1 IB_BTH_BYTES = 12) by done.
  assert (Hwd : when 1 IB_DETH_BYTES = 8) by done.
  unfold IB_LRH_BYTES, IB_ETH_BYTES, IB_VLAN_BYTES, IB_GRH_BYTES, IB_IP4_BYTES, IB_UDP_BYTES,
    IB_BTH_BYTES, IB_DETH_BYTES in *.
  pack_step lrh_header Hlrh.
  pack_step eth_header Heth.
  pack_step vlan_header Hvlan.
  pack_step grh_header Hgrh.
  pack_step ip4_header Hip4.
  pack_step udp_header Hudp.
  pack_step bth_header Hbth.
  pack_step deth_header Hdeth.
  match goal with |- context [pack_imm _ _ (?l, _)] =>
    destruct (pack_imm_spec (immediate_present h) (immediate_data h) buf7 l)
      as (buf8 & -> & Hbo7 & Hbl7 & Hfr7 & Hca7); [by split|done|lia..|] end.
  pose proof (frame_trans _ _ _ _ _ _ Hfr6 Hfr7 ltac:(lia) ltac:(lia)) as G6.
  pose proof (frame_trans _ _ _ _ _ _ Hfr5 G6 ltac:(lia) ltac:(lia)) as G5.
  pose proof (frame_trans _ _ _ _ _ _ Hfr4 G5 ltac:(lia) ltac:(lia)) as G4.
  pose proof (frame_trans _ _ _ _ _ _ Hfr3 G4 ltac:(lia) ltac:(lia)) as G3.
  pose proof (frame_trans _ _ _ _ _ _ Hfr2 G3 ltac:(lia) ltac:(lia)) as G2.
  pose proof (frame_trans _ _ _ _ _ _ Hfr1 G2 ltac:(lia) ltac:(lia)) as G1.
  pose proof (frame_trans _ _ _ _ _ _ Hfr0 G1 ltac:(lia) ltac:(lia)) as G0.
  pose proof (frame_trans _ _ _ _ _ _ Hfr G0 ltac:(lia) ltac:(lia)) as G.
  exists buf8. unfold stack_off. cbn [take ud_stack fold_left].
  split_and!; [do 2 f_equal; lia|done|lia| |by rewrite Z.add_0_l| ].
  { replace (_ + when (immediate_present h) 4) with
      (0 + when (lrh_present h) 8 + when (eth_present h) 14 + when (vlan_present h) 4 +
       when (grh_present h) 40 + when (ipv4_present h) 20 + when (udp_present h) 8 +
       when 1 12 + when 1 8 + when (immediate_present h) 4) by lia. done. }
  intros i pr b t s Hi Hpr.
  destruct i as [|[|[|[|[|[|[|[|i]]]]]]]]; [..|by destruct i];
    injection Hi as <- <- <- <-; cbn [take ud_stack fold_left].
  - carried lrh_header G0 Hca Hpr.
  - carried eth_header G1 Hca0 Hpr.
  - carried vlan_header G2 Hca1 Hpr.
  - carried grh_header G3 Hca2 Hpr.
  - carried ip4_header G4 Hca3 Hpr.
  - carried udp_header G5 Hca4 Hpr.
  - carried bth_header G6 Hca5 Hpr.
  - carried deth_header Hfr7 Hca6 Hpr.
Qed.

(** ** Unpacking *)

Lemma unpack_at_spec desc bytes room m s buf off s0 :
  header_table desc bytes room m -> struct_ok m s -> struct_ok m s0 -> bytes_ok buf ->
  0 <= off -> off + room <= Z.of_nat (length buf) -> carries buf off desc s ->
  exists s', ib_unpack desc (drop (Z.to_nat off) buf) s0 = Some s' /\ struct_ok m s' /\
    agrees desc s s'.
Proof.
  intros Ht [Hs Hm] [Hs0 Hm0] Hb Hoff Hroom Hc. pose proof Ht as (Htab & _ & Hle).
  destruct (unpack_agrees (Z.of_nat (length (drop (Z.to_nat off) buf))) m desc s
    (drop (Z.to_nat off) buf) s0) as (s' & Hu & Hs' & Hl & Ha); try done.
  - eapply table_ok_mono; [|done]. rewrite length_drop. lia.
  - by apply Forall_drop.
  - intros f p Hf Hw. pose proof (on_wire_bound _ _ _ _ _ _ Ht Hf Hw).
    rewrite wbit_drop, Z2Nat.id by lia. by apply Hc.
  - exists s'. split_and!; [done|split; [done|lia]|done].
Qed.

(** A header of the InfiniBand form: what [ib_ud_header_unpack] accepts. *)
Record ib_form (h : ib_ud_header) := {
  form_lrh : c_true h.(lrh_present) = true;
  form_eth : c_true h.(eth_present) = false;
  form_vlan : c_true h.(vlan_present) = false;
  form_ipv4 : c_true h.(ipv4_present) = false;
  form_udp : c_true h.(udp_present) = false;
  form_link_version : st_get ib_unpacked_lrh "link_version" h.(lrh) = 0;
  form_lnh : st_get ib_unpacked_lrh "link_next_header" h.(lrh)
    = if c_true h.(grh_present) then IB_LNH_IBA_GLOBAL else IB_LNH_IBA_LOCAL;
  form_ip_version : c_true h.(grh_present) = true ->
    st_get ib_unpacked_grh "ip_version" h.(grh) = 6;
  form_next_header : c_true h.(grh_present) = true ->
    st_get ib_unpacked_grh "next_header" h.(grh) = 0x1b;
  form_opcode : st_get ib_unpacked_bth "opcode" h.(bth)
    = if c_true h.(immediate_present) then IB_OPCODE_UD_SEND_ONLY_WITH_IMMEDIATE
      else IB_OPCODE_UD_SEND_ONLY;
  form_thv : st_get ib_unpacked_bth "transport_header_version" h.(bth) = 0
}.

(** [h'] is the unpacked form of [h]. *)
Definition same_header (h h' : ib_ud_header) : Prop :=
  c_true h'.(grh_present) = c_true h.(grh_present) /\
  c_true h'.(immediate_present) = c_true h.(immediate_present) /\
  agrees lrh_table h.(lrh) h'.(lrh) /\
  (c_true h.(grh_present) = true -> agrees grh_table h.(grh) h'.(grh)) /\
  agrees bth_table h.(bth) h'.(bth) /\ agrees deth_table h.(deth) h'.(deth) /\
  (c_true h.(immediate_present) = true -> h'.(immediate_data) = h.(immediate_data)).

(** Positions of the headers in the InfiniBand form. *)
Lemma ib_form_offsets h :
  ib_form h ->
  let g := when h.(grh_present) 40 in
  stack_off h 0 = 0 /\ stack_off h 3 = 8 /\ stack_off h 6 = 8 + g /\
  stack_off h 7 = 20 + g /\ stack_off h 8 = 28 + g /\
  ud_length h = 28 + g + when h.(immediate_present) 4.
Proof.
  intros [Hl He Hv H4 Hu _ _ _ _ _ _]. unfold stack_off, ud_length, ud_stack.
  cbn [take fold_left]. unfold when. rewrite Hl, He, Hv, H4, Hu. change (c_true 1) with true.
  unfold IB_LRH_BYTES, IB_GRH_BYTES, IB_BTH_BYTES, IB_DETH_BYTES.
  split_and!; repeat case_test; lia.
Qed.
Section unpack.
Variables (h h0 : ib_ud_header) (buf : list Z).
Hypothesis Hform : ib_form h.
Hypothesis Hh : header_ok h.
Hypothesis Hh0 : header_ok h0.
Hypothesis Hb : bytes_ok buf.
Hypothesis Hlen : ud_length h <= Z.of_nat (length buf).
Hypothesis Himm : c_true h.(immediate_present) = true ->
  mem_get buf (stack_off h 8) 4 = Some h.(immediate_data).
Hypothesis Hcar : forall i pr b t s, ud_stack h !! i = Some (pr, b, t, s) ->
  c_true pr = true -> carries buf (stack_off h i) t s.

(** The part of [ib_ud_header_unpack] after the network header. *)
Definition unpack_transport (buf : list Z) (header : ib_ud_header)
    : option (Z * ib_ud_header) :=
  s ← ib_unpack bth_table buf header.(bth);
  let header := set_bth header s in
  let buf := drop (Z.to_nat IB_BTH_BYTES) buf in
  let opcode := st_get ib_unpacked_bth "opcode" header.(bth) in
  '(err, header) ←
    (if opcode =? IB_OPCODE_UD_SEND_ONLY
     then Some (false, set_imm header 0 header.(immediate_data))
     else if opcode =? IB_OPCODE_UD_SEND_ONLY_WITH_IMMEDIATE
     then Some (false, set_imm header 1 header.(immediate_data))
     else Some (true, header));
  if err : bool then Some (- EINVAL, header) else
  if c_true (st_get ib_unpacked_bth "transport_header_version" header.(bth))
  then Some (- EINVAL, header) else
  s ← ib_unpack deth_table buf header.(deth);
  let header := set_deth header s in
  let buf := drop (Z.to_nat IB_DETH_BYTES) buf in
  if c_true header.(immediate_present) then
    d ← mem_get buf 0 4;
    Some (0, set_imm header header.(immediate_present) d)
  else Some (0, header).

Lemma mem_get_drop m k n : 0 <= k <= Z.of_nat (length m) ->
  mem_get (drop (Z.to_nat k) m) 0 n = mem_get m k n.
Proof.
  intros Hk. unfold mem_get. rewrite length_drop, drop_0.
  repeat case_decide; try lia; done.
Qed.

Lemma unpack_transport_spec header :
  struct_ok (sizeof ib_unpacked_bth) header.(bth) ->
  struct_ok (sizeof ib_unpacked_deth) header.(deth) ->
  exists sb sd d pr,
    unpack_transport (drop (Z.to_nat (stack_off h 6)) buf) header
      = Some (0, set_imm (set_deth (set_bth header sb) sd) pr d) /\
    agrees bth_table h.(bth) sb /\ agrees deth_table h.(deth) sd /\
    c_true pr = c_true h.(immediate_present) /\
    (c_true h.(immediate_present) = true -> d = h.(immediate_data)).
Proof.
  intros Hsb Hsd. destruct (ib_form_offsets h Hform) as (_ & _ & H6 & H7 & H8 & Hl).
  pose proof (when_range (grh_present h) 40 ltac:(done)).
  pose proof (when_range (immediate_present h) 4 ltac:(done)).
  destruct Hh as (_ & _ & _ & _ & _ & _ & Hbth & Hdeth & _).
  destruct (unpack_at_spec _ _ _ _ (bth h) buf (stack_off h 6) (bth header) bth_header)
    as (sb & Hub & _ & Hab); [done..|lia|lia|by eapply (Hcar 6)|].
  destruct (unpack_at_spec _ _ _ _ (deth h) buf (stack_off h 7) (deth header) deth_header)
    as (sd & Hud & _ & Had); [done..|lia|lia|by eapply (Hcar 7)|].
  unfold unpack_transport. rewrite Hub. cbn [mbind option_bind set_bth set_imm bth deth].
  member_of Hab. rewrite (form_opcode _ Hform).
  assert (Hthv : c_true (st_get ib_unpacked_bth "transport_header_version" sb) = false)
    by (member_of Hab; by rewrite (form_thv _ Hform)).
  unfold IB_BTH_BYTES, IB_DETH_BYTES. rewrite !drop_drop.
  replace (Z.to_nat (stack_off h 6) + Z.to_nat 12)%nat with (Z.to_nat (stack_off h 7)) by lia.
  replace (Z.to_nat (stack_off h 6) + (Z.to_nat 12 + Z.to_nat 8))%nat
    with (Z.to_nat (stack_off h 8)) by lia.
  rewrite mem_get_drop by lia.
  destruct (c_true (immediate_present h)) eqn:Hi; cbn [negb].
  - exists sb, sd, (immediate_data h), 1.
    change (wrap 8 IB_OPCODE_UD_SEND_ONLY_WITH_IMMEDIATE =? IB_OPCODE_UD_SEND_ONLY) with false.
    change (wrap 8 IB_OPCODE_UD_SEND_ONLY_WITH_IMMEDIATE =?
            IB_OPCODE_UD_SEND_ONLY_WITH_IMMEDIATE) with true.
    cbn [mbind option_bind set_imm set_bth bth deth]. rewrite Hthv.
    rewrite Hud. cbn [mbind option_bind set_deth immediate_present].
    change (c_true 1) with true. rewrite Himm by done. by split_and!.
  - exists sb, sd, (immediate_data header), 0.
    change (wrap 8 IB_OPCODE_UD_SEND_ONLY =? IB_OPCODE_UD_SEND_ONLY) with true.
    cbn [mbind option_bind set_imm set_bth bth deth]. rewrite Hthv.
    rewrite Hud. cbn. by split_and!.
Qed.

Lemma ib_ud_header_unpack_spec :
  exists h', ib_ud_header_unpack buf h0 = Some (0, h') /\ same_header h h'.
Proof.
  destruct (ib_form_offsets h Hform) as (O0 & O3 & O6 & _ & _ & Hl).
  pose proof (when_range (grh_present h) 40 ltac:(done)).
  pose proof (when_range (immediate_present h) 4 ltac:(done)).
  destruct Hh as (Hlrh & _ & _ & Hgrh & _). destruct Hh0 as (Hl0 & _ & _ & Hg0 & _ & _ & Hb0 & Hd0 & _).
  destruct (unpack_at_spec _ _ _ _ (lrh h) buf (stack_off h 0) (lrh h0) lrh_header)
    as (sl & Hul & _ & Hal); [done..|lia|lia|by eapply (Hcar 0); [|apply Hform]|].
  rewrite O0 in Hul. change (drop (Z.to_nat 0) buf) with buf in Hul.
  unfold ib_ud_header_unpack. rewrite Hul. cbn [mbind option_bind set_lrh lrh].
  member_of Hal. member_of Hal. rewrite (form_link_version _ Hform), (form_lnh _ Hform).
  change (c_true (wrap 4 0)) with false.
  destruct (c_true (grh_present h)) eqn:Hg.
  - destruct (unpack_at_spec _ _ _ _ (grh h) buf (stack_off h 3) (grh h0) grh_header)
      as (sg & Hug & _ & Hag); [done..|lia| |by eapply (Hcar 3)|].
    { rewrite when_true in * by done. lia. }
    change (wrap 2 IB_LNH_IBA_GLOBAL =? IB_LNH_IBA_LOCAL) with false.
    change (wrap 2 IB_LNH_IBA_GLOBAL =? IB_LNH_IBA_GLOBAL) with true.
    rewrite O3 in Hug. unfold IB_LRH_BYTES. cbn [set_lrh grh]. rewrite Hug.
    cbn [mbind option_bind set_grh grh]. member_of Hag. member_of Hag.
    rewrite (form_ip_version _ Hform), (form_next_header _ Hform) by done.
    change (negb (wrap 4 6 =? 6)) with false. change (negb (wrap 8 27 =? 27)) with false.
    cbn [mbind option_bind]. unfold IB_GRH_BYTES.
    replace (drop (Z.to_nat 40) (drop (Z.to_nat 8) buf)) with (drop (Z.to_nat (stack_off h 6)) buf)
      by (rewrite drop_drop, O6, when_true by done; done).
    match goal with |- context [set_grh ?hh 1 ?s] =>
      destruct (unpack_transport_spec (set_grh hh 1 s))
        as (sb & sd & d & pr & Hut & ? & ? & ? & ?); [done..|] end.
    eexists. split; [exact Hut|]. by split_and!.
  - change (wrap 2 IB_LNH_IBA_LOCAL =? IB_LNH_IBA_LOCAL) with true.
    cbn [mbind option_bind]. unfold IB_LRH_BYTES.
    replace (Z.to_nat 8) with (Z.to_nat (stack_off h 6))
      by (rewrite O6; unfold when; by rewrite Hg).
    match goal with |- context [set_grh ?hh 0 ?s] =>
      destruct (unpack_transport_spec (set_grh hh 0 s))
        as (sb & sd & d & pr & Hut & ? & ? & ? & ?); [done..|] end.
    eexists. split; [exact Hut|]. split_and!; try done.
    by rewrite Hg.
Qed.
End unpack.

(** C40: packing a header of the InfiniBand form (LRH, optional GRH, BTH, DETH,
    optional immediate) and unpacking the result succeeds and recovers the
    presence of the optional parts, every described field truncated to its
    width on the wire, and the immediate data. *)
Theorem ib_ud_header_pack_unpack h h0 buf :
  ib_form h -> header_ok h -> header_ok h0 -> bytes_ok buf ->
  ud_length h <= Z.of_nat (length buf) ->
  exists buf' h', ib_ud_header_pack h buf = Some (ud_length h, buf') /\
    ib_ud_header_unpack buf' h0 = Some (0, h') /\ same_header h h'.
Proof.
  intros Hf Hh Hh0 Hb Hl.
  destruct (ud_pack_stack h buf) as (buf' & Hp & Hb' & Hl' & _ & Himm & Hcar); try done.
  destruct (ib_ud_header_unpack_spec h h0 buf') as (h' & Hu & Hs); try done; [lia|].
  eauto.
Qed.

(** For any combination of headers, [ib_ud_header_pack] returns the number
    of bytes of the present headers, writes no bit outside those bytes, and
    leaves each present header at the sum of the lengths of those before it,
    with the reserved bits zero. *)
Theorem ib_ud_header_pack_layout h buf :
  header_ok h -> bytes_ok buf -> ud_length h <= Z.of_nat (length buf) ->
  exists buf', ib_ud_header_pack h buf = Some (ud_length h, buf') /\
    length buf' = length buf /\ frame 0 (ud_length h) buf buf' /\
    (forall i pr b t s, ud_stack h !! i = Some (pr, b, t, s) -> c_true pr = true ->
       forall f p, f ∈ t -> on_wire f p ->
         wbit buf' (8 * stack_off h i + p) = negb (reserved f) && wbit s (p + delta f)) /\
    (c_true h.(immediate_present) = true ->
       mem_get buf' (stack_off h 8) 4 = Some h.(immediate_data)).
Proof.
  intros Hh Hb Hl. destruct (ud_pack_stack h buf) as (buf' & ? & ? & ? & ? & ? & Hc); try done.
  exists buf'. by split_and!.
Qed.

Lemma zero_header_ok : header_ok zero_header.
Proof. unfold header_ok; cbn; split_and!; by apply zeroes_ok || apply (zeroes_ok [be32_ ""]). Qed.

Lemma pad_count payload : Z.land (4 - payload) 3 = (- payload) mod 4.
Proof.
  change 3 with (Z.ones 2). rewrite Z.land_ones by lia. change (2 ^ 2) with 4.
  replace (4 - payload) with (- payload + 1 * 4) by lia. by rewrite Z.mod_add.
Qed.

(** Bytes of a packet with the header [h]: headers, payload, padding and ICRC. *)
Definition packet_bytes (h : ib_ud_header) (payload : Z) : Z :=
  ud_length h + payload + (- payload) mod 4 + 4.

(** Rounding down to a multiple of four by masking with [~3]. *)
Lemma land_not_3 a : fits 64 a -> Z.land (u64 a) (u64 (Z.lnot 3)) = 4 * (a / 4).
Proof.
  intros Ha. rewrite (wrap_small 64 a) by done. rewrite (wrap_land 64 (Z.lnot 3)) by lia.
  rewrite Z.land_comm, <- Z.land_assoc, (Z.land_comm _ a), <- wrap_land, wrap_small by (done || lia).
  rewrite Z.land_comm. change (Z.lnot 3) with (Z.lnot (Z.ones 2)).
  rewrite <- Z.ldiff_land, Z.ldiff_ones_r, Z.shiftl_mul_pow2, Z.shiftr_div_pow2 by lia.
  change (2 ^ 2) with 4. lia.
Qed.

Lemma round_up_div a : 4 * ((a + 3) / 4) = a + (- a) mod 4.
Proof.
  pose proof (Z.div_mod (a + 3) 4). pose proof (Z.mod_pos_bound (a + 3) 4).
  pose proof (Z.div_mod (- a) 4). pose proof (Z.mod_pos_bound (- a) 4). lia.
Qed.

(** The lengths of [ib_ud_header_init] as multiples of four bytes. *)
Lemma lrh_length_ok a : 0 <= a <= 10000 ->
  4 * u16 (u16 (Z.quot (a + 3) 4)) = a + (- a) mod 4.
Proof.
  intros Ha. pose proof (round_up_div a) as Hq. rewrite Z.quot_div_nonneg by lia.
  pose proof (Z.mod_pos_bound (- a) 4 ltac:(done)).
  rewrite !(wrap_small 16 ((a + 3) / 4)) by (unfold fits; lia). done.
Qed.

Lemma grh_length_ok a : 0 <= a <= 10000 ->
  u16 (u16 (Z.land (u64 (a + 3)) (u64 (Z.lnot 3)))) = a + (- a) mod 4.
Proof.
  intros Ha. rewrite land_not_3 by (unfold fits; lia).
  rewrite round_up_div.
  pose proof (Z.mod_pos_bound (- a) 4 ltac:(done)).
  rewrite !(wrap_small 16 (a + (- a) mod 4)) by (unfold fits; lia). done.
Qed.

Lemma neg_mod4 k payload : (- (4 * k + payload)) mod 4 = (- payload) mod 4.
Proof. replace (- (4 * k + payload)) with (- payload + - k * 4) by lia. apply Z.mod_add. lia. Qed.

(** For a native InfiniBand packet of at most 4096 payload bytes
    [ib_ud_header_init] yields a well-formed header that [ib_ud_header_unpack]
    accepts once packed; the pad count completes the payload to a multiple of
    four bytes; LRH packet length and GRH payload length are those of the packet
    with its padding and ICRC, except that the four bytes of immediate data are
    not counted. *)
Theorem ib_ud_header_init_lengths payload lrhp grhp immp :
  0 <= payload <= 4096 -> c_true lrhp = true ->
  exists h, ib_ud_header_init payload lrhp 0 0 grhp 0 0 immp = (0, h) /\
    header_ok h /\ ib_form h /\
    c_true h.(grh_present) = c_true grhp /\ h.(immediate_present) = immp /\
    st_get ib_unpacked_bth "pad_count" h.(bth) = (- payload) mod 4 /\
    4 * st_get ib_unpacked_lrh "packet_length" h.(lrh)
      = packet_bytes h payload - when immp 4 /\
    (c_true grhp = true ->
       st_get ib_unpacked_grh "payload_length" h.(grh)
       = packet_bytes h payload - when immp 4 - IB_LRH_BYTES - IB_GRH_BYTES).
Proof.
  intros Hp Hl. unfold ib_ud_header_init.
  change (c_true 0) with false. change (0 =? 6) with false. change (0 =? 4) with false.
  cbn [andb orb negb]. rewrite Hl, andb_true_r, !orb_false_r.
  match goal with |- exists h, (0, ?x) = (0, h) /\ _ => set (h := x) end.
  pose proof zero_header_ok as (Hzl & Hze & Hzv & Hzg & Hz4 & Hzu & Hzb & Hzd & Hzi).
  assert (Hgp : c_true (grh_present h) = c_true grhp) by apply c_true_bool.
  assert (Elrh : lrh h = lrh h) by done; unfold h at 2 in Elrh; cbn [lrh] in Elrh.
  assert (Egrh : grh h = grh h) by done; unfold h at 2 in Egrh; cbn [grh] in Egrh.
  assert (Ebth : bth h = bth h) by done; unfold h at 2 in Ebth; cbn [bth] in Ebth.
  assert (Hf : ib_form h).
  { constructor; [done..| | | | | |]; rewrite ?Elrh, ?Egrh, ?Ebth, ?Hgp.
    - by members.
    - members. by case_test.
    - intros ->. by members.
    - intros ->. by members.
    - members. change (immediate_present h) with immp. by case_test.
    - by members. }
  destruct (ib_form_offsets h Hf) as (_ & _ & _ & _ & _ & Hlen).
  pose proof (Z.mod_pos_bound (- payload) 4 ltac:(done)).
  exists h. split_and!; [done| |done|done|done| | |].
  - unfold header_ok, h. cbn. split_and!; try done; repeat case_test; auto using st_set_ok.
  - rewrite Ebth. members. rewrite pad_count.
    change (8 * (member_at ib_unpacked_bth "pad_count").2) with 8.
    apply wrap_small. unfold fits. lia.
  - rewrite Elrh. members.
    change (8 * (member_at ib_unpacked_lrh "packet_length").2) with 16.
    unfold packet_bytes. rewrite Hlen. unfold when at 1. rewrite Hgp.
    change (immediate_present h) with immp.
    pose proof (neg_mod4 (if c_true grhp then 18 else 8) payload) as Hn.
    rewrite lrh_length_ok; destruct (c_true grhp);
      unfold IB_LRH_BYTES, IB_BTH_BYTES, IB_DETH_BYTES, IB_GRH_BYTES; try lia.
    + rewrite <- Hn. replace (- (8 + 12 + 8 + 40 + payload + 4)) with (- (4 * 18 + payload)) by lia.
      lia.
    + rewrite <- Hn. replace (- (8 + 12 + 8 + 0 + payload + 4)) with (- (4 * 8 + payload)) by lia.
      lia.
  - intros Hg. rewrite Egrh, Hg. members.
    change (8 * (member_at ib_unpacked_grh "payload_length").2) with 16.
    unfold packet_bytes. rewrite Hlen. unfold when at 1. rewrite Hgp, Hg.
    change (immediate_present h) with immp. rewrite grh_length_ok;
      unfold IB_LRH_BYTES, IB_BTH_BYTES, IB_DETH_BYTES, IB_GRH_BYTES; [|lia].
    replace (- (0 + 12 + 8 + payload + 4)) with (- (4 * 6 + payload)) by lia.
    rewrite neg_mod4. lia.
Qed.

(** ** The tables themselves *)

Definition ud_tables : list (list member * list ib_field * Z) :=
  [(ib_unpacked_lrh, lrh_table, IB_LRH_BYTES); (ib_unpacked_eth, eth_table, IB_ETH_BYTES);
   (ib_unpacked_vlan, vlan_table, IB_VLAN_BYTES); (ib_unpacked_grh, grh_table, IB_GRH_BYTES);
   (ib_unpacked_ip4, ip4_table, IB_IP4_BYTES); (ib_unpacked_udp, udp_table, IB_UDP_BYTES);
   (ib_unpacked_bth, bth_table, IB_BTH_BYTES); (ib_unpacked_deth, deth_table, IB_DETH_BYTES)].

(** Each of the eight header tables covers every bit of its header exactly
    once and in wire order, describes every member of its structure exactly
    once, and lies inside the structure; packed through it, a header occupies
    exactly its number of bytes. *)
Theorem ud_tables_exact :
  Forall (fun '(ms, desc, bytes) =>
    tiles 0 (8 * bytes) desc = true /\ describes ms desc = true /\
    table_ok (Z.max bytes (4 * ((bytes + 3) / 4))) (sizeof ms) desc = true) ud_tables.
Proof. unfold ud_tables. repeat (constructor; [eval_conj|]). constructor. Qed.

(** ** Witnesses *)

(** A packet with GRH and immediate data. *)
Definition ud_example : ib_ud_header :=
  let h := (ib_ud_header_init 7 1 0 0 1 0 0 1).2 in
  set_imm (set_deth h (st_set ib_unpacked_deth "source_qpn" 0xabcdef
    (st_set ib_unpacked_deth "qkey" 0x80010000 h.(deth)))) 1 [1; 2; 3; 4].

Lemma ib_ud_header_pack_unpack_witness :
  ib_form ud_example /\
  exists buf' h', ib_ud_header_pack ud_example (replicate 72 255) = Some (72, buf') /\
    ib_ud_header_unpack buf' zero_header = Some (0, h') /\ same_header ud_example h'.
Proof.
  assert (Hf : ib_form ud_example) by (constructor; vm_compute; congruence).
  split; [exact Hf|].
  apply (ib_ud_header_pack_unpack ud_example zero_header (replicate 72 255) Hf).
  - unfold header_ok. split_and!; apply struct_okb; vm_compute; reflexivity.
  - apply zero_header_ok.
  - apply Forall_replicate. eval_conj.
  - vm_compute. congruence.
Defined.

(** A RoCE v2 packet with VLAN, IPv4 and UDP headers. *)
Definition roce_example : ib_ud_header := (ib_ud_header_init 32 0 1 1 0 4 1 0).2.

Lemma ib_ud_header_pack_layout_witness :
  exists buf', ib_ud_header_pack roce_example (replicate 66 255) = Some (66, buf').
Proof.
  destruct (ib_ud_header_pack_layout roce_example (replicate 66 255)) as (buf' & Hp & _).
  - unfold header_ok. split_and!; apply struct_okb; vm_compute; reflexivity.
  - apply Forall_replicate. eval_conj.
  - vm_compute. congruence.
  - exists buf'. exact Hp.
Defined.

Lemma ib_ud_header_init_lengths_witness :
  exists h, ib_ud_header_init 7 1 0 0 1 0 0 0 = (0, h) /\ ib_form h /\
    st_get ib_unpacked_bth "pad_count" h.(bth) = 1.
Proof.
  destruct (ib_ud_header_init_lengths 7 1 1 0) as (h & Hi & _ & Hf & _ & _ & Hpad & _);
    [lia|reflexivity|].
  exists h. split_and!; [exact Hi|exact Hf|rewrite Hpad; reflexivity].
Defined.
