(* ===== verification/QpState.v ===== *)
(** The queue-pair state machine: [qp_state_table] and [ib_modify_qp_is_ok] of
    drivers/infiniband/core/verbs.c, with the enumerations of
    include/rdma/ib_verbs.h.

    A transition carries, per transport type, the attributes that must and that
    may be supplied. Types are the [enum ib_qp_type] values; a type outside the
    table's arrays answers [None], the read out of range of the C code. *)

From S2P Require Import Prelude.

Notation "a |+ b" := (Z.lor a b) (at level 50, left associativity) : kernel_scope.
#[local] Open Scope kernel_scope.

Inductive ib_qp_state :=
  IB_QPS_RESET | IB_QPS_INIT | IB_QPS_RTR | IB_QPS_RTS | IB_QPS_SQD | IB_QPS_SQE | IB_QPS_ERR.

#[export] Instance ib_qp_state_eq : EqDecision ib_qp_state.
Proof. solve_decision. Defined.

Definition IB_QP_STATE : Z := 1.
Definition IB_QP_CUR_STATE : Z := Z.shiftl 1 1.
Definition IB_QP_EN_SQD_ASYNC_NOTIFY : Z := Z.shiftl 1 2.
Definition IB_QP_ACCESS_FLAGS : Z := Z.shiftl 1 3.
Definition IB_QP_PKEY_INDEX : Z := Z.shiftl 1 4.
Definition IB_QP_PORT : Z := Z.shiftl 1 5.
Definition IB_QP_QKEY : Z := Z.shiftl 1 6.
Definition IB_QP_AV : Z := Z.shiftl 1 7.
Definition IB_QP_PATH_MTU : Z := Z.shiftl 1 8.
Definition IB_QP_TIMEOUT : Z := Z.shiftl 1 9.
Definition IB_QP_RETRY_CNT : Z := Z.shiftl 1 10.
Definition IB_QP_RNR_RETRY : Z := Z.shiftl 1 11.
Definition IB_QP_RQ_PSN : Z := Z.shiftl 1 12.
Definition IB_QP_MAX_QP_RD_ATOMIC : Z := Z.shiftl 1 13.
Definition IB_QP_ALT_PATH : Z := Z.shiftl 1 14.
Definition IB_QP_MIN_RNR_TIMER : Z := Z.shiftl 1 15.
Definition IB_QP_SQ_PSN : Z := Z.shiftl 1 16.
Definition IB_QP_MAX_DEST_RD_ATOMIC : Z := Z.shiftl 1 17.
Definition IB_QP_PATH_MIG_STATE : Z := Z.shiftl 1 18.
Definition IB_QP_CAP : Z := Z.shiftl 1 19.
Definition IB_QP_DEST_QPN : Z := Z.shiftl 1 20.
Definition IB_QP_OFFLOAD_TYPE : Z := Z.shiftl 1 24.
Definition IB_QP_RATE_LIMIT : Z := Z.shiftl 1 25.
Definition IB_QP_RMPN_XRQN : Z := Z.shiftl 1 26.

Definition IB_QPT_SMI : Z := 0.
Definition IB_QPT_GSI : Z := 1.
Definition IB_QPT_RC : Z := 2.
Definition IB_QPT_UC : Z := 3.
Definition IB_QPT_UD : Z := 4.
Definition IB_QPT_RAW_IPV6 : Z := 5.
Definition IB_QPT_RAW_ETHERTYPE : Z := 6.
Definition IB_QPT_RAW_PACKET : Z := 8.
Definition IB_QPT_XRC_INI : Z := 9.
Definition IB_QPT_XRC_TGT : Z := 10.
Definition IB_QPT_MAX : Z := 11.

(** One entry of the table; the arrays are given by their designated
    initialisers. *)
Record qp_transition := mk_transition {
  valid : bool;
  req_param : list (Z * Z);
  opt_param : list (Z * Z)
}.

Definition no_transition : qp_transition := mk_transition false [] [].

(** [a[type]] for an array of [IB_QPT_MAX] masks. *)
Definition designated (a : list (Z * Z)) (type : Z) : option Z :=
  if (0 <=? type) && (type <? IB_QPT_MAX)
  then Some (default 0 (snd <$> find (fun '(t, _) => t =? type) a)) else None.

Definition row_RESET (next : ib_qp_state) : qp_transition :=
  match next with
  | IB_QPS_RESET => mk_transition true [] []
  | IB_QPS_INIT => mk_transition true
      [(IB_QPT_UD, IB_QP_PKEY_INDEX |+ IB_QP_PORT |+ IB_QP_QKEY);
       (IB_QPT_RAW_PACKET, IB_QP_PORT);
       (IB_QPT_UC, IB_QP_PKEY_INDEX |+ IB_QP_PORT |+ IB_QP_ACCESS_FLAGS);
       (IB_QPT_RC, IB_QP_PKEY_INDEX |+ IB_QP_PORT |+ IB_QP_ACCESS_FLAGS);
       (IB_QPT_XRC_INI, IB_QP_PKEY_INDEX |+ IB_QP_PORT |+ IB_QP_ACCESS_FLAGS);
       (IB_QPT_XRC_TGT, IB_QP_PKEY_INDEX |+ IB_QP_PORT |+ IB_QP_ACCESS_FLAGS);
       (IB_QPT_SMI, IB_QP_PKEY_INDEX |+ IB_QP_QKEY);
       (IB_QPT_GSI, IB_QP_PKEY_INDEX |+ IB_QP_QKEY)]
      []
  | _ => no_transition
  end.

Definition row_INIT (next : ib_qp_state) : qp_transition :=
  match next with
  | IB_QPS_RESET => mk_transition true [] []
  | IB_QPS_ERR => mk_transition true [] []
  | IB_QPS_INIT => mk_transition true
      []
      [(IB_QPT_UD, IB_QP_PKEY_INDEX |+ IB_QP_PORT |+ IB_QP_QKEY);
       (IB_QPT_UC, IB_QP_PKEY_INDEX |+ IB_QP_PORT |+ IB_QP_ACCESS_FLAGS);
       (IB_QPT_RC, IB_QP_PKEY_INDEX |+ IB_QP_PORT |+ IB_QP_ACCESS_FLAGS);
       (IB_QPT_XRC_INI, IB_QP_PKEY_INDEX |+ IB_QP_PORT |+ IB_QP_ACCESS_FLAGS);
       (IB_QPT_XRC_TGT, IB_QP_PKEY_INDEX |+ IB_QP_PORT |+ IB_QP_ACCESS_FLAGS);
       (IB_QPT_SMI, IB_QP_PKEY_INDEX |+ IB_QP_QKEY);
       (IB_QPT_GSI, IB_QP_PKEY_INDEX |+ IB_QP_QKEY)]
  | IB_QPS_RTR => mk_transition true
      [(IB_QPT_UC, IB_QP_AV |+ IB_QP_PATH_MTU |+ IB_QP_DEST_QPN |+ IB_QP_RQ_PSN);
       (IB_QPT_RC, IB_QP_AV |+ IB_QP_PATH_MTU |+ IB_QP_DEST_QPN |+ IB_QP_RQ_PSN
         |+ IB_QP_MAX_DEST_RD_ATOMIC |+ IB_QP_MIN_RNR_TIMER);
       (IB_QPT_XRC_INI, IB_QP_AV |+ IB_QP_PATH_MTU |+ IB_QP_DEST_QPN |+ IB_QP_RQ_PSN);
       (IB_QPT_XRC_TGT, IB_QP_AV |+ IB_QP_PATH_MTU |+ IB_QP_DEST_QPN |+ IB_QP_RQ_PSN
         |+ IB_QP_MAX_DEST_RD_ATOMIC |+ IB_QP_MIN_RNR_TIMER)]
      [(IB_QPT_UD, IB_QP_PKEY_INDEX |+ IB_QP_QKEY);
       (IB_QPT_UC, IB_QP_ALT_PATH |+ IB_QP_ACCESS_FLAGS |+ IB_QP_PKEY_INDEX);
       (IB_QPT_RC, IB_QP_ALT_PATH |+ IB_QP_ACCESS_FLAGS |+ IB_QP_PKEY_INDEX);
       (IB_QPT_XRC_INI, IB_QP_ALT_PATH |+ IB_QP_ACCESS_FLAGS |+ IB_QP_PKEY_INDEX);
       (IB_QPT_XRC_TGT, IB_QP_ALT_PATH |+ IB_QP_ACCESS_FLAGS |+ IB_QP_PKEY_INDEX);
       (IB_QPT_SMI, IB_QP_PKEY_INDEX |+ IB_QP_QKEY);
       (IB_QPT_GSI, IB_QP_PKEY_INDEX |+ IB_QP_QKEY)]
  | _ => no_transition
  end.

Definition row_RTR (next : ib_qp_state) : qp_transition :=
  match next with
  | IB_QPS_RESET => mk_transition true [] []
  | IB_QPS_ERR => mk_transition true [] []
  | IB_QPS_RTS => mk_transition true
      [(IB_QPT_UD, IB_QP_SQ_PSN); (IB_QPT_UC, IB_QP_SQ_PSN);
       (IB_QPT_RC, IB_QP_TIMEOUT |+ IB_QP_RETRY_CNT |+ IB_QP_RNR_RETRY |+ IB_QP_SQ_PSN
         |+ IB_QP_MAX_QP_RD_ATOMIC);
       (IB_QPT_XRC_INI, IB_QP_TIMEOUT |+ IB_QP_RETRY_CNT |+ IB_QP_RNR_RETRY |+ IB_QP_SQ_PSN
         |+ IB_QP_MAX_QP_RD_ATOMIC);
       (IB_QPT_XRC_TGT, IB_QP_TIMEOUT |+ IB_QP_SQ_PSN); (IB_QPT_SMI, IB_QP_SQ_PSN);
       (IB_QPT_GSI, IB_QP_SQ_PSN)]
      [(IB_QPT_UD, IB_QP_CUR_STATE |+ IB_QP_QKEY);
       (IB_QPT_UC, IB_QP_CUR_STATE |+ IB_QP_ALT_PATH |+ IB_QP_ACCESS_FLAGS
         |+ IB_QP_PATH_MIG_STATE);
       (IB_QPT_RC, IB_QP_CUR_STATE |+ IB_QP_ALT_PATH |+ IB_QP_ACCESS_FLAGS
         |+ IB_QP_MIN_RNR_TIMER |+ IB_QP_PATH_MIG_STATE |+ IB_QP_OFFLOAD_TYPE);
       (IB_QPT_XRC_INI, IB_QP_CUR_STATE |+ IB_QP_ALT_PATH |+ IB_QP_ACCESS_FLAGS
         |+ IB_QP_PATH_MIG_STATE);
       (IB_QPT_XRC_TGT, IB_QP_CUR_STATE |+ IB_QP_ALT_PATH |+ IB_QP_ACCESS_FLAGS
         |+ IB_QP_MIN_RNR_TIMER |+ IB_QP_PATH_MIG_STATE);
       (IB_QPT_SMI, IB_QP_CUR_STATE |+ IB_QP_QKEY);
       (IB_QPT_GSI, IB_QP_CUR_STATE |+ IB_QP_QKEY);
       (IB_QPT_RAW_PACKET, IB_QP_RATE_LIMIT)]
  | _ => no_transition
  end.

Definition row_RTS (next : ib_qp_state) : qp_transition :=
  match next with
  | IB_QPS_RESET => mk_transition true [] []
  | IB_QPS_ERR => mk_transition true [] []
  | IB_QPS_RTS => mk_transition true
      []
      [(IB_QPT_UD, IB_QP_CUR_STATE |+ IB_QP_QKEY);
       (IB_QPT_UC, IB_QP_CUR_STATE |+ IB_QP_ACCESS_FLAGS |+ IB_QP_ALT_PATH
         |+ IB_QP_PATH_MIG_STATE);
       (IB_QPT_RC, IB_QP_CUR_STATE |+ IB_QP_ACCESS_FLAGS |+ IB_QP_ALT_PATH
         |+ IB_QP_PATH_MIG_STATE |+ IB_QP_MIN_RNR_TIMER |+ IB_QP_OFFLOAD_TYPE
         |+ IB_QP_RMPN_XRQN);
       (IB_QPT_XRC_INI, IB_QP_CUR_STATE |+ IB_QP_ACCESS_FLAGS |+ IB_QP_ALT_PATH
         |+ IB_QP_PATH_MIG_STATE);
       (IB_QPT_XRC_TGT, IB_QP_CUR_STATE |+ IB_QP_ACCESS_FLAGS |+ IB_QP_ALT_PATH
         |+ IB_QP_PATH_MIG_STATE |+ IB_QP_MIN_RNR_TIMER);
       (IB_QPT_SMI, IB_QP_CUR_STATE |+ IB_QP_QKEY);
       (IB_QPT_GSI, IB_QP_CUR_STATE |+ IB_QP_QKEY);
       (IB_QPT_RAW_PACKET, IB_QP_RATE_LIMIT)]
  | IB_QPS_SQD => mk_transition true
      []
      [(IB_QPT_UD, IB_QP_EN_SQD_ASYNC_NOTIFY); (IB_QPT_UC, IB_QP_EN_SQD_ASYNC_NOTIFY);
       (IB_QPT_RC, IB_QP_EN_SQD_ASYNC_NOTIFY);
       (IB_QPT_XRC_INI, IB_QP_EN_SQD_ASYNC_NOTIFY);
       (IB_QPT_XRC_TGT, IB_QP_EN_SQD_ASYNC_NOTIFY);
       (IB_QPT_SMI, IB_QP_EN_SQD_ASYNC_NOTIFY); (IB_QPT_GSI, IB_QP_EN_SQD_ASYNC_NOTIFY)]
  | _ => no_transition
  end.

Definition row_SQD (next : ib_qp_state) : qp_transition :=
  match next with
  | IB_QPS_RESET => mk_transition true [] []
  | IB_QPS_ERR => mk_transition true [] []
  | IB_QPS_RTS => mk_transition true
      []
      [(IB_QPT_UD, IB_QP_CUR_STATE |+ IB_QP_QKEY);
       (IB_QPT_UC, IB_QP_CUR_STATE |+ IB_QP_ALT_PATH |+ IB_QP_ACCESS_FLAGS
         |+ IB_QP_PATH_MIG_STATE);
       (IB_QPT_RC, IB_QP_CUR_STATE |+ IB_QP_ALT_PATH |+ IB_QP_ACCESS_FLAGS
         |+ IB_QP_MIN_RNR_TIMER |+ IB_QP_PATH_MIG_STATE);
       (IB_QPT_XRC_INI, IB_QP_CUR_STATE |+ IB_QP_ALT_PATH |+ IB_QP_ACCESS_FLAGS
         |+ IB_QP_PATH_MIG_STATE);
       (IB_QPT_XRC_TGT, IB_QP_CUR_STATE |+ IB_QP_ALT_PATH |+ IB_QP_ACCESS_FLAGS
         |+ IB_QP_MIN_RNR_TIMER |+ IB_QP_PATH_MIG_STATE);
       (IB_QPT_SMI, IB_QP_CUR_STATE |+ IB_QP_QKEY);
       (IB_QPT_GSI, IB_QP_CUR_STATE |+ IB_QP_QKEY)]
  | IB_QPS_SQD => mk_transition true
      []
      [(IB_QPT_UD, IB_QP_PKEY_INDEX |+ IB_QP_QKEY);
       (IB_QPT_UC, IB_QP_AV |+ IB_QP_ALT_PATH |+ IB_QP_ACCESS_FLAGS |+ IB_QP_PKEY_INDEX
         |+ IB_QP_PATH_MIG_STATE);
       (IB_QPT_RC, IB_QP_PORT |+ IB_QP_AV |+ IB_QP_TIMEOUT |+ IB_QP_RETRY_CNT
         |+ IB_QP_RNR_RETRY |+ IB_QP_MAX_QP_RD_ATOMIC |+ IB_QP_MAX_DEST_RD_ATOMIC
         |+ IB_QP_ALT_PATH |+ IB_QP_ACCESS_FLAGS |+ IB_QP_PKEY_INDEX |+ IB_QP_MIN_RNR_TIMER |+ IB_QP_PATH_MIG_STATE);
       (IB_QPT_XRC_INI, IB_QP_PORT |+ IB_QP_AV |+ IB_QP_TIMEOUT |+ IB_QP_RETRY_CNT
         |+ IB_QP_RNR_RETRY |+ IB_QP_MAX_QP_RD_ATOMIC |+ IB_QP_ALT_PATH
         |+ IB_QP_ACCESS_FLAGS |+ IB_QP_PKEY_INDEX |+ IB_QP_PATH_MIG_STATE);
       (IB_QPT_XRC_TGT, IB_QP_PORT |+ IB_QP_AV |+ IB_QP_TIMEOUT |+ IB_QP_MAX_DEST_RD_ATOMIC
         |+ IB_QP_ALT_PATH |+ IB_QP_ACCESS_FLAGS |+ IB_QP_PKEY_INDEX |+ IB_QP_MIN_RNR_TIMER
         |+ IB_QP_PATH_MIG_STATE);
       (IB_QPT_SMI, IB_QP_PKEY_INDEX |+ IB_QP_QKEY);
       (IB_QPT_GSI, IB_QP_PKEY_INDEX |+ IB_QP_QKEY)]
  | _ => no_transition
  end.

Definition row_SQE (next : ib_qp_state) : qp_transition :=
  match next with
  | IB_QPS_RESET => mk_transition true [] []
  | IB_QPS_ERR => mk_transition true [] []
  | IB_QPS_RTS => mk_transition true
      []
      [(IB_QPT_UD, IB_QP_CUR_STATE |+ IB_QP_QKEY);
       (IB_QPT_UC, IB_QP_CUR_STATE |+ IB_QP_ACCESS_FLAGS);
       (IB_QPT_SMI, IB_QP_CUR_STATE |+ IB_QP_QKEY);
       (IB_QPT_GSI, IB_QP_CUR_STATE |+ IB_QP_QKEY)]
  | _ => no_transition
  end.

Definition row_ERR (next : ib_qp_state) : qp_transition :=
  match next with
  | IB_QPS_RESET => mk_transition true [] []
  | IB_QPS_ERR => mk_transition true [] []
  | _ => no_transition
  end.
Definition qp_state_table (cur next : ib_qp_state) : qp_transition :=
  match cur with
  | IB_QPS_RESET => row_RESET next
  | IB_QPS_INIT => row_INIT next
  | IB_QPS_RTR => row_RTR next
  | IB_QPS_RTS => row_RTS next
  | IB_QPS_SQD => row_SQD next
  | IB_QPS_SQE => row_SQE next
  | IB_QPS_ERR => row_ERR next
  end.

Definition state_eqb (a b : ib_qp_state) : bool := bool_decide (a = b).

Definition ib_modify_qp_is_ok (cur_state next_state : ib_qp_state) (type mask : Z)
    : option bool :=
  if c_true (Z.land mask IB_QP_CUR_STATE) &&
     negb (state_eqb cur_state IB_QPS_RTR) && negb (state_eqb cur_state IB_QPS_RTS) &&
     negb (state_eqb cur_state IB_QPS_SQD) && negb (state_eqb cur_state IB_QPS_SQE)
  then Some false else
  if negb (qp_state_table cur_state next_state).(valid) then Some false else
  req ← designated (qp_state_table cur_state next_state).(req_param) type;
  opt ← designated (qp_state_table cur_state next_state).(opt_param) type;
  if negb (Z.land mask req =? req) then Some false else
  if c_true (Z.land mask (Z.lnot (req |+ opt |+ IB_QP_STATE))) then Some false else
  Some true.

(** ** Masks as sets of attributes *)

(** Every attribute of [a] is in [b]. *)
Definition subm (a b : Z) : Prop := Z.land b a = a.

#[export] Instance subm_dec a b : Decision (subm a b).
Proof. unfold subm. apply _. Defined.

Lemma subm_spec a b : subm a b <-> forall i, 0 <= i -> Z.testbit a i = true -> Z.testbit b i = true.
Proof.
  unfold subm. split.
  - intros H i Hi Ha. rewrite <- H, Z.land_spec in Ha. by apply andb_prop in Ha as [? _].
  - intros H. apply Z.bits_inj'. intros i Hi. rewrite Z.land_spec.
    specialize (H i Hi). destruct (Z.testbit a i); [|by rewrite andb_false_r].
    by rewrite H by done.
Qed.

Lemma subm_lor a b c : subm a c -> subm b c -> subm (a |+ b) c.
Proof. rewrite !subm_spec. intros Ha Hb i Hi. rewrite Z.lor_spec, orb_true_iff. naive_solver. Qed.

Lemma subm_lor_l a b c : subm a b -> subm a (b |+ c).
Proof. rewrite !subm_spec. intros Ha i Hi. rewrite Z.lor_spec, orb_true_iff. naive_solver. Qed.

Lemma subm_lor_r a b c : subm a c -> subm a (b |+ c).
Proof. rewrite !subm_spec. intros Ha i Hi. rewrite Z.lor_spec, orb_true_iff. naive_solver. Qed.

Lemma subm_0 a : subm 0 a.
Proof. apply Z.land_0_r. Qed.

Lemma subm_refl a : subm a a.
Proof. apply Z.land_diag. Qed.

Lemma subm_diff a b : subm a b <-> Z.land a (Z.lnot b) = 0.
Proof.
  rewrite subm_spec. split.
  - intros H. apply Z.bits_inj'. intros i Hi. rewrite Z.land_spec, Z.lnot_spec, Z.bits_0 by done.
    specialize (H i Hi). destruct (Z.testbit a i); [by rewrite H|done].
  - intros H i Hi Ha. assert (Hb : Z.testbit (Z.land a (Z.lnot b)) i = false) by (by rewrite H, Z.bits_0).
    rewrite Z.land_spec, Z.lnot_spec, Ha in Hb by done. by destruct (Z.testbit b i).
Qed.

Create HintDb qp.
#[export] Hint Resolve subm_lor subm_lor_l subm_lor_r subm_0 subm_refl : qp.

(** ** The table *)

Definition qp_types : list Z := [0; 1; 2; 3; 4; 5; 6; 7; 8; 9; 10].
Definition qp_states : list ib_qp_state :=
  [IB_QPS_RESET; IB_QPS_INIT; IB_QPS_RTR; IB_QPS_RTS; IB_QPS_SQD; IB_QPS_SQE; IB_QPS_ERR].

(** Required and allowed attributes of a transition. *)
Definition required (cur next : ib_qp_state) (type : Z) : Z :=
  default 0 (designated (qp_state_table cur next).(req_param) type).
Definition allowed (cur next : ib_qp_state) (type : Z) : Z :=
  required cur next type |+
  default 0 (designated (qp_state_table cur next).(opt_param) type) |+ IB_QP_STATE.

Definition qp_type_ok (type : Z) : Prop := 0 <= type < IB_QPT_MAX.

Lemma required_none cur next type :
  req_param (qp_state_table cur next) = [] -> required cur next type = 0.
Proof. unfold required, designated. intros ->. by case_test. Qed.

(** States in which the source state may be given. *)
Definition cur_state_given (s : ib_qp_state) : bool :=
  bool_decide (s ∈ [IB_QPS_RTR; IB_QPS_RTS; IB_QPS_SQD; IB_QPS_SQE]).

#[export] Instance qp_type_ok_dec type : Decision (qp_type_ok type).
Proof. unfold qp_type_ok. apply _. Defined.

Lemma designated_default a type :
  qp_type_ok type -> designated a type = Some (default 0 (designated a type)).
Proof.
  unfold qp_type_ok, designated. intros. rewrite (proj2 (Z.leb_le _ _)), (proj2 (Z.ltb_lt _ _)) by lia.
  done.
Qed.

Lemma designated_None a type : ~ qp_type_ok type -> designated a type = None.
Proof. unfold qp_type_ok, designated. intros. case_test; [lia|done]. Qed.

Lemma qp_type_cases type (P : Z -> Prop) :
  qp_type_ok type -> Forall P qp_types -> P type.
Proof.
  unfold qp_type_ok, IB_QPT_MAX, qp_types. intros Ht HP. rewrite Forall_forall in HP. apply HP.
  cbn. lia.
Qed.

Lemma allowed_cur_state cur next type :
  qp_type_ok type ->
  c_true (Z.land (allowed cur next type) IB_QP_CUR_STATE) = true -> cur_state_given cur = true.
Proof.
  intros Ht. pattern type. apply qp_type_cases; [done|].
  destruct cur, next; vm_compute; repeat constructor; done.
Qed.

(** The guard on the source state, as [ib_modify_qp_is_ok] writes it. *)
Lemma cur_state_guard cur x :
  x && negb (state_eqb cur IB_QPS_RTR) && negb (state_eqb cur IB_QPS_RTS) &&
  negb (state_eqb cur IB_QPS_SQD) && negb (state_eqb cur IB_QPS_SQE)
  = x && negb (cur_state_given cur).
Proof. by destruct cur, x. Qed.

Lemma modify_ok_typed cur next type mask :
  qp_type_ok type ->
  ib_modify_qp_is_ok cur next type mask =
  Some (valid (qp_state_table cur next) &&
        bool_decide (subm (required cur next type) mask) &&
        bool_decide (subm mask (allowed cur next type))).
Proof.
  intros Ht. unfold ib_modify_qp_is_ok.
  rewrite (designated_default (req_param (qp_state_table cur next)) type Ht).
  rewrite (designated_default (opt_param (qp_state_table cur next)) type Ht). cbn [mbind option_bind].
  fold (required cur next type). fold (allowed cur next type).
  pose proof (allowed_cur_state cur next type Ht) as Hcs.
  rewrite cur_state_guard. destruct (valid _); cbn [negb andb]; [|by case_test].
  destruct (Z.eqb_spec (Z.land mask (required cur next type)) (required cur next type)) as [Hr|Hr];
    cbn [negb]; [|rewrite (bool_decide_false (subm _ mask)) by done; by case_test].
  rewrite (bool_decide_true (subm _ mask)) by done. cbn [andb].
  destruct (c_true (Z.land mask (Z.lnot (allowed cur next type)))) eqn:Ha.
  - rewrite bool_decide_false; [by case_test|]. rewrite subm_diff. by apply c_true_spec.
  - apply c_true_false, subm_diff in Ha. rewrite bool_decide_true by done.
    destruct (c_true (Z.land mask IB_QP_CUR_STATE)) eqn:Hm; [|done].
    rewrite Hcs; [done|]. apply c_true_spec. apply c_true_spec in Hm. intros H0. apply Hm.
    rewrite <- Ha, Z.land_comm, Z.land_assoc, (Z.land_comm _ (allowed _ _ _)), H0. done.
Qed.

(** C36: a modify request is accepted exactly when the table has the
    transition, every attribute it requires is supplied, and every supplied
    attribute is required, optional or the state itself; the separate test on
    the source state refuses nothing the table would accept, and only a type
    outside the table makes the code read outside it. *)
Theorem ib_modify_qp_is_ok_exact cur next type mask :
  (ib_modify_qp_is_ok cur next type mask = Some true <->
   (qp_state_table cur next).(valid) = true /\ qp_type_ok type /\
   subm (required cur next type) mask /\ subm mask (allowed cur next type)) /\
  (ib_modify_qp_is_ok cur next type mask = None -> ~ qp_type_ok type).
Proof.
  destruct (decide (qp_type_ok type)) as [Ht|Ht].
  - rewrite modify_ok_typed by done. split; [|done]. split.
    + intros [= [[Hv Hr%bool_decide_eq_true]%andb_prop Ha%bool_decide_eq_true]%andb_prop]. done.
    + intros (-> & _ & Hr & Ha). by rewrite !bool_decide_true.
  - split; [|done]. split; [|by intros (_ & ? & _)]. unfold ib_modify_qp_is_ok.
    rewrite !designated_None by done. cbn. by repeat case_test.
Qed.

(** ** Sequences of modify requests *)

(** The state of a queue pair and the attributes supplied since it was last in
    RESET. *)
Inductive qp_run (type : Z) : ib_qp_state -> Z -> Prop :=
  | run_reset : qp_run type IB_QPS_RESET 0
  | run_step cur next given mask :
      qp_run type cur given ->
      ib_modify_qp_is_ok cur next type mask = Some true ->
      qp_run type next (if state_eqb next IB_QPS_RESET then 0 else given |+ mask).

(** What a queue pair needs before it can be in a state: the attributes the
    three bring-up transitions require. *)
Definition bring_up (s : ib_qp_state) (type : Z) : Z :=
  match s with
  | IB_QPS_RESET | IB_QPS_ERR => 0
  | IB_QPS_INIT => required IB_QPS_RESET IB_QPS_INIT type
  | IB_QPS_RTR => required IB_QPS_RESET IB_QPS_INIT type |+ required IB_QPS_INIT IB_QPS_RTR type
  | IB_QPS_RTS | IB_QPS_SQD | IB_QPS_SQE =>
      required IB_QPS_RESET IB_QPS_INIT type |+ required IB_QPS_INIT IB_QPS_RTR type |+
      required IB_QPS_RTR IB_QPS_RTS type
  end.

(** A valid transition needs no more than its source had and what it requires;
    no transition of the table enters SQE, which only the device does. *)
Lemma bring_up_step cur next type :
  valid (qp_state_table cur next) = true ->
  next <> IB_QPS_SQE /\
  (next <> IB_QPS_RESET -> subm (bring_up next type) (bring_up cur type |+ required cur next type)).
Proof.
  destruct cur, next; intros Hv; try done; split; try done; intros _;
    unfold bring_up; eauto 8 with qp.
Qed.

Lemma modify_ok_inv cur next type mask :
  ib_modify_qp_is_ok cur next type mask = Some true ->
  valid (qp_state_table cur next) = true /\ subm (required cur next type) mask.
Proof.
  intros Ho. destruct (decide (qp_type_ok type)) as [Ht|Ht].
  - rewrite modify_ok_typed in Ho by done.
    injection Ho as [[Hv Hr%bool_decide_eq_true]%andb_prop _]%andb_prop. done.
  - revert Ho. unfold ib_modify_qp_is_ok. rewrite !designated_None by done. cbn.
    by repeat case_test.
Qed.

Lemma subm_trans a b c : subm a b -> subm b c -> subm a c.
Proof. rewrite !subm_spec. naive_solver. Qed.

(** Whatever sequence of accepted modify requests leads a queue pair from
    RESET to a state, the attributes that state needs (those required by the
    bring-up transitions RESET-INIT, INIT-RTR and RTR-RTS of its type) have been
    supplied since it last left RESET; no request brings it to SQE. *)
Theorem qp_run_brought_up type s given :
  qp_run type s given -> s <> IB_QPS_SQE /\ subm (bring_up s type) given.
Proof.
  induction 1 as [|cur next given mask _ [_ IH] Hok]; [split; [done|apply subm_0]|].
  apply modify_ok_inv in Hok as [Hv Hr].
  destruct (bring_up_step cur next type Hv) as [Hsqe Hbu]. split; [done|].
  unfold state_eqb. case_bool_decide as Hn; [subst; apply subm_0|].
  eapply subm_trans; [by apply Hbu|]. auto with qp.
Qed.

(** Shortest accepted bring-up: exactly the required attributes. *)
Definition bring_up_path : list (ib_qp_state * ib_qp_state) :=
  [(IB_QPS_RESET, IB_QPS_INIT); (IB_QPS_INIT, IB_QPS_RTR); (IB_QPS_RTR, IB_QPS_RTS)].

Definition accepts (cur next : ib_qp_state) (type mask : Z) : bool :=
  match ib_modify_qp_is_ok cur next type mask with Some b => b | None => false end.

(** The table is live for every transport type: supplying exactly the
    required attributes with the state takes a queue pair from RESET through
    INIT and RTR to RTS, every state but SQE can be sent back to RESET, every
    state but RESET can be sent to ERR, and no request with any mask leaves ERR
    for a state other than RESET and ERR. *)
Theorem qp_table_live type :
  qp_type_ok type ->
  (forall cur next, (cur, next) ∈ bring_up_path ->
     accepts cur next type (IB_QP_STATE |+ required cur next type) = true) /\
  (forall s, accepts s IB_QPS_RESET type IB_QP_STATE = true) /\
  (forall s, s <> IB_QPS_RESET -> accepts s IB_QPS_ERR type IB_QP_STATE = true) /\
  (forall next mask, accepts IB_QPS_ERR next type mask = true ->
     next = IB_QPS_RESET \/ next = IB_QPS_ERR).
Proof.
  intros Ht. split_and!.
  - intros cur next Hin. unfold accepts. rewrite modify_ok_typed by done.
    assert (Hv : valid (qp_state_table cur next) = true) by (unfold bring_up_path in Hin; set_solver).
    rewrite Hv, !bool_decide_true; [done|unfold allowed|]; auto with qp.
  - intros s. unfold accepts. rewrite modify_ok_typed by done.
    rewrite !bool_decide_true; [by destruct s|unfold allowed; auto with qp|].
    rewrite required_none by (by destruct s). apply subm_0.
  - intros s Hs. unfold accepts. rewrite modify_ok_typed by done.
    rewrite !bool_decide_true; [by destruct s|unfold allowed; auto with qp|].
    rewrite required_none by (by destruct s). apply subm_0.
  - intros next mask. unfold accepts. rewrite modify_ok_typed by done.
    destruct next; auto; discriminate.
Qed.

(** ** Witnesses *)

(** A reliable-connected queue pair brought to RTS. *)
Definition rc_init : Z := IB_QP_STATE |+ IB_QP_PKEY_INDEX |+ IB_QP_PORT |+ IB_QP_ACCESS_FLAGS.

Lemma qp_run_brought_up_witness :
  exists given, qp_run IB_QPT_RC IB_QPS_INIT given /\ subm (bring_up IB_QPS_INIT IB_QPT_RC) given.
Proof.
  assert (Hr : qp_run IB_QPT_RC IB_QPS_INIT (0 |+ rc_init))
    by (apply (run_step _ IB_QPS_RESET IB_QPS_INIT 0 rc_init (run_reset _)); reflexivity).
  exists (0 |+ rc_init). split; [exact Hr|].
  exact (proj2 (qp_run_brought_up _ _ _ Hr)).
Defined.

Lemma qp_table_live_witness :
  qp_type_ok IB_QPT_RC /\ accepts IB_QPS_ERR IB_QPS_RESET IB_QPT_RC IB_QP_STATE = true.
Proof.
  assert (Ht : qp_type_ok IB_QPT_RC) by (vm_compute; split; congruence).
  split; [exact Ht|]. destruct (qp_table_live IB_QPT_RC Ht) as (_ & H & _). exact (H IB_QPS_ERR).
Defined.

