(* ===== verification/SaTables.v ===== *)
(** Subnet-administration records: the field tables of
    drivers/infiniband/core/sa_query.c for the structures of include/rdma/ib_sa.h
    and include/rdma/ib_mad.h, and the conversions between InfiniBand and OPA
    path records.

    [struct sa_path_rec] holds a union; each of its variants is a flat view of
    the same bytes ([sa_path_rec_ib], [sa_path_rec_opa]), and the split views
    name the two halves of the GIDs. The structure is that of a big-endian
    host: members in host order ([rec_type]) are big-endian too. *)

From S2P Require Import Prelude Packer Layout.
Open Scope Z_scope.

Definition be64_ (name : string) : member := (name, 8, 8).

(** ** Structures *)

Definition path_common : list member :=
  [be64_ "service_id"; be32_ "flow_label"; u8_ "hop_limit"; u8_ "traffic_class";
   u8_ "reversible"; u8_ "numb_path"; be16_ "pkey"; be16_ "qos_class"; u8_ "sl";
   u8_ "mtu_selector"; u8_ "mtu"; u8_ "rate_selector"; u8_ "rate";
   u8_ "packet_life_time_selector"; u8_ "packet_life_time"; u8_ "preference"].

(** The union, its variants padded to the size of the largest. *)
Definition path_union_ib : list member :=
  [be16_ "ib.dlid"; be16_ "ib.slid"; u8_ "ib.raw_traffic"; ("ib.(pad)", 11, 1)].
Definition path_union_opa : list member :=
  [be32_ "opa.dlid"; be32_ "opa.slid"; u8_ "opa.raw_traffic"; u8_ "opa.l2_8B"; u8_ "opa.l2_10B";
   u8_ "opa.l2_9B"; u8_ "opa.l2_16B"; u8_ "opa.qos_type"; u8_ "opa.qos_priority";
   ("opa.(pad)", 1, 1)].
Definition path_tail : list member := [be32_ "rec_type"; be32_ "flags"].

Definition path_gids : list member := [gid_ "dgid"; gid_ "sgid"].
Definition path_gids_split : list member :=
  [be64_ "dgid.subnet_prefix"; be64_ "dgid.interface_id";
   be64_ "sgid.subnet_prefix"; be64_ "sgid.interface_id"].

Definition sa_path_rec_ib : list member := path_gids ++ path_common ++ path_union_ib ++ path_tail.
Definition sa_path_rec_opa : list member := path_gids ++ path_common ++ path_union_opa ++ path_tail.
Definition path_ib : list member := path_gids_split ++ path_common ++ path_union_ib ++ path_tail.
Definition path_opa : list member := path_gids_split ++ path_common ++ path_union_opa ++ path_tail.

Definition ib_sa_mcmember_rec : list member :=
  [gid_ "mgid"; gid_ "port_gid"; be32_ "qkey"; be16_ "mlid"; u8_ "mtu_selector"; u8_ "mtu";
   u8_ "traffic_class"; be16_ "pkey"; u8_ "rate_selector"; u8_ "rate";
   u8_ "packet_life_time_selector"; u8_ "packet_life_time"; u8_ "sl"; be32_ "flow_label";
   u8_ "hop_limit"; u8_ "scope"; u8_ "join_state"; u8_ "proxy_join"].

Definition ib_class_port_info : list member :=
  [u8_ "base_version"; u8_ "class_version"; be16_ "capability_mask";
   be32_ "cap_mask2_resp_time"; ("redirect_gid", 16, 1); be32_ "redirect_tcslfl";
   be16_ "redirect_lid"; be16_ "redirect_pkey"; be32_ "redirect_qp"; be32_ "redirect_qkey";
   ("trap_gid", 16, 1); be32_ "trap_tcslfl"; be16_ "trap_lid"; be16_ "trap_pkey";
   be32_ "trap_hlqp"; be32_ "trap_qkey"].

Definition opa_class_port_info : list member :=
  [u8_ "base_version"; u8_ "class_version"; be16_ "cap_mask"; be32_ "cap_mask2_resp_time";
   ("redirect_gid", 16, 1); be32_ "redirect_tc_fl"; be32_ "redirect_lid";
   be32_ "redirect_sl_qp"; be32_ "redirect_qkey"; ("trap_gid", 16, 1); be32_ "trap_tc_fl";
   be32_ "trap_lid"; be32_ "trap_hl_qp"; be32_ "trap_qkey"; be16_ "trap_pkey";
   be16_ "redirect_pkey"; u8_ "trap_sl_rsvd"; ("reserved", 3, 1)].

Definition ib_sa_guidinfo_rec : list member :=
  [be16_ "lid"; u8_ "block_num"; u8_ "res1"; be32_ "res2"; ("guid_info_list", 64, 1)].

(** ** Field tables *)

Definition PATH_REC_FIELD := STRUCT_FIELD sa_path_rec_ib.
Definition OPA_PATH_REC_FIELD := STRUCT_FIELD sa_path_rec_opa.
Definition MCMEMBER_REC_FIELD := STRUCT_FIELD ib_sa_mcmember_rec.
Definition CLASSPORTINFO_REC_FIELD := STRUCT_FIELD ib_class_port_info.
Definition OPA_CLASSPORTINFO_REC_FIELD := STRUCT_FIELD opa_class_port_info.
Definition GUIDINFO_REC_FIELD := STRUCT_FIELD ib_sa_guidinfo_rec.

Definition path_rec_table : list ib_field :=
  [PATH_REC_FIELD "service_id" 0 0 64; PATH_REC_FIELD "dgid" 2 0 128;
   PATH_REC_FIELD "sgid" 6 0 128; PATH_REC_FIELD "ib.dlid" 10 0 16;
   PATH_REC_FIELD "ib.slid" 10 16 16; PATH_REC_FIELD "ib.raw_traffic" 11 0 1;
   RESERVED 11 1 3; PATH_REC_FIELD "flow_label" 11 4 20; PATH_REC_FIELD "hop_limit" 11 24 8;
   PATH_REC_FIELD "traffic_class" 12 0 8; PATH_REC_FIELD "reversible" 12 8 1;
   PATH_REC_FIELD "numb_path" 12 9 7; PATH_REC_FIELD "pkey" 12 16 16;
   PATH_REC_FIELD "qos_class" 13 0 12; PATH_REC_FIELD "sl" 13 12 4;
   PATH_REC_FIELD "mtu_selector" 13 16 2; PATH_REC_FIELD "mtu" 13 18 6;
   PATH_REC_FIELD "rate_selector" 13 24 2; PATH_REC_FIELD "rate" 13 26 6;
   PATH_REC_FIELD "packet_life_time_selector" 14 0 2;
   PATH_REC_FIELD "packet_life_time" 14 2 6; PATH_REC_FIELD "preference" 14 8 8;
   RESERVED 14 16 48].

Definition opa_path_rec_table : list ib_field :=
  [OPA_PATH_REC_FIELD "service_id" 0 0 64; OPA_PATH_REC_FIELD "dgid" 2 0 128;
   OPA_PATH_REC_FIELD "sgid" 6 0 128; OPA_PATH_REC_FIELD "opa.dlid" 10 0 32;
   OPA_PATH_REC_FIELD "opa.slid" 11 0 32; OPA_PATH_REC_FIELD "opa.raw_traffic" 12 0 1;
   RESERVED 12 1 3; OPA_PATH_REC_FIELD "flow_label" 12 4 20;
   OPA_PATH_REC_FIELD "hop_limit" 12 24 8; OPA_PATH_REC_FIELD "traffic_class" 13 0 8;
   OPA_PATH_REC_FIELD "reversible" 13 8 1; OPA_PATH_REC_FIELD "numb_path" 13 9 7;
   OPA_PATH_REC_FIELD "pkey" 13 16 16; OPA_PATH_REC_FIELD "opa.l2_8B" 14 0 1;
   OPA_PATH_REC_FIELD "opa.l2_10B" 14 1 1; OPA_PATH_REC_FIELD "opa.l2_9B" 14 2 1;
   OPA_PATH_REC_FIELD "opa.l2_16B" 14 3 1; RESERVED 14 4 2;
   OPA_PATH_REC_FIELD "opa.qos_type" 14 6 2; OPA_PATH_REC_FIELD "opa.qos_priority" 14 8 8;
   RESERVED 14 16 3; OPA_PATH_REC_FIELD "sl" 14 19 5; RESERVED 14 24 8;
   OPA_PATH_REC_FIELD "mtu_selector" 15 0 2; OPA_PATH_REC_FIELD "mtu" 15 2 6;
   OPA_PATH_REC_FIELD "rate_selector" 15 8 2; OPA_PATH_REC_FIELD "rate" 15 10 6;
   OPA_PATH_REC_FIELD "packet_life_time_selector" 15 16 2;
   OPA_PATH_REC_FIELD "packet_life_time" 15 18 6; OPA_PATH_REC_FIELD "preference" 15 24 8].

Definition mcmember_rec_table : list ib_field :=
  [MCMEMBER_REC_FIELD "mgid" 0 0 128; MCMEMBER_REC_FIELD "port_gid" 4 0 128;
   MCMEMBER_REC_FIELD "qkey" 8 0 32; MCMEMBER_REC_FIELD "mlid" 9 0 16;
   MCMEMBER_REC_FIELD "mtu_selector" 9 16 2; MCMEMBER_REC_FIELD "mtu" 9 18 6;
   MCMEMBER_REC_FIELD "traffic_class" 9 24 8; MCMEMBER_REC_FIELD "pkey" 10 0 16;
   MCMEMBER_REC_FIELD "rate_selector" 10 16 2; MCMEMBER_REC_FIELD "rate" 10 18 6;
   MCMEMBER_REC_FIELD "packet_life_time_selector" 10 24 2;
   MCMEMBER_REC_FIELD "packet_life_time" 10 26 6; MCMEMBER_REC_FIELD "sl" 11 0 4;
   MCMEMBER_REC_FIELD "flow_label" 11 4 20; MCMEMBER_REC_FIELD "hop_limit" 11 24 8;
   MCMEMBER_REC_FIELD "scope" 12 0 4; MCMEMBER_REC_FIELD "join_state" 12 4 4;
   MCMEMBER_REC_FIELD "proxy_join" 12 8 1; RESERVED 12 9 23].

Definition ib_classport_info_rec_table : list ib_field :=
  [CLASSPORTINFO_REC_FIELD "base_version" 0 0 8;
   CLASSPORTINFO_REC_FIELD "class_version" 0 8 8;
   CLASSPORTINFO_REC_FIELD "capability_mask" 0 16 16;
   CLASSPORTINFO_REC_FIELD "cap_mask2_resp_time" 1 0 32;
   CLASSPORTINFO_REC_FIELD "redirect_gid" 2 0 128;
   CLASSPORTINFO_REC_FIELD "redirect_tcslfl" 6 0 32;
   CLASSPORTINFO_REC_FIELD "redirect_lid" 7 0 16;
   CLASSPORTINFO_REC_FIELD "redirect_pkey" 7 16 16;
   CLASSPORTINFO_REC_FIELD "redirect_qp" 8 0 32;
   CLASSPORTINFO_REC_FIELD "redirect_qkey" 9 0 32;
   CLASSPORTINFO_REC_FIELD "trap_gid" 10 0 128;
   CLASSPORTINFO_REC_FIELD "trap_tcslfl" 14 0 32; CLASSPORTINFO_REC_FIELD "trap_lid" 15 0 16;
   CLASSPORTINFO_REC_FIELD "trap_pkey" 15 16 16; CLASSPORTINFO_REC_FIELD "trap_hlqp" 16 0 32;
   CLASSPORTINFO_REC_FIELD "trap_qkey" 17 0 32].

Definition opa_classport_info_rec_table : list ib_field :=
  [OPA_CLASSPORTINFO_REC_FIELD "base_version" 0 0 8;
   OPA_CLASSPORTINFO_REC_FIELD "class_version" 0 8 8;
   OPA_CLASSPORTINFO_REC_FIELD "cap_mask" 0 16 16;
   OPA_CLASSPORTINFO_REC_FIELD "cap_mask2_resp_time" 1 0 32;
   OPA_CLASSPORTINFO_REC_FIELD "redirect_gid" 2 0 128;
   OPA_CLASSPORTINFO_REC_FIELD "redirect_tc_fl" 6 0 32;
   OPA_CLASSPORTINFO_REC_FIELD "redirect_lid" 7 0 32;
   OPA_CLASSPORTINFO_REC_FIELD "redirect_sl_qp" 8 0 32;
   OPA_CLASSPORTINFO_REC_FIELD "redirect_qkey" 9 0 32;
   OPA_CLASSPORTINFO_REC_FIELD "trap_gid" 10 0 128;
   OPA_CLASSPORTINFO_REC_FIELD "trap_tc_fl" 14 0 32;
   OPA_CLASSPORTINFO_REC_FIELD "trap_lid" 15 0 32;
   OPA_CLASSPORTINFO_REC_FIELD "trap_hl_qp" 16 0 32;
   OPA_CLASSPORTINFO_REC_FIELD "trap_qkey" 17 0 32;
   OPA_CLASSPORTINFO_REC_FIELD "trap_pkey" 18 0 16;
   OPA_CLASSPORTINFO_REC_FIELD "redirect_pkey" 18 16 16;
   OPA_CLASSPORTINFO_REC_FIELD "trap_sl_rsvd" 19 0 8; RESERVED 19 8 24].

Definition guidinfo_rec_table : list ib_field :=
  [GUIDINFO_REC_FIELD "lid" 0 0 16; GUIDINFO_REC_FIELD "block_num" 0 16 8;
   GUIDINFO_REC_FIELD "res1" 0 24 8; GUIDINFO_REC_FIELD "res2" 1 0 32;
   GUIDINFO_REC_FIELD "guid_info_list" 2 0 512].

(** ** Packing and unpacking a record *)

Definition ib_sa_unpack_path (attribute rec : list Z) : option (list Z) :=
  ib_unpack path_rec_table attribute rec.

Definition ib_sa_pack_path (rec attribute : list Z) : option (list Z) :=
  ib_pack path_rec_table rec attribute.

(** ** Path records of InfiniBand and OPA fabrics *)

Definition SA_PATH_REC_TYPE_IB : Z := 0.
Definition SA_PATH_REC_TYPE_ROCE_V1 : Z := 1.
Definition SA_PATH_REC_TYPE_ROCE_V2 : Z := 2.
Definition SA_PATH_REC_TYPE_OPA : Z := 3.

Definition IB_MULTICAST_LID_BASE : Z := 0xC000.
Definition OPA_SPECIAL_OUI : Z := 0x00066A.
Definition OPA_MAKE_ID (x : Z) : Z := Z.lor (u64 (Z.shiftl OPA_SPECIAL_OUI 40)) x.

(** The arguments are the [interface_id] of the GID. *)
Definition ib_is_opa_gid (interface_id : Z) : bool :=
  Z.shiftr interface_id 40 =? OPA_SPECIAL_OUI.
Definition opa_get_lid_from_gid (interface_id : Z) : Z := Z.land interface_id 0xFFFFFFFF.

Definition opa_is_extended_lid (dlid slid : Z) : bool :=
  (IB_MULTICAST_LID_BASE <=? dlid) || (IB_MULTICAST_LID_BASE <=? slid).

Definition path_conv_opa_to_ib (ib opa : list Z) : list Z :=
  let ib :=
    if (IB_MULTICAST_LID_BASE <=? st_get path_opa "opa.dlid" opa) ||
       (IB_MULTICAST_LID_BASE <=? st_get path_opa "opa.slid" opa)
    then
      let ib := st_set path_ib "dgid.interface_id"
                  (OPA_MAKE_ID (st_get path_opa "opa.dlid" opa)) ib in
      let ib := st_set path_ib "dgid.subnet_prefix"
                  (st_get path_opa "dgid.subnet_prefix" opa) ib in
      let ib := st_set path_ib "sgid.interface_id"
                  (OPA_MAKE_ID (st_get path_opa "opa.slid" opa)) ib in
      let ib := st_set path_ib "dgid.subnet_prefix"
                  (st_get path_opa "dgid.subnet_prefix" opa) ib in
      let ib := st_set path_ib "ib.dlid" 0 ib in
      st_set path_ib "ib.slid" 0 ib
    else
      let ib := st_set path_ib "ib.dlid" (u16 (st_get path_opa "opa.dlid" opa)) ib in
      st_set path_ib "ib.slid" (u16 (st_get path_opa "opa.slid" opa)) ib in
  let ib := st_set path_ib "service_id" (st_get path_opa "service_id" opa) ib in
  st_set path_ib "ib.raw_traffic" (st_get path_opa "opa.raw_traffic" opa) ib.

Definition path_conv_ib_to_opa (opa ib : list Z) : list Z :=
  let '(slid, dlid) :=
    if ib_is_opa_gid (st_get path_ib "sgid.interface_id" ib) ||
       ib_is_opa_gid (st_get path_ib "dgid.interface_id" ib)
    then (opa_get_lid_from_gid (st_get path_ib "sgid.interface_id" ib),
          opa_get_lid_from_gid (st_get path_ib "dgid.interface_id" ib))
    else (st_get path_ib "ib.slid" ib, st_get path_ib "ib.dlid" ib) in
  let opa := st_set path_opa "opa.slid" slid opa in
  let opa := st_set path_opa "opa.dlid" dlid opa in
  let opa := st_set path_opa "service_id" (st_get path_ib "service_id" ib) opa in
  st_set path_opa "opa.raw_traffic" (st_get path_ib "ib.raw_traffic" ib) opa.

Definition sa_convert_path_opa_to_ib (dest src : list Z) : list Z :=
  if negb (st_get path_opa "rec_type" src =? SA_PATH_REC_TYPE_OPA) then dest else
  path_conv_opa_to_ib (st_set path_ib "rec_type" SA_PATH_REC_TYPE_IB src) src.

Definition sa_convert_path_ib_to_opa (dest src : list Z) : list Z :=
  if negb (st_get path_ib "rec_type" src =? SA_PATH_REC_TYPE_IB) then dest else
  path_conv_ib_to_opa (st_set path_opa "rec_type" SA_PATH_REC_TYPE_OPA src) src.

(** ** The tables *)

(** A table with the structure it describes, the record's size on the wire in
    bytes, and the members it leaves alone. *)
Definition sa_tables : list (list member * list ib_field * Z * list string) :=
  [(sa_path_rec_ib, path_rec_table, 64, ["ib.(pad)"; "rec_type"; "flags"]);
   (sa_path_rec_opa, opa_path_rec_table, 64, ["qos_class"; "opa.(pad)"; "rec_type"; "flags"]);
   (ib_sa_mcmember_rec, mcmember_rec_table, 52, []);
   (ib_class_port_info, ib_classport_info_rec_table, 72, []);
   (opa_class_port_info, opa_classport_info_rec_table, 80, ["reserved"]);
   (ib_sa_guidinfo_rec, guidinfo_rec_table, 72, [])].

Definition undescribed (ms : list member) (desc : list ib_field) : list string :=
  filter (fun n => Forall (fun f => reserved f = true \/ f.(field_name) <> n) desc) (map (fun '(n, _, _) => n) ms).

Lemma sa_tables_checked :
  Forall (fun '(ms, desc, bytes, rest) =>
    table_ok bytes (sizeof ms) desc = true /\ tiles 0 (8 * bytes) desc = true /\
    undescribed ms desc = rest) sa_tables.
Proof. unfold sa_tables. repeat (constructor; [eval_conj|]). constructor. Qed.

Lemma sa_table_ok ms desc bytes rest :
  (ms, desc, bytes, rest) ∈ sa_tables ->
  table_ok bytes (sizeof ms) desc = true /\ tiles 0 (8 * bytes) desc = true /\
  undescribed ms desc = rest.
Proof.
  intros Hin. pose proof (proj1 (List.Forall_forall _ _) sa_tables_checked _
    (proj1 (list_elem_of_In _ _) Hin)) as H. exact H.
Qed.

(** A record sent to the subnet administrator and read back, through any
    of the six tables, keeps every described member, truncated to its width on
    the wire, so unchanged when it fits; the members the table does not describe
    keep what the receiving structure held (the table accounts for all
    others). *)
Theorem sa_record_round_trip ms desc bytes rest s attr s0 :
  (ms, desc, bytes, rest) ∈ sa_tables ->
  struct_ok (sizeof ms) s -> struct_ok (sizeof ms) s0 ->
  bytes_ok attr -> bytes <= Z.of_nat (length attr) ->
  undescribed ms desc = rest /\
  exists attr' s', ib_pack desc s attr = Some attr' /\ ib_unpack desc attr' s0 = Some s' /\
    forall name ow ob sz, STRUCT_FIELD ms name ow ob sz ∈ desc ->
      reserved (STRUCT_FIELD ms name ow ob sz) = false ->
      st_get ms name s' = wrap sz (st_get ms name s) /\
      (fits sz (st_get ms name s) -> st_get ms name s' = st_get ms name s).
Proof.
  intros Hin [Hs Hm] [Hs0 Hm0] Ha Hl.
  destruct (sa_table_ok _ _ _ _ Hin) as (Ht%(table_ok_mono _ (Z.of_nat (length attr))) & _ & Hu);
    [|done]. split; [done|].
  pose proof Ht as (Hok & Hwd & _)%table_ok_inv.
  destruct (ib_pack_spec _ _ desc s attr Hok Hwd) as (attr' & Hp & Hb' & Hl' & Hcar & _); try done.
  destruct (unpack_agrees _ _ desc s attr' s0 Ht) as (s' & Hup & _ & _ & Hag); try done; [lia|].
  exists attr', s'. split_and!; [done..|]. intros name ow ob sz Hf Hr.
  rewrite (agrees_member _ _ _ _ _ _ _ _ Hag Hf Hr). split; [done|]. by apply wrap_small.
Qed.

(** Every bit below [hi] of a tiling table is in one of its entries. *)
Lemma tiles_cover desc lo hi p :
  tiles lo hi desc = true -> lo <= p < hi -> exists f, f ∈ desc /\ on_wire f p.
Proof.
  revert lo. induction desc as [|f desc IH]; intros lo Ht Hp; cbn in Ht; bool_arith; [lia|].
  destruct (Z.lt_ge_cases p (wire_hi f)) as [Hlt|Hge].
  - exists f. split; [left|unfold on_wire; lia].
  - destruct (IH (wire_hi f)) as (g & Hg & Hw); [done|lia|]. exists g. split; [by right|done].
Qed.

(** A record received and sent on is bit for bit the one received, with
    the reserved bits cleared: each of the bits of the record belongs to an
    entry of the table, and is either reserved and zero or the received one;
    the rest of the attribute buffer is untouched. *)
Theorem sa_record_forwarding ms desc bytes rest attr s0 attr0 :
  (ms, desc, bytes, rest) ∈ sa_tables ->
  struct_ok (sizeof ms) s0 -> bytes_ok attr -> bytes_ok attr0 ->
  bytes <= Z.of_nat (length attr) -> length attr0 = length attr ->
  exists s attr', ib_unpack desc attr s0 = Some s /\ ib_pack desc s attr0 = Some attr' /\
    (forall p, 0 <= p < 8 * bytes -> exists f, f ∈ desc /\ on_wire f p /\
       wbit attr' p = negb (reserved f) && wbit attr p) /\
    (forall p, 8 * bytes <= p -> wbit attr' p = wbit attr0 p).
Proof.
  intros Hin [Hs0 Hm0] Ha Ha0 Hl Hl0.
  destruct (sa_table_ok _ _ _ _ Hin) as (Ht0 & Htile & _).
  pose proof (table_ok_mono _ (Z.of_nat (length attr)) _ _ Hl Ht0) as Ht.
  destruct (tiles_bound _ _ _ Htile) as [Hpos Hb].
  { intros g Hg. apply table_ok_inv in Ht0 as (Hok & _ & _).
    pose proof (table_field _ _ _ _ Hok Hg) as (_ & _ & ? & _)%field_ok_inv. lia. }
  destruct (unpack_pack_bits _ _ desc attr s0 attr0 Ht) as (s & attr' & Hu & Hp & Hin' & Hout);
    try done; [lia|].
  exists s, attr'. split_and!; [done..| |].
  - intros p Hp'. destruct (tiles_cover desc 0 (8 * bytes) p) as (f & Hf & Hw); [done..|]. eauto.
  - intros p Hp'. apply Hout; [lia|]. intros f Hf Hw. unfold on_wire in Hw.
    specialize (Hb f Hf). lia.
Qed.

(** ** Converting path records *)

(** The split and the whole views name the same bytes. *)
Lemma path_views :
  sizeof path_ib = 88 /\ sizeof path_opa = 88 /\ sizeof sa_path_rec_ib = 88 /\
  sizeof sa_path_rec_opa = 88 /\
  Forall (fun n => member_at path_ib n = member_at path_opa n)
    ["dgid.subnet_prefix"; "dgid.interface_id"; "sgid.subnet_prefix"; "sgid.interface_id";
     "service_id"; "rec_type"].
Proof. split_and!; [reflexivity..|]. repeat constructor. Qed.

(** A member both views share can be read through either. *)
Lemma st_get_view ms ms' name s :
  member_at ms name = member_at ms' name -> st_get ms name s = st_get ms' name s.
Proof. unfold st_get. by intros ->. Qed.

Lemma st_set_view ms ms' name v s :
  member_at ms name = member_at ms' name -> st_set ms name v s = st_set ms' name v s.
Proof. unfold st_set. by intros ->. Qed.

Lemma st_get_set_view ms ms' name name' v s :
  struct_ok (sizeof ms) s -> sizeof ms' = sizeof ms ->
  member_ok ms name = true -> member_ok ms' name' = true ->
  (let '(o, n) := member_at ms name in let '(o', n') := member_at ms' name' in
   (o + n <=? o') || (o' + n' <=? o)) = true ->
  st_get ms' name' (st_set ms name v s) = st_get ms' name' s.
Proof.
  unfold member_ok. intros [Hs Hl] Hsz Hm Hm' Hd. rewrite Hsz in Hm'. unfold st_get, st_set.
  destruct (member_at ms name) as [o n], (member_at ms' name') as [o' n']. cbn [fst snd] in *.
  bool_arith. apply orb_true_iff in Hd. rewrite !Z.leb_le in Hd. by rewrite be_get_put_ne by (done || lia).
Qed.

Lemma path_ib_set_ok n v s : struct_ok 88 s -> struct_ok 88 (st_set path_ib n v s).
Proof. apply (st_set_ok path_ib). Qed.
Lemma path_opa_set_ok n v s : struct_ok 88 s -> struct_ok 88 (st_set path_opa n v s).
Proof. apply (st_set_ok path_opa). Qed.

Ltac path_side :=
  first [ reflexivity
        | match goal with |- struct_ok _ ?s => change (struct_ok 88 s) end;
          auto 20 using path_ib_set_ok, path_opa_set_ok ].
(** Read a member of either view through assignments to either. *)
Ltac path_members :=
  repeat match goal with
  | |- context [st_get path_ib ?n (st_set path_ib ?n _ _)] =>
      rewrite (st_get_set path_ib n) by path_side
  | |- context [st_get path_opa ?n (st_set path_opa ?n _ _)] =>
      rewrite (st_get_set path_opa n) by path_side
  | |- context [st_get path_opa ?n (st_set path_ib ?n ?v ?s)] =>
      rewrite (st_set_view path_ib path_opa n v s) by reflexivity
  | |- context [st_get ?v ?n (st_set ?w ?m _ _)] =>
      rewrite (st_get_set_view w v m n) by path_side
  end.

Lemma opa_id_lid x : fits 32 x -> opa_get_lid_from_gid (u64 (OPA_MAKE_ID x)) = x.
Proof.
  intros Hx. unfold opa_get_lid_from_gid, OPA_MAKE_ID. apply Z.bits_inj'. intros i Hi.
  change 0xFFFFFFFF with (Z.ones 32). rewrite Z.land_spec, ones_testbit, wrap_testbit, Z.lor_spec by lia.
  rewrite wrap_testbit, Z.shiftl_spec by lia. rewrite (proj2 (Z.leb_le 0 i)) by done. cbn [andb].
  destruct (Z.ltb_spec i 32).
  - rewrite (proj2 (Z.ltb_lt i 64)), (Z.testbit_neg_r _ (i - 40)) by lia. cbn.
    by rewrite andb_true_r.
  - by rewrite andb_false_r, (fits_testbit_high 32).
Qed.

Lemma opa_id_is_opa x : fits 32 x -> ib_is_opa_gid (u64 (OPA_MAKE_ID x)) = true.
Proof.
  intros Hx. unfold ib_is_opa_gid. apply Z.eqb_eq. apply Z.bits_inj'. intros i Hi.
  unfold OPA_MAKE_ID. rewrite Z.shiftr_spec, wrap_testbit, Z.lor_spec, wrap_testbit, Z.shiftl_spec by lia.
  rewrite (fits_testbit_high 32 x (i + 40)), orb_false_r by (done || lia).
  replace (i + 40 - 40) with i by lia. destruct (Z.ltb_spec (i + 40) 64); cbn; [done|].
  symmetry. apply (fits_testbit_high 24); [unfold fits, OPA_SPECIAL_OUI; lia|lia].
Qed.

Lemma st_get_fits ms name s :
  bytes_ok s -> member_ok ms name = true -> fits (8 * snd (member_at ms name)) (st_get ms name s) .
Proof.
  unfold member_ok, st_get. intros Hs Hm. bool_arith. destruct (member_at ms name) as [o n].
  cbn [fst snd] in *. destruct (decide (o + n <= Z.of_nat (length s))).
  - destruct (be_get_spec s o n) as (v & -> & Hv & _); done.
  - unfold be_get, mem_get. rewrite decide_False by lia. cbn. unfold fits. lia.
Qed.

Definition opa_rec_extended (r : list Z) : bool :=
  opa_is_extended_lid (st_get path_opa "opa.dlid" r) (st_get path_opa "opa.slid" r).

(** The GIDs of [r] are not OPA GIDs. *)
Definition plain_gids (r : list Z) : Prop :=
  ib_is_opa_gid (st_get path_opa "sgid.interface_id" r) = false /\
  ib_is_opa_gid (st_get path_opa "dgid.interface_id" r) = false.

Ltac path_close := lazymatch goal with |- ?x = ?x => reflexivity | _ => idtac end.

Section convert.
Variables (r d d' : list Z).
Hypothesis Hr : struct_ok 88 r.
Hypothesis Htype : st_get path_opa "rec_type" r = SA_PATH_REC_TYPE_OPA.

Lemma r_views : struct_ok (sizeof path_ib) r /\ struct_ok (sizeof path_opa) r.
Proof. done. Qed.

Lemma to_ib_plain :
  opa_rec_extended r = false ->
  sa_convert_path_opa_to_ib d r =
  st_set path_ib "ib.raw_traffic" (st_get path_opa "opa.raw_traffic" r)
    (st_set path_ib "service_id" (st_get path_opa "service_id" r)
      (st_set path_ib "ib.slid" (u16 (st_get path_opa "opa.slid" r))
        (st_set path_ib "ib.dlid" (u16 (st_get path_opa "opa.dlid" r))
          (st_set path_ib "rec_type" SA_PATH_REC_TYPE_IB r)))).
Proof.
  unfold opa_rec_extended, opa_is_extended_lid. intros He.
  unfold sa_convert_path_opa_to_ib, path_conv_opa_to_ib. by rewrite Htype, He.
Qed.

Lemma round_trip_plain :
  opa_rec_extended r = false -> plain_gids r ->
  let r' := sa_convert_path_ib_to_opa d' (sa_convert_path_opa_to_ib d r) in
  Forall (fun n => st_get path_opa n r' = st_get path_opa n r) (map (fun '(n, _, _) => n) path_opa).
Proof.
  intros He [Hs Hd] r'. destruct r_views as [Hi Ho].
  unfold opa_rec_extended, opa_is_extended_lid, IB_MULTICAST_LID_BASE in He. bool_arith.
  pose proof (st_get_fits path_opa "opa.dlid" r (proj1 Hr) eq_refl) as Hdf.
  pose proof (st_get_fits path_opa "opa.slid" r (proj1 Hr) eq_refl) as Hsf.
  unfold fits in Hdf, Hsf.
  assert (Hwd : u16 (st_get path_opa "opa.dlid" r) = st_get path_opa "opa.dlid" r)
    by (apply wrap_small; unfold fits; lia).
  assert (Hws : u16 (st_get path_opa "opa.slid" r) = st_get path_opa "opa.slid" r)
    by (apply wrap_small; unfold fits; lia).
  subst r'. rewrite to_ib_plain by (unfold opa_rec_extended, opa_is_extended_lid, IB_MULTICAST_LID_BASE; lia).
  rewrite Hwd, Hws. unfold sa_convert_path_ib_to_opa, path_conv_ib_to_opa.
  path_members.
  change (wrap (8 * (member_at path_ib "rec_type").2) SA_PATH_REC_TYPE_IB =? SA_PATH_REC_TYPE_IB)
    with true. cbn [negb].
  change (st_get path_ib "sgid.interface_id" r) with (st_get path_opa "sgid.interface_id" r).
  change (st_get path_ib "dgid.interface_id" r) with (st_get path_opa "dgid.interface_id" r).
  rewrite Hs, Hd. cbn [orb].
  change (8 * (member_at path_ib "ib.slid").2) with 16. rewrite Hws.
  change (8 * (member_at path_ib "ib.dlid").2) with 16. rewrite Hwd.
  change (8 * (member_at path_ib "ib.raw_traffic").2)
    with (8 * (member_at path_opa "opa.raw_traffic").2).
  change (member_at path_ib "service_id") with (member_at path_opa "service_id").
  rewrite (wrap_small _ (st_get path_opa "opa.raw_traffic" r))
    by (apply (st_get_fits path_opa); [apply Hr|reflexivity]).
  rewrite (wrap_small _ (st_get path_opa "service_id" r)) by (apply (st_get_fits path_opa); [apply Hr|reflexivity]).
  let names := eval vm_compute in (map (fun '(n, _, _) => n) path_opa) in
    change (map (fun '(n, _, _) => n) path_opa) with names.
  repeat (constructor; [cbv beta; path_members; path_close;
    first [by rewrite Htype | apply wrap_small, (st_get_fits path_opa); [apply Hr|reflexivity]]|]).
  constructor.
Qed.

Lemma round_trip_extended :
  opa_rec_extended r = true ->
  let r' := sa_convert_path_ib_to_opa d' (sa_convert_path_opa_to_ib d r) in
  Forall (fun n => st_get path_opa n r' = st_get path_opa n r)
    ["opa.dlid"; "opa.slid"; "opa.raw_traffic"; "service_id"; "rec_type";
     "dgid.subnet_prefix"; "sgid.subnet_prefix"].
Proof.
  intros He r'. destruct r_views as [Hi Ho].
  unfold opa_rec_extended, opa_is_extended_lid in He.
  pose proof (st_get_fits path_opa "opa.dlid" r (proj1 Hr) eq_refl) as Hdf.
  pose proof (st_get_fits path_opa "opa.slid" r (proj1 Hr) eq_refl) as Hsf.
  subst r'. unfold sa_convert_path_opa_to_ib, path_conv_opa_to_ib. rewrite Htype, He.
  change (negb (SA_PATH_REC_TYPE_OPA =? SA_PATH_REC_TYPE_OPA)) with false. cbv iota.
  unfold sa_convert_path_ib_to_opa, path_conv_ib_to_opa.
  path_members.
  change (wrap (8 * (member_at path_ib "rec_type").2) SA_PATH_REC_TYPE_IB =? SA_PATH_REC_TYPE_IB)
    with true. cbn [negb].
  change (8 * (member_at path_ib "sgid.interface_id").2) with 64.
  change (8 * (member_at path_ib "dgid.interface_id").2) with 64.
  rewrite !opa_id_is_opa, !opa_id_lid by done. cbn [orb].
  change (8 * (member_at path_ib "ib.raw_traffic").2)
    with (8 * (member_at path_opa "opa.raw_traffic").2).
  change (member_at path_ib "service_id") with (member_at path_opa "service_id").
  rewrite (wrap_small _ (st_get path_opa "opa.raw_traffic" r))
    by (apply (st_get_fits path_opa); [apply Hr|reflexivity]).
  rewrite (wrap_small _ (st_get path_opa "service_id" r))
    by (apply (st_get_fits path_opa); [apply Hr|reflexivity]).
  repeat (constructor; [cbv beta; path_members; path_close;
    first [by rewrite Htype | apply wrap_small, (st_get_fits path_opa); [apply Hr|reflexivity]]|]).
  constructor.
Qed.
End convert.

(** Converting an OPA path record to an InfiniBand one and back recovers
    it. With ordinary LIDs and GIDs every member of the record returns; with an
    extended LID, which the InfiniBand record can only carry inside OPA GIDs,
    the LIDs, raw traffic, service id, record type and GID prefixes do. *)
Theorem sa_convert_path_round_trip r d d' :
  struct_ok 88 r -> st_get path_opa "rec_type" r = SA_PATH_REC_TYPE_OPA ->
  let r' := sa_convert_path_ib_to_opa d' (sa_convert_path_opa_to_ib d r) in
  (opa_rec_extended r = true ->
     Forall (fun n => st_get path_opa n r' = st_get path_opa n r)
       ["opa.dlid"; "opa.slid"; "opa.raw_traffic"; "service_id"; "rec_type";
        "dgid.subnet_prefix"; "sgid.subnet_prefix"]) /\
  (opa_rec_extended r = false -> plain_gids r ->
     Forall (fun n => st_get path_opa n r' = st_get path_opa n r)
       (map (fun '(n, _, _) => n) path_opa)).
Proof.
  intros Hr Ht. split; intros; [by apply round_trip_extended|by apply round_trip_plain].
Qed.

(** ** Witnesses *)

(** An OPA path record with the extended source LID 0x123456. *)
Definition opa_example : list Z :=
  st_set path_opa "opa.slid" 0x123456 (st_set path_opa "opa.dlid" 5
    (st_set path_opa "dgid.interface_id" 7 (st_set path_opa "rec_type" 3 (zeroes 88)))).

Lemma sa_convert_path_round_trip_witness :
  st_get path_opa "opa.slid"
    (sa_convert_path_ib_to_opa (zeroes 88) (sa_convert_path_opa_to_ib (zeroes 88) opa_example))
  = 0x123456.
Proof.
  assert (Hok : struct_ok 88 opa_example) by (apply struct_okb; vm_compute; reflexivity).
  destruct (sa_convert_path_round_trip opa_example (zeroes 88) (zeroes 88) Hok eq_refl) as [He _].
  specialize (He eq_refl). inversion_clear He as [|? ? _ He']. inversion_clear He' as [|? ? Hs _].
  exact Hs.
Defined.

Lemma sa_record_round_trip_witness :
  exists attr' s', ib_sa_pack_path opa_example (replicate 200 255) = Some attr' /\
    ib_sa_unpack_path attr' (zeroes 88) = Some s'.
Proof.
  destruct (sa_record_round_trip sa_path_rec_ib path_rec_table 64
    ["ib.(pad)"; "rec_type"; "flags"] opa_example (replicate 200 255) (zeroes 88))
    as (_ & attr' & s' & Hp & Hu & _).
  - apply list_elem_of_here.
  - apply struct_okb; vm_compute; reflexivity.
  - apply struct_okb; vm_compute; reflexivity.
  - apply Forall_replicate. eval_conj.
  - vm_compute. congruence.
  - exists attr', s'. split; [exact Hp|exact Hu].
Defined.

Lemma sa_record_forwarding_witness :
  exists s attr', ib_unpack guidinfo_rec_table (replicate 72 165) (zeroes 72) = Some s /\
    ib_pack guidinfo_rec_table s (zeroes 72) = Some attr'.
Proof.
  destruct (sa_record_forwarding ib_sa_guidinfo_rec guidinfo_rec_table 72 []
    (replicate 72 165) (zeroes 72) (zeroes 72)) as (s & attr' & Hu & Hp & _).
  - do 5 apply list_elem_of_further. apply list_elem_of_here.
  - apply struct_okb; vm_compute; reflexivity.
  - apply Forall_replicate. eval_conj.
  - apply Forall_replicate. eval_conj.
  - vm_compute. congruence.
  - reflexivity.
  - exists s, attr'. split; [exact Hu|exact Hp].
Defined.
