(* ===== verification/VerbsAttr.v ===== *)
(** Attributes of ports, packets and completions: the pure part of
    drivers/infiniband/core/verbs.c (event and status messages, rate
    conversions, link width and speed, classification of the network header,
    multicast LIDs).

    What the functions obtain elsewhere is a parameter: the IP checksum routine,
    the driver's QP query, and the link layer of the ports. *)

From S2P Require Import Prelude Packer QpState.
Open Scope Z_scope.

(** ** Enumerations *)

Definition IB_EVENT_CQ_ERR : Z := 0.
Definition IB_EVENT_QP_FATAL : Z := 1.
Definition IB_EVENT_QP_REQ_ERR : Z := 2.
Definition IB_EVENT_QP_ACCESS_ERR : Z := 3.
Definition IB_EVENT_COMM_EST : Z := 4.
Definition IB_EVENT_SQ_DRAINED : Z := 5.
Definition IB_EVENT_PATH_MIG : Z := 6.
Definition IB_EVENT_PATH_MIG_ERR : Z := 7.
Definition IB_EVENT_DEVICE_FATAL : Z := 8.
Definition IB_EVENT_PORT_ACTIVE : Z := 9.
Definition IB_EVENT_PORT_ERR : Z := 10.
Definition IB_EVENT_LID_CHANGE : Z := 11.
Definition IB_EVENT_PKEY_CHANGE : Z := 12.
Definition IB_EVENT_SM_CHANGE : Z := 13.
Definition IB_EVENT_SRQ_ERR : Z := 14.
Definition IB_EVENT_SRQ_LIMIT_REACHED : Z := 15.
Definition IB_EVENT_QP_LAST_WQE_REACHED : Z := 16.
Definition IB_EVENT_CLIENT_REREGISTER : Z := 17.
Definition IB_EVENT_GID_CHANGE : Z := 18.
Definition IB_EVENT_WQ_FATAL : Z := 19.
Definition IB_EXP_EVENT_XRQ_QP_ERR : Z := 20.
Definition IB_EVENT_XRQ_NVMF_BACKEND_CTRL_PCI_ERR : Z := 21.
Definition IB_EVENT_XRQ_NVMF_BACKEND_CTRL_TO_ERR : Z := 22.

Definition IB_WC_SUCCESS : Z := 0.
Definition IB_WC_LOC_LEN_ERR : Z := 1.
Definition IB_WC_LOC_QP_OP_ERR : Z := 2.
Definition IB_WC_LOC_EEC_OP_ERR : Z := 3.
Definition IB_WC_LOC_PROT_ERR : Z := 4.
Definition IB_WC_WR_FLUSH_ERR : Z := 5.
Definition IB_WC_MW_BIND_ERR : Z := 6.
Definition IB_WC_BAD_RESP_ERR : Z := 7.
Definition IB_WC_LOC_ACCESS_ERR : Z := 8.
Definition IB_WC_REM_INV_REQ_ERR : Z := 9.
Definition IB_WC_REM_ACCESS_ERR : Z := 10.
Definition IB_WC_REM_OP_ERR : Z := 11.
Definition IB_WC_RETRY_EXC_ERR : Z := 12.
Definition IB_WC_RNR_RETRY_EXC_ERR : Z := 13.
Definition IB_WC_LOC_RDD_VIOL_ERR : Z := 14.
Definition IB_WC_REM_INV_RD_REQ_ERR : Z := 15.
Definition IB_WC_REM_ABORT_ERR : Z := 16.
Definition IB_WC_INV_EECN_ERR : Z := 17.
Definition IB_WC_INV_EEC_STATE_ERR : Z := 18.
Definition IB_WC_FATAL_ERR : Z := 19.
Definition IB_WC_RESP_TIMEOUT_ERR : Z := 20.
Definition IB_WC_GENERAL_ERR : Z := 21.
Definition IB_WC_SIG_PIPELINE_CANCELED : Z := 22.

Definition IB_RATE_PORT_CURRENT : Z := 0.
Definition IB_RATE_2_5_GBPS : Z := 2.
Definition IB_RATE_5_GBPS : Z := 5.
Definition IB_RATE_10_GBPS : Z := 3.
Definition IB_RATE_20_GBPS : Z := 6.
Definition IB_RATE_30_GBPS : Z := 4.
Definition IB_RATE_40_GBPS : Z := 7.
Definition IB_RATE_60_GBPS : Z := 8.
Definition IB_RATE_80_GBPS : Z := 9.
Definition IB_RATE_120_GBPS : Z := 10.
Definition IB_RATE_14_GBPS : Z := 11.
Definition IB_RATE_56_GBPS : Z := 12.
Definition IB_RATE_112_GBPS : Z := 13.
Definition IB_RATE_168_GBPS : Z := 14.
Definition IB_RATE_25_GBPS : Z := 15.
Definition IB_RATE_100_GBPS : Z := 16.
Definition IB_RATE_200_GBPS : Z := 17.
Definition IB_RATE_300_GBPS : Z := 18.
Definition IB_RATE_28_GBPS : Z := 19.
Definition IB_RATE_50_GBPS : Z := 20.
Definition IB_RATE_400_GBPS : Z := 21.
Definition IB_RATE_600_GBPS : Z := 22.
Definition IB_RATE_800_GBPS : Z := 23.


Definition RDMA_NODE_IB_CA : Z := 1.
Definition RDMA_NODE_IB_SWITCH : Z := 2.
Definition RDMA_NODE_IB_ROUTER : Z := 3.
Definition RDMA_NODE_RNIC : Z := 4.
Definition RDMA_NODE_USNIC : Z := 5.
Definition RDMA_NODE_USNIC_UDP : Z := 6.
Definition RDMA_NODE_UNSPECIFIED : Z := 7.

Inductive rdma_transport_type :=
  RDMA_TRANSPORT_IB | RDMA_TRANSPORT_IWARP | RDMA_TRANSPORT_USNIC | RDMA_TRANSPORT_USNIC_UDP
  | RDMA_TRANSPORT_UNSPECIFIED.

Inductive rdma_link_layer :=
  IB_LINK_LAYER_UNSPECIFIED | IB_LINK_LAYER_INFINIBAND | IB_LINK_LAYER_ETHERNET.

#[export] Instance rdma_link_layer_eq : EqDecision rdma_link_layer.
Proof. solve_decision. Defined.

Inductive rdma_network_type :=
  RDMA_NETWORK_IB | RDMA_NETWORK_ROCE_V1 | RDMA_NETWORK_IPV4 | RDMA_NETWORK_IPV6.

Definition IB_WIDTH_1X : Z := 1.
Definition IB_WIDTH_2X : Z := 16.
Definition IB_WIDTH_4X : Z := 2.
Definition IB_WIDTH_8X : Z := 4.
Definition IB_WIDTH_12X : Z := 8.

Definition IB_SPEED_SDR : Z := 1.
Definition IB_SPEED_DDR : Z := 2.
Definition IB_SPEED_QDR : Z := 4.
Definition IB_SPEED_FDR10 : Z := 8.
Definition IB_SPEED_FDR : Z := 16.
Definition IB_SPEED_EDR : Z := 32.
Definition IB_SPEED_HDR : Z := 64.
Definition IB_SPEED_NDR : Z := 128.
Definition IB_SPEED_XDR : Z := 256.

(** ** Tables of the source

    A [switch] that returns a constant per case, and an array of messages, are
    given by their cases in the order of the source. *)

Definition rate_mult : list (Z * Z) :=
  [(IB_RATE_2_5_GBPS, 1); (IB_RATE_5_GBPS, 2); (IB_RATE_10_GBPS, 4); (IB_RATE_20_GBPS, 8);
   (IB_RATE_30_GBPS, 12); (IB_RATE_40_GBPS, 16); (IB_RATE_60_GBPS, 24);
   (IB_RATE_80_GBPS, 32); (IB_RATE_120_GBPS, 48); (IB_RATE_14_GBPS, 6);
   (IB_RATE_56_GBPS, 22); (IB_RATE_112_GBPS, 45); (IB_RATE_168_GBPS, 67);
   (IB_RATE_25_GBPS, 10); (IB_RATE_100_GBPS, 40); (IB_RATE_200_GBPS, 80);
   (IB_RATE_300_GBPS, 120); (IB_RATE_28_GBPS, 11); (IB_RATE_50_GBPS, 20);
   (IB_RATE_400_GBPS, 160); (IB_RATE_600_GBPS, 240); (IB_RATE_800_GBPS, 320)].

Definition mult_rate : list (Z * Z) :=
  [(1, IB_RATE_2_5_GBPS); (2, IB_RATE_5_GBPS); (4, IB_RATE_10_GBPS); (8, IB_RATE_20_GBPS);
   (12, IB_RATE_30_GBPS); (16, IB_RATE_40_GBPS); (24, IB_RATE_60_GBPS);
   (32, IB_RATE_80_GBPS); (48, IB_RATE_120_GBPS); (6, IB_RATE_14_GBPS);
   (22, IB_RATE_56_GBPS); (45, IB_RATE_112_GBPS); (67, IB_RATE_168_GBPS);
   (10, IB_RATE_25_GBPS); (40, IB_RATE_100_GBPS); (80, IB_RATE_200_GBPS);
   (120, IB_RATE_300_GBPS); (11, IB_RATE_28_GBPS); (20, IB_RATE_50_GBPS);
   (160, IB_RATE_400_GBPS); (240, IB_RATE_600_GBPS); (320, IB_RATE_800_GBPS)].

Definition rate_mbps : list (Z * Z) :=
  [(IB_RATE_2_5_GBPS, 2500); (IB_RATE_5_GBPS, 5000); (IB_RATE_10_GBPS, 10000);
   (IB_RATE_20_GBPS, 20000); (IB_RATE_30_GBPS, 30000); (IB_RATE_40_GBPS, 40000);
   (IB_RATE_60_GBPS, 60000); (IB_RATE_80_GBPS, 80000); (IB_RATE_120_GBPS, 120000);
   (IB_RATE_14_GBPS, 14062); (IB_RATE_56_GBPS, 56250); (IB_RATE_112_GBPS, 112500);
   (IB_RATE_168_GBPS, 168750); (IB_RATE_25_GBPS, 25781); (IB_RATE_100_GBPS, 103125);
   (IB_RATE_200_GBPS, 206250); (IB_RATE_300_GBPS, 309375); (IB_RATE_28_GBPS, 28125);
   (IB_RATE_50_GBPS, 53125); (IB_RATE_400_GBPS, 425000); (IB_RATE_600_GBPS, 637500);
   (IB_RATE_800_GBPS, 850000)].

Definition ib_events : list (Z * string) :=
  [(IB_EVENT_CQ_ERR, "CQ error"); (IB_EVENT_QP_FATAL, "QP fatal error");
   (IB_EVENT_QP_REQ_ERR, "QP request error"); (IB_EVENT_QP_ACCESS_ERR, "QP access error");
   (IB_EVENT_COMM_EST, "communication established");
   (IB_EVENT_SQ_DRAINED, "send queue drained");
   (IB_EVENT_PATH_MIG, "path migration successful");
   (IB_EVENT_PATH_MIG_ERR, "path migration error");
   (IB_EVENT_DEVICE_FATAL, "device fatal error"); (IB_EVENT_PORT_ACTIVE, "port active");
   (IB_EVENT_PORT_ERR, "port error"); (IB_EVENT_LID_CHANGE, "LID change");
   (IB_EVENT_PKEY_CHANGE, "P_key change"); (IB_EVENT_SM_CHANGE, "SM change");
   (IB_EVENT_SRQ_ERR, "SRQ error"); (IB_EVENT_SRQ_LIMIT_REACHED, "SRQ limit reached");
   (IB_EVENT_QP_LAST_WQE_REACHED, "last WQE reached");
   (IB_EVENT_CLIENT_REREGISTER, "client reregister"); (IB_EVENT_GID_CHANGE, "GID changed");
   (IB_EXP_EVENT_XRQ_QP_ERR, "XRQ QP error");
   (IB_EVENT_XRQ_NVMF_BACKEND_CTRL_PCI_ERR, "XRQ NVMF backend ctrl PCI error");
   (IB_EVENT_XRQ_NVMF_BACKEND_CTRL_TO_ERR, "XRQ NVMF backend ctrl timeout error")].

Definition wc_statuses : list (Z * string) :=
  [(IB_WC_SUCCESS, "success"); (IB_WC_LOC_LEN_ERR, "local length error");
   (IB_WC_LOC_QP_OP_ERR, "local QP operation error");
   (IB_WC_LOC_EEC_OP_ERR, "local EE context operation error");
   (IB_WC_LOC_PROT_ERR, "local protection error"); (IB_WC_WR_FLUSH_ERR, "WR flushed");
   (IB_WC_MW_BIND_ERR, "memory bind operation error");
   (IB_WC_BAD_RESP_ERR, "bad response error"); (IB_WC_LOC_ACCESS_ERR, "local access error");
   (IB_WC_REM_INV_REQ_ERR, "remote invalid request error");
   (IB_WC_REM_ACCESS_ERR, "remote access error");
   (IB_WC_REM_OP_ERR, "remote operation error");
   (IB_WC_RETRY_EXC_ERR, "transport retry counter exceeded");
   (IB_WC_RNR_RETRY_EXC_ERR, "RNR retry counter exceeded");
   (IB_WC_LOC_RDD_VIOL_ERR, "local RDD violation error");
   (IB_WC_REM_INV_RD_REQ_ERR, "remote invalid RD request");
   (IB_WC_REM_ABORT_ERR, "operation aborted");
   (IB_WC_INV_EECN_ERR, "invalid EE context number");
   (IB_WC_INV_EEC_STATE_ERR, "invalid EE context state"); (IB_WC_FATAL_ERR, "fatal error");
   (IB_WC_RESP_TIMEOUT_ERR, "response timeout error"); (IB_WC_GENERAL_ERR, "general error");
   (IB_WC_SIG_PIPELINE_CANCELED, "pipelined WR canceled")].

Definition case_of {A} (table : list (Z * A)) (dflt : A) (x : Z) : A :=
  default dflt (snd <$> find (fun '(k, _) => k =? x) table).

(** [ARRAY_SIZE] of an array given by designated initialisers. *)
Definition array_size (table : list (Z * string)) : Z :=
  1 + fold_right (fun '(k, _) m => Z.max k m) (-1) table.

(** The two message functions: [None] would be an access outside the array. *)
Definition message (table : list (Z * string)) (dflt : string) (x : Z) : option string :=
  let index := u64 x in
  if index <? array_size table then
    entry ← (if (0 <=? index) && (index <? array_size table)
             then Some (snd <$> find (fun '(k, _) => k =? index) table) else None);
    Some (default dflt entry)
  else Some dflt.

Definition ib_event_msg (event : Z) : option string := message ib_events "unrecognized event" event.
Definition ib_wc_status_msg (status : Z) : option string :=
  message wc_statuses "unrecognized status" status.

Definition ib_rate_to_mult (rate : Z) : Z := case_of rate_mult (-1) rate.
Definition mult_to_ib_rate (mult : Z) : Z := case_of mult_rate IB_RATE_PORT_CURRENT mult.
Definition ib_rate_to_mbps (rate : Z) : Z := case_of rate_mbps (-1) rate.

(** ** Node type and link layer *)

Definition rdma_node_get_transport (node_type : Z) : rdma_transport_type :=
  if node_type =? RDMA_NODE_USNIC then RDMA_TRANSPORT_USNIC else
  if node_type =? RDMA_NODE_USNIC_UDP then RDMA_TRANSPORT_USNIC_UDP else
  if node_type =? RDMA_NODE_RNIC then RDMA_TRANSPORT_IWARP else
  if node_type =? RDMA_NODE_UNSPECIFIED then RDMA_TRANSPORT_UNSPECIFIED else
  RDMA_TRANSPORT_IB.

(** A device: its node type, the number of its ports, whether it is a switch,
    and the driver's [get_link_layer], absent from some drivers. *)
Record port_device := mk_port_device {
  node_type : Z;
  device_is_switch : bool;
  device_phys_ports : Z;
  get_link_layer : option (Z -> rdma_link_layer)
}.

Definition rdma_port_get_link_layer (device : port_device) (port_num : Z) : rdma_link_layer :=
  match device.(get_link_layer) with
  | Some f => f port_num
  | None =>
      match rdma_node_get_transport device.(node_type) with
      | RDMA_TRANSPORT_IB => IB_LINK_LAYER_INFINIBAND
      | _ => IB_LINK_LAYER_ETHERNET
      end
  end.

(** ** Link width and speed *)

Definition ib_width_enum_to_int (width : Z) : Z :=
  if width =? IB_WIDTH_1X then 1 else if width =? IB_WIDTH_2X then 2 else
  if width =? IB_WIDTH_4X then 4 else if width =? IB_WIDTH_8X then 8 else
  if width =? IB_WIDTH_12X then 12 else -1.

(** Width and speed. *)
Definition ib_get_width_and_speed (netdev_speed lanes : Z) : Z * Z :=
  if lanes =? 0 then
    if netdev_speed <=? 1000 then (IB_WIDTH_1X, IB_SPEED_SDR) else
    if netdev_speed <=? 10000 then (IB_WIDTH_1X, IB_SPEED_FDR10) else
    if netdev_speed <=? 20000 then (IB_WIDTH_4X, IB_SPEED_DDR) else
    if netdev_speed <=? 25000 then (IB_WIDTH_1X, IB_SPEED_EDR) else
    if netdev_speed <=? 40000 then (IB_WIDTH_4X, IB_SPEED_FDR10) else
    if netdev_speed <=? 50000 then (IB_WIDTH_2X, IB_SPEED_EDR) else
    if netdev_speed <=? 100000 then (IB_WIDTH_4X, IB_SPEED_EDR) else
    if netdev_speed <=? 200000 then (IB_WIDTH_4X, IB_SPEED_HDR) else
    (IB_WIDTH_4X, IB_SPEED_NDR)
  else
    let width :=
      if lanes =? 1 then IB_WIDTH_1X else if lanes =? 2 then IB_WIDTH_2X else
      if lanes =? 4 then IB_WIDTH_4X else if lanes =? 8 then IB_WIDTH_8X else
      if lanes =? 12 then IB_WIDTH_12X else IB_WIDTH_1X in
    let per_lane := netdev_speed / lanes in
    let speed :=
      if per_lane =? 2500 then IB_SPEED_SDR else if per_lane =? 5000 then IB_SPEED_DDR else
      if per_lane =? 10000 then IB_SPEED_FDR10 else if per_lane =? 14000 then IB_SPEED_FDR else
      if per_lane =? 25000 then IB_SPEED_EDR else if per_lane =? 50000 then IB_SPEED_HDR else
      if per_lane =? 100000 then IB_SPEED_NDR else IB_SPEED_SDR in
    (width, speed).

Definition SPEED_UNKNOWN : Z := -1.

(** [netdev]: the answer of [__ethtool_get_link_ksettings] for the port's net
    device: return code, speed, lanes. [None]: the port has no net device. *)
Definition ib_get_eth_speed (device : port_device) (port_num : Z) (netdev : option (Z * Z * Z))
    : Z + (Z * Z) :=
  if negb (bool_decide (rdma_port_get_link_layer device port_num = IB_LINK_LAYER_ETHERNET))
  then inl (- EINVAL) else
  match netdev with
  | None => inl (- ENODEV)
  | Some (rc, speed, lanes) =>
      let netdev_speed :=
        if negb (c_true rc) && negb (speed =? u32 SPEED_UNKNOWN) then speed else 1000 in
      inr (ib_get_width_and_speed netdev_speed lanes)
  end.

(** ** The network header of a received packet

    [hdr] is the 40-byte [union rdma_network_hdr]: a GRH (an IPv6 header), or 20
    reserved bytes followed by an IPv4 header. *)

Definition IPPROTO_UDP : Z := 17.

Definition byte_at (hdr : list Z) (i : nat) : Z := default 0 (hdr !! i).
Definition ip6h_version (hdr : list Z) : Z := Z.shiftr (byte_at hdr 0) 4.
Definition ip4h_version (hdr : list Z) : Z := Z.shiftr (byte_at hdr 20) 4.
Definition ip4h_ihl (hdr : list Z) : Z := Z.land (byte_at hdr 20) 15.
Definition roce4grh (hdr : list Z) : list Z := drop 20 hdr.
Definition ip4h_check (hdr : list Z) : list Z := take 2 (drop 10 (roce4grh hdr)).
Definition grh_next_hdr (hdr : list Z) : Z := byte_at hdr 6.
Definition grh_sgid (hdr : list Z) : list Z := take 16 (drop 8 hdr).
Definition grh_dgid (hdr : list Z) : list Z := take 16 (drop 24 hdr).
Definition ip4_saddr (hdr : list Z) : list Z := take 4 (drop 12 (roce4grh hdr)).
Definition ip4_daddr (hdr : list Z) : list Z := take 4 (drop 16 (roce4grh hdr)).

Section network_header.
(** The kernel's checksum of an IP header of [n] words, as the two bytes stored
  in its checksum field, and the construction of an IPv4-mapped address. *)
Variable ip_fast_csum : list Z -> Z -> list Z.
Variable ipv6_addr_set_v4mapped : list Z -> list Z.

Definition ib_get_rdma_header_version (hdr : list Z) : Z :=
if negb (ip6h_version hdr =? 6) then (if ip4h_version hdr =? 4 then 4 else 0) else
if negb (ip4h_ihl hdr =? 5) then 6 else
let ip4h_checked := list_inserts 10 [0; 0] (roce4grh hdr) in
if bool_decide (ip4h_check hdr = ip_fast_csum ip4h_checked 5) then 4 else 6.

Definition ib_get_net_type_by_grh (protocol_ib : bool) (grh : list Z) : rdma_network_type :=
if protocol_ib then RDMA_NETWORK_IB else
let grh_version := ib_get_rdma_header_version grh in
if grh_version =? 4 then RDMA_NETWORK_IPV4 else
if grh_next_hdr grh =? IPPROTO_UDP then RDMA_NETWORK_IPV6 else RDMA_NETWORK_ROCE_V1.

(** Destination and source GIDs. [have_sgid], [have_dgid]: the pointers are not
  null. *)
Definition ib_get_gids_from_rdma_hdr (hdr : list Z) (net_type : rdma_network_type)
  (have_sgid have_dgid : bool) : Z * option (list Z * list Z) :=
if negb have_sgid || negb have_dgid then (- EINVAL, None) else
match net_type with
| RDMA_NETWORK_IPV4 =>
    (0, Some (ipv6_addr_set_v4mapped (ip4_daddr hdr), ipv6_addr_set_v4mapped (ip4_saddr hdr)))
| _ =>
    (* the third operand of the source's test is the constant
       RDMA_NETWORK_ROCE_V1 = 1, which is true for every type *)
    if match net_type with RDMA_NETWORK_IPV6 | RDMA_NETWORK_IB => true | _ => false end
       || c_true 1
    then (0, Some (grh_dgid hdr, grh_sgid hdr)) else (- EINVAL, None)
end.
End network_header.

(** ** Multicast LIDs *)

Definition IB_MULTICAST_LID_BASE : Z := 0xC000.
Definition IB_LID_PERMISSIVE : Z := 0xFFFF.

Definition state_index (s : ib_qp_state) : Z :=
  match s with
  | IB_QPS_RESET => 0 | IB_QPS_INIT => 1 | IB_QPS_RTR => 2 | IB_QPS_RTS => 3
  | IB_QPS_SQD => 4 | IB_QPS_SQE => 5 | IB_QPS_ERR => 6
  end.

Definition rdma_start_port (device : port_device) : Z := if device.(device_is_switch) then 0 else 1.
Definition rdma_end_port (device : port_device) : Z :=
  if device.(device_is_switch) then 0 else device.(device_phys_ports).

(** [rdma_for_each_port] *)
Definition device_ports (device : port_device) : list Z :=
  seqZ (rdma_start_port device) (rdma_end_port device - rdma_start_port device + 1).

Definition is_ib_port (device : port_device) (port : Z) : bool :=
  bool_decide (rdma_port_get_link_layer device port = IB_LINK_LAYER_INFINIBAND).

(** [query]: the answer of [ib_query_qp] about state and port, [None] when it
    fails. *)
Definition is_valid_mcast_lid (device : port_device) (query : option (ib_qp_state * Z)) (lid : Z)
    : bool :=
  let lid_check := negb ((lid <? IB_MULTICAST_LID_BASE) || (lid =? IB_LID_PERMISSIVE)) in
  let by_ports :=
    let num_eth_ports :=
      fold_left (fun n port => if negb (is_ib_port device port) then n + 1 else n)
        (device_ports device) 0 in
    if c_true num_eth_ports then true else lid_check in
  match query with
  | Some (state, port) =>
      if state_index IB_QPS_INIT <=? state_index state then
        if negb (is_ib_port device port) then true else lid_check
      else by_ports
  | None => by_ports
  end.

(** ** Tables *)

Lemma case_of_miss {A} (table : list (Z * A)) dflt x :
  Forall (fun '(k, _) => k <> x) table -> case_of table dflt x = dflt.
Proof.
  unfold case_of. induction 1 as [|[k v] table Hk _ IH]; [done|]. cbn.
  by rewrite (proj2 (Z.eqb_neq k x)).
Qed.

Lemma case_of_hit {A} (table : list (Z * A)) dflt k v :
  NoDup table.*1 -> (k, v) ∈ table -> case_of table dflt k = v.
Proof.
  unfold case_of. induction table as [|[k' v'] table IH]; [by intros _ ?%elem_of_nil|].
  intros [Hn Hnd]%NoDup_cons Hin. cbn. destruct (Z.eqb_spec k' k) as [->|Hk].
  - apply elem_of_cons in Hin as [[= ->]|Hin]; [done|].
    destruct Hn. apply list_elem_of_fmap. by exists (k, v).
  - apply elem_of_cons in Hin as [[= -> ->]|Hin]; [done|by apply IH].
Qed.

(** A table lookup answers an entry or the default. *)
Lemma case_of_cases {A} (table : list (Z * A)) dflt x :
  (exists v, (x, v) ∈ table /\ case_of table dflt x = v) \/
  (x ∉ table.*1 /\ case_of table dflt x = dflt).
Proof.
  unfold case_of. induction table as [|[k v] table IH]; [right; split; [apply not_elem_of_nil|done]|].
  cbn. destruct (Z.eqb_spec k x) as [->|Hk].
  - left. exists v. split; [left|done].
  - destruct IH as [(w & Hin & ->)|[Hn ->]]; [left; exists w; split; [by right|done]|].
    right. split; [|done]. rewrite not_elem_of_cons. split; [congruence|done].
Qed.

Definition known_rates : list Z := rate_mult.*1.

(** The three rate conversions agree. Every defined rate converts to a
    multiple and back to itself, and every multiple either stands for a rate
    that converts back to it or is reported as the port's current rate;
    ordering rates by multiple and by Mbit/s is the same; undefined rates give
    -1 both ways. *)
Theorem rate_conversions :
  Forall (fun r => mult_to_ib_rate (ib_rate_to_mult r) = r /\ 0 < ib_rate_to_mbps r) known_rates /\
  (forall m, mult_to_ib_rate m = IB_RATE_PORT_CURRENT \/
             ib_rate_to_mult (mult_to_ib_rate m) = m) /\
  Forall (fun r1 => Forall (fun r2 =>
    (ib_rate_to_mult r1 <? ib_rate_to_mult r2) = (ib_rate_to_mbps r1 <? ib_rate_to_mbps r2))
    known_rates) known_rates /\
  (forall r, r ∉ known_rates -> ib_rate_to_mult r = -1 /\ ib_rate_to_mbps r = -1).
Proof.
  split_and!.
  - apply (bool_decide_unpack _). vm_compute. exact I.
  - intros m. destruct (case_of_cases mult_rate IB_RATE_PORT_CURRENT m) as [(v & Hin & Hv)|[_ Hv]];
      [right|by left]. unfold mult_to_ib_rate, ib_rate_to_mult. rewrite Hv.
    apply case_of_hit; [apply (bool_decide_unpack _); vm_compute; exact I|].
    revert Hin. rewrite !list_elem_of_In. vm_compute. intuition congruence.
  - apply (bool_decide_unpack _). vm_compute. exact I.
  - intros r Hr. split; apply case_of_miss; apply Forall_forall; intros [k v] Hin ->; apply Hr.
    + unfold known_rates. apply list_elem_of_fmap. exists (r, v). by split.
    + change known_rates with rate_mbps.*1. apply list_elem_of_fmap. exists (r, v).
      by split.
Qed.

(** The message functions are total, for any value of the argument: they
    never read outside their array, answer the message of the source for every
    code it names, and the fallback for every other code. *)
Theorem messages_total (x : Z) :
  (exists m, ib_event_msg x = Some m /\ ((u64 x, m) ∈ ib_events \/
     (u64 x ∉ ib_events.*1 /\ m = "unrecognized event"))) /\
  (exists m, ib_wc_status_msg x = Some m /\ ((u64 x, m) ∈ wc_statuses \/
     (u64 x ∉ wc_statuses.*1 /\ m = "unrecognized status"))).
Proof.
  assert (Hm : forall table dflt,
    Forall (fun k => k < array_size table) table.*1 ->
    exists m, message table dflt x = Some m /\
      ((u64 x, m) ∈ table \/ (u64 x ∉ table.*1 /\ m = dflt))).
  { intros table dflt Hk. unfold message. cbv zeta.
    pose proof (wrap_fits 64 x ltac:(lia)) as [Hpos _].
    destruct (Z.ltb_spec (u64 x) (array_size table)) as [Hlt|Hge].
    - rewrite (proj2 (Z.leb_le _ _) Hpos). cbn [andb mbind option_bind].
      eexists. split; [reflexivity|]. fold (case_of table dflt (u64 x)).
      destruct (case_of_cases table dflt (u64 x)) as [(v & Hin & ->)|[Hn ->]]; [by left|by right].
    - exists dflt. split; [done|]. right. split; [|done]. intros Hin.
      rewrite Forall_forall in Hk. apply Hk in Hin. lia. }
  split; apply Hm; apply (bool_decide_unpack _); vm_compute; exact I.
Qed.

(** ** Link width and speed *)

(** Nominal Mbit/s of a speed per lane. *)
Definition lane_rates : list (Z * Z) :=
  [(IB_SPEED_SDR, 2500); (IB_SPEED_DDR, 5000); (IB_SPEED_FDR10, 10000); (IB_SPEED_FDR, 14000);
   (IB_SPEED_EDR, 25000); (IB_SPEED_HDR, 50000); (IB_SPEED_NDR, 100000)].

Definition link_rate (ws : Z * Z) : Z :=
  ib_width_enum_to_int ws.1 * case_of lane_rates 0 ws.2.

(** Case analysis on the speed, the rates evaluated. *)
Ltac by_speed :=
  unfold ib_get_width_and_speed; cbn [Z.eqb]; repeat case_test; bool_arith;
  repeat match goal with |- context [link_rate (?w, ?s)] =>
    let v := eval vm_compute in (link_rate (w, s)) in change (link_rate (w, s)) with v end;
  lia.

(** The InfiniBand width and speed reported for an Ethernet link have the
    right rate. When ethtool gives the lane count, it is exactly the link's
    speed for every supported width and lane speed; when it does not, it covers
    the speed of any link up to 400 Gbit/s and never drops as the speed grows. *)
Theorem width_and_speed_rate :
  (forall lanes s, lanes ∈ [1; 2; 4; 8; 12] -> s ∈ lane_rates.*2 ->
     link_rate (ib_get_width_and_speed (lanes * s) lanes) = lanes * s) /\
  (forall s, 0 <= s <= 400000 -> s <= link_rate (ib_get_width_and_speed s 0)) /\
  (forall s1 s2, s1 <= s2 ->
     link_rate (ib_get_width_and_speed s1 0) <= link_rate (ib_get_width_and_speed s2 0)).
Proof.
  split_and!.
  - assert (H : Forall (fun lanes => Forall (fun s =>
      link_rate (ib_get_width_and_speed (lanes * s) lanes) = lanes * s) lane_rates.*2)
      [1; 2; 4; 8; 12]) by (apply (bool_decide_unpack _); vm_compute; exact I).
    intros lanes s Hl Hs. rewrite Forall_forall in H. specialize (H lanes Hl).
    rewrite Forall_forall in H. by apply H.
  - intros s Hs. by_speed.
  - intros s1 s2 Hle. by_speed.
Qed.

(** ** The network header *)

Section network_header_spec.
Variable ip_fast_csum : list Z -> Z -> list Z.
Variable ipv6_addr_set_v4mapped : list Z -> list Z.

(** The last 20 bytes are an IPv4 header without options whose checksum is right. *)
Definition ipv4_header_ok (hdr : list Z) : Prop :=
ip4h_version hdr = 4 /\ ip4h_ihl hdr = 5 /\
ip4h_check hdr = ip_fast_csum (list_inserts 10 [0; 0] (roce4grh hdr)) 5.

(** A received RoCE v2 packet over IPv4 is recognised by its IPv4 header
  whatever the first 20 bytes hold, and its GIDs are the IPv4-mapped
  addresses of that header; a packet whose GRH has version 6 and whose last
  bytes are not such a header is IPv6 or RoCE v1 by its next header, with the
  GIDs of the GRH. *)
Theorem network_header_gids hdr :
(ipv4_header_ok hdr ->
   let t := ib_get_net_type_by_grh ip_fast_csum false hdr in
   t = RDMA_NETWORK_IPV4 /\
   ib_get_gids_from_rdma_hdr ipv6_addr_set_v4mapped hdr t true true =
     (0, Some (ipv6_addr_set_v4mapped (ip4_daddr hdr), ipv6_addr_set_v4mapped (ip4_saddr hdr)))) /\
(ip6h_version hdr = 6 ->
 (ip4h_ihl hdr <> 5 \/
  ip4h_check hdr <> ip_fast_csum (list_inserts 10 [0; 0] (roce4grh hdr)) 5) ->
   let t := ib_get_net_type_by_grh ip_fast_csum false hdr in
   t = (if grh_next_hdr hdr =? IPPROTO_UDP then RDMA_NETWORK_IPV6 else RDMA_NETWORK_ROCE_V1) /\
   ib_get_gids_from_rdma_hdr ipv6_addr_set_v4mapped hdr t true true =
     (0, Some (grh_dgid hdr, grh_sgid hdr))).
Proof.
unfold ib_get_net_type_by_grh, ib_get_rdma_header_version. split.
- intros (Hv & Hl & Hc). rewrite Hv, Hl, <- Hc, bool_decide_true by done.
  destruct (ip6h_version hdr =? 6); by cbn.
- intros Hv6 Hn. rewrite Hv6. cbn [Z.eqb Pos.eqb negb].
  assert (Hver : (if negb (ip4h_ihl hdr =? 5) then 6 else
    if bool_decide (ip4h_check hdr = ip_fast_csum (list_inserts 10 [0; 0] (roce4grh hdr)) 5)
    then 4 else 6) = 6).
  { destruct (Z.eqb_spec (ip4h_ihl hdr) 5); [|done]. cbn [negb].
    rewrite bool_decide_false by tauto. done. }
  rewrite Hver. cbn [Z.eqb Pos.eqb]. split; [done|].
  by destruct (grh_next_hdr hdr =? IPPROTO_UDP).
Qed.

(** The type test of [ib_get_gids_from_rdma_hdr] has a constant third
  operand, so the branch that refuses an unknown network type is dead: with
  both pointers given the function succeeds for every type, and fails only
  when a pointer is missing. *)
Theorem gids_type_test_dead hdr t sg dg :
(ib_get_gids_from_rdma_hdr ipv6_addr_set_v4mapped hdr t sg dg).1 =
if sg && dg then 0 else - EINVAL.
Proof. by destruct t, sg, dg. Qed.
End network_header_spec.

(** ** Multicast LIDs *)

Definition mcast_lid_range (lid : Z) : Prop := IB_MULTICAST_LID_BASE <= lid /\ lid <> IB_LID_PERMISSIVE.

(** Some port the QP may be on is not an InfiniBand port. *)
Definition maybe_eth (device : port_device) (query : option (ib_qp_state * Z)) : Prop :=
  match query with
  | Some (state, port) =>
      if bool_decide (state = IB_QPS_RESET)
      then exists p, p ∈ device_ports device /\ is_ib_port device p = false
      else is_ib_port device port = false
  | None => exists p, p ∈ device_ports device /\ is_ib_port device p = false
  end.

Lemma count_ports device ports n :
  0 <= n ->
  fold_left (fun n port => if negb (is_ib_port device port) then n + 1 else n) ports n <> 0 <->
  n <> 0 \/ exists p, p ∈ ports /\ is_ib_port device p = false.
Proof.
  revert n. induction ports as [|p ports IH]; intros n Hn; cbn.
  - split; [by left|]. intros [?|(p & []%elem_of_nil & _)]. done.
  - rewrite IH by (case_test; lia). split.
    + intros [H|(q & Hq & Hf)]; [|right; exists q; split; [by right|done]].
      destruct (is_ib_port device p) eqn:Hp; cbn in H; [by left|].
      right. exists p. split; [left|done].
    + intros [H|(q & [->|Hq]%elem_of_cons & Hf)]; [|rewrite Hf; cbn; left; lia|right; eauto].
      left. case_test; lia.
Qed.

(** A multicast LID is accepted exactly when it is in the multicast range,
    or when the queue pair is (or, not being bound to a port yet, may be) on a
    port that is not InfiniBand, where the LID is ignored. *)
Theorem is_valid_mcast_lid_exact device query lid :
  is_valid_mcast_lid device query lid = true <->
  maybe_eth device query \/ mcast_lid_range lid.
Proof.
  assert (Hl : negb ((lid <? IB_MULTICAST_LID_BASE) || (lid =? IB_LID_PERMISSIVE)) = true <->
    mcast_lid_range lid).
  { unfold mcast_lid_range. rewrite negb_true_iff, orb_false_iff. lia. }
  assert (Hp : (if c_true (fold_left (fun n port => if negb (is_ib_port device port) then n + 1
      else n) (device_ports device) 0) then true
      else negb ((lid <? IB_MULTICAST_LID_BASE) || (lid =? IB_LID_PERMISSIVE))) = true <->
    (exists p, p ∈ device_ports device /\ is_ib_port device p = false) \/ mcast_lid_range lid).
  { pose proof (count_ports device (device_ports device) 0 ltac:(lia)) as Hc.
    destruct (c_true _) eqn:Ht.
    - apply c_true_spec, Hc in Ht as [?|He]; [done|]. split; [by left|done].
    - apply c_true_false in Ht. rewrite Hl. split; [by right|]. intros [He|?]; [|done].
      destruct (proj2 Hc (or_intror He) Ht). }
  unfold is_valid_mcast_lid, maybe_eth. destruct query as [[state port]|]; [|exact Hp].
  destruct state; cbn [state_index Z.leb Z.compare]; try exact Hp;
    destruct (is_ib_port device port); cbn; rewrite ?Hl; naive_solver.
Qed.

(** ** Witnesses *)

(** Example checksum: a constant. *)
Definition example_csum (_ : list Z) (_ : Z) : list Z := [1; 2].

Definition example_roce_v2 : list Z :=
  replicate 20 255 ++ [0x45; 0; 0; 0; 0; 0; 0; 0; 0; 17; 1; 2; 10; 0; 0; 1; 10; 0; 0; 2].

Lemma network_header_gids_witness :
  ib_get_net_type_by_grh example_csum false example_roce_v2 = RDMA_NETWORK_IPV4.
Proof.
  destruct (network_header_gids example_csum (app (replicate 12 0)) example_roce_v2) as [H _].
  apply H. vm_compute. repeat split.
Defined.
