(* ===== verification/VerbsObj.v ===== *)
(** Lifetime of verbs objects: the creation, destruction and reference counting
    of protection domains, address handles, shared receive queues, queue pairs
    (XRC target queue pairs included), completion queues, memory regions, XRC
    domains, work queues and multicast attachments in
    drivers/infiniband/core/verbs.c.

    The kernel's memory is a finite map from object identities to objects; an
    operation on an object that is not there, a use after free, is [None].
    Results of the driver, the allocator and other kernel code are arguments, so
    every success and failure is covered; return codes are 0 or a negative
    errno. Atomic counters are integers without wrap-around: a counter counts
    live objects. *)

From S2P Require Import Prelude QpState.
Open Scope Z_scope.

Abbreviation id := Z.

Inductive ib_srq_type := IB_SRQT_BASIC | IB_SRQT_XRC | IB_SRQT_TM | IB_EXP_SRQT_NVMF.

Definition is_xrc_srq (t : ib_srq_type) : bool :=
  match t with IB_SRQT_XRC => true | _ => false end.

Definition ib_srq_has_cq (t : ib_srq_type) : bool :=
  match t with IB_SRQT_XRC | IB_SRQT_TM | IB_EXP_SRQT_NVMF => true | IB_SRQT_BASIC => false end.

(** [struct ib_qp]. A shared handle of an XRC target queue pair has a [real_qp]
    other than itself. *)
Record ib_qp := mk_qp {
  qp_type : Z;
  qp_num : Z;
  real_qp : id;
  qp_pd : option id;
  qp_send_cq : option id;
  qp_recv_cq : option id;
  qp_srq : option id;
  qp_rwq_ind_tbl : option id;
  qp_xrcd : option id
}.

(** The fields of an object other than its use count. *)
Inductive body :=
  | Pd (internal_mr : bool)
  | Cq (shared : bool)
  | Xrcd (tgt_qps : gmap Z id)
  | Srq (srq_type : ib_srq_type) (pd : id) (cq xrcd : option id)
  | Qp (qp : ib_qp)
  | Ah (pd : id) (sgid_attr : option id)
  | Mr (pd : id) (dm : option id)
  | Wq (pd cq : id)
  | Ext (* objects of other components: GID entries, device memory, RWQ tables *).

Record object := mk_obj { usecnt : Z; contents : body }.

Abbreviation heap := (gmap Z object).

(** ** Counters and memory *)

Definition add_usecnt (d : Z) (o : object) : object := mk_obj (o.(usecnt) + d) o.(contents).

Definition atomic_add (d : Z) (i : id) (h : heap) : option heap :=
  o ← h !! i; Some (<[i := add_usecnt d o]> h).

Definition atomic_inc (i : id) (h : heap) : option heap := atomic_add 1 i h.
Definition atomic_dec (i : id) (h : heap) : option heap := atomic_add (-1) i h.

(** [if (p) atomic_inc(&p->usecnt)] *)
Definition inc_if (p : option id) (h : heap) : option heap :=
  match p with Some i => atomic_inc i h | None => Some h end.
Definition dec_if (p : option id) (h : heap) : option heap :=
  match p with Some i => atomic_dec i h | None => Some h end.

Definition atomic_read (i : id) (h : heap) : option Z := usecnt <$> h !! i.

Definition alloc (i : id) (b : body) (h : heap) : heap := <[i := mk_obj 0 b]> h.
Definition kfree (i : id) (h : heap) : heap := delete i h.

Definition get_body (i : id) (h : heap) : option body := contents <$> h !! i.
Definition set_body (i : id) (b : body) (h : heap) : option heap :=
  o ← h !! i; Some (<[i := mk_obj o.(usecnt) b]> h).

Definition get_qp (i : id) (h : heap) : option ib_qp :=
  match get_body i h with Some (Qp q) => Some q | _ => None end.
Definition get_xrcd (i : id) (h : heap) : option (gmap Z id) :=
  match get_body i h with Some (Xrcd t) => Some t | _ => None end.

Definition failed (ret : Z) : bool := negb (ret =? 0).

(** ** Protection domains *)

(** [nomem]: allocation fails; [ret]: the driver's [alloc_pd]; [want_mr]: an
    internal MR is needed; [mr_ret], [dealloc_ret]: [get_dma_mr], [dealloc_pd]. *)
Definition ib_dealloc_pd_user (pd : id) (dealloc_ret : Z) (h : heap) : option (Z * heap) :=
  b ← get_body pd h;
  h ← (match b with Pd true => set_body pd (Pd false) h | _ => Some h end);
  if failed dealloc_ret then Some (dealloc_ret, h) else Some (dealloc_ret, kfree pd h).

Definition __ib_alloc_pd (pd : id) (nomem : bool) (ret : Z) (want_mr : bool)
    (mr_ret dealloc_ret : Z) (h : heap) : option (Z * heap) :=
  if nomem then Some (- ENOMEM, h) else
  let h := alloc pd (Pd false) h in
  if failed ret then Some (ret, kfree pd h) else
  if want_mr then
    if failed mr_ret then
      '(_, h) ← ib_dealloc_pd_user pd dealloc_ret h; Some (mr_ret, h)
    else h ← set_body pd (Pd true) h; Some (0, h)
  else Some (0, h).

(** ** Address handles *)

(** [no_op]: the driver lacks [create_ah]; [user]: [udata] is given. *)
Definition _rdma_create_ah (ah pd : id) (sgid : option id) (user no_op nomem : bool) (ret : Z)
    (h : heap) : option (Z * heap) :=
  if negb user && no_op then Some (- EOPNOTSUPP, h) else
  if nomem then Some (- ENOMEM, h) else
  let h := alloc ah (Ah pd sgid) h in
  (* rdma_update_sgid_attr holds the GID entry *)
  h ← inc_if sgid h;
  if failed ret then
    h ← dec_if sgid h; Some (ret, kfree ah h)
  else h ← atomic_inc pd h; Some (0, h).

Definition rdma_destroy_ah_user (ah : id) (ret : Z) (h : heap) : option (Z * heap) :=
  b ← get_body ah h;
  match b with
  | Ah pd sgid_attr =>
      if failed ret then Some (ret, h) else
      h ← atomic_dec pd h;
      h ← dec_if sgid_attr h;
      Some (ret, kfree ah h)
  | _ => None
  end.

(** ** Shared receive queues *)

Definition ib_create_srq_user (srq pd : id) (t : ib_srq_type) (attr_cq : id)
    (attr_xrcd : option id) (nomem : bool) (ret : Z) (h : heap) : option (Z * heap) :=
  if nomem then Some (- ENOMEM, h) else
  let cq := if ib_srq_has_cq t then Some attr_cq else None in
  let xrcd := if is_xrc_srq t then attr_xrcd else None in
  let h := alloc srq (Srq t pd cq xrcd) h in
  h ← (if ib_srq_has_cq t then inc_if cq h else Some h);
  h ← (if is_xrc_srq t then inc_if xrcd h else Some h);
  h ← atomic_inc pd h;
  if failed ret then
    h ← atomic_dec pd h;
    h ← (if is_xrc_srq t then dec_if xrcd h else Some h);
    h ← (if ib_srq_has_cq t then dec_if cq h else Some h);
    Some (ret, kfree srq h)
  else Some (0, h).

Definition ib_destroy_srq_user (srq : id) (ret : Z) (h : heap) : option (Z * heap) :=
  n ← atomic_read srq h;
  if c_true n then Some (- EBUSY, h) else
  if failed ret then Some (ret, h) else
  b ← get_body srq h;
  match b with
  | Srq t pd cq xrcd =>
      h ← atomic_dec pd h;
      h ← (if is_xrc_srq t then dec_if xrcd h else Some h);
      h ← (if ib_srq_has_cq t then dec_if cq h else Some h);
      Some (ret, kfree srq h)
  | _ => None
  end.

(** ** Queue pairs *)

(** Attributes of a new queue pair. *)
Record ib_qp_init_attr := mk_init {
  ia_type : Z;
  ia_num : Z; (* the number the driver assigns *)
  ia_send_cq : option id;
  ia_recv_cq : option id;
  ia_srq : option id;
  ia_rwq_ind_tbl : option id;
  ia_xrcd : option id
}.

(** Answers of the allocator, the driver and the security module. *)
Record create_env := mk_env {
  no_create_qp : bool;
  qp_nomem : bool;
  create_ret : Z;
  security_ret : Z
}.

(** On success the new queue pair is live. *)
Definition create_qp (qp : id) (pd : option id) (attr : ib_qp_init_attr) (env : create_env)
    (h : heap) : Z * heap :=
  if env.(no_create_qp) then (- EOPNOTSUPP, h) else
  if env.(qp_nomem) then (- ENOMEM, h) else
  let h := alloc qp (Qp (mk_qp attr.(ia_type) attr.(ia_num) qp pd attr.(ia_send_cq)
                          attr.(ia_recv_cq) attr.(ia_srq) attr.(ia_rwq_ind_tbl) None)) h in
  if failed env.(create_ret) then (env.(create_ret), kfree qp h) else
  if failed env.(security_ret) then (env.(security_ret), kfree qp h) else
  (0, h).

Definition ib_qp_usecnt_inc (qp : id) (h : heap) : option heap :=
  q ← get_qp qp h;
  h ← inc_if q.(qp_pd) h;
  h ← inc_if q.(qp_send_cq) h;
  h ← inc_if q.(qp_recv_cq) h;
  h ← inc_if q.(qp_srq) h;
  inc_if q.(qp_rwq_ind_tbl) h.

Definition ib_qp_usecnt_dec (qp : id) (h : heap) : option heap :=
  q ← get_qp qp h;
  h ← dec_if q.(qp_rwq_ind_tbl) h;
  h ← dec_if q.(qp_srq) h;
  h ← dec_if q.(qp_recv_cq) h;
  h ← dec_if q.(qp_send_cq) h;
  dec_if q.(qp_pd) h.

(** [ib_destroy_qp_user] for a queue pair that is its own [real_qp]. *)
Definition destroy_real_qp (qp : id) (ret : Z) (h : heap) : option (Z * heap) :=
  n ← atomic_read qp h;
  if c_true n then Some (- EBUSY, h) else
  if failed ret then Some (ret, h) else
  h ← ib_qp_usecnt_dec qp h;
  Some (ret, kfree qp h).

Definition ib_close_qp (qp : id) (h : heap) : option (Z * heap) :=
  q ← get_qp qp h;
  if q.(real_qp) =? qp then Some (- EINVAL, h) else
  h ← atomic_dec q.(real_qp) h;
  Some (0, kfree qp h).

Definition __ib_destroy_shared_qp (qp : id) (destroy_ret : Z) (h : heap) : option (Z * heap) :=
  q ← get_qp qp h;
  let real := q.(real_qp) in
  rq ← get_qp real h;
  xrcd ← rq.(qp_xrcd);
  '(_, h) ← ib_close_qp qp h;
  n ← atomic_read real h;
  if n =? 0 then
    tgt ← get_xrcd xrcd h;
    h ← set_body xrcd (Xrcd (delete rq.(qp_num) tgt)) h;
    '(ret, h) ← destroy_real_qp real destroy_ret h;
    if negb (failed ret) then h ← atomic_dec xrcd h; Some (0, h) else Some (0, h)
  else Some (0, h).

Definition ib_destroy_qp_user (qp : id) (destroy_ret : Z) (h : heap) : option (Z * heap) :=
  n ← atomic_read qp h;
  if c_true n then Some (- EBUSY, h) else
  q ← get_qp qp h;
  if negb (q.(real_qp) =? qp) then __ib_destroy_shared_qp qp destroy_ret h
  else destroy_real_qp qp destroy_ret h.

(** [nomem]: allocation fails; [sec_ret]: [ib_open_shared_qp_security]. *)
Definition __ib_open_qp (qp real : id) (nomem : bool) (sec_ret : Z) (h : heap)
    : option (Z * heap) :=
  if nomem then Some (- ENOMEM, h) else
  rq ← get_qp real h;
  let h := alloc qp (Qp (mk_qp rq.(qp_type) rq.(qp_num) real None None None None None None)) h in
  if failed sec_ret then Some (sec_ret, kfree qp h) else
  h ← atomic_inc real h;
  Some (0, h).

Definition ib_open_qp (qp xrcd : id) (open_type open_num : Z) (nomem : bool) (sec_ret : Z)
    (h : heap) : option (Z * heap) :=
  if negb (open_type =? IB_QPT_XRC_TGT) then Some (- EINVAL, h) else
  tgt ← get_xrcd xrcd h;
  match tgt !! open_num with
  | None => Some (- EINVAL, h)
  | Some real => __ib_open_qp qp real nomem sec_ret h
  end.

(** [qp] is the real queue pair, [handle] the shared one returned; [store_ret]:
    [xa_store]. *)
Definition create_xrc_qp_user (qp handle xrcd : id) (nomem : bool) (sec_ret store_ret : Z)
    (h : heap) : option (Z * heap) :=
  q ← get_qp qp h;
  h ← set_body qp (Qp (mk_qp q.(qp_type) q.(qp_num) qp None None None None
                         q.(qp_rwq_ind_tbl) (Some xrcd))) h;
  h ← atomic_inc xrcd h;
  '(err, h) ← __ib_open_qp handle qp nomem sec_ret h;
  if failed err then Some (err, h) else
  if failed store_ret then
    '(_, h) ← ib_close_qp handle h; Some (store_ret, h)
  else
    tgt ← get_xrcd xrcd h;
    h ← set_body xrcd (Xrcd (<[q.(qp_num) := qp]> tgt)) h;
    Some (0, h).

(** The count of a non-XRC queue pair is taken by the caller, after success,
    with [ib_qp_usecnt_inc]. *)
Definition ib_create_qp_user (qp handle : id) (pd : option id) (attr : ib_qp_init_attr)
    (env : create_env) (nomem : bool) (sec_ret store_ret destroy_ret : Z) (h : heap)
    : option (Z * heap) :=
  let '(ret, h) := create_qp qp pd attr env h in
  if negb (attr.(ia_type) =? IB_QPT_XRC_TGT) || failed ret then Some (ret, h) else
  xrcd ← attr.(ia_xrcd);
  '(err, h) ← create_xrc_qp_user qp handle xrcd nomem sec_ret store_ret h;
  if failed err then
    '(_, h) ← ib_destroy_qp_user qp destroy_ret h; Some (err, h)
  else Some (0, h).

(** [rw]: [rdma_rw_init_mrs] is called, with result [rw_ret]. *)
Definition ib_create_qp_kernel (qp pd : id) (attr : ib_qp_init_attr) (env : create_env)
    (rw : bool) (rw_ret destroy_ret : Z) (h : heap) : option (Z * heap) :=
  let '(ret, h) := create_qp qp (Some pd) attr env h in
  if failed ret then Some (ret, h) else
  h ← ib_qp_usecnt_inc qp h;
  if rw && failed rw_ret then
    '(_, h) ← ib_destroy_qp_user qp destroy_ret h; Some (rw_ret, h)
  else Some (0, h).

(** ** Completion queues *)

Definition __ib_create_cq (cq : id) (nomem : bool) (ret : Z) (h : heap) : option (Z * heap) :=
  if nomem then Some (- ENOMEM, h) else
  let h := alloc cq (Cq false) h in
  if failed ret then Some (ret, kfree cq h) else Some (0, h).

Definition ib_destroy_cq_user (cq : id) (ret : Z) (h : heap) : option (Z * heap) :=
  b ← get_body cq h;
  match b with
  | Cq true => Some (- EOPNOTSUPP, h)
  | _ =>
      n ← atomic_read cq h;
      if c_true n then Some (- EBUSY, h) else
      if failed ret then Some (ret, h) else Some (ret, kfree cq h)
  end.

(** ** Memory regions *)

(** [odp_missing]: on-demand paging is asked for and not supported. *)
Definition ib_reg_user_mr (mr pd : id) (odp_missing : bool) (ret : Z) (h : heap)
    : option (Z * heap) :=
  if odp_missing then Some (- EINVAL, h) else
  if failed ret then Some (ret, h) else
  let h := alloc mr (Mr pd None) h in
  h ← atomic_inc pd h; Some (0, h).

Definition ib_alloc_mr (mr pd : id) (no_op integrity : bool) (ret : Z) (h : heap)
    : option (Z * heap) :=
  if no_op then Some (- EOPNOTSUPP, h) else
  if integrity then Some (- EINVAL, h) else
  if failed ret then Some (ret, h) else
  let h := alloc mr (Mr pd None) h in
  h ← atomic_inc pd h; Some (0, h).

Definition ib_alloc_mr_integrity (mr pd : id) (no_op : bool) (max_num_meta_sg : Z) (nomem : bool)
    (ret : Z) (h : heap) : option (Z * heap) :=
  if no_op then Some (- EOPNOTSUPP, h) else
  if max_num_meta_sg =? 0 then Some (- EINVAL, h) else
  if nomem then Some (- ENOMEM, h) else
  if failed ret then Some (ret, h) else
  let h := alloc mr (Mr pd None) h in
  h ← atomic_inc pd h; Some (0, h).

Definition ib_dereg_mr_user (mr : id) (ret : Z) (h : heap) : option (Z * heap) :=
  b ← get_body mr h;
  match b with
  | Mr pd dm =>
      if failed ret then Some (ret, h) else
      (* the driver has freed the MR *)
      let h := kfree mr h in
      h ← atomic_dec pd h;
      h ← dec_if dm h;
      Some (ret, h)
  | _ => None
  end.

(** ** XRC domains and work queues *)

Definition ib_alloc_xrcd_user (xrcd : id) (no_op nomem : bool) (ret : Z) (h : heap)
    : option (Z * heap) :=
  if no_op then Some (- EOPNOTSUPP, h) else
  if nomem then Some (- ENOMEM, h) else
  let h := alloc xrcd (Xrcd ∅) h in
  if failed ret then Some (ret, kfree xrcd h) else Some (0, h).

(** The second component of the result tells whether [WARN_ON(!xa_empty)] fired. *)
Definition ib_dealloc_xrcd_user (xrcd : id) (ret : Z) (h : heap) : option (Z * bool * heap) :=
  n ← atomic_read xrcd h;
  if c_true n then Some (- EBUSY, false, h) else
  tgt ← get_xrcd xrcd h;
  let warn := negb (bool_decide (tgt = ∅)) in
  if failed ret then Some (ret, warn, h) else Some (ret, warn, kfree xrcd h).

Definition ib_create_wq (wq pd cq : id) (no_op : bool) (ret : Z) (h : heap) : option (Z * heap) :=
  if no_op then Some (- EOPNOTSUPP, h) else
  if failed ret then Some (ret, h) else
  let h := alloc wq (Wq pd cq) h in
  h ← atomic_inc pd h;
  h ← atomic_inc cq h;
  Some (0, h).

Definition ib_destroy_wq_user (wq : id) (ret : Z) (h : heap) : option (Z * heap) :=
  b ← get_body wq h;
  match b with
  | Wq pd cq =>
      n ← atomic_read wq h;
      if c_true n then Some (- EBUSY, h) else
      if failed ret then Some (ret, h) else
      (* the driver has freed the WQ *)
      let h := kfree wq h in
      h ← atomic_dec pd h;
      h ← atomic_dec cq h;
      Some (ret, h)
  | _ => None
  end.

(** ** Multicast attachment *)

(** [ok]: the address is multicast, the queue pair UD and the LID valid. *)
Definition ib_attach_mcast (qp : id) (no_op ok : bool) (ret : Z) (h : heap) : option (Z * heap) :=
  if no_op then Some (- EOPNOTSUPP, h) else
  q ← get_qp qp h;
  if negb (ok && (q.(qp_type) =? IB_QPT_UD)) then Some (- EINVAL, h) else
  if negb (failed ret) then h ← atomic_inc qp h; Some (ret, h) else Some (ret, h).

Definition ib_detach_mcast (qp : id) (no_op ok : bool) (ret : Z) (h : heap) : option (Z * heap) :=
  if no_op then Some (- EOPNOTSUPP, h) else
  q ← get_qp qp h;
  if negb (ok && (q.(qp_type) =? IB_QPT_UD)) then Some (- EINVAL, h) else
  if negb (failed ret) then h ← atomic_dec qp h; Some (ret, h) else Some (ret, h).

(** ** Operations *)

(** What a caller can do. Creating a user queue pair includes the
    [ib_qp_usecnt_inc] that uverbs performs on the handle it gets. *)
Inductive op :=
  | OpAllocPd (pd : id) (nomem : bool) (ret : Z) (want_mr : bool) (mr_ret dealloc_ret : Z)
  | OpDeallocPd (pd : id) (ret : Z)
  | OpCreateAh (ah pd : id) (sgid : option id) (user no_op nomem : bool) (ret : Z)
  | OpDestroyAh (ah : id) (ret : Z)
  | OpCreateSrq (srq pd : id) (t : ib_srq_type) (cq : id) (xrcd : option id) (nomem : bool)
      (ret : Z)
  | OpDestroySrq (srq : id) (ret : Z)
  | OpCreateQpUser (qp handle : id) (pd : option id) (attr : ib_qp_init_attr) (env : create_env)
      (nomem : bool) (sec_ret store_ret destroy_ret : Z)
  | OpCreateQpKernel (qp pd : id) (attr : ib_qp_init_attr) (env : create_env) (rw : bool)
      (rw_ret destroy_ret : Z)
  | OpOpenQp (qp xrcd : id) (open_type open_num : Z) (nomem : bool) (sec_ret : Z)
  | OpCloseQp (qp : id)
  | OpDestroyQp (qp : id) (ret : Z)
  | OpCreateCq (cq : id) (nomem : bool) (ret : Z)
  | OpDestroyCq (cq : id) (ret : Z)
  | OpRegMr (mr pd : id) (odp_missing : bool) (ret : Z)
  | OpAllocMr (mr pd : id) (no_op integrity : bool) (ret : Z)
  | OpAllocMrIntegrity (mr pd : id) (no_op : bool) (max_num_meta_sg : Z) (nomem : bool) (ret : Z)
  | OpDeregMr (mr : id) (ret : Z)
  | OpAllocXrcd (xrcd : id) (no_op nomem : bool) (ret : Z)
  | OpDeallocXrcd (xrcd : id) (ret : Z)
  | OpCreateWq (wq pd cq : id) (no_op : bool) (ret : Z)
  | OpDestroyWq (wq : id) (ret : Z)
  | OpExt (i : id) (* another component publishes an object *)
  | OpAttachMcast (qp : id) (no_op ok : bool) (ret : Z)
  | OpDetachMcast (qp : id) (no_op ok : bool) (ret : Z).

(** Creation of a user queue pair as uverbs does it. *)
Definition uverbs_create_qp (qp handle : id) (pd : option id) (attr : ib_qp_init_attr)
    (env : create_env) (nomem : bool) (sec_ret store_ret destroy_ret : Z) (h : heap)
    : option (Z * heap) :=
  '(ret, h) ← ib_create_qp_user qp handle pd attr env nomem sec_ret store_ret destroy_ret h;
  if failed ret then Some (ret, h) else
  h ← ib_qp_usecnt_inc (if attr.(ia_type) =? IB_QPT_XRC_TGT then handle else qp) h;
  Some (0, h).

Definition exec (o : op) (h : heap) : option (Z * heap) :=
  match o with
  | OpAllocPd pd nomem ret want mr_ret dret => __ib_alloc_pd pd nomem ret want mr_ret dret h
  | OpDeallocPd pd ret => ib_dealloc_pd_user pd ret h
  | OpCreateAh ah pd sgid user no_op nomem ret => _rdma_create_ah ah pd sgid user no_op nomem ret h
  | OpDestroyAh ah ret => rdma_destroy_ah_user ah ret h
  | OpCreateSrq srq pd t cq xrcd nomem ret => ib_create_srq_user srq pd t cq xrcd nomem ret h
  | OpDestroySrq srq ret => ib_destroy_srq_user srq ret h
  | OpCreateQpUser qp handle pd attr env nomem sec store dret =>
      uverbs_create_qp qp handle pd attr env nomem sec store dret h
  | OpCreateQpKernel qp pd attr env rw rw_ret dret =>
      ib_create_qp_kernel qp pd attr env rw rw_ret dret h
  | OpOpenQp qp xrcd t n nomem sec => ib_open_qp qp xrcd t n nomem sec h
  | OpCloseQp qp => ib_close_qp qp h
  | OpDestroyQp qp ret => ib_destroy_qp_user qp ret h
  | OpCreateCq cq nomem ret => __ib_create_cq cq nomem ret h
  | OpDestroyCq cq ret => ib_destroy_cq_user cq ret h
  | OpRegMr mr pd odp ret => ib_reg_user_mr mr pd odp ret h
  | OpAllocMr mr pd no_op integ ret => ib_alloc_mr mr pd no_op integ ret h
  | OpAllocMrIntegrity mr pd no_op meta nomem ret =>
      ib_alloc_mr_integrity mr pd no_op meta nomem ret h
  | OpDeregMr mr ret => ib_dereg_mr_user mr ret h
  | OpAllocXrcd xrcd no_op nomem ret => ib_alloc_xrcd_user xrcd no_op nomem ret h
  | OpDeallocXrcd xrcd ret =>
      '(r, _, h) ← ib_dealloc_xrcd_user xrcd ret h; Some (r, h)
  | OpCreateWq wq pd cq no_op ret => ib_create_wq wq pd cq no_op ret h
  | OpDestroyWq wq ret => ib_destroy_wq_user wq ret h
  | OpExt i => Some (0, alloc i Ext h)
  | OpAttachMcast qp no_op ok ret => ib_attach_mcast qp no_op ok ret h
  | OpDetachMcast qp no_op ok ret => ib_detach_mcast qp no_op ok ret h
  end.

(** ** References *)

Inductive kind := KPd | KCq | KXrcd | KSrq | KQp | KAh | KMr | KWq | KExt.

#[export] Instance kind_eq : EqDecision kind.
Proof. solve_decision. Defined.

Definition kind_of (b : body) : kind :=
  match b with
  | Pd _ => KPd | Cq _ => KCq | Xrcd _ => KXrcd | Srq _ _ _ _ => KSrq | Qp _ => KQp
  | Ah _ _ => KAh | Mr _ _ => KMr | Wq _ _ => KWq | Ext => KExt
  end.

Definition opt (p : option id) (k : kind) : list (id * kind) :=
  match p with Some i => [(i, k)] | None => [] end.

(** The objects an object holds a count on. *)
Definition refs (i : id) (b : body) : list (id * kind) :=
  match b with
  | Srq t pd cq xrcd =>
      (if ib_srq_has_cq t then opt cq KCq else []) ++
      (if is_xrc_srq t then opt xrcd KXrcd else []) ++ [(pd, KPd)]
  | Qp q =>
      if q.(real_qp) =? i then
        opt q.(qp_pd) KPd ++ opt q.(qp_send_cq) KCq ++ opt q.(qp_recv_cq) KCq ++
        opt q.(qp_srq) KSrq ++ opt q.(qp_rwq_ind_tbl) KExt ++ opt q.(qp_xrcd) KXrcd
      else [(q.(real_qp), KQp)]
  | Ah pd sgid => opt sgid KExt ++ [(pd, KPd)]
  | Mr pd dm => (pd, KPd) :: opt dm KExt
  | Wq pd cq => [(pd, KPd); (cq, KCq)]
  | Pd _ | Cq _ | Xrcd _ | Ext => []
  end.

Definition targets (i : id) (b : body) : list id := (refs i b).*1.

Definition bodies (h : heap) : gmap Z body := contents <$> h.
Definition count (i : id) (l : list id) : Z := Z.of_nat (length (filter (.= i) l)).

(** All references held in a heap, and how many of them are to [i]. *)
Definition all_refs (m : gmap Z body) : list id :=
  map_to_list m ≫= fun '(i, b) => targets i b.
Definition nrefs (m : gmap Z body) (i : id) : Z := count i (all_refs m).

(** ** The invariant *)

(** References outside the heap: multicast attachments held by the driver, and
    counts that were never given back. *)
Definition ext_refs : Type := id -> Z.

Definition live (m : gmap Z body) (k : kind) (i : id) : Prop :=
  exists b, m !! i = Some b /\ kind_of b = k.

Definition qp_of (m : gmap Z body) (i : id) : option ib_qp :=
  match m !! i with Some (Qp q) => Some q | _ => None end.
Definition tgts_of (m : gmap Z body) (i : id) : option (gmap Z id) :=
  match m !! i with Some (Xrcd t) => Some t | _ => None end.

Record wf_bodies (m : gmap Z body) : Prop := {
  wf_refs : forall i b j k, m !! i = Some b -> (j, k) ∈ refs i b -> live m k j;
  wf_shared : forall i q, qp_of m i = Some q -> q.(real_qp) <> i ->
    exists rq, qp_of m q.(real_qp) = Some rq /\ rq.(real_qp) = q.(real_qp) /\
      is_Some rq.(qp_xrcd);
  wf_tgts : forall x t n r, tgts_of m x = Some t -> t !! n = Some r ->
    exists rq, qp_of m r = Some rq /\ rq.(real_qp) = r /\ rq.(qp_xrcd) = Some x /\
      rq.(qp_num) = n
}.

Record inv (e : ext_refs) (h : heap) : Prop := {
  inv_wf : wf_bodies (bodies h);
  inv_cnt : forall i o, h !! i = Some o -> o.(usecnt) = nrefs (bodies h) i + e i;
  inv_ext : forall i, 0 <= e i;
  inv_kind : forall i, e i <> 0 -> live (bodies h) KQp i \/ live (bodies h) KXrcd i
}.

(** ** Counting references *)

Lemma count_app i l1 l2 : count i (l1 ++ l2) = count i l1 + count i l2.
Proof. unfold count. rewrite list.filter_app, length_app. lia. Qed.

Lemma count_nil i : count i [] = 0.
Proof. done. Qed.

Lemma count_cons i j l : count i (j :: l) = (if decide (j = i) then 1 else 0) + count i l.
Proof. unfold count. rewrite filter_cons. repeat case_decide; cbn [length]; lia. Qed.

Lemma count_nonneg i l : 0 <= count i l.
Proof. unfold count. lia. Qed.

Lemma count_perm i l1 l2 : l1 ≡ₚ l2 -> count i l1 = count i l2.
Proof. unfold count. by intros ->. Qed.

Lemma count_in i l : i ∈ l -> 0 < count i l.
Proof.
  induction l as [|j l IH]; [by intros ?%elem_of_nil|]. rewrite count_cons, elem_of_cons.
  pose proof (count_nonneg i l). case_decide; [lia|]. intros [?|Hin]; [done|]. specialize (IH Hin). lia.
Qed.

Lemma count_out i l : i ∉ l -> count i l = 0.
Proof.
  induction l as [|j l IH]; [done|]. rewrite count_cons, not_elem_of_cons. intros [Hn Hl].
  rewrite decide_False by done. rewrite IH by done. lia.
Qed.

Lemma all_refs_insert m i b :
  m !! i = None -> all_refs (<[i := b]> m) ≡ₚ targets i b ++ all_refs m.
Proof. intros Hi. unfold all_refs. by rewrite map_to_list_insert. Qed.

Lemma nrefs_insert m i b j :
  m !! i = None -> nrefs (<[i := b]> m) j = count j (targets i b) + nrefs m j.
Proof. intros Hi. unfold nrefs. by rewrite (count_perm _ _ _ (all_refs_insert m i b Hi)), count_app. Qed.

Lemma nrefs_delete m i b j :
  m !! i = Some b -> nrefs m j = count j (targets i b) + nrefs (delete i m) j.
Proof.
  intros Hi. rewrite <- nrefs_insert by apply lookup_delete_eq. by rewrite insert_delete_id.
Qed.

Lemma nrefs_replace m i b b' j :
  m !! i = Some b ->
  nrefs (<[i := b']> m) j = nrefs m j - count j (targets i b) + count j (targets i b').
Proof.
  intros Hi. rewrite (nrefs_delete m i b j Hi), <- insert_delete_eq, nrefs_insert; [lia|].
  apply lookup_delete_eq.
Qed.

Lemma nrefs_nonneg m i : 0 <= nrefs m i.
Proof. apply count_nonneg. Qed.

Lemma nrefs_in m i b j : m !! i = Some b -> j ∈ targets i b -> 0 < nrefs m j.
Proof.
  intros Hi Hj. rewrite (nrefs_delete m i b j Hi). pose proof (count_in _ _ Hj).
  pose proof (nrefs_nonneg (delete i m) j). lia.
Qed.

Lemma nrefs_dead m i : wf_bodies m -> m !! i = None -> nrefs m i = 0.
Proof.
  intros [Hwf _ _] Hi. unfold nrefs. apply count_out. unfold all_refs.
  intros ([j b] & Hin & Hj)%list_elem_of_bind.
  apply elem_of_map_to_list in Hj. apply list_elem_of_fmap in Hin as ([i' k] & -> & Hin).
  destruct (Hwf _ _ _ _ Hj Hin) as (b' & Hb & _). cbn in *. congruence.
Qed.

(** ** Changes of counters *)

Definition cnt (h : heap) (i : id) : option Z := usecnt <$> h !! i.

(** [h'] is [h] with [d] added to a counter for each occurrence in [l]. *)
Definition upd (d : Z) (l : list id) (h h' : heap) : Prop :=
  bodies h' = bodies h /\ forall i, cnt h' i = (fun n => n + d * count i l) <$> cnt h i.

Lemma upd_nil d h : upd d [] h h.
Proof. split; [done|]. intros i. rewrite count_nil, Z.mul_0_r. destruct (cnt h i); cbn; f_equal. lia. Qed.

Lemma upd_trans d l1 l2 h h1 h2 : upd d l1 h h1 -> upd d l2 h1 h2 -> upd d (l1 ++ l2) h h2.
Proof.
  intros [Hb1 Hc1] [Hb2 Hc2]. split; [congruence|]. intros i. rewrite Hc2, Hc1, count_app.
  destruct (cnt h i); cbn; f_equal. lia.
Qed.

Lemma bodies_insert i o h : bodies (<[i := o]> h) = <[i := contents o]> (bodies h).
Proof. apply fmap_insert. Qed.

Lemma bodies_delete i h : bodies (delete i h) = delete i (bodies h).
Proof. apply fmap_delete. Qed.

Lemma bodies_lookup h i : bodies h !! i = contents <$> h !! i.
Proof. apply lookup_fmap. Qed.

Lemma live_lookup h k i : live (bodies h) k i -> is_Some (h !! i).
Proof. intros (b & Hb & _). rewrite bodies_lookup in Hb. by destruct (h !! i). Qed.

Lemma atomic_add_spec d i h :
  is_Some (h !! i) -> exists h', atomic_add d i h = Some h' /\ upd d [i] h h'.
Proof.
  intros [o Ho]. unfold atomic_add. rewrite Ho. cbn. eexists. split; [done|]. split.
  - rewrite bodies_insert. cbn. apply insert_id. by rewrite bodies_lookup, Ho.
  - intros j. unfold cnt. rewrite lookup_insert, count_cons, count_nil. case_decide as Hij.
    + subst. rewrite Ho. cbn. f_equal. lia.
    + destruct (h !! j); cbn; f_equal. lia.
Qed.

Lemma add_if_spec d p h :
  (forall i, p = Some i -> is_Some (h !! i)) ->
  exists h', match p with Some i => atomic_add d i h | None => Some h end = Some h' /\
    upd d (option_list p) h h'.
Proof.
  intros Hp. destruct p as [i|]; cbn; [by apply atomic_add_spec, Hp|].
  exists h. split; [done|apply upd_nil].
Qed.

Lemma upd_live d l h h' i : upd d l h h' -> is_Some (h !! i) -> is_Some (h' !! i).
Proof.
  intros [Hb _] [o Ho]. assert (Hbi : bodies h' !! i = Some (contents o)).
  { by rewrite Hb, bodies_lookup, Ho. }
  rewrite bodies_lookup in Hbi. by destruct (h' !! i).
Qed.

(** The same references, in any order. *)
Definition same (l l' : list id) : Prop := forall i, count i l = count i l'.

(** A heap is its bodies and its counters. *)
Lemma heap_ext h h' : bodies h = bodies h' -> (forall i, cnt h i = cnt h' i) -> h = h'.
Proof.
  intros Hb Hc. apply map_eq. intros i. specialize (Hc i). unfold cnt in Hc.
  assert (Hbi : bodies h !! i = bodies h' !! i) by by rewrite Hb. rewrite !bodies_lookup in Hbi.
  destruct (h !! i) as [[]|], (h' !! i) as [[]|]; cbn in *; congruence.
Qed.

Lemma upd_delete d l h h' i : upd d l h h' -> upd d l (delete i h) (delete i h').
Proof.
  intros [Hb Hc]. split; [by rewrite !bodies_delete, Hb|]. intros j. specialize (Hc j).
  unfold cnt in *. rewrite !lookup_delete. by case_decide.
Qed.

(** Taking counts for a new object and giving them back leaves the heap as it was. *)
Lemma upd_restore h i b l l' h1 h2 :
  h !! i = None -> upd 1 l (alloc i b h) h1 -> upd (-1) l' h1 h2 -> same l l' -> kfree i h2 = h.
Proof.
  intros Hi [Hb1 Hc1] [Hb2 Hc2] Hl. apply heap_ext.
  - unfold kfree. rewrite bodies_delete, Hb2, Hb1. unfold alloc. rewrite bodies_insert.
    apply delete_insert_id. by rewrite bodies_lookup, Hi.
  - intros j. specialize (Hc1 j). specialize (Hc2 j). rewrite Hc1 in Hc2. unfold cnt, kfree in *.
    rewrite lookup_delete. unfold alloc in Hc2. rewrite lookup_insert in Hc2. case_decide; subst.
    + by rewrite Hi.
    + rewrite Hc2. rewrite (Hl j). destruct (h !! j); cbn; f_equal. lia.
Qed.

Lemma kfree_alloc i b h : h !! i = None -> kfree i (alloc i b h) = h.
Proof. intros. by apply delete_insert_id. Qed.

(** ** The invariant under creation and destruction *)

Lemma qp_of_insert m i b j :
  qp_of (<[i := b]> m) j = if decide (i = j) then (match b with Qp q => Some q | _ => None end)
                           else qp_of m j.
Proof. unfold qp_of. rewrite lookup_insert. by case_decide. Qed.

Lemma tgts_of_insert m i b j :
  tgts_of (<[i := b]> m) j = if decide (i = j) then (match b with Xrcd t => Some t | _ => None end)
                             else tgts_of m j.
Proof. unfold tgts_of. rewrite lookup_insert. by case_decide. Qed.

Lemma live_insert m i b k j : m !! i = None -> live m k j -> live (<[i := b]> m) k j.
Proof.
  intros Hi (b' & Hb & Hk). exists b'. split; [|done]. rewrite lookup_insert_ne; [done|].
  intros ->. congruence.
Qed.

Lemma qp_of_Some m i q : qp_of m i = Some q <-> m !! i = Some (Qp q).
Proof. unfold qp_of. destruct (m !! i) as [[]|]; naive_solver. Qed.

Lemma tgts_of_Some m i t : tgts_of m i = Some t <-> m !! i = Some (Xrcd t).
Proof. unfold tgts_of. destruct (m !! i) as [[]|]; naive_solver. Qed.

(** What a new object must satisfy: its references are to live objects of the
    right kinds, and a shared handle is of a real XRC queue pair. *)
Record fresh_body (m : gmap Z body) (i : id) (b : body) : Prop := {
  fresh_refs : forall j k, (j, k) ∈ refs i b -> live m k j;
  fresh_shared : forall q, b = Qp q -> q.(real_qp) <> i ->
    exists rq, qp_of m q.(real_qp) = Some rq /\ rq.(real_qp) = q.(real_qp) /\
      is_Some rq.(qp_xrcd);
  fresh_tgts : forall t, b = Xrcd t -> t = ∅
}.

Lemma wf_insert m i b :
  wf_bodies m -> m !! i = None -> fresh_body m i b -> wf_bodies (<[i := b]> m).
Proof.
  intros [Hr Hs Ht] Hi [Fr Fs Ft]. split.
  - intros j b' l k Hj Hin. apply live_insert; [done|]. rewrite lookup_insert in Hj.
    case_decide; [|by eapply Hr]. simplify_eq. by apply Fr.
  - intros j q Hq Hne. rewrite qp_of_insert in Hq.
    assert (Hex : exists rq, qp_of m (real_qp q) = Some rq /\ real_qp rq = real_qp q /\
      is_Some (qp_xrcd rq)).
    { case_decide; [|by eapply Hs]. subst. destruct b; simplify_eq. by apply Fs. }
    destruct Hex as (rq & Hrq & ? & ?). exists rq. split; [|done].
    rewrite qp_of_insert. rewrite decide_False; [done|]. intros ->.
    apply qp_of_Some in Hrq. congruence.
  - intros x t n r Hx Hn. rewrite tgts_of_insert in Hx. case_decide.
    + destruct b; simplify_eq. rewrite (Ft _ eq_refl) in Hn. by rewrite lookup_empty in Hn.
    + destruct (Ht x t n r Hx Hn) as (rq & Hrq & ? & ?). exists rq. split; [|done].
      rewrite qp_of_insert, decide_False; [done|]. intros ->. apply qp_of_Some in Hrq. congruence.
Qed.

(** No XRC domain lists [i]. *)
Definition untargeted (m : gmap Z body) (i : id) : Prop :=
  forall x t n, tgts_of m x = Some t -> t !! n <> Some i.

Lemma in_targets i b j k : (j, k) ∈ refs i b -> j ∈ targets i b.
Proof. intros Hin. unfold targets. apply list_elem_of_fmap. by exists (j, k). Qed.

Lemma wf_delete m i : wf_bodies m -> nrefs m i = 0 -> untargeted m i -> wf_bodies (delete i m).
Proof.
  intros [Hr Hs Ht] Hn Hu.
  assert (Hno : forall j b k, m !! j = Some b -> (i, k) ∉ refs j b).
  { intros j b k Hj Hin%in_targets. pose proof (nrefs_in _ _ _ _ Hj Hin). lia. }
  split.
  - intros j b l k Hj Hin. rewrite lookup_delete in Hj. case_decide; [done|].
    destruct (Hr _ _ _ _ Hj Hin) as (b' & Hb & Hk). exists b'. split; [|done].
    rewrite lookup_delete_ne; [done|]. intros <-. exact (Hno _ _ _ Hj Hin).
  - intros j q Hq Hne. apply qp_of_Some in Hq. rewrite lookup_delete in Hq. case_decide; [done|].
    destruct (Hs j q) as (rq & Hrq & ? & ?); [by apply qp_of_Some|done|]. exists rq. split; [|done].
    apply qp_of_Some in Hrq. apply qp_of_Some. rewrite lookup_delete_ne; [done|].
    intros Heq. eapply (Hno j (Qp q) KQp Hq). cbn. rewrite (proj2 (Z.eqb_neq _ _)) by done.
    rewrite Heq. left.
  - intros x t n r Hx Hnr. apply tgts_of_Some in Hx. rewrite lookup_delete in Hx.
    case_decide; [done|]. apply tgts_of_Some in Hx.
    destruct (Ht x t n r Hx Hnr) as (rq & Hrq & ? & ?). exists rq. split; [|done].
    apply qp_of_Some in Hrq. apply qp_of_Some. rewrite lookup_delete_ne; [done|].
    intros ->. by eapply Hu.
Qed.

Lemma cnt_Some h i o : h !! i = Some o -> cnt h i = Some (usecnt o).
Proof. unfold cnt. by intros ->. Qed.

Lemma cnt_inv h i n : cnt h i = Some n -> exists o, h !! i = Some o /\ usecnt o = n.
Proof. unfold cnt. destruct (h !! i); naive_solver. Qed.

Lemma fresh_not_target m i b : m !! i = None -> fresh_body m i b -> count i (targets i b) = 0.
Proof.
  intros Hi Hf. apply count_out. intros ([j k] & -> & Hin)%list_elem_of_fmap.
  destruct (fresh_refs _ _ _ Hf _ _ Hin) as (b' & Hb & _). cbn in *. congruence.
Qed.

Lemma inv_dead e h i : inv e h -> h !! i = None -> e i = 0.
Proof.
  intros Hinv Hi. destruct (decide (e i = 0)) as [|Hne]; [done|].
  destruct (inv_kind _ _ Hinv i Hne) as [Hl|Hl]; apply live_lookup in Hl; rewrite Hi in Hl; by destruct Hl.
Qed.

Lemma inv_create e h h' i b l :
  inv e h -> h !! i = None -> fresh_body (bodies h) i b ->
  upd 1 l (alloc i b h) h' -> same l (targets i b) -> inv e h'.
Proof.
  intros Hinv Hi Hf [Hb Hu] Hl. pose proof (inv_dead e h i Hinv Hi) as Hei.
  destruct Hinv as [Hwf Hc Hpos Hkind].
  assert (Hbi : bodies h !! i = None) by by rewrite bodies_lookup, Hi.
  assert (Hbod : bodies h' = <[i := b]> (bodies h)) by (rewrite Hb; unfold alloc; by rewrite bodies_insert).
  split; [| |done|].
  - rewrite Hbod. by apply wf_insert.
  - intros j o Hj. apply cnt_Some in Hj. rewrite Hu, (Hl j) in Hj.
    rewrite Hbod, nrefs_insert by done. unfold cnt, alloc in Hj. rewrite lookup_insert in Hj.
    case_decide; cbn in Hj.
    + subst. rewrite (nrefs_dead _ _ Hwf Hbi), Hei.
      pose proof (fresh_not_target _ _ _ Hbi Hf). simplify_eq. lia.
    + destruct (h !! j) as [oj|] eqn:Hoj; [|done]. cbn in Hj. rewrite (Hc _ _ Hoj) in Hj.
      simplify_eq. lia.
  - intros j Hj. rewrite Hbod. destruct (Hkind j Hj); [left|right]; by apply live_insert.
Qed.

Lemma inv_unused e h i o :
  inv e h -> h !! i = Some o -> usecnt o = 0 -> nrefs (bodies h) i = 0 /\ e i = 0.
Proof.
  intros [_ Hc Hpos _] Hi Hz. rewrite (Hc _ _ Hi) in Hz.
  pose proof (nrefs_nonneg (bodies h) i). specialize (Hpos i). lia.
Qed.

Lemma inv_destroy e h h' i o l :
  inv e h -> h !! i = Some o -> usecnt o = 0 -> untargeted (bodies h) i ->
  upd (-1) l (delete i h) h' -> same l (targets i (contents o)) -> inv e h'.
Proof.
  intros Hinv Hi Hz Hu [Hb Hup] Hl. destruct (inv_unused _ _ _ _ Hinv Hi Hz) as [Hn He].
  destruct Hinv as [Hwf Hc Hpos Hkind].
  assert (Hbod : bodies h' = delete i (bodies h)) by by rewrite Hb, bodies_delete.
  assert (Hbi : bodies h !! i = Some (contents o)) by by rewrite bodies_lookup, Hi.
  split; [| |done|].
  - rewrite Hbod. by apply wf_delete.
  - intros j oj Hj. apply cnt_Some in Hj. rewrite Hup, (Hl j) in Hj.
    unfold cnt in Hj. rewrite lookup_delete in Hj. case_decide; [done|].
    destruct (h !! j) as [oj'|] eqn:Hoj; [|done]. cbn in Hj. rewrite (Hc _ _ Hoj) in Hj.
    rewrite Hbod. rewrite (nrefs_delete _ _ _ j Hbi) in Hj. simplify_eq. lia.
  - intros j Hj. assert (Hij : i <> j) by congruence. rewrite Hbod.
    destruct (Hkind j Hj) as [(b & Hlb & Hk)|(b & Hlb & Hk)]; [left|right]; exists b;
      by rewrite lookup_delete_ne.
Qed.

(** A count taken or given back on behalf of something outside the heap. *)
Definition shift_ext (i : id) (d : Z) (e : ext_refs) : ext_refs :=
  fun j => if decide (i = j) then e j + d else e j.

Lemma inv_shift e h h' i d :
  inv e h -> live (bodies h) KQp i \/ live (bodies h) KXrcd i -> 0 <= e i + d ->
  upd d [i] h h' -> inv (shift_ext i d e) h'.
Proof.
  intros [Hwf Hc Hpos Hkind] Hi Hd [Hb Hu]. unfold shift_ext. split.
  - by rewrite Hb.
  - intros j o Hj. apply cnt_Some in Hj. rewrite Hu in Hj. unfold cnt in Hj. rewrite Hb.
    destruct (h !! j) as [oj|] eqn:Hoj; [|done]. cbn in Hj. rewrite (Hc _ _ Hoj) in Hj.
    rewrite count_cons, count_nil in Hj. case_decide; simplify_eq; lia.
  - intros j. specialize (Hpos j). case_decide; subst; lia.
  - intros j Hj. rewrite Hb. case_decide; [by subst|by apply Hkind].
Qed.

(** ** Objects that are never counted, or never listed *)

Lemma elem_of_opt j k p k' : (j, k) ∈ opt p k' <-> p = Some j /\ k = k'.
Proof. destruct p; cbn; rewrite ?list_elem_of_singleton; [naive_solver|]. split; [by intros ?%elem_of_nil|naive_solver]. Qed.

Lemma refs_kind i b j k : (j, k) ∈ refs i b -> k <> KAh /\ k <> KMr.
Proof.
  destruct b; cbn; repeat case_match;
    rewrite ?elem_of_app, ?elem_of_cons, ?elem_of_opt, ?elem_of_nil; naive_solver.
Qed.

Lemma uncounted e h i k :
  inv e h -> live (bodies h) k i -> k = KAh \/ k = KMr ->
  exists o, h !! i = Some o /\ usecnt o = 0.
Proof.
  intros Hinv Hl Hk. destruct (live_lookup _ _ _ Hl) as [o Ho]. exists o. split; [done|].
  destruct Hinv as [Hwf Hc _ Hkind]. rewrite (Hc _ _ Ho).
  destruct Hl as (b & Hb & Hbk).
  assert (He : e i = 0).
  { destruct (decide (e i = 0)) as [|Hne]; [done|].
    destruct (Hkind i Hne) as [(b' & Hb' & ?)|(b' & Hb' & ?)]; rewrite Hb in Hb';
      injection Hb' as <-; destruct Hk; congruence. }
  rewrite He. unfold nrefs. rewrite count_out; [done|]. unfold all_refs.
  intros ([j bj] & Hin & Hj)%list_elem_of_bind.
  apply elem_of_map_to_list in Hj. apply list_elem_of_fmap in Hin as ([i' k'] & -> & Hin).
  destruct (wf_refs _ Hwf _ _ _ _ Hj Hin) as (b2 & Hb2 & <-). apply refs_kind in Hin.
  cbn in Hb. rewrite Hb in Hb2. injection Hb2 as <-. destruct Hk; naive_solver.
Qed.

(** Only a queue pair of an XRC domain is listed, in that domain. *)
Lemma untargeted_unless m i :
  wf_bodies m -> (forall q, qp_of m i = Some q -> q.(qp_xrcd) = None) -> untargeted m i.
Proof.
  intros Hwf Hq x t n Ht Hn. destruct (wf_tgts _ Hwf _ _ _ _ Ht Hn) as (rq & Hrq & _ & Hx & _).
  rewrite (Hq _ Hrq) in Hx. done.
Qed.

Lemma untargeted_kind m i k :
  wf_bodies m -> live m k i -> k <> KQp -> untargeted m i.
Proof.
  intros Hwf (b & Hb & Hk) Hne. apply untargeted_unless; [done|].
  intros q Hq. apply qp_of_Some in Hq. rewrite Hb in Hq. injection Hq as ->. by destruct Hne.
Qed.

(** ** Stepping through the counters of an operation *)

Lemma atomic_inc_spec i h :
  is_Some (h !! i) -> exists h', atomic_inc i h = Some h' /\ upd 1 [i] h h'.
Proof. apply atomic_add_spec. Qed.
Lemma atomic_dec_spec i h :
  is_Some (h !! i) -> exists h', atomic_dec i h = Some h' /\ upd (-1) [i] h h'.
Proof. apply atomic_add_spec. Qed.
Lemma inc_if_spec p h :
  (forall i, p = Some i -> is_Some (h !! i)) ->
  exists h', inc_if p h = Some h' /\ upd 1 (option_list p) h h'.
Proof. apply add_if_spec. Qed.
Lemma dec_if_spec p h :
  (forall i, p = Some i -> is_Some (h !! i)) ->
  exists h', dec_if p h = Some h' /\ upd (-1) (option_list p) h h'.
Proof. apply add_if_spec. Qed.

Lemma alloc_live i b h j : is_Some (h !! j) -> is_Some (alloc i b h !! j).
Proof. intros Hj. unfold alloc. rewrite lookup_insert. by case_decide. Qed.

Lemma delete_live i (h : heap) j : i <> j -> is_Some (h !! j) -> is_Some (delete i h !! j).
Proof. intros Hij Hj. by rewrite lookup_delete_ne. Qed.

Create HintDb vo.
#[export] Hint Resolve upd_live alloc_live live_lookup : vo.

(** The next counter operation of the goal succeeds. *)
Ltac step_count :=
  let go E U := (rewrite E; cbn [mbind option_bind]) in
  let E := fresh "E" in let U := fresh "U" in let h' := fresh "h" in
  match goal with
  | |- context [inc_if ?p ?h] => destruct (inc_if_spec p h) as (h' & E & U); [|go E U]
  | |- context [dec_if ?p ?h] => destruct (dec_if_spec p h) as (h' & E & U); [|go E U]
  | |- context [atomic_inc ?p ?h] => destruct (atomic_inc_spec p h) as (h' & E & U); [|go E U]
  | |- context [atomic_dec ?p ?h] => destruct (atomic_dec_spec p h) as (h' & E & U); [|go E U]
  end; [intros; simplify_eq; eauto 10 with vo|].

Ltac step_counts := repeat (cbn [mbind option_bind]; step_count); cbn [mbind option_bind].

(** Combine the counter changes met so far. *)
Ltac merge_counts :=
  repeat match goal with
  | U1 : upd ?d ?l1 ?a ?b, U2 : upd ?d ?l2 ?b ?c |- _ =>
      let U := fresh "U" in pose proof (upd_trans _ _ _ _ _ _ U1 U2) as U; clear U1 U2
  end.

Lemma count_targets_app i (l1 l2 : list (id * kind)) : count i (l1 ++ l2).*1 = count i l1.*1 + count i l2.*1.
Proof. by rewrite fmap_app, count_app. Qed.

Lemma count_targets_cons i j k (l : list (id * kind)) :
  count i ((j, k) :: l).*1 = (if decide (j = i) then 1 else 0) + count i l.*1.
Proof. apply count_cons. Qed.

Lemma count_opt i p k : count i (opt p k).*1 = count i (option_list p).
Proof. by destruct p. Qed.

(** The references counted are those of the object. *)
Ltac same_refs :=
  intros ?i; unfold targets; cbn [refs contents ib_srq_has_cq is_xrc_srq];
  rewrite ?count_targets_app, ?count_targets_cons, ?count_opt, ?count_app; cbn [fmap list_fmap fst option_list];
  rewrite ?count_cons, ?count_nil; lia.

(** ** The contract of the callers *)

(** A handle a caller may hold: a queue pair that is not the hidden real one of
    an XRC domain. *)
Definition qp_handle (m : gmap Z body) (i : id) : Prop :=
  exists q, qp_of m i = Some q /\ (q.(real_qp) = i -> q.(qp_xrcd) = None).

Definition opt_live (m : gmap Z body) (k : kind) (p : option id) : Prop :=
  forall i, p = Some i -> live m k i.

Definition attr_ok (m : gmap Z body) (attr : ib_qp_init_attr) : Prop :=
  opt_live m KCq attr.(ia_send_cq) /\ opt_live m KCq attr.(ia_recv_cq) /\
  opt_live m KSrq attr.(ia_srq) /\ opt_live m KExt attr.(ia_rwq_ind_tbl).

(** New objects come from fresh memory, handles given are live and of the right
    kind, and a protection domain is freed by its last user. *)
Definition args_ok (o : op) (e : ext_refs) (h : heap) : Prop :=
  let m := bodies h in
  match o with
  | OpAllocPd i _ _ _ _ _ | OpCreateCq i _ _ | OpAllocXrcd i _ _ _ | OpExt i => h !! i = None
  | OpDeallocPd pd _ => live m KPd pd /\ cnt h pd = Some 0
  | OpCreateAh ah pd sgid _ _ _ _ => h !! ah = None /\ live m KPd pd /\ opt_live m KExt sgid
  | OpDestroyAh ah _ => live m KAh ah
  | OpCreateSrq srq pd t cq xrcd _ _ =>
      h !! srq = None /\ live m KPd pd /\ (ib_srq_has_cq t = true -> live m KCq cq) /\
      opt_live m KXrcd xrcd
  | OpDestroySrq srq _ => live m KSrq srq
  | OpCreateQpUser qp handle pd attr _ _ _ _ _ =>
      h !! qp = None /\ h !! handle = None /\ qp <> handle /\ opt_live m KPd pd /\
      attr_ok m attr /\
      (attr.(ia_type) = IB_QPT_XRC_TGT ->
         attr.(ia_rwq_ind_tbl) = None /\ exists x, attr.(ia_xrcd) = Some x /\ live m KXrcd x)
  | OpCreateQpKernel qp pd attr _ _ _ _ => h !! qp = None /\ live m KPd pd /\ attr_ok m attr
  | OpOpenQp qp xrcd _ _ _ _ => h !! qp = None /\ live m KXrcd xrcd
  | OpCloseQp qp => qp_handle m qp /\ cnt h qp = Some 0
  | OpDestroyQp qp _ => qp_handle m qp
  | OpDestroyCq cq _ => live m KCq cq
  | OpRegMr mr pd _ _ | OpAllocMr mr pd _ _ _ | OpAllocMrIntegrity mr pd _ _ _ _ =>
      h !! mr = None /\ live m KPd pd
  | OpDeregMr mr _ => live m KMr mr
  | OpDeallocXrcd xrcd _ => live m KXrcd xrcd
  | OpCreateWq wq pd cq _ _ => h !! wq = None /\ live m KPd pd /\ live m KCq cq
  | OpDestroyWq wq _ => live m KWq wq
  | OpAttachMcast qp _ _ _ => live m KQp qp
  | OpDetachMcast qp _ _ ret => live m KQp qp /\ (ret = 0 -> 0 < e qp)
  end.

(** [create_qp] succeeds. *)
Definition create_ok (env : create_env) : bool :=
  negb env.(no_create_qp) && negb env.(qp_nomem) && negb (failed env.(create_ret)) &&
  negb (failed env.(security_ret)).

(** The XRC domain count that a failed creation does not give back. *)
Definition xrc_leak (attr : ib_qp_init_attr) (env : create_env) (destroy_ret : Z) : bool :=
  (attr.(ia_type) =? IB_QPT_XRC_TGT) && create_ok env && negb (failed destroy_ret).

(** References outside the heap after an operation that returned [ret]. *)
Definition ext_after (o : op) (ret : Z) (e : ext_refs) : ext_refs :=
  match o with
  | OpAttachMcast qp _ _ _ => if failed ret then e else shift_ext qp 1 e
  | OpDetachMcast qp _ _ _ => if failed ret then e else shift_ext qp (-1) e
  | OpCreateQpUser _ _ _ attr env _ _ _ dret =>
      match attr.(ia_xrcd) with
      | Some x => if failed ret && xrc_leak attr env dret then shift_ext x 1 e else e
      | None => e
      end
  | _ => e
  end.

Section ops.
Variables (e : ext_refs) (h : heap).
Hypothesis Hinv : inv e h.

(** The operation runs without touching freed memory and keeps the invariant. *)
Definition runs (r : option (Z * heap)) : Prop := exists ret h', r = Some (ret, h') /\ inv e h'.

Lemma runs_ret ret h' : inv e h' -> runs (Some (ret, h')).
Proof. intros. by exists ret, h'. Qed.

Lemma live_get k i : live (bodies h) k i ->
exists o, h !! i = Some o /\ kind_of (contents o) = k.
Proof.
intros (b & Hb & Hk). rewrite bodies_lookup in Hb. destruct (h !! i) as [o|]; [|done].
exists o. split; [done|]. by injection Hb as <-.
Qed.

Lemma create_plain i b :
h !! i = None -> refs i b = [] -> (forall q, b <> Qp q) -> (forall t, b = Xrcd t -> t = ∅) ->
inv e (alloc i b h).
Proof.
intros Hi Hr Hq Ht. eapply inv_create; [exact Hinv|exact Hi| |apply upd_nil|].
- split; [by rewrite Hr; intros ?? ?%elem_of_nil|by intros q ->; destruct (Hq q)|done].
- intros j. unfold targets. by rewrite Hr.
Qed.

Lemma create_cq_ok cq nomem ret : h !! cq = None -> runs (__ib_create_cq cq nomem ret h).
Proof.
intros Hi. unfold __ib_create_cq. repeat case_test; apply runs_ret;
  [done|by rewrite kfree_alloc|by apply create_plain].
Qed.

Lemma alloc_xrcd_ok xrcd no_op nomem ret :
h !! xrcd = None -> runs (ib_alloc_xrcd_user xrcd no_op nomem ret h).
Proof.
intros Hi. unfold ib_alloc_xrcd_user. repeat case_test; apply runs_ret;
  [done|done|by rewrite kfree_alloc|apply create_plain; naive_solver].
Qed.

(** Freeing an object nobody holds. *)
Lemma destroy_plain i k o :
live (bodies h) k i -> k <> KQp -> h !! i = Some o -> usecnt o = 0 -> refs i (contents o) = [] ->
inv e (kfree i h).
Proof.
intros Hl Hk Ho Hz Hr. eapply inv_destroy; [exact Hinv|exact Ho|done| |apply upd_nil|].
- eapply untargeted_kind; [apply Hinv|done|done].
- intros j. unfold targets. by rewrite Hr.
Qed.

Lemma destroy_cq_ok cq ret : live (bodies h) KCq cq -> runs (ib_destroy_cq_user cq ret h).
Proof.
intros Hl. destruct (live_get _ _ Hl) as (o & Ho & Hk). destruct o as [n b].
destruct b; try done. unfold ib_destroy_cq_user, get_body, atomic_read. rewrite Ho. cbn.
destruct shared; [by apply runs_ret|].
repeat case_test; apply runs_ret; [done..|].
eapply destroy_plain; [exact Hl|done|exact Ho| |done]. by apply c_true_false.
Qed.

(** Creating an object that references only other live objects. *)
Ltac created Hi :=
merge_counts; apply runs_ret; eapply inv_create; [exact Hinv|exact Hi| |eassumption|same_refs];
split; [|try done|try done].

Lemma create_ah_ok ah pd sgid user no_op nomem ret :
h !! ah = None -> live (bodies h) KPd pd -> opt_live (bodies h) KExt sgid ->
runs (_rdma_create_ah ah pd sgid user no_op nomem ret h).
Proof.
intros Hi Hpd Hs. unfold _rdma_create_ah. do 2 (case_test; [by apply runs_ret|]).
step_count. case_test.
- step_count. apply runs_ret. erewrite upd_restore; [exact Hinv|exact Hi|eassumption|eassumption|].
  by intros j.
- step_count. created Hi. intros j k. cbn.
  rewrite elem_of_app, elem_of_opt, list_elem_of_singleton. naive_solver.
Qed.

Lemma ref_live i o j : h !! i = Some o -> j ∈ targets i (contents o) -> is_Some (h !! j).
Proof.
intros Hi ([j' k] & -> & Hin)%list_elem_of_fmap. cbn.
eapply live_lookup, (wf_refs _ (inv_wf _ _ Hinv)); [|exact Hin]. by rewrite bodies_lookup, Hi.
Qed.

(** Destroying an object of a kind other than queue pairs. *)
Lemma destroyed i k o l h' :
live (bodies h) k i -> k <> KQp -> h !! i = Some o -> usecnt o = 0 ->
upd (-1) l (delete i h) h' -> same l (targets i (contents o)) -> inv e h'.
Proof.
intros Hl Hk Ho Hz Hu Hs. eapply inv_destroy; [exact Hinv|exact Ho|exact Hz| |exact Hu|exact Hs].
eapply untargeted_kind; [apply Hinv|exact Hl|exact Hk].
Qed.

(** The references of the object being destroyed are live. *)
Ltac own_refs Ho :=
repeat match goal with
| |- forall _, _ = Some _ -> _ => intros ? ->
end;
eapply (ref_live _ _ _ Ho); unfold targets; cbn [refs contents];
repeat match goal with H : ?b = true |- context [if ?b then _ else _] => rewrite H end;
cbn; rewrite ?fmap_app, ?elem_of_app, ?elem_of_cons; cbn; rewrite ?elem_of_cons; tauto.

Lemma destroy_ah_ok ah ret : live (bodies h) KAh ah -> runs (rdma_destroy_ah_user ah ret h).
Proof.
intros Hl. destruct (uncounted _ _ _ _ Hinv Hl) as (o & Ho & Hz); [by left|].
destruct (live_get _ _ Hl) as (o' & Ho' & Hk). rewrite Ho in Ho'. injection Ho' as <-.
destruct o as [n b]. destruct b; try done. unfold rdma_destroy_ah_user, get_body. rewrite Ho. cbn.
case_test; [by apply runs_ret|].
assert (Hpd : is_Some (h !! pd)) by own_refs Ho.
assert (Hsg : forall j, sgid_attr = Some j -> is_Some (h !! j)) by own_refs Ho.
step_count. step_count. merge_counts. apply runs_ret.
eapply destroyed; [exact Hl|done|exact Ho|exact Hz|apply upd_delete; eassumption|same_refs].
Qed.

Lemma create_srq_ok srq pd t cq xrcd nomem ret :
h !! srq = None -> live (bodies h) KPd pd ->
(ib_srq_has_cq t = true -> live (bodies h) KCq cq) ->
opt_live (bodies h) KXrcd xrcd -> runs (ib_create_srq_user srq pd t cq xrcd nomem ret h).
Proof.
intros Hi Hpd Hcq Hx. unfold ib_create_srq_user. case_test; [by apply runs_ret|].
set (b := Srq t pd (if ib_srq_has_cq t then Some cq else None) (if is_xrc_srq t then xrcd else None)).
assert (Hfresh : fresh_body (bodies h) srq b).
{ split; [|done..]. intros j k. destruct t; cbn;
    rewrite ?elem_of_cons, ?elem_of_app, ?elem_of_opt, ?elem_of_cons, ?elem_of_nil; naive_solver. }
destruct t; cbn [ib_srq_has_cq is_xrc_srq] in *; (specialize (Hcq eq_refl) || clear Hcq);
  step_counts;
  (case_test; [step_counts; merge_counts; apply runs_ret;
    erewrite upd_restore; [exact Hinv|exact Hi|eassumption|eassumption|same_refs]|]);
  merge_counts; apply runs_ret; (eapply inv_create; [exact Hinv|exact Hi|exact Hfresh|eassumption|unfold b; same_refs]).
Qed.

Lemma destroy_srq_ok srq ret : live (bodies h) KSrq srq -> runs (ib_destroy_srq_user srq ret h).
Proof.
intros Hl. destruct (live_get _ _ Hl) as (o & Ho & Hk). destruct o as [n b]. destruct b; try done.
unfold ib_destroy_srq_user, get_body, atomic_read. rewrite Ho. cbn.
destruct (c_true n) eqn:Hn; [by apply runs_ret|]. apply c_true_false in Hn.
case_test; [by apply runs_ret|].
assert (Hpd : is_Some (h !! pd)) by own_refs Ho.
assert (Hcq : ib_srq_has_cq srq_type = true -> forall j, cq = Some j -> is_Some (h !! j))
  by (intros Hc; own_refs Ho).
assert (Hx : is_xrc_srq srq_type = true -> forall j, xrcd = Some j -> is_Some (h !! j))
  by (intros Hc; own_refs Ho).
destruct srq_type; cbn [ib_srq_has_cq is_xrc_srq] in *;
  (specialize (Hcq eq_refl) || clear Hcq); (specialize (Hx eq_refl) || clear Hx);
  step_counts; merge_counts; apply runs_ret;
  (eapply destroyed; [exact Hl|done|exact Ho|exact Hn|apply upd_delete; eassumption|same_refs]).
Qed.

Lemma create_mr_ok mr pd :
h !! mr = None -> live (bodies h) KPd pd ->
runs (h ← atomic_inc pd (alloc mr (Mr pd None) h); Some (0, h)).
Proof.
intros Hi Hpd. step_count. created Hi. intros j k. cbn. rewrite list_elem_of_singleton. naive_solver.
Qed.

Lemma dereg_mr_ok mr ret : live (bodies h) KMr mr -> runs (ib_dereg_mr_user mr ret h).
Proof.
intros Hl. destruct (uncounted _ _ _ _ Hinv Hl) as (o & Ho & Hz); [by right|].
destruct (live_get _ _ Hl) as (o' & Ho' & Hk). rewrite Ho in Ho'. injection Ho' as <-.
destruct o as [n b]. destruct b; try done. unfold ib_dereg_mr_user, get_body. rewrite Ho. cbn.
case_test; [by apply runs_ret|].
assert (Hself : forall j, j ∈ targets mr (Mr pd dm) -> is_Some (delete mr h !! j)).
{ intros j Hj. apply delete_live; [|by eapply ref_live].
  intros <-. pose proof (nrefs_in (bodies h) mr (Mr pd dm) mr) as Hn.
  rewrite bodies_lookup, Ho in Hn. specialize (Hn eq_refl Hj).
  destruct (inv_unused _ _ _ _ Hinv Ho Hz) as [Hn0 _]. lia. }
assert (Hpd : is_Some (delete mr h !! pd)) by (apply Hself; left).
assert (Hdm : forall j, dm = Some j -> is_Some (delete mr h !! j))
  by (intros j ->; apply Hself; right; left).
unfold kfree. step_count. step_count. merge_counts. apply runs_ret.
eapply destroyed; [exact Hl|done|exact Ho|exact Hz|eassumption|same_refs].
Qed.

Lemma create_wq_ok wq pd cq no_op ret :
h !! wq = None -> live (bodies h) KPd pd -> live (bodies h) KCq cq ->
runs (ib_create_wq wq pd cq no_op ret h).
Proof.
intros Hi Hpd Hcq. unfold ib_create_wq. do 2 (case_test; [by apply runs_ret|]).
step_count. step_count. created Hi. intros j k. cbn.
rewrite !elem_of_cons, elem_of_nil. naive_solver.
Qed.

Lemma destroy_wq_ok wq ret : live (bodies h) KWq wq -> runs (ib_destroy_wq_user wq ret h).
Proof.
intros Hl. destruct (live_get _ _ Hl) as (o & Ho & Hk). destruct o as [n b]. destruct b; try done.
unfold ib_destroy_wq_user, get_body, atomic_read. rewrite Ho. cbn.
destruct (c_true n) eqn:Hn; [by apply runs_ret|]. apply c_true_false in Hn.
case_test; [by apply runs_ret|].
assert (Hself : forall j, j ∈ targets wq (Wq pd cq) -> is_Some (delete wq h !! j)).
{ intros j Hj. apply delete_live; [|by eapply ref_live].
  intros <-. pose proof (nrefs_in (bodies h) wq (Wq pd cq) wq) as Hr.
  rewrite bodies_lookup, Ho in Hr. specialize (Hr eq_refl Hj).
  destruct (inv_unused _ _ _ _ Hinv Ho Hn) as [Hn0 _]. lia. }
assert (Hpd : is_Some (delete wq h !! pd)) by (apply Hself; left).
assert (Hcq : is_Some (delete wq h !! cq)) by (apply Hself; right; left).
unfold kfree. step_count. step_count. merge_counts. apply runs_ret.
eapply destroyed; [exact Hl|done|exact Ho|exact Hn|eassumption|same_refs].
Qed.
End ops.

(** ** Changing an object in place *)

Lemma wf_set m i b b' :
  wf_bodies m -> m !! i = Some b -> kind_of b' = kind_of b -> kind_of b <> KQp -> refs i b' = [] ->
  (forall t n r, b' = Xrcd t -> t !! n = Some r ->
     exists rq, qp_of m r = Some rq /\ rq.(real_qp) = r /\ rq.(qp_xrcd) = Some i /\ rq.(qp_num) = n) ->
  wf_bodies (<[i := b']> m).
Proof.
  intros [Hr Hs Ht] Hi Hk Hnq Href Htg.
  assert (Hlive : forall k j, live m k j -> live (<[i := b']> m) k j).
  { intros k j (bj & Hj & Hkj). destruct (decide (i = j)) as [<-|Hij].
    - exists b'. rewrite lookup_insert_eq. split; [done|]. congruence.
    - exists bj. by rewrite lookup_insert_ne. }
  assert (Hqp : forall j, qp_of (<[i := b']> m) j = qp_of m j).
  { intros j. rewrite qp_of_insert. case_decide; [|done]. subst. unfold qp_of. rewrite Hi.
    destruct b, b'; done. }
  split.
  - intros j bj l k Hj Hin. apply Hlive. rewrite lookup_insert in Hj. case_decide; [|by eapply Hr].
    simplify_eq. rewrite Href in Hin. by apply elem_of_nil in Hin.
  - intros j q. rewrite Hqp. intros Hq Hne. destruct (Hs j q Hq Hne) as (rq & ? & ?).
    exists rq. by rewrite Hqp.
  - intros x t n r Hx Hn. rewrite tgts_of_insert in Hx.
    assert (Hex : exists rq, qp_of m r = Some rq /\ rq.(real_qp) = r /\ rq.(qp_xrcd) = Some x /\
      rq.(qp_num) = n).
    { case_decide; [|by eapply Ht]. subst. destruct b'; try done. injection Hx as ->. by eapply Htg. }
    destruct Hex as (rq & ? & ?). exists rq. by rewrite Hqp.
Qed.

Lemma inv_set e h i o b' :
  inv e h -> h !! i = Some o -> kind_of b' = kind_of (contents o) -> kind_of (contents o) <> KQp ->
  refs i (contents o) = [] -> refs i b' = [] ->
  (forall t n r, b' = Xrcd t -> t !! n = Some r ->
     exists rq, qp_of (bodies h) r = Some rq /\ rq.(real_qp) = r /\ rq.(qp_xrcd) = Some i /\
       rq.(qp_num) = n) ->
  inv e (<[i := mk_obj (usecnt o) b']> h).
Proof.
  intros [Hwf Hc Hpos Hkind] Hi Hk Hnq Hr Hr' Ht.
  assert (Hbi : bodies h !! i = Some (contents o)) by by rewrite bodies_lookup, Hi.
  split; [| |done|].
  - rewrite bodies_insert. cbn. by eapply wf_set.
  - intros j oj Hj. rewrite bodies_insert. cbn [contents].
    rewrite (nrefs_replace _ _ _ _ _ Hbi). unfold targets. rewrite Hr, Hr'. cbn.
    rewrite count_nil. rewrite lookup_insert in Hj. case_decide.
    + simplify_eq. cbn. rewrite (Hc _ _ Hi). lia.
    + rewrite (Hc _ _ Hj). lia.
  - intros j Hj. rewrite bodies_insert. cbn.
    assert (Hlive : forall k, live (bodies h) k j -> live (<[i := b']> (bodies h)) k j).
    { intros k (bj & Hbj & Hkj). destruct (decide (i = j)) as [<-|Hij].
      - exists b'. rewrite lookup_insert_eq. split; [done|]. congruence.
      - exists bj. by rewrite lookup_insert_ne. }
    destruct (Hkind j Hj); [left|right]; by apply Hlive.
Qed.

Lemma set_body_eq i b h o : h !! i = Some o -> set_body i b h = Some (<[i := mk_obj o.(usecnt) b]> h).
Proof. unfold set_body. by intros ->. Qed.

(** ** Protection domains and multicast attachments *)

Lemma dealloc_pd_ok e h pd ret :
  inv e h -> live (bodies h) KPd pd -> cnt h pd = Some 0 -> runs e (ib_dealloc_pd_user pd ret h).
Proof.
  intros Hinv Hl Hz. destruct (live_get _ _ _ Hl) as (o & Ho & Hk). destruct o as [n b].
  destruct b as [mr| | | | | | | |]; try done. apply cnt_Some in Ho as Hn. rewrite Hz in Hn.
  injection Hn as <-. unfold ib_dealloc_pd_user, get_body. rewrite Ho. cbn [fmap option_fmap option_map contents mbind option_bind].
  assert (Hset : forall h', inv e h' -> h' !! pd = Some (mk_obj 0 (Pd false)) ->
    runs e (if failed ret then Some (ret, h') else Some (ret, kfree pd h'))).
  { intros h' Hi' Ho'. case_test; apply runs_ret; [done|].
    eapply destroy_plain with (k := KPd); [exact Hi'| |done|exact Ho'|done|done].
    exists (Pd false). by rewrite bodies_lookup, Ho'. }
  destruct mr.
  - rewrite (set_body_eq _ _ _ _ Ho). cbn [mbind option_bind usecnt]. apply Hset.
    + apply (inv_set e h pd _ (Pd false) Hinv Ho); done.
    + apply lookup_insert_eq.
  - cbn [mbind option_bind]. by apply Hset.
Qed.

Lemma alloc_pd_ok e h pd nomem ret want mr_ret dret :
  inv e h -> h !! pd = None -> runs e (__ib_alloc_pd pd nomem ret want mr_ret dret h).
Proof.
  intros Hinv Hi. unfold __ib_alloc_pd. case_test; [by apply runs_ret|].
  case_test; [apply runs_ret; by rewrite kfree_alloc|].
  assert (Hinv' : inv e (alloc pd (Pd false) h)) by by apply create_plain.
  assert (Ho : alloc pd (Pd false) h !! pd = Some (mk_obj 0 (Pd false))) by apply lookup_insert_eq.
  case_test; [|by apply runs_ret]. case_test.
  - destruct (dealloc_pd_ok e (alloc pd (Pd false) h) pd dret) as (r & h' & -> & Hinv2).
    + done.
    + exists (Pd false). by rewrite bodies_lookup, Ho.
    + by rewrite (cnt_Some _ _ _ Ho).
    + by apply runs_ret.
  - rewrite (set_body_eq _ _ _ _ Ho). cbn [mbind option_bind]. apply runs_ret.
    by apply (inv_set e _ pd _ (Pd true) Hinv' Ho).
Qed.

Lemma get_qp_of h i q : get_qp i h = Some q <-> qp_of (bodies h) i = Some q.
Proof. unfold get_qp, get_body, qp_of. by rewrite bodies_lookup. Qed.

Lemma live_qp m i : live m KQp i <-> exists q, qp_of m i = Some q.
Proof.
  split.
  - intros (b & Hb & Hk). destruct b; try done. exists qp. by apply qp_of_Some.
  - intros (q & Hq). exists (Qp q). split; [by apply qp_of_Some|done].
Qed.

Lemma attach_ok e h qp no_op ok ret :
  inv e h -> live (bodies h) KQp qp ->
  exists r h', ib_attach_mcast qp no_op ok ret h = Some (r, h') /\
    inv (if failed r then e else shift_ext qp 1 e) h'.
Proof.
  intros Hinv Hl. unfold ib_attach_mcast. case_test; [by exists (- EOPNOTSUPP), h|].
  pose proof (proj1 (live_qp _ _) Hl) as (q & Hq). apply get_qp_of in Hq as ->. cbn [mbind option_bind].
  case_test; [by exists (- EINVAL), h|]. destruct (failed ret) eqn:Hf; cbn [negb].
  - exists ret, h. by rewrite Hf.
  - step_count. exists ret, h0. split; [done|]. rewrite Hf. eapply inv_shift; eauto.
    pose proof (inv_ext _ _ Hinv qp). lia.
Qed.

Lemma detach_ok e h qp no_op ok ret :
  inv e h -> live (bodies h) KQp qp -> (ret = 0 -> 0 < e qp) ->
  exists r h', ib_detach_mcast qp no_op ok ret h = Some (r, h') /\
    inv (if failed r then e else shift_ext qp (-1) e) h'.
Proof.
  intros Hinv Hl He. unfold ib_detach_mcast. case_test; [by exists (- EOPNOTSUPP), h|].
  pose proof (proj1 (live_qp _ _) Hl) as (q & Hq). apply get_qp_of in Hq as ->. cbn [mbind option_bind].
  case_test; [by exists (- EINVAL), h|]. destruct (failed ret) eqn:Hf; cbn [negb].
  - exists ret, h. by rewrite Hf.
  - step_count. exists ret, h0. split; [done|]. rewrite Hf. eapply inv_shift; eauto.
    unfold failed in Hf. lia.
Qed.

(** ** Queue pairs *)

(** Optional counters changed one after the other. *)
Fixpoint add_all (d : Z) (ps : list (option id)) (h : heap) : option heap :=
  match ps with
  | [] => Some h
  | p :: ps =>
      h ← match p with Some i => atomic_add d i h | None => Some h end; add_all d ps h
  end.

Definition somes (ps : list (option id)) : list id := ps ≫= option_list.

Lemma add_all_spec d ps : forall h,
  (forall i, Some i ∈ ps -> is_Some (h !! i)) ->
  exists h', add_all d ps h = Some h' /\ upd d (somes ps) h h'.
Proof.
  induction ps as [|p ps IH]; intros h Hl; cbn [add_all]; [exists h; split; [done|apply upd_nil]|].
  destruct (add_if_spec d p h) as (h1 & -> & U1); [intros i ->; apply Hl; left|].
  cbn [mbind option_bind]. destruct (IH h1) as (h2 & E & U2).
  - intros i Hi. eapply upd_live; [exact U1|]. apply Hl. by right.
  - exists h2. split; [exact E|]. eapply upd_trans; eassumption.
Qed.

(** The objects [ib_qp_usecnt_inc] counts. *)
Definition qp_deps (q : ib_qp) : list (option id) :=
  [q.(qp_pd); q.(qp_send_cq); q.(qp_recv_cq); q.(qp_srq); q.(qp_rwq_ind_tbl)].

Lemma bind_Some_r (m : option heap) : (m ≫= fun h => Some h) = m.
Proof. by destruct m. Qed.

Lemma ib_qp_usecnt_inc_all qp q h :
  get_qp qp h = Some q -> ib_qp_usecnt_inc qp h = add_all 1 (qp_deps q) h.
Proof.
  intros Hq. unfold ib_qp_usecnt_inc. rewrite Hq. cbn [mbind option_bind add_all qp_deps].
  do 4 (apply option_bind_ext_fun; intros ?). symmetry. apply bind_Some_r.
Qed.

Lemma ib_qp_usecnt_dec_all qp q h :
  get_qp qp h = Some q -> ib_qp_usecnt_dec qp h = add_all (-1) (reverse (qp_deps q)) h.
Proof.
  intros Hq. unfold ib_qp_usecnt_dec. rewrite Hq. cbn [mbind option_bind].
  change (reverse (qp_deps q)) with
    [q.(qp_rwq_ind_tbl); q.(qp_srq); q.(qp_recv_cq); q.(qp_send_cq); q.(qp_pd)].
  cbn [add_all]. do 4 (apply option_bind_ext_fun; intros ?). symmetry. apply bind_Some_r.
Qed.

Lemma somes_reverse ps : same (somes (reverse ps)) (somes ps).
Proof. intros i. apply count_perm. unfold somes. by rewrite reverse_Permutation. Qed.

(** A real queue pair references its dependencies and its XRC domain. *)
Lemma targets_real qp q :
  q.(real_qp) = qp -> same (somes (qp_deps q) ++ option_list q.(qp_xrcd)) (targets qp (Qp q)).
Proof.
  intros Hr i. unfold targets. cbn [refs]. rewrite (proj2 (Z.eqb_eq _ _) Hr).
  rewrite !count_targets_app, !count_opt. unfold somes, qp_deps. cbn [mbind list_bind].
  rewrite !count_app, count_nil. lia.
Qed.

Lemma dep_ref qp q i :
  q.(real_qp) = qp -> Some i ∈ qp_deps q -> exists k, (i, k) ∈ refs qp (Qp q).
Proof.
  intros Hr Hi. cbn [refs]. rewrite (proj2 (Z.eqb_eq _ _) Hr). unfold qp_deps in Hi.
  rewrite !elem_of_cons, elem_of_nil in Hi.
  destruct Hi as [Hi|[Hi|[Hi|[Hi|[Hi|[]]]]]]; symmetry in Hi;
    [exists KPd|exists KCq|exists KCq|exists KSrq|exists KExt];
    rewrite !elem_of_app, !elem_of_opt; tauto.
Qed.

(** A new real queue pair outside XRC, with its counts taken. *)
Lemma created_qp e h qp q :
  inv e h -> h !! qp = None -> q.(real_qp) = qp -> q.(qp_xrcd) = None ->
  (forall j k, (j, k) ∈ refs qp (Qp q) -> live (bodies h) k j) ->
  exists h', ib_qp_usecnt_inc qp (alloc qp (Qp q) h) = Some h' /\ inv e h' /\
    upd 1 (somes (qp_deps q)) (alloc qp (Qp q) h) h' /\ h' !! qp = Some (mk_obj 0 (Qp q)).
Proof.
  intros Hinv Hi Hr Hx Hl.
  assert (Hq : get_qp qp (alloc qp (Qp q) h) = Some q).
  { unfold get_qp, get_body, alloc. by rewrite lookup_insert_eq. }
  destruct (add_all_spec 1 (qp_deps q) (alloc qp (Qp q) h)) as (h' & E & U).
  { intros i Hd. destruct (dep_ref qp q i Hr Hd) as (k & Hk). eapply alloc_live, live_lookup, Hl, Hk. }
  assert (Hf : fresh_body (bodies h) qp (Qp q)) by (split; [exact Hl|naive_solver|done]).
  pose proof (targets_real qp q Hr) as Ht. rewrite Hx in Ht. cbn [option_list] in Ht. rewrite app_nil_r in Ht.
  exists h'. rewrite (ib_qp_usecnt_inc_all _ _ _ Hq). split; [exact E|].
  split; [eapply inv_create; eassumption|]. split; [exact U|].
  destruct U as [Hb Hc]. specialize (Hc qp). rewrite (Ht qp) in Hc.
  rewrite (fresh_not_target (bodies h) qp (Qp q)) in Hc by (done || by rewrite bodies_lookup, Hi).
  unfold cnt, alloc in Hc. rewrite lookup_insert_eq in Hc. cbn in Hc.
  assert (Hbq : bodies h' !! qp = Some (Qp q)).
  { rewrite Hb. unfold alloc. by rewrite bodies_insert, lookup_insert_eq. }
  rewrite bodies_lookup in Hbq. destruct (h' !! qp) as [[n b]|]; [|done]. cbn in Hc, Hbq. injection Hc as ->. by injection Hbq as ->.
Qed.

(** What destroying a real queue pair leaves counted: its XRC domain. *)
Definition keep_xrcd (p : option id) (e : ext_refs) : ext_refs :=
  match p with Some x => shift_ext x 1 e | None => e end.

Lemma upd_flip d l h h' : upd d l h h' -> upd (- d) l h' h.
Proof.
  intros [Hb Hc]. split; [done|]. intros i. rewrite Hc. destruct (cnt h i); cbn; f_equal. lia.
Qed.

Lemma inv_ext_eq e e' h : (forall i, e i = e' i) -> inv e h -> inv e' h.
Proof.
  intros He [Hwf Hc Hp Hk]. split; [done| | |].
  - intros i o Ho. rewrite <- He. by apply Hc.
  - intros i. rewrite <- He. apply Hp.
  - intros i. rewrite <- He. apply Hk.
Qed.

Lemma not_own_target e h i o :
  inv e h -> h !! i = Some o -> usecnt o = 0 -> i ∉ targets i (contents o).
Proof.
  intros Hinv Ho Hz Hin. destruct (inv_unused _ _ _ _ Hinv Ho Hz) as [Hn _].
  pose proof (nrefs_in (bodies h) i (contents o) i) as Hp. rewrite bodies_lookup, Ho in Hp.
  specialize (Hp eq_refl Hin). lia.
Qed.

Lemma destroy_real_ok e h qp q ret :
  inv e h -> h !! qp = Some (mk_obj 0 (Qp q)) -> q.(real_qp) = qp -> untargeted (bodies h) qp ->
  exists h', destroy_real_qp qp ret h = Some (ret, h') /\
    (if failed ret then h' = h
     else inv (keep_xrcd q.(qp_xrcd) e) h' /\ bodies h' = delete qp (bodies h)).
Proof.
  intros Hinv Ho Hr Hu. unfold destroy_real_qp, atomic_read. rewrite Ho. cbn [fmap option_fmap option_map usecnt mbind option_bind].
  cbn [c_true negb Z.eqb]. destruct (failed ret) eqn:Hf; [by exists h|].
  assert (Hq : get_qp qp h = Some q) by (unfold get_qp, get_body; by rewrite Ho).
  assert (Hbq : bodies h !! qp = Some (Qp q)) by by rewrite bodies_lookup, Ho.
  destruct (add_all_spec (-1) (reverse (qp_deps q)) h) as (h1 & E & U).
  { intros i Hd. destruct (dep_ref qp q i Hr) as (k & Hk); [by rewrite elem_of_reverse in Hd|].
    eapply live_lookup, (wf_refs _ (inv_wf _ _ Hinv)); eassumption. }
  rewrite (ib_qp_usecnt_dec_all _ _ _ Hq), E. cbn [mbind option_bind].
  exists (kfree qp h1). split; [done|].
  assert (Hb : bodies (delete qp h1) = delete qp (bodies h)).
  { rewrite bodies_delete. by rewrite (proj1 U). }
  split; [|exact Hb]. apply (upd_delete _ _ _ _ qp) in U. unfold kfree.
  pose proof (targets_real qp q Hr) as Ht.
  destruct (qp_xrcd q) as [x|] eqn:Hx; cbn [option_list keep_xrcd] in *.
  - assert (Hxl : live (bodies h) KXrcd x).
    { eapply (wf_refs _ (inv_wf _ _ Hinv) qp (Qp q)); [done|]. cbn [refs].
      rewrite (proj2 (Z.eqb_eq _ _) Hr), Hx, !elem_of_app. do 5 right. left. }
    assert (Hne : qp <> x).
    { intros <-. destruct Hxl as (b & Hb' & Hk). rewrite Hbq in Hb'. by injection Hb' as <-. }
    assert (Hxd : forall h', bodies h' = delete qp (bodies h) -> live (bodies h') KXrcd x).
    { intros h' ->. destruct Hxl as (b & Hb' & Hk). exists b. by rewrite lookup_delete_ne. }
    destruct (atomic_dec_spec x (delete qp h1)) as (h2 & _ & U2); [by eapply live_lookup, Hxd|].
    assert (Hinv2 : inv e h2).
    { eapply (inv_destroy e h h2 qp); [exact Hinv|exact Ho|done|exact Hu|eapply upd_trans; eassumption|].
      intros i. cbn [contents]. rewrite <- (Ht i), !count_app. f_equal. apply somes_reverse. }
    eapply inv_shift; [exact Hinv2|right; apply Hxd; by rewrite (proj1 U2)| |apply (upd_flip _ _ _ _ U2)].
    pose proof (inv_ext _ _ Hinv x). lia.
  - eapply inv_destroy; [exact Hinv|exact Ho|done|exact Hu|exact U|].
    intros i. cbn [contents]. rewrite <- (Ht i), app_nil_r. apply somes_reverse.
Qed.

Lemma shared_untargeted e h qp q :
  inv e h -> qp_of (bodies h) qp = Some q -> q.(real_qp) <> qp -> untargeted (bodies h) qp.
Proof.
  intros Hinv Hq Hne x t n Ht Hn.
  destruct (wf_tgts _ (inv_wf _ _ Hinv) _ _ _ _ Ht Hn) as (rq & Hrq & Hr & _). congruence.
Qed.

Lemma targets_shared qp q : q.(real_qp) <> qp -> targets qp (Qp q) = [q.(real_qp)].
Proof. intros Hne. unfold targets. cbn [refs]. by rewrite (proj2 (Z.eqb_neq _ _) Hne). Qed.

(** The handle [__ib_open_qp] returns. *)
Definition shared_handle (real : id) (rq : ib_qp) : ib_qp :=
  mk_qp rq.(qp_type) rq.(qp_num) real None None None None None None.

Lemma open_ok e h qp real rq nomem sec :
  inv e h -> h !! qp = None -> qp_of (bodies h) real = Some rq -> rq.(real_qp) = real ->
  is_Some rq.(qp_xrcd) ->
  exists r h', __ib_open_qp qp real nomem sec h = Some (r, h') /\
    failed r = nomem || failed sec /\
    (if failed r then h' = h
     else inv e h' /\ h' !! qp = Some (mk_obj 0 (Qp (shared_handle real rq))) /\
       bodies h' = <[qp := Qp (shared_handle real rq)]> (bodies h)).
Proof.
  intros Hinv Hi Hrq Hr Hx. unfold __ib_open_qp. case_test; [by exists (- ENOMEM), h|].
  apply get_qp_of in Hrq as Hg. rewrite Hg. cbn [mbind option_bind]. apply qp_of_Some in Hrq as Hb.
  destruct (failed sec) eqn:Hf; [exists sec, h; rewrite Hf; by rewrite kfree_alloc|]. cbn [orb].
  fold (shared_handle real rq). assert (Hne : real <> qp).
  { intros ->. rewrite bodies_lookup, Hi in Hb. done. }
  assert (Hlr : is_Some (h !! real)) by (eapply live_lookup, live_qp; eauto).
  destruct (atomic_inc_spec real (alloc qp (Qp (shared_handle real rq)) h)) as (h' & -> & U);
    [by apply alloc_live|]. cbn [mbind option_bind]. exists 0, h'. split; [done|]. split; [done|].
  cbn [failed Z.eqb negb].
  assert (Hb' : bodies h' = <[qp := Qp (shared_handle real rq)]> (bodies h)).
  { rewrite (proj1 U). unfold alloc. by rewrite bodies_insert. }
  split; [|split; [|done]].
  - eapply inv_create; [exact Hinv|exact Hi| |exact U|by rewrite targets_shared].
    split; [|intros q [= <-] _; by exists rq|done].
    intros j k. cbn [refs]. rewrite (proj2 (Z.eqb_neq _ _)) by done.
    intros [= -> ->]%list_elem_of_singleton. apply live_qp. by exists rq.
  - destruct U as [_ Hc]. specialize (Hc qp). unfold cnt, alloc in Hc.
    rewrite lookup_insert_eq, count_cons, count_nil in Hc. cbn in Hc.
    rewrite decide_False in Hc by done. assert (Hq : bodies h' !! qp = Some (Qp (shared_handle real rq)))
      by (by rewrite Hb', lookup_insert_eq).
    rewrite bodies_lookup in Hq. destruct (h' !! qp) as [[n b]|]; [|done]. cbn in Hc, Hq.
    injection Hc as ->. by injection Hq as ->.
Qed.

Lemma close_ok e h qp q :
  inv e h -> h !! qp = Some (mk_obj 0 (Qp q)) -> q.(real_qp) <> qp ->
  exists h', ib_close_qp qp h = Some (0, h') /\ inv e h' /\ bodies h' = delete qp (bodies h) /\
    cnt h' q.(real_qp) = Z.pred <$> cnt h q.(real_qp).
Proof.
  intros Hinv Ho Hne. unfold ib_close_qp, get_qp, get_body. rewrite Ho. cbn [fmap option_fmap option_map contents mbind option_bind].
  rewrite (proj2 (Z.eqb_neq _ _) Hne).
  assert (Hq : qp_of (bodies h) qp = Some q) by (apply qp_of_Some; by rewrite bodies_lookup, Ho).
  destruct (atomic_dec_spec (real_qp q) h) as (h1 & -> & U).
  { eapply ref_live; [exact Hinv|exact Ho|]. cbn [contents]. rewrite targets_shared by done. left. }
  cbn [mbind option_bind]. exists (kfree qp h1). split; [done|]. split.
  - eapply (inv_destroy e h _ qp); [exact Hinv|exact Ho|done|by eapply shared_untargeted|
      apply upd_delete, U|cbn [contents]; by rewrite targets_shared].
  - unfold kfree. rewrite bodies_delete. split; [by rewrite (proj1 U)|].
    destruct U as [_ Hc]. specialize (Hc (real_qp q)). unfold cnt in *. rewrite lookup_delete_ne by done.
    rewrite Hc, count_cons, count_nil, decide_True by done.
    destruct (h !! real_qp q); cbn; f_equal; lia.
Qed.

(** Writing the table of an XRC domain. *)
Lemma set_tgts_ok e h x t t' :
  inv e h -> get_xrcd x h = Some t ->
  (forall n r, t' !! n = Some r -> t !! n = Some r \/
     exists rq, qp_of (bodies h) r = Some rq /\ rq.(real_qp) = r /\ rq.(qp_xrcd) = Some x /\
       rq.(qp_num) = n) ->
  exists h', set_body x (Xrcd t') h = Some h' /\ inv e h' /\
    bodies h' = <[x := Xrcd t']> (bodies h) /\ (forall i, cnt h' i = cnt h i).
Proof.
  unfold get_xrcd, get_body. intros Hinv Ht Ht'. destruct (h !! x) as [o|] eqn:Ho; [|done].
  cbn in Ht. destruct o as [c b]. destruct b; try done. injection Ht as ->.
  rewrite (set_body_eq _ _ _ _ Ho). eexists. split; [done|]. split; [|split].
  - apply (inv_set e h x _ (Xrcd t') Hinv Ho); [done|done|done|done|].
    intros t2 n r [= <-] Hn. destruct (Ht' n r Hn) as [Hr|Hr]; [|exact Hr].
    eapply (wf_tgts _ (inv_wf _ _ Hinv)); [|exact Hr]. apply tgts_of_Some. by rewrite bodies_lookup, Ho.
  - by rewrite bodies_insert.
  - intros i. unfold cnt. rewrite lookup_insert. case_decide; [|done]. subst. by rewrite Ho.
Qed.

(** A domain that a live queue pair belongs to. *)
Lemma xrcd_of_qp e h qp q x :
  inv e h -> qp_of (bodies h) qp = Some q -> q.(real_qp) = qp -> q.(qp_xrcd) = Some x ->
  exists t, get_xrcd x h = Some t.
Proof.
  intros Hinv Hq Hr Hx. apply qp_of_Some in Hq.
  destruct (wf_refs _ (inv_wf _ _ Hinv) qp (Qp q) x KXrcd Hq) as (b & Hb & Hk).
  { cbn [refs]. rewrite (proj2 (Z.eqb_eq _ _) Hr), Hx, !elem_of_app. do 5 right. left. }
  unfold get_xrcd, get_body. rewrite bodies_lookup in Hb. rewrite Hb. destruct b; try done. eauto.
Qed.

Lemma cnt_obj h i b n : bodies h !! i = Some b -> cnt h i = Some n -> h !! i = Some (mk_obj n b).
Proof. rewrite bodies_lookup. unfold cnt. destruct (h !! i) as [[]|]; cbn; naive_solver. Qed.

(** The end of [__ib_destroy_shared_qp] when the last handle is closed. *)
Lemma destroy_last e h real rq x t ret m :
  inv e h -> bodies h !! real = Some (Qp rq) -> rq.(real_qp) = real -> rq.(qp_xrcd) = Some x ->
  get_xrcd x h = Some t -> cnt h real = Some 0 -> bodies h = m ->
  exists h', (h ← set_body x (Xrcd (delete rq.(qp_num) t)) h;
     '(ret, h) ← destroy_real_qp real ret h;
     if negb (failed ret) then h ← atomic_dec x h; Some (0, h) else Some (0, h)) = Some (0, h') /\
    inv e h' /\
    bodies h' = let erased := <[x := Xrcd (delete rq.(qp_num) t)]> m in
                if failed ret then erased else delete real erased.
Proof.
  intros Hinv Hbr Hr Hx Ht Hc Hm.
  destruct (set_tgts_ok e h x t (delete (qp_num rq) t) Hinv Ht) as (h2 & -> & Hinv2 & Hb2 & Hc2).
  { intros n r Hn. rewrite lookup_delete in Hn. case_decide; [done|]. by left. }
  cbn [mbind option_bind]. assert (Hxr : x <> real).
  { intros ->. unfold get_xrcd, get_body in Ht. rewrite <- bodies_lookup, Hbr in Ht. done. }
  assert (Hbr2 : bodies h2 !! real = Some (Qp rq)) by by rewrite Hb2, lookup_insert_ne.
  assert (Hu : untargeted (bodies h2) real).
  { intros y ty n Hy Hn. destruct (wf_tgts _ (inv_wf _ _ Hinv2) _ _ _ _ Hy Hn) as (rq' & Hq' & _ & Hx' & Hn').
    apply qp_of_Some in Hq'. rewrite Hbr2 in Hq'. injection Hq' as <-. rewrite Hx in Hx'.
    injection Hx' as <-. rewrite Hb2, tgts_of_insert, decide_True in Hy by done. injection Hy as <-.
    subst n. by rewrite lookup_delete_eq in Hn. }
  destruct (destroy_real_ok e h2 real rq ret Hinv2) as (h3 & -> & H3); [|exact Hr|exact Hu|].
  { apply cnt_obj; [done|]. by rewrite Hc2. }
  cbn [mbind option_bind]. rewrite Hm in Hb2. destruct (failed ret); cbn [negb]; [subst h3; by exists h2|].
  destruct H3 as [Hinv3 Hb3]. rewrite Hx in Hinv3. cbn [keep_xrcd] in Hinv3.
  assert (Hlx : live (bodies h3) KXrcd x).
  { eexists. rewrite Hb3, lookup_delete_ne, Hb2, lookup_insert_eq by done. done. }
  destruct (atomic_dec_spec x h3) as (h4 & -> & U); [by eapply live_lookup|].
  cbn [mbind option_bind]. exists h4. split; [done|]. split; [|by rewrite (proj1 U), Hb3, Hb2].
  eapply inv_ext_eq; [|eapply inv_shift; [exact Hinv3|right; exact Hlx| |exact U]].
  - intros i. unfold shift_ext. case_decide; lia.
  - unfold shift_ext. rewrite decide_True by done. pose proof (inv_ext _ _ Hinv x). lia.
Qed.

(** Closing a handle; the real queue pair goes with its last handle. *)
Lemma destroy_shared_cases e h qp q rq x t ret :
  inv e h -> h !! qp = Some (mk_obj 0 (Qp q)) -> q.(real_qp) <> qp ->
  qp_of (bodies h) q.(real_qp) = Some rq -> rq.(qp_xrcd) = Some x -> get_xrcd x h = Some t ->
  exists h', __ib_destroy_shared_qp qp ret h = Some (0, h') /\ inv e h' /\
    bodies h' =
      if negb (bool_decide (cnt h q.(real_qp) = Some 1)) then delete qp (bodies h)
      else let erased := <[x := Xrcd (delete rq.(qp_num) t)]> (delete qp (bodies h)) in
           if failed ret then erased else delete q.(real_qp) erased.
Proof.
  intros Hinv Ho Hne Hrq Hx Ht. unfold __ib_destroy_shared_qp.
  assert (Hq : qp_of (bodies h) qp = Some q) by (apply qp_of_Some; by rewrite bodies_lookup, Ho).
  rewrite (proj2 (get_qp_of _ _ _) Hq). cbn [mbind option_bind].
  assert (Hr : real_qp rq = real_qp q).
  { destruct (wf_shared _ (inv_wf _ _ Hinv) _ _ Hq Hne) as (rq' & ? & ? & _). congruence. }
  set (real := real_qp q) in *. rewrite (proj2 (get_qp_of _ _ _) Hrq).
  cbn [mbind option_bind]. rewrite Hx. cbn [mbind option_bind].
  destruct (close_ok e h qp q Hinv Ho Hne) as (h1 & -> & Hinv1 & Hb1 & Hc1). fold real in Hc1.
  cbn [mbind option_bind].
  assert (Hbr : bodies h1 !! real = Some (Qp rq))
    by (rewrite Hb1, lookup_delete_ne by done; by apply qp_of_Some).
  assert (Ht1 : get_xrcd x h1 = Some t).
  { unfold get_xrcd, get_body in *. rewrite <- !bodies_lookup, Hb1 in *. rewrite lookup_delete_ne; [done|].
    intros <-. rewrite bodies_lookup, Ho in Ht. done. }
  unfold atomic_read. change (usecnt <$> h1 !! real) with (cnt h1 real).
  assert (Hlr : exists n, cnt h real = Some n).
  { apply qp_of_Some in Hrq. rewrite bodies_lookup in Hrq. unfold cnt. destruct (h !! real); [eauto|done]. }
  destruct Hlr as (n & Hn). rewrite Hn in Hc1 |- *.
  cbn [fmap option_fmap option_map] in Hc1. rewrite Hc1. cbn [mbind option_bind].
  destruct (Z.eqb_spec (Z.pred n) 0) as [Hz|Hz].
  - rewrite bool_decide_eq_true_2 by (f_equal; lia). cbn [negb]. rewrite Hz in Hc1.
    rewrite Ht1. cbn [mbind option_bind].
    by apply (destroy_last e h1 real rq x t ret (delete qp (bodies h))).
  - rewrite bool_decide_eq_false_2 by (intros [= ?]; lia). by exists h1.
Qed.

Lemma destroy_shared_ok e h qp q ret :
  inv e h -> h !! qp = Some (mk_obj 0 (Qp q)) -> q.(real_qp) <> qp ->
  runs e (__ib_destroy_shared_qp qp ret h).
Proof.
  intros Hinv Ho Hne.
  assert (Hq : qp_of (bodies h) qp = Some q) by (apply qp_of_Some; by rewrite bodies_lookup, Ho).
  destruct (wf_shared _ (inv_wf _ _ Hinv) _ _ Hq Hne) as (rq & Hrq & Hr & x & Hx).
  destruct (xrcd_of_qp e h (real_qp q) rq x Hinv Hrq Hr Hx) as (t & Ht).
  destruct (destroy_shared_cases e h qp q rq x t ret) as (h' & -> & Hinv' & _); [done..|].
  by apply runs_ret.
Qed.

Lemma destroy_qp_ok e h qp ret :
  inv e h -> qp_handle (bodies h) qp -> runs e (ib_destroy_qp_user qp ret h).
Proof.
  intros Hinv (q & Hq & Hx). unfold ib_destroy_qp_user, atomic_read.
  apply qp_of_Some in Hq as Hb. destruct (h !! qp) as [[n b]|] eqn:Ho; [|by rewrite bodies_lookup, Ho in Hb].
  rewrite bodies_lookup, Ho in Hb. injection Hb as ->. cbn [fmap option_fmap option_map usecnt mbind option_bind].
  destruct (c_true n) eqn:Hn; [by apply runs_ret|]. apply c_true_false in Hn. subst n.
  rewrite (proj2 (get_qp_of _ _ _) Hq). cbn [mbind option_bind].
  destruct (Z.eqb_spec (real_qp q) qp) as [Hr|Hne]; cbn [negb]; [|by eapply destroy_shared_ok].
  specialize (Hx Hr).
  destruct (destroy_real_ok e h qp q ret Hinv Ho Hr) as (h' & -> & H').
  { apply untargeted_unless; [apply Hinv|]. intros q' Hq'. congruence. }
  apply runs_ret. rewrite Hx in H'. destruct (failed ret); [by subst|apply H'].
Qed.

Lemma close_qp_ok e h qp :
  inv e h -> qp_handle (bodies h) qp -> cnt h qp = Some 0 -> runs e (ib_close_qp qp h).
Proof.
  intros Hinv (q & Hq & Hx) Hz. destruct (Z.eqb_spec (real_qp q) qp) as [Hr|Hne].
  - unfold ib_close_qp. rewrite (proj2 (get_qp_of _ _ _) Hq). cbn [mbind option_bind].
    rewrite (proj2 (Z.eqb_eq _ _) Hr). by apply runs_ret.
  - destruct (close_ok e h qp q Hinv) as (h' & -> & Hinv' & _ & _); [|done|by apply runs_ret].
    apply cnt_obj; [by apply qp_of_Some|done].
Qed.

Lemma open_qp_ok e h qp xrcd t n nomem sec :
  inv e h -> h !! qp = None -> live (bodies h) KXrcd xrcd -> runs e (ib_open_qp qp xrcd t n nomem sec h).
Proof.
  intros Hinv Hi Hl. unfold ib_open_qp. case_test; [by apply runs_ret|].
  destruct (live_get _ _ _ Hl) as (o & Ho & Hk). destruct o as [c b]. destruct b; try done.
  unfold get_xrcd, get_body. rewrite Ho. cbn [fmap option_fmap option_map contents mbind option_bind].
  destruct (tgt_qps !! n) as [real|] eqn:Hn; [|by apply runs_ret].
  destruct (wf_tgts _ (inv_wf _ _ Hinv) xrcd tgt_qps n real) as (rq & Hrq & Hr & Hx & _);
    [apply tgts_of_Some; by rewrite bodies_lookup, Ho|done|].
  destruct (open_ok e h qp real rq nomem sec Hinv Hi Hrq Hr) as (r & h' & -> & _ & H'); [by eauto|].
  apply runs_ret. destruct (failed r); [by subst|apply H'].
Qed.

(** The table of an XRC domain nobody references is empty. *)
Lemma unused_xrcd_empty e h x t c :
  inv e h -> h !! x = Some (mk_obj c (Xrcd t)) -> c = 0 -> t = ∅.
Proof.
  intros Hinv Ho ->. apply map_empty. intros n. destruct (t !! n) as [r|] eqn:Hn; [|done].
  destruct (inv_unused _ _ _ _ Hinv Ho eq_refl) as [Hz _].
  destruct (wf_tgts _ (inv_wf _ _ Hinv) x t n r) as (rq & Hrq & Hr & Hx & _);
    [apply tgts_of_Some; by rewrite bodies_lookup, Ho|done|].
  apply qp_of_Some in Hrq. pose proof (nrefs_in _ r (Qp rq) x Hrq) as Hp.
  assert (Hin : x ∈ targets r (Qp rq)).
  { apply (in_targets r (Qp rq) x KXrcd). cbn [refs]. rewrite (proj2 (Z.eqb_eq _ _) Hr), Hx, !elem_of_app.
    do 5 right. left. }
  specialize (Hp Hin). lia.
Qed.

Lemma dealloc_xrcd_ok e h x ret :
  inv e h -> live (bodies h) KXrcd x ->
  exists r h', ib_dealloc_xrcd_user x ret h = Some (r, false, h') /\ inv e h'.
Proof.
  intros Hinv Hl. destruct (live_get _ _ _ Hl) as (o & Ho & Hk). destruct o as [c b]. destruct b; try done.
  unfold ib_dealloc_xrcd_user, atomic_read, get_xrcd, get_body. rewrite Ho. cbn [fmap option_fmap option_map usecnt contents mbind option_bind].
  destruct (c_true c) eqn:Hc; [by exists (- EBUSY), h|]. apply c_true_false in Hc.
  rewrite (unused_xrcd_empty _ _ _ _ _ Hinv Ho Hc). rewrite bool_decide_eq_true_2 by done. cbn [negb].
  case_test; [by exists ret, h|]. exists ret, (kfree x h). split; [done|].
  by eapply destroy_plain with (k := KXrcd).
Qed.

(** The invariant determines the counters. *)
Lemma inv_unique e h h' : inv e h -> inv e h' -> bodies h' = bodies h -> h' = h.
Proof.
  intros [_ Hc _ _] [_ Hc' _ _] Hb. apply heap_ext; [done|]. intros i. unfold cnt.
  assert (Hi : contents <$> h' !! i = contents <$> h !! i) by by rewrite <- !bodies_lookup, Hb.
  destruct (h' !! i) as [o'|] eqn:Ho', (h !! i) as [o|] eqn:Ho; try done.
  cbn. by rewrite (Hc _ _ Ho), (Hc' _ _ Ho'), Hb.
Qed.

(** The real queue pair [create_xrc_qp_user] makes of the one it gets. *)
Definition xrc_real (qp x : id) (q : ib_qp) : ib_qp :=
  mk_qp q.(qp_type) q.(qp_num) qp None None None None q.(qp_rwq_ind_tbl) (Some x).

Lemma xrc_real_ok e h qp x q :
  inv e h -> h !! qp = None -> live (bodies h) KXrcd x -> q.(qp_rwq_ind_tbl) = None ->
  exists h1, set_body qp (Qp (xrc_real qp x q)) (alloc qp (Qp q) h) = Some (alloc qp (Qp (xrc_real qp x q)) h) /\
    atomic_inc x (alloc qp (Qp (xrc_real qp x q)) h) = Some h1 /\ inv e h1 /\
    h1 !! qp = Some (mk_obj 0 (Qp (xrc_real qp x q))) /\
    upd 1 [x] (alloc qp (Qp (xrc_real qp x q)) h) h1.
Proof.
  intros Hinv Hi Hx Hrwq. destruct (atomic_inc_spec x (alloc qp (Qp (xrc_real qp x q)) h)) as (h1 & E & U).
  { by eapply alloc_live, live_lookup. }
  exists h1. split; [|split; [done|split; [|split; [|done]]]].
  - unfold alloc. rewrite (set_body_eq _ _ _ (mk_obj 0 (Qp q))) by apply lookup_insert_eq.
    by rewrite insert_insert_eq.
  - eapply inv_create; [exact Hinv|exact Hi| |exact U|].
    + split; [|naive_solver|done]. intros j k. cbn. rewrite Z.eqb_refl, Hrwq. cbn.
      intros [= -> ->]%list_elem_of_singleton. done.
    + intros i. unfold targets. cbn. by rewrite Z.eqb_refl, Hrwq.
  - apply cnt_obj.
    + rewrite (proj1 U). unfold alloc. by rewrite bodies_insert, lookup_insert_eq.
    + rewrite (proj2 U). unfold cnt, alloc. rewrite lookup_insert_eq, count_cons, count_nil.
      cbn. rewrite decide_False; [done|]. intros ->. apply live_lookup in Hx. rewrite Hi in Hx. by destruct Hx.
Qed.

Lemma create_xrc_ok e h qp handle x q nomem sec store :
  inv e h -> h !! qp = None -> h !! handle = None -> qp <> handle ->
  live (bodies h) KXrcd x -> q.(qp_rwq_ind_tbl) = None ->
  exists err h', create_xrc_qp_user qp handle x nomem sec store (alloc qp (Qp q) h) = Some (err, h') /\
    failed err = nomem || failed sec || failed store /\ inv e h' /\
    if failed err then
      h' !! qp = Some (mk_obj 0 (Qp (xrc_real qp x q))) /\ untargeted (bodies h') qp /\
      upd 1 [x] (alloc qp (Qp (xrc_real qp x q)) h) h'
    else exists rq, get_qp handle h' = Some (shared_handle qp rq).
Proof.
  intros Hinv Hi Hh Hne Hx Hrwq. unfold create_xrc_qp_user.
  assert (Hg : get_qp qp (alloc qp (Qp q) h) = Some q).
  { unfold get_qp, get_body, alloc. by rewrite lookup_insert_eq. }
  rewrite Hg. cbn [mbind option_bind]. fold (xrc_real qp x q).
  destruct (xrc_real_ok e h qp x q Hinv Hi Hx Hrwq) as (h1 & -> & E1 & Hinv1 & Ho1 & U1).
  cbn [mbind option_bind]. rewrite E1. cbn [mbind option_bind]. clear E1.
  assert (Hb1 : bodies h1 = <[qp := Qp (xrc_real qp x q)]> (bodies h)).
  { rewrite (proj1 U1). unfold alloc. by rewrite bodies_insert. }
  assert (Hh1 : h1 !! handle = None).
  { assert (Hn : bodies h1 !! handle = None) by by rewrite Hb1, lookup_insert_ne, bodies_lookup, Hh.
    rewrite bodies_lookup in Hn. by destruct (h1 !! handle). }
  assert (Hq1 : qp_of (bodies h1) qp = Some (xrc_real qp x q)).
  { apply qp_of_Some. by rewrite bodies_lookup, Ho1. }
  assert (Hu1 : untargeted (bodies h1) qp).
  { intros y ty n Hy Hn. rewrite Hb1, tgts_of_insert in Hy. case_decide; [done|].
    destruct (wf_tgts _ (inv_wf _ _ Hinv) _ _ _ _ Hy Hn) as (rq & Hrq & _).
    apply qp_of_Some in Hrq. rewrite bodies_lookup, Hi in Hrq. done. }
  destruct (open_ok e h1 handle qp _ nomem sec Hinv1 Hh1 Hq1) as (err & h2 & -> & Hfe & H2); [done|by eexists|].
  cbn [mbind option_bind]. destruct (failed err) eqn:Hf.
  { subst h2. exists err, h1. by rewrite Hf, <- Hfe. }
  destruct H2 as (Hinv2 & Ho2 & Hb2). destruct (failed store) eqn:Hs.
  - destruct (close_ok e h2 handle _ Hinv2 Ho2) as (h3 & -> & Hinv3 & Hb3 & _); [done|].
    cbn [mbind option_bind]. exists store, h3. rewrite Hs, <- Hfe.
    assert (h3 = h1) as ->; [|done]. apply (inv_unique e); [done..|]. rewrite Hb3, Hb2.
    apply delete_insert_id. by rewrite bodies_lookup, Hh1.
  - assert (Hq2 : qp_of (bodies h2) qp = Some (xrc_real qp x q)).
    { apply qp_of_Some. rewrite Hb2, lookup_insert_ne by done. by apply qp_of_Some. }
    destruct (xrcd_of_qp e h2 qp _ x Hinv2 Hq2) as (t & Ht); [done..|]. rewrite Ht. cbn [mbind option_bind].
    destruct (set_tgts_ok e h2 x t (<[qp_num q := qp]> t) Hinv2 Ht) as (h3 & -> & Hinv3 & Hb3 & _).
    { intros n r Hn. rewrite lookup_insert in Hn. case_decide; [simplify_eq; right; eauto|by left]. }
    cbn [mbind option_bind]. exists 0, h3. split; [done|]. split; [by rewrite <- Hfe|].
    split; [done|]. cbn [failed Z.eqb negb].
    eexists. apply get_qp_of, qp_of_Some. rewrite Hb3, lookup_insert_ne; [by rewrite bodies_lookup, Ho2|].
    intros ->. unfold get_xrcd, get_body in Ht. rewrite Ho2 in Ht. done.
Qed.

Lemma attr_refs m qp pd attr :
  opt_live m KPd pd -> attr_ok m attr ->
  forall j k, (j, k) ∈ refs qp (Qp (mk_qp attr.(ia_type) attr.(ia_num) qp pd attr.(ia_send_cq)
    attr.(ia_recv_cq) attr.(ia_srq) attr.(ia_rwq_ind_tbl) None)) -> live m k j.
Proof.
  intros Hpd (Hs & Hr & Hsrq & Hrwq) j k. cbn. rewrite Z.eqb_refl, !elem_of_app, !elem_of_opt, elem_of_nil.
  naive_solver.
Qed.

(** The queue pair [create_qp] makes. *)
Definition new_qp (qp : id) (pd : option id) (attr : ib_qp_init_attr) : ib_qp :=
  mk_qp attr.(ia_type) attr.(ia_num) qp pd attr.(ia_send_cq) attr.(ia_recv_cq) attr.(ia_srq)
    attr.(ia_rwq_ind_tbl) None.

Lemma create_qp_cases qp pd attr env h :
  h !! qp = None ->
  exists r, create_qp qp pd attr env h =
      (r, if create_ok env then alloc qp (Qp (new_qp qp pd attr)) h else h) /\
    failed r = negb (create_ok env).
Proof.
  intros Hi. unfold create_qp, create_ok. fold (new_qp qp pd attr).
  destruct (no_create_qp env); [by eexists|].
  destruct (qp_nomem env); [by eexists|]. rewrite kfree_alloc by done.
  destruct (failed (create_ret env)) eqn:Hc; [by exists (create_ret env)|].
  destruct (failed (security_ret env)) eqn:Hs; [by exists (security_ret env)|]. by exists 0.
Qed.

Lemma create_qp_kernel_ok e h qp pd attr env rw rw_ret dret :
  inv e h -> h !! qp = None -> live (bodies h) KPd pd -> attr_ok (bodies h) attr ->
  runs e (ib_create_qp_kernel qp pd attr env rw rw_ret dret h).
Proof.
  intros Hinv Hi Hpd Ha. unfold ib_create_qp_kernel.
  destruct (create_qp_cases qp (Some pd) attr env h Hi) as (r & -> & Hr). rewrite Hr.
  destruct (create_ok env); cbn [negb]; [|by apply runs_ret].
  destruct (created_qp e h qp (new_qp qp (Some pd) attr) Hinv Hi) as (h1 & -> & Hinv1 & _ & Ho1);
    [done|done|apply attr_refs; [|done]; by intros ? [= <-]|].
  cbn [mbind option_bind]. case_test; [|by apply runs_ret].
  destruct (destroy_qp_ok e h1 qp dret Hinv1) as (r' & h2 & -> & Hinv2); [|by apply runs_ret].
  exists (new_qp qp (Some pd) attr). split; [|done]. apply qp_of_Some. by rewrite bodies_lookup, Ho1.
Qed.

Lemma usecnt_inc_handle h handle real rq :
  get_qp handle h = Some (shared_handle real rq) -> ib_qp_usecnt_inc handle h = Some h.
Proof. intros Hg. unfold ib_qp_usecnt_inc. by rewrite Hg. Qed.

(** [ib_destroy_qp_user] of the real queue pair of a creation that failed: its
    XRC domain stays counted if the driver destroys it. *)
Lemma destroy_orphan e h qp q x ret :
  inv e h -> h !! qp = Some (mk_obj 0 (Qp q)) -> q.(real_qp) = qp -> q.(qp_xrcd) = Some x ->
  untargeted (bodies h) qp ->
  exists h', ib_destroy_qp_user qp ret h = Some (ret, h') /\
    (if failed ret then h' = h
     else inv (shift_ext x 1 e) h' /\ bodies h' = delete qp (bodies h)).
Proof.
  intros Hinv Ho Hr Hx Hu. unfold ib_destroy_qp_user, atomic_read. rewrite Ho.
  cbn [fmap option_fmap option_map usecnt mbind option_bind]. cbn [c_true negb Z.eqb].
  unfold get_qp, get_body. rewrite Ho. cbn [fmap option_fmap option_map contents mbind option_bind].
  rewrite (proj2 (Z.eqb_eq _ _) Hr). cbn [negb].
  destruct (destroy_real_ok e h qp q ret Hinv Ho Hr Hu) as (h' & E & H'). exists h'.
  split; [exact E|]. by rewrite Hx in H'.
Qed.

Lemma create_qp_user_ok e h qp handle pd attr env nomem sec store dret :
  inv e h ->
  args_ok (OpCreateQpUser qp handle pd attr env nomem sec store dret) e h ->
  exists r h', uverbs_create_qp qp handle pd attr env nomem sec store dret h = Some (r, h') /\
    inv (ext_after (OpCreateQpUser qp handle pd attr env nomem sec store dret) r e) h'.
Proof.
  intros Hinv (Hi & Hh & Hne & Hpd & Ha & Hxrc). unfold uverbs_create_qp, ib_create_qp_user.
  destruct (create_qp_cases qp pd attr env h Hi) as (r & -> & Hr). rewrite Hr.
  cbn [ext_after]. unfold xrc_leak.
  destruct (create_ok env) eqn:Hok; cbn [negb]; rewrite ?orb_true_r; cbn [mbind option_bind].
  2: { rewrite Hr. exists r, h. split; [done|]. rewrite andb_false_r. cbn [andb].
       rewrite andb_false_r. by destruct (ia_xrcd attr). }
  rewrite orb_false_r, andb_true_r.
  destruct (Z.eqb_spec (ia_type attr) IB_QPT_XRC_TGT) as [Ht|Ht]; cbn [negb].
  - destruct (Hxrc Ht) as (Hrwq & x & Hx & Hlx). rewrite Hx. cbn [mbind option_bind].
    destruct (create_xrc_ok e h qp handle x (new_qp qp pd attr) nomem sec store Hinv Hi Hh Hne Hlx Hrwq)
      as (err & h1 & -> & _ & Hinv1 & H1). cbn [mbind option_bind]. destruct (failed err) eqn:Hf.
    + destruct H1 as (Ho1 & Hu1 & _).
      destruct (destroy_orphan e h1 qp _ x dret Hinv1 Ho1) as (h2 & -> & H2); [done..|].
      cbn [mbind option_bind]. rewrite Hf. exists err, h2. split; [done|]. rewrite Hf. cbn [andb].
      destruct (failed dret); cbn [negb]; [by subst|apply H2].
    + destruct H1 as (rq & Hg). cbn [mbind option_bind]. cbn [failed Z.eqb negb].
      rewrite (usecnt_inc_handle _ _ _ _ Hg). by exists 0, h1.
  - cbn [mbind option_bind]. rewrite Hr.
    destruct (created_qp e h qp (new_qp qp pd attr) Hinv Hi) as (h1 & -> & Hinv1 & _);
      [done|done|by apply attr_refs|].
    exists 0, h1. split; [done|]. cbn [failed Z.eqb negb andb]. by destruct (ia_xrcd attr).
Qed.

(** ** All operations *)

Lemma exec_ok e h o :
  inv e h -> args_ok o e h -> exists r h', exec o h = Some (r, h') /\ inv (ext_after o r e) h'.
Proof.
  intros Hinv Ha. destruct o; cbn [exec ext_after]; cbn [args_ok] in Ha; decompose [and] Ha.
  - by apply alloc_pd_ok.
  - by apply dealloc_pd_ok.
  - by apply create_ah_ok.
  - by apply destroy_ah_ok.
  - by apply create_srq_ok.
  - by apply destroy_srq_ok.
  - apply create_qp_user_ok; [done|exact Ha].
  - by apply create_qp_kernel_ok.
  - by apply open_qp_ok.
  - by apply close_qp_ok.
  - by apply destroy_qp_ok.
  - by apply create_cq_ok.
  - by apply destroy_cq_ok.
  - unfold ib_reg_user_mr. do 2 (case_test; [by apply runs_ret|]). by apply create_mr_ok.
  - unfold ib_alloc_mr. do 3 (case_test; [by apply runs_ret|]). by apply create_mr_ok.
  - unfold ib_alloc_mr_integrity. do 4 (case_test; [by apply runs_ret|]). by apply create_mr_ok.
  - by apply dereg_mr_ok.
  - by apply alloc_xrcd_ok.
  - destruct (dealloc_xrcd_ok e h xrcd ret Hinv Ha) as (r & h' & -> & Hinv').
    cbn [mbind option_bind]. by apply runs_ret.
  - by apply create_wq_ok.
  - by apply destroy_wq_ok.
  - apply runs_ret. by apply create_plain.
  - by apply attach_ok.
  - by apply detach_ok.
Qed.

(** States the operations lead to, from an empty memory. *)
Inductive reachable : ext_refs -> heap -> Prop :=
  | reachable_empty : reachable (fun _ => 0) ∅
  | reachable_step e h o r h' :
      reachable e h -> args_ok o e h -> exec o h = Some (r, h') -> reachable (ext_after o r e) h'.

Lemma inv_empty : inv (fun _ => 0) ∅.
Proof.
  by split; [split|..].
Qed.

Lemma reachable_inv e h : reachable e h -> inv e h.
Proof.
  induction 1 as [|e h o r h' _ IH Ha He]; [apply inv_empty|].
  destruct (exec_ok e h o IH Ha) as (r2 & h2 & E & Hinv). rewrite He in E. by simplify_eq.
Qed.

(** C1: In every state that operations used within their contract lead to, each
    object's use count is exactly the number of references to it from other
    objects plus those held outside memory, every reference is to a live object
    of the right kind, and no further operation within its contract touches
    freed memory. *)
Theorem verbs_objects_safe e h :
  reachable e h ->
  (forall i o, h !! i = Some o -> o.(usecnt) = nrefs (bodies h) i + e i) /\
  (forall i o j k, h !! i = Some o -> (j, k) ∈ refs i o.(contents) ->
     exists o', h !! j = Some o' /\ kind_of o'.(contents) = k) /\
  (forall o, args_ok o e h -> is_Some (exec o h)).
Proof.
  intros Hinv%reachable_inv. split; [apply Hinv|split].
  - intros i o j k Hi Hin. eapply live_get, (wf_refs _ (inv_wf _ _ Hinv)); [|exact Hin].
    by rewrite bodies_lookup, Hi.
  - intros o Ha. destruct (exec_ok e h o Hinv Ha) as (r & h' & -> & _). by eexists.
Qed.

(** ** Destruction *)

(** Destruction of an object by its kind, with a driver that succeeds. *)
Definition destroy_op (k : kind) (i : id) : option op :=
  match k with
  | KSrq => Some (OpDestroySrq i 0)
  | KQp => Some (OpDestroyQp i 0)
  | KXrcd => Some (OpDeallocXrcd i 0)
  | KWq => Some (OpDestroyWq i 0)
  | KCq => Some (OpDestroyCq i 0)
  | _ => None
  end.

Definition shared_cq (h : heap) (i : id) : bool :=
  match get_body i h with Some (Cq true) => true | _ => false end.

Lemma exec_busy h k i o d :
  h !! i = Some o -> kind_of o.(contents) = k -> destroy_op k i = Some d -> shared_cq h i = false ->
  o.(usecnt) <> 0 -> exec d h = Some (- EBUSY, h).
Proof.
  intros Ho Hk Hd Hs Hn. destruct o as [n b]. cbn in Hn.
  assert (Hc : c_true n = true) by (unfold c_true; lia).
  unfold shared_cq, get_body in Hs. rewrite Ho in Hs. cbn in Hk, Hs. subst k.
  destruct b; cbn in Hd; simplify_eq; cbn [exec];
    unfold ib_destroy_srq_user, ib_destroy_qp_user, ib_dealloc_xrcd_user, ib_destroy_wq_user,
      ib_destroy_cq_user, atomic_read, get_body; rewrite Ho; cbn; rewrite ?Hc; try done.
  by destruct shared.
Qed.

Lemma atomic_add_none d j h h' i : atomic_add d j h = Some h' -> h !! i = None -> h' !! i = None.
Proof.
  unfold atomic_add. destruct (h !! j) eqn:Hj; [|done]. intros [= <-] Hi.
  rewrite lookup_insert_ne; [done|]. intros ->. congruence.
Qed.

(** The operation returns 0 and the object is gone. *)
Definition destroyed_by (d : op) (i : id) (h : heap) : Prop :=
  exists h', exec d h = Some (0, h') /\ h' !! i = None.

Lemma destroy_qp_gone e h i q :
  inv e h -> h !! i = Some (mk_obj 0 (Qp q)) -> qp_handle (bodies h) i ->
  destroyed_by (OpDestroyQp i 0) i h.
Proof.
  intros Hinv Ho (q' & Hq & Hx). unfold destroyed_by. cbn [exec]. unfold ib_destroy_qp_user, atomic_read.
  rewrite Ho. cbn [fmap option_fmap option_map usecnt mbind option_bind c_true negb Z.eqb].
  assert (q' = q) as -> by (apply qp_of_Some in Hq; rewrite bodies_lookup, Ho in Hq; by simplify_eq/=).
  rewrite (proj2 (get_qp_of _ _ _) Hq). cbn [mbind option_bind].
  assert (Hgone : forall h', bodies h' !! i = None -> h' !! i = None).
  { intros h'. rewrite bodies_lookup. by destruct (h' !! i). }
  destruct (Z.eqb_spec (real_qp q) i) as [Hr|Hne]; cbn [negb].
  - destruct (destroy_real_ok e h i q 0 Hinv Ho Hr) as (h' & -> & H').
    { apply untargeted_unless; [apply Hinv|]. intros q2 Hq2. rewrite Hq in Hq2. injection Hq2 as <-. by apply Hx. }
    exists h'. split; [done|]. apply Hgone. destruct H' as [_ ->]. apply lookup_delete_eq.
  - destruct (wf_shared _ (inv_wf _ _ Hinv) _ _ Hq Hne) as (rq & Hrq & Hr & x & Hxr).
    destruct (xrcd_of_qp e h (real_qp q) rq x Hinv Hrq Hr Hxr) as (t & Ht).
    destruct (destroy_shared_cases e h i q rq x t 0) as (h' & -> & _ & Hb); [done..|].
    exists h'. split; [done|]. apply Hgone. rewrite Hb.
    assert (x <> i) by (intros ->; unfold get_xrcd, get_body in Ht; rewrite Ho in Ht; done).
    case_match; [apply lookup_delete_eq|].
    cbn [failed Z.eqb negb]. by rewrite lookup_delete_ne, lookup_insert_ne, lookup_delete_eq.
Qed.

Lemma exec_destroys e h k i o d :
  inv e h -> h !! i = Some o -> kind_of o.(contents) = k -> destroy_op k i = Some d ->
  args_ok d e h -> shared_cq h i = false -> o.(usecnt) = 0 -> destroyed_by d i h.
Proof.
  intros Hinv Ho Hk Hd Ha Hs Hn. destruct o as [n b]. cbn in Hn, Hk. subst n k.
  destruct (exec_ok e h d Hinv Ha) as (r & h' & E & _).
  unfold shared_cq, get_body in Hs. rewrite Ho in Hs. cbn in Hs.
  destruct b; cbn in Hd; simplify_eq; cbn [args_ok] in Ha; [..|by eapply destroy_qp_gone|].
  all: exists h'; cbn [exec] in *.
  - unfold ib_destroy_cq_user, atomic_read, get_body in *. rewrite Ho in E. cbn in E.
    destruct shared; [done|].
    cbn in E. simplify_eq. split; [|apply lookup_delete_eq]. by rewrite Ho.
  - unfold ib_dealloc_xrcd_user, atomic_read, get_xrcd, get_body in *. rewrite Ho in E |- *. cbn in E |- *.
    simplify_eq. split; [done|]. apply lookup_delete_eq.
  - unfold ib_destroy_srq_user, atomic_read, get_body in *. rewrite Ho in E |- *. cbn in E |- *.
    simplify_option_eq. split; [done|]. apply lookup_delete_eq.
  - unfold ib_destroy_wq_user, atomic_read, get_body in *. rewrite Ho in E |- *. cbn in E |- *.
    simplify_option_eq. split; [done|]. repeat (eapply atomic_add_none; [eassumption|]).
    apply lookup_delete_eq.
Qed.

(** The destruction of a shared receive queue, queue pair, completion queue,
    XRC domain or work queue is refused with -EBUSY and without any effect
    exactly when something still references the object; otherwise, with a driver
    that succeeds, it returns 0 and the object is gone. *)
Theorem destroy_exact e h k i o d :
  reachable e h -> h !! i = Some o -> kind_of o.(contents) = k -> destroy_op k i = Some d ->
  args_ok d e h -> shared_cq h i = false ->
  if nrefs (bodies h) i + e i =? 0 then destroyed_by d i h else exec d h = Some (- EBUSY, h).
Proof.
  intros Hinv%reachable_inv Ho Hk Hd Ha Hs. pose proof (inv_cnt _ _ Hinv _ _ Ho) as Hc.
  destruct (Z.eqb_spec (nrefs (bodies h) i + e i) 0).
  - eapply exec_destroys; eauto. lia.
  - eapply exec_busy; eauto. lia.
Qed.

(** ** Failed creations *)

Lemma atomic_add_bodies d i h h' : atomic_add d i h = Some h' -> bodies h' = bodies h.
Proof.
  unfold atomic_add. destruct (h !! i) as [o|] eqn:Hi; [|done]. intros [= <-].
  rewrite bodies_insert. apply insert_id. by rewrite bodies_lookup, Hi.
Qed.

Lemma inc_if_bodies p h h' : inc_if p h = Some h' -> bodies h' = bodies h.
Proof. destruct p; cbn; [apply atomic_add_bodies|by intros [= ->]]. Qed.
Lemma dec_if_bodies p h h' : dec_if p h = Some h' -> bodies h' = bodies h.
Proof. destruct p; cbn; [apply atomic_add_bodies|by intros [= ->]]. Qed.

Lemma freed_bodies i b h h' :
  h !! i = None -> bodies h' = bodies (alloc i b h) -> bodies (kfree i h') = bodies h.
Proof.
  intros Hi Hb. unfold kfree. rewrite bodies_delete, Hb. unfold alloc. rewrite bodies_insert.
  apply delete_insert_id. by rewrite bodies_lookup, Hi.
Qed.

(** Creations whose own rollback succeeds, those of XRC target queue pairs aside. *)
Definition creation (o : op) : bool :=
  match o with
  | OpAllocPd _ _ _ _ _ dret | OpCreateQpKernel _ _ _ _ _ _ dret => dret =? 0
  | OpCreateQpUser _ _ _ attr _ _ _ _ _ => negb (attr.(ia_type) =? IB_QPT_XRC_TGT)
  | OpCreateAh _ _ _ _ _ _ _ | OpCreateSrq _ _ _ _ _ _ _ | OpOpenQp _ _ _ _ _ _
  | OpCreateCq _ _ _ | OpRegMr _ _ _ _ | OpAllocMr _ _ _ _ _ | OpAllocMrIntegrity _ _ _ _ _ _
  | OpAllocXrcd _ _ _ _ | OpCreateWq _ _ _ _ _ => true
  | _ => false
  end.

(** Follow a run that returned an error to the bodies it left. *)
Ltac failed_run :=
  repeat match goal with
  | H : context [if ?b then _ else _] |- _ =>
      lazymatch type of b with bool => destruct b eqn:?; cbn [mbind option_bind] in H end
  end; simplify_option_eq;
  repeat match goal with
  | H : atomic_inc _ _ = Some _ |- _ => apply atomic_add_bodies in H
  | H : atomic_dec _ _ = Some _ |- _ => apply atomic_add_bodies in H
  | H : inc_if _ _ = Some _ |- _ => apply inc_if_bodies in H
  | H : dec_if _ _ = Some _ |- _ => apply dec_if_bodies in H
  end;
  first [done |
    eapply freed_bodies; [eassumption|];
    repeat match goal with H : bodies ?a = bodies _ |- bodies ?a = _ => rewrite H; clear H end;
    reflexivity].

Lemma failed_srq srq pd t cq xrcd nomem ret h r h' :
  h !! srq = None -> ib_create_srq_user srq pd t cq xrcd nomem ret h = Some (r, h') ->
  failed r = true -> bodies h' = bodies h.
Proof. intros Hi E Hf. unfold ib_create_srq_user in E. destruct t; cbn in E; failed_run. Qed.

Lemma failed_ah ah pd sgid user no_op nomem ret h r h' :
  h !! ah = None -> _rdma_create_ah ah pd sgid user no_op nomem ret h = Some (r, h') ->
  failed r = true -> bodies h' = bodies h.
Proof. intros Hi E Hf. unfold _rdma_create_ah in E. failed_run. Qed.

Lemma failed_pd pd nomem ret want mr_ret h r h' :
  h !! pd = None -> __ib_alloc_pd pd nomem ret want mr_ret 0 h = Some (r, h') ->
  failed r = true -> bodies h' = bodies h.
Proof.
  intros Hi E Hf. unfold __ib_alloc_pd, ib_dealloc_pd_user, get_body in E.
  unfold alloc in E. rewrite lookup_insert_eq in E. cbn in E. fold (alloc pd (Pd false) h) in E.
  failed_run.
Qed.

Lemma failed_open qp xrcd t n nomem sec h r h' :
  h !! qp = None -> ib_open_qp qp xrcd t n nomem sec h = Some (r, h') ->
  failed r = true -> bodies h' = bodies h.
Proof.
  intros Hi E Hf. unfold ib_open_qp, __ib_open_qp in E.
  destruct (negb _); [by simplify_eq|]. destruct (get_xrcd xrcd h) as [tgt|]; [|done]. cbn in E.
  destruct (tgt !! n); [|by simplify_eq]. destruct nomem; [by simplify_eq|].
  destruct (get_qp _ h); [|done]. cbn in E. failed_run.
Qed.

Lemma failed_qp_user qp handle pd attr env nomem sec store dret h r h' :
  h !! qp = None -> (ia_type attr =? IB_QPT_XRC_TGT) = false ->
  uverbs_create_qp qp handle pd attr env nomem sec store dret h = Some (r, h') ->
  failed r = true -> bodies h' = bodies h.
Proof.
  intros Hi Ht E Hf. unfold uverbs_create_qp, ib_create_qp_user in E.
  destruct (create_qp_cases qp pd attr env h Hi) as (r' & Hc & Hr). rewrite Hc, Hr, Ht in E. cbn in E.
  rewrite Hr in E. destruct (create_ok env); cbn in E; [|by simplify_eq].
  destruct (ib_qp_usecnt_inc qp _); [|done]. cbn in E. by simplify_eq.
Qed.

Lemma failed_qp_kernel e qp pd attr env rw rw_ret h r h' :
  inv e h -> h !! qp = None -> live (bodies h) KPd pd -> attr_ok (bodies h) attr ->
  ib_create_qp_kernel qp pd attr env rw rw_ret 0 h = Some (r, h') ->
  failed r = true -> bodies h' = bodies h.
Proof.
  intros Hinv Hi Hpd Ha E Hf. unfold ib_create_qp_kernel in E.
  destruct (create_qp_cases qp (Some pd) attr env h Hi) as (r' & Hc & Hr). rewrite Hc, Hr in E.
  destruct (create_ok env); cbn [negb] in E; [|by simplify_eq].
  destruct (created_qp e h qp (new_qp qp (Some pd) attr) Hinv Hi) as (h1 & Hi1 & Hinv1 & U & Ho1);
    [done|done|apply attr_refs; [|done]; by intros ? [= <-]|].
  rewrite Hi1 in E. cbn [mbind option_bind] in E. destruct (rw && failed rw_ret); [|by simplify_eq].
  assert (Hq1 : qp_of (bodies h1) qp = Some (new_qp qp (Some pd) attr)).
  { apply qp_of_Some. by rewrite bodies_lookup, Ho1. }
  destruct (destroy_real_ok e h1 qp _ 0 Hinv1 Ho1) as (h2 & E2 & _ & Hb2); [done| |].
  { apply untargeted_unless; [apply Hinv1|]. intros q2 Hq2. rewrite Hq1 in Hq2. by injection Hq2 as <-. }
  unfold ib_destroy_qp_user in E. rewrite (proj2 (get_qp_of _ _ _) Hq1) in E.
  unfold atomic_read in E. rewrite Ho1 in E. cbn in E. rewrite Z.eqb_refl in E. cbn in E.
  rewrite E2 in E. cbn in E. simplify_eq. rewrite Hb2, (proj1 U). unfold alloc.
  rewrite bodies_insert. apply delete_insert_id. by rewrite bodies_lookup, Hi.
Qed.

(** A creation that fails leaves memory as it was: every count it took is
    given back and what it allocated is freed (creation of XRC target queue
    pairs aside, and provided the driver lets the rollback destroy what it
    created). *)
Theorem failed_creation_restores e h o r h' :
  reachable e h -> creation o = true -> args_ok o e h -> exec o h = Some (r, h') ->
  failed r = true -> h' = h.
Proof.
  intros Hinv%reachable_inv Hc Ha E Hf. destruct (exec_ok e h o Hinv Ha) as (r2 & h2 & E2 & Hinv2).
  rewrite E in E2. injection E2 as <- <-.
  assert (He : ext_after o r e = e).
  { destruct o; try done. cbn in Hc |- *. unfold xrc_leak. destruct (ia_type attr =? IB_QPT_XRC_TGT); [done|].
    cbn. rewrite andb_false_r. by destruct (ia_xrcd attr). }
  rewrite He in Hinv2. apply (inv_unique e); [done..|].
  destruct o; try done; cbn [creation] in Hc; cbn [args_ok exec] in *; decompose [and] Ha.
  - apply Z.eqb_eq in Hc as ->. by eapply failed_pd.
  - by eapply failed_ah.
  - by eapply failed_srq.
  - eapply failed_qp_user; [| |exact E|done]; [done|]. by destruct (ia_type attr =? IB_QPT_XRC_TGT).
  - apply Z.eqb_eq in Hc as ->. by eapply failed_qp_kernel.
  - by eapply failed_open.
  - unfold __ib_create_cq in E. failed_run.
  - unfold ib_reg_user_mr in E. failed_run.
  - unfold ib_alloc_mr in E. failed_run.
  - unfold ib_alloc_mr_integrity in E. failed_run.
  - unfold ib_alloc_xrcd_user in E. failed_run.
  - unfold ib_create_wq in E. failed_run.
Qed.

(** ** XRC target queue pairs *)

(** When the creation of an XRC target queue pair fails after the driver has
    made the queue pair, and the driver destroys it again, the one thing left
    of it is a count on the XRC domain: memory is exactly what taking that
    count alone gives, and from then on the domain can not be deallocated. *)
Theorem xrc_create_failure_leaks e h qp handle pd attr env nomem sec store x :
  reachable e h -> args_ok (OpCreateQpUser qp handle pd attr env nomem sec store 0) e h ->
  attr.(ia_type) = IB_QPT_XRC_TGT -> attr.(ia_xrcd) = Some x -> create_ok env = true ->
  nomem || failed sec || failed store = true ->
  exists r h', exec (OpCreateQpUser qp handle pd attr env nomem sec store 0) h = Some (r, h') /\
    failed r = true /\ atomic_inc x h = Some h' /\
    (forall ret, ib_dealloc_xrcd_user x ret h' = Some (- EBUSY, false, h')).
Proof.
  intros Hinv%reachable_inv Ha Ht Hx Hok Hfail. pose proof Ha as (Hi & Hh & Hne & _ & _ & Hxrc).
  destruct (Hxrc Ht) as (Hrwq & x' & Hx' & Hlx). rewrite Hx in Hx'. injection Hx' as <-.
  destruct (exec_ok e h _ Hinv Ha) as (r & h' & E & Hinv').
  assert (Hres : failed r = true /\ bodies h' = bodies h).
  { cbn [exec] in E. unfold uverbs_create_qp, ib_create_qp_user in E.
    destruct (create_qp_cases qp pd attr env h Hi) as (r0 & Hc & Hr0).
    rewrite Hc, Hr0, Hok, Ht, Hx in E. cbn [negb orb mbind option_bind Z.eqb] in E.
    destruct (create_xrc_ok e h qp handle x (new_qp qp pd attr) nomem sec store Hinv Hi Hh Hne Hlx Hrwq)
      as (err & h1 & E1 & Hfe & Hinv1 & H1). rewrite Hfail in Hfe. rewrite Hfe in H1.
    destruct H1 as (Ho1 & Hu1 & U). cbv [IB_QPT_XRC_TGT] in E. cbn [Z.eqb Pos.eqb negb orb] in E.
    rewrite E1 in E. cbn [mbind option_bind] in E.
    destruct (destroy_orphan e h1 qp _ x 0 Hinv1 Ho1) as (h2 & E2 & _ & Hb2); [done..|].
    rewrite Hfe, E2 in E. cbn [mbind option_bind] in E. rewrite Hfe in E. injection E as <- <-.
    split; [done|]. rewrite Hb2, (proj1 U). unfold alloc. rewrite bodies_insert.
    apply delete_insert_id. by rewrite bodies_lookup, Hi. }
  destruct Hres as [Hf Hb]. exists r, h'. split; [exact E|]. split; [exact Hf|].
  cbn [ext_after] in Hinv'. unfold xrc_leak in Hinv'. rewrite Hx, Hf, Hok, Ht in Hinv'. cbn in Hinv'.
  destruct (atomic_inc_spec x h) as (h2 & E2 & U2); [by eapply live_lookup|].
  assert (h' = h2) as ->.
  { apply (inv_unique (shift_ext x 1 e)); [|exact Hinv'|by rewrite Hb, (proj1 U2)].
    eapply inv_shift; [exact Hinv|by right| |exact U2]. pose proof (inv_ext _ _ Hinv x). lia. }
  split; [done|]. intros ret. unfold ib_dealloc_xrcd_user, atomic_read.
  assert (Hl2 : live (bodies h2) KXrcd x) by by rewrite Hb.
  destruct (live_get _ _ _ Hl2) as (o & Ho & _). rewrite Ho. cbn [fmap option_fmap option_map mbind option_bind].
  pose proof (inv_cnt _ _ Hinv' _ _ Ho) as Hn. pose proof (nrefs_nonneg (bodies h2) x).
  pose proof (inv_ext _ _ Hinv x). unfold shift_ext in Hn. rewrite decide_True in Hn by done.
  assert (c_true (usecnt o) = true) as -> by (unfold c_true; lia). done.
Qed.

(** Closing a shared handle of an XRC target queue pair frees the handle;
    while other handles are open nothing else changes, and with the last one the
    queue pair's number leaves the domain's table, the real queue pair is
    destroyed and its count on the domain is given back. *)
Theorem xrc_last_handle e h qp q rq x t :
  reachable e h -> h !! qp = Some (mk_obj 0 (Qp q)) -> q.(real_qp) <> qp ->
  get_qp q.(real_qp) h = Some rq -> rq.(qp_xrcd) = Some x -> get_xrcd x h = Some t ->
  exists h', exec (OpDestroyQp qp 0) h = Some (0, h') /\ inv e h' /\
    bodies h' =
      if bool_decide (cnt h q.(real_qp) = Some 1) then
        delete q.(real_qp) (<[x := Xrcd (delete rq.(qp_num) t)]> (delete qp (bodies h)))
      else delete qp (bodies h).
Proof.
  intros Hinv%reachable_inv Ho Hne Hrq%get_qp_of Hx Ht.
  assert (Hq : qp_of (bodies h) qp = Some q) by (apply qp_of_Some; by rewrite bodies_lookup, Ho).
  destruct (destroy_shared_cases e h qp q rq x t 0) as (h' & E & Hinv' & Hb); [done..|].
  exists h'. split; [|split; [done|]].
  - cbn [exec]. unfold ib_destroy_qp_user, atomic_read. rewrite Ho.
    cbn [fmap option_fmap option_map usecnt mbind option_bind c_true negb Z.eqb].
    rewrite (proj2 (get_qp_of _ _ _) Hq). cbn [mbind option_bind].
    by rewrite (proj2 (Z.eqb_neq _ _) Hne).
  - rewrite Hb. by case_bool_decide.
Qed.

(** An XRC domain that nothing references has no queue pair in its table: the
    warning of [ib_dealloc_xrcd_user] never fires, and a lookup by number in a
    domain's table finds a live real queue pair of that number and domain. *)
Theorem xrcd_table_sound e h x t :
  reachable e h -> get_xrcd x h = Some t ->
  (forall ret, exists r h', ib_dealloc_xrcd_user x ret h = Some (r, false, h')) /\
  (forall n i, t !! n = Some i -> exists q, get_qp i h = Some q /\ q.(real_qp) = i /\
     q.(qp_xrcd) = Some x /\ q.(qp_num) = n).
Proof.
  intros Hinv%reachable_inv Ht.
  assert (Htx : tgts_of (bodies h) x = Some t).
  { unfold tgts_of. rewrite bodies_lookup. exact Ht. }
  split.
  - intros ret. destruct (dealloc_xrcd_ok e h x ret Hinv) as (r & h' & E & _); [|by eauto].
    apply tgts_of_Some in Htx. by exists (Xrcd t).
  - intros n i Hn. destruct (wf_tgts _ (inv_wf _ _ Hinv) _ _ _ _ Htx Hn) as (q & Hq & ?).
    exists q. split; [by apply get_qp_of|done].
Qed.

(** ** Concrete runs *)

Fixpoint run_ops (ops : list op) (h : heap) : option heap :=
  match ops with
  | [] => Some h
  | o :: ops => '(_, h) ← exec o h; run_ops ops h
  end.

Definition xrc_attr : ib_qp_init_attr := mk_init IB_QPT_XRC_TGT 77 None None None None (Some 1).
Definition good_env : create_env := mk_env false false 0 0.

(** A domain, then a target queue pair in it with its first handle, 3. *)
Definition xrc_ops : list op :=
  [OpAllocXrcd 1 false false 0; OpCreateQpUser 2 3 None xrc_attr good_env false 0 0 0].

Definition xrc_heap (n : nat) : heap := default ∅ (run_ops (take n xrc_ops) ∅).

(** Discharge the contract on concrete memory. *)
Ltac contract :=
  cbn [args_ok];
  repeat match goal with
  | |- _ /\ _ => split
  | |- opt_live _ _ None => discriminate
  | |- opt_live _ _ (Some _) => intros ? [= <-]
  | |- live _ _ _ => eexists; split; vm_compute; reflexivity
  | |- attr_ok _ _ => unfold attr_ok; cbn
  | |- _ -> _ => intros ?
  end; try (vm_compute; (reflexivity || discriminate)); try done.

Lemma xrc_domain_reachable : reachable (fun _ => 0) (xrc_heap 1).
Proof.
  eapply (reachable_step _ _ (OpAllocXrcd 1 false false 0) 0); [apply reachable_empty|contract|].
  vm_compute. reflexivity.
Qed.

Lemma xrc_reachable : reachable (fun _ => 0) (xrc_heap 2).
Proof.
  eapply (reachable_step _ _ (OpCreateQpUser 2 3 None xrc_attr good_env false 0 0 0) 0);
    [apply xrc_domain_reachable| |vm_compute; reflexivity].
  cbn [args_ok]. contract. eexists. split; [reflexivity|]. contract.
Qed.

Lemma xrc_destroy_contract : args_ok (OpDestroyQp 3 0) (fun _ => 0) (xrc_heap 2).
Proof. eexists. split; [vm_compute; reflexivity|]. cbn. lia. Qed.

Lemma verbs_objects_safe_witness :
  reachable (fun _ => 0) (xrc_heap 2) /\ is_Some (exec (OpDestroyQp 3 0) (xrc_heap 2)) /\
  usecnt <$> xrc_heap 2 !! 1 = Some 1.
Proof.
  split; [apply xrc_reachable|]. split; [|vm_compute; reflexivity].
  apply (verbs_objects_safe (fun _ => 0) (xrc_heap 2) xrc_reachable). apply xrc_destroy_contract.
Defined.

Lemma destroy_exact_witness :
  exec (OpDeallocXrcd 1 0) (xrc_heap 2) = Some (- EBUSY, xrc_heap 2) /\
  destroyed_by (OpDestroyQp 3 0) 3 (xrc_heap 2).
Proof.
  split.
  - apply (destroy_exact (fun _ => 0) (xrc_heap 2) KXrcd 1 (mk_obj 1 (Xrcd {[77 := 2]})));
      [apply xrc_reachable|vm_compute; reflexivity|done|done|contract|done].
  - eapply (destroy_exact (fun _ => 0) (xrc_heap 2) KQp 3);
      [apply xrc_reachable|vm_compute; reflexivity|done|done|apply xrc_destroy_contract|done].
Defined.

Lemma failed_creation_restores_witness :
  exec (OpOpenQp 4 1 IB_QPT_XRC_TGT 77 false (-13)) (xrc_heap 2) = Some (-13, xrc_heap 2).
Proof.
  destruct (exec (OpOpenQp 4 1 IB_QPT_XRC_TGT 77 false (-13)) (xrc_heap 2)) as [[r h']|] eqn:E;
    [|vm_compute in E; discriminate].
  assert (r = -13) as -> by (vm_compute in E; by injection E as <-). f_equal. f_equal.
  eapply (failed_creation_restores (fun _ => 0) (xrc_heap 2)); [apply xrc_reachable| | |exact E|];
    [done|contract|done].
Defined.

Lemma xrc_create_failure_leaks_witness :
  exists h', exec (OpCreateQpUser 2 3 None xrc_attr good_env false (-13) 0 0) (xrc_heap 1) =
    Some (-13, h') /\ atomic_inc 1 (xrc_heap 1) = Some h'.
Proof.
  destruct (xrc_create_failure_leaks (fun _ => 0) (xrc_heap 1) 2 3 None xrc_attr good_env false (-13) 0 1)
    as (r & h' & E & _ & Hi & _);
    [apply xrc_domain_reachable| |done|done|done|done|].
  - cbn [args_ok]. contract. eexists. split; [reflexivity|]. contract.
  - exists h'. split; [|exact Hi]. rewrite E. f_equal. f_equal. vm_compute in E. by injection E as <-.
Defined.

Lemma xrc_last_handle_witness :
  exists h', exec (OpDestroyQp 3 0) (xrc_heap 2) = Some (0, h') /\ bodies h' = bodies (xrc_heap 1).
Proof.
  edestruct (xrc_last_handle (fun _ => 0) (xrc_heap 2) 3) as (h' & E & _ & Hb);
    [apply xrc_reachable|vm_compute; reflexivity|done|vm_compute; reflexivity|done|
     vm_compute; reflexivity|].
  exists h'. split; [exact E|]. rewrite Hb. vm_compute. reflexivity.
Defined.

Lemma xrcd_table_sound_witness :
  exists q, get_qp 2 (xrc_heap 2) = Some q /\ q.(qp_num) = 77.
Proof.
  destruct (xrcd_table_sound (fun _ => 0) (xrc_heap 2) 1 {[77 := 2]}) as [_ Ht];
    [apply xrc_reachable|vm_compute; reflexivity|].
  destruct (Ht 77 2) as (q & Hq & _ & _ & Hn); [vm_compute; reflexivity|]. by exists q.
Defined.
