(* ===== verification/RmppRecv.v ===== *)
(** Reassembly of RMPP messages: the receive side of
    drivers/infiniband/core/mad_rmpp.c.

    A received MAD carries the identity of its buffer, so that holding, freeing
    and delivering a buffer can be told apart from its contents; the segment
    list of a context is kept in list order and [cur_seg_buf] is a buffer
    identity. An operation runs from entry to exit in one step. What it does to
    the rest of the kernel is a list of effects: responses posted and receive
    buffers freed. Whether a response can be allocated and posted, and whether a
    context can be created, are arguments. *)

From Stdlib Require Import Sorted.
From S2P Require Import Prelude.

(** ** Management datagrams *)

Definition IB_MGMT_CLASS_SUBN_ADM : Z := 0x03.
Definition IB_MGMT_CLASS_DEVICE_MGMT : Z := 0x06.
Definition IB_MGMT_CLASS_DEVICE_ADM : Z := 0x10.
Definition IB_MGMT_CLASS_BIS : Z := 0x12.
Definition IB_MGMT_CLASS_VENDOR_RANGE2_START : Z := 0x30.
Definition IB_MGMT_CLASS_VENDOR_RANGE2_END : Z := 0x4F.
Definition OPA_MGMT_BASE_VERSION : Z := 0x80.

Definition IB_MGMT_MAD_HDR : Z := 24.
Definition IB_MGMT_RMPP_HDR : Z := 36.
Definition IB_MGMT_RMPP_DATA : Z := 220.
Definition IB_MGMT_VENDOR_HDR : Z := 40.
Definition IB_MGMT_SA_HDR : Z := 56.
Definition IB_MGMT_DEVICE_HDR : Z := 64.
Definition OPA_MGMT_RMPP_DATA : Z := 2012.

(** [sizeof] of [struct ib_mad] and [struct ib_rmpp_mad], and of the OPA ones. *)
Definition IB_MGMT_MAD_SIZE : Z := 256.
Definition OPA_MGMT_MAD_SIZE : Z := 2048.

Definition IB_MGMT_RMPP_FLAG_ACTIVE : Z := 1.
Definition IB_MGMT_RMPP_FLAG_FIRST : Z := 2.
Definition IB_MGMT_RMPP_FLAG_LAST : Z := 4.

Definition IB_MGMT_RMPP_STATUS_T2L : Z := 118.
Definition IB_MGMT_RMPP_STATUS_BAD_SEG : Z := 120.
Definition IB_MGMT_RMPP_STATUS_BAD_STATUS : Z := 124.

Definition ib_get_mad_data_offset (mgmt_class : Z) : Z :=
  if mgmt_class =? IB_MGMT_CLASS_SUBN_ADM then IB_MGMT_SA_HDR
  else if (mgmt_class =? IB_MGMT_CLASS_DEVICE_MGMT) || (mgmt_class =? IB_MGMT_CLASS_DEVICE_ADM)
          || (mgmt_class =? IB_MGMT_CLASS_BIS) then IB_MGMT_DEVICE_HDR
  else if (IB_MGMT_CLASS_VENDOR_RANGE2_START <=? mgmt_class)
          && (mgmt_class <=? IB_MGMT_CLASS_VENDOR_RANGE2_END) then IB_MGMT_VENDOR_HDR
  else IB_MGMT_MAD_HDR.

(** What [find_rmpp_recv] compares: header fields and the work completion's. *)
Record rmpp_key := mk_key {
  tid : Z; src_qp : Z; slid : Z; mgmt_class : Z; class_version : Z; method : Z
}.

#[export] Instance rmpp_key_eq : EqDecision rmpp_key.
Proof. solve_decision. Defined.

(** A received MAD: the bytes of its headers, up to and with the class header,
    the fields of them the code reads, and the [payload] that follows. *)
Record rmpp_mad := mk_mad {
  mad_id : Z; key : rmpp_key; base_version : Z;
  rmpp_rtime_flags : Z; rmpp_status : Z; rmpp_seg_num : Z; paylen_newwin : Z;
  mad_hdr : list Z; payload : list Z
}.

Definition ib_get_rmpp_flags (m : rmpp_mad) : Z := Z.land m.(rmpp_rtime_flags) 7.
Definition get_first_flag (m : rmpp_mad) : bool :=
  c_true (Z.land (ib_get_rmpp_flags m) IB_MGMT_RMPP_FLAG_FIRST).
Definition get_last_flag (m : rmpp_mad) : bool :=
  c_true (Z.land (ib_get_rmpp_flags m) IB_MGMT_RMPP_FLAG_LAST).
Definition get_seg_num (m : rmpp_mad) : Z := s32 m.(rmpp_seg_num).

(** ** Contexts *)

Inductive rmpp_state := RMPP_STATE_ACTIVE | RMPP_STATE_TIMEOUT | RMPP_STATE_COMPLETE.

#[export] Instance rmpp_state_eq : EqDecision rmpp_state.
Proof. solve_decision. Defined.

(** [struct mad_rmpp_recv]; [segs] is the list at [rmpp_wc->rmpp_list],
    [timeout_work] and [cleanup_work] tell whether the work is queued. *)
Record mad_rmpp_recv := mk_recv {
  rkey : rmpp_key; state : rmpp_state; refcount : Z;
  segs : list rmpp_mad; cur_seg_buf : Z;
  last_ack : Z; seg_num : Z; newwin : Z; repwin : Z; r_base_version : Z;
  timeout_work : bool; cleanup_work : bool
}.

Definition set_ref (d : Z) (r : mad_rmpp_recv) : mad_rmpp_recv :=
  mk_recv r.(rkey) r.(state) (r.(refcount) + d) r.(segs) r.(cur_seg_buf) r.(last_ack) r.(seg_num)
    r.(newwin) r.(repwin) r.(r_base_version) r.(timeout_work) r.(cleanup_work).
Definition set_state (s : rmpp_state) (r : mad_rmpp_recv) : mad_rmpp_recv :=
  mk_recv r.(rkey) s r.(refcount) r.(segs) r.(cur_seg_buf) r.(last_ack) r.(seg_num)
    r.(newwin) r.(repwin) r.(r_base_version) r.(timeout_work) r.(cleanup_work).
Definition set_segs (l : list rmpp_mad) (r : mad_rmpp_recv) : mad_rmpp_recv :=
  mk_recv r.(rkey) r.(state) r.(refcount) l r.(cur_seg_buf) r.(last_ack) r.(seg_num)
    r.(newwin) r.(repwin) r.(r_base_version) r.(timeout_work) r.(cleanup_work).
Definition set_cur (cur n : Z) (r : mad_rmpp_recv) : mad_rmpp_recv :=
  mk_recv r.(rkey) r.(state) r.(refcount) r.(segs) cur r.(last_ack) n
    r.(newwin) r.(repwin) r.(r_base_version) r.(timeout_work) r.(cleanup_work).
Definition set_last_ack (a : Z) (r : mad_rmpp_recv) : mad_rmpp_recv :=
  mk_recv r.(rkey) r.(state) r.(refcount) r.(segs) r.(cur_seg_buf) a r.(seg_num)
    r.(newwin) r.(repwin) r.(r_base_version) r.(timeout_work) r.(cleanup_work).
Definition add_newwin (w : Z) (r : mad_rmpp_recv) : mad_rmpp_recv :=
  mk_recv r.(rkey) r.(state) r.(refcount) r.(segs) r.(cur_seg_buf) r.(last_ack) r.(seg_num)
    (r.(newwin) + w) r.(repwin) r.(r_base_version) r.(timeout_work) r.(cleanup_work).
Definition set_works (t c : bool) (r : mad_rmpp_recv) : mad_rmpp_recv :=
  mk_recv r.(rkey) r.(state) r.(refcount) r.(segs) r.(cur_seg_buf) r.(last_ack) r.(seg_num)
    r.(newwin) r.(repwin) r.(r_base_version) t c.

(** The agent: its contexts in list order, the size of the receive queue, and
    whether the port uses OPA datagrams. *)
Record rmpp_agent := mk_agent { recvs : list mad_rmpp_recv; max_active : Z; opa : bool }.

Definition window_size (a : rmpp_agent) : Z := Z.max (Z.shiftr a.(max_active) 3) 1.

Inductive effect :=
  | Ack (to : rmpp_key) (seg win : Z)
  | Nack (to : rmpp_key) (status : Z)
  | Free (mad : Z).

(** [ack_recv]: the message is posted, can not be allocated, or is formatted and
    can not be posted. *)
Inductive ack_env := AckPosted | AckNoMem | AckNotPosted.

Definition ack_recv (r : mad_rmpp_recv) (m : rmpp_mad) (env : ack_env)
    : mad_rmpp_recv * list effect :=
  match env with
  | AckNoMem => (r, [])
  | AckPosted => (set_last_ack r.(seg_num) r, [Ack m.(key) r.(seg_num) r.(newwin)])
  | AckNotPosted => (set_last_ack r.(seg_num) r, [])
  end.

(** [posted]: the response is allocated and posted. *)
Definition nack_recv (m : rmpp_mad) (status : Z) (posted : bool) : list effect :=
  if posted then [Nack m.(key) status] else [].

Definition ib_free_recv_mad (l : list rmpp_mad) : list effect := Free ∘ mad_id <$> l.

Fixpoint find_recv (l : list mad_rmpp_recv) (k : rmpp_key) : option mad_rmpp_recv :=
  match l with
  | [] => None
  | r :: l => if bool_decide (r.(rkey) = k) then Some r else find_recv l k
  end.

Definition find_rmpp_recv (a : rmpp_agent) (m : rmpp_mad) : option mad_rmpp_recv :=
  find_recv a.(recvs) m.(key).

(** The context of [r]'s key becomes [r]. *)
Fixpoint put_recv (r : mad_rmpp_recv) (l : list mad_rmpp_recv) : list mad_rmpp_recv :=
  match l with
  | [] => []
  | r' :: l => if bool_decide (r'.(rkey) = r.(rkey)) then r :: l else r' :: put_recv r l
  end.

(** [list_del] of the context of key [k]. *)
Fixpoint del_recv (k : rmpp_key) (l : list mad_rmpp_recv) : list mad_rmpp_recv :=
  match l with
  | [] => []
  | r :: l => if bool_decide (r.(rkey) = k) then l else r :: del_recv k l
  end.

Definition with_recvs (a : rmpp_agent) (l : list mad_rmpp_recv) : rmpp_agent :=
  mk_agent l a.(max_active) a.(opa).
Definition put (a : rmpp_agent) (r : mad_rmpp_recv) : rmpp_agent :=
  with_recvs a (put_recv r a.(recvs)).
Definition del (a : rmpp_agent) (k : rmpp_key) : rmpp_agent :=
  with_recvs a (del_recv k a.(recvs)).

Definition create_rmpp_recv (m : rmpp_mad) : mad_rmpp_recv :=
  mk_recv m.(key) RMPP_STATE_ACTIVE 1 [m] m.(mad_id) 0 1 1 1 m.(base_version) false false.

(** ** Segments *)

(** [list_for_each_entry_reverse] over the segments, given in reverse. *)
Fixpoint find_seg_rev (l : list rmpp_mad) (n : Z) : option rmpp_mad :=
  match l with
  | [] => None
  | s :: l => if get_seg_num s <? n then Some s
              else if n =? get_seg_num s then None else find_seg_rev l n
  end.

Definition find_seg_location (l : list rmpp_mad) (n : Z) : option rmpp_mad :=
  find_seg_rev (reverse l) n.

(** [list_add(&m->list, &prev->list)] *)
Fixpoint list_add (m : rmpp_mad) (prev : Z) (l : list rmpp_mad) : list rmpp_mad :=
  match l with
  | [] => []
  | s :: l => if s.(mad_id) =? prev then s :: m :: l else s :: list_add m prev l
  end.

(** The segments from buffer [i] on. *)
Fixpoint from_buf (i : Z) (l : list rmpp_mad) : list rmpp_mad :=
  match l with
  | [] => []
  | s :: l' => if s.(mad_id) =? i then l else from_buf i l'
  end.

(** The loop of [update_seg_num] over the segments from [new_buf] on. *)
Fixpoint update_seg_num (l : list rmpp_mad) (cur n : Z) : Z * Z :=
  match l with
  | [] => (cur, n)
  | s :: l => if get_seg_num s =? n + 1 then update_seg_num l s.(mad_id) (n + 1) else (cur, n)
  end.

Definition seg_of (r : mad_rmpp_recv) : option rmpp_mad := head (from_buf r.(cur_seg_buf) r.(segs)).

(** [pad] is computed in [u32] and stored in an [int]. *)
Definition mad_pad (data paylen : Z) : Z :=
  let pad := s32 (u32 (data - paylen)) in
  if (data <? pad) || (pad <? 0) then 0 else pad.

Definition get_mad_len (a : rmpp_agent) (r : mad_rmpp_recv) : option Z :=
  cur ← seg_of r;
  let hdr_size := ib_get_mad_data_offset cur.(key).(mgmt_class) in
  let '(size, data) :=
    if a.(opa) && (r.(r_base_version) =? OPA_MGMT_BASE_VERSION)
    then (OPA_MGMT_MAD_SIZE, OPA_MGMT_RMPP_DATA) else (IB_MGMT_MAD_SIZE, IB_MGMT_RMPP_DATA) in
  Some (s32 (hdr_size + r.(seg_num) * (size - hdr_size) - mad_pad data cur.(paylen_newwin))).

(** ** Operations *)

(** A message handed to the client: its buffers in order and [mad_len]. *)
Abbreviation message := (list rmpp_mad * Z)%type.

(** State, effects, and what is returned; [None] is a null dereference. *)
Abbreviation result := (option (rmpp_agent * list effect * option message)).

Definition complete_rmpp (a : rmpp_agent) (r : mad_rmpp_recv) (env : ack_env)
    : option (mad_rmpp_recv * list effect * message) :=
  wc ← head r.(segs);
  let '(r, out) := ack_recv r wc env in
  len ← get_mad_len a r;
  Some (set_works (if 1 <? r.(seg_num) then false else r.(timeout_work)) true r, out,
        (r.(segs), len)).

Definition continue_rmpp (a : rmpp_agent) (m : rmpp_mad) (env : ack_env) : result :=
  match find_rmpp_recv a m with
  | None => Some (a, ib_free_recv_mad [m], None)
  | Some r =>
      let r := set_ref 1 r in
      let seg_num_ := get_seg_num m in
      let drop r out := Some (put a (set_ref (-1) r), out ++ ib_free_recv_mad [m], None) in
      if bool_decide (r.(state) = RMPP_STATE_TIMEOUT) || (r.(newwin) <? seg_num_) then drop r [] else
      if (seg_num_ <=? r.(last_ack)) || bool_decide (r.(state) = RMPP_STATE_COMPLETE) then
        let '(r, out) := ack_recv r m env in drop r out
      else
      match find_seg_location r.(segs) seg_num_ with
      | None => drop r []
      | Some prev =>
          let r0 := set_segs (list_add m prev.(mad_id) r.(segs)) r in
          if r0.(cur_seg_buf) =? prev.(mad_id) then
            let '(cur, n) := update_seg_num (from_buf m.(mad_id) r0.(segs)) r0.(cur_seg_buf) r0.(seg_num) in
            let r1 := set_cur cur n r0 in
            s ← seg_of r1;
            if get_last_flag s then
              '(r2, out, msg) ← complete_rmpp a (set_state RMPP_STATE_COMPLETE r1) env;
              Some (put a (set_ref (-1) r2), out, Some msg)
            else if r1.(seg_num) =? r1.(newwin) then
              let '(r2, out) := ack_recv (add_newwin (window_size a) r1) m env in
              Some (put a (set_ref (-1) r2), out, None)
            else Some (put a (set_ref (-1) r1), [], None)
          else Some (put a (set_ref (-1) r0), [], None)
      end
  end.

(** [created]: memory and an address handle for the context can be had. *)
Definition start_rmpp (a : rmpp_agent) (m : rmpp_mad) (created : bool) (env : ack_env) : result :=
  if negb created then Some (a, ib_free_recv_mad [m], None) else
  let r := create_rmpp_recv m in
  match find_rmpp_recv a m with
  | Some _ => continue_rmpp a m env (* duplicate first MAD *)
  | None =>
      let a := with_recvs a (a.(recvs) ++ [r]) in
      let r := set_ref 1 r in
      if get_last_flag m then
        '(r, out, msg) ← complete_rmpp a (set_state RMPP_STATE_COMPLETE r) env;
        Some (put a (set_ref (-1) r), out, Some msg)
      else
        let r := add_newwin (window_size a) (set_works true r.(cleanup_work) r) in
        let '(r, out) := ack_recv r m env in
        Some (put a (set_ref (-1) r), out, None)
  end.

Definition process_rmpp_data (a : rmpp_agent) (m : rmpp_mad) (created posted : bool)
    (env : ack_env) : result :=
  let bad status := Some (a, nack_recv m status posted ++ ib_free_recv_mad [m], None) in
  if c_true m.(rmpp_status) then bad IB_MGMT_RMPP_STATUS_BAD_STATUS else
  if m.(rmpp_seg_num) =? 1 then
    if negb (get_first_flag m) then bad IB_MGMT_RMPP_STATUS_BAD_SEG
    else start_rmpp a m created env
  else
    if get_first_flag m then bad IB_MGMT_RMPP_STATUS_BAD_SEG
    else continue_rmpp a m env.

(** [deref_rmpp_recv]; the handler waits until the count is zero. *)
Definition destroy_rmpp_recv (r : mad_rmpp_recv) : option unit :=
  if r.(refcount) - 1 =? 0 then Some tt else None.

(** The work runs only when queued. *)
Definition recv_timeout_handler (a : rmpp_agent) (k : rmpp_key) (posted : bool) : result :=
  match find_recv a.(recvs) k with
  | Some r =>
      if negb r.(timeout_work) then Some (a, [], None) else
      let r := set_works false r.(cleanup_work) r in
      if negb (bool_decide (r.(state) = RMPP_STATE_ACTIVE)) then Some (put a r, [], None) else
      wc ← head r.(segs);
      _ ← destroy_rmpp_recv r;
      Some (del a k, nack_recv wc IB_MGMT_RMPP_STATUS_T2L posted ++ ib_free_recv_mad r.(segs), None)
  | None => Some (a, [], None)
  end.

Definition recv_cleanup_handler (a : rmpp_agent) (k : rmpp_key) : result :=
  match find_recv a.(recvs) k with
  | Some r =>
      if negb r.(cleanup_work) then Some (a, [], None) else
      _ ← destroy_rmpp_recv r;
      Some (del a k, [], None)
  | None => Some (a, [], None)
  end.

(** The contexts an agent going away still has, freed one after the other. *)
Fixpoint cancel_recvs (l : list mad_rmpp_recv) : option (list effect) :=
  match l with
  | [] => Some []
  | r :: l =>
      _ ← destroy_rmpp_recv r;
      out ← cancel_recvs l;
      Some ((if bool_decide (r.(state) = RMPP_STATE_COMPLETE) then []
             else ib_free_recv_mad r.(segs)) ++ out)
  end.

Definition ib_cancel_rmpp_recvs (a : rmpp_agent) : result :=
  out ← cancel_recvs a.(recvs); Some (with_recvs a [], out, None).

(** ** Segment lists *)

Abbreviation nums := (fmap get_seg_num).
Abbreviation ids := (fmap mad_id).

Lemma find_seg_rev_Some l n s :
  find_seg_rev l n = Some s ->
  exists l1 l2, l = l1 ++ s :: l2 /\ Forall (fun x => n < get_seg_num x) l1 /\ get_seg_num s < n.
Proof.
  induction l as [|x l IH]; [done|]. cbn. destruct (Z.ltb_spec (get_seg_num x) n).
  - intros [= <-]. by exists [], l.
  - destruct (Z.eqb_spec n (get_seg_num x)); [done|]. intros (l1 & l2 & -> & Hl & Hs)%IH.
    exists (x :: l1), l2. split; [done|]. split; [|done]. constructor; [lia|done].
Qed.

Lemma find_seg_rev_None l n :
  find_seg_rev l n = None -> n ∈ nums l \/ Forall (fun x => n < get_seg_num x) l.
Proof.
  induction l as [|x l IH]; [by right|]. cbn. destruct (Z.ltb_spec (get_seg_num x) n); [done|].
  destruct (Z.eqb_spec n (get_seg_num x)) as [->|]; [intros _; left; left|].
  intros [Hin|Hall]%IH; [left; by right|right; constructor; [lia|done]].
Qed.

(** [find_seg_location]: the last segment before [n], none after it reached. *)
Lemma find_seg_location_Some l n s :
  find_seg_location l n = Some s ->
  exists l1 l2, l = l1 ++ s :: l2 /\ Forall (fun x => n < get_seg_num x) l2 /\ get_seg_num s < n.
Proof.
  intros (l1 & l2 & Hl & Hf & Hs)%find_seg_rev_Some. exists (reverse l2), (reverse l1).
  split; [|split; [by apply Forall_reverse|done]].
  rewrite <- (reverse_involutive l), Hl, reverse_app, reverse_cons, <- (assoc_L (++)). done.
Qed.

Lemma find_seg_location_None l n :
  find_seg_location l n = None -> n ∈ nums l \/ Forall (fun x => n < get_seg_num x) l.
Proof.
  intros [Hin|Hall]%find_seg_rev_None; [left|right; by apply Forall_reverse].
  rewrite fmap_reverse in Hin. by rewrite elem_of_reverse in Hin.
Qed.

Lemma list_add_at m s l1 l2 :
  mad_id s ∉ ids l1 -> list_add m (mad_id s) (l1 ++ s :: l2) = l1 ++ s :: m :: l2.
Proof.
  induction l1 as [|x l1 IH]; cbn; intros Hn.
  - by rewrite Z.eqb_refl.
  - apply not_elem_of_cons in Hn as [Hx Hn]. destruct (Z.eqb_spec (mad_id x) (mad_id s)); [congruence|].
    by rewrite IH.
Qed.

Lemma from_buf_at s l1 l2 : mad_id s ∉ ids l1 -> from_buf (mad_id s) (l1 ++ s :: l2) = s :: l2.
Proof.
  induction l1 as [|x l1 IH]; cbn; intros Hn.
  - by rewrite Z.eqb_refl.
  - apply not_elem_of_cons in Hn as [Hx Hn]. destruct (Z.eqb_spec (mad_id x) (mad_id s)); [congruence|].
    by apply IH.
Qed.

Lemma last_cons {A} (l : list A) x d : List.last (x :: l) d = List.last l x.
Proof.
  revert x d. induction l as [|y l IH]; intros x d; [done|].
  change (List.last (y :: l) d = List.last (y :: l) x). by rewrite !IH.
Qed.

Lemma head_front {A} (l1 l2 : list A) x : head (l1 ++ x :: l2) = head (l1 ++ [x]).
Proof. by destruct l1. Qed.

(** ** The invariant *)

(** A transfer under way: segments 1 to [seg_num] in front, the last of them
    [c], then those that arrived early. *)
Record progress (r : mad_rmpp_recv) (pre : list rmpp_mad) (c : rmpp_mad) (rest : list rmpp_mad)
    : Prop := {
  pg_segs : r.(segs) = pre ++ c :: rest;
  pg_nums : nums (pre ++ [c]) = seqZ 1 r.(seg_num);
  pg_cur : r.(cur_seg_buf) = c.(mad_id);
  pg_sorted : StronglySorted Z.lt (nums rest);
  pg_gap : Forall (fun s => r.(seg_num) + 1 < get_seg_num s) rest;
  pg_nodup : NoDup (ids r.(segs))
}.

(** [P k s]: what is known of the segments of a transfer of key [k]. *)
Definition active_ok (P : rmpp_key -> rmpp_mad -> Prop) (r : mad_rmpp_recv) : Prop :=
  exists pre c rest, progress r pre c rest /\ get_last_flag c = false /\
    0 <= r.(last_ack) <= r.(seg_num) /\ r.(seg_num) < r.(newwin) /\
    Forall (fun s => get_seg_num s <= r.(newwin)) r.(segs) /\
    Forall (P r.(rkey)) r.(segs) /\ base_version <$> head (r.(segs)) = Some (r.(r_base_version)) /\
    r.(timeout_work) = true /\ r.(cleanup_work) = false.

Definition recv_ok (P : rmpp_key -> rmpp_mad -> Prop) (r : mad_rmpp_recv) : Prop :=
  r.(refcount) = 1 /\
  match r.(state) with
  | RMPP_STATE_ACTIVE => active_ok P r
  | RMPP_STATE_TIMEOUT => False
  | RMPP_STATE_COMPLETE => r.(timeout_work) = false /\ r.(cleanup_work) = true
  end.

(** Buffers a context owns: those of a complete one are the client's. *)
Definition held_by (r : mad_rmpp_recv) : list Z :=
  if bool_decide (r.(state) = RMPP_STATE_COMPLETE) then [] else ids r.(segs).
Definition held (a : rmpp_agent) : list Z := a.(recvs) ≫= held_by.

Record agent_ok (P : rmpp_key -> rmpp_mad -> Prop) (a : rmpp_agent) : Prop := {
  ao_recvs : Forall (recv_ok P) a.(recvs);
  ao_keys : NoDup (rkey <$> a.(recvs))
}.

Definition freed (out : list effect) : list Z :=
  omap (fun e => match e with Free i => Some i | _ => None end) out.
Definition delivered (msg : option message) : list Z :=
  match msg with Some (l, _) => ids l | None => [] end.

(** ** Context lists *)

Lemma find_recv_split l k r :
  find_recv l k = Some r ->
  exists l1 l2, l = l1 ++ r :: l2 /\ k ∉ rkey <$> l1 /\ r.(rkey) = k.
Proof.
  induction l as [|x l IH]; [done|]. cbn. case_bool_decide as Hx.
  - intros [= <-]. exists [], l. split; [done|]. split; [by apply not_elem_of_nil|done].
  - intros (l1 & l2 & -> & Hn & Hk)%IH. exists (x :: l1), l2. split; [done|]. split; [|done].
    rewrite fmap_cons, not_elem_of_cons. split; [congruence|done].
Qed.

Lemma find_recv_None l k : find_recv l k = None -> k ∉ rkey <$> l.
Proof.
  induction l as [|x l IH]; [intros _; by apply not_elem_of_nil|]. cbn. case_bool_decide; [done|].
  intros Hl. rewrite not_elem_of_cons. split; [congruence|by apply IH].
Qed.

Lemma find_recv_app l1 l2 k r :
  k ∉ rkey <$> l1 -> r.(rkey) = k -> find_recv (l1 ++ r :: l2) k = Some r.
Proof.
  induction l1 as [|x l1 IH]; cbn; intros Hn Hk; [by rewrite bool_decide_eq_true_2|].
  apply not_elem_of_cons in Hn as [Hx Hn]. rewrite bool_decide_eq_false_2 by congruence. by apply IH.
Qed.

Lemma find_put l r r' :
  find_recv l r.(rkey) = Some r -> r'.(rkey) = r.(rkey) -> find_recv (put_recv r' l) r.(rkey) = Some r'.
Proof.
  induction l as [|x l IH]; [done|]. cbn. intros Hf Hk. rewrite Hk. case_bool_decide as Hx.
  - cbn. by rewrite bool_decide_eq_true_2.
  - cbn. rewrite bool_decide_eq_false_2 by done. by apply IH.
Qed.

Lemma find_added l r : find_recv l r.(rkey) = None -> find_recv (l ++ [r]) r.(rkey) = Some r.
Proof. intros Hf%find_recv_None. by apply find_recv_app. Qed.

Lemma put_recv_app l1 l2 r r' :
  r.(rkey) ∉ rkey <$> l1 -> r'.(rkey) = r.(rkey) -> put_recv r' (l1 ++ r :: l2) = l1 ++ r' :: l2.
Proof.
  induction l1 as [|x l1 IH]; cbn; intros Hn Hk; [by rewrite bool_decide_eq_true_2|].
  apply not_elem_of_cons in Hn as [Hx Hn]. rewrite bool_decide_eq_false_2 by congruence. by rewrite IH.
Qed.

Lemma del_recv_app l1 l2 r :
  r.(rkey) ∉ rkey <$> l1 -> del_recv r.(rkey) (l1 ++ r :: l2) = l1 ++ l2.
Proof.
  induction l1 as [|x l1 IH]; cbn; intros Hn; [by rewrite bool_decide_eq_true_2|].
  apply not_elem_of_cons in Hn as [Hx Hn]. rewrite bool_decide_eq_false_2 by congruence. by rewrite IH.
Qed.

Lemma held_app a l1 l2 : held (with_recvs a (l1 ++ l2)) = (l1 ≫= held_by) ++ (l2 ≫= held_by).
Proof. unfold held. cbn. apply bind_app. Qed.

Lemma freed_app o1 o2 : freed (o1 ++ o2) = freed o1 ++ freed o2.
Proof. apply omap_app. Qed.

Lemma freed_mads l : freed (ib_free_recv_mad l) = ids l.
Proof. induction l as [|m l IH]; [done|]. cbn. f_equal. exact IH. Qed.

Lemma freed_nack m s p : freed (nack_recv m s p) = [].
Proof. by destruct p. Qed.

Lemma freed_ack r m env : freed (ack_recv r m env).2 = [].
Proof. by destruct env. Qed.

(** ** One segment more *)

Lemma progress_lookup r pre c rest i x :
  progress r pre c rest -> (pre ++ [c]) !! i = Some x ->
  get_seg_num x = 1 + Z.of_nat i /\ Z.of_nat i < r.(seg_num).
Proof.
  intros Hp Hx. pose proof (pg_nums _ _ _ _ Hp) as Hn.
  assert (Hl : seqZ 1 (seg_num r) !! i = Some (get_seg_num x)) by by rewrite <- Hn, list_lookup_fmap, Hx.
  by apply lookup_seqZ in Hl.
Qed.

Lemma progress_length r pre c rest :
  progress r pre c rest -> 0 < r.(seg_num) /\ Z.of_nat (length pre) = r.(seg_num) - 1.
Proof.
  intros Hp. pose proof (f_equal length (pg_nums _ _ _ _ Hp)) as Hl.
  rewrite length_fmap, length_app, length_seqZ in Hl. cbn in Hl. lia.
Qed.

Lemma progress_num_cur r pre c rest : progress r pre c rest -> get_seg_num c = r.(seg_num).
Proof.
  intros Hp. destruct (progress_length _ _ _ _ Hp) as [_ Hl].
  destruct (progress_lookup _ _ _ _ (length pre) c Hp) as [-> _]; [by apply list_lookup_middle|lia].
Qed.

Lemma progress_seg_of r pre c rest : progress r pre c rest -> seg_of r = Some c.
Proof.
  intros Hp. unfold seg_of. rewrite (pg_cur _ _ _ _ Hp), (pg_segs _ _ _ _ Hp).
  rewrite from_buf_at; [done|]. pose proof (pg_nodup _ _ _ _ Hp) as Hd.
  rewrite (pg_segs _ _ _ _ Hp), fmap_app in Hd. apply list.NoDup_app in Hd as (_ & Hd & _).
  intros Hin. apply (Hd _ Hin). left.
Qed.

(** Where a new segment goes: after the current one, or after a later one. *)
Lemma insert_cases r pre c rest n prev :
  progress r pre c rest -> find_seg_location r.(segs) n = Some prev ->
  (prev = c /\ r.(seg_num) < n /\ Forall (fun s => n < get_seg_num s) rest) \/
  (exists r1 r2, rest = r1 ++ prev :: r2 /\ r.(seg_num) + 1 < n /\ get_seg_num prev < n /\
     Forall (fun s => n < get_seg_num s) r2 /\ prev <> c).
Proof.
  intros Hp (l1 & l2 & Hl & Hf & Hlt)%find_seg_location_Some.
  pose proof (progress_num_cur _ _ _ _ Hp) as Hc. rewrite (pg_segs _ _ _ _ Hp) in Hl.
  apply app_eq_inv in Hl as [(k & -> & Hk)|(k & -> & Hk)].
  - destruct k as [|x k]; cbn in Hk; [left; simplify_eq; split; [done|]; split; [lia|done]|].
    injection Hk as <- ->. exfalso.
    destruct (progress_lookup _ _ _ _ (length l1) prev Hp) as [Hnp _].
    { rewrite <- (assoc_L (++)). by apply list_lookup_middle. }
    assert (Hx : exists x, ((l1 ++ prev :: k) ++ [c]) !! S (length l1) = Some x /\ x ∈ k ++ c :: rest).
    { rewrite <- (assoc_L (++)). cbn. rewrite lookup_app_r by lia.
      replace (S (length l1) - length l1)%nat with 1%nat by lia. cbn.
      destruct k as [|y k]; cbn; [exists c|exists y]; (split; [done|left]). }
    destruct Hx as (x & Hx & Hin). destruct (progress_lookup _ _ _ _ _ _ Hp Hx) as [Hnx _].
    rewrite list.Forall_forall in Hf. specialize (Hf _ Hin). lia.
  - destruct k as [|x k]; cbn in Hk; [left; simplify_eq; split; [done|]; split; [lia|done]|].
    injection Hk as <- ->. right. exists k, l2. split; [done|].
    pose proof (pg_gap _ _ _ _ Hp) as Hg. rewrite list.Forall_app, list.Forall_cons in Hg. destruct Hg as (_ & Hpr & _).
    split; [lia|]. split; [done|]. split; [done|]. intros ->. lia.
Qed.

Lemma sorted_insert l1 l2 prev m :
  StronglySorted Z.lt (nums (l1 ++ prev :: l2)) -> get_seg_num prev < get_seg_num m ->
  Forall (fun s => get_seg_num m < get_seg_num s) l2 ->
  StronglySorted Z.lt (nums (l1 ++ prev :: m :: l2)).
Proof.
  induction l1 as [|x l1 IH]; cbn; intros Hs Hp Hf.
  - apply StronglySorted_inv in Hs as [Hs Hall]. constructor; [constructor; [done|]|].
    + rewrite Forall_fmap. exact Hf.
    + constructor; [done|]. eapply list.Forall_impl; [exact Hall|]. cbn. lia.
  - apply StronglySorted_inv in Hs as [Hs Hall]. constructor; [by apply IH|].
    rewrite fmap_app, list.Forall_app, fmap_cons, list.Forall_cons in Hall |- *. destruct Hall as (? & ? & ?).
    rewrite fmap_cons, list.Forall_cons. split; [done|]. split; [done|]. split; [lia|done].
Qed.

Lemma sorted_above n l :
  StronglySorted Z.lt (nums l) -> (forall x l', l = x :: l' -> n < get_seg_num x) ->
  Forall (fun s => n < get_seg_num s) l.
Proof.
  destruct l as [|x l]; [constructor|]. cbn. intros [_ Hall]%StronglySorted_inv Hx.
  specialize (Hx x l eq_refl). constructor; [done|]. rewrite Forall_fmap in Hall.
  eapply list.Forall_impl; [exact Hall|]. cbn. lia.
Qed.

Lemma sorted_app_r (l1 l2 : list rmpp_mad) :
  StronglySorted Z.lt (nums (l1 ++ l2)) -> StronglySorted Z.lt (nums l2).
Proof. induction l1 as [|x l1 IH]; [done|]. cbn. intros [Hs _]%StronglySorted_inv. by apply IH. Qed.

(** The run of consecutive segments [update_seg_num] passes. *)
Lemma update_seg_num_run l : forall c n,
  StronglySorted Z.lt (nums l) -> Forall (fun s => n < get_seg_num s) l ->
  exists run rest, l = run ++ rest /\ nums run = seqZ (n + 1) (Z.of_nat (length run)) /\
    update_seg_num l (mad_id c) n = (mad_id (List.last run c), n + Z.of_nat (length run)) /\
    Forall (fun s => n + Z.of_nat (length run) + 1 < get_seg_num s) rest /\
    (forall x l', l = x :: l' -> get_seg_num x = n + 1 -> run <> []).
Proof.
  induction l as [|s l IH]; intros c n Hs Hn; cbn [update_seg_num].
  - exists [], []. repeat split; [cbn; by rewrite Z.add_0_r|done|done].
  - rewrite fmap_cons in Hs. apply StronglySorted_inv in Hs as [Hs Hall].
    apply list.Forall_cons in Hn as [Hsn Hn].
    rewrite Forall_fmap in Hall. destruct (Z.eqb_spec (get_seg_num s) (n + 1)) as [Hsn1|Hsn1].
    + destruct (IH s (n + 1) Hs) as (run & rest & -> & Hrun & Hup & Hnext & _).
      { eapply list.Forall_impl; [exact Hall|]. cbn. lia. }
      exists (s :: run), rest. split; [done|]. split; [|split; [|split; [|done]]].
      * rewrite fmap_cons, Hsn1, Hrun. rewrite (seqZ_cons (n + 1)) by (cbn; lia).
        do 2 f_equal; cbn [length]; lia.
      * rewrite Hup. f_equal; [by rewrite last_cons|cbn [length]; lia].
      * eapply list.Forall_impl; [exact Hnext|]. cbn [length]. lia.
    + exists [], (s :: l). split; [done|]. split; [done|]. split; [cbn; by rewrite Z.add_0_r|].
      split; [|intros x l' [= <- _]; done]. cbn [length]. constructor; [lia|].
      eapply list.Forall_impl; [exact Hall|]. cbn. lia.
Qed.

Lemma nodup_insert (l1 l2 : list rmpp_mad) s m :
  NoDup (ids (l1 ++ s :: l2)) -> mad_id m ∉ ids (l1 ++ s :: l2) -> NoDup (ids (l1 ++ s :: m :: l2)).
Proof.
  intros Hd Hm.
  assert (Hperm : ids (l1 ++ s :: m :: l2) ≡ₚ mad_id m :: ids (l1 ++ s :: l2)).
  { rewrite !fmap_app. cbn. rewrite (perm_swap (mad_id m) (mad_id s) (ids l2)).
    symmetry. apply Permutation_middle. }
  rewrite Hperm. by constructor.
Qed.

(** [continue_rmpp] on the context it finds. *)
Definition step_recv (a : rmpp_agent) (r : mad_rmpp_recv) (m : rmpp_mad) (env : ack_env)
    : option (mad_rmpp_recv * list effect * option message) :=
  let drop r out := Some (r, out ++ ib_free_recv_mad [m], None) in
  if bool_decide (r.(state) = RMPP_STATE_TIMEOUT) || (r.(newwin) <? get_seg_num m) then drop r [] else
  if (get_seg_num m <=? r.(last_ack)) || bool_decide (r.(state) = RMPP_STATE_COMPLETE) then
    let '(r, out) := ack_recv r m env in drop r out
  else
  match find_seg_location r.(segs) (get_seg_num m) with
  | None => drop r []
  | Some prev =>
      let r0 := set_segs (list_add m prev.(mad_id) r.(segs)) r in
      if r0.(cur_seg_buf) =? prev.(mad_id) then
        let '(cur, n) := update_seg_num (from_buf m.(mad_id) r0.(segs)) r0.(cur_seg_buf) r0.(seg_num) in
        let r1 := set_cur cur n r0 in
        s ← seg_of r1;
        if get_last_flag s then
          '(r2, out, msg) ← complete_rmpp a (set_state RMPP_STATE_COMPLETE r1) env;
          Some (r2, out, Some msg)
        else if r1.(seg_num) =? r1.(newwin) then
          let '(r2, out) := ack_recv (add_newwin (window_size a) r1) m env in Some (r2, out, None)
        else Some (r1, [], None)
      else Some (r0, [], None)
  end.

Lemma set_ref_back r : set_ref (-1) (set_ref 1 r) = r.
Proof. destruct r. unfold set_ref. cbn. f_equal. lia. Qed.

Lemma set_ref_ack n r : set_ref (-1) (set_last_ack n (set_ref 1 r)) = set_last_ack n r.
Proof. apply (set_ref_back (set_last_ack n r)). Qed.

Lemma set_ref_segs l r : set_ref (-1) (set_segs l (set_ref 1 r)) = set_segs l r.
Proof. apply (set_ref_back (set_segs l r)). Qed.

Lemma complete_ref a r env d :
  complete_rmpp a (set_ref d r) env =
  ('(r2, out, msg) ← complete_rmpp a r env; Some (set_ref d r2, out, msg)).
Proof.
  unfold complete_rmpp. cbn [segs set_ref]. destruct (head (segs r)); [|done].
  cbn [mbind option_bind]. destruct env; cbn [ack_recv];
    match goal with |- (get_mad_len a ?x ≫= _) = (get_mad_len a ?y ≫= _) ≫= _ =>
      change (get_mad_len a x) with (get_mad_len a y); by destruct (get_mad_len a y) end.
Qed.

Lemma continue_rmpp_step a m env :
  continue_rmpp a m env =
  match find_rmpp_recv a m with
  | None => Some (a, ib_free_recv_mad [m], None)
  | Some r => '(r', out, msg) ← step_recv a r m env; Some (put a r', out, msg)
  end.
Proof.
  unfold continue_rmpp. destruct (find_rmpp_recv a m) as [r|]; [|done]. unfold step_recv.
  cbn [state newwin last_ack segs cur_seg_buf seg_num set_ref set_segs].
  destruct (_ || (newwin r <? get_seg_num m)); [by rewrite set_ref_back|].
  destruct (_ || _); [destruct env; cbn [ack_recv seg_num newwin set_ref]; by rewrite ?set_ref_back, ?set_ref_ack|].
  destruct (find_seg_location _ _) as [prev|]; [|by rewrite set_ref_back].
  destruct (_ =? _); [|by rewrite set_ref_segs]. destruct (update_seg_num _ _ _) as [cur n].
  change (set_cur cur n (set_segs (list_add m (mad_id prev) (segs r)) (set_ref 1 r)))
    with (set_ref 1 (set_cur cur n (set_segs (list_add m (mad_id prev) (segs r)) r))).
  set (r1 := set_cur cur n _). change (seg_of (set_ref 1 r1)) with (seg_of r1).
  destruct (seg_of r1) as [s|]; [|done]. cbn [mbind option_bind]. destruct (get_last_flag s).
  - change (set_state RMPP_STATE_COMPLETE (set_ref 1 r1)) with (set_ref 1 (set_state RMPP_STATE_COMPLETE r1)).
    rewrite complete_ref. destruct (complete_rmpp _ _ _) as [[[r2 out] msg]|]; [|done].
    cbn [mbind option_bind]. by rewrite set_ref_back.
  - change (seg_num (set_ref 1 r1)) with (seg_num r1). change (newwin (set_ref 1 r1)) with (newwin r1).
    destruct (seg_num r1 =? newwin r1); [|by rewrite set_ref_back].
    change (add_newwin (window_size a) (set_ref 1 r1)) with (set_ref 1 (add_newwin (window_size a) r1)).
    destruct env; cbn [ack_recv]; rewrite ?set_ref_back, ?set_ref_ack; done.
Qed.

(** Buffers of a context, whoever owns them. *)
Lemma list_add_perm m s (l1 l2 : list rmpp_mad) : ids (l1 ++ s :: m :: l2) ≡ₚ mad_id m :: ids (l1 ++ s :: l2).
Proof.
  rewrite !fmap_app. cbn. rewrite (perm_swap (mad_id m) (mad_id s) (ids l2)).
  symmetry. apply Permutation_middle.
Qed.

(** A new segment next to the current one: the transfer goes on from the last
    segment of the consecutive run it starts. *)
Lemma insert_at_current r pre c rest m :
  progress r pre c rest -> mad_id m ∉ ids r.(segs) -> r.(seg_num) < get_seg_num m ->
  Forall (fun s => get_seg_num m < get_seg_num s) rest ->
  let l := list_add m (mad_id c) r.(segs) in
  l = pre ++ c :: m :: rest /\
  exists cur n pre' c' rest',
    update_seg_num (from_buf (mad_id m) l) (cur_seg_buf r) r.(seg_num) = (cur, n) /\
    progress (set_cur cur n (set_segs l r)) pre' c' rest' /\
    r.(seg_num) <= n /\ (n = r.(seg_num) -> c' = c) /\
    (r.(seg_num) + 1 = get_seg_num m -> r.(seg_num) < n).
Proof.
  intros Hp Hm Hn Hrest l. pose proof (pg_nodup _ _ _ _ Hp) as Hd.
  rewrite (pg_segs _ _ _ _ Hp) in Hm, Hd.
  assert (Hl : l = pre ++ c :: m :: rest).
  { unfold l. rewrite (pg_segs _ _ _ _ Hp). apply list_add_at.
    rewrite fmap_app in Hd. apply list.NoDup_app in Hd as (_ & Hd & _). intros Hin. apply (Hd _ Hin). left. }
  split; [exact Hl|]. pose proof (nodup_insert _ _ _ _ Hd Hm) as Hd'.
  assert (Hfrom : from_buf (mad_id m) l = m :: rest).
  { rewrite Hl. change (pre ++ c :: m :: rest) with (pre ++ [c] ++ m :: rest). rewrite (assoc_L (++)).
    apply from_buf_at. intros Hin. apply Hm. change (c :: rest) with ([c] ++ rest).
    rewrite (assoc_L (++)), fmap_app, elem_of_app. by left. }
  assert (Hs : StronglySorted Z.lt (nums (m :: rest))).
  { cbn. constructor; [apply Hp|]. by rewrite Forall_fmap. }
  rewrite Hfrom, (pg_cur _ _ _ _ Hp).
  destruct (update_seg_num_run (m :: rest) c (seg_num r) Hs) as (run & rest' & Hrun & Hnums & Hup & Hgap & Hne).
  { constructor; [lia|]. eapply list.Forall_impl; [exact Hrest|]. cbn. lia. }
  rewrite Hup. eexists _, _. set (k := Z.of_nat (length run)) in *.
  assert (Hsr : StronglySorted Z.lt (nums rest')) by (rewrite Hrun in Hs; by apply sorted_app_r in Hs).
  exists (pre ++ removelast (c :: run)), (List.last run c), rest'.
  assert (Hpc : pre ++ c :: m :: rest = (pre ++ removelast (c :: run)) ++ List.last run c :: rest').
  { rewrite Hrun. change (c :: run ++ rest') with ((c :: run) ++ rest').
    rewrite (app_removelast_last c (l := c :: run)) at 1 by done. rewrite last_cons.
    by rewrite <- !(assoc_L (++)). }
  split; [done|]. split; [|split; [lia|split]].
  - split; cbn [segs set_cur set_segs cur_seg_buf seg_num]; rewrite ?Hl; [exact Hpc| |done|done|done|exact Hd'].
    rewrite <- (assoc_L (++)). rewrite <- (last_cons run c c). rewrite <- app_removelast_last by done.
    change (c :: run) with ([c] ++ run). rewrite (assoc_L (++)), fmap_app, (pg_nums _ _ _ _ Hp), Hnums.
    destruct (progress_length _ _ _ _ Hp). rewrite (Z.add_comm (seg_num r) 1), <- seqZ_app by lia. done.
  - intros Hk. destruct run; [done|]. subst k. cbn [length] in Hk. lia.
  - intros Heq. destruct run; [|subst k; cbn [length]; lia]. by destruct (Hne m rest).
Qed.

(** What a delivered message is: segments 1 to [n], the last one flagged, in
    front of segments of higher numbers, if any, and the length of the first. *)
Definition mad_size (a : rmpp_agent) (base : Z) : Z * Z :=
  if a.(opa) && (base =? OPA_MGMT_BASE_VERSION)
  then (OPA_MGMT_MAD_SIZE, OPA_MGMT_RMPP_DATA) else (IB_MGMT_MAD_SIZE, IB_MGMT_RMPP_DATA).

Definition mad_length (a : rmpp_agent) (base n : Z) (c : rmpp_mad) : Z :=
  let hdr := ib_get_mad_data_offset c.(key).(mgmt_class) in
  s32 (hdr + n * ((mad_size a base).1 - hdr) - mad_pad (mad_size a base).2 c.(paylen_newwin)).

Definition message_ok (P : rmpp_key -> rmpp_mad -> Prop) (a : rmpp_agent) (k : rmpp_key)
    (msg : message) : Prop :=
  exists pre c rest n base, msg.1 = pre ++ c :: rest /\ nums (pre ++ [c]) = seqZ 1 n /\
    Forall (fun s => n < get_seg_num s) rest /\
    get_last_flag c = true /\ msg.2 = mad_length a base n c /\
    base_version <$> head msg.1 = Some base /\ Forall (P k) msg.1.

Lemma get_mad_len_cur a r pre c rest :
  progress r pre c rest -> get_mad_len a r = Some (mad_length a r.(r_base_version) r.(seg_num) c).
Proof.
  intros Hp. unfold get_mad_len, mad_length, mad_size. rewrite (progress_seg_of _ _ _ _ Hp).
  cbn [mbind option_bind]. by destruct (_ && _).
Qed.

Lemma progress_head r pre c rest : progress r pre c rest -> exists wc, head r.(segs) = Some wc.
Proof. intros Hp. rewrite (pg_segs _ _ _ _ Hp). destruct pre; by eexists. Qed.

Lemma complete_ok (P : rmpp_key -> rmpp_mad -> Prop) a r pre c rest env :
  progress r pre c rest -> get_last_flag c = true -> r.(refcount) = 1 -> Forall (P r.(rkey)) r.(segs) ->
  base_version <$> head (r.(segs)) = Some (r.(r_base_version)) ->
  r.(timeout_work) && negb (1 <? r.(seg_num)) = false ->
  exists r' out msg, complete_rmpp a (set_state RMPP_STATE_COMPLETE r) env = Some (r', out, msg) /\
    recv_ok P r' /\ rkey r' = rkey r /\ state r' = RMPP_STATE_COMPLETE /\
    r_base_version r' = r_base_version r /\ freed out = [] /\
    msg.1 = r.(segs) /\ message_ok P a r.(rkey) msg.
Proof.
  intros Hp Hl Href HP Hbase Ht. destruct (progress_head _ _ _ _ Hp) as (wc & Hwc).
  unfold complete_rmpp. cbn [segs set_state]. rewrite Hwc. cbn [mbind option_bind].
  set (r1 := set_state RMPP_STATE_COMPLETE r).
  assert (Hlen : get_mad_len a (ack_recv r1 wc env).1 = get_mad_len a r) by by destruct env.
  assert (Hsegs : segs (ack_recv r1 wc env).1 = segs r) by by destruct env.
  assert (Hk : rkey (ack_recv r1 wc env).1 = rkey r) by by destruct env.
  assert (Hst : state (ack_recv r1 wc env).1 = RMPP_STATE_COMPLETE) by by destruct env.
  assert (Hba : r_base_version (ack_recv r1 wc env).1 = r_base_version r) by by destruct env.
  assert (Hrf : refcount (ack_recv r1 wc env).1 = 1) by by destruct env.
  assert (Hn : seg_num (ack_recv r1 wc env).1 = seg_num r) by by destruct env.
  assert (Htw : timeout_work (ack_recv r1 wc env).1 = timeout_work r) by by destruct env.
  pose proof (freed_ack r1 wc env) as Hfr.
  destruct (ack_recv r1 wc env) as [r2 out]. cbn [fst snd] in *.
  rewrite Hlen, (get_mad_len_cur _ _ _ _ _ Hp). cbn [mbind option_bind].
  eexists _, _, _. split; [done|]. rewrite Hn, Htw, Hsegs. split.
  { split; [exact Hrf|]. cbn. rewrite Hst. split; [|done].
    destruct (1 <? seg_num r); [done|]. by rewrite andb_true_r in Ht. }
  split; [exact Hk|]. split; [exact Hst|]. split; [exact Hba|].
  split; [exact Hfr|]. split; [done|].
  exists pre, c, rest, (seg_num r), (r_base_version r). split; [apply Hp|]. split; [apply Hp|].
  split; [|by repeat split]. eapply list.Forall_impl; [apply Hp|]. cbn. lia.
Qed.

Lemma ack_recv_facts r m env :
  let r' := (ack_recv r m env).1 in
  segs r' = segs r /\ rkey r' = rkey r /\ state r' = state r /\ refcount r' = refcount r /\
  seg_num r' = seg_num r /\ newwin r' = newwin r /\ cur_seg_buf r' = cur_seg_buf r /\
  timeout_work r' = timeout_work r /\ cleanup_work r' = cleanup_work r /\
  r_base_version r' = r_base_version r /\ (last_ack r' = last_ack r \/ last_ack r' = seg_num r).
Proof. destruct env; cbn; auto 20. Qed.

Lemma ack_recv_ok P r m env : recv_ok P r -> recv_ok P (ack_recv r m env).1.
Proof.
  destruct (ack_recv_facts r m env) as (Hs & Hk & Hst & Hrf & Hn & Hw & Hc & Ht & Hcl & Hb & Ha).
  intros [Href Hr]. split; [congruence|]. rewrite Hst. destruct (state r); [|done|by rewrite Ht, Hcl].
  destruct Hr as (pre & c & rest & [] & Hl & Hla & Hnw & Hwin & HP & Hbase & Htw & Hcw).
  exists pre, c, rest. rewrite Hs, Hn, Hw, Ht, Hcl, Hk, Hb.
  split; [split; by rewrite ?Hs, ?Hn, ?Hc|]. repeat (split; [done || lia|]). done.
Qed.

(** Facts of [step_recv] the invariant and the transfer theorems need. *)
Record step_ok (P : rmpp_key -> rmpp_mad -> Prop) (a : rmpp_agent) (r r' : mad_rmpp_recv) (m : rmpp_mad)
    (out : list effect) (msg : option message) : Prop := {
  so_recv : recv_ok P r';
  so_key : rkey r' = rkey r;
  so_base : r_base_version r' = r_base_version r;
  so_bufs : mad_id m :: held_by r ≡ₚ held_by r' ++ freed out ++ delivered msg;
  so_msg : forall msg', msg = Some msg' -> message_ok P a (rkey r) msg';
  so_done : state r' = RMPP_STATE_COMPLETE <-> msg <> None \/ state r = RMPP_STATE_COMPLETE;
  so_mono : state r' = RMPP_STATE_ACTIVE -> seg_num r <= seg_num r';
  so_next : state r = RMPP_STATE_ACTIVE -> get_seg_num m = seg_num r + 1 ->
    state r' = RMPP_STATE_ACTIVE -> seg_num r < seg_num r';
  so_once : state r = RMPP_STATE_COMPLETE -> msg = None
}.

Lemma window_size_pos a : 1 <= window_size a.
Proof. unfold window_size. lia. Qed.

Lemma held_active r : state r = RMPP_STATE_ACTIVE -> held_by r = ids r.(segs).
Proof. intros Hs. unfold held_by. by rewrite Hs. Qed.

Lemma held_complete r : state r = RMPP_STATE_COMPLETE -> held_by r = [].
Proof. intros Hs. unfold held_by. by rewrite Hs. Qed.

Section step.
Variables (P : rmpp_key -> rmpp_mad -> Prop) (a : rmpp_agent) (r : mad_rmpp_recv) (m : rmpp_mad).
Hypothesis Hfresh : mad_id m ∉ held_by r.
Hypothesis HPm : P (rkey r) m.

(** The datagram is dropped and the context kept. *)
Lemma step_drop r' out :
  recv_ok P r' -> rkey r' = rkey r -> r_base_version r' = r_base_version r -> segs r' = segs r ->
  state r' = state r -> seg_num r' = seg_num r -> freed out = [] ->
  (state r = RMPP_STATE_ACTIVE -> get_seg_num m <> seg_num r + 1) ->
  step_ok P a r r' m (out ++ ib_free_recv_mad [m]) None.
Proof.
  intros Hok Hk Hb Hs Hst Hn Hf Hnx. split; try done.
  - unfold held_by. rewrite Hst, Hs, freed_app, Hf, freed_mads. cbn.
    apply Permutation_cons_append.
  - rewrite Hst. naive_solver.
  - lia.
  - intros Ha He. by destruct (Hnx Ha).
Qed.

(** The segment arrived early: it is stored. *)
Lemma step_store pre c rest r1 r2 prev :
  state r = RMPP_STATE_ACTIVE -> refcount r = 1 -> progress r pre c rest -> get_last_flag c = false ->
  0 <= last_ack r <= seg_num r -> seg_num r < newwin r ->
  Forall (fun s => get_seg_num s <= newwin r) (segs r) -> Forall (P (rkey r)) (segs r) ->
  base_version <$> head (segs r) = Some (r_base_version r) ->
  timeout_work r = true -> cleanup_work r = false -> get_seg_num m <= newwin r ->
  rest = r1 ++ prev :: r2 -> seg_num r + 1 < get_seg_num m -> get_seg_num prev < get_seg_num m ->
  Forall (fun s => get_seg_num m < get_seg_num s) r2 -> mad_id prev <> mad_id c ->
  step_ok P a r (set_segs (list_add m (mad_id prev) (segs r)) r) m [] None.
Proof.
  intros Hst Href Hp Hl Hla Hnw Hwin HP Hbase Ht Hcl Hmw -> Hm Hlt Hr2 Hne.
  pose proof (pg_nodup _ _ _ _ Hp) as Hd. rewrite (held_active _ Hst) in Hfresh.
  rewrite (pg_segs _ _ _ _ Hp) in Hd, Hfresh.
  assert (Heq : pre ++ c :: r1 ++ prev :: r2 = (pre ++ c :: r1) ++ prev :: r2).
  { by rewrite <- (assoc_L (++)). }
  assert (Hadd : list_add m (mad_id prev) (segs r) = pre ++ c :: r1 ++ prev :: m :: r2).
  { rewrite (pg_segs _ _ _ _ Hp), Heq, list_add_at; [by rewrite <- (assoc_L (++))|].
    rewrite Heq, fmap_app in Hd. apply list.NoDup_app in Hd as (_ & Hd & _).
    intros Hin. apply (Hd _ Hin). left. }
  assert (Hperm : ids (pre ++ c :: r1 ++ prev :: m :: r2) ≡ₚ mad_id m :: ids (segs r)).
  { rewrite (pg_segs _ _ _ _ Hp), Heq.
    replace (pre ++ c :: r1 ++ prev :: m :: r2) with ((pre ++ c :: r1) ++ prev :: m :: r2)
      by (by rewrite <- (assoc_L (++))). apply list_add_perm. }
  rewrite Hadd.
  assert (Hin : forall Q : rmpp_mad -> Prop, Forall Q (segs r) -> Q m ->
    Forall Q (pre ++ c :: r1 ++ prev :: m :: r2)).
  { intros Q HQ Hm'. rewrite (pg_segs _ _ _ _ Hp) in HQ. rewrite !list.Forall_app, !list.Forall_cons,
      !list.Forall_app, !list.Forall_cons in *. naive_solver. }
  split; try done; cbn [state set_segs seg_num rkey r_base_version].
  - split; [exact Href|]. cbn [state set_segs]. rewrite Hst. exists pre, c, (r1 ++ prev :: m :: r2).
    split; [split; cbn|split; [done|]]; try apply Hp.
    + done.
    + apply sorted_insert; [apply Hp|done|done].
    + pose proof (pg_gap _ _ _ _ Hp) as Hg. rewrite !list.Forall_app, !list.Forall_cons in *. naive_solver.
    + rewrite Hperm. constructor; [|apply Hp]. by rewrite (pg_segs _ _ _ _ Hp).
    + cbn. repeat (split; [done || lia || (by apply Hin)|]). split; [|done].
      rewrite (pg_segs _ _ _ _ Hp) in Hbase. rewrite head_front in Hbase. by rewrite head_front.
  - rewrite !held_active by done. cbn [segs set_segs]. rewrite Hperm. cbn. by rewrite app_nil_r.
  - rewrite Hst. naive_solver.
  - lia.
Qed.

(** The run reached the last segment. *)
Lemma step_complete r1 pre c rest env :
  state r = RMPP_STATE_ACTIVE -> progress r1 pre c rest -> get_last_flag c = true ->
  refcount r1 = 1 -> rkey r1 = rkey r -> r_base_version r1 = r_base_version r ->
  Forall (P (rkey r1)) (segs r1) -> base_version <$> head (segs r1) = Some (r_base_version r1) ->
  ids (segs r1) ≡ₚ mad_id m :: ids (segs r) -> 1 < seg_num r1 ->
  exists r' out msg, ('(r2, out, msg) ← complete_rmpp a (set_state RMPP_STATE_COMPLETE r1) env;
    Some (r2, out, Some msg)) = Some (r', out, msg) /\ step_ok P a r r' m out msg.
Proof.
  intros Hst Hp Hl Href Hk Hb HP Hbase Hperm Hn.
  destruct (complete_ok P a r1 pre c rest env Hp Hl Href HP Hbase)
    as (r2 & out & msg & -> & Hok & Hk2 & Hst2 & Hb2 & Hf & Hmsg & Hgood).
  { rewrite (proj2 (Z.ltb_lt _ _) Hn). apply andb_false_r. }
  cbn [mbind option_bind]. exists r2, out, (Some msg). split; [done|]. split; try congruence.
  - rewrite (held_active _ Hst), (held_complete _ Hst2), Hf. cbn. destruct msg as [l len]. cbn in *.
    by rewrite Hmsg, Hperm.
  - rewrite Hst2. naive_solver.
Qed.

(** The transfer goes on; the window moves when it is used up. *)
Lemma step_window r1 pre c rest env :
  state r = RMPP_STATE_ACTIVE -> state r1 = RMPP_STATE_ACTIVE -> progress r1 pre c rest ->
  get_last_flag c = false ->
  refcount r1 = 1 -> rkey r1 = rkey r -> r_base_version r1 = r_base_version r ->
  Forall (P (rkey r1)) (segs r1) -> base_version <$> head (segs r1) = Some (r_base_version r1) ->
  ids (segs r1) ≡ₚ mad_id m :: ids (segs r) ->
  0 <= last_ack r1 <= seg_num r1 -> seg_num r1 <= newwin r1 ->
  Forall (fun s => get_seg_num s <= newwin r1) (segs r1) ->
  timeout_work r1 = true -> cleanup_work r1 = false -> seg_num r <= seg_num r1 ->
  (get_seg_num m = seg_num r + 1 -> seg_num r < seg_num r1) ->
  exists r' out msg, (if seg_num r1 =? newwin r1 then
      let '(r2, out) := ack_recv (add_newwin (window_size a) r1) m env in Some (r2, out, None)
    else Some (r1, [], None)) = Some (r', out, msg) /\ step_ok P a r r' m out msg.
Proof.
  intros Hst Hst1 Hp Hl Href Hk Hb HP Hbase Hperm Hla Hnw Hwin Ht Hcl Hmono Hnx.
  pose proof (window_size_pos a) as Hw.
  assert (Hgo : forall r2 out, recv_ok P r2 -> rkey r2 = rkey r -> r_base_version r2 = r_base_version r ->
    segs r2 = segs r1 -> state r2 = RMPP_STATE_ACTIVE -> seg_num r2 = seg_num r1 -> freed out = [] ->
    step_ok P a r r2 m out None).
  { intros r2 out Hok Hk2 Hb2 Hs2 Hst2 Hn2 Hf. split; try done.
    - rewrite !held_active by done. rewrite Hf, Hs2, Hperm. cbn. by rewrite app_nil_r.
    - rewrite Hst2, Hst. naive_solver.
    - lia.
    - intros _ Hm1 _. rewrite Hn2. by apply Hnx. }
  destruct (Z.eqb_spec (seg_num r1) (newwin r1)).
  - set (r2 := add_newwin (window_size a) r1).
    assert (Hok2 : recv_ok P r2).
    { split; [done|]. cbn [state r2 add_newwin]. rewrite Hst1. exists pre, c, rest.
      split; [split; apply Hp|]. split; [done|]. cbn. split; [done|]. split; [lia|].
      split; [|done]. eapply list.Forall_impl; [exact Hwin|]. cbn. lia. }
    pose proof (ack_recv_ok P r2 m env Hok2) as Hok. pose proof (freed_ack r2 m env) as Hf.
    destruct (ack_recv_facts r2 m env) as (Hs' & Hk' & Hst' & _ & Hn' & _ & _ & _ & _ & Hb' & _).
    destruct (ack_recv r2 m env) as [r3 out]. cbn [fst snd] in *.
    eexists _, _, _. split; [done|]. apply Hgo; try done.
    + by rewrite Hk'.
    + by rewrite Hb'.
    + by rewrite Hst'.
  - eexists _, _, _. split; [done|]. apply Hgo; try done. split; [done|]. rewrite Hst1.
    exists pre, c, rest. split; [done|]. split; [done|]. split; [done|]. split; [lia|]. done.
Qed.

(** The segment is the next one awaited, or fits right after the current one. *)
Lemma step_advance pre c rest env :
  state r = RMPP_STATE_ACTIVE -> refcount r = 1 -> progress r pre c rest -> get_last_flag c = false ->
  0 <= last_ack r <= seg_num r -> seg_num r < newwin r ->
  Forall (fun s => get_seg_num s <= newwin r) (segs r) -> Forall (P (rkey r)) (segs r) ->
  base_version <$> head (segs r) = Some (r_base_version r) ->
  timeout_work r = true -> cleanup_work r = false ->
  seg_num r < get_seg_num m <= newwin r -> Forall (fun s => get_seg_num m < get_seg_num s) rest ->
  find_seg_location (segs r) (get_seg_num m) = Some c ->
  exists r' out msg, step_recv a r m env = Some (r', out, msg) /\ step_ok P a r r' m out msg.
Proof.
  intros Hst Href Hp Hl Hla Hnw Hwin HP Hbase Ht Hcl [Hm Hmw] Hrest Hfind.
  rewrite (held_active _ Hst) in Hfresh.
  destruct (insert_at_current r pre c rest m Hp Hfresh Hm Hrest)
    as (Hadd & cur & n & pre' & c' & rest' & Hup & Hp' & Hn & Hnc & Hnx).
  unfold step_recv. rewrite Hst. rewrite !bool_decide_eq_false_2 by done.
  rewrite (proj2 (Z.ltb_ge _ _)) by lia. rewrite (proj2 (Z.leb_gt _ _)) by lia. cbn [orb].
  rewrite Hfind. cbn [cur_seg_buf set_segs seg_num segs].
  rewrite (proj2 (Z.eqb_eq _ _)) by apply Hp. rewrite Hup.
  rewrite (progress_seg_of _ _ _ _ Hp'). cbn [mbind option_bind].
  set (r1 := set_cur cur n (set_segs (list_add m (mad_id c) (segs r)) r)) in *.
  assert (Hall : forall Q : rmpp_mad -> Prop, Forall Q (segs r) -> Q m -> Forall Q (segs r1)).
  { intros Q HQ Hm'. cbn [segs r1 set_cur set_segs]. rewrite Hadd. rewrite (pg_segs _ _ _ _ Hp) in HQ.
    rewrite !list.Forall_app, !list.Forall_cons in *. naive_solver. }
  assert (HP1 : Forall (P (rkey r1)) (segs r1)) by by apply Hall.
  assert (Hbase1 : base_version <$> head (segs r1) = Some (r_base_version r1)).
  { cbn [segs r1 set_cur set_segs r_base_version]. rewrite Hadd. rewrite (pg_segs _ _ _ _ Hp) in Hbase.
    rewrite head_front in Hbase. by rewrite head_front. }
  assert (Hwin1 : Forall (fun s => get_seg_num s <= newwin r) (segs r1)) by (apply Hall; [done|lia]).
  assert (Hperm : ids (segs r1) ≡ₚ mad_id m :: ids (segs r)).
  { cbn [segs r1 set_cur set_segs]. rewrite Hadd, (pg_segs _ _ _ _ Hp). apply list_add_perm. }
  assert (Hnw1 : n <= newwin r).
  { change n with (seg_num r1). rewrite <- (progress_num_cur _ _ _ _ Hp'). rewrite (pg_segs _ _ _ _ Hp') in Hwin1.
    rewrite list.Forall_app, list.Forall_cons in Hwin1. by destruct Hwin1 as (_ & ? & _). }
  destruct (get_last_flag c') eqn:Hlc.
  - eapply step_complete; try done. cbn. destruct (decide (n = seg_num r)) as [->|].
    + rewrite Hnc in Hlc by done. congruence.
    + destruct (progress_length _ _ _ _ Hp). lia.
  - eapply step_window; try done; cbn; lia.
Qed.
End step.

(** The segment awaited next is never turned away. *)
Lemma next_has_place r pre c rest n :
  progress r pre c rest -> find_seg_location (segs r) n = None -> n <> seg_num r + 1.
Proof.
  intros Hp Hfind ->. pose proof (progress_num_cur _ _ _ _ Hp) as Hc. pose proof (pg_gap _ _ _ _ Hp) as Hg.
  rewrite (pg_segs _ _ _ _ Hp) in Hfind. apply find_seg_location_None in Hfind as [Hin|Hall].
  - rewrite fmap_app, elem_of_app in Hin. destruct Hin as [Hin|[Hin|Hin]%elem_of_cons].
    + assert (Hin' : seg_num r + 1 ∈ nums (pre ++ [c])) by (rewrite fmap_app, elem_of_app; by left).
      rewrite (pg_nums _ _ _ _ Hp), elem_of_seqZ in Hin'. lia.
    + lia.
    + apply list_elem_of_fmap in Hin as (s & Hs & Hin). rewrite list.Forall_forall in Hg.
      specialize (Hg _ Hin). lia.
  - rewrite list.Forall_app, list.Forall_cons in Hall. lia.
Qed.

Lemma step_recv_ok P a r m env :
  recv_ok P r -> mad_id m ∉ held_by r -> P (rkey r) m ->
  exists r' out msg, step_recv a r m env = Some (r', out, msg) /\ step_ok P a r r' m out msg.
Proof.
  intros Hr Hfresh HPm. pose proof Hr as [Href Hst].
  destruct (state r) eqn:Es; [|done|].
  - destruct Hst as (pre & c & rest & Hp & Hl & Hla & Hnw & Hwin & HP & Hbase & Ht & Hcl).
    assert (Hdrop : forall out r', freed out = [] -> recv_ok P r' -> rkey r' = rkey r ->
      r_base_version r' = r_base_version r -> segs r' = segs r -> state r' = state r ->
      seg_num r' = seg_num r -> get_seg_num m <> seg_num r + 1 ->
      step_ok P a r r' m (out ++ ib_free_recv_mad [m]) None).
    { intros. by apply step_drop. }
    unfold step_recv at 1. rewrite Es. rewrite !bool_decide_eq_false_2 by done. cbn [orb].
    destruct (Z.ltb_spec (newwin r) (get_seg_num m)); cbn [orb].
    { eexists _, _, _. split; [done|]. apply Hdrop; try done. lia. }
    destruct (Z.leb_spec (get_seg_num m) (last_ack r)); cbn [orb].
    { pose proof (ack_recv_ok P r m env Hr) as Hok. pose proof (freed_ack r m env) as Hf.
      destruct (ack_recv_facts r m env) as (Hs' & Hk' & Hst' & _ & Hn' & _ & _ & _ & _ & Hb' & _).
      destruct (ack_recv r m env) as [r2 out]. cbn [fst snd] in *. eexists _, _, _. split; [done|].
      apply Hdrop; try done. lia. }
    destruct (find_seg_location (segs r) (get_seg_num m)) as [prev|] eqn:Hfind.
    + destruct (insert_cases _ _ _ _ _ _ Hp Hfind) as [(-> & Hm & Hrest)|(r1 & r2 & Hrest & Hm & Hlt & Hr2 & Hne)].
      * destruct (step_advance P a r m Hfresh HPm pre c rest env) as (r' & out & msg & E & Hok); try done.
        exists r', out, msg. split; [|exact Hok]. unfold step_recv in E. rewrite Es in E.
        rewrite !bool_decide_eq_false_2 in E by done. rewrite (proj2 (Z.ltb_ge _ _)) in E by lia.
        rewrite (proj2 (Z.leb_gt _ _)) in E by lia. cbn [orb] in E. by rewrite Hfind in E.
      * assert (Hid : mad_id prev <> mad_id c).
        { pose proof (pg_nodup _ _ _ _ Hp) as Hd. rewrite (pg_segs _ _ _ _ Hp), Hrest, fmap_app in Hd.
          apply list.NoDup_app in Hd as (_ & _ & Hd). cbn in Hd. apply list.NoDup_cons in Hd as [Hd _].
          intros Heq. apply Hd. rewrite <- Heq, fmap_app, elem_of_app. right. left. }
        cbn [cur_seg_buf set_segs]. rewrite (pg_cur _ _ _ _ Hp).
        rewrite (proj2 (Z.eqb_neq _ _)) by done. eexists _, _, _. split; [done|].
        by eapply (step_store P a r m Hfresh HPm pre c rest r1 r2 prev).
    + eexists _, _, _. split; [done|]. apply (Hdrop []); try done.
      by eapply next_has_place.
  - unfold step_recv. rewrite Es. rewrite (bool_decide_eq_false_2 (_ = RMPP_STATE_TIMEOUT)) by done.
    rewrite bool_decide_eq_true_2 by done. cbn [orb]. rewrite orb_true_r.
    pose proof (ack_recv_ok P r m env Hr) as Hok. pose proof (freed_ack r m env) as Hf.
    destruct (ack_recv_facts r m env) as (Hs' & Hk' & Hst' & _ & Hn' & _ & _ & _ & _ & Hb' & _).
    case_test.
    + eexists _, _, _. split; [done|]. apply (step_drop P a r m r []); try done. congruence.
    + destruct (ack_recv r m env) as [r2 out]. cbn [fst snd] in *. eexists _, _, _. split; [done|].
      apply step_drop; try done. congruence.
Qed.

(** ** One event of the agent *)

(** What every operation of the agent guarantees; [ins] are the buffers that
    came in. *)
Record agent_step (P : rmpp_key -> rmpp_mad -> Prop) (a a' : rmpp_agent) (ins : list Z)
    (out : list effect) (msg : option message) : Prop := {
  as_ok : agent_ok P a';
  as_cfg : max_active a' = max_active a /\ opa a' = opa a;
  as_bufs : ins ++ held a ≡ₚ held a' ++ freed out ++ delivered msg;
  as_msg : forall msg', msg = Some msg' -> exists k, message_ok P a k msg'
}.

Lemma agent_drop P a m out :
  agent_ok P a -> freed out = [] -> agent_step P a a [mad_id m] (out ++ ib_free_recv_mad [m]) None.
Proof.
  intros Ha Hf. split; [done|done| |done]. rewrite freed_app, Hf, freed_mads. cbn.
  apply Permutation_cons_append.
Qed.

Lemma put_at a l1 l2 r r' :
  recvs a = l1 ++ r :: l2 -> rkey r ∉ rkey <$> l1 -> rkey r' = rkey r ->
  put a r' = with_recvs a (l1 ++ r' :: l2).
Proof. intros Hl Hn Hk. unfold put. by rewrite Hl, put_recv_app. Qed.

Lemma agent_ok_put P a l1 l2 r r' :
  agent_ok P a -> recvs a = l1 ++ r :: l2 -> recv_ok P r' -> rkey r' = rkey r ->
  agent_ok P (with_recvs a (l1 ++ r' :: l2)).
Proof.
  intros [Hr Hk] Hl Hok Hkey. split; cbn.
  - rewrite Hl in Hr. rewrite list.Forall_app, list.Forall_cons in *. naive_solver.
  - rewrite Hl in Hk. rewrite fmap_app, fmap_cons in *. by rewrite Hkey.
Qed.

Lemma perm_ctx (l1 l2 x h h' y : list Z) :
  x ++ h ≡ₚ h' ++ y -> x ++ (l1 ++ h ++ l2) ≡ₚ (l1 ++ h' ++ l2) ++ y.
Proof.
  intros Hp. transitivity (l1 ++ (x ++ h) ++ l2); [solve_Permutation|]. rewrite Hp. solve_Permutation.
Qed.

(** The context of key [k], if any, at its place in the list. *)
Lemma find_split P a m r :
  agent_ok P a -> find_rmpp_recv a m = Some r ->
  exists l1 l2, recvs a = l1 ++ r :: l2 /\ rkey r ∉ rkey <$> l1 /\ rkey r = key m /\ recv_ok P r.
Proof.
  intros [Hr _] (l1 & l2 & Hl & Hn & Hk)%find_recv_split. exists l1, l2. rewrite Hk.
  split; [done|]. split; [done|]. split; [done|]. rewrite Hl, list.Forall_app, list.Forall_cons in Hr. naive_solver.
Qed.

Lemma held_fresh a l1 l2 r i : recvs a = l1 ++ r :: l2 -> i ∉ held a -> i ∉ held_by r.
Proof. unfold held. intros -> Hi Hin. apply Hi. rewrite bind_app, elem_of_app. right. cbn. rewrite elem_of_app. by left. Qed.

Lemma continue_ok P a m env :
  agent_ok P a -> mad_id m ∉ held a -> P (key m) m ->
  exists a' out msg, continue_rmpp a m env = Some (a', out, msg) /\ agent_step P a a' [mad_id m] out msg /\
    match find_rmpp_recv a m with
    | None => a' = a /\ msg = None
    | Some r => exists r', a' = put a r' /\ step_ok P a r r' m out msg
    end.
Proof.
  intros Ha Hi HP. rewrite continue_rmpp_step. destruct (find_rmpp_recv a m) as [r|] eqn:Hf.
  - destruct (find_split _ _ _ _ Ha Hf) as (l1 & l2 & Hl & Hn & Hk & Hr).
    destruct (step_recv_ok P a r m env Hr) as (r' & out & msg & -> & Hok);
      [by eapply held_fresh|by rewrite Hk|].
    cbn [mbind option_bind]. exists (put a r'), out, msg. split; [done|]. split; [|by exists r'].
    rewrite (put_at _ _ _ _ _ Hl Hn (so_key _ _ _ _ _ _ _ Hok)). split; [| done| |].
    + eapply agent_ok_put; [done|exact Hl|apply Hok|apply Hok].
    + rewrite held_app. unfold held. rewrite Hl, bind_app. cbn.
      pose proof (so_bufs _ _ _ _ _ _ _ Hok) as Hb.
      by apply (perm_ctx _ _ [mad_id m]).
    + intros msg' Hm. exists (rkey r). by apply (so_msg _ _ _ _ _ _ _ Hok).
  - exists a, (ib_free_recv_mad [m]), None. split; [done|]. split; [|done]. by apply (agent_drop P a m []).
Qed.

Lemma create_progress m : get_seg_num m = 1 -> progress (create_rmpp_recv m) [] m [].
Proof.
  intros Hm. split; cbn; try done.
  - by rewrite Hm.
  - constructor.
  - constructor; [by apply not_elem_of_nil|constructor].
Qed.

(** A new context with its first segment. *)
Lemma started_ok P a m :
  get_seg_num m = 1 -> get_last_flag m = false -> P (key m) m ->
  recv_ok P (add_newwin (window_size a) (set_works true false (create_rmpp_recv m))).
Proof.
  intros Hm Hl HP. pose proof (window_size_pos a). split; [done|]. cbn. exists [], m, [].
  destruct (create_progress m Hm). split; [by split|]. split; [done|]. cbn. split; [lia|]. split; [lia|].
  split; [constructor; [lia|constructor]|]. split; [by constructor|]. done.
Qed.

Lemma agent_add P a r :
  agent_ok P a -> recv_ok P r -> rkey r ∉ rkey <$> recvs a ->
  agent_ok P (with_recvs a (recvs a ++ [r])) /\ held (with_recvs a (recvs a ++ [r])) ≡ₚ held_by r ++ held a.
Proof.
  intros [Hr Hk] Hok Hn. split; [split|]; cbn.
  - rewrite list.Forall_app, list.Forall_cons. done.
  - rewrite fmap_app. apply list.NoDup_app. split; [done|]. split; [|apply NoDup_singleton].
    intros k Hin Hk'. apply list_elem_of_singleton in Hk'. cbn in Hk'. congruence.
  - unfold held. cbn. rewrite bind_app. cbn. rewrite app_nil_r. apply Permutation_app_comm.
Qed.

Lemma put_added a r r' :
  rkey r ∉ rkey <$> recvs a -> rkey r' = rkey r ->
  put (with_recvs a (recvs a ++ [r])) r' = with_recvs a (recvs a ++ [r']).
Proof. intros Hn Hk. unfold put. cbn. by rewrite put_recv_app. Qed.

(** A new context at the end of the list. *)
Lemma start_added P a m r' out msg :
  agent_ok P a -> key m ∉ rkey <$> recvs a -> recv_ok P r' -> rkey r' = key m -> freed out = [] ->
  held_by r' ++ delivered msg = [mad_id m] -> (forall msg', msg = Some msg' -> message_ok P a (key m) msg') ->
  agent_step P a (with_recvs a (recvs a ++ [r'])) [mad_id m] out msg.
Proof.
  intros Ha Hn Hok Hk Hfr Hh Hmsg. destruct (agent_add P a r' Ha Hok) as [Hao Hheld]; [by rewrite Hk|].
  split; [done|done| |intros msg' Hm'; exists (key m); by apply Hmsg].
  rewrite Hheld, Hfr, <- Hh. clear. cbn. solve_Permutation.
Qed.

(** What [start_rmpp] does when the transfer is new. *)
Definition first_step (a : rmpp_agent) (m : rmpp_mad) (env : ack_env) : result :=
  let r0 := create_rmpp_recv m in
  let a1 := with_recvs a (a.(recvs) ++ [r0]) in
  if get_last_flag m then
    '(r, out, msg) ← complete_rmpp a1 (set_state RMPP_STATE_COMPLETE r0) env; Some (put a1 r, out, Some msg)
  else
    let '(r, out) := ack_recv (add_newwin (window_size a) (set_works true false r0)) m env in
    Some (put a1 r, out, None).

Lemma start_rmpp_first a m env :
  find_rmpp_recv a m = None -> start_rmpp a m true env = first_step a m env.
Proof.
  intros Hf. unfold start_rmpp, first_step. rewrite Hf. cbn [negb]. set (r0 := create_rmpp_recv m).
  destruct (get_last_flag m).
  - change (set_state RMPP_STATE_COMPLETE (set_ref 1 r0)) with (set_ref 1 (set_state RMPP_STATE_COMPLETE r0)).
    rewrite complete_ref. destruct (complete_rmpp _ _ _) as [[[r2 out] msg]|]; [|done].
    cbn [mbind option_bind]. by rewrite set_ref_back.
  - by destruct env.
Qed.

Lemma first_step_ok P a m env :
  agent_ok P a -> P (key m) m -> get_seg_num m = 1 -> find_rmpp_recv a m = None ->
  exists a' out msg, first_step a m env = Some (a', out, msg) /\ agent_step P a a' [mad_id m] out msg /\
    exists r', a' = with_recvs a (recvs a ++ [r']) /\ rkey r' = key m /\ recv_ok P r' /\
      seg_num r' = 1 /\ (state r' = RMPP_STATE_COMPLETE <-> msg <> None) /\
      (forall msg', msg = Some msg' -> message_ok P a (key m) msg').
Proof.
  intros Ha HP Hm Hf. apply find_recv_None in Hf as Hn. unfold first_step. set (r0 := create_rmpp_recv m).
  destruct (get_last_flag m) eqn:Hl.
  - destruct (complete_ok P (with_recvs a (recvs a ++ [r0])) r0 [] m [] env (create_progress m Hm) Hl)
      as (r' & out & msg & E & Hok & Hk & Hst & _ & Hfr & Hsegs & Hmsg); [done|by constructor|done|done|].
    rewrite E. cbn [mbind option_bind]. exists (put (with_recvs a (recvs a ++ [r0])) r'), out, (Some msg).
    split; [done|]. rewrite put_added by done. split.
    + apply (start_added P a m); [done|done|done|done|done| |by intros ? [= <-]].
      rewrite held_complete by done. destruct msg as [l len]. cbn in *. by rewrite Hsegs.
    + exists r'. split; [done|]. split; [done|]. split; [done|]. split; [|rewrite Hst; split; [naive_solver|by intros ? [= <-]]].
      unfold complete_rmpp in E. cbn in E. destruct env; cbn in E; destruct (get_mad_len _ _); cbn in E; by simplify_eq.
  - set (r1 := add_newwin (window_size a) (set_works true false r0)).
    assert (Hok1 : recv_ok P r1) by by apply started_ok.
    pose proof (ack_recv_ok P r1 m env Hok1) as Hok. pose proof (freed_ack r1 m env) as Hfr.
    destruct (ack_recv_facts r1 m env) as (Hs' & Hk' & Hst' & _ & Hn' & _).
    destruct (ack_recv r1 m env) as [r2 out]. cbn [fst snd] in *.
    exists (put (with_recvs a (recvs a ++ [r0])) r2), out, None. split; [done|]. rewrite put_added by done. split.
    + apply (start_added P a m); [done|done|done|done|done| |done]. rewrite held_active by done. by rewrite Hs'.
    + exists r2. split; [done|]. split; [done|]. split; [done|]. split; [done|]. rewrite Hst'. split; [naive_solver|done].
Qed.

Lemma start_ok P a m created env :
  agent_ok P a -> mad_id m ∉ held a -> P (key m) m -> get_seg_num m = 1 ->
  exists a' out msg, start_rmpp a m created env = Some (a', out, msg) /\
    agent_step P a a' [mad_id m] out msg /\
    if created then
      match find_rmpp_recv a m with
      | None => exists r', a' = with_recvs a (recvs a ++ [r']) /\ rkey r' = key m /\ recv_ok P r' /\
          seg_num r' = 1 /\ (state r' = RMPP_STATE_COMPLETE <-> msg <> None) /\
      (forall msg', msg = Some msg' -> message_ok P a (key m) msg')
      | Some r => exists r', a' = put a r' /\ step_ok P a r r' m out msg
      end
    else a' = a /\ msg = None.
Proof.
  intros Ha Hi HP Hm. destruct created.
  2: { exists a, (ib_free_recv_mad [m]), None. split; [done|]. split; [|done]. by apply (agent_drop P a m []). }
  destruct (find_rmpp_recv a m) as [r|] eqn:Hf.
  - destruct (continue_ok P a m env Ha Hi HP) as (a' & out & msg & E & Hs & Hc).
    rewrite Hf in Hc. exists a', out, msg. by split; [unfold start_rmpp; rewrite Hf|].
  - destruct (first_step_ok P a m env Ha HP Hm Hf) as (a' & out & msg & E & Hs & Hc).
    exists a', out, msg. by rewrite start_rmpp_first.
Qed.

(** The datagram is a proper data segment that finds or makes its context. *)
Definition accepted (a : rmpp_agent) (m : rmpp_mad) (created : bool) : bool :=
  negb (c_true (rmpp_status m)) &&
  (if rmpp_seg_num m =? 1 then get_first_flag m && created
   else negb (get_first_flag m) && bool_decide (is_Some (find_rmpp_recv a m))).

(** How a data segment acts on the context of its own key. *)
Definition key_step (P : rmpp_key -> rmpp_mad -> Prop) (a a' : rmpp_agent) (m : rmpp_mad) (created : bool)
    (out : list effect) (msg : option message) : Prop :=
  if accepted a m created then
    match find_rmpp_recv a m with
    | None => exists r', a' = with_recvs a (recvs a ++ [r']) /\ rkey r' = key m /\
        recv_ok P r' /\ seg_num r' = 1 /\ (state r' = RMPP_STATE_COMPLETE <-> msg <> None) /\
      (forall msg', msg = Some msg' -> message_ok P a (key m) msg')
    | Some r => exists r', a' = put a r' /\ step_ok P a r r' m out msg
    end
  else a' = a /\ msg = None.

Lemma process_ok P a m created posted env :
  agent_ok P a -> mad_id m ∉ held a -> P (key m) m ->
  exists a' out msg, process_rmpp_data a m created posted env = Some (a', out, msg) /\
    agent_step P a a' [mad_id m] out msg /\ key_step P a a' m created out msg.
Proof.
  intros Ha Hi HP. unfold process_rmpp_data, key_step, accepted.
  assert (Hbad : forall status, agent_step P a a [mad_id m]
    (nack_recv m status posted ++ ib_free_recv_mad [m]) None).
  { intros status. apply agent_drop; [done|apply freed_nack]. }
  destruct (c_true (rmpp_status m)); cbn [negb andb].
  { eexists _, _, _. split; [done|]. split; [apply Hbad|done]. }
  destruct (Z.eqb_spec (rmpp_seg_num m) 1) as [H1|H1].
  - destruct (get_first_flag m); cbn [negb andb].
    2: { eexists _, _, _. split; [done|]. split; [apply Hbad|done]. }
    assert (Hm : get_seg_num m = 1) by (unfold get_seg_num; by rewrite H1).
    destruct (start_ok P a m created env Ha Hi HP Hm) as (a' & out & msg & E & Hs & Hc).
    exists a', out, msg. by destruct created.
  - destruct (get_first_flag m); cbn [negb andb].
    { eexists _, _, _. split; [done|]. split; [apply Hbad|done]. }
    destruct (continue_ok P a m env Ha Hi HP) as (a' & out & msg & E & Hs & Hc).
    exists a', out, msg. split; [exact E|]. split; [done|]. by destruct (find_rmpp_recv a m).
Qed.

Lemma agent_ok_del P a l1 l2 r :
  agent_ok P a -> recvs a = l1 ++ r :: l2 -> agent_ok P (with_recvs a (l1 ++ l2)).
Proof.
  intros [Hr Hk] Hl. split; cbn.
  - rewrite Hl in Hr. rewrite list.Forall_app, list.Forall_cons in *. naive_solver.
  - rewrite Hl in Hk. rewrite fmap_app, fmap_cons in *. rewrite <- Permutation_middle in Hk.
    by apply list.NoDup_cons in Hk as [_ Hk].
Qed.

(** Removing a context whose buffers are freed or were the client's. *)
Lemma del_step P a k r out :
  agent_ok P a -> find_recv (recvs a) k = Some r -> freed out = held_by r ->
  agent_step P a (del a k) [] out None.
Proof.
  intros Ha (l1 & l2 & Hl & Hn & Hk)%find_recv_split Hf. subst k.
  assert (Hd : del a (rkey r) = with_recvs a (l1 ++ l2)) by (unfold del; by rewrite Hl, del_recv_app).
  rewrite Hd. split; [by eapply agent_ok_del|done| |done].
  rewrite held_app, Hf. unfold held. rewrite Hl, bind_app. cbn. clear. solve_Permutation.
Qed.

Lemma destroy_ok P r : recv_ok P r -> destroy_rmpp_recv r = Some tt.
Proof. intros [Href _]. unfold destroy_rmpp_recv. by rewrite Href. Qed.

Lemma find_recv_ok P a k r : agent_ok P a -> find_recv (recvs a) k = Some r -> recv_ok P r.
Proof.
  intros [Hr _] (l1 & l2 & Hl & _ & _)%find_recv_split.
  rewrite Hl, list.Forall_app, list.Forall_cons in Hr. naive_solver.
Qed.

Lemma timeout_ok P a k posted :
  agent_ok P a ->
  exists a' out, recv_timeout_handler a k posted = Some (a', out, None) /\ agent_step P a a' [] out None.
Proof.
  intros Ha. unfold recv_timeout_handler. destruct (find_recv (recvs a) k) as [r|] eqn:Hf.
  2: { exists a, []. split; [done|]. split; [done|done| |done]. by rewrite app_nil_r. }
  pose proof (find_recv_ok _ _ _ _ Ha Hf) as Hr. pose proof Hr as [Href Hst].
  destruct (timeout_work r) eqn:Ht; cbn [negb].
  2: { exists a, []. split; [done|]. split; [done|done| |done]. by rewrite app_nil_r. }
  cbn [state set_works]. destruct (state r) eqn:Es; [|done|by destruct Hst; congruence].
  rewrite bool_decide_eq_true_2 by done. cbn [negb segs set_works].
  destruct Hst as (pre & c & rest & Hp & _). destruct (progress_head _ _ _ _ Hp) as (wc & ->).
  cbn [mbind option_bind]. unfold destroy_rmpp_recv. cbn [refcount set_works]. rewrite Href.
  cbn [mbind option_bind Z.sub Z.eqb]. eexists _, _. split; [done|]. eapply del_step; [done|exact Hf|].
  by rewrite freed_app, freed_nack, freed_mads, held_active.
Qed.

Lemma cleanup_ok P a k :
  agent_ok P a ->
  exists a', recv_cleanup_handler a k = Some (a', [], None) /\ agent_step P a a' [] [] None.
Proof.
  intros Ha. unfold recv_cleanup_handler. destruct (find_recv (recvs a) k) as [r|] eqn:Hf.
  2: { exists a. split; [done|]. split; [done|done| |done]. by rewrite app_nil_r. }
  pose proof (find_recv_ok _ _ _ _ Ha Hf) as Hr. pose proof Hr as [Href Hst].
  destruct (cleanup_work r) eqn:Ht; cbn [negb].
  2: { exists a. split; [done|]. split; [done|done| |done]. by rewrite app_nil_r. }
  rewrite (destroy_ok P) by done. cbn [mbind option_bind]. eexists. split; [done|].
  eapply del_step; [done|exact Hf|]. destruct (state r) eqn:Es; [|done|by rewrite held_complete].
  destruct Hst as (pre & c & rest & H). decompose [and] H. congruence.
Qed.

Lemma cancel_list P l :
  Forall (recv_ok P) l -> exists out, cancel_recvs l = Some out /\ freed out = l ≫= held_by.
Proof.
  induction 1 as [|r l Hr _ (out & E & Hf)]; [by exists []|]. cbn [cancel_recvs].
  rewrite (destroy_ok P) by done. cbn [mbind option_bind]. rewrite E. cbn [mbind option_bind].
  eexists. split; [done|]. rewrite freed_app, Hf. cbn [mbind list_bind]. f_equal. unfold held_by.
  case_bool_decide; [done|apply freed_mads].
Qed.

Lemma cancel_ok P a :
  agent_ok P a ->
  exists a' out, ib_cancel_rmpp_recvs a = Some (a', out, None) /\ agent_step P a a' [] out None /\ recvs a' = [].
Proof.
  intros Ha. destruct (cancel_list P (recvs a)) as (out & E & Hf); [apply Ha|].
  unfold ib_cancel_rmpp_recvs. rewrite E. cbn [mbind option_bind]. eexists _, _. split; [done|].
  split; [|done]. split; [|done| |done].
  - split; [constructor|constructor].
  - rewrite Hf, app_nil_r. done.
Qed.

(** ** Runs *)

Inductive event :=
  | Data (m : rmpp_mad) (created posted : bool) (env : ack_env)
  | Timeout (k : rmpp_key) (posted : bool)
  | Cleanup (k : rmpp_key)
  | Cancel.

Definition exec_event (a : rmpp_agent) (ev : event) : result :=
  match ev with
  | Data m created posted env => process_rmpp_data a m created posted env
  | Timeout k posted => recv_timeout_handler a k posted
  | Cleanup k => recv_cleanup_handler a k
  | Cancel => ib_cancel_rmpp_recvs a
  end.

Definition ev_mads (ev : event) : list rmpp_mad :=
  match ev with Data m _ _ _ => [m] | _ => [] end.
Definition mads (evs : list event) : list rmpp_mad := evs ≫= ev_mads.

(** Final state, all effects, and the messages handed to the client. *)
Fixpoint run_events (a : rmpp_agent) (evs : list event)
    : option (rmpp_agent * list effect * list message) :=
  match evs with
  | [] => Some (a, [], [])
  | ev :: evs =>
      '(a, out, msg) ← exec_event a ev;
      '(a, out', msgs) ← run_events a evs;
      Some (a, out ++ out', option_list msg ++ msgs)
  end.

(** A buffer that arrives is not one the agent still holds. *)
Fixpoint fresh_events (a : rmpp_agent) (evs : list event) : Prop :=
  match evs with
  | [] => True
  | ev :: evs =>
      Forall (fun m => mad_id m ∉ held a) (ev_mads ev) /\
      match exec_event a ev with Some (a', _, _) => fresh_events a' evs | None => True end
  end.

#[export] Instance fresh_events_dec evs : forall a, Decision (fresh_events a evs).
Proof.
  induction evs as [|ev evs IH]; intros a; cbn [fresh_events]; [apply _|].
  destruct (exec_event a ev) as [[[a' ?] ?]|]; apply _.
Defined.

Lemma event_ok P a ev :
  agent_ok P a -> Forall (fun m => mad_id m ∉ held a) (ev_mads ev) ->
  Forall (fun m => P (key m) m) (ev_mads ev) ->
  exists a' out msg, exec_event a ev = Some (a', out, msg) /\ agent_step P a a' (ids (ev_mads ev)) out msg.
Proof.
  intros Ha Hf HP. destruct ev as [m created posted env|k posted|k|]; cbn [exec_event ev_mads] in *.
  - apply Forall_inv in Hf, HP. destruct (process_ok P a m created posted env Ha Hf HP) as (a' & out & msg & E & Hs & _). eauto.
  - destruct (timeout_ok P a k posted Ha) as (a' & out & E & Hs). eauto.
  - destruct (cleanup_ok P a k Ha) as (a' & E & Hs). eauto.
  - destruct (cancel_ok P a Ha) as (a' & out & E & Hs & _). eauto.
Qed.

Lemma message_ok_opa P a a' k msg : opa a' = opa a -> message_ok P a' k msg -> message_ok P a k msg.
Proof.
  intros Ho (pre & c & rest & n & base & ? & ? & ? & ? & Hl & ?). exists pre, c, rest, n, base.
  unfold mad_length, mad_size in *. rewrite Ho in Hl. done.
Qed.

Definition delivered_all (msgs : list message) : list Z := msgs ≫= fun msg => ids msg.1.

Lemma run_ok P evs : forall a,
  agent_ok P a -> fresh_events a evs -> Forall (fun m => P (key m) m) (mads evs) ->
  exists a' out msgs, run_events a evs = Some (a', out, msgs) /\ agent_ok P a' /\ opa a' = opa a /\
    ids (mads evs) ++ held a ≡ₚ held a' ++ freed out ++ delivered_all msgs /\
    Forall (fun msg => exists k, message_ok P a k msg) msgs.
Proof.
  induction evs as [|ev evs IH]; intros a Ha Hf HP; cbn [run_events].
  - exists a, [], []. split; [done|]. split; [done|]. split; [done|]. split; [|constructor]. cbn. by rewrite app_nil_r.
  - destruct Hf as [Hf Hfs]. unfold mads in HP. cbn [mbind list_bind] in HP.
    apply list.Forall_app in HP as [HP HPs].
    destruct (event_ok P a ev Ha Hf HP) as (a1 & out & msg & E & [Ha1 [_ Ho] Hb Hm]).
    rewrite E in Hfs |- *. destruct (IH a1 Ha1 Hfs HPs) as (a2 & out2 & msgs & E2 & Ha2 & Ho2 & Hb2 & Hm2).
    cbn [mbind option_bind]. rewrite E2. cbn [mbind option_bind]. eexists _, _, _. split; [done|].
    split; [done|]. split; [congruence|]. split.
    + unfold mads. cbn [mbind list_bind]. fold (mads evs). rewrite fmap_app, freed_app.
      unfold delivered_all. rewrite bind_app. fold (delivered_all msgs).
      replace (option_list msg ≫= fun msg0 => ids msg0.1) with (delivered msg)
        by (destruct msg as [[]|]; cbn; by rewrite ?app_nil_r).
      transitivity (ids (mads evs) ++ (ids (ev_mads ev) ++ held a)); [solve_Permutation|].
      rewrite Hb. transitivity ((ids (mads evs) ++ held a1) ++ freed out ++ delivered msg); [solve_Permutation|].
      rewrite Hb2. solve_Permutation.
    + apply list.Forall_app. split.
      * destruct msg as [msg|]; cbn; [|constructor]. constructor; [|constructor]. by apply Hm.
      * eapply list.Forall_impl; [exact Hm2|]. intros msg' (k & Hk). exists k. by eapply message_ok_opa.
Qed.

(** An agent without transfers. *)
Definition idle (active : Z) (use_opa : bool) : rmpp_agent := mk_agent [] active use_opa.

Lemma idle_ok P active use_opa : agent_ok P (idle active use_opa).
Proof. split; constructor. Qed.

(** C3: Whatever datagrams arrive in whatever order, and whenever the timers
    fire, the receive side never follows a null pointer nor waits for a
    reference that is not given back, and every buffer received is, at any
    time, exactly once either held by an unfinished transfer, freed, or handed
    to the client. *)
Theorem rmpp_recv_safe active use_opa evs :
  fresh_events (idle active use_opa) evs ->
  exists a' out msgs, run_events (idle active use_opa) evs = Some (a', out, msgs) /\
    ids (mads evs) ≡ₚ held a' ++ freed out ++ delivered_all msgs.
Proof.
  intros Hf. destruct (run_ok (fun _ _ => True) evs (idle active use_opa)) as (a' & out & msgs & E & _ & _ & Hb & _);
    [apply idle_ok|done|by apply list.Forall_forall|].
  exists a', out, msgs. split; [done|]. by rewrite app_nil_r in Hb.
Qed.


(** A query answered in three segments, the last one arriving before the
    second. *)
Definition sample_key : rmpp_key := mk_key 7 1 3 IB_MGMT_CLASS_SUBN_ADM 2 0x92.
Definition sample_mad (id n flags paylen : Z) : rmpp_mad :=
  mk_mad id sample_key 1 flags 0 n paylen (repeat 0 56) (repeat n 200).
Definition sample_run : list event :=
  [ Data (sample_mad 100 1 3 660) true true AckPosted;
    Data (sample_mad 101 3 5 100) true true AckPosted;
    Data (sample_mad 102 2 1 0) true true AckPosted ].

Lemma sample_delivered :
  snd <$> run_events (idle 512 false) sample_run
  = Some [([sample_mad 100 1 3 660; sample_mad 102 2 1 0; sample_mad 101 3 5 100], 536)].
Proof. vm_compute. reflexivity. Qed.

Lemma sample_fresh : fresh_events (idle 512 false) sample_run.
Proof. apply (bool_decide_eq_true_1 _). vm_compute. reflexivity. Qed.

Lemma rmpp_recv_safe_witness :
  exists a' out msgs, run_events (idle 512 false) sample_run = Some (a', out, msgs) /\
    ids (mads sample_run) ≡ₚ held a' ++ freed out ++ delivered_all msgs.
Proof. apply rmpp_recv_safe. exact sample_fresh. Defined.

