(* ===== verification/Bytes.v ===== *)
(** Reading back what was written: equational lemmas on the byte memory of
    Packer.v ([mem_get], [mem_put]) for the components that move whole buffers
    around, and the [memset] of C. *)

From S2P Require Import Prelude Packer.
#[local] Open Scope Z_scope.

(** [memset(m + off, v, n)] *)
Definition mem_set (m : list Z) (off v n : Z) : option (list Z) :=
  if decide (0 <= n) then mem_put m off (replicate (Z.to_nat n) v) else None.

Section bytes.
Implicit Types (m bs : list Z) (off n : Z).

Lemma mem_get_length m off n bs : mem_get m off n = Some bs -> length bs = Z.to_nat n.
Proof.
  unfold mem_get. case_decide; [|done]. intros [= <-]. rewrite length_take, length_drop. lia.
Qed.

Lemma mem_get_some m off n :
  0 <= off -> 0 <= n -> off + n <= Z.of_nat (length m) ->
  mem_get m off n = Some (take (Z.to_nat n) (drop (Z.to_nat off) m)).
Proof. intros. unfold mem_get. by rewrite decide_True by lia. Qed.

Lemma mem_get_0 m n :
  0 <= n <= Z.of_nat (length m) -> mem_get m 0 n = Some (take (Z.to_nat n) m).
Proof. intros. rewrite mem_get_some by lia. done. Qed.

Lemma mem_get_all m n : n = Z.of_nat (length m) -> mem_get m 0 n = Some m.
Proof. intros ->. rewrite mem_get_0 by lia. by rewrite Nat2Z.id, firstn_all. Qed.

Lemma mem_get_app_l m1 m2 off n :
  0 <= off -> 0 <= n -> off + n <= Z.of_nat (length m1) ->
  mem_get (m1 ++ m2) off n = mem_get m1 off n.
Proof.
  intros. rewrite !mem_get_some by (rewrite ?length_app; lia). f_equal.
  rewrite drop_app_le by lia. rewrite take_app_le; [done|]. rewrite length_drop. lia.
Qed.

Lemma mem_get_app_r m1 m2 off n :
  Z.of_nat (length m1) <= off ->
  mem_get (m1 ++ m2) off n = mem_get m2 (off - Z.of_nat (length m1)) n.
Proof.
  intros. unfold mem_get. rewrite length_app.
  destruct (decide (0 <= n /\ off + n <= Z.of_nat (length m1 + length m2))).
  - rewrite !decide_True by lia. do 2 f_equal. rewrite drop_app_ge by lia. f_equal. lia.
  - rewrite !decide_False by lia. done.
Qed.

Lemma mem_put_length m off bs m' : mem_put m off bs = Some m' -> length m' = length m.
Proof. unfold mem_put. case_decide; [|done]. intros [= <-]. apply length_inserts. Qed.

Lemma mem_put_some m off bs :
  0 <= off -> off + Z.of_nat (length bs) <= Z.of_nat (length m) ->
  exists m', mem_put m off bs = Some m' /\ length m' = length m.
Proof.
  intros. unfold mem_put. rewrite decide_True by lia. eexists. split; [done|]. apply length_inserts.
Qed.

Lemma mem_put_inv m off bs m' :
  mem_put m off bs = Some m' ->
  0 <= off /\ off + Z.of_nat (length bs) <= Z.of_nat (length m) /\
  m' = list_inserts (Z.to_nat off) bs m.
Proof. unfold mem_put. case_decide; [|done]. intros [= <-]. split_and!; [lia..|done]. Qed.

(** A write splits the buffer into what is before, the data and what follows. *)
Lemma inserts_split m (o : nat) bs :
  (o + length bs <= length m)%nat ->
  list_inserts o bs m = take o m ++ bs ++ drop (o + length bs) m.
Proof.
  intros Ho. apply list_eq. intros i. destruct (decide (i < o)%nat).
  - rewrite list_lookup_inserts_lt by lia. rewrite lookup_app_l by (rewrite length_take; lia).
    by rewrite lookup_take_lt.
  - rewrite lookup_app_r by (rewrite length_take; lia). rewrite length_take, Nat.min_l by lia.
    destruct (decide (i < o + length bs)%nat).
    + rewrite list_lookup_inserts by lia. by rewrite lookup_app_l by lia.
    + rewrite list_lookup_inserts_ge by lia. rewrite lookup_app_r by lia. rewrite lookup_drop.
      f_equal. lia.
Qed.

Lemma mem_put_split m off bs :
  0 <= off -> off + Z.of_nat (length bs) <= Z.of_nat (length m) ->
  mem_put m off bs = Some (take (Z.to_nat off) m ++ bs ++ drop (Z.to_nat off + length bs) m).
Proof.
  intros. unfold mem_put. rewrite decide_True by lia. by rewrite inserts_split by lia.
Qed.

Lemma mem_put_app m1 m2 m3 bs :
  length bs = length m2 -> mem_put (m1 ++ m2 ++ m3) (Z.of_nat (length m1)) bs = Some (m1 ++ bs ++ m3).
Proof.
  intros Hl. rewrite mem_put_split by (rewrite ?length_app; lia). do 2 f_equal.
  - by rewrite Nat2Z.id, take_app_length.
  - f_equal. rewrite Nat2Z.id, drop_app_ge by lia. rewrite Hl, drop_app_ge by lia.
    replace (length m1 + length m2 - length m1 - length m2)%nat with 0%nat by lia. done.
Qed.

Lemma mem_get_put_eq m off bs m' n :
  mem_put m off bs = Some m' -> n = Z.of_nat (length bs) -> mem_get m' off n = Some bs.
Proof.
  intros (H1 & H2 & ->)%mem_put_inv ->. rewrite mem_get_some by (rewrite ?length_inserts; lia).
  rewrite inserts_split by lia. f_equal. rewrite drop_app_ge by (rewrite length_take; lia).
  rewrite length_take, Nat.min_l, Nat.sub_diag, drop_0 by lia.
  by rewrite Nat2Z.id, take_app_length.
Qed.

Lemma mem_get_put_ne m off bs m' o n :
  mem_put m off bs = Some m' -> o + n <= off \/ off + Z.of_nat (length bs) <= o ->
  mem_get m' o n = mem_get m o n.
Proof.
  intros (H1 & H2 & ->)%mem_put_inv Hd. unfold mem_get. rewrite length_inserts.
  case_decide as Hc; [|done]. f_equal. apply list_eq. intros i.
  destruct (decide (i < Z.to_nat n)%nat); [|by rewrite !lookup_take_ge by lia].
  rewrite !lookup_take_lt, !lookup_drop by lia. destruct Hd.
  - rewrite list_lookup_inserts_lt; [done|lia].
  - rewrite list_lookup_inserts_ge; [done|lia].
Qed.

Lemma mem_put_bytes m off bs m' :
  mem_put m off bs = Some m' -> bytes_ok m -> bytes_ok bs -> bytes_ok m'.
Proof. intros (_ & _ & ->)%mem_put_inv. apply bytes_inserts. Qed.

Lemma be_get_put_same m off (n : nat) v m' k :
  be_put m off n v = Some m' -> k = Z.of_nat n -> be_get m' off k = Some (wrap (8 * k) v).
Proof.
  intros Hp ->. unfold be_get.
  rewrite (mem_get_put_eq _ _ _ _ _ Hp) by by rewrite length_to_be.
  cbn. by rewrite of_be_to_be.
Qed.

Lemma be_get_put_other m off (n : nat) v m' o k :
  be_put m off n v = Some m' -> o + k <= off \/ off + Z.of_nat n <= o ->
  be_get m' o k = be_get m o k.
Proof.
  intros Hp Hd. unfold be_get. by rewrite (mem_get_put_ne _ _ _ _ _ _ Hp) by by rewrite length_to_be.
Qed.

Lemma be_put_length m off (n : nat) v m' : be_put m off n v = Some m' -> length m' = length m.
Proof. apply mem_put_length. Qed.

Lemma be_put_some m off (n : nat) v :
  0 <= off -> off + Z.of_nat n <= Z.of_nat (length m) ->
  exists m', be_put m off n v = Some m' /\ length m' = length m.
Proof. intros. apply mem_put_some; [done|]. by rewrite length_to_be. Qed.

Lemma be_get_some m off n :
  0 <= off -> 0 <= n -> off + n <= Z.of_nat (length m) -> exists v, be_get m off n = Some v.
Proof. intros. unfold be_get. rewrite mem_get_some by lia. by eexists. Qed.

Lemma be_get_app_l m1 m2 off n :
  0 <= off -> 0 <= n -> off + n <= Z.of_nat (length m1) -> be_get (m1 ++ m2) off n = be_get m1 off n.
Proof. intros. unfold be_get. by rewrite mem_get_app_l. Qed.

Lemma arr_set_put m i v : arr_set m i v = mem_put m i [v].
Proof.
  unfold arr_set, mem_put. cbn [length].
  destruct (decide (0 <= i < Z.of_nat (length m))); [rewrite decide_True by lia|rewrite decide_False by lia]; done.
Qed.

Lemma mem_put_lookup_ne m off bs m' (i : nat) :
  mem_put m off bs = Some m' -> Z.of_nat i < off \/ off + Z.of_nat (length bs) <= Z.of_nat i ->
  m' !! i = m !! i.
Proof.
  intros (H1 & H2 & ->)%mem_put_inv [Hd|Hd].
  - apply list_lookup_inserts_lt. lia.
  - apply list_lookup_inserts_ge. lia.
Qed.

Lemma arr_get_put_ne m off bs m' i :
  mem_put m off bs = Some m' -> i < off \/ off + Z.of_nat (length bs) <= i -> arr_get m' i = arr_get m i.
Proof.
  intros Hp Hd. unfold arr_get. case_decide; [|done]. eapply mem_put_lookup_ne; [exact Hp|lia].
Qed.

Lemma arr_set_total {A} (l : list A) i v :
  0 <= i < Z.of_nat (length l) -> exists l', arr_set l i v = Some l' /\ length l' = length l.
Proof. intros Hi. rewrite arr_set_Some by done. eexists. split; [done|]. apply length_insert. Qed.
End bytes.

#[export] Hint Resolve mem_put_length be_put_length : mach.
