(* ===== verification/RmppSend.v ===== *)
(** Sending RMPP messages and handing them to and from user space: the segment
    lists of drivers/infiniband/core/mad.c, [send_next_seg] of mad_rmpp.c, and
    the copies of user_mad.c.

    Buffers are byte lists, and an access outside one answers [None]. Pointers
    to segments are positions in the segment list. What the allocator and the
    hardware answer are arguments, as is [msecs_to_jiffies]. *)

From S2P Require Import Prelude Packer Bytes RmppRecv.
#[local] Open Scope Z_scope.

Definition EFAULT : Z := 14.

(** ** Data *)

Record rmpp_segment := mk_seg { num : Z; data : list Z }.

(** [struct ib_mad_send_buf]; [mad] is the memory at its [mad] pointer. *)
Record ib_mad_send_buf := mk_buf {
  mad : list Z; hdr_len : Z; data_len : Z;
  seg_count : Z; seg_size : Z; seg_rmpp_size : Z;
  timeout_ms : Z; retries : Z
}.

(** The RMPP control fields of [struct ib_mad_send_wr_private]. *)
Record rmpp_ctl := mk_ctl {
  rmpp_list : list rmpp_segment; last_ack_seg : Z; cur_seg : Z;
  last_ack : Z; seg_num : Z; newwin : Z; pad : Z
}.

(** [struct ib_mad_send_wr_private]; [sge_len] is [sg_list[1].length]. *)
Record send_wr := mk_wr {
  send_buf : ib_mad_send_buf; ctl : rmpp_ctl; sge_len : Z;
  timeout : Z; max_retries : Z; retries_left : Z; refcount : Z; status : Z
}.

Definition set_mad (m : list Z) (b : ib_mad_send_buf) : ib_mad_send_buf :=
  mk_buf m b.(hdr_len) b.(data_len) b.(seg_count) b.(seg_size) b.(seg_rmpp_size) b.(timeout_ms) b.(retries).
Definition set_list (l : list rmpp_segment) (c : rmpp_ctl) : rmpp_ctl :=
  mk_ctl l c.(last_ack_seg) c.(cur_seg) c.(last_ack) c.(seg_num) c.(newwin) c.(pad).
Definition set_cur_seg (i : Z) (c : rmpp_ctl) : rmpp_ctl :=
  mk_ctl c.(rmpp_list) c.(last_ack_seg) i c.(last_ack) c.(seg_num) c.(newwin) c.(pad).
Definition set_seg_num (n : Z) (c : rmpp_ctl) : rmpp_ctl :=
  mk_ctl c.(rmpp_list) c.(last_ack_seg) c.(cur_seg) c.(last_ack) n c.(newwin) c.(pad).
Definition set_buf (b : ib_mad_send_buf) (w : send_wr) : send_wr :=
  mk_wr b w.(ctl) w.(sge_len) w.(timeout) w.(max_retries) w.(retries_left) w.(refcount) w.(status).
Definition set_ctl (c : rmpp_ctl) (w : send_wr) : send_wr :=
  mk_wr w.(send_buf) c w.(sge_len) w.(timeout) w.(max_retries) w.(retries_left) w.(refcount) w.(status).
Definition set_timeout (t : Z) (w : send_wr) : send_wr :=
  mk_wr w.(send_buf) w.(ctl) w.(sge_len) t w.(max_retries) w.(retries_left) w.(refcount) w.(status).

(** What the code asks of an agent: whether its port uses OPA datagrams, its
    RMPP version, whether user space runs RMPP itself, and the high half of its
    transaction identifiers. *)
Record mad_agent := mk_magent { opa_port : bool; rmpp_version : Z; user_rmpp : bool; hi_tid : Z }.

Definition IB_MGMT_RMPP_VERSION : Z := 1.

Definition ib_mad_kernel_rmpp_agent (a : mad_agent) : bool :=
  c_true a.(rmpp_version) && negb a.(user_rmpp).

Definition ib_is_mad_class_rmpp (mgmt_class : Z) : bool :=
  (mgmt_class =? IB_MGMT_CLASS_SUBN_ADM) || (mgmt_class =? IB_MGMT_CLASS_DEVICE_MGMT) ||
  (mgmt_class =? IB_MGMT_CLASS_DEVICE_ADM) || (mgmt_class =? IB_MGMT_CLASS_BIS) ||
  ((IB_MGMT_CLASS_VENDOR_RANGE2_START <=? mgmt_class) && (mgmt_class <=? IB_MGMT_CLASS_VENDOR_RANGE2_END)).

(** ** Allocating the segments *)

Definition get_pad_size (hdr_len data_len mad_size : Z) : Z :=
  let seg_size := s32 (mad_size - hdr_len) in
  if c_true data_len && c_true seg_size then
    let pad := seg_size - Z.rem data_len seg_size in
    if pad =? seg_size then 0 else pad
  else seg_size.

(** What [kmalloc] gives for the segment of a number, if anything: the bytes
    that happen to be there. *)
Abbreviation allocator := (Z -> option (Z -> Z)).

(** The allocation loop; fuel running out is [None]. When memory runs out the
    segments allocated so far are freed. *)
Fixpoint alloc_segs (fuel : nat) (mem : allocator) (left seg_size seg_count : Z)
    (l : list rmpp_segment) : option (Z + Z * list rmpp_segment) :=
  if left <=? 0 then Some (inr (seg_count, l)) else
  match fuel with
  | O => None
  | S fuel =>
      match mem (seg_count + 1) with
      | None => Some (inl (- ENOMEM))
      | Some bytes =>
          alloc_segs fuel mem (left - seg_size) seg_size (seg_count + 1)
            (l ++ [mk_seg (seg_count + 1) (bytes <$> seqZ 0 seg_size)])
      end
  end.

(** [memset(seg->data + off, 0, n)] on the last segment allocated. *)
Definition zero_last (l : list rmpp_segment) (off n : Z) : option (list rmpp_segment) :=
  s ← last l;
  d ← mem_set s.(data) off 0 n;
  Some (removelast l ++ [mk_seg s.(num) d]).

(** Offsets in the RMPP header of a datagram. *)
Definition RMPP_VERSION_OFF : Z := 24.
Definition RMPP_TYPE_OFF : Z := 25.
Definition RMPP_FLAGS_OFF : Z := 26.
Definition RMPP_STATUS_OFF : Z := 27.
Definition RMPP_SEG_NUM_OFF : Z := 28.
Definition RMPP_PAYLEN_OFF : Z := 32.
Definition IB_MGMT_RMPP_TYPE_DATA : Z := 1.

Definition ib_set_rmpp_flags (m : list Z) (flags : Z) : option (list Z) :=
  b ← arr_get m RMPP_FLAGS_OFF;
  arr_set m RMPP_FLAGS_OFF (Z.lor (Z.land b 0xF8) (Z.land flags 7)).

Definition or_rmpp_flags (m : list Z) (flag : Z) : option (list Z) :=
  b ← arr_get m RMPP_FLAGS_OFF; arr_set m RMPP_FLAGS_OFF (Z.lor b flag).

Definition alloc_send_rmpp_list (version : Z) (w : send_wr) (mad_size : Z) (mem : allocator)
    : option (Z + send_wr) :=
  let b := w.(send_buf) in
  let ssize := mad_size - b.(hdr_len) in
  let left := b.(data_len) + w.(ctl).(pad) in
  r ← alloc_segs (Z.to_nat left) mem left ssize b.(seg_count) [];
  match r with
  | inl err => Some (inl err)
  | inr (count, l) =>
      l ← (if c_true w.(ctl).(pad) then zero_last l (ssize - w.(ctl).(pad)) w.(ctl).(pad) else Some l);
      m ← arr_set b.(mad) RMPP_VERSION_OFF version;
      m ← arr_set m RMPP_TYPE_OFF IB_MGMT_RMPP_TYPE_DATA;
      m ← ib_set_rmpp_flags m IB_MGMT_RMPP_FLAG_ACTIVE;
      let b := mk_buf m b.(hdr_len) b.(data_len) count ssize (mad_size - IB_MGMT_RMPP_HDR)
                 b.(timeout_ms) b.(retries) in
      let c := w.(ctl) in
      let c := mk_ctl l 0 0 c.(last_ack) c.(seg_num) c.(newwin) c.(pad) in
      Some (inr (set_ctl c (set_buf b w)))
  end.

(** [sizeof(struct opa_mad)] or [sizeof(struct ib_mad)] *)
Definition agent_mad_size (a : mad_agent) (base_version : Z) : Z :=
  if a.(opa_port) && (base_version =? OPA_MGMT_BASE_VERSION) then OPA_MGMT_MAD_SIZE else IB_MGMT_MAD_SIZE.

(** [message_size > mad_size] compares as [size_t]. [buf_ok] is the answer of
    [kzalloc]. *)
Definition ib_create_send_mad (a : mad_agent) (rmpp_active : bool) (hdr_len data_len base_version : Z)
    (buf_ok : bool) (mem : allocator) : option (Z + send_wr) :=
  let mad_size := agent_mad_size a base_version in
  let pad := get_pad_size hdr_len data_len mad_size in
  let message_size := hdr_len + data_len + pad in
  if if ib_mad_kernel_rmpp_agent a then negb rmpp_active && (mad_size <? u64 message_size)
     else rmpp_active || (mad_size <? u64 message_size)
  then Some (inl (- EINVAL)) else
  if negb buf_ok then Some (inl (- ENOMEM)) else
  let size := if rmpp_active then hdr_len else mad_size in
  let sge_len :=
    if a.(opa_port) && (base_version =? OPA_MGMT_BASE_VERSION) && (u64 data_len <? mad_size - hdr_len)
    then data_len else mad_size - hdr_len in
  let w := mk_wr (mk_buf (replicate (Z.to_nat size) 0) hdr_len data_len 0 0 0 0 0)
             (mk_ctl [] 0 0 0 0 0 pad) sge_len 0 0 0 0 0 in
  if rmpp_active then alloc_send_rmpp_list a.(rmpp_version) w mad_size mem else Some (inr w).

(** ** Walking the segments *)

(** The segment list is circular through its head. Read as a segment, the head
    has the number [head_num]: half of the pointer stored after it. *)
Definition num_at (head_num : Z) (c : rmpp_ctl) (p : option Z) : option Z :=
  match p with None => Some head_num | Some i => num <$> arr_get c.(rmpp_list) i end.

(** The nodes a walk from position [i] meets before it is back. *)
Definition round (c : rmpp_ctl) (i : Z) : list (option Z) :=
  (Some <$> seqZ (i + 1) (Z.of_nat (length c.(rmpp_list)) - i - 1)) ++ [None] ++ (Some <$> seqZ 0 i).

(** Walk until the node of number [n], or back to [start]; [None] when the walk
    stops at the head, which is no segment. *)
Fixpoint seek (head_num : Z) (c : rmpp_ctl) (start n : Z) (l : list (option Z)) : option Z :=
  match l with
  | [] => Some start
  | p :: l => k ← num_at head_num c p; if k =? n then p else seek head_num c start n l
  end.

Definition ib_get_rmpp_segment (head_num : Z) (c : rmpp_ctl) (n : Z) : option (rmpp_ctl * Z) :=
  cur ← arr_get c.(rmpp_list) c.(cur_seg);
  i ← (if cur.(num) <? u32 n then seek head_num c c.(cur_seg) n (round c c.(cur_seg))
       else if u32 n <? cur.(num) then seek head_num c c.(cur_seg) n (reverse (round c c.(cur_seg)))
       else Some c.(cur_seg));
  Some (set_cur_seg i c, i).

Definition put_data (i : Z) (d : list Z) (c : rmpp_ctl) : option rmpp_ctl :=
  s ← arr_get c.(rmpp_list) i;
  l ← arr_set c.(rmpp_list) i (mk_seg s.(num) d);
  Some (set_list l c).

(** ** Filling the segments from user space *)

(** The loop of [copy_rmpp_mad]; [ubuf] are the bytes that can be read at the
    user's pointer. *)
Fixpoint copy_segs (fuel : nat) (head_num : Z) (w : send_wr) (ubuf : list Z) (seg left off : Z)
    : option (Z * send_wr) :=
  if left <=? 0 then Some (0, w) else
  match fuel with
  | O => None
  | S fuel =>
      '(c, i) ← ib_get_rmpp_segment head_num w.(ctl) seg;
      let ssize := w.(send_buf).(seg_size) in
      match mem_get ubuf off (Z.min left ssize) with
      | None => Some (- EFAULT, set_ctl c w)
      | Some bs =>
          s ← arr_get c.(rmpp_list) i;
          d ← mem_put s.(data) 0 bs;
          c ← put_data i d c;
          copy_segs fuel head_num (set_ctl c w) ubuf (seg + 1) (left - ssize) (off + ssize)
      end
  end.

Definition copy_rmpp_mad (head_num : Z) (w : send_wr) (ubuf : list Z) : option (Z * send_wr) :=
  let b := w.(send_buf) in
  let copy w := copy_segs (Z.to_nat b.(data_len)) head_num w ubuf 1 b.(data_len) b.(hdr_len) in
  if IB_MGMT_RMPP_HDR <? b.(hdr_len) then
    match mem_get ubuf IB_MGMT_RMPP_HDR (b.(hdr_len) - IB_MGMT_RMPP_HDR) with
    | None => Some (- EFAULT, w)
    | Some bs => m ← mem_put b.(mad) IB_MGMT_RMPP_HDR bs; copy (set_buf (set_mad m b) w)
    end
  else copy w.

Definition IB_MGMT_METHOD_RESP : Z := 0x80.
Definition IB_MGMT_METHOD_TRAP_REPRESS : Z := 0x07.
Definition IB_MGMT_CLASS_BM : Z := 0x05.
Definition IB_BM_ATTR_MOD_RESP : Z := 1.

Definition ib_response_mad (m : list Z) : option bool :=
  class ← arr_get m 1;
  method ← arr_get m 3;
  attr_mod ← be_get m 20 4;
  Some (c_true (Z.land method IB_MGMT_METHOD_RESP) || (method =? IB_MGMT_METHOD_TRAP_REPRESS) ||
        ((class =? IB_MGMT_CLASS_BM) && c_true (Z.land attr_mod IB_BM_ATTR_MOD_RESP))).

(** The high half of the transaction identifier of a request tells the agents
    of a port apart. *)
Definition set_hi_tid (a : mad_agent) (m : list Z) : option (list Z) :=
  response ← ib_response_mad m;
  if response : bool then Some m else
  tid ← be_get m 8 8;
  be_put m 8 8 (Z.lor (Z.shiftl a.(hi_tid) 32) (Z.land tid 0xffffffff)).

(** The part of [ib_umad_write] that builds the message: [count] counts the
    bytes behind the header of the file interface, of which [ubuf] are readable. *)
Definition umad_build (head_num : Z) (a : mad_agent) (ubuf : list Z) (count : Z) (buf_ok : bool)
    (mem : allocator) : option (Z + send_wr) :=
  match mem_get ubuf 0 IB_MGMT_RMPP_HDR with
  | None => Some (inl (- EFAULT))
  | Some packet =>
      base_version ← arr_get packet 0;
      class ← arr_get packet 1;
      flags ← arr_get packet RMPP_FLAGS_OFF;
      let hlen := ib_get_mad_data_offset class in
      let kernel := ib_is_mad_class_rmpp class && ib_mad_kernel_rmpp_agent a in
      let copy_offset := if kernel then IB_MGMT_RMPP_HDR else IB_MGMT_MAD_HDR in
      let rmpp_active := kernel && c_true (Z.land flags IB_MGMT_RMPP_FLAG_ACTIVE) in
      let dlen := s32 (count - hlen) in
      r ← ib_create_send_mad a rmpp_active hlen dlen base_version buf_ok mem;
      match r with
      | inl err => Some (inl err)
      | inr w =>
          hdr ← mem_get packet 0 IB_MGMT_MAD_HDR;
          m ← mem_put w.(send_buf).(mad) 0 hdr;
          let w := set_buf (set_mad m w.(send_buf)) w in
          '(err, w) ← (if rmpp_active then copy_rmpp_mad head_num w ubuf else
            match mem_get ubuf copy_offset (hlen + dlen - copy_offset) with
            | None => Some (- EFAULT, w)
            | Some bs => m ← mem_put m copy_offset bs; Some (0, set_buf (set_mad m w.(send_buf)) w)
            end);
          if c_true err then Some (inl err) else
          m ← set_hi_tid a w.(send_buf).(mad);
          Some (inr (set_buf (set_mad m w.(send_buf)) w))
      end
  end.

(** ** Sending a segment *)

(** What the DMA mapping and the hardware answer to [ib_send_mad]; a datagram
    queued behind others counts as posted. *)
Inductive post_env := HdrUnmapped | PayloadUnmapped | Posted (ret : Z).

(** [ib_get_payload] and the length that is mapped there. *)
Definition ib_get_payload (head_num : Z) (w : send_wr) : option (send_wr * list Z) :=
  let b := w.(send_buf) in
  if c_true b.(seg_count) then
    '(c, i) ← ib_get_rmpp_segment head_num w.(ctl) w.(ctl).(seg_num);
    s ← arr_get c.(rmpp_list) i;
    p ← mem_get s.(data) 0 w.(sge_len);
    Some (set_ctl c w, p)
  else p ← mem_get b.(mad) b.(hdr_len) w.(sge_len); Some (w, p).

(** [ib_send_mad]: the bytes that go on the wire are the header and the payload. *)
Definition ib_send_mad (head_num : Z) (w : send_wr) (env : post_env)
    : option (send_wr * Z * option (list Z)) :=
  hdr ← mem_get w.(send_buf).(mad) 0 w.(send_buf).(hdr_len);
  match env with
  | HdrUnmapped => Some (w, - ENOMEM, None)
  | PayloadUnmapped => '(w, _) ← ib_get_payload head_num w; Some (w, - ENOMEM, None)
  | Posted ret =>
      '(w, p) ← ib_get_payload head_num w;
      Some (w, ret, if ret =? 0 then Some (hdr ++ p) else None)
  end.

Section send.
Variable msecs_to_jiffies : Z -> Z.

Definition send_next_seg (head_num : Z) (w : send_wr) (env : post_env)
    : option (send_wr * Z * option (list Z)) :=
  let b := w.(send_buf) in
  let n := w.(ctl).(seg_num) + 1 in
  m ← ib_set_rmpp_flags b.(mad) IB_MGMT_RMPP_FLAG_ACTIVE;
  m ← be_put m RMPP_SEG_NUM_OFF 4 n;
  '(m, paylen) ← (if n =? 1 then
      m ← or_rmpp_flags m IB_MGMT_RMPP_FLAG_FIRST;
      Some (m, u32 (b.(seg_count) * b.(seg_rmpp_size) - w.(ctl).(pad)))
    else Some (m, 0));
  '(m, paylen) ← (if n =? b.(seg_count) then
      m ← or_rmpp_flags m IB_MGMT_RMPP_FLAG_LAST;
      Some (m, u32 (b.(seg_rmpp_size) - w.(ctl).(pad)))
    else Some (m, paylen));
  m ← be_put m RMPP_PAYLEN_OFF 4 paylen;
  let w := set_buf (set_mad m b) (set_ctl (set_seg_num n w.(ctl)) w) in
  let w := if negb (c_true b.(timeout_ms)) || (2000 <? b.(timeout_ms))
           then set_timeout (msecs_to_jiffies 2000) w else w in
  ib_send_mad head_num w env.
End send.

(** ** Receiving and handing to user space *)

(** The datagram a receive buffer holds, as RmppRecv.v sees it. *)
Definition mad_of_wire (id slid src_qp : Z) (wire : list Z) : option rmpp_mad :=
  base ← arr_get wire 0;
  class ← arr_get wire 1;
  version ← arr_get wire 2;
  method ← arr_get wire 3;
  tid ← be_get wire 8 8;
  flags ← arr_get wire RMPP_FLAGS_OFF;
  status ← arr_get wire RMPP_STATUS_OFF;
  n ← be_get wire RMPP_SEG_NUM_OFF 4;
  len ← be_get wire RMPP_PAYLEN_OFF 4;
  let hlen := ib_get_mad_data_offset class in
  hdr ← mem_get wire 0 hlen;
  Some (mk_mad id (mk_key tid src_qp slid class version method) base flags status n len
          hdr (drop (Z.to_nat hlen) wire)).

(** The memory at [recv_buf->mad]. *)
Definition recv_bytes (m : rmpp_mad) : list Z := m.(mad_hdr) ++ m.(payload).

(** The loop of [copy_recv_mad] over the buffers after the first one. *)
Fixpoint copy_rest (l : list rmpp_mad) (left max_seg_payload offset : Z) (out : list Z)
    : option (list Z) :=
  if left =? 0 then Some out else
  match l with
  | [] => None
  | m :: l =>
      let n := Z.min left max_seg_payload in
      bs ← mem_get (recv_bytes m) offset n;
      copy_rest l (left - n) max_seg_payload offset (out ++ bs)
  end.

(** [umad_hdr] are the bytes of the file interface's header, [seg_size] is the
    [mad_seg_size] of the receive, [count] the room in the user's buffer, and
    [writable] how much of it can be written. What user space gets is the bytes;
    lengths are compared as [size_t]. *)
Definition copy_recv_mad (umad_hdr : list Z) (msg : message) (seg_size count writable : Z)
    : option (Z + list Z) :=
  let '(l, length_) := msg in
  let hsize := Z.of_nat (length umad_hdr) in
  let fits_one := u64 length_ <=? seg_size in
  if (fits_one && (count <? u64 (hsize + length_))) || (negb fits_one && (count <? hsize + seg_size))
  then Some (inl (- EINVAL)) else
  if writable <? hsize then Some (inl (- EFAULT)) else
  recv_buf ← head l;
  let seg_payload := Z.min length_ seg_size in
  first ← mem_get (recv_bytes recv_buf) 0 seg_payload;
  if writable <? hsize + seg_payload then Some (inl (- EFAULT)) else
  if seg_payload <? length_ then
    if count <? u64 (hsize + length_) then Some (inl (- ENOSPC)) else
    let offset := ib_get_mad_data_offset recv_buf.(key).(mgmt_class) in
    rest ← copy_rest (tail l) (length_ - seg_payload) (seg_size - offset) offset [];
    if writable <? hsize + length_ then Some (inl (- EFAULT)) else
    Some (inr (umad_hdr ++ first ++ rest))
  else Some (inr (umad_hdr ++ first)).

(** ** Padding and allocation *)

Abbreviation snums := (fmap num).

Lemma get_pad_size_spec hlen dlen msize :
  0 <= dlen -> 0 < msize - hlen < 2 ^ 31 ->
  let p := get_pad_size hlen dlen msize in
  0 <= p <= msize - hlen /\ exists k, 1 <= k /\ dlen + p = k * (msize - hlen).
Proof.
  intros Hd Hs. unfold get_pad_size. rewrite s32_small by lia. set (ss := msize - hlen) in *.
  rewrite Z.rem_mod_nonneg by lia. pose proof (Z.mod_pos_bound dlen ss ltac:(lia)).
  pose proof (Z.div_mod dlen ss ltac:(lia)). pose proof (Z.div_pos dlen ss Hd ltac:(lia)).
  destruct (c_true dlen) eqn:E; cbn [andb].
  - apply c_true_spec in E. rewrite (proj2 (c_true_spec ss)) by lia.
    destruct (Z.eqb_spec (ss - dlen mod ss) ss).
    + split; [lia|]. exists (dlen / ss). nia.
    + split; [lia|]. exists (dlen / ss + 1). nia.
  - apply c_true_false in E. subst dlen. split; [lia|]. exists 1. lia.
Qed.

(** A negative length: the padding is longer than a segment. *)
Lemma get_pad_size_negative hlen dlen msize :
  dlen < 0 -> 0 < msize - hlen + dlen -> msize - hlen < 2 ^ 31 ->
  get_pad_size hlen dlen msize = msize - hlen - dlen.
Proof.
  intros Hd Hs Hs'. unfold get_pad_size. rewrite s32_small by lia. set (ss := msize - hlen) in *.
  rewrite !(proj2 (c_true_spec _)) by lia. cbn [andb].
  replace (Z.rem dlen ss) with dlen by (symmetry; apply Z.rem_small_iff; lia).
  by rewrite (proj2 (Z.eqb_neq _ _)) by lia.
Qed.

(** The loop ends when its fuel covers the segments: it has run out of memory,
    or allocated segments of consecutive numbers. *)
Lemma alloc_segs_ok mem ss : forall (k : nat) fuel count l,
  0 < ss -> (k <= fuel)%nat ->
  alloc_segs fuel mem (Z.of_nat k * ss) ss count l = Some (inl (- ENOMEM)) \/
  exists l', alloc_segs fuel mem (Z.of_nat k * ss) ss count l = Some (inr (count + Z.of_nat k, l ++ l')) /\
    snums l' = seqZ (count + 1) (Z.of_nat k) /\ Forall (fun s => length s.(data) = Z.to_nat ss) l'.
Proof.
  induction k as [|k IH]; intros fuel count l Hs Hf.
  - right. exists []. destruct fuel; cbn; rewrite app_nil_r, Z.add_0_r; (split; [done|]; split; [done|constructor]).
  - destruct fuel as [|fuel]; [lia|]. cbn [alloc_segs].
    rewrite (proj2 (Z.leb_gt _ _)) by nia. destruct (mem (count + 1)) as [bytes|]; [|by left].
    replace (Z.of_nat (S k) * ss - ss) with (Z.of_nat k * ss) by lia.
    destruct (IH fuel (count + 1) (l ++ [mk_seg (count + 1) (bytes <$> seqZ 0 ss)]) Hs)
      as [E|(l' & E & Hn & Hl)]; [lia|by left|].
    right. exists (mk_seg (count + 1) (bytes <$> seqZ 0 ss) :: l'). rewrite E.
    rewrite <- (assoc_L (++)). split; [do 3 f_equal; lia|]. split.
    + rewrite fmap_cons, Hn, (seqZ_cons (count + 1)) by lia. do 2 f_equal; lia.
    + constructor; [|done]. cbn. by rewrite length_fmap, length_seqZ.
Qed.

Lemma alloc_segs_enough mem ss (k : nat) left :
  0 < ss -> left = Z.of_nat k * ss -> exists r, alloc_segs (Z.to_nat left) mem left ss 0 [] = Some r.
Proof.
  intros Hs ->. destruct (alloc_segs_ok mem ss k (Z.to_nat (Z.of_nat k * ss)) 0 []) as [->|(l & -> & _)];
    [done|nia|eauto|eauto].
Qed.

Lemma zero_last_ok l s off n :
  0 <= off -> 0 <= n -> off + n = Z.of_nat (length s.(data)) ->
  zero_last (l ++ [s]) off n =
  Some (l ++ [mk_seg s.(num) (take (Z.to_nat off) s.(data) ++ replicate (Z.to_nat n) 0)]).
Proof.
  intros Ho Hn Hl. unfold zero_last. rewrite last_snoc. cbn [mbind option_bind].
  unfold mem_set. rewrite decide_True by done.
  rewrite mem_put_split by (rewrite ?length_replicate; lia). cbn [mbind option_bind].
  rewrite removelast_last, length_replicate. do 3 f_equal. f_equal.
  rewrite drop_ge by lia. by rewrite app_nil_r.
Qed.

(** ** Walking *)

Section walk.
Variables (head_num : Z) (c : rmpp_ctl) (n : Z).
Hypothesis Hnums : snums c.(rmpp_list) = seqZ 1 n.

Lemma segs_length : Z.of_nat (length c.(rmpp_list)) = Z.max 0 n.
Proof. rewrite <- (length_fmap num), Hnums, length_seqZ. lia. Qed.

Lemma seg_at i : 0 <= i < n -> exists s, arr_get c.(rmpp_list) i = Some s /\ s.(num) = i + 1.
Proof.
  intros Hi. destruct (arr_get_Some c.(rmpp_list) i) as [s Hs]; [pose proof segs_length; lia|].
  exists s. split; [done|]. rewrite arr_get_lookup in Hs by lia.
  assert (Hl : seqZ 1 n !! Z.to_nat i = Some (num s)) by (by rewrite <- Hnums, list_lookup_fmap, Hs).
  apply lookup_seqZ in Hl. lia.
Qed.

Lemma num_at_seg i : 0 <= i < n -> num_at head_num c (Some i) = Some (i + 1).
Proof. intros Hi. destruct (seg_at i Hi) as (s & Hs & Hn). cbn. by rewrite Hs, <- Hn. Qed.

Lemma seek_found start k (l1 : list Z) p l2 :
  Forall (fun i => 0 <= i < n /\ i + 1 <> k) l1 -> num_at head_num c p = Some k ->
  seek head_num c start k ((Some <$> l1) ++ p :: l2) = p.
Proof.
  induction 1 as [|i l1 [Hi Hk] _ IH]; intros Hp; cbn [seek fmap list_fmap app].
  - rewrite Hp. cbn [mbind option_bind]. by rewrite Z.eqb_refl.
  - rewrite num_at_seg by done. cbn [mbind option_bind]. rewrite (proj2 (Z.eqb_neq _ _)) by done.
    by apply IH.
Qed.

Lemma Forall_seqZ (Q : Z -> Prop) a k : (forall i, a <= i < a + k -> Q i) -> Forall Q (seqZ a k).
Proof. intros HQ. apply list.Forall_forall. intros i Hi%elem_of_seqZ. by apply HQ. Qed.

(** Any segment is found from any other one. *)
Lemma get_segment_ok k :
  n < 2 ^ 32 -> 0 <= c.(cur_seg) < n -> 1 <= k <= n ->
  ib_get_rmpp_segment head_num c k = Some (set_cur_seg (k - 1) c, k - 1).
Proof.
  intros Hn Hc Hk. unfold ib_get_rmpp_segment. destruct (seg_at _ Hc) as (s & -> & Hs).
  cbn [mbind option_bind]. rewrite Hs, (wrap_small 32 k) by (unfold fits; lia).
  destruct (Z.ltb_spec (c.(cur_seg) + 1) k); [|destruct (Z.ltb_spec k (c.(cur_seg) + 1))].
  - unfold round. replace (Z.of_nat (length c.(rmpp_list))) with n by (pose proof segs_length; lia).
    replace (n - c.(cur_seg) - 1) with ((k - 1 - (c.(cur_seg) + 1)) + (n - k + 1)) by lia.
    rewrite seqZ_app by lia. rewrite fmap_app, <- (assoc_L (++)).
    replace (c.(cur_seg) + 1 + (k - 1 - (c.(cur_seg) + 1))) with (k - 1) by lia.
    rewrite (seqZ_cons (k - 1)) by lia. rewrite fmap_cons.
    change ((Some (k - 1) :: ?a) ++ ?b) with (Some (k - 1) :: (a ++ b)).
    rewrite seek_found; [done| |].
    + apply Forall_seqZ. lia.
    + rewrite num_at_seg by lia. f_equal. lia.
  - assert (Hlow : seqZ 0 c.(cur_seg) = seqZ 0 (k - 1) ++ (k - 1) :: seqZ k (c.(cur_seg) - k)).
    { replace c.(cur_seg) with ((k - 1) + (c.(cur_seg) - k + 1)) at 1 by lia.
      rewrite seqZ_app by lia. rewrite (seqZ_cons (0 + (k - 1))) by lia.
      f_equal. replace (0 + (k - 1)) with (k - 1) by lia. f_equal. f_equal; lia. }
    unfold round. rewrite Hlow.
    rewrite fmap_app, fmap_cons, !reverse_app, reverse_cons, <- fmap_reverse, <- !(assoc_L (++)).
    change ([Some (k - 1)] ++ ?b) with (Some (k - 1) :: b).
    rewrite seek_found; [done| |].
    + apply Forall_reverse, Forall_seqZ. lia.
    + rewrite num_at_seg by lia. f_equal. lia.
  - replace (k - 1) with c.(cur_seg) by lia. done.
Qed.
End walk.

(** ** Messages ready to be sent *)

(** The layout of a message: consecutive segments of one size that hold the
    data and its padding, and a header that has room for the RMPP fields. *)
Record ready (w : send_wr) : Prop := {
  rd_nums : snums w.(ctl).(rmpp_list) = seqZ 1 w.(send_buf).(seg_count);
  rd_count : 0 < w.(send_buf).(seg_count) < 2 ^ 31;
  rd_lens : Forall (fun s => length s.(data) = Z.to_nat w.(send_buf).(seg_size)) w.(ctl).(rmpp_list);
  rd_cur : 0 <= w.(ctl).(cur_seg) < w.(send_buf).(seg_count);
  rd_hdr : w.(send_buf).(hdr_len) = Z.of_nat (length w.(send_buf).(mad)) /\
    IB_MGMT_RMPP_HDR <= w.(send_buf).(hdr_len);
  rd_size : 0 < w.(send_buf).(seg_size) /\
    w.(send_buf).(seg_rmpp_size) = w.(send_buf).(seg_size) + w.(send_buf).(hdr_len) - IB_MGMT_RMPP_HDR;
  rd_total : w.(send_buf).(seg_count) * w.(send_buf).(seg_size) = w.(send_buf).(data_len) + w.(ctl).(pad);
  rd_pad : 0 <= w.(send_buf).(data_len) /\ 0 <= w.(ctl).(pad) <= w.(send_buf).(seg_size);
  rd_sge : w.(sge_len) = w.(send_buf).(seg_size) \/
    w.(sge_len) = w.(send_buf).(data_len) /\ w.(send_buf).(data_len) < w.(send_buf).(seg_size)
}.

(** The segments hold [D], padded with zeros. *)
Definition padded (w : send_wr) (D : list Z) : Prop :=
  w.(ctl).(rmpp_list) ≫= data = D ++ replicate (Z.to_nat w.(ctl).(pad)) 0 /\
  Z.of_nat (length D) = w.(send_buf).(data_len).

Lemma bind_data_length l m :
  Forall (fun s => length s.(data) = m) l -> length (l ≫= data) = (length l * m)%nat.
Proof.
  induction 1 as [|s l Hs _ IH]; [done|]. cbn [mbind list_bind]. rewrite length_app, Hs.
  fold (mbind (M := list) data l). rewrite IH. cbn. lia.
Qed.

Lemma bind_data_snoc l s : (l ++ [s]) ≫= data = (l ≫= data) ++ s.(data).
Proof. rewrite bind_app. cbn. by rewrite app_nil_r. Qed.

Lemma agent_mad_size_cases a base :
  agent_mad_size a base = OPA_MGMT_MAD_SIZE \/ agent_mad_size a base = IB_MGMT_MAD_SIZE.
Proof. unfold agent_mad_size. destruct (_ && _); auto. Qed.

Lemma header_writes m version :
  IB_MGMT_RMPP_HDR <= Z.of_nat (length m) ->
  exists m1 m2 m3, arr_set m RMPP_VERSION_OFF version = Some m1 /\
    arr_set m1 RMPP_TYPE_OFF IB_MGMT_RMPP_TYPE_DATA = Some m2 /\
    ib_set_rmpp_flags m2 IB_MGMT_RMPP_FLAG_ACTIVE = Some m3 /\ length m3 = length m /\
    arr_get m3 RMPP_STATUS_OFF = arr_get m RMPP_STATUS_OFF.
Proof.
  unfold IB_MGMT_RMPP_HDR. intros Hl. unfold ib_set_rmpp_flags.
  destruct (arr_set_total m RMPP_VERSION_OFF version) as (m1 & E1 & L1); [unfold RMPP_VERSION_OFF; lia|].
  destruct (arr_set_total m1 RMPP_TYPE_OFF IB_MGMT_RMPP_TYPE_DATA) as (m2 & E2 & L2); [unfold RMPP_TYPE_OFF; lia|].
  destruct (arr_get_Some m2 RMPP_FLAGS_OFF) as [b Hb]; [unfold RMPP_FLAGS_OFF; lia|].
  destruct (arr_set_total m2 RMPP_FLAGS_OFF (Z.lor (Z.land b 0xF8) (Z.land IB_MGMT_RMPP_FLAG_ACTIVE 7)))
    as (m3 & E3 & L3); [unfold RMPP_FLAGS_OFF; lia|].
  exists m1, m2, m3. rewrite Hb. cbn [mbind option_bind]. split_and!; [done|done|done|congruence|].
  rewrite (arr_get_set _ _ _ _ RMPP_STATUS_OFF E3), (arr_get_set _ _ _ _ RMPP_STATUS_OFF E2),
    (arr_get_set _ _ _ _ RMPP_STATUS_OFF E1). done.
Qed.

(** Zeroing the padding of freshly allocated segments. *)
Lemma pad_segments l n ss p :
  snums l = seqZ 1 n -> 0 < n -> Forall (fun s => length s.(data) = Z.to_nat ss) l -> 0 <= p <= ss ->
  exists l', (if c_true p then zero_last l (ss - p) p else Some l) = Some l' /\
    snums l' = seqZ 1 n /\ Forall (fun s => length s.(data) = Z.to_nat ss) l' /\
    exists D, l' ≫= data = D ++ replicate (Z.to_nat p) 0 /\ Z.of_nat (length D) = n * ss - p.
Proof.
  intros Hn Hpos Hl Hp.
  assert (Hlen : Z.of_nat (length l) = n) by (rewrite <- (length_fmap num), Hn, length_seqZ; lia).
  destruct (c_true p) eqn:E.
  - destruct (exists_last (l := l)) as (l1 & s & ->); [intros ->; cbn in Hlen; lia|].
    rewrite list.Forall_app, list.Forall_singleton in Hl. destruct Hl as [Hl1 Hs].
    rewrite zero_last_ok by lia. eexists. split; [done|]. split; [|split].
    + by rewrite fmap_app in *.
    + apply list.Forall_app. split; [done|]. constructor; [|constructor]. cbn.
      rewrite length_app, length_take, length_replicate. lia.
    + exists ((l1 ≫= data) ++ take (Z.to_nat (ss - p)) s.(data)). rewrite bind_data_snoc. cbn [data].
      split; [by rewrite (assoc_L (++))|]. rewrite length_app in *. cbn in Hlen.
      rewrite (bind_data_length _ _ Hl1), length_take, Hs.
      rewrite Nat2Z.inj_add, Nat2Z.inj_mul, !Z2Nat.id by lia. nia.
  - apply c_true_false in E. subst p. exists l. split; [done|]. split; [done|]. split; [done|].
    exists (l ≫= data). split; [by rewrite app_nil_r|]. rewrite (bind_data_length _ _ Hl), Nat2Z.inj_mul, Hlen, Z2Nat.id by lia. lia.
Qed.

(** Creating a message for RMPP either is refused or gives a message that is
    ready, whatever the length that fits an [int] with its padding. *)
Lemma create_ok a hlen dlen base buf_ok mem :
  IB_MGMT_RMPP_HDR <= hlen < IB_MGMT_MAD_SIZE -> 0 <= dlen < 2 ^ 31 - OPA_MGMT_MAD_SIZE ->
  (exists e, ib_create_send_mad a true hlen dlen base buf_ok mem = Some (inl e) /\
     (e = - EINVAL \/ e = - ENOMEM)) \/
  exists w D, ib_create_send_mad a true hlen dlen base buf_ok mem = Some (inr w) /\ ready w /\
    padded w D /\ w.(send_buf).(hdr_len) = hlen /\ w.(send_buf).(data_len) = dlen /\
    w.(send_buf).(seg_size) = agent_mad_size a base - hlen /\ w.(ctl).(seg_num) = 0 /\
    arr_get w.(send_buf).(mad) RMPP_STATUS_OFF = Some 0.
Proof.
  intros Hh Hd. unfold ib_create_send_mad. set (ms := agent_mad_size a base).
  assert (Hms : ms = OPA_MGMT_MAD_SIZE \/ ms = IB_MGMT_MAD_SIZE) by apply agent_mad_size_cases.
  unfold OPA_MGMT_MAD_SIZE, IB_MGMT_MAD_SIZE, IB_MGMT_RMPP_HDR in Hms, Hh, Hd.
  case_test; [left; eauto|]. destruct buf_ok; cbn [negb]; [|left; eauto].
  destruct (get_pad_size_spec hlen dlen ms) as [Hp (k & Hk & Htot)]; [lia|lia|].
  set (p := get_pad_size hlen dlen ms) in *. unfold alloc_send_rmpp_list.
  cbn [send_buf ctl hdr_len data_len pad seg_count mad].
  destruct (alloc_segs_ok mem (ms - hlen) (Z.to_nat k) (Z.to_nat (dlen + p)) 0 []) as [Ea|(l & Ea & Hn & Hl)];
    [lia|nia| |]; rewrite Z2Nat.id, <- Htot in Ea by lia; rewrite Ea; cbn [mbind option_bind]; [left; eauto|].
  right. rewrite Z2Nat.id in Hn by lia. cbn [app Z.add].
  destruct (pad_segments l k (ms - hlen) p Hn) as (l' & El & Hn' & Hl' & D & HD & HDl); [lia|done|lia|].
  rewrite El. cbn [mbind option_bind].
  destruct (header_writes (replicate (Z.to_nat hlen) 0) a.(rmpp_version)) as (m1 & m2 & m3 & -> & E2 & E3 & Hm & Hst);
    [rewrite length_replicate; unfold IB_MGMT_RMPP_HDR; lia|].
  cbn [mbind option_bind]. rewrite E2. cbn [mbind option_bind]. rewrite E3. cbn [mbind option_bind].
  rewrite length_replicate in Hm. eexists _, D. split; [done|].
  split; [|split; [split; [exact HD|cbn; lia]|]].
  2: { repeat (split; [done|]). cbn [send_buf set_ctl set_buf mad]. rewrite Hst.
    rewrite arr_get_lookup by done. apply lookup_replicate_2. unfold RMPP_STATUS_OFF. lia. }
  split; cbn [send_buf ctl set_ctl set_buf hdr_len data_len pad seg_count mad seg_size seg_rmpp_size
    rmpp_list cur_seg sge_len timeout_ms]; unfold IB_MGMT_RMPP_HDR; try lia; try done.
  - nia.
  - case_test; [right|by left]. bool_arith. rewrite wrap_small in * by (unfold fits; lia). lia.
Qed.

(** ** Filling a message *)

(** [w'] is [w] with other data in its segments and another current one. *)
Definition refilled (w w' : send_wr) : Prop :=
  exists l i, w' = set_ctl (set_list l (set_cur_seg i w.(ctl))) w.

Lemma refilled_refl w : refilled w w.
Proof. exists w.(ctl).(rmpp_list), w.(ctl).(cur_seg). destruct w as [? []]. done. Qed.

Lemma refilled_trans w1 w2 w3 : refilled w1 w2 -> refilled w2 w3 -> refilled w1 w3.
Proof. intros (l & i & ->) (l' & i' & ->). by exists l', i'. Qed.

Lemma refilled_fields w w' :
  refilled w w' ->
  w'.(send_buf) = w.(send_buf) /\ w'.(sge_len) = w.(sge_len) /\ w'.(ctl).(pad) = w.(ctl).(pad) /\
  w'.(ctl).(seg_num) = w.(ctl).(seg_num).
Proof. by intros (l & i & ->). Qed.

Lemma put_data_at l1 s l2 c d :
  c.(rmpp_list) = l1 ++ s :: l2 ->
  put_data (Z.of_nat (length l1)) d c = Some (set_list (l1 ++ mk_seg s.(num) d :: l2) c).
Proof.
  intros Hl. unfold put_data. rewrite Hl, arr_get_lookup, Nat2Z.id, list_lookup_middle by lia.
  cbn [mbind option_bind]. rewrite arr_set_Some by (rewrite length_app; cbn; lia).
  cbn [mbind option_bind]. do 2 f_equal. rewrite Nat2Z.id. by rewrite insert_app_r_alt, Nat.sub_diag by lia.
Qed.

Lemma ready_refill w l1 s l2 d :
  ready w -> w.(ctl).(rmpp_list) = l1 ++ s :: l2 -> length d = length s.(data) ->
  ready (set_ctl (set_list (l1 ++ mk_seg s.(num) d :: l2) (set_cur_seg (Z.of_nat (length l1)) w.(ctl))) w).
Proof.
  intros [] Hl Hd. rewrite Hl in *.
  assert (Hn : snums (l1 ++ mk_seg s.(num) d :: l2) = snums (l1 ++ s :: l2)) by (by rewrite !fmap_app).
  split; try done; cbn [set_ctl set_list set_cur_seg ctl rmpp_list cur_seg send_buf].
  - by rewrite Hn.
  - rewrite !list.Forall_app, !list.Forall_cons in *. cbn. rewrite Hd. naive_solver.
  - pose proof (f_equal length rd_nums0) as Hlen.
    rewrite length_fmap, length_seqZ, length_app in Hlen. cbn in Hlen. lia.
Qed.

(** The step of the copy on the segment after [l1]. *)
Lemma copy_segs_step fuel head_num w ubuf l1 s l2 left off :
  ready w -> w.(ctl).(rmpp_list) = l1 ++ s :: l2 -> 0 < left ->
  let n := Z.min left w.(send_buf).(seg_size) in
  (exists w', copy_segs (S fuel) head_num w ubuf (Z.of_nat (length l1) + 1) left off = Some (- EFAULT, w')) \/
  exists bs w', mem_get ubuf off n = Some bs /\ ready w' /\ refilled w w' /\
    w'.(ctl).(rmpp_list) = l1 ++ mk_seg s.(num) (bs ++ drop (Z.to_nat n) s.(data)) :: l2 /\
    copy_segs (S fuel) head_num w ubuf (Z.of_nat (length l1) + 1) left off =
    copy_segs fuel head_num w' ubuf (Z.of_nat (length l1) + 1 + 1) (left - w.(send_buf).(seg_size))
      (off + w.(send_buf).(seg_size)).
Proof.
  intros Hr Hl Hleft n. cbn [copy_segs]. rewrite (proj2 (Z.leb_gt _ _)) by lia.
  pose proof Hr as [Hnums Hcnt Hlens Hcur _ [Hss _] _ _ _].
  assert (Hk : 1 <= Z.of_nat (length l1) + 1 <= w.(send_buf).(seg_count)).
  { pose proof (f_equal length Hnums) as Hlen. rewrite length_fmap, length_seqZ, Hl, length_app in Hlen.
    cbn in Hlen. lia. }
  rewrite (get_segment_ok head_num _ _ Hnums) by lia. cbn [mbind option_bind]. fold n.
  replace (Z.of_nat (length l1) + 1 - 1) with (Z.of_nat (length l1)) by lia.
  destruct (mem_get ubuf off n) as [bs|] eqn:Eb; [|left; eauto]. right.
  apply mem_get_length in Eb as Hbs. rewrite Hl, list.Forall_app, list.Forall_cons in Hlens.
  destruct Hlens as (_ & Hsl & _).
  set (c := set_cur_seg (Z.of_nat (length l1)) w.(ctl)).
  assert (Hc : c.(rmpp_list) = l1 ++ s :: l2) by done. rewrite Hc.
  rewrite arr_get_lookup, Nat2Z.id, list_lookup_middle by lia. cbn [mbind option_bind].
  rewrite mem_put_split by lia. cbn [mbind option_bind take app Z.to_nat Nat.add].
  rewrite (put_data_at _ _ _ _ _ Hc). cbn [mbind option_bind].
  assert (Hd : length (bs ++ drop (Z.to_nat n) s.(data)) = length s.(data)) by (rewrite length_app, length_drop; lia).
  rewrite Hbs. exists bs. eexists. split; [done|]. split; [by apply ready_refill|].
  split; [by eexists _, _|]. done.
Qed.

(** What user space has behind the header. *)
Definition user_data (w : send_wr) (ubuf : list Z) : list Z :=
  take (Z.to_nat w.(send_buf).(data_len)) (drop (Z.to_nat w.(send_buf).(hdr_len)) ubuf).

Lemma slice_grow (l : list Z) (o a b : nat) bs :
  mem_get l (Z.of_nat (o + a)) (Z.of_nat b) = Some bs -> take a (drop o l) ++ bs = take (a + b) (drop o l).
Proof.
  unfold mem_get. case_decide as H; [|done]. intros [= <-]. rewrite !Nat2Z.id.
  rewrite <- drop_drop, <- take_take_drop. done.
Qed.

(** The data up to the segments [l2] is the user's; the rest is [T] and padding. *)
Record copying (w : send_wr) (ubuf : list Z) (l1 l2 : list rmpp_segment) (T : list Z) : Prop := {
  cp_list : w.(ctl).(rmpp_list) = l1 ++ l2;
  cp_done : l1 ≫= data = take (length l1 * Z.to_nat w.(send_buf).(seg_size))
                           (drop (Z.to_nat w.(send_buf).(hdr_len)) ubuf);
  cp_rest : l2 ≫= data = T ++ replicate (Z.to_nat w.(ctl).(pad)) 0;
  cp_left : Z.of_nat (length T) = w.(send_buf).(data_len) - Z.of_nat (length l1) * w.(send_buf).(seg_size)
}.

Lemma copying_lens w ubuf l1 l2 T :
  ready w -> copying w ubuf l1 l2 T ->
  Forall (fun s => length s.(data) = Z.to_nat w.(send_buf).(seg_size)) l1 /\
  Forall (fun s => length s.(data) = Z.to_nat w.(send_buf).(seg_size)) l2 /\
  Z.of_nat (length l2) * w.(send_buf).(seg_size) = Z.of_nat (length T) + w.(ctl).(pad).
Proof.
  intros Hr [Hl _ Hrest _]. pose proof (rd_lens _ Hr) as Hlens. rewrite Hl, list.Forall_app in Hlens.
  destruct Hlens as [H1 H2]. split; [done|]. split; [done|]. pose proof (rd_size _ Hr). pose proof (rd_pad _ Hr).
  pose proof (f_equal length Hrest) as Hlen. rewrite (bind_data_length _ _ H2), length_app, length_replicate in Hlen.
  apply (f_equal Z.of_nat) in Hlen. rewrite Nat2Z.inj_mul, Nat2Z.inj_add, !Z2Nat.id in Hlen by lia. done.
Qed.

Lemma copying_done w ubuf l1 l2 :
  ready w -> copying w ubuf l1 l2 [] -> padded w (user_data w ubuf).
Proof.
  intros Hr Hc. destruct (copying_lens _ _ _ _ _ Hr Hc) as (H1 & _ & _). destruct Hc as [Hl Hd Hrest Hleft].
  pose proof (rd_size _ Hr) as [Hss _]. cbn in Hleft.
  assert (Hn : Z.to_nat w.(send_buf).(data_len) = (length l1 * Z.to_nat w.(send_buf).(seg_size))%nat).
  { apply Nat2Z.inj. rewrite Nat2Z.inj_mul, !Z2Nat.id; lia. }
  unfold padded, user_data. rewrite Hl, bind_app, Hd, Hrest, Hn. split; [done|].
  rewrite <- Hd, (bind_data_length _ _ H1), <- Hn. pose proof (rd_pad _ Hr). lia.
Qed.

(** A whole segment is copied. *)
Lemma copying_full w w' ubuf l1 s l2 T bs :
  ready w -> copying w ubuf l1 (s :: l2) T -> w.(send_buf).(seg_size) <= Z.of_nat (length T) ->
  refilled w w' -> w'.(ctl).(rmpp_list) = l1 ++ mk_seg s.(num) bs :: l2 ->
  mem_get ubuf (w.(send_buf).(hdr_len) + Z.of_nat (length l1) * w.(send_buf).(seg_size)) w.(send_buf).(seg_size) = Some bs ->
  copying w' ubuf (l1 ++ [mk_seg s.(num) bs]) l2 (drop (Z.to_nat w.(send_buf).(seg_size)) T).
Proof.
  intros Hr Hc HT (l & i & ->) Hl' Hbs. destruct (copying_lens _ _ _ _ _ Hr Hc) as (H1 & H2 & _).
  apply list.Forall_cons in H2 as [Hs H2]. destruct Hc as [Hl Hd Hrest Hleft].
  pose proof (rd_size _ Hr) as [Hss _]. pose proof (rd_hdr _ Hr) as [Hh _].
  split; cbn [send_buf set_ctl ctl set_list set_cur_seg rmpp_list pad] in *.
  - by rewrite <- (assoc_L (++)).
  - rewrite bind_data_snoc, Hd, length_app. cbn [data length].
    rewrite Nat.mul_add_distr_r, Nat.mul_1_l. apply slice_grow.
    rewrite Nat2Z.inj_add, Nat2Z.inj_mul, !Z2Nat.id by lia. done.
  - cbn [mbind list_bind] in Hrest. apply (f_equal (drop (length s.(data)))) in Hrest.
    rewrite drop_app_length, Hs in Hrest. change (mbind data l2) with (l2 ≫= data) in Hrest.
    etransitivity; [exact Hrest|]. apply drop_app_le. lia.
  - rewrite length_drop, length_app. cbn [length]. lia.
Qed.

(** The last segment is copied in part. *)
Lemma copying_part w w' ubuf l1 s l2 T bs :
  ready w -> copying w ubuf l1 (s :: l2) T -> 0 < Z.of_nat (length T) < w.(send_buf).(seg_size) ->
  refilled w w' -> w'.(ctl).(rmpp_list) = l1 ++ mk_seg s.(num) (bs ++ drop (length T) s.(data)) :: l2 ->
  mem_get ubuf (w.(send_buf).(hdr_len) + Z.of_nat (length l1) * w.(send_buf).(seg_size)) (Z.of_nat (length T)) = Some bs ->
  padded w' (user_data w ubuf).
Proof.
  intros Hr Hc HT (l & i & ->) Hl' Hbs. destruct (copying_lens _ _ _ _ _ Hr Hc) as (H1 & H2 & Htot).
  destruct Hc as [Hl Hd Hrest Hleft]. pose proof (rd_size _ Hr) as [Hss _]. pose proof (rd_hdr _ Hr) as [Hh _].
  pose proof (rd_pad _ Hr) as Hpad.
  assert (l2 = []) as -> by (destruct l2; [done|cbn [length] in Htot; nia]).
  cbn [send_buf set_ctl ctl set_list set_cur_seg rmpp_list pad] in *.
  cbn [mbind list_bind] in Hrest. rewrite app_nil_r in Hrest.
  unfold padded. cbn [send_buf set_ctl ctl set_list set_cur_seg rmpp_list pad]. rewrite Hl'.
  rewrite bind_data_snoc, Hd, Hrest, drop_app_length. cbn [data].
  assert (HD : user_data w ubuf = take (length l1 * Z.to_nat w.(send_buf).(seg_size))
                 (drop (Z.to_nat w.(send_buf).(hdr_len)) ubuf) ++ bs).
  { unfold user_data. replace (Z.to_nat w.(send_buf).(data_len))
      with (length l1 * Z.to_nat w.(send_buf).(seg_size) + length T)%nat.
    - symmetry. apply slice_grow. rewrite Nat2Z.inj_add, Nat2Z.inj_mul, !Z2Nat.id by lia. done.
    - apply Nat2Z.inj. rewrite Nat2Z.inj_add, Nat2Z.inj_mul, !Z2Nat.id; lia. }
  rewrite HD. split; [by rewrite (assoc_L (++))|].
  rewrite length_app, <- Hd, (bind_data_length _ _ H1), (mem_get_length _ _ _ _ Hbs).
  rewrite Nat2Z.inj_add, Nat2Z.inj_mul, !Z2Nat.id; lia.
Qed.

Lemma copy_segs_ok head_num ubuf : forall l2 fuel w l1 T,
  ready w -> copying w ubuf l1 l2 T -> (length T <= fuel)%nat ->
  let off := w.(send_buf).(hdr_len) + Z.of_nat (length l1) * w.(send_buf).(seg_size) in
  let left := Z.of_nat (length T) in
  (exists w', copy_segs fuel head_num w ubuf (Z.of_nat (length l1) + 1) left off = Some (- EFAULT, w')) \/
  exists w', copy_segs fuel head_num w ubuf (Z.of_nat (length l1) + 1) left off = Some (0, w') /\
    ready w' /\ refilled w w' /\ padded w' (user_data w ubuf).
Proof.
  assert (Hend : forall fuel w l1 l2 off, ready w -> copying w ubuf l1 l2 [] ->
    exists w', copy_segs fuel head_num w ubuf (Z.of_nat (length l1) + 1) 0 off = Some (0, w') /\
    ready w' /\ refilled w w' /\ padded w' (user_data w ubuf)).
  { intros. exists w. split; [by destruct fuel|]. split; [done|]. split; [apply refilled_refl|]. by eapply copying_done. }
  induction l2 as [|s l2 IH]; intros fuel w l1 T Hr Hc Hf off left.
  - assert (T = []) as -> by (pose proof (cp_rest _ _ _ _ _ Hc) as H; by destruct T). right. by eapply Hend.
  - destruct (decide (T = [])) as [->|HT]; [right; by eapply Hend|].
    assert (Hpos : 0 < left) by (destruct T; [done|cbn in left; lia]).
    destruct fuel as [|fuel]; [lia|].
    destruct (copy_segs_step fuel head_num w ubuf l1 s l2 left off Hr (cp_list _ _ _ _ _ Hc) Hpos)
      as [?|(bs & w' & Hbs & Hr' & Href & Hl' & E)]; [by left|]. rewrite E.
    destruct (refilled_fields _ _ Href) as (Hb & _ & Hp & _).
    destruct (Z.le_gt_cases w.(send_buf).(seg_size) left) as [Hle|Hgt].
    + rewrite Z.min_r in Hbs, Hl' by done.
      assert (Hs : length s.(data) = Z.to_nat w.(send_buf).(seg_size)).
      { destruct (copying_lens _ _ _ _ _ Hr Hc) as (_ & H2 & _). by apply list.Forall_cons in H2 as [? _]. }
      rewrite drop_ge, app_nil_r in Hl' by lia.
      pose proof (copying_full _ _ _ _ _ _ _ _ Hr Hc Hle Href Hl' Hbs) as Hc'.
      pose proof (rd_size _ Hr) as [Hss _].
      destruct (IH fuel w' _ _ Hr' Hc') as [(w2 & E2)|(w2 & E2 & Hr2 & Href2 & Hp2)]; [rewrite length_drop; pose proof (rd_size _ Hr); lia| |];
        rewrite Hb, length_app, length_drop in E2; cbn [length] in E2;
        replace (Z.of_nat (length l1 + 1)) with (Z.of_nat (length l1) + 1) in E2 by lia;
        replace (Z.of_nat (length T - _)) with (left - w.(send_buf).(seg_size)) in E2 by lia;
        replace (hdr_len _ + _) with (off + w.(send_buf).(seg_size)) in E2 by lia; rewrite E2.
      * left. by eexists.
      * right. exists w2. split; [done|]. split; [done|]. split; [by eapply refilled_trans|].
        unfold user_data in *. by rewrite Hb in Hp2.
    + right. rewrite Z.min_l in Hbs, Hl' by lia. exists w'. replace (Z.to_nat left) with (length T) in Hl' by lia.
      split; [destruct fuel; cbn [copy_segs]; by rewrite (proj2 (Z.leb_le _ _)) by lia|].
      split; [done|]. split; [done|]. by eapply copying_part.
Qed.

(** The class header is the user's. *)
Definition user_header (w : send_wr) (ubuf m : list Z) : Prop :=
  length m = length w.(send_buf).(mad) /\
  (forall i, (i < 36)%nat -> m !! i = w.(send_buf).(mad) !! i) /\
  (forall i, (36 <= i)%nat -> Z.of_nat i < w.(send_buf).(hdr_len) -> m !! i = ubuf !! i).

Lemma user_header_put w ubuf bs :
  ready w -> mem_get ubuf IB_MGMT_RMPP_HDR (w.(send_buf).(hdr_len) - IB_MGMT_RMPP_HDR) = Some bs ->
  exists m, mem_put w.(send_buf).(mad) IB_MGMT_RMPP_HDR bs = Some m /\ user_header w ubuf m.
Proof.
  intros Hr Hg. pose proof (rd_hdr _ Hr) as [Hh Hh2]. apply mem_get_length in Hg as Hl.
  unfold IB_MGMT_RMPP_HDR in *.
  destruct (mem_put_some w.(send_buf).(mad) 36 bs) as (m & E & Hm); [done|lia|]. exists m. split; [done|].
  split; [done|]. split; intros i Hi.
  - eapply mem_put_lookup_ne; [exact E|]. lia.
  - intros Hi2. apply mem_put_inv in E as (_ & _ & ->). rewrite list_lookup_inserts by lia.
    unfold mem_get in Hg. case_decide as Hd; [|done]. injection Hg as <-.
    rewrite lookup_take_lt, lookup_drop by lia. f_equal. lia.
Qed.

(** Filling a message from user space: all of it could be read, and the message
    holds it; or the copy is refused. *)
Lemma copy_rmpp_ok head_num w ubuf D :
  ready w -> padded w D ->
  (exists w', copy_rmpp_mad head_num w ubuf = Some (- EFAULT, w')) \/
  exists w', copy_rmpp_mad head_num w ubuf = Some (0, w') /\ ready w' /\ padded w' (user_data w ubuf) /\
    (exists m, w'.(send_buf) = set_mad m w.(send_buf) /\ user_header w ubuf m) /\
    w'.(ctl).(seg_num) = w.(ctl).(seg_num) /\ w'.(ctl).(pad) = w.(ctl).(pad).
Proof.
  intros Hr [Hlist HD]. pose proof (rd_hdr _ Hr) as [Hh Hh2]. unfold copy_rmpp_mad.
  assert (Hgo : forall m, length m = length w.(send_buf).(mad) ->
    let w1 := set_buf (set_mad m w.(send_buf)) w in
    (exists w', copy_segs (Z.to_nat w.(send_buf).(data_len)) head_num w1 ubuf 1 w.(send_buf).(data_len) w.(send_buf).(hdr_len)
       = Some (- EFAULT, w')) \/
    exists w', copy_segs (Z.to_nat w.(send_buf).(data_len)) head_num w1 ubuf 1 w.(send_buf).(data_len) w.(send_buf).(hdr_len)
      = Some (0, w') /\ ready w' /\ refilled w1 w' /\ padded w' (user_data w ubuf)).
  { intros m Hm w1. assert (Hr1 : ready w1) by (destruct Hr; split; try done; cbn; lia).
    assert (Hc : copying w1 ubuf [] (ctl w1).(rmpp_list) D) by (split; [done|done|done|cbn; lia]).
    pose proof (copy_segs_ok head_num ubuf (ctl w1).(rmpp_list) (Z.to_nat w.(send_buf).(data_len)) w1 [] D Hr1 Hc) as H.
    cbn [length] in H. rewrite HD in H. cbn [send_buf w1 set_buf set_mad hdr_len] in H.
    replace (Z.of_nat 0 + 1) with 1 in H by done.
    replace (hdr_len (send_buf w) + Z.of_nat 0 * _) with (hdr_len (send_buf w)) in H by lia. apply H. lia. }
  assert (Hend : forall m, length m = length w.(send_buf).(mad) -> forall w',
    refilled (set_buf (set_mad m w.(send_buf)) w) w' ->
    w'.(send_buf) = set_mad m w.(send_buf) /\
    w'.(ctl).(seg_num) = w.(ctl).(seg_num) /\ w'.(ctl).(pad) = w.(ctl).(pad)).
  { intros m Hm w' (Hb & _ & Hp & Hn)%refilled_fields. done. }
  destruct (Z.ltb_spec IB_MGMT_RMPP_HDR w.(send_buf).(hdr_len)).
  - destruct (mem_get ubuf _ _) as [bs|] eqn:Hg; [|left; eauto].
    destruct (user_header_put _ _ _ Hr Hg) as (m & -> & Hm). cbn [mbind option_bind].
    destruct (Hgo m (proj1 Hm)) as [?|(w' & E & Hr' & Href & Hp)]; [by left|right].
    exists w'. destruct (Hend m (proj1 Hm) w' Href) as (? & ? & ?). naive_solver.
  - assert (Hw : set_buf (set_mad (mad (send_buf w)) (send_buf w)) w = w) by (by destruct w as [[]]).
    destruct (Hgo _ eq_refl) as [?|(w' & E & Hr' & Href & Hp)]; rewrite Hw in *; [by left|right].
    exists w'. destruct (Hend (mad (send_buf w)) eq_refl w') as (Hb & ? & ?); [by rewrite Hw|].
    split; [done|]. split; [done|]. split; [done|]. split; [|done]. exists (mad (send_buf w)). split; [done|].
    split; [done|]. split; [done|]. unfold IB_MGMT_RMPP_HDR in *. lia.
Qed.

Lemma ready_mad w m :
  ready w -> length m = length w.(send_buf).(mad) -> ready (set_buf (set_mad m w.(send_buf)) w).
Proof. intros [] Hm. split; try done. cbn. lia. Qed.

Lemma set_hi_tid_total a m :
  IB_MGMT_RMPP_HDR <= Z.of_nat (length m) -> exists m', set_hi_tid a m = Some m' /\ length m' = length m.
Proof.
  unfold IB_MGMT_RMPP_HDR. intros Hl. unfold set_hi_tid, ib_response_mad.
  destruct (arr_get_Some m 1) as [? ->]; [lia|]. destruct (arr_get_Some m 3) as [? ->]; [lia|].
  destruct (be_get_some m 20 4) as [? ->]; [lia..|]. cbn [mbind option_bind]. case_match; [eauto|].
  destruct (be_get_some m 8 8) as [? ->]; [lia..|]. cbn [mbind option_bind].
  destruct (be_put_some m 8 8 (Z.lor (Z.shiftl (hi_tid a) 32) (Z.land x2 0xffffffff))) as (m' & -> & ?); [lia..|eauto].
Qed.

Lemma rmpp_class_offset class :
  ib_is_mad_class_rmpp class = true -> IB_MGMT_RMPP_HDR < ib_get_mad_data_offset class <= IB_MGMT_DEVICE_HDR.
Proof.
  unfold ib_is_mad_class_rmpp, ib_get_mad_data_offset, IB_MGMT_RMPP_HDR, IB_MGMT_DEVICE_HDR,
    IB_MGMT_SA_HDR, IB_MGMT_VENDOR_HDR. intros Hc.
  repeat (case_test; [lia|]). exfalso. bool_arith. 
  repeat match goal with H : _ || _ = true |- _ => apply orb_true_iff in H as [H|H] end; bool_arith; try congruence.
  all: rewrite ?E0, ?E1 in *; try lia.
Qed.

(** An RMPP message of user space: the class of its header, and its length when
    it is built as the code computes it. *)
Definition umad_class (ubuf : list Z) : Z := default 0 (ubuf !! 1%nat).
Definition umad_rmpp_active (a : mad_agent) (ubuf : list Z) : bool :=
  ib_is_mad_class_rmpp (umad_class ubuf) && ib_mad_kernel_rmpp_agent a &&
  c_true (Z.land (default 0 (ubuf !! 26%nat)) IB_MGMT_RMPP_FLAG_ACTIVE).
Definition umad_hdr_len (ubuf : list Z) : Z := ib_get_mad_data_offset (umad_class ubuf).

(** ** What goes on the wire *)

(** The bytes of the header that differ between segments: flags, number and
    payload length. *)
Definition varies (i : nat) : Prop := i = 26%nat \/ (28 <= i < 36)%nat.

Definition same_header (m m' : list Z) : Prop :=
  length m' = length m /\ forall i, ~ varies i -> m' !! i = m !! i.

Lemma same_header_refl m : same_header m m.
Proof. done. Qed.

Lemma same_header_trans m1 m2 m3 : same_header m1 m2 -> same_header m2 m3 -> same_header m1 m3.
Proof. intros [L1 H1] [L2 H2]. split; [congruence|]. intros i Hi. by rewrite H2, H1. Qed.

Lemma same_header_put m off bs m' :
  mem_put m off bs = Some m' ->
  off = 26 /\ length bs = 1%nat \/ 28 <= off /\ off + Z.of_nat (length bs) <= 36 -> same_header m m'.
Proof.
  intros Hp Hd. split; [by eapply mem_put_length|]. intros i Hi.
  eapply mem_put_lookup_ne; [exact Hp|]. unfold varies in Hi. lia.
Qed.

Definition seg_flags (b n count : Z) : Z :=
  let f := Z.lor (Z.land b 0xF8) IB_MGMT_RMPP_FLAG_ACTIVE in
  let f := if n =? 1 then Z.lor f IB_MGMT_RMPP_FLAG_FIRST else f in
  if n =? count then Z.lor f IB_MGMT_RMPP_FLAG_LAST else f.

Definition seg_paylen (w : send_wr) (n : Z) : Z :=
  if n =? w.(send_buf).(seg_count) then u32 (w.(send_buf).(seg_rmpp_size) - w.(ctl).(pad))
  else if n =? 1 then u32 (w.(send_buf).(seg_count) * w.(send_buf).(seg_rmpp_size) - w.(ctl).(pad)) else 0.

(** Segment [n] of [w] as it is sent. *)
Record wire_ok (w : send_wr) (n : Z) (wire : list Z) : Prop := {
  wo_num : 1 <= n <= w.(send_buf).(seg_count);
  wo_parts : exists h s, wire = h ++ take (Z.to_nat w.(sge_len)) s.(data) /\
    same_header w.(send_buf).(mad) h /\ arr_get w.(ctl).(rmpp_list) (n - 1) = Some s /\
    (exists b, arr_get w.(send_buf).(mad) RMPP_FLAGS_OFF = Some b /\
       arr_get h RMPP_FLAGS_OFF = Some (seg_flags b n w.(send_buf).(seg_count))) /\
    be_get h RMPP_SEG_NUM_OFF 4 = Some n /\ be_get h RMPP_PAYLEN_OFF 4 = Some (seg_paylen w n)
}.

(** Writing flags. *)
Lemma flags_write m b v :
  arr_get m RMPP_FLAGS_OFF = Some b ->
  exists m', arr_set m RMPP_FLAGS_OFF v = Some m' /\ same_header m m' /\
    arr_get m' RMPP_FLAGS_OFF = Some v /\
    be_get m' RMPP_SEG_NUM_OFF 4 = be_get m RMPP_SEG_NUM_OFF 4.
Proof.
  intros Hb. apply arr_get_inv in Hb. destruct (arr_set_total m RMPP_FLAGS_OFF v Hb) as (m' & E & Hl).
  exists m'. split; [done|]. pose proof E as E'. rewrite arr_set_put in E'. split; [|split].
  - eapply same_header_put; [exact E'|by left].
  - rewrite (arr_get_set _ _ _ _ RMPP_FLAGS_OFF E). by rewrite decide_True.
  - unfold be_get. by rewrite (mem_get_put_ne _ _ _ _ RMPP_SEG_NUM_OFF 4 E') by (right; cbn; done).
Qed.

(** [or_rmpp_flags] under a condition. *)
Lemma cond_flag (t : bool) m b f (v v' : Z) :
  arr_get m RMPP_FLAGS_OFF = Some b ->
  exists m', (if t then m' ← or_rmpp_flags m f; Some (m', v) else Some (m, v')) = Some (m', if t then v else v') /\
    same_header m m' /\ arr_get m' RMPP_FLAGS_OFF = Some (if t then Z.lor b f else b) /\
    be_get m' RMPP_SEG_NUM_OFF 4 = be_get m RMPP_SEG_NUM_OFF 4.
Proof.
  intros Hb. destruct t; [|by exists m].
  destruct (flags_write m b (Z.lor b f) Hb) as (m' & E & Hs & Hf & Hn). exists m'.
  unfold or_rmpp_flags. rewrite Hb. cbn [mbind option_bind]. rewrite E. done.
Qed.

(** The header [send_next_seg] writes. *)
Lemma next_header w n :
  ready w -> 1 <= n <= w.(send_buf).(seg_count) ->
  exists m1 m2 m3 m4 m5 pl b,
    ib_set_rmpp_flags w.(send_buf).(mad) IB_MGMT_RMPP_FLAG_ACTIVE = Some m1 /\
    be_put m1 RMPP_SEG_NUM_OFF 4 n = Some m2 /\
    (if n =? 1 then m ← or_rmpp_flags m2 IB_MGMT_RMPP_FLAG_FIRST;
        Some (m, u32 (w.(send_buf).(seg_count) * w.(send_buf).(seg_rmpp_size) - w.(ctl).(pad)))
     else Some (m2, 0)) = Some (m3, pl) /\
    (if n =? w.(send_buf).(seg_count) then m ← or_rmpp_flags m3 IB_MGMT_RMPP_FLAG_LAST;
        Some (m, u32 (w.(send_buf).(seg_rmpp_size) - w.(ctl).(pad)))
     else Some (m3, pl)) = Some (m4, seg_paylen w n) /\
    be_put m4 RMPP_PAYLEN_OFF 4 (seg_paylen w n) = Some m5 /\
    same_header w.(send_buf).(mad) m5 /\
    arr_get w.(send_buf).(mad) RMPP_FLAGS_OFF = Some b /\
    arr_get m5 RMPP_FLAGS_OFF = Some (seg_flags b n w.(send_buf).(seg_count)) /\
    be_get m5 RMPP_SEG_NUM_OFF 4 = Some n /\ be_get m5 RMPP_PAYLEN_OFF 4 = Some (seg_paylen w n).
Proof.
  intros Hr Hn. pose proof (rd_hdr _ Hr) as [Hh Hh2]. pose proof (rd_count _ Hr) as Hc.
  unfold IB_MGMT_RMPP_HDR in Hh2. set (m := w.(send_buf).(mad)) in *.
  destruct (arr_get_Some m RMPP_FLAGS_OFF) as [b Hb]; [unfold RMPP_FLAGS_OFF; lia|].
  unfold ib_set_rmpp_flags. rewrite Hb. cbn [mbind option_bind].
  change (Z.land IB_MGMT_RMPP_FLAG_ACTIVE 7) with IB_MGMT_RMPP_FLAG_ACTIVE.
  destruct (flags_write m b (Z.lor (Z.land b 248) IB_MGMT_RMPP_FLAG_ACTIVE) Hb) as (m1 & E1 & S1 & F1 & _).
  destruct (be_put_some m1 RMPP_SEG_NUM_OFF 4 n) as (m2 & E2 & L2); [done|unfold RMPP_SEG_NUM_OFF; destruct S1; lia|].
  assert (F2 : arr_get m2 RMPP_FLAGS_OFF = arr_get m1 RMPP_FLAGS_OFF) by (by apply (arr_get_put_ne _ _ _ _ _ E2); left).
  rewrite F1 in F2. assert (N2 : be_get m2 RMPP_SEG_NUM_OFF 4 = Some n).
  { rewrite (be_get_put_same _ _ _ _ _ 4 E2) by done. f_equal. apply wrap_small. unfold fits. lia. }
  destruct (cond_flag (n =? 1) m2 _ IB_MGMT_RMPP_FLAG_FIRST
    (u32 (w.(send_buf).(seg_count) * w.(send_buf).(seg_rmpp_size) - w.(ctl).(pad))) 0 F2) as (m3 & E3 & S3 & F3 & N3).
  destruct (cond_flag (n =? w.(send_buf).(seg_count)) m3 _ IB_MGMT_RMPP_FLAG_LAST
    (u32 (w.(send_buf).(seg_rmpp_size) - w.(ctl).(pad)))
    (if n =? 1 then u32 (w.(send_buf).(seg_count) * w.(send_buf).(seg_rmpp_size) - w.(ctl).(pad)) else 0) F3)
    as (m4 & E4 & S4 & F4 & N4).
  assert (S2 : same_header m1 m2) by (eapply same_header_put; [exact E2|right; cbn; done]).
  assert (S : same_header m m4) by eauto using same_header_trans.
  destruct (be_put_some m4 RMPP_PAYLEN_OFF 4 (seg_paylen w n)) as (m5 & E5 & L5);
    [done|unfold RMPP_PAYLEN_OFF; destruct S; lia|].
  exists m1, m2, m3, m4, m5. eexists _, b. split; [done|]. split; [done|]. split; [exact E3|]. split; [exact E4|].
  split; [done|]. split; [eapply same_header_trans; [exact S|]; eapply same_header_put; [exact E5|right; cbn; done]|].
  split; [done|]. rewrite (arr_get_put_ne _ _ _ _ RMPP_FLAGS_OFF E5), F4 by (left; done). split; [done|].
  rewrite (be_get_put_other _ _ _ _ _ RMPP_SEG_NUM_OFF 4 E5), N4, N3, N2 by (left; done). split; [done|].
  rewrite (be_get_put_same _ _ _ _ _ 4 E5) by done. f_equal. apply wrap_small. unfold seg_paylen.
  repeat case_test; try (by apply wrap_fits). unfold fits. lia.
Qed.

Lemma seg_flags_high b n count : Z.land (seg_flags b n count) 0xF8 = Z.land b 0xF8.
Proof.
  assert (H : forall x f, Z.land f 0xF8 = 0 -> Z.land (Z.lor x f) 0xF8 = Z.land x 0xF8).
  { intros x f Hf. by rewrite Z.land_lor_distr_l, Hf, Z.lor_0_r. }
  unfold seg_flags. repeat case_test; rewrite !H by done; rewrite <- Z.land_assoc; done.
Qed.

(** Whatever was sent of [w], it is still the same message. *)
Record same_msg (w w' : send_wr) : Prop := {
  sm_list : w'.(ctl).(rmpp_list) = w.(ctl).(rmpp_list);
  sm_pad : w'.(ctl).(pad) = w.(ctl).(pad);
  sm_sge : w'.(sge_len) = w.(sge_len);
  sm_buf : w'.(send_buf).(hdr_len) = w.(send_buf).(hdr_len) /\ w'.(send_buf).(data_len) = w.(send_buf).(data_len) /\
    w'.(send_buf).(seg_count) = w.(send_buf).(seg_count) /\ w'.(send_buf).(seg_size) = w.(send_buf).(seg_size) /\
    w'.(send_buf).(seg_rmpp_size) = w.(send_buf).(seg_rmpp_size);
  sm_hdr : same_header w.(send_buf).(mad) w'.(send_buf).(mad);
  sm_flags : forall b b', arr_get w.(send_buf).(mad) RMPP_FLAGS_OFF = Some b ->
    arr_get w'.(send_buf).(mad) RMPP_FLAGS_OFF = Some b' -> Z.land b' 0xF8 = Z.land b 0xF8
}.

Lemma same_msg_refl w : same_msg w w.
Proof. split; try done. naive_solver. Qed.

Lemma same_msg_trans w1 w2 w3 : ready w2 -> same_msg w1 w2 -> same_msg w2 w3 -> same_msg w1 w3.
Proof.
  intros Hr [L1 P1 S1 B1 H1 F1] [L2 P2 S2 B2 H2 F2]. split; try congruence; [naive_solver congruence| |].
  - by eapply same_header_trans.
  - intros b b' Hb Hb'. destruct (rd_hdr _ Hr) as [? ?]. unfold IB_MGMT_RMPP_HDR in *.
    destruct (arr_get_Some w2.(send_buf).(mad) RMPP_FLAGS_OFF) as [b2 Hb2]; [unfold RMPP_FLAGS_OFF; lia|].
    rewrite (F2 b2 b') by done. by apply F1.
Qed.

(** So what it sends is what [w] would send. *)
Lemma wire_ok_same w w' n wire : ready w -> same_msg w w' -> wire_ok w' n wire -> wire_ok w n wire.
Proof.
  intros Hr [HL HP HS (Hh & Hd & Hc & Hs & Hrs) HH HF] [Hn (h & s & -> & Hh' & Hseg & (b & Hb & Hf) & Hnum & Hpl)].
  rewrite Hc in *. split; [done|]. exists h, s. rewrite HS, HL in *. split; [done|].
  split; [by eapply same_header_trans|]. split; [done|]. split; [|split; [done|]].
  - pose proof (rd_hdr _ Hr) as [? ?]. unfold IB_MGMT_RMPP_HDR in *.
    destruct (arr_get_Some w.(send_buf).(mad) RMPP_FLAGS_OFF) as [b2 Hb2]; [unfold RMPP_FLAGS_OFF; lia|].
    exists b2. split; [done|]. rewrite Hf. unfold seg_flags. by rewrite (HF b2 b).
  - rewrite Hpl. unfold seg_paylen. by rewrite Hc, Hrs, HP.
Qed.

Lemma ready_ctl w c :
  ready w -> c.(rmpp_list) = w.(ctl).(rmpp_list) -> c.(pad) = w.(ctl).(pad) ->
  0 <= c.(cur_seg) < w.(send_buf).(seg_count) -> ready (set_ctl c w).
Proof. intros [] Hl Hp Hc. split; cbn; rewrite ?Hl, ?Hp; done. Qed.

Lemma ready_timeout w t : ready w -> ready (set_timeout t w).
Proof. by intros []. Qed.

(** The payload of the current segment. *)
Lemma get_payload_ok head_num w :
  ready w -> 1 <= w.(ctl).(seg_num) <= w.(send_buf).(seg_count) ->
  exists s, arr_get w.(ctl).(rmpp_list) (w.(ctl).(seg_num) - 1) = Some s /\
    ib_get_payload head_num w =
    Some (set_ctl (set_cur_seg (w.(ctl).(seg_num) - 1) w.(ctl)) w, take (Z.to_nat w.(sge_len)) s.(data)).
Proof.
  intros Hr Hn. pose proof (rd_count _ Hr). pose proof (rd_cur _ Hr).
  destruct (seg_at _ _ (rd_nums _ Hr) (w.(ctl).(seg_num) - 1)) as (s & Hs & _); [lia|].
  exists s. split; [done|]. unfold ib_get_payload. rewrite (proj2 (c_true_spec _)) by lia.
  rewrite (get_segment_ok head_num _ _ (rd_nums _ Hr)) by lia. cbn [mbind option_bind].
  change (rmpp_list (set_cur_seg ?i ?c)) with (rmpp_list c). rewrite Hs. cbn [mbind option_bind].
  pose proof (rd_lens _ Hr) as Hl. rewrite list.Forall_forall in Hl.
  rewrite arr_get_lookup in Hs by lia. apply list_elem_of_lookup_2, Hl in Hs as Hlen.
  pose proof (rd_sge _ Hr) as Hg. pose proof (rd_size _ Hr). pose proof (rd_pad _ Hr).
  by rewrite mem_get_0 by lia.
Qed.

Definition post_result (env : post_env) : Z :=
  match env with Posted ret => ret | _ => - ENOMEM end.

(** Posting the current segment of a message. *)
Lemma ib_send_mad_ok head_num w env :
  ready w -> 1 <= w.(ctl).(seg_num) <= w.(send_buf).(seg_count) ->
  exists i out, ib_send_mad head_num w env = Some (set_ctl (set_cur_seg i w.(ctl)) w, post_result env, out) /\
    0 <= i < w.(send_buf).(seg_count) /\
    (post_result env = 0 -> exists s, arr_get w.(ctl).(rmpp_list) (w.(ctl).(seg_num) - 1) = Some s /\
       out = Some (w.(send_buf).(mad) ++ take (Z.to_nat w.(sge_len)) s.(data))) /\
    (post_result env <> 0 -> out = None).
Proof.
  intros Hr Hn. destruct (get_payload_ok head_num w Hr Hn) as (s & Hs & Hpay). unfold ib_send_mad.
  rewrite mem_get_all by apply Hr. cbn [mbind option_bind]. destruct env as [| |ret]; cbn [post_result].
  - exists w.(ctl).(cur_seg), None. split; [by destruct w as [? []]|]. split; [apply Hr|]. done.
  - exists (w.(ctl).(seg_num) - 1), None. rewrite Hpay. split; [done|]. split; [lia|]. done.
  - eexists _, _. rewrite Hpay. cbn [mbind option_bind]. split; [done|]. split; [lia|].
    destruct (Z.eqb_spec ret 0); (split; [naive_solver|done]).
Qed.

Section next.
Variables (msecs_to_jiffies : Z -> Z) (head_num : Z).

(** The message before it is posted. *)
Definition next_wr (w : send_wr) (m : list Z) : send_wr :=
  let w1 := set_buf (set_mad m w.(send_buf)) (set_ctl (set_seg_num (w.(ctl).(seg_num) + 1) w.(ctl)) w) in
  if negb (c_true w.(send_buf).(timeout_ms)) || (2000 <? w.(send_buf).(timeout_ms))
  then set_timeout (msecs_to_jiffies 2000) w1 else w1.

Lemma next_wr_fields w m :
  send_buf (next_wr w m) = set_mad m w.(send_buf) /\ ctl (next_wr w m) = set_seg_num (w.(ctl).(seg_num) + 1) w.(ctl) /\
  sge_len (next_wr w m) = sge_len w.
Proof. unfold next_wr. by case_test. Qed.

(** [send_next_seg] is posting the message with its new header. *)
Lemma send_next_seg_posts w env :
  ready w -> 0 <= w.(ctl).(seg_num) < w.(send_buf).(seg_count) ->
  let n := w.(ctl).(seg_num) + 1 in
  exists m b, send_next_seg msecs_to_jiffies head_num w env = ib_send_mad head_num (next_wr w m) env /\
    ready (next_wr w m) /\ same_header w.(send_buf).(mad) m /\
    arr_get w.(send_buf).(mad) RMPP_FLAGS_OFF = Some b /\
    arr_get m RMPP_FLAGS_OFF = Some (seg_flags b n w.(send_buf).(seg_count)) /\
    be_get m RMPP_SEG_NUM_OFF 4 = Some n /\ be_get m RMPP_PAYLEN_OFF 4 = Some (seg_paylen w n).
Proof.
  intros Hr Hn n.
  destruct (next_header w n Hr) as (m1 & m2 & m3 & m4 & m & pl & b & E1 & E2 & E3 & E4 & E5 & Hs & Hb & Hf & Hnum & Hpl);
    [lia|].
  exists m, b. split; [|split; [|done]].
  - unfold send_next_seg. fold n. rewrite E1. cbn [mbind option_bind]. rewrite E2. cbn [mbind option_bind].
    rewrite E3. cbn [mbind option_bind]. rewrite E4. cbn [mbind option_bind]. rewrite E5. done.
  - assert (ready (set_buf (set_mad m w.(send_buf)) (set_ctl (set_seg_num n w.(ctl)) w))).
    { apply (ready_ctl (set_buf (set_mad m w.(send_buf)) w)); [apply ready_mad; [done|apply Hs]|done|done|apply Hr]. }
    unfold next_wr. case_test; [by apply ready_timeout|done].
Qed.

(** [send_next_seg] sends the segment after the last one sent. *)
Lemma send_next_seg_ok w env :
  ready w -> 0 <= w.(ctl).(seg_num) < w.(send_buf).(seg_count) ->
  exists m i out, let w' := set_ctl (set_cur_seg i (ctl (next_wr w m))) (next_wr w m) in
    send_next_seg msecs_to_jiffies head_num w env = Some (w', post_result env, out) /\
    ready w' /\ same_msg w w' /\ 0 <= i < w.(send_buf).(seg_count) /\
    (exists b, arr_get m RMPP_FLAGS_OFF = Some (seg_flags b (w.(ctl).(seg_num) + 1) w.(send_buf).(seg_count))) /\
    (post_result env = 0 -> exists wire, out = Some wire /\ wire_ok w (w.(ctl).(seg_num) + 1) wire) /\
    (post_result env <> 0 -> out = None).
Proof.
  intros Hr Hn. set (n := w.(ctl).(seg_num) + 1).
  destruct (send_next_seg_posts w env Hr Hn) as (m & b & -> & Hr2 & Hs & Hb & Hf & Hnum & Hpl). fold n in Hf, Hnum, Hpl.
  destruct (next_wr_fields w m) as (Hb2 & Hc2 & Hg2). fold n in Hc2. set (w2 := next_wr w m) in *.
  destruct (ib_send_mad_ok head_num w2 env Hr2) as (i & out & E & Hi & H1 & H2); [rewrite Hb2, Hc2; cbn; lia|].
  exists m, i, out. fold w2. split; [exact E|]. split; [by apply ready_ctl|]. rewrite Hb2 in Hi.
  split; [|split; [done|split; [by exists b|split; [|done]]]].
  - split; cbn; rewrite ?Hb2, ?Hc2, ?Hg2; try done. cbn. intros b1 b' Hb1 Hb'.
    rewrite Hb in Hb1. rewrite Hf in Hb'. simplify_eq. apply seg_flags_high.
  - intros He. destruct (H1 He) as (s & Hseg & ->). eexists. split; [done|]. split; [lia|].
    exists m, s. rewrite Hb2, Hg2. rewrite Hc2 in Hseg. cbn in Hseg. repeat (split; [done|]). split; [by exists b|done].
Qed.

Lemma send_next_seg_keeps w env w' ret out :
  ready w -> 0 <= w.(ctl).(seg_num) < w.(send_buf).(seg_count) ->
  send_next_seg msecs_to_jiffies head_num w env = Some (w', ret, out) ->
  ready w' /\ same_msg w w' /\ w'.(ctl).(seg_num) = w.(ctl).(seg_num) + 1 /\ ret = post_result env.
Proof.
  intros Hr Hn E. destruct (send_next_seg_ok w env Hr Hn) as (m & i & out' & E' & Hr' & Hs & _).
  rewrite E in E'. injection E' as -> -> _. split; [done|]. split; [done|].
  destruct (next_wr_fields w m) as (_ & Hc & _). cbn. by rewrite Hc.
Qed.
End next.

(** ** A message received *)

Section transfer.
Variables (msecs_to_jiffies : Z -> Z) (head_num : Z).

(** A segment sent of the message [w], in whatever state its transfer is. *)
Definition sent (w : send_wr) (wire : list Z) : Prop :=
  exists w1 env w2 ret, ready w1 /\ same_msg w w1 /\ 0 <= w1.(ctl).(seg_num) < w1.(send_buf).(seg_count) /\
    send_next_seg msecs_to_jiffies head_num w1 env = Some (w2, ret, Some wire).

Lemma sent_wire_ok w wire : ready w -> sent w wire -> exists n, wire_ok w n wire.
Proof.
  intros Hr (w1 & env & w2 & ret & Hr1 & Hs & Hn & E).
  destruct (send_next_seg_ok msecs_to_jiffies head_num w1 env Hr1 Hn) as (m & i & out & E' & _ & _ & _ & _ & H1 & H2).
  rewrite E in E'. simplify_eq. exists (w1.(ctl).(seg_num) + 1). eapply wire_ok_same; [done|done|].
  destruct (decide (post_result env = 0)) as [He|He].
  - destruct (H1 He) as (wire' & [= <-] & Hw). done.
  - by specialize (H2 He).
Qed.

(** A datagram that carries it: [slid] and [src_qp] are the sender's as the
    receiver sees them, [tl] is what the buffer held before, beyond the data. *)
Definition carries (w : send_wr) (slid src_qp : Z) (m : rmpp_mad) : Prop :=
  exists wire tl, sent w wire /\ mad_of_wire m.(mad_id) slid src_qp (wire ++ tl) = Some m.

(** The class in the header accounts for the header's length. *)
Definition class_header (w : send_wr) : Prop :=
  exists class, arr_get w.(send_buf).(mad) 1 = Some class /\ w.(send_buf).(hdr_len) = ib_get_mad_data_offset class.

(** What the receiver knows of such a datagram. *)
Record honest (w : send_wr) (slid src_qp : Z) (m : rmpp_mad) (n : Z) (h : list Z) (s : rmpp_segment) (tl : list Z)
    : Prop := {
  ho_num : 1 <= n <= w.(send_buf).(seg_count) /\ get_seg_num m = n /\ m.(rmpp_seg_num) = n;
  ho_seg : arr_get w.(ctl).(rmpp_list) (n - 1) = Some s;
  ho_bytes : recv_bytes m = h ++ take (Z.to_nat w.(sge_len)) s.(data) ++ tl;
  ho_hdr : same_header w.(send_buf).(mad) h;
  ho_last : get_last_flag m = (n =? w.(send_buf).(seg_count));
  ho_first : get_first_flag m = (n =? 1);
  ho_status : arr_get w.(send_buf).(mad) RMPP_STATUS_OFF = Some m.(rmpp_status);
  ho_len : m.(paylen_newwin) = seg_paylen w n;
  ho_base : arr_get w.(send_buf).(mad) 0 = Some m.(base_version);
  ho_class : ib_get_mad_data_offset m.(key).(mgmt_class) = w.(send_buf).(hdr_len);
  ho_key : exists tid class version method, m.(key) = mk_key tid src_qp slid class version method /\
    be_get w.(send_buf).(mad) 8 8 = Some tid /\ arr_get w.(send_buf).(mad) 1 = Some class /\
    arr_get w.(send_buf).(mad) 2 = Some version /\ arr_get w.(send_buf).(mad) 3 = Some method
}.

Lemma same_header_get m m' i : same_header m m' -> ~ varies (Z.to_nat i) -> arr_get m' i = arr_get m i.
Proof. intros [_ H] Hi. unfold arr_get. case_decide; [|done]. by apply H. Qed.

Lemma same_header_mem m m' o n :
  same_header m m' -> o + n <= 26 -> mem_get m' o n = mem_get m o n.
Proof.
  intros [L H] Ho. unfold mem_get. rewrite L. case_decide; [|done]. f_equal. apply list_eq. intros i.
  destruct (decide (i < Z.to_nat n)%nat); [|by rewrite !lookup_take_ge by lia].
  rewrite !lookup_take_lt, !lookup_drop by lia. apply H. unfold varies. lia.
Qed.

Lemma arr_get_app_l {A} (l1 l2 : list A) i :
  i < Z.of_nat (length l1) -> arr_get (l1 ++ l2) i = arr_get l1 i.
Proof. intros Hi. unfold arr_get. case_decide; [|done]. apply lookup_app_l. lia. Qed.

Lemma flag_bits b n count :
  1 <= n <= count ->
  c_true (Z.land (Z.land (seg_flags b n count) 7) IB_MGMT_RMPP_FLAG_LAST) = (n =? count) /\
  c_true (Z.land (Z.land (seg_flags b n count) 7) IB_MGMT_RMPP_FLAG_FIRST) = (n =? 1).
Proof.
  intros Hn.
  assert (Hb : forall f, Z.land (Z.lor (Z.land b 0xF8) f) 7 = Z.land f 7).
  { intros f. by rewrite Z.land_lor_distr_l, <- Z.land_assoc, Z.land_0_r, Z.lor_0_l. }
  unfold seg_flags. repeat case_test; rewrite <- ?Z.lor_assoc, Hb; done.
Qed.

Lemma carries_honest w slid src_qp m :
  ready w -> class_header w -> carries w slid src_qp m ->
  exists n h s tl, honest w slid src_qp m n h s tl.
Proof.
  intros Hr (class & Hcl & Hhl) (wire & tl & Hs & E). destruct (sent_wire_ok _ _ Hr Hs) as (n & Hn & Hw).
  destruct Hw as (h & s & -> & Hsame & Hseg & (b & Hb & Hf) & Hnum & Hpl).
  exists n, h, s, tl. pose proof (rd_hdr _ Hr) as [Hh1 Hh2]. pose proof (rd_count _ Hr) as Hc.
  unfold IB_MGMT_RMPP_HDR in Hh2. assert (Hlen : Z.of_nat (length h) = w.(send_buf).(hdr_len)).
  { destruct Hsame as [-> _]. lia. }
  assert (Hget : forall i, 0 <= i < 36 -> ~ varies (Z.to_nat i) ->
    arr_get ((h ++ take (Z.to_nat w.(sge_len)) s.(data)) ++ tl) i = arr_get w.(send_buf).(mad) i).
  { intros i Hi Hv. rewrite !arr_get_app_l by (rewrite ?length_app; lia). by apply same_header_get. }
  unfold mad_of_wire in E. unfold RMPP_FLAGS_OFF, RMPP_STATUS_OFF, RMPP_SEG_NUM_OFF, RMPP_PAYLEN_OFF in *.
  rewrite (Hget 0), (Hget 1), (Hget 2), (Hget 3), (Hget 27) in E by (unfold varies; lia).
  rewrite !arr_get_app_l, !be_get_app_l in E by (rewrite ?length_app; lia). rewrite Hf, Hnum, Hpl in E.
  assert (Htid : be_get h 8 8 = be_get w.(send_buf).(mad) 8 8) by (unfold be_get; by rewrite (same_header_mem _ _ _ _ Hsame)).
  rewrite Htid in E.
  destruct (arr_get w.(send_buf).(mad) 0) as [base|] eqn:E0; cbn [mbind option_bind] in E; [|discriminate E]. rewrite Hcl in E. cbn [mbind option_bind] in E.
  destruct (arr_get w.(send_buf).(mad) 2) as [version|] eqn:E2; cbn [mbind option_bind] in E; [|discriminate E].
  destruct (arr_get w.(send_buf).(mad) 3) as [method|] eqn:E3; cbn [mbind option_bind] in E; [|discriminate E].
  destruct (be_get w.(send_buf).(mad) 8 8) as [tid|] eqn:E8; cbn [mbind option_bind] in E; [|discriminate E].
  destruct (arr_get w.(send_buf).(mad) 27) as [st|] eqn:E27; cbn [mbind option_bind] in E; [|discriminate E].
  rewrite <- Hhl in E.
  destruct (mem_get _ 0 (hdr_len (send_buf w))) as [hdr|] eqn:Eh; cbn [mbind option_bind] in E; [|discriminate E].
  assert (Hhdr : hdr = h).
  { rewrite mem_get_0 in Eh by (rewrite !length_app; lia). rewrite <- Hlen, Nat2Z.id in Eh.
    rewrite <- !(assoc_L (++)), take_app_length in Eh. by simplify_eq. }
  subst hdr. injection E as E. rewrite <- Hlen, Nat2Z.id in E.
  rewrite <- !(assoc_L (++)), drop_app_length in E. destruct (flag_bits b n _ Hn) as [HfL HfF].
  rewrite <- E. split; cbn; try done.
  - split; [done|]. split; [|done]. unfold get_seg_num. cbn. apply s32_small. lia.
  - by exists tid, class, version, method.
Qed.

(** The loop that copies the segments after the first. *)
Lemma copy_rest_ok ss offset : forall l ds left out,
  0 < ss -> Forall2 (fun m d => mem_get (recv_bytes m) offset ss = Some d) l ds ->
  0 <= left <= Z.of_nat (length l) * ss -> 0 <= offset ->
  copy_rest l left ss offset out = Some (out ++ take (Z.to_nat left) (mjoin ds)).
Proof.
  intros l ds left out Hss HF. revert left out. induction HF as [|m d l ds Hd HF IH]; intros left out Hleft Ho.
  - cbn in Hleft. replace left with 0 by lia. cbn. by rewrite app_nil_r.
  - cbn [copy_rest]. destruct (Z.eqb_spec left 0) as [->|Hne]; [cbn; by rewrite app_nil_r|].
    cbn [length] in Hleft. unfold mem_get in Hd. case_decide as Hb; [|done]. injection Hd as Hd.
    rewrite mem_get_some by lia. cbn [mbind option_bind].
    rewrite IH by lia. f_equal. rewrite <- (assoc_L (++)). f_equal. cbn [mjoin list_join].
    assert (Hl : length d = Z.to_nat ss) by (rewrite <- Hd, length_take, length_drop; lia).
    destruct (Z.le_gt_cases ss left).
    + rewrite Z.min_r, Hd by lia. rewrite take_app_ge by lia. f_equal. f_equal. lia.
    + rewrite Z.min_l by lia. replace (Z.to_nat (left - left)) with 0%nat by lia. rewrite take_0, app_nil_r.
      rewrite take_app_le by lia. rewrite <- Hd, take_take. f_equal. lia.
Qed.

(** ** The message handed to the receiver's client *)

(** The receiver's view of datagram sizes is the sender's. *)
Definition sizes_agree (w : send_wr) (opa_ : bool) (base : Z) : Prop :=
  mad_size (idle 0 opa_) base = (w.(send_buf).(seg_size) + w.(send_buf).(hdr_len), w.(send_buf).(seg_rmpp_size)).

Lemma mad_pad_back w :
  ready w -> w.(send_buf).(seg_rmpp_size) < 2 ^ 31 -> IB_MGMT_RMPP_HDR <= w.(send_buf).(hdr_len) ->
  mad_pad w.(send_buf).(seg_rmpp_size) (seg_paylen w w.(send_buf).(seg_count)) = w.(ctl).(pad).
Proof.
  intros Hr Hlt Hh. pose proof (rd_pad _ Hr) as [_ Hp]. pose proof (rd_size _ Hr) as [Hs Hrs].
  unfold IB_MGMT_RMPP_HDR in *. unfold mad_pad, seg_paylen. rewrite Z.eqb_refl.
  rewrite (wrap_small 32 (seg_rmpp_size (send_buf w) - pad (ctl w))) by (unfold fits; lia).
  replace (seg_rmpp_size (send_buf w) - _) with (pad (ctl w)) by lia.
  rewrite wrap_small by (unfold fits; lia). rewrite s32_small by lia.
  rewrite (proj2 (Z.ltb_ge _ _)) by lia. by rewrite (proj2 (Z.ltb_ge _ _)) by lia.
Qed.

(** The segments of a whole message, in order, are the sender's. *)
Lemma message_segments w slid src_qp l count :
  ready w -> class_header w -> nums l = seqZ 1 count -> count = w.(send_buf).(seg_count) ->
  Forall (carries w slid src_qp) l ->
  Forall2 (fun m s => exists n h tl, honest w slid src_qp m n h s tl) l w.(ctl).(rmpp_list).
Proof.
  intros Hr Hcl Hn -> Hall. apply Forall2_same_length_lookup. split.
  - rewrite <- (length_fmap get_seg_num), Hn, <- (rd_nums _ Hr). apply length_fmap.
  - intros i m s Hm Hs. rewrite list.Forall_forall in Hall.
    destruct (carries_honest w slid src_qp m Hr Hcl) as (n & h & s' & tl & Hho); [by eapply Hall, list_elem_of_lookup_2|].
    assert (Hi : seqZ 1 w.(send_buf).(seg_count) !! i = Some (get_seg_num m)) by by rewrite <- Hn, list_lookup_fmap, Hm.
    apply lookup_seqZ in Hi as [Hi _]. pose proof (ho_num _ _ _ _ _ _ _ _ Hho) as (Hnn & Hg & _).
    pose proof (ho_seg _ _ _ _ _ _ _ _ Hho) as Hsg. rewrite arr_get_lookup in Hsg by lia.
    replace (Z.to_nat (n - 1)) with i in Hsg by lia. rewrite Hs in Hsg. injection Hsg as ->. eauto.
Qed.

(** Bytes [hdr_len ..] of a received segment are the segment's data. *)
Lemma honest_payload w slid src_qp m n h s tl k :
  ready w -> honest w slid src_qp m n h s tl -> 0 <= k <= w.(sge_len) -> k <= w.(send_buf).(seg_size) ->
  mem_get (recv_bytes m) 0 (w.(send_buf).(hdr_len) + k) = Some (h ++ take (Z.to_nat k) s.(data)) /\
  mem_get (recv_bytes m) w.(send_buf).(hdr_len) k = Some (take (Z.to_nat k) s.(data)).
Proof.
  intros Hr Hho Hk Hks. pose proof (rd_hdr _ Hr) as [Hh _]. pose proof (ho_hdr _ _ _ _ _ _ _ _ Hho) as [Hl _].
  assert (Hs : length s.(data) = Z.to_nat w.(send_buf).(seg_size)).
  { pose proof (rd_lens _ Hr) as Hls. rewrite list.Forall_forall in Hls. apply Hls.
    pose proof (ho_seg _ _ _ _ _ _ _ _ Hho) as Hsg. unfold arr_get in Hsg. case_decide; [|done].
    by eapply list_elem_of_lookup_2. }
  rewrite (ho_bytes _ _ _ _ _ _ _ _ Hho).
  assert (Hb : length (take (Z.to_nat w.(sge_len)) s.(data)) = Z.to_nat (Z.min w.(sge_len) w.(send_buf).(seg_size))).
  { rewrite length_take. lia. }
  assert (Htk : take (Z.to_nat k) (take (Z.to_nat w.(sge_len)) s.(data) ++ tl) = take (Z.to_nat k) s.(data)).
  { rewrite take_app_le by (rewrite Hb; lia). rewrite take_take. f_equal. lia. }
  split.
  - rewrite mem_get_0 by (rewrite !length_app, Hb; lia). rewrite take_app_ge by lia. do 2 f_equal.
    rewrite <- Htk. f_equal. lia.
  - rewrite mem_get_app_r by lia. replace (_ - _) with 0 by lia.
    rewrite mem_get_0 by (rewrite length_app, Hb; lia). by rewrite Htk.
Qed.

Lemma honest_data w slid src_qp m n h s tl :
  ready w -> honest w slid src_qp m n h s tl -> w.(sge_len) = w.(send_buf).(seg_size) ->
  mem_get (recv_bytes m) w.(send_buf).(hdr_len) w.(send_buf).(seg_size) = Some s.(data).
Proof.
  intros Hr Hho Hsge. pose proof (rd_size _ Hr).
  destruct (honest_payload _ _ _ _ _ _ _ _ w.(send_buf).(seg_size) Hr Hho) as [_ ->]; [lia|done|].
  pose proof (rd_lens _ Hr) as Hls. rewrite list.Forall_forall in Hls.
  pose proof (ho_seg _ _ _ _ _ _ _ _ Hho) as Hsg. unfold arr_get in Hsg. case_decide; [|done].
  apply list_elem_of_lookup_2, Hls in Hsg. by rewrite take_ge by lia.
Qed.

(** User space gets the header of the first segment and all of the data. *)
Lemma copy_back w slid src_qp D umad_hdr l count writable :
  ready w -> class_header w -> padded w D -> w.(send_buf).(hdr_len) + w.(send_buf).(data_len) < 2 ^ 31 ->
  Forall2 (fun m s => exists n h tl, honest w slid src_qp m n h s tl) l w.(ctl).(rmpp_list) ->
  let total := w.(send_buf).(hdr_len) + w.(send_buf).(data_len) in
  Z.of_nat (length umad_hdr) + total <= count < 2 ^ 32 -> count <= writable ->
  exists h, same_header w.(send_buf).(mad) h /\
    copy_recv_mad umad_hdr (l, total) (w.(send_buf).(seg_size) + w.(send_buf).(hdr_len)) count writable
    = Some (inr (umad_hdr ++ h ++ D)).
Proof.
  intros Hr Hcl [HD HDl] Hlt HF total Hcount Hw.
  pose proof (rd_hdr _ Hr) as [Hh Hh2]. pose proof (rd_size _ Hr) as [Hss _]. pose proof (rd_pad _ Hr) as [Hdl Hpad].
  pose proof (rd_total _ Hr) as Htot. pose proof (rd_count _ Hr) as Hcnt. unfold IB_MGMT_RMPP_HDR in *.
  set (ss := w.(send_buf).(seg_size)) in *. set (hl := w.(send_buf).(hdr_len)) in *.
  pose proof (segs_length _ _ (rd_nums _ Hr)) as Hlen. remember w.(ctl).(rmpp_list) as L eqn:HL.
  destruct HF as [|m s l ls (n & h & tl & Hho) HF]; [cbn in Hlen; lia|].
  exists h. split; [apply Hho|]. cbn [mbind list_bind] in HD. change (mbind data ls) with (ls ≫= data) in HD.
  assert (HDt : D = take (Z.to_nat w.(send_buf).(data_len)) (s.(data) ++ (ls ≫= data))).
  { rewrite HD. rewrite <- HDl, Nat2Z.id. by rewrite take_app_length. }
  assert (Hs : length s.(data) = Z.to_nat ss).
  { pose proof (rd_lens _ Hr) as Hls. rewrite <- HL in Hls. by apply list.Forall_cons in Hls as [? _]. }
  unfold copy_recv_mad. rewrite (wrap_small 64 total) by (unfold fits; lia).
  rewrite (wrap_small 64 (_ + total)) by (unfold fits; lia).
  rewrite (proj2 (Z.ltb_ge count (_ + total))) by lia. rewrite andb_false_r. cbn [orb].
  replace (negb (total <=? ss + hl) && (count <? Z.of_nat (length umad_hdr) + (ss + hl))) with false
    by (symmetry; destruct (Z.leb_spec total (ss + hl)); [done|cbn [negb andb]; apply Z.ltb_ge; lia]).
  rewrite !(proj2 (Z.ltb_ge writable _)) by lia. cbn [head mbind option_bind].
  destruct (Z.le_gt_cases w.(send_buf).(data_len) ss) as [Hle|Hgt].
  - rewrite Z.min_l by lia.
    destruct (honest_payload _ _ _ _ _ _ _ _ w.(send_buf).(data_len) Hr Hho) as [Hf _];
      [destruct (rd_sge _ Hr); lia|done|]. fold hl in Hf. fold total in Hf. rewrite Hf. cbn [mbind option_bind].
    rewrite Z.ltb_irrefl. do 4 f_equal.
    rewrite HDt, take_app_le by lia. done.
  - assert (Hsge : w.(sge_len) = ss) by (destruct (rd_sge _ Hr) as [|[_ ?]]; [done|lia]).
    rewrite Z.min_r by lia.
    destruct (honest_payload _ _ _ _ _ _ _ _ ss Hr Hho) as [Hf _]; [lia|done|]. fold hl in Hf.
    rewrite Z.add_comm in Hf. rewrite Hf. cbn [mbind option_bind].
    rewrite (proj2 (Z.ltb_lt _ _)) by lia.
    rewrite (ho_class _ _ _ _ _ _ _ _ Hho). fold hl. cbn [tail].
    replace (ss + hl - hl) with ss by lia.
    rewrite (copy_rest_ok ss hl l (data <$> ls)); [|lia| |cbn [length] in Hlen; rewrite (Forall2_length _ _ _ HF); nia|lia].
    + cbn [mbind option_bind app].
      do 2 f_equal. rewrite HDt, take_app_ge, take_ge by lia. rewrite <- !(assoc_L (++)). do 3 f_equal.
      rewrite Hs. f_equal; [lia|]. clear. induction ls as [|x ls IH]; [done|]. cbn. by rewrite <- IH.
    + apply Forall2_fmap_r. eapply Forall2_impl; [exact HF|]. intros x y (n' & h' & tl' & Hx).
      by apply (honest_data _ _ _ _ _ _ _ _ Hr Hx).
Qed.
End transfer.

(** ** From one user to the other *)

(** Bytes of the header that come from the user: all but the transaction
    identifier, whose high half is the agent's, and the RMPP header. *)
Definition from_user (i : nat) : Prop := ((i < 24)%nat /\ ~ (8 <= i < 16)%nat) \/ (36 <= i)%nat.

Record built (a : mad_agent) (ubuf : list Z) (count : Z) (w : send_wr) : Prop := {
  bt_ready : ready w;
  bt_class : class_header w;
  bt_data : padded w (take (Z.to_nat (count - umad_hdr_len ubuf)) (drop (Z.to_nat (umad_hdr_len ubuf)) ubuf));
  bt_lens : w.(send_buf).(hdr_len) = umad_hdr_len ubuf /\ w.(send_buf).(data_len) = count - umad_hdr_len ubuf;
  bt_size : w.(send_buf).(seg_size) = agent_mad_size a (default 0 (ubuf !! 0%nat)) - umad_hdr_len ubuf;
  bt_hdr : forall i, from_user i -> Z.of_nat i < umad_hdr_len ubuf -> w.(send_buf).(mad) !! i = ubuf !! i;
  bt_status : arr_get w.(send_buf).(mad) RMPP_STATUS_OFF = Some 0;
  bt_seg_num : w.(ctl).(seg_num) = 0
}.

Lemma umad_build_active head_num a ubuf count buf_ok mem :
  umad_rmpp_active a ubuf = true -> IB_MGMT_RMPP_HDR <= Z.of_nat (length ubuf) ->
  umad_build head_num a ubuf count buf_ok mem =
  (r ← ib_create_send_mad a true (umad_hdr_len ubuf) (s32 (count - umad_hdr_len ubuf))
         (default 0 (ubuf !! 0%nat)) buf_ok mem;
   match r with
   | inl err => Some (inl err)
   | inr w =>
       m ← mem_put w.(send_buf).(mad) 0 (take 24 ubuf);
       '(err, w) ← copy_rmpp_mad head_num (set_buf (set_mad m w.(send_buf)) w) ubuf;
       if c_true err then Some (inl err) else
       m ← set_hi_tid a w.(send_buf).(mad);
       Some (inr (set_buf (set_mad m w.(send_buf)) w))
   end).
Proof.
  unfold umad_rmpp_active, umad_hdr_len, umad_class. intros Ha Hl. unfold IB_MGMT_RMPP_HDR in Hl.
  unfold umad_build. rewrite mem_get_0 by (unfold IB_MGMT_RMPP_HDR; lia).
  change (Z.to_nat IB_MGMT_RMPP_HDR) with 36%nat.
  assert (Hget : forall i : nat, (i < 36)%nat -> arr_get (take 36 ubuf) (Z.of_nat i) = Some (default 0 (ubuf !! i))).
  { intros i Hi. rewrite arr_get_lookup, Nat2Z.id, lookup_take_lt by lia.
    destruct (lookup_lt_is_Some_2 ubuf i) as [x ->]; [lia|done]. }
  cbn [mbind option_bind].
  rewrite (Hget 0%nat ltac:(lia) : arr_get (take 36 ubuf) 0 = _). cbn [mbind option_bind].
  rewrite (Hget 1%nat ltac:(lia) : arr_get (take 36 ubuf) 1 = _). cbn [mbind option_bind].
  rewrite (Hget 26%nat ltac:(lia) : arr_get (take 36 ubuf) RMPP_FLAGS_OFF = _). cbn [mbind option_bind].
  rewrite Ha.
  destruct (ib_create_send_mad _ _ _ _ _ _ _) as [[err|w]|]; cbn [mbind option_bind]; [done| |done].
  rewrite mem_get_0 by (rewrite length_take; unfold IB_MGMT_MAD_HDR; lia).
  change (Z.to_nat IB_MGMT_MAD_HDR) with 24%nat. rewrite take_take.
  change (24 `min` 36)%nat with 24%nat. cbn [mbind option_bind].
  destruct (mem_put _ 0 _) as [m|]; cbn [mbind option_bind]; done.
Qed.

Lemma set_hi_tid_same a m m' :
  set_hi_tid a m = Some m' -> forall i : nat, ~ (8 <= i < 16)%nat -> m' !! i = m !! i.
Proof.
  unfold set_hi_tid. intros E i Hi. destruct (ib_response_mad m) as [[]|]; cbn [mbind option_bind] in E;
    [by simplify_eq| |done].
  destruct (be_get m 8 8) as [tid|]; cbn [mbind option_bind] in E; [|done].
  eapply mem_put_lookup_ne; [exact E|]. rewrite length_to_be. lia.
Qed.

(** The class in user space's header is that of the message. *)
Lemma built_class ubuf w :
  ready w -> w.(send_buf).(hdr_len) = umad_hdr_len ubuf -> IB_MGMT_RMPP_HDR <= Z.of_nat (length ubuf) ->
  w.(send_buf).(mad) !! 1%nat = ubuf !! 1%nat -> class_header w.
Proof.
  intros Hr Hh Hl H1. unfold IB_MGMT_RMPP_HDR in Hl. destruct (lookup_lt_is_Some_2 ubuf 1) as [c Hc]; [lia|].
  exists c. rewrite arr_get_lookup by lia. rewrite <- Hc, <- H1. split; [done|].
  rewrite Hh. unfold umad_hdr_len, umad_class. by rewrite Hc.
Qed.

(** A write of at least a whole header is refused, or gives a message that is
    what user space wrote. *)
Lemma umad_build_ok head_num a ubuf count buf_ok mem :
  umad_rmpp_active a ubuf = true -> umad_hdr_len ubuf <= count < 2 ^ 31 - OPA_MGMT_MAD_SIZE ->
  (exists e, umad_build head_num a ubuf count buf_ok mem = Some (inl e) /\
     (e = - EINVAL \/ e = - ENOMEM \/ e = - EFAULT)) \/
  exists w, umad_build head_num a ubuf count buf_ok mem = Some (inr w) /\ built a ubuf count w.
Proof.
  intros Ha Hc. pose proof Ha as Ha'. unfold umad_rmpp_active in Ha'. bool_arith.
  destruct (rmpp_class_offset (umad_class ubuf)) as [Hh1 Hh2]; [done|]. fold (umad_hdr_len ubuf) in Hh1, Hh2.
  unfold IB_MGMT_DEVICE_HDR, OPA_MGMT_MAD_SIZE in *.
  destruct (Z.le_gt_cases IB_MGMT_RMPP_HDR (Z.of_nat (length ubuf))) as [Hl|Hl].
  2: { left. exists (- EFAULT). unfold umad_build, mem_get. rewrite decide_False by lia. auto. }
  rewrite umad_build_active by done. rewrite s32_small by (unfold IB_MGMT_RMPP_HDR in *; lia).
  destruct (create_ok a (umad_hdr_len ubuf) (count - umad_hdr_len ubuf) (default 0 (ubuf !! 0%nat)) buf_ok mem)
    as [(e & -> & He)|(w & D & -> & Hr & Hp & Hhl & Hdl & Hsz & Hn & Hst)];
    [unfold IB_MGMT_MAD_SIZE; lia|unfold OPA_MGMT_MAD_SIZE, IB_MGMT_RMPP_HDR in *; lia|left; exists e; naive_solver|].
  cbn [mbind option_bind]. pose proof (rd_hdr _ Hr) as [Hlen _]. unfold IB_MGMT_RMPP_HDR in *.
  destruct (mem_put_some w.(send_buf).(mad) 0 (take 24 ubuf)) as (m & E & Hm); [lia|rewrite length_take; lia|].
  rewrite E. cbn [mbind option_bind]. pose proof (ready_mad _ _ Hr Hm) as Hr1.
  set (w1 := set_buf (set_mad m w.(send_buf)) w) in *. assert (Hp1 : padded w1 D) by done.
  destruct (copy_rmpp_ok head_num w1 ubuf D Hr1 Hp1)
    as [(w2 & ->)|(w2 & -> & Hr2 & Hp2 & (m2 & Hb2 & Hm2 & Hlo & Hhi) & Hn2 & _)];
    cbn [mbind option_bind]; [left; exists (- EFAULT); auto|].
  change (c_true 0) with false. cbn iota.
  destruct (set_hi_tid_total a w2.(send_buf).(mad)) as (m3 & E3 & Hm3); [apply rd_hdr in Hr2; unfold IB_MGMT_RMPP_HDR in *; lia|].
  rewrite E3. cbn [mbind option_bind]. right. eexists. split; [done|].
  set (w3 := set_buf (set_mad m3 w2.(send_buf)) w2).
  assert (Hr3 : ready w3) by by apply ready_mad.
  pose proof (set_hi_tid_same _ _ _ E3) as Hsame. rewrite Hb2 in Hsame. cbn [mad set_mad w1] in Hsame, Hlo.
  assert (Hlen3 : hdr_len (send_buf w3) = umad_hdr_len ubuf) by (cbn; by rewrite Hb2).
  assert (Huser : forall i, from_user i -> Z.of_nat i < umad_hdr_len ubuf -> m3 !! i = ubuf !! i).
  { intros i Hi Hi2. rewrite Hsame by (unfold from_user in Hi; lia). destruct Hi as [[Hi _]|Hi].
    - rewrite Hlo by lia. cbn. apply mem_put_inv in E as (_ & _ & ->).
      rewrite list_lookup_inserts by (rewrite ?length_take; lia). change (Z.to_nat 0) with 0%nat. by rewrite Nat.sub_0_r, lookup_take_lt by lia.
    - apply Hhi; [done|]. cbn. lia. }
  split; try done.
  - apply (built_class ubuf); [done|done|done|]. apply Huser; [left; lia|lia].
  - unfold user_data in Hp2. cbn [w1 send_buf set_buf set_mad data_len hdr_len] in Hp2. by rewrite Hhl, Hdl in Hp2.
  - cbn. by rewrite Hb2.
  - cbn. by rewrite Hb2.
  - cbn. rewrite arr_get_lookup, Hsame, Hlo by (unfold RMPP_STATUS_OFF; lia). cbn.
    rewrite <- (arr_get_lookup _ RMPP_STATUS_OFF) by done. rewrite (arr_get_put_ne _ _ _ _ _ E); [done|].
    right. rewrite length_take. unfold RMPP_STATUS_OFF. lia.
  - cbn. by rewrite Hn2.
Qed.

(** ** Transfers *)

Section end_to_end.
Variables (msecs_to_jiffies : Z -> Z) (head_num : Z).
Variables (a : mad_agent) (ubuf : list Z) (count : Z) (w : send_wr) (slid src_qp : Z) (K : rmpp_key).
Hypothesis Hrange : umad_hdr_len ubuf <= count < 2 ^ 31 - OPA_MGMT_MAD_SIZE.
Hypothesis Hhdr : IB_MGMT_RMPP_HDR < umad_hdr_len ubuf <= IB_MGMT_DEVICE_HDR.
Hypothesis Hbuilt : built a ubuf count w.

(** What is known of the datagrams of the transaction [K]. *)
Definition from_sender (k : rmpp_key) (m : rmpp_mad) : Prop :=
  key m = k /\ (k = K -> carries msecs_to_jiffies head_num w slid src_qp m).

Lemma seqZ_snoc_last l (c : rmpp_mad) n : nums (l ++ [c]) = seqZ 1 n -> get_seg_num c = n /\ 1 <= n.
Proof.
  intros Hn. assert (Hl : seqZ 1 n !! length l = Some (get_seg_num c)).
  { rewrite <- Hn, list_lookup_fmap, list_lookup_middle by done. done. }
  pose proof (f_equal length Hn) as Hlen. rewrite length_fmap, length_app, length_seqZ in Hlen. cbn in Hlen.
  apply lookup_seqZ in Hl. lia.
Qed.

(** A message of the transaction is all of its segments and nothing else. *)
Lemma message_all_segments active msg :
  message_ok from_sender (idle active a.(opa_port)) K msg ->
  Forall2 (fun m s => exists n h tl, honest w slid src_qp m n h s tl) msg.1 w.(ctl).(rmpp_list) /\ msg.2 = count.
Proof.
  intros (pre & c & rest & n & base & Hl & Hn & Hrest & Hlast & Hlen & Hbase & Hall).
  destruct Hbuilt as [Hr Hcl Hp [Hhl Hdl] Hsz Hu _ _].
  assert (Hcar : Forall (carries msecs_to_jiffies head_num w slid src_qp) msg.1).
  { eapply list.Forall_impl; [exact Hall|]. intros m [_ Hm]. by apply Hm. }
  rewrite Hl in Hcar. pose proof Hcar as Hcar'. rewrite list.Forall_app, list.Forall_cons in Hcar'.
  destruct Hcar' as (_ & Hc & Hcr). destruct (seqZ_snoc_last _ _ _ Hn) as [Hnc Hn1].
  destruct (carries_honest _ _ w slid src_qp c Hr Hcl Hc) as (n' & h & s & tl & Hho).
  pose proof (ho_num _ _ _ _ _ _ _ _ Hho) as (_ & Hgn & _). rewrite Hnc in Hgn. subst n'.
  rewrite (ho_last _ _ _ _ _ _ _ _ Hho) in Hlast. bool_arith. subst n.
  assert (rest = []) as ->.
  { destruct rest as [|m rest]; [done|]. apply list.Forall_cons in Hcr as [Hm _], Hrest as [Hlt _].
    destruct (carries_honest _ _ w slid src_qp m Hr Hcl Hm) as (n' & h' & s' & tl' & Hho').
    pose proof (ho_num _ _ _ _ _ _ _ _ Hho') as (? & ? & _). lia. }
  rewrite Hl. split; [by eapply message_segments|]. rewrite Hlen. unfold mad_length.
  rewrite (ho_class _ _ _ _ _ _ _ _ Hho), (ho_len _ _ _ _ _ _ _ _ Hho).
  assert (Hb : base = default 0 (ubuf !! 0%nat)).
  { rewrite Hl in Hbase. destruct (head (pre ++ [c])) as [m|] eqn:Em; [|done]. cbn in Hbase. injection Hbase as <-.
    assert (Hin : m ∈ pre ++ [c]) by (destruct (pre ++ [c]); [done|cbn in Em; simplify_eq; left]).
    rewrite list.Forall_forall in Hcar.
    destruct (carries_honest _ _ w slid src_qp m Hr Hcl (Hcar _ Hin)) as (? & ? & ? & ? & Hho').
    pose proof (ho_base _ _ _ _ _ _ _ _ Hho') as Hb. rewrite arr_get_lookup in Hb by done.
    rewrite Hu in Hb by (unfold from_user, IB_MGMT_RMPP_HDR in *; lia). change (Z.to_nat 0) with 0%nat in Hb. by rewrite Hb. }
  pose proof (rd_size _ Hr) as [Hss Hrs]. rewrite Hhl, Hsz in Hrs.
  assert (Hms : mad_size (idle active a.(opa_port)) base =
    (w.(send_buf).(seg_size) + w.(send_buf).(hdr_len), w.(send_buf).(seg_rmpp_size))).
  { rewrite Hrs, Hsz, Hhl, Hb. unfold mad_size, agent_mad_size, IB_MGMT_RMPP_HDR. cbn [opa idle].
    destruct (_ && _); unfold OPA_MGMT_MAD_SIZE, OPA_MGMT_RMPP_DATA, IB_MGMT_MAD_SIZE, IB_MGMT_RMPP_DATA; f_equal; lia. }
  rewrite Hms. cbn [fst snd]. pose proof (agent_mad_size_cases a (default 0 (ubuf !! 0%nat))) as Hcases.
  unfold OPA_MGMT_MAD_SIZE, IB_MGMT_MAD_SIZE, IB_MGMT_RMPP_HDR, IB_MGMT_DEVICE_HDR in *.
  rewrite mad_pad_back by (try done; rewrite ?Hrs; unfold IB_MGMT_RMPP_HDR; lia). pose proof (rd_total _ Hr) as Htot.
  rewrite s32_small; lia.
Qed.

(** What the receiving user reads. *)
Definition delivered_to_user (umad_hdr : list Z) (room : Z) (msg : message) : Prop :=
  msg.2 = count /\
  exists h, (forall i, from_user i -> Z.of_nat i < umad_hdr_len ubuf -> h !! i = ubuf !! i) /\
    Z.of_nat (length h) = umad_hdr_len ubuf /\
    copy_recv_mad umad_hdr msg (agent_mad_size a (default 0 (ubuf !! 0%nat))) room room =
    Some (inr (umad_hdr ++ h ++ take (Z.to_nat (count - umad_hdr_len ubuf)) (drop (Z.to_nat (umad_hdr_len ubuf)) ubuf))).

Lemma message_delivered active umad_hdr room msg :
  message_ok from_sender (idle active a.(opa_port)) K msg ->
  Z.of_nat (length umad_hdr) + count <= room < 2 ^ 32 -> delivered_to_user umad_hdr room msg.
Proof.
  intros Hm Hroom. destruct (message_all_segments _ _ Hm) as [HF Hlen].
  destruct Hbuilt as [Hr Hcl Hp [Hhl Hdl] Hsz Hu _ _]. unfold OPA_MGMT_MAD_SIZE in *.
  destruct (copy_back w slid src_qp _ umad_hdr msg.1 room room Hr Hcl Hp) as (h & Hh & E);
    [rewrite Hhl, Hdl; lia|done|rewrite Hhl, Hdl; lia|lia|].
  split; [done|]. exists h. split; [|split].
  - intros i Hi Hi2. destruct Hh as [_ Hh]. rewrite Hh; [by apply Hu|]. unfold from_user, varies in *. lia.
  - destruct Hh as [-> _]. pose proof (rd_hdr _ Hr). lia.
  - rewrite Hhl, Hdl, Hsz in E. destruct msg as [l len]. cbn in Hlen. subst len. cbn [fst] in E.
    replace (umad_hdr_len ubuf + (count - umad_hdr_len ubuf)) with count in E by lia.
    by replace (agent_mad_size a (default 0 (ubuf !! 0%nat)) - umad_hdr_len ubuf + umad_hdr_len ubuf)
      with (agent_mad_size a (default 0 (ubuf !! 0%nat))) in E by lia.
Qed.

Lemma message_of_key active k msg :
  message_ok from_sender (idle active a.(opa_port)) k msg -> key <$> head msg.1 = Some K -> k = K.
Proof.
  intros (pre & c & rest & n & base & _ & _ & _ & _ & _ & _ & Hall) Hk.
  destruct msg.1 as [|m l]; [done|]. cbn in Hk. injection Hk as Hk. apply list.Forall_cons in Hall as [[Hm _] _].
  congruence.
Qed.

Lemma run_from_sender active evs :
  fresh_events (idle active a.(opa_port)) evs ->
  Forall (fun m => key m = K -> carries msecs_to_jiffies head_num w slid src_qp m) (mads evs) ->
  exists a' out msgs, run_events (idle active a.(opa_port)) evs = Some (a', out, msgs) /\ agent_ok from_sender a' /\
    Forall (fun msg => exists k, message_ok from_sender (idle active a.(opa_port)) k msg) msgs.
Proof.
  intros Hf Hall. destruct (run_ok from_sender evs (idle active a.(opa_port))) as (a' & out & msgs & E & Ha & _ & _ & Hm).
  - apply idle_ok.
  - done.
  - eapply list.Forall_impl; [exact Hall|]. intros m Hm. by split.
  - by exists a', out, msgs.
Qed.
End end_to_end.

(** A message created with a negative length. *)
Lemma create_negative a hlen dlen base mem :
  IB_MGMT_RMPP_HDR <= hlen <= IB_MGMT_DEVICE_HDR -> - IB_MGMT_DEVICE_HDR <= dlen < 0 ->
  ib_mad_kernel_rmpp_agent a = true -> mem 1 <> None ->
  ib_create_send_mad a true hlen dlen base true mem = None.
Proof.
  intros Hh Hd Hk Hmem. unfold ib_create_send_mad. rewrite Hk. cbn [negb andb].
  set (ms := agent_mad_size a base). assert (Hms : ms = OPA_MGMT_MAD_SIZE \/ ms = IB_MGMT_MAD_SIZE) by apply agent_mad_size_cases.
  unfold OPA_MGMT_MAD_SIZE, IB_MGMT_MAD_SIZE, IB_MGMT_RMPP_HDR, IB_MGMT_DEVICE_HDR in *.
  rewrite get_pad_size_negative by lia. unfold alloc_send_rmpp_list. cbn [send_buf ctl data_len hdr_len pad seg_count].
  replace (dlen + (ms - hlen - dlen)) with (ms - hlen) by lia.
  destruct (Z.to_nat (ms - hlen)) as [|fuel] eqn:Ef; [lia|]. cbn [alloc_segs].
  rewrite (proj2 (Z.leb_gt _ _)) by lia. destruct (mem (0 + 1)) as [bytes|] eqn:Em; [|by destruct Hmem].
  replace (ms - hlen - (ms - hlen)) with 0 by lia.
  assert (Hz : forall n l, alloc_segs fuel mem 0 (ms - hlen) n l = Some (inr (n, l))) by (by destruct fuel).
  rewrite Hz. cbn [mbind option_bind app]. rewrite (proj2 (c_true_spec _)) by lia.
  unfold zero_last. cbn [last mbind option_bind]. unfold mem_set, mem_put.
  rewrite decide_True by lia. by rewrite decide_False by lia.
Qed.

(** C7: Whatever user space writes, if its first bytes announce an RMPP message and
    the write is at least as long as the header, the message is built without an
    access outside a buffer and in finitely many allocations, or refused with an
    error; a shorter write makes the kernel write in front of the segment it has
    allocated. *)
Theorem umad_write_safe_iff head_num a ubuf count mem :
  umad_rmpp_active a ubuf = true -> IB_MGMT_RMPP_HDR <= Z.of_nat (length ubuf) ->
  IB_MGMT_RMPP_HDR <= count < 2 ^ 31 - OPA_MGMT_MAD_SIZE -> (forall n, mem n <> None) ->
  (exists r, umad_build head_num a ubuf count true mem = Some r) <-> umad_hdr_len ubuf <= count.
Proof.
  intros Ha Hl Hc Hmem. split.
  - intros [r E]. destruct (Z.le_gt_cases (umad_hdr_len ubuf) count) as [|Hgt]; [done|exfalso].
    pose proof Ha as Ha'. unfold umad_rmpp_active in Ha'. bool_arith.
    destruct (rmpp_class_offset (umad_class ubuf)) as [Hh1 Hh2]; [done|]. fold (umad_hdr_len ubuf) in Hh1, Hh2.
    rewrite umad_build_active in E by done. unfold IB_MGMT_RMPP_HDR, IB_MGMT_DEVICE_HDR, OPA_MGMT_MAD_SIZE in *.
    rewrite s32_id, create_negative in E; [done|unfold IB_MGMT_RMPP_HDR, IB_MGMT_DEVICE_HDR; lia..|done|done|lia].
  - intros Hle. destruct (umad_build_ok head_num a ubuf count true mem Ha) as [(e & -> & _)|(w & -> & _)];
      [unfold IB_MGMT_RMPP_HDR in *; lia|eauto|eauto].
Qed.

(** C5: An RMPP message of one user reaches the other one whole: whatever datagrams
    arrive, in whatever order, lost or duplicated and mixed with other traffic, if
    those of the transaction carry segments the sender sent, every message of the
    transaction the receiver hands over reads back as what was written, header
    and data, to the byte. *)
Theorem rmpp_transfer msecs_to_jiffies head_num a ubuf count buf_ok mem w slid src_qp K active evs umad_hdr room :
  umad_build head_num a ubuf count buf_ok mem = Some (inr w) -> umad_rmpp_active a ubuf = true ->
  umad_hdr_len ubuf <= count < 2 ^ 31 - OPA_MGMT_MAD_SIZE ->
  fresh_events (idle active a.(opa_port)) evs ->
  Forall (fun m => key m = K -> carries msecs_to_jiffies head_num w slid src_qp m) (mads evs) ->
  Z.of_nat (length umad_hdr) + count <= room < 2 ^ 32 ->
  exists a' out msgs, run_events (idle active a.(opa_port)) evs = Some (a', out, msgs) /\
    Forall (fun msg => key <$> head msg.1 = Some K -> delivered_to_user a ubuf count umad_hdr room msg) msgs.
Proof.
  intros E Ha Hc Hf Hall Hroom. pose proof Ha as Ha'. unfold umad_rmpp_active in Ha'. bool_arith.
  destruct (rmpp_class_offset (umad_class ubuf)) as [Hh1 Hh2]; [done|]. fold (umad_hdr_len ubuf) in Hh1, Hh2.
  destruct (umad_build_ok head_num a ubuf count buf_ok mem Ha Hc) as [(e & E' & _)|(w' & E' & Hb)];
    rewrite E in E'; simplify_eq.
  destruct (run_from_sender msecs_to_jiffies head_num a w' slid src_qp K active evs Hf Hall)
    as (a' & out & msgs & Er & _ & Hm).
  exists a', out, msgs. split; [done|]. eapply list.Forall_impl; [exact Hm|]. intros msg (k & Hk) Hkey.
  assert (k = K) as -> by (by eapply message_of_key).
  by eapply message_delivered.
Qed.

(** ** Progress *)

Section progress.
Variables (msecs_to_jiffies : Z -> Z) (head_num : Z).
Variables (a : mad_agent) (ubuf : list Z) (count : Z) (w : send_wr) (slid src_qp : Z) (K : rmpp_key).
Hypothesis Hbuilt : built a ubuf count w.

Abbreviation P := (from_sender msecs_to_jiffies head_num w slid src_qp K).
Abbreviation N := (w.(send_buf).(seg_count)).

(** Segments up to [k] of the transaction are in. *)
Definition reached (ra : rmpp_agent) (k : Z) : Prop :=
  match find_recv ra.(recvs) K with
  | Some r => state r = RMPP_STATE_ACTIVE /\ k <= RmppRecv.seg_num r
  | None => k = 0
  end.

(** An unfinished transfer misses its last segment. *)
Lemma reached_lt ra k : agent_ok P ra -> reached ra k -> k < N.
Proof.
  intros Ha Hk. unfold reached in Hk. pose proof (bt_ready _ _ _ _ Hbuilt) as Hr. pose proof (rd_count _ Hr).
  destruct (find_recv (recvs ra) K) as [r|] eqn:Hf; [|lia]. destruct Hk as [Hst Hk].
  pose proof (find_recv_ok _ _ _ _ Ha Hf) as [_ Hok]. rewrite Hst in Hok.
  apply find_recv_split in Hf as (_ & _ & _ & _ & Hkey).
  destruct Hok as (pre & c & rest & Hp & Hl & _ & _ & _ & Hall & _). rewrite Hkey in Hall.
  rewrite (pg_segs _ _ _ _ Hp), list.Forall_app, list.Forall_cons in Hall. destruct Hall as (_ & [_ Hc] & _).
  destruct (carries_honest _ _ w slid src_qp c Hr (bt_class _ _ _ _ Hbuilt) (Hc eq_refl)) as (n & h & s & tl & Hho).
  pose proof (ho_num _ _ _ _ _ _ _ _ Hho) as (Hn & Hg & _).
  rewrite (progress_num_cur _ _ _ _ Hp) in Hg. rewrite (ho_last _ _ _ _ _ _ _ _ Hho) in Hl. bool_arith. lia.
Qed.

(** A message of the transaction is handed over. *)
Definition is_delivered (ra : rmpp_agent) (msg : option message) : Prop :=
  exists msg', msg = Some msg' /\ message_ok P ra K msg'.

(** The next segment brings the transfer forward or completes it. *)
Lemma data_step ra m k posted env :
  agent_ok P ra -> reached ra k -> key m = K -> get_seg_num m = k + 1 ->
  carries msecs_to_jiffies head_num w slid src_qp m -> mad_id m ∉ held ra ->
  exists ra' out msg, process_rmpp_data ra m true posted env = Some (ra', out, msg) /\
    agent_step P ra ra' [mad_id m] out msg /\ (is_delivered ra msg \/ reached ra' (k + 1)).
Proof.
  intros Ha Hreach Hkey Hnum Hc Hid. pose proof (bt_ready _ _ _ _ Hbuilt) as Hr.
  assert (HP : P (key m) m) by (split; [done|by intros _]).
  destruct (process_ok P ra m true posted env Ha Hid HP) as (ra' & out & msg & E & Hs & Hk).
  exists ra', out, msg. split; [done|]. split; [done|].
  destruct (carries_honest _ _ w slid src_qp m Hr (bt_class _ _ _ _ Hbuilt) Hc) as (n & h & s & tl & Hho).
  pose proof (ho_num _ _ _ _ _ _ _ _ Hho) as (Hn & Hg & Hraw). pose proof (ho_first _ _ _ _ _ _ _ _ Hho) as Hfirst.
  assert (Hst : rmpp_status m = 0).
  { pose proof (ho_status _ _ _ _ _ _ _ _ Hho) as Hst. rewrite (bt_status _ _ _ _ Hbuilt) in Hst. congruence. }
  unfold reached in *. unfold key_step, find_rmpp_recv in Hk. rewrite Hkey in Hk.
  assert (Hacc : accepted ra m true = true).
  { unfold accepted, find_rmpp_recv. rewrite Hst, Hraw, Hfirst, Hkey. change (c_true 0) with false. cbn [negb andb].
    destruct (Z.eqb_spec n 1); [done|]. cbn [negb andb]. apply bool_decide_eq_true.
    destruct (find_recv (recvs ra) K); [by eexists|lia]. }
  rewrite Hacc in Hk. destruct (find_recv (recvs ra) K) as [r|] eqn:Hf.
  - destruct Hreach as [Hact Hle]. destruct Hk as (r' & -> & Hok).
    pose proof Hf as (_ & _ & _ & _ & Hrk)%find_recv_split.
    destruct (so_recv _ _ _ _ _ _ _ Hok) as [_ Hst']. pose proof (so_done _ _ _ _ _ _ _ Hok) as Hdone.
    destruct (state r') eqn:Es; [|done|].
    + right. cbn. rewrite <- Hrk in Hf |- *. rewrite (find_put _ _ _ Hf (so_key _ _ _ _ _ _ _ Hok)).
      split; [done|]. pose proof (so_mono _ _ _ _ _ _ _ Hok Es). pose proof (so_next _ _ _ _ _ _ _ Hok Hact).
      destruct (decide (RmppRecv.seg_num r = k)) as [<-|]; [|lia]. specialize (H0 Hnum Es). lia.
    + left. destruct (proj1 Hdone eq_refl) as [Hmsg|]; [|congruence]. destruct msg as [msg|]; [|done].
      exists msg. split; [done|]. pose proof (so_msg _ _ _ _ _ _ _ Hok msg eq_refl) as Hm. by rewrite Hrk in Hm.
  - subst k. destruct Hk as (r' & -> & Hrk & Hok & Hn1 & Hdone & Hmsg). destruct Hok as [_ Hst'].
    destruct (state r') eqn:Es; [|done|].
    + right. cbn. rewrite <- Hrk in Hf |- *. by rewrite (find_added _ _ Hf), Hn1.
    + left. destruct msg as [msg|]; [|by destruct (proj1 Hdone eq_refl)].
      exists msg. split; [done|]. by apply Hmsg.
Qed.

(** The segments from the next one on, in order. *)
Lemma data_run active datas : forall ra k,
  agent_ok P ra -> opa ra = a.(opa_port) -> reached ra k ->
  nums (mads datas) = seqZ (k + 1) (N - k) ->
  Forall (fun m => key m = K /\ carries msecs_to_jiffies head_num w slid src_qp m) (mads datas) ->
  Forall (fun ev => exists m posted env, ev = Data m true posted env) datas -> fresh_events ra datas ->
  exists ra' out msgs, run_events ra datas = Some (ra', out, msgs) /\
    Exists (message_ok P (idle active a.(opa_port)) K) msgs.
Proof.
  induction datas as [|ev datas IH]; intros ra k Ha Hopa Hk Hn Hall Hev Hf.
  { cbn in Hn. pose proof (f_equal length Hn) as Hl. rewrite length_seqZ in Hl. cbn in Hl.
    pose proof (reached_lt _ _ Ha Hk). lia. }
  apply list.Forall_cons in Hev as [(m & posted & env & ->) Hev]. unfold mads in Hn, Hall. cbn in Hn, Hall.
  apply list.Forall_cons in Hall as [[Hkey Hc] Hall]. destruct Hf as [Hf Hfs]. cbn [ev_mads] in Hf.
  apply Forall_inv in Hf. pose proof (reached_lt _ _ Ha Hk) as Hlt. rewrite seqZ_cons in Hn by lia.
  injection Hn as Hn1 Hn.
  destruct (data_step ra m k posted env Ha Hk Hkey Hn1 Hc Hf) as (ra1 & out & msg & E & Hs & Hd).
  cbn [exec_event] in Hfs. rewrite E in Hfs. destruct Hs as [Ha1 [_ Hopa1] _ _]. rewrite Hopa in Hopa1.
  cbn [run_events exec_event]. rewrite E. cbn [mbind option_bind]. destruct Hd as [(msg' & -> & Hm)|Hk1].
  - destruct (run_ok P datas ra1 Ha1 Hfs) as (ra2 & out2 & msgs & -> & _).
    { eapply list.Forall_impl; [exact Hall|]. intros x [Hx Hcx]. split; [done|by intros _]. }
    cbn [mbind option_bind]. eexists _, _, _. split; [done|]. apply Exists_cons_hd.
    by eapply message_ok_opa; [|exact Hm].
  - destruct (IH ra1 (k + 1) Ha1 Hopa1 Hk1) as (ra2 & out2 & msgs & -> & Hex); try done.
    { etransitivity; [exact Hn|]. f_equal; lia. }
    cbn [mbind option_bind]. eexists _, _, _. split; [done|]. apply Exists_app. by right.
Qed.
End progress.

(** C6: From any state the receiver got into by traffic in which the datagrams of the
    transaction carried its segments, and in which the transaction is not yet
    complete, receiving all segments in order makes it hand over the message, and
    user space reads what was written. *)
Theorem rmpp_transfer_completes msecs_to_jiffies head_num a ubuf count buf_ok mem w slid src_qp K active evs
    ra out0 msgs0 datas umad_hdr room :
  umad_build head_num a ubuf count buf_ok mem = Some (inr w) -> umad_rmpp_active a ubuf = true ->
  umad_hdr_len ubuf <= count < 2 ^ 31 - OPA_MGMT_MAD_SIZE ->
  fresh_events (idle active a.(opa_port)) evs ->
  Forall (fun m => key m = K -> carries msecs_to_jiffies head_num w slid src_qp m) (mads evs) ->
  run_events (idle active a.(opa_port)) evs = Some (ra, out0, msgs0) ->
  (forall r, find_recv ra.(recvs) K = Some r -> state r <> RMPP_STATE_COMPLETE) ->
  Forall (fun ev => exists m posted env, ev = Data m true posted env) datas -> fresh_events ra datas ->
  nums (mads datas) = seqZ 1 w.(send_buf).(seg_count) ->
  Forall (fun m => key m = K /\ carries msecs_to_jiffies head_num w slid src_qp m) (mads datas) ->
  Z.of_nat (length umad_hdr) + count <= room < 2 ^ 32 ->
  exists ra' out msgs, run_events ra datas = Some (ra', out, msgs) /\
    Exists (delivered_to_user a ubuf count umad_hdr room) msgs.
Proof.
  intros E Ha Hc Hf Hall Er Hnot Hev Hfs Hn Hdat Hroom. pose proof Ha as Ha'. unfold umad_rmpp_active in Ha'. bool_arith.
  destruct (rmpp_class_offset (umad_class ubuf)) as [Hh1 Hh2]; [done|]. fold (umad_hdr_len ubuf) in Hh1, Hh2.
  destruct (umad_build_ok head_num a ubuf count buf_ok mem Ha Hc) as [(e & E' & _)|(w' & E' & Hb)];
    rewrite E in E'; simplify_eq.
  destruct (run_ok (from_sender msecs_to_jiffies head_num w' slid src_qp K) evs (idle active a.(opa_port)))
    as (ra' & out & msgs & Er' & Hra & Hopa & _); [apply idle_ok|done| |].
  { eapply list.Forall_impl; [exact Hall|]. intros m Hm. by split. }
  rewrite Er in Er'. simplify_eq.
  destruct (data_run msecs_to_jiffies head_num a ubuf count w' slid src_qp K Hb active datas ra' 0 Hra Hopa)
    as (ra2 & out2 & msgs2 & E2 & Hex); [|by rewrite Hn; f_equal; lia|done|done|done|].
  - unfold reached. destruct (find_recv (recvs ra') K) as [r|] eqn:Hfr; [|done].
    destruct (find_recv_ok _ _ _ _ Hra Hfr) as [_ Hst]. specialize (Hnot r eq_refl).
    destruct (state r) eqn:Es; [|done|done]. split; [done|].
    destruct Hst as (pre & c & rest & Hp & _). destruct (progress_length _ _ _ _ Hp). lia.
  - exists ra2, out2, msgs2. split; [done|]. eapply Exists_impl; [exact Hex|]. intros msg Hm.
    by eapply message_delivered.
Qed.

(** ** An example *)

(** A request of the subnet administration class with 300 bytes of data. *)
Definition sample_agent : mad_agent := mk_magent false 1 false 5.
Definition sample_ubuf : list Z :=
  [1; 3; 2; 0x12] ++ replicate 22 0 ++ [1] ++ replicate 29 0 ++ seqZ 0 256 ++ seqZ 0 44.
Definition sample_mem : allocator := fun _ => Some (fun _ => 0xAA).
Definition sample_built : option (Z + send_wr) := umad_build 8 sample_agent sample_ubuf 356 true sample_mem.
Definition empty_wr : send_wr := mk_wr (mk_buf [] 0 0 0 0 0 0 0) (mk_ctl [] 0 0 0 0 0 0) 0 0 0 0 0 0.
Definition sample_w : send_wr :=
  Eval vm_compute in match sample_built with Some (inr w) => w | _ => empty_wr end.
Definition sample_send (w : send_wr) : send_wr * list Z :=
  match send_next_seg id 8 w (Posted 0) with Some (w, _, Some wire) => (w, wire) | _ => (empty_wr, []) end.
Definition sample_sent1 : send_wr * list Z := Eval vm_compute in sample_send sample_w.
Definition sample_sent2 : send_wr * list Z := Eval vm_compute in sample_send sample_sent1.1.
Definition empty_mad : rmpp_mad := mk_mad 0 sample_key 0 0 0 0 0 [] [].
Definition sample_recv (i : Z) (first : bool) : rmpp_mad :=
  default empty_mad (mad_of_wire i 3 1 (if first then sample_sent1.2 else sample_sent2.2)).
Definition sample_tid : rmpp_key := Eval vm_compute in key (sample_recv 1 true).

Lemma sample_is_built : umad_build 8 sample_agent sample_ubuf 356 true sample_mem = Some (inr sample_w).
Proof. vm_compute. reflexivity. Qed.

Lemma sample_ready : ready sample_w.
Proof.
  destruct (umad_build_ok 8 sample_agent sample_ubuf 356 true sample_mem) as [(e & E & _)|(w & E & Hb)];
    [vm_compute; reflexivity|vm_compute; split; [discriminate|reflexivity]|..]; rewrite sample_is_built in E.
  - discriminate E.
  - injection E as <-. apply Hb.
Qed.

Lemma sample_send1 : send_next_seg id 8 sample_w (Posted 0) = Some (sample_sent1.1, 0, Some sample_sent1.2).
Proof. vm_compute. reflexivity. Qed.

Lemma sample_send2 : send_next_seg id 8 sample_sent1.1 (Posted 0) = Some (sample_sent2.1, 0, Some sample_sent2.2).
Proof. vm_compute. reflexivity. Qed.

Lemma sample_carried i first : carries id 8 sample_w 3 1 (sample_recv i first).
Proof.
  exists (if first then sample_sent1.2 else sample_sent2.2), []. rewrite app_nil_r.
  split; [|destruct first; vm_compute; reflexivity].
  assert (H0 : 0 <= seg_num (ctl sample_w) < seg_count (send_buf sample_w)) by (split; [discriminate|reflexivity]).
  destruct first.
  - exists sample_w, (Posted 0), sample_sent1.1, 0. split; [apply sample_ready|]. split; [apply (same_msg_refl sample_w)|]. split; [exact H0|].
    exact sample_send1.
  - destruct (send_next_seg_keeps id 8 _ _ _ _ _ sample_ready H0 sample_send1) as (Hr & Hs & _).
    exists sample_sent1.1, (Posted 0), sample_sent2.1, 0. split; [exact Hr|]. split; [exact Hs|]. split; [split; [discriminate|reflexivity]|].
    exact sample_send2.
Qed.

(** The second segment arrives first, is lost, and is sent again. *)
Definition sample_traffic : list event :=
  [ Data (sample_recv 10 false) true true AckPosted;
    Data (sample_recv 11 true) true true AckPosted;
    Data (sample_recv 12 false) true true AckPosted ].

Lemma umad_write_safe_iff_witness :
  (exists r, umad_build 8 sample_agent sample_ubuf 40 true sample_mem = Some r) <-> umad_hdr_len sample_ubuf <= 40.
Proof.
  apply umad_write_safe_iff; [reflexivity|vm_compute; discriminate|vm_compute; split; [discriminate|reflexivity]|done].
Defined.

Lemma rmpp_transfer_witness :
  exists a' out msgs, run_events (idle 512 false) sample_traffic = Some (a', out, msgs) /\
    Forall (fun msg => key <$> head msg.1 = Some sample_tid ->
      delivered_to_user sample_agent sample_ubuf 356 (replicate 64 0) 420 msg) msgs.
Proof.
  apply (rmpp_transfer id 8 sample_agent sample_ubuf 356 true sample_mem sample_w 3 1 sample_tid 512 sample_traffic).
  - exact sample_is_built.
  - reflexivity.
  - vm_compute. split; [discriminate|reflexivity].
  - apply (bool_decide_eq_true_1 _). vm_compute. reflexivity.
  - repeat constructor; intros _; apply sample_carried.
  - vm_compute. split; [discriminate|reflexivity].
Defined.

Lemma rmpp_transfer_completes_witness :
  exists ra' out msgs, run_events (idle 512 false) (tail sample_traffic) = Some (ra', out, msgs) /\
    Exists (delivered_to_user sample_agent sample_ubuf 356 (replicate 64 0) 420) msgs.
Proof.
  apply (rmpp_transfer_completes id 8 sample_agent sample_ubuf 356 true sample_mem sample_w 3 1 sample_tid 512 []
    (idle 512 false) [] [] (tail sample_traffic)).
  - exact sample_is_built.
  - reflexivity.
  - vm_compute. split; [discriminate|reflexivity].
  - done.
  - constructor.
  - reflexivity.
  - done.
  - repeat constructor; eauto.
  - apply (bool_decide_eq_true_1 _). vm_compute. reflexivity.
  - vm_compute. reflexivity.
  - repeat constructor; try apply sample_carried; vm_compute; reflexivity.
  - vm_compute. split; [discriminate|reflexivity].
Defined.
