(* ===== verification/MadSend.v ===== *)
(** The life of a send request of a MAD agent (drivers/infiniband/core/mad.c and
    the sender of mad_rmpp.c): posting, completion, matching of responses,
    acknowledgement and abort of RMPP transfers, timeout and retry,
    modification, and cancellation when the agent is unregistered.

    A step is what happens while the agent's lock is held; a call the code makes
    after it has dropped the lock is queued in [calls] and is a step of its own,
    so that other steps can come between. A request is its number; the memory of
    a request is gone when it is reported, and reaching for it then is [None], as
    is handing the hardware a request it already has. *)

From S2P Require Import Prelude Packer Bytes RmppRecv RmppSend.
#[local] Open Scope Z_scope.

Definition ETIMEDOUT : Z := 110.
Definition ECOMM : Z := 70.

(** [enum ib_wc_status] *)
Definition IB_WC_SUCCESS : Z := 0.
Definition IB_WC_WR_FLUSH_ERR : Z := 5.
Definition IB_WC_REM_ABORT_ERR : Z := 16.
Definition IB_WC_RESP_TIMEOUT_ERR : Z := 20.
Definition IB_WC_GENERAL_ERR : Z := 21.

Definition IB_RMPP_RESULT_PROCESSED : Z := 0.
Definition IB_RMPP_RESULT_CONSUMED : Z := 1.
Definition IB_RMPP_RESULT_INTERNAL : Z := 2.
Definition IB_RMPP_RESULT_UNHANDLED : Z := 3.

Definition IB_MGMT_RMPP_TYPE_ACK : Z := 2.
Definition IB_MGMT_RMPP_TYPE_STOP : Z := 3.
Definition IB_MGMT_RMPP_TYPE_ABORT : Z := 4.
Definition IB_MGMT_RMPP_STATUS_RESX : Z := 1.
Definition IB_MGMT_RMPP_STATUS_ABORT_MIN : Z := 118.
Definition IB_MGMT_RMPP_STATUS_ABORT_MAX : Z := 127.
Definition IB_MGMT_RMPP_STATUS_BADT : Z := 121.
Definition IB_MGMT_RMPP_STATUS_W2S : Z := 122.
Definition IB_MGMT_RMPP_STATUS_S2B : Z := 123.
Definition IB_MGMT_RMPP_STATUS_UNV : Z := 125.
Definition IB_MGMT_CLASS_SUBN_DIRECTED_ROUTE : Z := 0x81.

(** ** Data *)

(** A request, and the transaction identifier saved when it was posted. *)
Record request := mk_req { wr : send_wr; req_tid : Z }.

(** A received MAD: its bytes, and what comparing the addresses of a request
    with the received one would answer ([rcv_has_same_gid] asks the driver). *)
Record in_mad := mk_in { in_bytes : list Z; in_addr : Z -> bool }.

(** Calls due after the lock was dropped: of [ib_mad_complete_send_wr] and of
    [abort_send]. *)
Inductive call :=
  | Complete (id st : Z)
  | Abort (m : in_mad) (rmpp_status : Z).

(** The sending half of [struct ib_mad_agent_private]. [flights] are the requests
    the hardware or the queue in front of it has; [timer] is when [timed_work] is
    due, [worker] tells that it runs. *)
Record sends := mk_sends {
  reqs : gmap Z request;
  send_list : list Z; wait_list : list Z; done_list : list Z;
  flights : list Z; calls : list call;
  jiffies : Z; timer : option Z; agent_timeout : Z; worker : bool
}.

Inductive effect :=
  | Accepted (id : Z)
  | Rejected (id err : Z)
  | Sent (id : Z) (wire : list Z)
  | Report (id st : Z)
  | Freed (id : Z)
  | Response (id : Z) (m : in_mad)
  | Unsolicited (m : in_mad)
  | NackSent (m : in_mad) (rmpp_status : Z)
  | DsAck (m : in_mad)
  | DsWindow (m : in_mad) (newwin : Z)
  | Modified (id ret : Z).

(** ** Fields *)

Definition set_status (st : Z) (w : send_wr) : send_wr :=
  mk_wr w.(send_buf) w.(ctl) w.(sge_len) w.(timeout) w.(max_retries) w.(retries_left) w.(refcount) st.
Definition set_refcount (n : Z) (w : send_wr) : send_wr :=
  mk_wr w.(send_buf) w.(ctl) w.(sge_len) w.(timeout) w.(max_retries) w.(retries_left) n w.(status).
Definition set_retries_left (n : Z) (w : send_wr) : send_wr :=
  mk_wr w.(send_buf) w.(ctl) w.(sge_len) w.(timeout) w.(max_retries) n w.(refcount) w.(status).
Definition set_max_retries (n : Z) (w : send_wr) : send_wr :=
  mk_wr w.(send_buf) w.(ctl) w.(sge_len) w.(timeout) n w.(retries_left) w.(refcount) w.(status).
Definition set_retries (n : Z) (b : ib_mad_send_buf) : ib_mad_send_buf :=
  mk_buf b.(mad) b.(hdr_len) b.(data_len) b.(seg_count) b.(seg_size) b.(seg_rmpp_size) b.(timeout_ms) n.
Definition set_timeout_ms (n : Z) (b : ib_mad_send_buf) : ib_mad_send_buf :=
  mk_buf b.(mad) b.(hdr_len) b.(data_len) b.(seg_count) b.(seg_size) b.(seg_rmpp_size) n b.(retries).
Definition set_newwin (n : Z) (c : rmpp_ctl) : rmpp_ctl :=
  mk_ctl c.(rmpp_list) c.(last_ack_seg) c.(cur_seg) c.(last_ack) c.(seg_num) n c.(pad).
Definition set_last_ack (n i : Z) (c : rmpp_ctl) : rmpp_ctl :=
  mk_ctl c.(rmpp_list) i c.(cur_seg) n c.(seg_num) c.(newwin) c.(pad).

Definition set_reqs (m : gmap Z request) (s : sends) : sends :=
  mk_sends m s.(send_list) s.(wait_list) s.(done_list) s.(flights) s.(calls) s.(jiffies) s.(timer)
    s.(agent_timeout) s.(worker).
Definition set_lists (snd wait done : list Z) (s : sends) : sends :=
  mk_sends s.(reqs) snd wait done s.(flights) s.(calls) s.(jiffies) s.(timer) s.(agent_timeout) s.(worker).
Definition set_flights (l : list Z) (s : sends) : sends :=
  mk_sends s.(reqs) s.(send_list) s.(wait_list) s.(done_list) l s.(calls) s.(jiffies) s.(timer)
    s.(agent_timeout) s.(worker).
Definition set_calls (l : list call) (s : sends) : sends :=
  mk_sends s.(reqs) s.(send_list) s.(wait_list) s.(done_list) s.(flights) l s.(jiffies) s.(timer)
    s.(agent_timeout) s.(worker).
Definition set_jiffies (j : Z) (s : sends) : sends :=
  mk_sends s.(reqs) s.(send_list) s.(wait_list) s.(done_list) s.(flights) s.(calls) j s.(timer)
    s.(agent_timeout) s.(worker).
Definition set_timer (t : option Z) (s : sends) : sends :=
  mk_sends s.(reqs) s.(send_list) s.(wait_list) s.(done_list) s.(flights) s.(calls) s.(jiffies) t
    s.(agent_timeout) s.(worker).
Definition set_agent_timeout (t : Z) (s : sends) : sends :=
  mk_sends s.(reqs) s.(send_list) s.(wait_list) s.(done_list) s.(flights) s.(calls) s.(jiffies) s.(timer)
    t s.(worker).
Definition set_worker (b : bool) (s : sends) : sends :=
  mk_sends s.(reqs) s.(send_list) s.(wait_list) s.(done_list) s.(flights) s.(calls) s.(jiffies) s.(timer)
    s.(agent_timeout) b.

(** The memory of request [id] is written. *)
Definition store (id : Z) (w : send_wr) (s : sends) : option sends :=
  r ← s.(reqs) !! id; Some (set_reqs (<[id := mk_req w r.(req_tid)]> s.(reqs)) s).

Definition without (id : Z) (l : list Z) : list Z := filter (fun x => x <> id) l.

(** [list_del] of the request's [agent_list], whichever list it is on. *)
Definition unlink (id : Z) (s : sends) : sends :=
  set_lists (without id s.(send_list)) (without id s.(wait_list)) (without id s.(done_list)) s.

Definition to_send_list (id : Z) (s : sends) : sends :=
  let s := unlink id s in set_lists (s.(send_list) ++ [id]) s.(wait_list) s.(done_list) s.
Definition to_done_list (id : Z) (s : sends) : sends :=
  let s := unlink id s in set_lists s.(send_list) s.(wait_list) (s.(done_list) ++ [id]) s.

(** The request is reported: its memory is the client's again. *)
Definition drop_req (id : Z) (s : sends) : sends := set_reqs (delete id s.(reqs)) s.

(** The hardware takes the request. *)
Definition fly (id : Z) (s : sends) : option sends :=
  if decide (id ∈ s.(flights)) then None else Some (set_flights (s.(flights) ++ [id]) s).

Definition sent_effect (id : Z) (out : option (list Z)) : list effect :=
  match out with Some wire => [Sent id wire] | None => [] end.

(** [jiffies] does not wrap: it counts up to 2^64. *)
Definition time_after (a b : Z) : bool := b <? a.

(** ** Fields of a MAD *)

Definition mad_class (m : list Z) : option Z := arr_get m 1.
Definition mad_tid (m : list Z) : option Z := be_get m 8 8.
Definition rmpp_type (m : list Z) : option Z := arr_get m RMPP_TYPE_OFF.
Definition rmpp_active (m : list Z) : option bool :=
  b ← arr_get m RMPP_FLAGS_OFF; Some (c_true (Z.land (Z.land b 7) IB_MGMT_RMPP_FLAG_ACTIVE)).

Section agent.
Variables (a : mad_agent) (msecs_to_jiffies : Z -> Z) (head_num : Z).

(** The parameter of [msecs_to_jiffies] is unsigned. *)
Definition to_jiffies (ms : Z) : Z := msecs_to_jiffies (u32 ms).

(** ** The wait list and the timer *)

(** Behind the last request whose deadline is earlier: [l] is the list from its
    tail. *)
Fixpoint insert_wait (s : sends) (id t : Z) (l : list Z) : option (list Z) :=
  match l with
  | [] => Some [id]
  | x :: l' =>
      r ← s.(reqs) !! x;
      if time_after t r.(wr).(timeout) then Some (id :: l)
      else l'' ← insert_wait s id t l'; Some (x :: l'')
  end.

Definition wait_for_response (id : Z) (s : sends) : option sends :=
  r ← s.(reqs) !! id;
  let s := unlink id s in
  let delay := r.(wr).(timeout) in
  let t := delay + s.(jiffies) in
  s ← store id (set_timeout t r.(wr)) s;
  wait ← (if c_true delay then reverse <$> insert_wait s id t (reverse s.(wait_list))
          else Some (id :: s.(wait_list)));
  let s := set_lists s.(send_list) wait s.(done_list) s in
  Some (if decide (head wait = Some id) then set_timer (Some (s.(jiffies) + delay)) s else s).

Definition ib_reset_mad_timeout (id ms : Z) (s : sends) : option sends :=
  r ← s.(reqs) !! id;
  s ← store id (set_timeout (to_jiffies ms) r.(wr)) s;
  wait_for_response id s.

Definition adjust_timeout (s : sends) : option sends :=
  match s.(wait_list) with
  | [] => Some (set_timer None s)
  | id :: _ =>
      r ← s.(reqs) !! id;
      let t := r.(wr).(timeout) in
      Some (if time_after s.(agent_timeout) t
            then set_timer (Some (s.(jiffies) + Z.max 1 (t - s.(jiffies)))) (set_agent_timeout t s)
            else s)
  end.

Definition ib_mark_mad_done (id : Z) (s : sends) : option sends :=
  r ← s.(reqs) !! id;
  s ← store id (set_timeout 0 r.(wr)) s;
  Some (if r.(wr).(refcount) =? 1 then to_done_list id s else s).

(** ** Matching *)

Definition is_rmpp_data_mad (m : list Z) : option bool :=
  if negb (c_true a.(rmpp_version)) || negb (ib_mad_kernel_rmpp_agent a) then Some true else
  act ← rmpp_active m;
  t ← rmpp_type m;
  Some (negb act || (t =? IB_MGMT_RMPP_TYPE_DATA)).

(** The test on a request of either list, past the transaction identifier. Two
    requests or two responses never match; the rest is asked of the driver. *)
Definition same_mad (id : Z) (r : request) (m : in_mad) : option bool :=
  class ← mad_class r.(wr).(send_buf).(mad);
  rclass ← mad_class m.(in_bytes);
  if negb (class =? rclass) then Some false else
  if rclass =? IB_MGMT_CLASS_SUBN_DIRECTED_ROUTE then Some true else
  sr ← ib_response_mad r.(wr).(send_buf).(mad);
  rr ← ib_response_mad m.(in_bytes);
  Some (negb (eqb sr rr) && m.(in_addr) id).

Definition on_wait_list (id : Z) (r : request) (m : in_mad) (t : Z) : option bool :=
  if r.(req_tid) =? t then same_mad id r m else Some false.

Definition on_send_list (id : Z) (r : request) (m : in_mad) (t : Z) : option bool :=
  d ← is_rmpp_data_mad r.(wr).(send_buf).(mad);
  if d && (r.(req_tid) =? t) && c_true r.(wr).(timeout) then same_mad id r m else Some false.

(** The first request of a list that passes a test. *)
Fixpoint find_req (test : Z -> request -> option bool) (s : sends) (l : list Z) : option (option Z) :=
  match l with
  | [] => Some None
  | id :: l =>
      r ← s.(reqs) !! id;
      b ← test id r;
      if b : bool then Some (Some id) else find_req test s l
  end.

Definition ib_find_send_mad (s : sends) (m : in_mad) : option (option Z) :=
  t ← mad_tid m.(in_bytes);
  w ← find_req (fun id r => on_wait_list id r m t) s s.(wait_list);
  f ← match w with
      | Some id => Some (Some id)
      | None => find_req (fun id r => on_send_list id r m t) s s.(send_list)
      end;
  match f with
  | None => Some None
  | Some id => r ← s.(reqs) !! id; Some (if r.(wr).(status) =? IB_WC_SUCCESS then Some id else None)
  end.

(** ** RMPP transfers *)

(** [repwin] is the window of the receive context the search finds, if any. *)
Definition init_newwin (w : send_wr) (repwin : option Z) : option Z :=
  method ← arr_get w.(send_buf).(mad) 3;
  Some (if c_true (Z.land method IB_MGMT_METHOD_RESP) then default 1 repwin else 1).

Definition ib_send_rmpp_mad (w : send_wr) (repwin : option Z) (env : post_env)
    : option (send_wr * Z * option (list Z)) :=
  act ← rmpp_active w.(send_buf).(mad);
  if negb act then Some (w, IB_RMPP_RESULT_UNHANDLED, None) else
  t ← rmpp_type w.(send_buf).(mad);
  if negb (t =? IB_MGMT_RMPP_TYPE_DATA)
  then Some (set_ctl (set_seg_num 1 w.(ctl)) w, IB_RMPP_RESULT_INTERNAL, None) else
  win ← init_newwin w repwin;
  let w := set_ctl (set_newwin win w.(ctl)) w in
  let w := set_refcount (w.(refcount) + c_bool (w.(timeout) =? 0)) w in
  '(w, ret, out) ← send_next_seg msecs_to_jiffies head_num w env;
  Some (w, if ret =? 0 then IB_RMPP_RESULT_CONSUMED else ret, out).

(** What it answers, with the status of the completion it may change. *)
Definition ib_process_rmpp_send_wc (w : send_wr) (st : Z) (env : post_env)
    : option (send_wr * Z * Z * option (list Z)) :=
  act ← rmpp_active w.(send_buf).(mad);
  if negb act then Some (w, st, IB_RMPP_RESULT_UNHANDLED, None) else
  t ← rmpp_type w.(send_buf).(mad);
  if negb (t =? IB_MGMT_RMPP_TYPE_DATA) then Some (w, st, IB_RMPP_RESULT_INTERNAL, None) else
  if negb (st =? IB_WC_SUCCESS) || negb (w.(status) =? IB_WC_SUCCESS)
  then Some (w, st, IB_RMPP_RESULT_PROCESSED, None) else
  if negb (c_true w.(timeout)) then Some (w, st, IB_RMPP_RESULT_PROCESSED, None) else
  let c := w.(ctl) in
  let count := w.(send_buf).(seg_count) in
  if c.(last_ack) =? count
  then Some (set_timeout (to_jiffies w.(send_buf).(timeout_ms)) w, st, IB_RMPP_RESULT_PROCESSED, None) else
  if (c.(seg_num) =? c.(newwin)) || (c.(seg_num) =? count)
  then Some (w, st, IB_RMPP_RESULT_PROCESSED, None) else
  '(w, ret, out) ← send_next_seg msecs_to_jiffies head_num w env;
  if c_true ret then Some (w, IB_WC_GENERAL_ERR, IB_RMPP_RESULT_PROCESSED, out)
  else Some (w, st, IB_RMPP_RESULT_CONSUMED, out).

Definition ib_retry_rmpp (w : send_wr) (env : post_env) : option (send_wr * Z * option (list Z)) :=
  act ← rmpp_active w.(send_buf).(mad);
  if negb act then Some (w, IB_RMPP_RESULT_UNHANDLED, None) else
  let c := w.(ctl) in
  if c.(last_ack) =? w.(send_buf).(seg_count) then Some (w, IB_RMPP_RESULT_PROCESSED, None) else
  let w := set_ctl (set_cur_seg c.(last_ack_seg) (set_seg_num c.(last_ack) c)) w in
  '(w, ret, out) ← send_next_seg msecs_to_jiffies head_num w env;
  Some (w, if c_true ret then IB_RMPP_RESULT_PROCESSED else IB_RMPP_RESULT_CONSUMED, out).

(** The walk starts behind the segment of the last acknowledgement. *)
Definition adjust_last_ack (n : Z) (c : rmpp_ctl) : option rmpp_ctl :=
  i ← seek head_num c c.(last_ack_seg) n (round c c.(last_ack_seg));
  Some (set_last_ack n i c).

(** ** Completion *)

Definition ib_mad_complete_send_wr (id st : Z) (env : post_env) (s : sends)
    : option (sends * list effect) :=
  r ← s.(reqs) !! id;
  '(w, st, ret, out) ← (if ib_mad_kernel_rmpp_agent a then ib_process_rmpp_send_wc r.(wr) st env
                        else Some (r.(wr), st, IB_RMPP_RESULT_UNHANDLED, None));
  s ← store id w s;
  if ret =? IB_RMPP_RESULT_CONSUMED then s ← fly id s; Some (s, sent_effect id out) else
  let w := if negb (st =? IB_WC_SUCCESS) && (w.(status) =? IB_WC_SUCCESS)
           then set_refcount (w.(refcount) - c_bool (0 <? w.(timeout))) (set_status st w) else w in
  let w := set_refcount (w.(refcount) - 1) w in
  s ← store id w s;
  if 0 <? w.(refcount) then
    if (w.(refcount) =? 1) && c_true w.(timeout) && (w.(status) =? IB_WC_SUCCESS)
    then s ← wait_for_response id s; Some (s, [])
    else Some (s, [])
  else
    s ← adjust_timeout (unlink id s);
    let st := if negb (w.(status) =? IB_WC_SUCCESS) then w.(status) else st in
    Some (drop_req id s, if ret =? IB_RMPP_RESULT_INTERNAL then [Freed id] else [Report id st]).

(** ** Posting *)

(** What [ib_post_send_mad] asks of its surroundings for one buffer: the answers
    of [ib_mad_enforce_security] and, for a directed route, of
    [handle_outgoing_dr_smp]; which handlers the agent has; the window of
    [init_newwin]; the answers to the post. *)
Record post_in := mk_post {
  p_security : Z; p_send_handler : bool; p_recv_handler : bool; p_dr_smp : Z;
  p_repwin : option Z; p_env : post_env
}.

Definition prepare (w : send_wr) : send_wr :=
  let b := w.(send_buf) in
  let t := to_jiffies b.(timeout_ms) in
  mk_wr (set_retries 0 b) w.(ctl) w.(sge_len) t b.(retries) b.(retries)
    (1 + c_bool (0 <? t)) IB_WC_SUCCESS.

(** One round of the loop. Until the request is on its way nothing can match
    it, so the two lock regions of the loop are one step. *)
Definition ib_post_send_mad (id : Z) (w : send_wr) (p : post_in) (s : sends)
    : option (sends * list effect) :=
  let reject ret := Some (s, [Rejected id ret]) in
  if c_true p.(p_security) then reject p.(p_security) else
  if negb p.(p_send_handler) || (c_true w.(send_buf).(timeout_ms) && negb p.(p_recv_handler))
  then reject (- EINVAL) else
  class ← mad_class w.(send_buf).(mad);
  if negb (ib_is_mad_class_rmpp class) && c_true a.(rmpp_version) then reject (- EINVAL) else
  let dr := class =? IB_MGMT_CLASS_SUBN_DIRECTED_ROUTE in
  if dr && (p.(p_dr_smp) <? 0) then reject p.(p_dr_smp) else
  if dr && (p.(p_dr_smp) =? 1) then Some (s, []) else
  t ← mad_tid w.(send_buf).(mad);
  let w := prepare w in
  '(w, ret, out) ← (if ib_mad_kernel_rmpp_agent a then
      '(w, ret, out) ← ib_send_rmpp_mad w p.(p_repwin) p.(p_env);
      if (0 <=? ret) && negb (ret =? IB_RMPP_RESULT_CONSUMED)
      then ib_send_mad head_num w p.(p_env) else Some (w, ret, out)
    else ib_send_mad head_num w p.(p_env));
  if ret <? 0 then reject ret else
  let s := set_reqs (<[id := mk_req w t]> s.(reqs)) s in
  let s := set_lists (s.(send_list) ++ [id]) s.(wait_list) s.(done_list) s in
  s ← fly id s;
  Some (s, Accepted id :: sent_effect id out).

(** ** Received MADs *)

Definition abort_send (m : in_mad) (s : sends) : option (sends * list effect) :=
  f ← ib_find_send_mad s m;
  match f with
  | None => Some (s, [])
  | Some id =>
      r ← s.(reqs) !! id;
      let w := r.(wr) in
      if (w.(ctl).(last_ack) =? w.(send_buf).(seg_count)) || negb (c_true w.(timeout)) ||
         negb (w.(status) =? IB_WC_SUCCESS)
      then Some (s, []) else
      s ← ib_mark_mad_done id s;
      Some (set_calls (s.(calls) ++ [Complete id IB_WC_REM_ABORT_ERR]) s, [])
  end.

(** The calls a received MAD makes of [abort_send] and [nack_recv]. *)
Definition abort_nack (m : in_mad) (rmpp_status : Z) (s : sends) : option (sends * list effect) :=
  '(s, out) ← abort_send m s; Some (s, out ++ [NackSent m rmpp_status]).

(** The numbers in an acknowledgement are read into [int]. *)
Definition process_rmpp_ack (m : in_mad) (env : post_env) (s : sends)
    : option (sends * list effect) :=
  status_ ← arr_get m.(in_bytes) RMPP_STATUS_OFF;
  if c_true status_ then abort_nack m IB_MGMT_RMPP_STATUS_BAD_STATUS s else
  n ← be_get m.(in_bytes) RMPP_SEG_NUM_OFF 4;
  win ← be_get m.(in_bytes) RMPP_PAYLEN_OFF 4;
  let n := s32 n in
  let win := s32 win in
  if win <? n then abort_nack m IB_MGMT_RMPP_STATUS_W2S s else
  f ← ib_find_send_mad s m;
  match f with
  | None => Some (s, if negb (c_true n) then [DsWindow m win] else [])
  | Some id =>
      r ← s.(reqs) !! id;
      let w := r.(wr) in
      let count := w.(send_buf).(seg_count) in
      if (w.(ctl).(last_ack) =? count) && c_true w.(timeout) then Some (s, [DsAck m]) else
      if (w.(ctl).(last_ack) =? count) || negb (c_true w.(timeout)) || negb (w.(status) =? IB_WC_SUCCESS)
      then Some (s, []) else
      if (count <? n) || (w.(ctl).(newwin) <? n)
      then Some (set_calls (s.(calls) ++ [Abort m IB_MGMT_RMPP_STATUS_S2B]) s, []) else
      if (win <? w.(ctl).(newwin)) || (n <? w.(ctl).(last_ack)) then Some (s, []) else
      w ← (if w.(ctl).(last_ack) <? n then
             c ← adjust_last_ack n w.(ctl); Some (set_retries_left w.(max_retries) (set_ctl c w))
           else Some w);
      let w := set_ctl (set_newwin win w.(ctl)) w in
      s ← store id w s;
      if w.(ctl).(last_ack) =? count then
        if negb (c_true w.(send_buf).(timeout_ms)) then
          s ← ib_mark_mad_done id s;
          Some (set_calls (s.(calls) ++ [Complete id IB_WC_SUCCESS]) s, [])
        else
          s ← (if w.(refcount) =? 1 then ib_reset_mad_timeout id w.(send_buf).(timeout_ms) s else Some s);
          Some (s, [DsAck m])
      else if (w.(refcount) =? 1) && (w.(ctl).(seg_num) <? win) && (w.(ctl).(seg_num) <? count) then
        '(w, ret, out) ← send_next_seg msecs_to_jiffies head_num w env;
        s ← store id w s;
        if c_true ret then Some (s, []) else
        s ← store id (set_refcount (w.(refcount) + 1) w) s;
        s ← fly id (to_send_list id s);
        Some (s, sent_effect id out)
      else Some (s, [])
  end.

Definition process_rmpp_stop (m : in_mad) (s : sends) : option (sends * list effect) :=
  st ← arr_get m.(in_bytes) RMPP_STATUS_OFF;
  if negb (st =? IB_MGMT_RMPP_STATUS_RESX) then abort_nack m IB_MGMT_RMPP_STATUS_BAD_STATUS s
  else abort_send m s.

Definition process_rmpp_abort (m : in_mad) (s : sends) : option (sends * list effect) :=
  st ← arr_get m.(in_bytes) RMPP_STATUS_OFF;
  if (st <? IB_MGMT_RMPP_STATUS_ABORT_MIN) || (IB_MGMT_RMPP_STATUS_ABORT_MAX <? st)
  then abort_nack m IB_MGMT_RMPP_STATUS_BAD_STATUS s
  else abort_send m s.

(** [data] is what [process_rmpp_data] answers: the first MAD of a message that
    is complete. The MAD left to deliver is answered too. *)
Definition ib_process_rmpp_recv_wc (m : in_mad) (data : option in_mad) (env : post_env) (s : sends)
    : option (sends * list effect * option in_mad) :=
  flags ← arr_get m.(in_bytes) RMPP_FLAGS_OFF;
  if negb (c_true (Z.land flags IB_MGMT_RMPP_FLAG_ACTIVE)) then Some (s, [], Some m) else
  version ← arr_get m.(in_bytes) RMPP_VERSION_OFF;
  t ← rmpp_type m.(in_bytes);
  if negb (version =? IB_MGMT_RMPP_VERSION)
  then '(s, out) ← abort_nack m IB_MGMT_RMPP_STATUS_UNV s; Some (s, out, None)
  else if t =? IB_MGMT_RMPP_TYPE_DATA then Some (s, [], data)
  else if t =? IB_MGMT_RMPP_TYPE_ACK then '(s, out) ← process_rmpp_ack m env s; Some (s, out, None)
  else if t =? IB_MGMT_RMPP_TYPE_STOP then '(s, out) ← process_rmpp_stop m s; Some (s, out, None)
  else if t =? IB_MGMT_RMPP_TYPE_ABORT then '(s, out) ← process_rmpp_abort m s; Some (s, out, None)
  else '(s, out) ← abort_nack m IB_MGMT_RMPP_STATUS_BADT s; Some (s, out, None).

(** [security] is the answer of [ib_mad_enforce_security]. A MAD that is not
    for anybody is dropped. *)
Definition ib_mad_complete_recv (m : in_mad) (security : Z) (data : option in_mad) (env : post_env)
    (s : sends) : option (sends * list effect) :=
  if c_true security then Some (s, []) else
  '(s, out, rest) ← (if ib_mad_kernel_rmpp_agent a then ib_process_rmpp_recv_wc m data env s
                     else Some (s, [], Some m));
  match rest with
  | None => Some (s, out)
  | Some m =>
      resp ← ib_response_mad m.(in_bytes);
      if negb resp then Some (s, out ++ [Unsolicited m]) else
      f ← ib_find_send_mad s m;
      match f with
      | None =>
          class ← mad_class m.(in_bytes);
          flags ← arr_get m.(in_bytes) RMPP_FLAGS_OFF;
          let user := negb (ib_mad_kernel_rmpp_agent a) && ib_is_mad_class_rmpp class &&
                      c_true (Z.land (Z.land flags 7) IB_MGMT_RMPP_FLAG_ACTIVE) in
          Some (s, out ++ if user then [Unsolicited m] else [])
      | Some id =>
          s ← ib_mark_mad_done id s;
          Some (set_calls (s.(calls) ++ [Complete id IB_WC_SUCCESS]) s, out ++ [Response id m])
      end
  end.

(** ** Modification and cancellation *)

(** Both lists are searched for the request itself. *)
Definition find_send_wr (id : Z) (s : sends) : option (option Z) :=
  if decide (id ∈ s.(wait_list)) then Some (Some id) else
  if decide (id ∈ s.(send_list)) then
    r ← s.(reqs) !! id;
    d ← is_rmpp_data_mad r.(wr).(send_buf).(mad);
    Some (if d : bool then Some id else None)
  else Some None.

(** Without requests under SA congestion control, one that is not found is an
    error. [timeout_ms] is unsigned here and an [int] in the buffer. *)
Definition ib_modify_mad (id ms : Z) (s : sends) : option (sends * list effect) :=
  f ← find_send_wr id s;
  match f with
  | None => Some (s, [Modified id (- EINVAL)])
  | Some _ =>
      r ← s.(reqs) !! id;
      let w := r.(wr) in
      if negb (w.(status) =? IB_WC_SUCCESS) then Some (s, [Modified id (- EINVAL)]) else
      let active := negb (c_true w.(timeout)) || (1 <? w.(refcount)) in
      let w := if ms =? 0
               then set_refcount (w.(refcount) - c_bool (0 <? w.(timeout))) (set_status IB_WC_WR_FLUSH_ERR w)
               else w in
      let w := set_buf (set_timeout_ms (s32 ms) w.(send_buf)) w in
      s ← (if active then store id (set_timeout (to_jiffies ms) w) s
           else s ← store id w s; ib_reset_mad_timeout id ms s);
      Some (s, [Modified id 0])
  end.

(** [cancel_mads] on the requests of the send list. *)
Definition cancel_one (w : send_wr) : send_wr :=
  if w.(status) =? IB_WC_SUCCESS
  then set_refcount (w.(refcount) - c_bool (0 <? w.(timeout))) (set_status IB_WC_WR_FLUSH_ERR w) else w.

Fixpoint cancel_sends (l : list Z) (s : sends) : option sends :=
  match l with
  | [] => Some s
  | id :: l => r ← s.(reqs) !! id; s ← store id (cancel_one r.(wr)) s; cancel_sends l s
  end.

Definition report_flushed (s : sends) (l : list Z) : option (sends * list effect) :=
  if decide (Forall (fun id => is_Some (s.(reqs) !! id)) l)
  then Some (foldr drop_req s l, (fun id => Report id IB_WC_WR_FLUSH_ERR) <$> l) else None.

(** The requests waiting for a response are reported at once, the others when
    the hardware gives them back. *)
Definition cancel_mads (s : sends) : option (sends * list effect) :=
  s ← cancel_sends s.(send_list) s;
  let l := s.(wait_list) in
  report_flushed (set_lists s.(send_list) [] s.(done_list) s) l.

(** ** Timeouts *)

(** What it answers, and the request it has changed. *)
Definition retry_send (w : send_wr) (env : post_env) : option (send_wr * Z * option (list Z)) :=
  if negb (c_true w.(retries_left)) then Some (w, - ETIMEDOUT, None) else
  let b := w.(send_buf) in
  let w := set_buf (set_retries (b.(retries) + 1) b) (set_retries_left (w.(retries_left) - 1) w) in
  let w := set_timeout (to_jiffies b.(timeout_ms)) w in
  '(w, ret, out) ← (if ib_mad_kernel_rmpp_agent a then
      '(w, ret, out) ← ib_retry_rmpp w env;
      if ret =? IB_RMPP_RESULT_UNHANDLED then ib_send_mad head_num w env
      else Some (w, if ret =? IB_RMPP_RESULT_CONSUMED then 0 else - ECOMM, out)
    else ib_send_mad head_num w env);
  Some (if negb (c_true ret) then set_refcount (w.(refcount) + 1) w else w, ret, out).

(** One round of the loop of [timeout_sends]. *)
Definition timeout_sends (env : post_env) (s : sends) : option (sends * list effect) :=
  match s.(wait_list) with
  | [] => Some (set_worker false s, [])
  | id :: _ =>
      r ← s.(reqs) !! id;
      let w := r.(wr) in
      if time_after w.(timeout) s.(jiffies) then
        let due := s.(jiffies) + Z.max 1 (w.(timeout) - s.(jiffies)) in
        let s := if s.(timer) then s else set_timer (Some due) s in
        Some (set_worker false s, [])
      else
        let s := unlink id s in
        if w.(status) =? IB_WC_SUCCESS then
          '(w, ret, out) ← retry_send w env;
          if negb (c_true ret) then
            s ← store id w s;
            s ← fly id s;
            Some (set_lists (s.(send_list) ++ [id]) s.(wait_list) s.(done_list) s, sent_effect id out)
          else Some (drop_req id s, [Report id IB_WC_RESP_TIMEOUT_ERR])
        else Some (drop_req id s, [Report id w.(status)])
  end.

(** ** Steps *)

Inductive event :=
  | Post (id : Z) (w : send_wr) (p : post_in)
  | HwDone (id st : Z)
  | Call (k : nat) (env : post_env)
  | Receive (m : in_mad) (security : Z) (data : option in_mad) (env : post_env)
  | Modify (id ms : Z)
  | Tick (d : Z)
  | TimerFires
  | TimeoutSends (env : post_env)
  | CancelMads.

(** [Call k] makes the [k]th call that is due. *)
Definition step (s : sends) (e : event) : option (sends * list effect) :=
  match e with
  | Post id w p => ib_post_send_mad id w p s
  | HwDone id st =>
      Some (set_calls (s.(calls) ++ [Complete id st]) (set_flights (without id s.(flights)) s), [])
  | Call k env =>
      c ← s.(calls) !! k;
      let s := set_calls (delete k s.(calls)) s in
      match c with
      | Complete id st => ib_mad_complete_send_wr id st env s
      | Abort m rmpp_status => abort_nack m rmpp_status s
      end
  | Receive m security data env => ib_mad_complete_recv m security data env s
  | Modify id ms => ib_modify_mad id ms s
  | Tick d => Some (set_jiffies (s.(jiffies) + d) s, [])
  | TimerFires => Some (set_worker true (set_timer None s), [])
  | TimeoutSends env => timeout_sends env s
  | CancelMads => cancel_mads s
  end.

Fixpoint run (s : sends) (evs : list event) : option (sends * list effect) :=
  match evs with
  | [] => Some (s, [])
  | e :: evs => '(s, out) ← step s e; '(s, out') ← run s evs; Some (s, out ++ out')
  end.
End agent.
