(* ===== verification/MadSendSafe.v ===== *)
(** The life of a send request, proved: the contract of an agent's surroundings,
    the invariant of its requests and queues, that every step of MadSend.v keeps
    it, and what follows for whole traces.

    A request counts its users: the hardware that has it, the calls that are due
    for it, and the response it waits for. The invariant says that its reference
    count is their number, on which list it is, and that its message can be
    sent. Each step changes one request ([frame]), except cancellation. *)

From stdpp Require Import sorting.
From S2P Require Import Prelude Packer Bytes RmppRecv RmppSend MadSend.
#[local] Open Scope Z_scope.

(** ** The contract of an agent's surroundings *)

(** What the DMA mapping and the hardware may answer: an error is negative. *)
Definition env_ok (env : post_env) : Prop := post_result env <= 0.

(** A buffer that holds the headers the code looks at. *)
Definition mad_room (m : list Z) : Prop := IB_MGMT_RMPP_HDR <= Z.of_nat (length m).

(** The states of a transfer: what was sent and what was acknowledged. *)
Record rmpp_pos (w : send_wr) : Prop := {
  rp_seg : 0 <= w.(ctl).(seg_num) <= w.(send_buf).(seg_count);
  rp_ack : 0 <= w.(ctl).(last_ack) <= w.(send_buf).(seg_count);
  rp_ack_seg : w.(ctl).(last_ack_seg) = Z.max 0 (w.(ctl).(last_ack) - 1)
}.

(** A MAD sent as one datagram. *)
Record plain (w : send_wr) : Prop := {
  pl_count : w.(send_buf).(seg_count) = 0;
  pl_ack : w.(ctl).(last_ack) = 0;
  pl_hdr : 0 <= w.(send_buf).(hdr_len);
  pl_sge : 0 <= w.(sge_len);
  pl_room : w.(send_buf).(hdr_len) + w.(sge_len) <= Z.of_nat (length w.(send_buf).(mad))
}.

Definition int_range (z : Z) : Prop := - 2 ^ 31 <= z < 2 ^ 31.

Section invariant.
Variables (a : mad_agent) (msecs_to_jiffies : Z -> Z) (head_num : Z).

(** The order of the wait list holds as long as no acknowledgement fails to
    send the next segment; [in_order] tells whether this is assumed. *)
Variable in_order : Prop.

Definition is_rmpp (w : send_wr) : bool :=
  ib_mad_kernel_rmpp_agent a && default false (rmpp_active w.(send_buf).(mad)).

(** What [ib_create_send_mad] and the client make of a buffer to post. *)
Record postable (w : send_wr) : Prop := {
  po_room : mad_room w.(send_buf).(mad);
  po_range : int_range w.(send_buf).(timeout_ms);
  po_rmpp : is_rmpp w = true -> ready w /\ w.(ctl).(seg_num) = 0 /\ w.(ctl).(last_ack) = 0 /\
    w.(ctl).(last_ack_seg) = 0;
  po_plain : is_rmpp w = false -> plain w
}.

(** When an event can come: buffers are posted when the client has them, the
    hardware gives back what it has, timers fire when they are due, and a
    timeout is not put back on a request whose response has arrived. *)
Definition enabled (s : sends) (e : event) : Prop :=
  match e with
  | Post id w p => s.(reqs) !! id = None /\ postable w /\ env_ok p.(p_env)
  | HwDone id _ => id ∈ s.(flights)
  | Call k env => (k < length s.(calls))%nat /\ env_ok env
  | Receive m _ data env => mad_room m.(in_bytes) /\ (forall d, data = Some d -> mad_room d.(in_bytes)) /\
      env_ok env /\ (in_order -> post_result env = 0)
  | Modify id ms => 0 <= ms < 2 ^ 32 /\
      (forall r, s.(reqs) !! id = Some r -> r.(wr).(status) = IB_WC_SUCCESS -> ms <> 0 -> 0 < r.(wr).(timeout))
  | Tick d => 0 <= d
  | TimerFires => s.(worker) = false /\ exists t, s.(timer) = Some t /\ t <= s.(jiffies)
  | TimeoutSends env => s.(worker) = true /\ env_ok env
  | CancelMads => True
  end.

(** ** The invariant *)

Definition awaiting (w : send_wr) : bool := (w.(status) =? IB_WC_SUCCESS) && (0 <? w.(timeout)).

Definition in_flight (s : sends) (id : Z) : Z := c_bool (bool_decide (id ∈ s.(flights))).

Definition completes (id : Z) (c : call) : Prop :=
  match c with Complete i _ => i = id | Abort _ _ => False end.
#[local] Instance completes_dec id c : Decision (completes id c).
Proof. destruct c; cbn; apply _. Defined.

Definition due (s : sends) (id : Z) : Z := Z.of_nat (length (filter (completes id) s.(calls))).

(** How often the code will come back to a request. *)
Definition uses (s : sends) (id : Z) : Z := in_flight s id + due s id.

Record msg_ok (w : send_wr) : Prop := {
  mo_room : mad_room w.(send_buf).(mad);
  mo_range : int_range w.(send_buf).(timeout_ms);
  mo_rmpp : is_rmpp w = true -> ready w /\ rmpp_pos w;
  mo_plain : is_rmpp w = false -> plain w;
  mo_timeout : 0 <= w.(timeout);
  mo_await : awaiting w = true ->
    (is_rmpp w = true -> w.(ctl).(last_ack) = w.(send_buf).(seg_count)) -> w.(send_buf).(timeout_ms) <> 0
}.

(** Which list a request is on. *)
Inductive place (s : sends) (id : Z) (w : send_wr) : Prop :=
  | Waits : id ∈ s.(wait_list) -> uses s id = 0 -> (w.(status) = IB_WC_SUCCESS -> 0 < w.(timeout)) -> place s id w
  | Sends : id ∈ s.(send_list) -> 1 <= uses s id -> place s id w
  | Done : id ∈ s.(done_list) -> 1 <= uses s id -> w.(timeout) = 0 -> place s id w.

Record req_ok (s : sends) (id : Z) (w : send_wr) : Prop := {
  ro_msg : msg_ok w;
  ro_ref : w.(refcount) = uses s id + c_bool (awaiting w);
  ro_one : awaiting w = true -> uses s id <= 1;
  ro_place : place s id w
}.

(** The deadline of a request. *)
Definition deadline (s : sends) (id : Z) : Z := from_option (fun r => r.(wr).(timeout)) 0 (s.(reqs) !! id).

(** Not earlier, among the deadlines still to come. *)
Definition by_then (s : sends) (x y : Z) : Prop := deadline s x <= Z.max (deadline s y) s.(jiffies).

(** The queues themselves: the wait list is in order of deadline, and the timer
    is set for the first one. *)
Record queues_ok (s : sends) : Prop := {
  qo_lists : NoDup (s.(send_list) ++ s.(wait_list) ++ s.(done_list));
  qo_flights : NoDup s.(flights);
  qo_calls : Forall (fun c => match c with Complete _ _ => True | Abort m _ => mad_room m.(in_bytes) end) s.(calls);
  qo_sorted : in_order -> StronglySorted (by_then s) s.(wait_list);
  qo_timer : in_order -> forall t id, s.(timer) = Some t -> id ∈ s.(wait_list) -> t <= Z.max (deadline s id) s.(jiffies);
  qo_armed : s.(wait_list) <> [] -> s.(worker) = true \/ is_Some s.(timer);
  qo_agent : s.(agent_timeout) = 0;
  qo_now : 0 <= s.(jiffies)
}.

(** Nothing refers to a request that is gone. *)
Definition absent (s : sends) (id : Z) : Prop :=
  uses s id = 0 /\ id ∉ s.(send_list) /\ id ∉ s.(wait_list) /\ id ∉ s.(done_list).

Definition one_ok (s : sends) (id : Z) : Prop :=
  match s.(reqs) !! id with Some r => req_ok s id r.(wr) | None => absent s id end.

Definition sends_ok (s : sends) : Prop := queues_ok s /\ forall id, one_ok s id.

Definition sends_init (now : Z) : sends := mk_sends ∅ [] [] [] [] [] now None 0 false.

(** ** Lists *)

Lemma elem_of_without x id l : x ∈ without id l <-> x <> id /\ x ∈ l.
Proof. unfold without. rewrite list_elem_of_filter. done. Qed.

Lemma without_absent id l : id ∉ l -> without id l = l.
Proof.
  intros Hl. unfold without. induction l as [|x l IH]; [done|].
  rewrite filter_cons_True by set_solver. rewrite IH by set_solver. done.
Qed.

Lemma NoDup_without id l : NoDup l -> NoDup (without id l).
Proof. apply list.NoDup_filter. Qed.

Lemma StronglySorted_filter {A} (R : A -> A -> Prop) (P : A -> Prop) `{!forall x, Decision (P x)} l :
  StronglySorted R l -> StronglySorted R (filter P l).
Proof.
  induction 1 as [|x l Hl IH Hx]; [constructor|]. destruct (decide (P x)).
  - rewrite filter_cons_True by done. constructor; [done|]. apply list.Forall_forall.
    intros y [_ Hy]%list_elem_of_filter. rewrite list.Forall_forall in Hx. by apply Hx.
  - by rewrite filter_cons_False.
Qed.

Lemma StronglySorted_ext {A} (R R' : A -> A -> Prop) l :
  (forall x y, x ∈ l -> y ∈ l -> R x y -> R' x y) -> StronglySorted R l -> StronglySorted R' l.
Proof.
  intros HR Hl. induction Hl as [|x l Hl IH Hx]; [constructor|].
  constructor; [apply IH; set_solver|]. rewrite list.Forall_forall in *.
  intros y Hy. apply HR; [set_solver|set_solver|by apply Hx].
Qed.

(** ** One request changes *)

Record frame (id : Z) (s s' : sends) : Prop := {
  fr_reqs : forall x, x <> id -> s'.(reqs) !! x = s.(reqs) !! x;
  fr_uses : forall x, x <> id -> uses s' x = uses s x;
  fr_send : forall x, x <> id -> x ∈ s'.(send_list) <-> x ∈ s.(send_list);
  fr_wait : forall x, x <> id -> x ∈ s'.(wait_list) <-> x ∈ s.(wait_list);
  fr_done : forall x, x <> id -> x ∈ s'.(done_list) <-> x ∈ s.(done_list)
}.

Lemma req_frame_refl id s : frame id s s.
Proof. done. Qed.

Lemma req_frame_trans id s1 s2 s3 : frame id s1 s2 -> frame id s2 s3 -> frame id s1 s3.
Proof.
  intros [R1 U1 S1 W1 D1] [R2 U2 S2 W2 D2].
  split; intros x Hx; [rewrite R2, R1|rewrite U2, U1|rewrite S2, S1|rewrite W2, W1|rewrite D2, D1]; done.
Qed.

Lemma frame_one id s s' x : frame id s s' -> x <> id -> one_ok s x -> one_ok s' x.
Proof.
  intros [HR HU HS HW HD] Hx. unfold one_ok. rewrite HR by done.
  destruct (reqs s !! x) as [r|]; intros H.
  - destruct H as [Hm Hr Ho Hp]. split; rewrite ?HU by done; try done.
    destruct Hp as [Hin H0 H1|Hin H1|Hin H1 H2]; [apply Waits|apply Sends|apply Done];
      rewrite ?HU, ?HS, ?HW, ?HD; done.
  - unfold absent in *. rewrite HU, HS, HW, HD; done.
Qed.

(** An event that touches one request keeps the invariant if that one is well
    after it and so are the queues. *)
Lemma frame_ok id s s' : sends_ok s -> frame id s s' -> queues_ok s' -> one_ok s' id -> sends_ok s'.
Proof.
  intros [_ H] Hf Hq Hi. split; [done|]. intros x. destruct (decide (x = id)) as [->|Hx]; [done|].
  by eapply frame_one.
Qed.

Lemma uses_flights s s' x : s'.(flights) = s.(flights) -> s'.(calls) = s.(calls) -> uses s' x = uses s x.
Proof. intros Hf Hc. unfold uses, in_flight, due. by rewrite Hf, Hc. Qed.

Lemma due_app s l x :
  due (set_calls (s.(calls) ++ l) s) x = due s x + Z.of_nat (length (filter (completes x) l)).
Proof. unfold due. cbn [calls set_calls]. rewrite list.filter_app, length_app. lia. Qed.

(** ** The parts of a step *)

Lemma store_some s id r w :
  s.(reqs) !! id = Some r -> store id w s = Some (set_reqs (<[id := mk_req w r.(req_tid)]> s.(reqs)) s).
Proof. intros E. unfold store. by rewrite E. Qed.

Lemma store_twice id r1 r2 m s :
  set_reqs (<[id := r1]> (set_reqs (<[id := r2]> m) s).(reqs)) (set_reqs (<[id := r2]> m) s) =
  set_reqs (<[id := r1]> m) s.
Proof. unfold set_reqs. cbn. by rewrite insert_insert_eq. Qed.

Lemma frame_reqs id s m :
  (forall x, x <> id -> m !! x = s.(reqs) !! x) -> frame id s (set_reqs m s).
Proof. done. Qed.

Lemma frame_insert id r s : frame id s (set_reqs (<[id := r]> s.(reqs)) s).
Proof. apply frame_reqs. intros x Hx. by rewrite lookup_insert_ne. Qed.

Lemma frame_drop id s : frame id s (drop_req id s).
Proof. apply frame_reqs. intros x Hx. by rewrite lookup_delete_ne. Qed.

Lemma frame_unlink id s : frame id s (unlink id s).
Proof. split; intros x Hx; try done; cbn; rewrite elem_of_without; naive_solver. Qed.

Lemma frame_send id s : frame id s (to_send_list id s).
Proof.
  split; intros x Hx; try done; cbn; rewrite ?list.elem_of_app, elem_of_without; try naive_solver.
  rewrite list_elem_of_singleton. naive_solver.
Qed.

Lemma frame_done id s : frame id s (to_done_list id s).
Proof.
  split; intros x Hx; try done; cbn; rewrite ?list.elem_of_app, elem_of_without; try naive_solver.
  rewrite list_elem_of_singleton. naive_solver.
Qed.

Lemma frame_complete id st s : frame id s (set_calls (s.(calls) ++ [Complete id st]) s).
Proof.
  split; intros x Hx; try done. unfold uses. rewrite due_app.
  rewrite filter_cons_False by (cbn; congruence). cbn [length]. unfold in_flight, set_calls; cbn. lia.
Qed.

Lemma fly_some id s : id ∉ s.(flights) -> fly id s = Some (set_flights (s.(flights) ++ [id]) s).
Proof. intros H. unfold fly. by rewrite decide_False. Qed.

Lemma frame_fly id s : frame id s (set_flights (s.(flights) ++ [id]) s).
Proof.
  split; intros x Hx; try done. unfold uses, in_flight, due. cbn. f_equal. f_equal.
  apply bool_decide_ext. rewrite list.elem_of_app, list_elem_of_singleton. naive_solver.
Qed.

Lemma frame_queues id s timer_ t w :
  frame id s (set_worker w (set_agent_timeout t (set_timer timer_ s))).
Proof. done. Qed.

(** ** Queues *)

Lemma queues_reqs s m :
  queues_ok s -> (forall x, x ∈ s.(wait_list) -> deadline (set_reqs m s) x = deadline s x) ->
  queues_ok (set_reqs m s).
Proof.
  intros [] Hd. split; try done; cbn.
  - intros Ho. eapply StronglySorted_ext; [|by apply qo_sorted0]. intros x y Hx Hy. unfold by_then. cbn. by rewrite !Hd.
  - intros Ho t id Ht Hi. rewrite Hd by done. by apply qo_timer0.
Qed.

Lemma queues_lists s snd wait done_ :
  queues_ok s -> NoDup (snd ++ wait ++ done_) -> (in_order -> StronglySorted (by_then s) wait) ->
  (forall x, x ∈ wait -> x ∈ s.(wait_list)) -> queues_ok (set_lists snd wait done_ s).
Proof.
  intros [] Hn Hs Hw. split; try done; cbn.
  - intros Ho t id Ht Hi. apply qo_timer0; auto.
  - intros He. apply qo_armed0. intros E. destruct wait as [|x ?]; [done|].
    specialize (Hw x ltac:(set_solver)). rewrite E in Hw. set_solver.
Qed.

Lemma queues_unlink id s : queues_ok s -> queues_ok (unlink id s).
Proof.
  intros Hq. apply queues_lists; [done| | |].
  - unfold without. rewrite <- !list.filter_app. by apply NoDup_without, Hq.
  - intros Ho. by apply StronglySorted_filter, Hq.
  - intros x [_ Hx]%elem_of_without. done.
Qed.

(** Off the lists, a request may change as it likes. *)
Lemma queues_unlink_insert id r s :
  queues_ok s -> queues_ok (unlink id (set_reqs (<[id := r]> s.(reqs)) s)).
Proof.
  intros Hq. apply (queues_reqs (unlink id s)); [by apply queues_unlink|].
  intros x [Hx _]%elem_of_without. unfold deadline. cbn [reqs set_reqs]. by rewrite lookup_insert_ne.
Qed.

Lemma NoDup_extra (id : Z) l l' : l' ≡ₚ id :: l -> id ∉ l -> NoDup l -> NoDup l'.
Proof. intros -> Hi Hl. by apply list.NoDup_cons. Qed.

Lemma unlink_absent id s :
  id ∉ (unlink id s).(send_list) /\ id ∉ (unlink id s).(wait_list) /\ id ∉ (unlink id s).(done_list).
Proof. cbn. rewrite !elem_of_without. naive_solver. Qed.

Lemma unlink_lists id s :
  id ∉ (unlink id s).(send_list) ++ (unlink id s).(wait_list) ++ (unlink id s).(done_list).
Proof. pose proof (unlink_absent id s). rewrite !list.elem_of_app. naive_solver. Qed.

Lemma queues_append id s :
  queues_ok s -> id ∉ s.(send_list) ++ s.(wait_list) ++ s.(done_list) ->
  queues_ok (set_lists (s.(send_list) ++ [id]) s.(wait_list) s.(done_list) s) /\
  queues_ok (set_lists s.(send_list) s.(wait_list) (s.(done_list) ++ [id]) s).
Proof.
  intros Hq Hi. split; (apply queues_lists; [done| |apply Hq|done]);
    (eapply (NoDup_extra id); [|exact Hi|apply Hq]; solve_Permutation).
Qed.

Lemma queues_send id s : queues_ok (unlink id s) -> queues_ok (to_send_list id s).
Proof. intros Hq. apply (queues_append id (unlink id s) Hq), unlink_lists. Qed.

Lemma queues_done id s : queues_ok (unlink id s) -> queues_ok (to_done_list id s).
Proof. intros Hq. apply (queues_append id (unlink id s) Hq), unlink_lists. Qed.

Lemma queues_flights s l : queues_ok s -> NoDup l -> queues_ok (set_flights l s).
Proof. by intros []. Qed.

Lemma queues_fly id s : queues_ok s -> id ∉ s.(flights) -> queues_ok (set_flights (s.(flights) ++ [id]) s).
Proof.
  intros Hq Hi. apply queues_flights; [done|]. eapply NoDup_extra; [|exact Hi|apply Hq]. solve_Permutation.
Qed.

Lemma queues_complete id st s : queues_ok s -> queues_ok (set_calls (s.(calls) ++ [Complete id st]) s).
Proof. intros []. split; try done. apply list.Forall_app. auto. Qed.

(** ** Waiting *)

Lemma deadline_some s id r : s.(reqs) !! id = Some r -> deadline s id = r.(wr).(timeout).
Proof. intros E. unfold deadline. by rewrite E. Qed.

Lemma insert_wait_ok s id t l :
  (forall x, x ∈ l -> is_Some (s.(reqs) !! x)) ->
  exists l1 l2, l = l1 ++ l2 /\ insert_wait s id t l = Some (l1 ++ id :: l2) /\
    (forall x, x ∈ l1 -> t <= deadline s x) /\ (forall x, head l2 = Some x -> deadline s x < t).
Proof.
  induction l as [|x l IH]; intros Hl; cbn [insert_wait].
  - exists [], []. split; [done|]. split; [done|]. split; [set_solver|done].
  - destruct (Hl x ltac:(set_solver)) as [r Hr]. rewrite Hr. cbn [mbind option_bind].
    unfold time_after. destruct (Z.ltb_spec (timeout (wr r)) t).
    + exists [], (x :: l). repeat (split; [done|]). split; [set_solver|]. intros y [= <-].
      by rewrite (deadline_some _ _ _ Hr).
    + destruct IH as (l1 & l2 & -> & -> & H1 & H2); [set_solver|]. exists (x :: l1), l2.
      repeat (split; [done|]). split; [|done]. intros y [->|Hy]%elem_of_cons; [|auto].
      rewrite (deadline_some _ _ _ Hr). lia.
Qed.

Lemma head_last_reverse {A} (l1 l2 : list A) x : head l2 = Some x -> exists l, reverse l2 ++ l1 = l ++ x :: l1.
Proof. destruct l2 as [|y l2]; intros [= ->]. exists (reverse l2). rewrite reverse_cons, <- (assoc_L (++)). done. Qed.

(** Putting a request whose deadline is not over on the wait list. *)
Lemma queues_insert s id wait l1 l2 :
  queues_ok s -> id ∉ s.(send_list) ++ s.(wait_list) ++ s.(done_list) ->
  s.(wait_list) = reverse l2 ++ reverse l1 -> wait = reverse l2 ++ id :: reverse l1 ->
  (forall x, x ∈ l1 -> by_then s id x) ->
  (forall x, head l2 = Some x -> by_then s x id) ->
  let s' := set_lists s.(send_list) wait s.(done_list) s in
  queues_ok (if decide (head wait = Some id) then set_timer (Some (Z.max (deadline s id) s.(jiffies))) s' else s').
Proof.
  intros [] Hi Hw -> H1 H2. set (A := reverse l1) in *. set (B := reverse l2) in *. rewrite Hw in *.
  assert (HB : in_order -> forall z, z ∈ B -> by_then s z id).
  { intros Ho z Hz. specialize (qo_sorted0 Ho). destruct (head l2) as [x|] eqn:Ex; [|destruct l2; [set_solver|done]].
    specialize (H2 x eq_refl). destruct l2 as [|y l2]; [done|]. injection Ex as ->.
    subst B. rewrite reverse_cons in *. apply list.elem_of_app in Hz as [Hz| ->%list_elem_of_singleton]; [|done].
    apply StronglySorted_app in qo_sorted0 as (_ & Hs & _). apply StronglySorted_app in Hs as (Hs & _).
    specialize (Hs z x Hz ltac:(set_solver)). unfold by_then in *. lia. }
  assert (HA : forall y, y ∈ A -> by_then s id y) by (intros y Hy; apply H1; by apply elem_of_reverse).
  assert (Hn : NoDup (s.(send_list) ++ (B ++ id :: A) ++ s.(done_list))).
  { eapply (NoDup_extra id); [|exact Hi|done]. solve_Permutation. }
  assert (Hs : in_order -> StronglySorted (by_then s) (B ++ id :: A)).
  { intros Ho. specialize (HB Ho). specialize (qo_sorted0 Ho). apply StronglySorted_app in qo_sorted0 as (Hba & Hb & Ha). apply StronglySorted_app. split_and!; [|done|].
    - intros z y Hz [->|Hy]%elem_of_cons; [by apply HB|]. by apply Hba.
    - constructor; [done|]. apply list.Forall_forall. exact HA. }
  case_decide as Eh.
  - assert (B = []) as EB.
    { destruct B as [|b B']; [done|]. cbn in Eh. injection Eh as ->. exfalso. apply Hi. set_solver. }
    rewrite EB in *. split; try done; cbn.
    + intros Ho t y [= <-] [->|Hy]%elem_of_cons; [done|]. specialize (HA y Hy).
      unfold by_then in HA. apply Z.max_lub; [exact HA|apply Z.le_max_r].
    + intros _. right. eauto.
  - split; try done; cbn.
    + intros Ho t y Ht Hy. specialize (qo_timer0 Ho). destruct (decide (y = id)) as [->|Hne]; [|apply qo_timer0; set_solver].
      destruct B as [|b B']; [by destruct Eh|]. specialize (HB Ho b ltac:(set_solver)).
      specialize (qo_timer0 t b Ht ltac:(set_solver)). unfold by_then in HB.
      etrans; [exact qo_timer0|]. apply Z.max_lub; [exact HB|apply Z.le_max_r].
    + intros _. apply qo_armed0. destruct B; [by destruct Eh|done].
Qed.

(** A request waits for its response: its timeout becomes a deadline. *)
Lemma wait_for_response_ok id s r :
  queues_ok (unlink id s) -> (forall x, x ∈ s.(wait_list) -> x <> id -> is_Some (s.(reqs) !! x)) ->
  s.(reqs) !! id = Some r -> 0 <= r.(wr).(timeout) ->
  exists s', wait_for_response id s = Some s' /\ queues_ok s' /\ frame id s s' /\
    s'.(reqs) !! id = Some (mk_req (set_timeout (r.(wr).(timeout) + s.(jiffies)) r.(wr)) r.(req_tid)) /\
    id ∈ s'.(wait_list) /\ uses s' id = uses s id.
Proof.
  intros Hq Hlive Hr Ht. unfold wait_for_response. rewrite Hr. cbn [mbind option_bind].
  set (t := timeout (wr r) + s.(jiffies)). change (jiffies (unlink id s)) with s.(jiffies). fold t.
  rewrite (store_some (unlink id s) id r) by exact Hr. cbn [mbind option_bind].
  set (s1 := set_reqs _ (unlink id s)).
  assert (Hr1 : s1.(reqs) !! id = Some (mk_req (set_timeout t (wr r)) (req_tid r))) by apply lookup_insert_eq.
  assert (Hq1 : queues_ok s1).
  { apply queues_reqs; [done|]. intros x [Hx _]%elem_of_without.
    unfold deadline. cbn [reqs set_reqs]. by rewrite lookup_insert_ne. }
  assert (Hf1 : frame id s s1) by (eapply req_frame_trans; [apply frame_unlink|apply frame_insert]).
  pose proof (unlink_lists id s : id ∉ s1.(send_list) ++ s1.(wait_list) ++ s1.(done_list)) as Hi1.
  assert (Hd1 : deadline s1 id = t) by (by rewrite (deadline_some _ _ _ Hr1)).
  pose proof (qo_now _ Hq) as Hnow. cbn in Hnow.
  assert (Hins : exists l1 l2, s1.(wait_list) = reverse l2 ++ reverse l1 /\
    (if c_true (timeout (wr r)) then reverse <$> insert_wait s1 id t (reverse s1.(wait_list))
     else Some (id :: s1.(wait_list))) = Some (reverse l2 ++ id :: reverse l1) /\
    (forall x, x ∈ l1 -> by_then s1 id x) /\ (forall x, head l2 = Some x -> by_then s1 x id)).
  { destruct (c_true (timeout (wr r))) eqn:Ec.
    - destruct (insert_wait_ok s1 id t (reverse s1.(wait_list))) as (l1 & l2 & E & -> & H1 & H2).
      { intros x Hx. apply elem_of_reverse, elem_of_without in Hx as [Hx Hw].
        unfold s1. cbn [reqs set_reqs]. rewrite lookup_insert_ne by done. by apply Hlive. }
      exists l1, l2. split; [by rewrite <- reverse_app, <- E, reverse_involutive|].
      split; [cbn; by rewrite reverse_app, reverse_cons, <- (assoc_L (++))|].
      unfold by_then. split; intros x Hx; [specialize (H1 x Hx)|specialize (H2 x Hx)]; lia.
    - exists (reverse s1.(wait_list)), []. rewrite reverse_involutive. repeat (split; [done|]).
      split; [|done]. intros x _. apply c_true_false in Ec. unfold by_then. subst t. cbn. lia. }
  destruct Hins as (l1 & l2 & Ew & -> & H1 & H2). cbn [mbind option_bind].
  set (wait := reverse l2 ++ id :: reverse l1).
  pose proof (queues_insert s1 id wait l1 l2 Hq1 Hi1 Ew eq_refl H1 H2) as Hq2. cbv zeta in Hq2.
  rewrite Hd1 in Hq2. replace (Z.max t s1.(jiffies)) with (s.(jiffies) + timeout (wr r)) in Hq2 by (subst t; cbn; lia).
  eexists. split; [reflexivity|]. split; [exact Hq2|].
  assert (Hf2 : frame id s1 (set_lists s1.(send_list) wait s1.(done_list) s1)).
  { split; try done. intros x Hx. rewrite Ew. cbn. subst wait. rewrite !list.elem_of_app, elem_of_cons. naive_solver. }
  assert (Hin : id ∈ wait) by (apply list.elem_of_app; right; left).
  destruct (decide _); (split; [eapply req_frame_trans; [exact Hf1|eapply req_frame_trans; [exact Hf2|done]]|split; [exact Hr1|split; [exact Hin|done]]]).
Qed.

(** ** Messages *)

Hypothesis msecs_0 : msecs_to_jiffies 0 = 0.
Hypothesis msecs_pos : forall m, 0 < m < 2 ^ 32 -> 0 < msecs_to_jiffies m.

(** The number read at the head of a segment list is half of an aligned address. *)
Hypothesis head_num_1 : head_num <> 1.

Abbreviation jif := (to_jiffies msecs_to_jiffies).

Lemma jif_0 : jif 0 = 0.
Proof. exact msecs_0. Qed.

Lemma jif_pos ms : - 2 ^ 32 < ms < 2 ^ 32 -> ms <> 0 -> 0 < jif ms.
Proof.
  intros Hr Hn. apply msecs_pos. pose proof (wrap_fits 32 ms ltac:(lia)) as Hf. unfold fits in Hf.
  assert (u32 ms <> 0); [|lia]. unfold wrap. intros Hz.
  apply Z.mod_divide in Hz as [k Hk]; [|done]. lia.
Qed.

Lemma jif_nonneg ms : - 2 ^ 32 < ms < 2 ^ 32 -> 0 <= jif ms.
Proof. intros. destruct (decide (ms = 0)) as [->|]; [by rewrite jif_0|]. pose proof (jif_pos ms). lia. Qed.

Lemma int_range_u32 z : int_range z -> - 2 ^ 32 < z < 2 ^ 32.
Proof. unfold int_range. lia. Qed.
#[local] Hint Resolve int_range_u32 : core.

Lemma room_get m i : mad_room m -> 0 <= i < 36 -> exists b, arr_get m i = Some b.
Proof. unfold mad_room, IB_MGMT_RMPP_HDR. intros. apply arr_get_Some. lia. Qed.

Lemma room_be m o n : mad_room m -> 0 <= o -> 0 <= n -> o + n <= 36 -> exists v, be_get m o n = Some v.
Proof. unfold mad_room, IB_MGMT_RMPP_HDR, be_get. intros. rewrite mem_get_some by lia. eauto. Qed.

Lemma room_active m : mad_room m -> exists b, rmpp_active m = Some b.
Proof. intros H. unfold rmpp_active. destruct (room_get m RMPP_FLAGS_OFF H) as [b ->]; [done|]. eauto. Qed.

Lemma room_response m : mad_room m -> exists b, ib_response_mad m = Some b.
Proof.
  intros H. unfold ib_response_mad. destruct (room_get m 1 H) as [? ->]; [done|].
  destruct (room_get m 3 H) as [? ->]; [done|]. destruct (room_be m 20 4 H) as [? ->]; [done..|].
  cbn [mbind option_bind]. eauto.
Qed.

Lemma is_rmpp_active w : is_rmpp w = true ->
  ib_mad_kernel_rmpp_agent a = true /\ rmpp_active w.(send_buf).(mad) = Some true.
Proof.
  unfold is_rmpp. intros [? H]%andb_prop. split; [done|]. destruct (rmpp_active _) as [[]|]; done.
Qed.

Lemma kernel_plain w : msg_ok w -> is_rmpp w = false -> ib_mad_kernel_rmpp_agent a = true ->
  rmpp_active w.(send_buf).(mad) = Some false.
Proof.
  unfold is_rmpp. intros Hm H Hk. rewrite Hk in H. destruct (room_active _ (mo_room _ Hm)) as [[] Hb]; rewrite Hb in *; done.
Qed.

(** Sending a segment changes nothing but where the transfer is, and may start
    the timer for the acknowledgement. *)
Record advanced (w w' : send_wr) : Prop := {
  ad_ready : ready w';
  ad_rmpp : is_rmpp w' = true;
  ad_room : mad_room w'.(send_buf).(mad);
  ad_count : w'.(send_buf).(seg_count) = w.(send_buf).(seg_count);
  ad_ms : w'.(send_buf).(timeout_ms) = w.(send_buf).(timeout_ms);
  ad_seg : w'.(ctl).(seg_num) = w.(ctl).(seg_num) + 1;
  ad_ack : w'.(ctl).(last_ack) = w.(ctl).(last_ack) /\ w'.(ctl).(last_ack_seg) = w.(ctl).(last_ack_seg);
  ad_ref : w'.(refcount) = w.(refcount);
  ad_status : w'.(status) = w.(status);
  ad_timeout : 0 < w'.(timeout) \/ w'.(timeout) = w.(timeout) /\ w.(send_buf).(timeout_ms) <> 0
}.

Lemma flags_active b n count :
  c_true (Z.land (Z.land (seg_flags b n count) 7) IB_MGMT_RMPP_FLAG_ACTIVE) = true.
Proof.
  apply c_true_spec. rewrite <- Z.land_assoc. change (Z.land 7 IB_MGMT_RMPP_FLAG_ACTIVE) with 1.
  assert (H : forall x, Z.testbit x 0 = true -> Z.land x 1 <> 0).
  { intros x Hx E. apply (f_equal (fun z => Z.testbit z 0)) in E. rewrite Z.land_spec, Hx in E. done. }
  apply H. unfold seg_flags. repeat case_test; rewrite ?Z.lor_spec; cbn; by rewrite ?orb_true_r.
Qed.

Lemma send_next_advances w env :
  is_rmpp w = true -> mad_room w.(send_buf).(mad) -> ready w -> 0 <= w.(ctl).(seg_num) < w.(send_buf).(seg_count) ->
  exists w' out, send_next_seg msecs_to_jiffies head_num w env = Some (w', post_result env, out) /\ advanced w w'.
Proof.
  intros Hi Hroom Hr Hn. apply is_rmpp_active in Hi as [Hk _].
  destruct (send_next_seg_ok msecs_to_jiffies head_num w env Hr Hn) as (m & i & out & E & Hr' & Hs & _ & (b & Hb) & _).
  eexists _, out. split; [exact E|]. destruct (next_wr_fields msecs_to_jiffies w m) as (Hbuf & Hctl & _).
  assert (Hms : mad (send_buf (next_wr msecs_to_jiffies w m)) = m) by (by rewrite Hbuf).
  split; [exact Hr'|..]; cbn; rewrite ?Hbuf, ?Hctl; cbn; try done.
  - unfold is_rmpp, rmpp_active. cbn. rewrite Hbuf. cbn. rewrite Hb, Hk. cbn. apply flags_active.
  - destruct (sm_hdr _ _ Hs) as [Hl _]. cbn in Hl. rewrite Hms in Hl. unfold mad_room. by rewrite Hl.
  - unfold next_wr. by case_test.
  - unfold next_wr. by case_test.
  - unfold next_wr. case_test; cbn; [left; apply msecs_pos; lia|right].
    split; [done|]. apply orb_false_elim in E0 as [E0 _]. apply negb_false_iff, c_true_spec in E0. done.
Qed.

Lemma advanced_pos w w' :
  advanced w w' -> rmpp_pos w -> w.(ctl).(seg_num) < w.(send_buf).(seg_count) -> rmpp_pos w'.
Proof.
  intros [] [] Hn. destruct ad_ack0 as [Ha Has]. split; rewrite ?ad_count0, ?ad_seg0, ?Ha, ?Has; try done. lia.
Qed.

(** A transfer that is not acknowledged to its end goes on. *)
Lemma advanced_ok w w' :
  advanced w w' -> rmpp_pos w -> int_range w.(send_buf).(timeout_ms) -> 0 <= w.(timeout) ->
  w.(ctl).(seg_num) < w.(send_buf).(seg_count) -> w.(ctl).(last_ack) <> w.(send_buf).(seg_count) -> msg_ok w'.
Proof.
  intros Ha Hp Hr Ht Hn Hl. pose proof (advanced_pos _ _ Ha Hp Hn) as Hp'. destruct Ha.
  split; try done; rewrite ?ad_ms0; try done; [congruence|lia|].
  intros _ H. exfalso. apply Hl. rewrite <- ad_count0, <- H by done. symmetry. apply ad_ack0.
Qed.

(** Posting a datagram as it is. *)
Lemma send_plain w env : plain w -> exists out, ib_send_mad head_num w env = Some (w, post_result env, out).
Proof.
  intros [Hc _ Hh Hs Hm]. unfold ib_send_mad, ib_get_payload. rewrite (proj2 (c_true_false _)) by done.
  rewrite !mem_get_some by lia. cbn [mbind option_bind]. destruct env; eauto.
Qed.

(** ** What a step does to the requests *)

Definition live (s : sends) (id : Z) : Z := if s.(reqs) !! id then 1 else 0.

Definition tally1 (id : Z) (e : effect) : Z :=
  match e with
  | Accepted i => if i =? id then 1 else 0
  | Report i _ | Freed i => if i =? id then - 1 else 0
  | _ => 0
  end.

(** Acceptances of a request, less its reports. *)
Fixpoint tally (id : Z) (out : list effect) : Z :=
  match out with [] => 0 | e :: out => tally1 id e + tally id out end.

Lemma tally_app id l1 l2 : tally id (l1 ++ l2) = tally id l1 + tally id l2.
Proof. induction l1 as [|e l1 IH]; cbn; [done|]. rewrite IH. lia. Qed.

Lemma tally_sent id x out : tally id (sent_effect x out) = 0.
Proof. by destruct out. Qed.

(** The step is defined, keeps the invariant, and reports what is gone. *)
Definition good (s : sends) (res : option (sends * list effect)) : Prop :=
  exists s' out, res = Some (s', out) /\ sends_ok s' /\ forall x, live s' x = live s x + tally x out.

Lemma good_intro id s s' out :
  sends_ok s -> frame id s s' -> queues_ok s' -> one_ok s' id ->
  (forall x, x <> id -> tally x out = 0) -> live s' id = live s id + tally id out -> good s (Some (s', out)).
Proof.
  intros Hs Hf Hq Hi Ht Hl. exists s', out. split; [done|]. split; [by eapply frame_ok|].
  intros x. destruct (decide (x = id)) as [->|Hx]; [done|]. rewrite Ht by done. unfold live.
  rewrite (fr_reqs _ _ _ Hf) by done. lia.
Qed.

(** A step that only announces something. *)
Lemma good_same s out : sends_ok s -> (forall x, tally x out = 0) -> good s (Some (s, out)).
Proof. intros Hs Ht. exists s, out. split; [done|]. split; [done|]. intros x. rewrite Ht. lia. Qed.

Lemma live_some s id r : s.(reqs) !! id = Some r -> live s id = 1.
Proof. intros E. unfold live. by rewrite E. Qed.
Lemma live_none s id : s.(reqs) !! id = None -> live s id = 0.
Proof. intros E. unfold live. by rewrite E. Qed.

(** Requests that anything refers to are there. *)
Lemma lists_live s id :
  sends_ok s -> id ∈ s.(send_list) ++ s.(wait_list) ++ s.(done_list) ->
  exists r, s.(reqs) !! id = Some r /\ req_ok s id r.(wr).
Proof.
  intros [_ H] Hi. specialize (H id). unfold one_ok in H. destruct (reqs s !! id) as [r|]; [by exists r|].
  exfalso. unfold absent in H. rewrite !list.elem_of_app in Hi. naive_solver.
Qed.

Lemma uses_live s id : sends_ok s -> 1 <= uses s id -> exists r, s.(reqs) !! id = Some r /\ req_ok s id r.(wr).
Proof.
  intros [_ H] Hi. specialize (H id). unfold one_ok in H. destruct (reqs s !! id) as [r|]; [by exists r|].
  destruct H as [H _]. lia.
Qed.

Lemma in_flight_bounds s id : 0 <= in_flight s id <= 1.
Proof. unfold in_flight, c_bool. destruct (bool_decide _); lia. Qed.
Lemma in_flight_in s id : id ∈ s.(flights) -> in_flight s id = 1.
Proof. intros H. unfold in_flight. by rewrite bool_decide_true. Qed.
Lemma in_flight_out s id : in_flight s id = 0 -> id ∉ s.(flights).
Proof. unfold in_flight. case_bool_decide; done. Qed.
Lemma due_nonneg s id : 0 <= due s id.
Proof. unfold due. lia. Qed.
Lemma uses_zero s id : uses s id = 0 -> in_flight s id = 0 /\ due s id = 0.
Proof. unfold uses. pose proof (in_flight_bounds s id). pose proof (due_nonneg s id). lia. Qed.

Lemma uses_fly s id : id ∉ s.(flights) -> uses (set_flights (s.(flights) ++ [id]) s) id = uses s id + 1.
Proof.
  intros H. unfold uses, in_flight. rewrite (bool_decide_false _ H). cbn.
  rewrite bool_decide_true by set_solver. unfold due. cbn. lia.
Qed.

Lemma uses_complete s id st : uses (set_calls (s.(calls) ++ [Complete id st]) s) id = uses s id + 1.
Proof. unfold uses. rewrite due_app. rewrite filter_cons_True by done. unfold in_flight. cbn. lia. Qed.

Lemma awaiting_spec w : awaiting w = true <-> w.(status) = IB_WC_SUCCESS /\ 0 < w.(timeout).
Proof. unfold awaiting. rewrite andb_true_iff, Z.eqb_eq, Z.ltb_lt. done. Qed.

(** ** The completion of a send *)

(** What the completion of a datagram leaves of its request, when no other
    datagram follows. *)
Record kept (w w' : send_wr) : Prop := {
  kp_msg : msg_ok w';
  kp_ref : w'.(refcount) = w.(refcount);
  kp_status : w'.(status) = w.(status);
  kp_timeout : 0 < w'.(timeout) <-> 0 < w.(timeout)
}.

Lemma kept_refl w : msg_ok w -> kept w w.
Proof. done. Qed.

Lemma kept_awaiting w w' : kept w w' -> awaiting w' = awaiting w.
Proof.
  intros [_ _ Hs Ht]. unfold awaiting. rewrite Hs. f_equal.
  destruct (Z.ltb_spec 0 (timeout w')), (Z.ltb_spec 0 (timeout w)); naive_solver lia.
Qed.

Lemma msg_ok_timeout w t :
  msg_ok w -> 0 <= t -> (0 < t -> awaiting w = true) -> msg_ok (set_timeout t w).
Proof.
  intros [] Ht Hw. split; try done.
  - intros Hi. destruct (mo_rmpp0 Hi) as [Hr Hp]. split; [by apply ready_timeout|]. by destruct Hp.
  - intros Hi. by destruct (mo_plain0 Hi).
  - intros Ha%awaiting_spec. apply mo_await0. apply Hw, Ha.
Qed.

Lemma process_send_wc_ok w st env :
  msg_ok w -> ib_mad_kernel_rmpp_agent a = true ->
  exists w' st' ret out,
    ib_process_rmpp_send_wc msecs_to_jiffies head_num w st env = Some (w', st', ret, out) /\
    (ret = IB_RMPP_RESULT_CONSUMED /\ awaiting w = true /\ advanced w w' /\ msg_ok w' \/
     ret <> IB_RMPP_RESULT_CONSUMED /\ kept w w').
Proof.
  intros Hm Hk. unfold ib_process_rmpp_send_wc.
  destruct (is_rmpp w) eqn:Hi.
  2: { rewrite (kernel_plain _ Hm Hi Hk). cbn. eexists _, _, _, _. split; [done|]. right. split; [done|by apply kept_refl]. }
  apply is_rmpp_active in Hi as Hact. rewrite (proj2 Hact). cbn [mbind option_bind negb].
  destruct (room_get _ RMPP_TYPE_OFF (mo_room _ Hm)) as [t Ht]; [done|]. unfold rmpp_type. rewrite Ht.
  cbn [mbind option_bind]. destruct (mo_rmpp _ Hm Hi) as [Hr Hp].
  assert (Hkeep : forall st' ret : Z, ret <> IB_RMPP_RESULT_CONSUMED -> exists w' st'' ret' out,
    Some (w, st', ret, @None (list Z)) = Some (w', st'', ret', out) /\
    (ret' = IB_RMPP_RESULT_CONSUMED /\ awaiting w = true /\ advanced w w' /\ msg_ok w' \/
     ret' <> IB_RMPP_RESULT_CONSUMED /\ kept w w')).
  { intros st' ret Hret. eexists _, _, _, _. split; [done|]. right. split; [done|by apply kept_refl]. }
  case_test; [by apply Hkeep|]. case_test; [by apply Hkeep|]. case_test; [by apply Hkeep|].
  bool_arith. apply c_true_spec in E1. pose proof (mo_timeout _ Hm).
  assert (Haw : awaiting w = true) by (apply awaiting_spec; split; [done|lia]).
  destruct (Z.eqb_spec w.(ctl).(last_ack) w.(send_buf).(seg_count)) as [Hla|Hla].
  - eexists _, _, _, _. split; [done|]. right. split; [done|].
    pose proof (mo_await _ Hm Haw (fun _ => Hla)) as Hms.
    assert (0 < jif w.(send_buf).(timeout_ms)) by (apply jif_pos; [apply int_range_u32, Hm|done]).
    split; [apply msg_ok_timeout; [done|lia|done]|done|done|]. cbn. lia.
  - case_test; [by apply Hkeep|]. bool_arith.
    pose proof (rp_seg _ Hp). destruct (send_next_advances w env Hi (mo_room _ Hm) Hr) as (w' & out & -> & Ha); [lia|].
    assert (Hm' : msg_ok w') by (apply (advanced_ok w); try done; [apply Hm|lia]).
    cbn [mbind option_bind]. case_test; eexists _, _, _, _; (split; [done|]).
    + right. split; [done|]. split; [done|apply Ha|apply Ha|]. pose proof (ad_timeout _ _ Ha). lia.
    + left. done.
Qed.

Lemma msg_ok_fields w w' :
  msg_ok w -> w'.(send_buf) = w.(send_buf) -> w'.(ctl) = w.(ctl) -> w'.(sge_len) = w.(sge_len) ->
  w'.(timeout) = w.(timeout) -> (awaiting w' = true -> awaiting w = true) -> msg_ok w'.
Proof.
  intros [] Hb Hc Hg Ht Ha.
  assert (Hi : is_rmpp w' = is_rmpp w) by (unfold is_rmpp; by rewrite Hb).
  split; rewrite ?Hb, ?Ht, ?Hi, ?Hc; try done; [| |auto].
  - intros H. destruct (mo_rmpp0 H) as [[] []]. split; [split|split]; rewrite ?Hb, ?Hc, ?Hg; done.
  - intros H. destruct (mo_plain0 H). split; rewrite ?Hb, ?Hc, ?Hg; done.
Qed.

(** A call of [ib_mad_complete_send_wr] is taken out. *)
Lemma call_taken s k id st :
  s.(calls) !! k = Some (Complete id st) ->
  let s1 := set_calls (delete k s.(calls)) s in
  frame id s s1 /\ uses s id = uses s1 id + 1 /\ (queues_ok s -> queues_ok s1).
Proof.
  intros Hk s1. pose proof (delete_Permutation _ _ _ Hk) as Hp.
  assert (Hu : forall x, uses s x = uses s1 x + c_bool (bool_decide (id = x))).
  { intros x. unfold uses, in_flight, due. change (flights s1) with s.(flights).
    assert (E : length (filter (completes x) s.(calls)) =
      length (filter (completes x) (Complete id st :: s1.(calls))))
      by (apply Permutation_length; f_equiv; exact Hp).
    rewrite E. destruct (decide (id = x)) as [->|Hx].
    - rewrite filter_cons_True, (bool_decide_true (x = x)) by (cbn; congruence). cbn [length c_bool]. lia.
    - rewrite filter_cons_False, (bool_decide_false (id = x)) by (cbn; congruence). cbn [c_bool]. lia. }
  split; [|split].
  - split; intros x Hx; try done. rewrite Hu, bool_decide_false by congruence. cbn. lia.
  - by rewrite Hu, bool_decide_true by done.
  - intros []. split; try done. cbn in *. rewrite Hp in qo_calls0. by apply list.Forall_cons in qo_calls0 as [_ ?].
Qed.

(** [adjust_timeout] only ever stops the timer: [agent_timeout] stays 0. *)
Lemma adjust_timeout_ok s :
  queues_ok s -> (forall x, x ∈ s.(wait_list) -> exists r, s.(reqs) !! x = Some r /\ 0 <= r.(wr).(timeout)) ->
  exists t, adjust_timeout s = Some (set_timer t s) /\ queues_ok (set_timer t s).
Proof.
  intros Hq Hl. unfold adjust_timeout. destruct (wait_list s) as [|x l] eqn:El.
  - exists None. split; [done|]. destruct Hq. split; cbn; rewrite ?El in *; try done; intros; done.
  - exists s.(timer). destruct (Hl x ltac:(set_solver)) as (r & -> & Hr). cbn [mbind option_bind].
    rewrite (qo_agent _ Hq). unfold time_after. rewrite (proj2 (Z.ltb_ge _ _)) by lia.
    assert (E : set_timer s.(timer) s = s) by (by destruct s). rewrite E. done.
Qed.

Lemma wait_live s : sends_ok s -> forall x, x ∈ s.(wait_list) -> exists r, s.(reqs) !! x = Some r /\ 0 <= r.(wr).(timeout).
Proof.
  intros Hs x Hx. destruct (lists_live s x Hs) as (r & Hr & Ho); [rewrite !list.elem_of_app; auto|].
  exists r. split; [done|]. apply Ho.
Qed.

Lemma queues_insert_req id r s :
  queues_ok s -> (id ∈ s.(wait_list) -> r.(wr).(timeout) = deadline s id) ->
  queues_ok (set_reqs (<[id := r]> s.(reqs)) s).
Proof.
  intros Hq Hd. apply queues_reqs; [done|]. intros x Hx. unfold deadline. cbn [reqs set_reqs].
  destruct (decide (x = id)) as [->|Hne]; [|by rewrite lookup_insert_ne].
  rewrite lookup_insert_eq. by apply Hd.
Qed.

Lemma queues_drop id s : queues_ok s -> id ∉ s.(wait_list) -> queues_ok (drop_req id s).
Proof.
  intros Hq Hi. apply queues_reqs; [done|]. intros x Hx. unfold deadline. cbn [reqs set_reqs].
  rewrite lookup_delete_ne; [done|]. by intros ->.
Qed.

(** A request nothing will come back to is reported. *)
Lemma report_ok s s1 id e :
  sends_ok s -> frame id s s1 -> queues_ok s1 -> uses s1 id = 0 ->
  live s id = 1 -> (forall x, tally1 x e = if id =? x then -1 else 0) ->
  id ∉ s1.(send_list) ++ s1.(wait_list) ++ s1.(done_list) ->
  good s (Some (drop_req id s1, [e])).
Proof.
  intros Hs Hf Hq Hu Hl He Hi. rewrite !list.elem_of_app in Hi. apply (good_intro id).
  - done.
  - eapply req_frame_trans; [done|apply frame_drop].
  - apply queues_drop; naive_solver.
  - unfold one_ok, absent. cbn. rewrite lookup_delete_eq. naive_solver.
  - intros x Hx. cbn. rewrite He, (proj2 (Z.eqb_neq _ _)) by congruence. done.
  - rewrite Hl. unfold live. cbn. rewrite lookup_delete_eq, He, Z.eqb_refl. done.
Qed.

Lemma uses_reqs s m id : uses (set_reqs m s) id = uses s id.
Proof. done. Qed.

Lemma place_uses s s' id w :
  place s id w -> s'.(send_list) = s.(send_list) -> s'.(done_list) = s.(done_list) ->
  1 <= uses s id -> 1 <= uses s' id -> forall w', (w.(timeout) = 0 -> w'.(timeout) = 0) -> place s' id w'.
Proof.
  intros Hp Hs Hd Hu Hu' w' Hw. destruct Hp as [Hi H0 _|Hi _|Hi _ Ht]; [lia| |].
  - apply Sends; [by rewrite Hs|done].
  - apply Done; [by rewrite Hd|done|auto].
Qed.

Lemma on_send_list_of s id w : place s id w -> 1 <= uses s id -> 0 < w.(timeout) -> id ∈ s.(send_list).
Proof. intros [?|?|?] ??; [lia|done|lia]. Qed.

Lemma place_not_waiting s id w : queues_ok s -> place s id w -> 1 <= uses s id -> id ∉ s.(wait_list).
Proof.
  intros Hq Hp Hu Hw. pose proof (qo_lists _ Hq) as Hn.
  apply list.NoDup_app in Hn as (_ & Hn & Hn2). apply list.NoDup_app in Hn2 as (_ & Hn2 & _).
  destruct Hp as [? ? _|Hi _|Hi _ _]; [lia|apply (Hn id Hi); set_solver|by apply (Hn2 id Hw)].
Qed.

(** The completion that is followed by the next segment. *)
Lemma complete_consumed s s1 id r w out :
  sends_ok s -> frame id s s1 -> queues_ok s1 -> uses s id = uses s1 id + 1 ->
  s1.(send_list) = s.(send_list) -> s1.(wait_list) = s.(wait_list) ->
  s1.(reqs) = s.(reqs) -> s.(reqs) !! id = Some r -> req_ok s id r.(wr) ->
  awaiting r.(wr) = true -> advanced r.(wr) w -> msg_ok w ->
  good s (s2 ← store id w s1; s3 ← fly id s2; Some (s3, sent_effect id out)).
Proof.
  intros Hs Hf Hq Hu Hsl Hwl Hre Hr [Hm Href Hone Hpl] Haw Had Hm'. specialize (Hone Haw).
  pose proof (in_flight_bounds s1 id). pose proof (due_nonneg s1 id).
  destruct (uses_zero s1 id) as [Hfl _]; [unfold uses in *; lia|]. apply in_flight_out in Hfl.
  rewrite (store_some _ _ r) by (by rewrite Hre). cbn [mbind option_bind].
  set (s2 := set_reqs _ s1). rewrite fly_some by done. cbn [mbind option_bind].
  apply awaiting_spec in Haw as [Hst Ht].
  assert (Hin : id ∈ s.(send_list)) by (apply (on_send_list_of s id (wr r)); [done|unfold uses in *; lia|done]).
  assert (Hw : id ∉ s.(wait_list)) by (apply (place_not_waiting s id (wr r)); [apply Hs|done|unfold uses in *; lia]).
  assert (Hu3 : uses (set_flights (s2.(flights) ++ [id]) s2) id = 1).
  { rewrite uses_fly by done. unfold s2. rewrite uses_reqs. unfold uses in *. lia. }
  assert (Haw' : awaiting w = true).
  { apply awaiting_spec. rewrite (ad_status _ _ Had). split; [done|]. pose proof (ad_timeout _ _ Had). lia. }
  apply (good_intro id); [done| | | | |].
  - eapply req_frame_trans; [exact Hf|]. eapply req_frame_trans; [apply frame_insert|apply frame_fly].
  - apply queues_fly; [|done]. apply queues_insert_req; [done|]. rewrite Hwl. naive_solver.
  - unfold one_ok. cbn [reqs set_flights set_reqs s2]. rewrite lookup_insert_eq. cbn [wr].
    split; [done| | |].
    + rewrite Hu3, Haw', (ad_ref _ _ Had), Href. unfold uses in *. rewrite (proj2 (awaiting_spec _)) by done. cbn. lia.
    + intros _. lia.
    + apply Sends; [cbn; by rewrite Hsl|lia].
  - intros x _. apply tally_sent.
  - rewrite tally_sent, (live_some _ _ _ Hr). unfold live. cbn. rewrite lookup_insert_eq. done.
Qed.

(** What is left of a request when a completion has been accounted for. *)
Definition settle (w : send_wr) (st : Z) : send_wr :=
  let w := if negb (st =? IB_WC_SUCCESS) && (w.(status) =? IB_WC_SUCCESS)
           then set_refcount (w.(refcount) - c_bool (0 <? w.(timeout))) (set_status st w) else w in
  set_refcount (w.(refcount) - 1) w.

Lemma settle_ok w st :
  msg_ok w -> msg_ok (settle w st) /\ timeout (settle w st) = timeout w /\
  refcount (settle w st) - c_bool (awaiting (settle w st)) = w.(refcount) - c_bool (awaiting w) - 1 /\
  (awaiting (settle w st) = true -> awaiting w = true).
Proof.
  intros Hm. assert (Hg : timeout (settle w st) = timeout w /\
    refcount (settle w st) - c_bool (awaiting (settle w st)) = w.(refcount) - c_bool (awaiting w) - 1 /\
    (awaiting (settle w st) = true -> awaiting w = true)).
  { unfold settle. case_test; [|split; [done|split; [|done]]; unfold awaiting; cbn; lia].
    bool_arith. unfold awaiting. cbn. rewrite (proj2 (Z.eqb_neq st _)) by done.
    rewrite (proj2 (Z.eqb_eq (status w) _)) by done. cbn [andb c_bool]. split; [done|]. split; [lia|done]. }
  split; [|exact Hg]. apply (msg_ok_fields w); [done| | | |apply Hg|apply Hg]; unfold settle; by case_test.
Qed.

(** The completion after which no datagram follows. *)
Lemma complete_settled s s3 id r w3 tid_ st ret :
  sends_ok s -> s.(reqs) !! id = Some r -> place s id r.(wr) -> 1 <= uses s id ->
  frame id s s3 -> queues_ok s3 -> s3.(send_list) = s.(send_list) -> s3.(wait_list) = s.(wait_list) ->
  s3.(done_list) = s.(done_list) -> s3.(reqs) !! id = Some (mk_req w3 tid_) ->
  msg_ok w3 -> w3.(refcount) = uses s3 id + c_bool (awaiting w3) -> 0 <= uses s3 id ->
  (awaiting w3 = true -> uses s3 id = 0) -> (r.(wr).(timeout) = 0 -> w3.(timeout) = 0) ->
  good s (if 0 <? w3.(refcount) then
    if (w3.(refcount) =? 1) && c_true w3.(timeout) && (w3.(status) =? IB_WC_SUCCESS)
    then s ← wait_for_response id s3; Some (s, []) else Some (s3, [])
  else
    s ← adjust_timeout (unlink id s3);
    let st := if negb (w3.(status) =? IB_WC_SUCCESS) then w3.(status) else st in
    Some (drop_req id s, if ret =? IB_RMPP_RESULT_INTERNAL then [Freed id] else [Report id st])).
Proof.
  intros Hs Hr Hpl Hu Hf Hq Hsl Hwl Hdl H3 Hm Href Hu3 Hone Ht.
  pose proof (mo_timeout _ Hm). pose proof (qo_now _ Hq).
  case_test; [apply Z.ltb_lt in E; case_test|apply Z.ltb_ge in E].
  - bool_arith. assert (Haw : awaiting w3 = true).
    { apply awaiting_spec. split; [done|]. apply c_true_spec in H4. lia. }
    destruct (wait_for_response_ok id s3 (mk_req w3 tid_) (queues_unlink id s3 Hq)) as (s4 & -> & Hq4 & Hf4 & Hr4 & Hin & Hu4); [|exact H3|done|].
    { intros x Hx Hne. rewrite Hwl in Hx.
      rewrite (fr_reqs _ _ _ Hf) by done. destruct (wait_live s Hs x Hx) as (rx & Hrx & _). eauto. }
    cbn [mbind option_bind wr req_tid] in *. specialize (Hone Haw). rewrite Haw in Href. apply awaiting_spec in Haw as [Hst3 Htp].
    set (w4 := set_timeout (timeout w3 + jiffies s3) w3) in *.
    assert (Haw4 : awaiting w4 = true) by (apply awaiting_spec; cbn; lia).
    apply (good_intro id); [done|by eapply req_frame_trans|done| |done|by rewrite (live_some _ _ _ Hr), (live_some _ _ _ Hr4)].
    unfold one_ok. rewrite Hr4. cbn [wr]. split.
    + apply msg_ok_timeout; [done|lia|]. intros _. by apply awaiting_spec.
    + rewrite Haw4, Hu4. cbn in *. lia.
    + intros _. lia.
    + apply Waits; [done|lia|cbn; lia].
  - apply (good_intro id); [done|done|done| |done|by rewrite (live_some _ _ _ Hr), (live_some _ _ _ H3)].
    assert (Hu1 : 1 <= uses s3 id).
    { destruct (awaiting w3) eqn:Ea; cbn in Href; [|lia]. specialize (Hone eq_refl). rewrite Hone in Href.
      apply awaiting_spec in Ea as [Es Et]. rewrite Href, Es, (proj2 (c_true_spec _)) in E0 by lia. done. }
    unfold one_ok. rewrite H3. cbn [wr]. split; [done|done|intros Ha; rewrite Hone by done; lia|].
    by apply (place_uses s s3 id (wr r)).
  - assert (Hz : uses s3 id = 0 /\ awaiting w3 = false) by (destruct (awaiting w3); cbn in Href; [lia|split; [lia|done]]).
    destruct (adjust_timeout_ok (unlink id s3)) as (t & -> & Hq4); [by apply queues_unlink| |].
    { intros x [Hx Hw]%elem_of_without. cbn. rewrite (fr_reqs _ _ _ Hf) by done. apply (wait_live s Hs). by rewrite <- Hwl. }
    cbn [mbind option_bind]. assert (Hrep : forall e, (forall x, tally1 x e = if id =? x then -1 else 0) ->
      good s (Some (drop_req id (set_timer t (unlink id s3)), [e]))); [|by case_test; apply Hrep].
    intros e He. apply report_ok; try done; [|apply Hz|by apply (live_some _ _ r)|apply (unlink_lists id s3)].
    eapply req_frame_trans; [exact Hf|]. eapply req_frame_trans; [apply (frame_unlink id s3)|done].
Qed.

Lemma send_complete_ok s k id st env :
  sends_ok s -> s.(calls) !! k = Some (Complete id st) ->
  good s (ib_mad_complete_send_wr a msecs_to_jiffies head_num id st env (set_calls (delete k s.(calls)) s)).
Proof.
  intros Hs Hk. destruct (call_taken _ _ _ _ Hk) as (Hf & Hu & Hq). specialize (Hq (proj1 Hs)).
  set (s1 := set_calls (delete k s.(calls)) s) in *.
  pose proof (in_flight_bounds s1 id). pose proof (due_nonneg s1 id).
  assert (Hu0 : 1 <= uses s id) by (unfold uses in *; lia).
  destruct (uses_live s id Hs Hu0) as (r & Hr & Ho). pose proof Ho as [Hm Href Hone Hpl].
  unfold ib_mad_complete_send_wr. change (reqs s1) with s.(reqs). rewrite Hr. cbn [mbind option_bind].
  assert (Hp : exists w st' ret out, (if ib_mad_kernel_rmpp_agent a
      then ib_process_rmpp_send_wc msecs_to_jiffies head_num (wr r) st env
      else Some (wr r, st, IB_RMPP_RESULT_UNHANDLED, None)) = Some (w, st', ret, out) /\
     (ret = IB_RMPP_RESULT_CONSUMED /\ awaiting (wr r) = true /\ advanced (wr r) w /\ msg_ok w \/
      ret <> IB_RMPP_RESULT_CONSUMED /\ kept (wr r) w)).
  { destruct (ib_mad_kernel_rmpp_agent a) eqn:Ek; [by apply process_send_wc_ok|].
    eexists _, _, _, _. split; [done|]. right. split; [done|by apply kept_refl]. }
  destruct Hp as (w & st' & ret & out & -> & Hc). cbn [mbind option_bind].
  destruct Hc as [(-> & Haw & Had & Hm')|[Hret Hkp]].
  { exact (complete_consumed s s1 id r w out Hs Hf Hq Hu eq_refl eq_refl eq_refl Hr Ho Haw Had Hm'). }
  rewrite (store_some _ _ r) by exact Hr. cbn [mbind option_bind]. rewrite (proj2 (Z.eqb_neq ret _)) by done.
  fold (settle w st'). set (s2 := set_reqs _ s1).
  rewrite (store_some s2 id (mk_req w (req_tid r))) by apply lookup_insert_eq. cbn [mbind option_bind req_tid].
  set (s3 := set_reqs _ s2).
  destruct (settle_ok w st' (kp_msg _ _ Hkp)) as (Hm3 & Ht3 & Hr3 & Ha3). set (w3 := settle w st') in *.
  rewrite (kp_ref _ _ Hkp), (kept_awaiting _ _ Hkp), Href in *.
  assert (Hw : id ∉ s.(wait_list)) by (apply (place_not_waiting s id (wr r)); [apply Hs|done|done]).
  apply (complete_settled s s3 id r w3 (req_tid r)); try done.
  - eapply req_frame_trans; [exact Hf|eapply req_frame_trans; apply frame_insert].
  - apply queues_insert_req; [apply queues_insert_req; [done|]|]; intros Hw'; by destruct Hw.
  - apply lookup_insert_eq.
  - change (uses s3 id) with (uses s1 id). lia.
  - change (uses s3 id) with (uses s1 id). unfold uses. lia.
  - intros Haw. specialize (Hone (Ha3 Haw)). change (uses s3 id) with (uses s1 id). unfold uses in *. lia.
  - intros Ht. rewrite Ht3. pose proof (kp_timeout _ _ Hkp). pose proof (mo_timeout _ (kp_msg _ _ Hkp)). lia.
Qed.

(** ** Matching *)

Lemma find_req_ok s l test :
  (forall x, x ∈ l -> exists r b, s.(reqs) !! x = Some r /\ test x r = Some b) ->
  exists f, find_req test s l = Some f /\
    forall id, f = Some id -> id ∈ l /\ exists r, s.(reqs) !! id = Some r /\ test id r = Some true.
Proof.
  induction l as [|x l IH]; intros Hl; cbn [find_req]; [by exists None|].
  destruct (Hl x ltac:(set_solver)) as (r & b & Hr & Hb). rewrite Hr. cbn [mbind option_bind].
  rewrite Hb. cbn [mbind option_bind]. destruct b.
  - exists (Some x). split; [done|]. intros id [= <-]. split; [set_solver|eauto].
  - destruct IH as (f & -> & Hf); [set_solver|]. exists f. split; [done|]. intros id Hi.
    destruct (Hf id Hi) as [? ?]. split; [set_solver|done].
Qed.

Lemma same_mad_total id r m :
  mad_room r.(wr).(send_buf).(mad) -> mad_room m.(in_bytes) -> exists b, same_mad id r m = Some b.
Proof.
  intros Hr Hm. unfold same_mad, mad_class. destruct (room_get _ 1 Hr) as [c ->]; [done|].
  destruct (room_get _ 1 Hm) as [c' ->]; [done|]. cbn [mbind option_bind].
  case_test; [eauto|]. case_test; [eauto|].
  destruct (room_response _ Hr) as [? ->]. destruct (room_response _ Hm) as [? ->]. cbn [mbind option_bind]. eauto.
Qed.

Lemma is_rmpp_data_total m : mad_room m -> exists b, is_rmpp_data_mad a m = Some b.
Proof.
  intros Hm. unfold is_rmpp_data_mad. case_test; [eauto|]. destruct (room_active _ Hm) as [? ->].
  unfold rmpp_type. destruct (room_get _ RMPP_TYPE_OFF Hm) as [? ->]; [done|]. cbn [mbind option_bind]. eauto.
Qed.

(** Only a request that still waits for something is found. *)
Lemma find_send_mad_ok s m :
  sends_ok s -> mad_room m.(in_bytes) ->
  exists f, ib_find_send_mad a s m = Some f /\
    forall id, f = Some id -> exists r, s.(reqs) !! id = Some r /\ req_ok s id r.(wr) /\ awaiting r.(wr) = true.
Proof.
  intros Hs Hm. unfold ib_find_send_mad, mad_tid. destruct (room_be _ 8 8 Hm) as [t ->]; [done..|].
  cbn [mbind option_bind].
  assert (Hl : forall x, x ∈ s.(wait_list) \/ x ∈ s.(send_list) -> exists r, s.(reqs) !! x = Some r /\ req_ok s x r.(wr)).
  { intros x Hx. apply lists_live; [done|]. rewrite !list.elem_of_app. naive_solver. }
  destruct (find_req_ok s s.(wait_list) (fun id r => on_wait_list id r m t)) as (f1 & -> & H1).
  { intros x Hx. destruct (Hl x) as (r & Hr & Ho); [auto|]. exists r. unfold on_wait_list.
    case_test; [|eauto]. destruct (same_mad_total x r m) as [b Hb]; [apply Ho|done|eauto]. }
  destruct (find_req_ok s s.(send_list) (fun id r => on_send_list a id r m t)) as (f2 & E2 & H2).
  { intros x Hx. destruct (Hl x) as (r & Hr & Ho); [auto|]. exists r. unfold on_send_list.
    destruct (is_rmpp_data_total (mad (send_buf (wr r)))) as [d ->]; [apply Ho|]. cbn [mbind option_bind].
    case_test; [|eauto]. destruct (same_mad_total x r m) as [b Hb]; [apply Ho|done|eauto]. }
  assert (Hres : forall id r, s.(reqs) !! id = Some r -> req_ok s id (wr r) ->
      (wr r).(status) = IB_WC_SUCCESS -> (id ∈ s.(wait_list) \/ (wr r).(timeout) <> 0) -> awaiting (wr r) = true).
  { intros id r Hr Ho Hst Hc. apply awaiting_spec. split; [done|]. pose proof (mo_timeout _ (ro_msg _ _ _ Ho)).
    destruct Hc as [Hw|Ht]; [|lia]. destruct (ro_place _ _ _ Ho) as [_ _ Ht|Hi Hu|Hi Hu _]; [auto| |];
      destruct (place_not_waiting s id (wr r) (proj1 Hs) (ro_place _ _ _ Ho) Hu Hw). }
  cbn [mbind option_bind]. destruct f1 as [id|]; cbn [mbind option_bind]; [|rewrite E2; cbn [mbind option_bind]; destruct f2 as [id|]; [|by exists None]].
  - destruct (H1 id eq_refl) as (Hw & r & Hr & _). destruct (Hl id) as (r' & Hr' & Ho); [auto|]. simplify_eq.
    rewrite Hr. cbn [mbind option_bind]. eexists. split; [done|]. intros x Hx. case_match eqn:Es; simplify_eq.
    exists r. split; [done|]. split; [done|]. apply (Hres x r); auto. by apply Z.eqb_eq.
  - destruct (H2 id eq_refl) as (Hw & r & Hr & Ht). destruct (Hl id) as (r' & Hr' & Ho); [auto|]. simplify_eq.
    rewrite Hr. cbn [mbind option_bind]. eexists. split; [done|]. intros x Hx. case_match eqn:Es; simplify_eq.
    exists r. split; [done|]. split; [done|]. apply (Hres x r); auto; [by apply Z.eqb_eq|right].
    unfold on_send_list in Ht. destruct (is_rmpp_data_mad _ _) as [[]|]; try done. cbn in Ht.
    destruct (_ =? _); try done. cbn in Ht. destruct (c_true (timeout (wr r))) eqn:Ec; [|done]. by apply c_true_spec.
Qed.

(** ** Completion on account of a received MAD *)

Lemma good_trans s s1 res : (forall x, live s1 x = live s x) -> good s1 res -> good s res.
Proof. intros Hl (s' & out & -> & Hs' & Ht). exists s', out. split; [done|]. split; [done|]. intros x. by rewrite Ht, Hl. Qed.

Lemma good_more s res extra :
  good s res -> (forall x, tally x extra = 0) -> good s ('(s', out) ← res; Some (s', out ++ extra)).
Proof.
  intros (s' & out & -> & Hs' & Ht) He. exists s', (out ++ extra). split; [done|]. split; [done|].
  intros x. rewrite tally_app, He, Ht. lia.
Qed.

(** The end of a request: nothing is awaited any more, and its completion is
    due. [w] is the request with what an acknowledgement may have changed. *)
Lemma mark_complete_ok s id r w st out :
  sends_ok s -> s.(reqs) !! id = Some r -> awaiting r.(wr) = true ->
  w.(refcount) = r.(wr).(refcount) -> msg_ok (set_timeout 0 w) -> (forall x, tally x out = 0) ->
  good s (s' ← ib_mark_mad_done id (set_reqs (<[id := mk_req w r.(req_tid)]> s.(reqs)) s);
          Some (set_calls (s'.(calls) ++ [Complete id st]) s', out)).
Proof.
  intros Hs Hr Haw Hrc Hm Ht. pose proof (proj1 Hs) as Hq. pose proof (proj2 Hs id) as Ho. unfold one_ok in Ho.
  rewrite Hr in Ho. destruct Ho as [_ Href Hle Hpl]. specialize (Hle Haw). rewrite Haw in Href. cbn in Href.
  unfold ib_mark_mad_done. set (s1 := set_reqs (<[id := mk_req w r.(req_tid)]> s.(reqs)) s).
  assert (H1 : s1.(reqs) !! id = Some (mk_req w r.(req_tid))) by apply lookup_insert_eq.
  rewrite H1. cbn [mbind option_bind]. rewrite (store_some _ _ _ _ H1). cbn [mbind option_bind wr req_tid].
  set (w0 := set_timeout 0 w) in *. set (s2 := set_reqs _ s1).
  assert (Hs2 : s2 = set_reqs (<[id := mk_req w0 r.(req_tid)]> s.(reqs)) s).
  { apply store_twice. }
  set (s3 := if refcount w =? 1 then to_done_list id s2 else s2).
  pose proof (in_flight_bounds s id). pose proof (due_nonneg s id).
  assert (H3 : frame id s s3 /\ queues_ok s3 /\ s3.(reqs) = s2.(reqs) /\ uses s3 id = uses s id /\
    (id ∈ s3.(done_list) \/ id ∈ s3.(send_list) /\ 1 <= uses s id)).
  { assert (Hf : frame id s s2) by (rewrite Hs2; apply frame_insert).
    unfold s3. destruct (Z.eqb_spec (refcount w) 1) as [E|E]; (split; [|split; [|split; [|split]]]); try done.
    - eapply req_frame_trans; [exact Hf|apply frame_done].
    - apply queues_done. rewrite Hs2. by apply queues_unlink_insert.
    - left. cbn. set_solver.
    - rewrite Hs2. apply queues_insert_req; [done|]. intros Hw.
      destruct (place_not_waiting s id (wr r) Hq Hpl); [unfold uses in *; lia|done].
    - right. rewrite Hs2. apply awaiting_spec in Haw as [_ Htp].
      assert (1 <= uses s id) by (unfold uses in *; lia). split; [|done]. by apply (on_send_list_of s id (wr r)). }
  destruct H3 as (Hf3 & Hq3 & Hr3 & Hu3 & Hp3). clearbody s3.
  assert (H4 : s3.(reqs) !! id = Some (mk_req w0 r.(req_tid))) by (rewrite Hr3, Hs2; apply lookup_insert_eq).
  apply (good_intro id); [done| | | |done|].
  - eapply req_frame_trans; [exact Hf3|apply frame_complete].
  - by apply queues_complete.
  - unfold one_ok. cbn [reqs set_calls]. rewrite H4. cbn [wr].
    assert (Ha0 : awaiting w0 = false) by (unfold awaiting, w0; cbn; by rewrite andb_false_r).
    split; [done| |by rewrite Ha0|].
    + rewrite uses_complete, Hu3, Ha0. cbn. lia.
    + destruct Hp3 as [Hd|[Hsn _]]; [apply Done|apply Sends]; try done; rewrite uses_complete, Hu3; unfold uses; lia.
  - rewrite Ht, (live_some _ _ _ Hr). unfold live. cbn. rewrite H4. done.
Qed.

Lemma msg_ok_done w : msg_ok w -> msg_ok (set_timeout 0 w).
Proof. intros Hm. apply msg_ok_timeout; [done|lia|lia]. Qed.

(** The same for a request as it is. *)
Lemma mark_ok s id r st out :
  sends_ok s -> s.(reqs) !! id = Some r -> req_ok s id r.(wr) -> awaiting r.(wr) = true ->
  (forall x, tally x out = 0) ->
  good s (s' ← ib_mark_mad_done id s; Some (set_calls (s'.(calls) ++ [Complete id st]) s', out)).
Proof.
  intros Hs Hr Ho Haw Ht.
  pose proof (mark_complete_ok s id r r.(wr) st out Hs Hr Haw eq_refl (msg_ok_done _ (ro_msg _ _ _ Ho)) Ht) as Hg.
  assert (E : set_reqs (<[id := mk_req (wr r) (req_tid r)]> s.(reqs)) s = s).
  { rewrite insert_id; [by destruct s|]. rewrite Hr. by destruct r. }
  by rewrite E in Hg.
Qed.

Lemma abort_send_ok s m : sends_ok s -> mad_room m.(in_bytes) -> good s (abort_send a m s).
Proof.
  intros Hs Hm. unfold abort_send. destruct (find_send_mad_ok s m Hs Hm) as (f & -> & Hf). cbn [mbind option_bind].
  destruct f as [id|]; [|by apply good_same]. destruct (Hf id eq_refl) as (r & Hr & Ho & Haw).
  rewrite Hr. cbn [mbind option_bind]. case_test; [by apply good_same|]. by apply (mark_ok s id r).
Qed.

Lemma abort_nack_ok s m st : sends_ok s -> mad_room m.(in_bytes) -> good s (abort_nack a m st s).
Proof. intros Hs Hm. apply good_more; [by apply abort_send_ok|done]. Qed.

(** ** Acknowledgements *)

Lemma seek_skip c n start k (l1 : list Z) rest :
  snums c.(rmpp_list) = seqZ 1 n -> Forall (fun i => 0 <= i < n /\ i + 1 <> k) l1 ->
  seek head_num c start k ((Some <$> l1) ++ rest) = seek head_num c start k rest.
Proof.
  intros Hn. induction 1 as [|i l1 [Hi Hk] _ IH]; [done|]. cbn [seek fmap list_fmap app].
  rewrite (num_at_seg head_num c n Hn) by done. cbn [mbind option_bind]. by rewrite (proj2 (Z.eqb_neq _ _)) by done.
Qed.

Lemma adjust_last_ack_ok w n :
  ready w -> rmpp_pos w -> w.(ctl).(last_ack) < n <= w.(send_buf).(seg_count) ->
  adjust_last_ack head_num n w.(ctl) = Some (set_last_ack n (n - 1) w.(ctl)).
Proof.
  intros Hr Hp Hn. pose proof (rd_nums _ Hr) as Hnums. pose proof (rp_ack _ Hp). pose proof (rp_ack_seg _ Hp) as Hseg.
  pose proof (rd_count _ Hr). unfold adjust_last_ack, round.
  replace (Z.of_nat (length (rmpp_list (ctl w)))) with w.(send_buf).(seg_count) by (pose proof (segs_length _ _ Hnums); lia).
  set (i := last_ack_seg (ctl w)) in *. set (N := seg_count (send_buf w)) in *.
  assert (E : seek head_num (ctl w) i n ((Some <$> seqZ (i + 1) (N - i - 1)) ++ [None] ++ (Some <$> seqZ 0 i)) = Some (n - 1));
    [|by rewrite E].
  destruct (decide (i + 2 <= n)) as [Hi|Hi].
  - replace (N - i - 1) with ((n - i - 2) + (N - n + 1)) by lia. rewrite seqZ_app by lia.
    rewrite fmap_app, <- (assoc_L (++)). replace (i + 1 + (n - i - 2)) with (n - 1) by lia.
    rewrite (seqZ_cons (n - 1)) by lia. rewrite fmap_cons.
    change ((Some (n - 1) :: ?a) ++ ?b) with (Some (n - 1) :: (a ++ b)).
    rewrite (seek_found head_num _ _ Hnums); [done| |].
    + apply Forall_seqZ. lia.
    + rewrite (num_at_seg head_num _ _ Hnums) by lia. f_equal. lia.
  - assert (n = 1 /\ i = 0) as [-> Hi0] by lia. rewrite Hi0.
    rewrite (seek_skip _ N) by (try done; apply Forall_seqZ; lia).
    cbn [app fmap list_fmap seqZ seq]. cbn [seek num_at mbind option_bind]. by rewrite (proj2 (Z.eqb_neq _ _)) by done.
Qed.

(** Putting a request on the wait list anew: it waits [ms] from now on. *)
Lemma reset_ok s id r w ms out :
  sends_ok s -> s.(reqs) !! id = Some r -> uses s id = 0 -> 0 <= jif ms ->
  let w' := set_timeout (jif ms + s.(jiffies)) w in
  msg_ok w' -> w.(refcount) = c_bool (awaiting w') -> (w.(status) = IB_WC_SUCCESS -> 0 < jif ms) ->
  (forall x, tally x out = 0) ->
  good s (s' ← ib_reset_mad_timeout msecs_to_jiffies id ms (set_reqs (<[id := mk_req w r.(req_tid)]> s.(reqs)) s);
          Some (s', out)).
Proof.
  intros Hs Hr Hu Hj w' Hm Href Hst Ht. unfold ib_reset_mad_timeout. cbn [reqs set_reqs]. rewrite lookup_insert_eq.
  cbn [mbind option_bind wr]. rewrite (store_some _ _ (mk_req w r.(req_tid))) by apply lookup_insert_eq.
  cbn [mbind option_bind wr req_tid]. rewrite store_twice.
  set (r1 := mk_req (set_timeout (jif ms) w) (req_tid r)).
  set (s1 := set_reqs (<[id := r1]> s.(reqs)) s).
  destruct (wait_for_response_ok id s1 r1) as (s2 & -> & Hq2 & Hf2 & Hr2 & Hin & Hu2).
  { apply queues_unlink_insert, Hs. }
  { intros x Hx Hne. unfold s1. cbn [reqs set_reqs]. rewrite lookup_insert_ne by done.
    destruct (wait_live s Hs x Hx) as (? & ? & _). eauto. }
  { apply lookup_insert_eq. }
  { done. }
  cbn [mbind option_bind]. assert (Hu2' : uses s2 id = 0) by (rewrite Hu2; exact Hu).
  apply (good_intro id); [done| |done| |done|].
  - eapply req_frame_trans; [|exact Hf2]. apply frame_insert.
  - unfold one_ok. rewrite Hr2. cbn [wr r1]. change (set_timeout _ (set_timeout _ w)) with w'.
    split; [done|by rewrite Hu2'|lia|]. apply Waits; [done|done|].
    intros E. pose proof (qo_now _ (proj1 Hs)). cbn in *. specialize (Hst E). lia.
  - by rewrite Ht, (live_some _ _ _ Hr), (live_some _ _ _ Hr2).
Qed.

(** What an acknowledgement of the segments up to [n] makes of a request. *)
Record acked (w w1 : send_wr) (n win : Z) : Prop := {
  ak_buf : w1.(send_buf) = w.(send_buf);
  ak_ready : ready w1;
  ak_pos : rmpp_pos w1;
  ak_ack : w1.(ctl).(last_ack) = Z.max w.(ctl).(last_ack) n;
  ak_same : w1.(refcount) = w.(refcount) /\ w1.(status) = w.(status) /\ w1.(timeout) = w.(timeout)
}.

Lemma acked_ok w n win :
  ready w -> rmpp_pos w -> w.(ctl).(last_ack) <= n <= w.(send_buf).(seg_count) ->
  exists wa, (if w.(ctl).(last_ack) <? n then
      c ← adjust_last_ack head_num n w.(ctl); Some (set_retries_left w.(max_retries) (set_ctl c w))
    else Some w) = Some wa /\ acked w (set_ctl (set_newwin win wa.(ctl)) wa) n win.
Proof.
  intros Hr Hp Hn. destruct (Z.ltb_spec (last_ack (ctl w)) n).
  - rewrite adjust_last_ack_ok by (done || lia). cbn [mbind option_bind]. eexists. split; [done|].
    pose proof (rp_seg _ Hp). pose proof (rp_ack _ Hp).
    split; cbn; try done; [by destruct Hr|split; cbn; lia|lia].
  - exists w. split; [done|]. destruct Hp. split; cbn; try done; [by destruct Hr|lia].
Qed.

Lemma acked_await w w1 n win : acked w w1 n win -> awaiting w1 = awaiting w.
Proof. intros [_ _ _ _ (_ & Hs & Ht)]. unfold awaiting. by rewrite Hs, Ht. Qed.

Lemma acked_msg w w1 n win t :
  msg_ok w -> is_rmpp w = true -> acked w w1 n win -> 0 <= t ->
  (awaiting (set_timeout t w1) = true -> Z.max w.(ctl).(last_ack) n = w.(send_buf).(seg_count) ->
   w.(send_buf).(timeout_ms) <> 0) -> msg_ok (set_timeout t w1).
Proof.
  intros Hm Hi [Hb Hr Hp Ha _] Ht Haw.
  assert (Hi' : is_rmpp (set_timeout t w1) = true) by (unfold is_rmpp in *; cbn; by rewrite Hb).
  split; try done; cbn [send_buf set_timeout ctl]; rewrite ?Hb; try apply Hm.
  - intros _. split; [by apply ready_timeout|]. by destruct Hp.
  - rewrite Hi'. done.
  - intros Haw' Hl. specialize (Hl Hi'). rewrite Ha in Hl. auto.
Qed.

Lemma queues_unordered s m : ~ in_order -> queues_ok s -> queues_ok (set_reqs m s).
Proof. intros Hn []. by split. Qed.

(** The acknowledgement lets the next segment go. *)
Lemma ack_sends s id r w1 env :
  sends_ok s -> s.(reqs) !! id = Some r -> awaiting r.(wr) = true -> uses s id = 0 ->
  is_rmpp w1 = true -> msg_ok w1 -> w1.(refcount) = 1 -> w1.(status) = r.(wr).(status) ->
  0 < w1.(timeout) ->
  w1.(ctl).(seg_num) < w1.(send_buf).(seg_count) -> w1.(ctl).(last_ack) <> w1.(send_buf).(seg_count) ->
  (in_order -> post_result env = 0) ->
  good s ('(w, ret, out) ← send_next_seg msecs_to_jiffies head_num w1 env;
    s1 ← store id w (set_reqs (<[id := mk_req w1 r.(req_tid)]> s.(reqs)) s);
    if c_true ret then Some (s1, []) else
    s1 ← store id (set_refcount (w.(refcount) + 1) w) s1;
    s1 ← fly id (to_send_list id s1);
    Some (s1, sent_effect id out)).
Proof.
  intros Hs Hr Haw Hu Hi Hm Href Hst Htp Hn Hl He. destruct (mo_rmpp _ Hm Hi) as [Hrd Hp]. pose proof (rp_seg _ Hp).
  destruct (send_next_advances w1 env Hi (mo_room _ Hm) Hrd) as (w2 & out & -> & Had); [lia|].
  assert (Hm2 : msg_ok w2) by (apply (advanced_ok w1); try done; apply Hm).
  cbn [mbind option_bind]. rewrite (store_some _ _ (mk_req w1 r.(req_tid))) by apply lookup_insert_eq.
  cbn [mbind option_bind req_tid]. rewrite store_twice. apply awaiting_spec in Haw as [Hst0 _].
  assert (Ht2 : 0 < timeout w2) by (pose proof (ad_timeout _ _ Had); lia).
  assert (Haw2 : awaiting w2 = true) by (apply awaiting_spec; rewrite (ad_status _ _ Had), Hst; done).
  destruct (Z.eqb_spec (post_result env) 0) as [E|E].
  - rewrite E. cbn [c_true Z.eqb negb]. rewrite (store_some _ _ (mk_req w2 r.(req_tid))) by apply lookup_insert_eq.
    cbn [mbind option_bind req_tid]. rewrite store_twice.
    set (w3 := set_refcount (refcount w2 + 1) w2). set (s1 := set_reqs (<[id := mk_req w3 (req_tid r)]> s.(reqs)) s).
    destruct (uses_zero s id Hu) as [Hfl%in_flight_out _]. rewrite fly_some by done. cbn [mbind option_bind].
    set (sF := set_flights _ (to_send_list id s1)). assert (Hu3 : uses sF id = 1).
    { unfold sF. rewrite (uses_fly (to_send_list id s1)) by done. change (uses (to_send_list id s1) id) with (uses s id). lia. }
    assert (Hm3 : msg_ok w3) by (by apply (msg_ok_fields w2)).
    apply (good_intro id); [done| | | | |].
    + eapply req_frame_trans; [apply frame_insert|]. eapply req_frame_trans; [apply frame_send|apply frame_fly].
    + apply (queues_fly id (to_send_list id s1)); [|done]. apply queues_send. apply queues_unlink_insert, Hs.
    + unfold one_ok. cbn [reqs set_flights to_send_list unlink set_lists set_reqs s1 sF]. rewrite lookup_insert_eq. cbn [wr].
      split; [done| | |].
      * rewrite Hu3. change (awaiting w3) with (awaiting w2). rewrite Haw2. cbn. rewrite (ad_ref _ _ Had). lia.
      * intros _. lia.
      * apply Sends; [cbn; set_solver|lia].
    + intros x _. apply tally_sent.
    + rewrite tally_sent, (live_some _ _ _ Hr). unfold live. cbn. by rewrite lookup_insert_eq.
  - rewrite (proj2 (c_true_spec _) E). apply (good_intro id); [done|apply frame_insert| | |done|].
    + apply queues_unordered; [naive_solver|apply Hs].
    + unfold one_ok. cbn [reqs set_reqs]. rewrite lookup_insert_eq. cbn [wr]. pose proof (proj2 Hs id) as Ho.
      unfold one_ok in Ho. rewrite Hr in Ho. split; [done| | |].
      * rewrite uses_reqs, Haw2, (ad_ref _ _ Had). cbn. lia.
      * rewrite uses_reqs. lia.
      * destruct (ro_place _ _ _ Ho) as [Hw _ _|? ?|? ? _]; [|lia|lia]. by apply Waits.
    + rewrite (live_some _ _ _ Hr). unfold live. cbn. by rewrite lookup_insert_eq.
Qed.

(** An acknowledgement that is neither old nor wrong. *)
Lemma ack_applies s id r m n win env :
  sends_ok s -> s.(reqs) !! id = Some r -> req_ok s id r.(wr) -> awaiting r.(wr) = true ->
  is_rmpp r.(wr) = true -> r.(wr).(ctl).(last_ack) <> r.(wr).(send_buf).(seg_count) ->
  r.(wr).(ctl).(last_ack) <= n <= r.(wr).(send_buf).(seg_count) ->
  (in_order -> post_result env = 0) ->
  let w := r.(wr) in let count := w.(send_buf).(seg_count) in
  good s (w ← (if w.(ctl).(last_ack) <? n then
             c ← adjust_last_ack head_num n w.(ctl); Some (set_retries_left w.(max_retries) (set_ctl c w))
           else Some w);
      let w := set_ctl (set_newwin win w.(ctl)) w in
      s ← store id w s;
      if w.(ctl).(last_ack) =? count then
        if negb (c_true w.(send_buf).(timeout_ms)) then
          s ← ib_mark_mad_done id s;
          Some (set_calls (s.(calls) ++ [Complete id IB_WC_SUCCESS]) s, [])
        else
          s ← (if w.(refcount) =? 1 then ib_reset_mad_timeout msecs_to_jiffies id w.(send_buf).(timeout_ms) s else Some s);
          Some (s, [DsAck m])
      else if (w.(refcount) =? 1) && (w.(ctl).(seg_num) <? win) && (w.(ctl).(seg_num) <? count) then
        '(w, ret, out) ← send_next_seg msecs_to_jiffies head_num w env;
        s ← store id w s;
        if c_true ret then Some (s, []) else
        s ← store id (set_refcount (w.(refcount) + 1) w) s;
        s ← fly id (to_send_list id s);
        Some (s, sent_effect id out)
      else Some (s, [])).
Proof.
  intros Hs Hr Ho Haw Hi Hl Hn He w count. pose proof Ho as [Hm Href Hone Hpl]. fold w in Hm, Href, Hone, Hpl, Haw, Hi, Hl, Hn.
  destruct (mo_rmpp _ Hm Hi) as [Hrd Hp]. destruct (acked_ok w n win Hrd Hp Hn) as (wa & -> & Hak).
  cbn [mbind option_bind]. set (w1 := set_ctl (set_newwin win (ctl wa)) wa) in *. clearbody w1.
  rewrite (store_some _ _ r) by done. cbn [mbind option_bind].
  assert (Hi1 : is_rmpp w1 = true) by (unfold is_rmpp in *; by rewrite (ak_buf _ _ _ _ Hak)).
  destruct (ak_same _ _ _ _ Hak) as (Hrc & Hst & Ht1).
  pose proof (acked_await _ _ _ _ Hak) as Haw1. rewrite Haw in Haw1, Href. cbn in Href.
  pose proof (mo_range _ Hm) as Hrange. pose proof (ak_ack _ _ _ _ Hak) as Hack. pose proof (ak_buf _ _ _ _ Hak) as Hbuf.
  pose proof (in_flight_bounds s id). pose proof (due_nonneg s id).
  assert (Hfin : forall t, 0 <= t -> (t <> 0 -> Z.max (last_ack (ctl w)) n = count -> w.(send_buf).(timeout_ms) <> 0) ->
      msg_ok (set_timeout t w1)).
  { intros t H1 H2. apply (acked_msg w w1 n win); try done. intros [_ H3]%awaiting_spec. apply H2. cbn in H3. lia. }
  assert (Hsame : set_timeout (timeout w1) w1 = w1) by (by destruct w1).
  assert (Hpos : 0 < timeout w) by (apply awaiting_spec in Haw; apply Haw).
  assert (Hstore : msg_ok w1 -> forall out, (forall x, tally x out = 0) ->
      good s (Some (set_reqs (<[id := mk_req w1 (req_tid r)]> s.(reqs)) s, out))).
  { intros Hm1 out Hout. apply (good_intro id); [done|apply frame_insert| | |done|].
    - apply queues_insert_req; [apply Hs|]. intros _. by rewrite (deadline_some _ _ _ Hr).
    - unfold one_ok. cbn [reqs set_reqs]. rewrite lookup_insert_eq. cbn [wr].
      split; [done|rewrite uses_reqs, Hrc, Haw1; exact Href|rewrite uses_reqs; auto|].
      destruct Hpl; [apply Waits|apply Sends|apply Done]; rewrite ?Hst, ?Ht1; done.
    - rewrite Hout, (live_some _ _ _ Hr). unfold live. cbn. by rewrite lookup_insert_eq. }
  rewrite Hack, Hbuf, Hrc. destruct (Z.eqb_spec (Z.max (last_ack (ctl w)) n) count) as [Ec|Ec].
  - destruct (c_true (timeout_ms (send_buf w))) eqn:Ems; cbn [negb].
    + apply c_true_spec in Ems. assert (Hm1 : msg_ok w1) by (rewrite <- Hsame; apply Hfin; [lia|done]).
      destruct (Z.eqb_spec (refcount w) 1).
      * apply (reset_ok s id r w1 (timeout_ms (send_buf w))); try done.
        -- lia.
        -- by apply jif_nonneg, int_range_u32.
        -- pose proof (jif_pos _ (int_range_u32 _ Hrange) Ems). pose proof (qo_now _ (proj1 Hs)). apply Hfin; [lia|done].
        -- rewrite (proj2 (awaiting_spec _)); [cbn; lia|]. pose proof (jif_pos _ (int_range_u32 _ Hrange) Ems).
           pose proof (qo_now _ (proj1 Hs)). apply awaiting_spec in Haw1. cbn. split; [apply Haw1|lia].
        -- intros _. by apply jif_pos; [apply int_range_u32|].
      * cbn [mbind option_bind]. by apply Hstore.
    + apply (mark_complete_ok s id r w1 IB_WC_SUCCESS []); try done. apply Hfin; [lia|done].
  - assert (Hm1 : msg_ok w1) by (rewrite <- Hsame; apply Hfin; [lia|done]).
    case_test; [|by apply Hstore]. bool_arith. apply ack_sends; try done; rewrite ?Hbuf, ?Hack, ?Ht1; try done; lia.
Qed.

(** A step that concerns no request. *)
Lemma good_frames s s' out :
  sends_ok s -> (forall id, frame id s s') -> queues_ok s' -> (forall x, tally x out = 0) -> good s (Some (s', out)).
Proof.
  intros Hs Hf Hq Ht. exists s', out. split; [done|]. split; [split; [done|]|].
  - intros x. apply (frame_one (x + 1) s); [done|lia|apply Hs].
  - intros x. rewrite Ht. unfold live. rewrite (fr_reqs _ _ _ (Hf (x + 1))) by lia. lia.
Qed.

Lemma process_rmpp_ack_ok s m env :
  sends_ok s -> mad_room m.(in_bytes) -> (in_order -> post_result env = 0) ->
  good s (process_rmpp_ack a msecs_to_jiffies head_num m env s).
Proof.
  intros Hs Hm He. unfold process_rmpp_ack.
  destruct (room_get _ RMPP_STATUS_OFF Hm) as [st ->]; [done|]. cbn [mbind option_bind].
  case_test; [by apply abort_nack_ok|].
  destruct (room_be _ RMPP_SEG_NUM_OFF 4 Hm) as [n ->]; [done..|].
  destruct (room_be _ RMPP_PAYLEN_OFF 4 Hm) as [win ->]; [done..|]. cbn [mbind option_bind].
  case_test; [by apply abort_nack_ok|].
  destruct (find_send_mad_ok s m Hs Hm) as (f & -> & Hf). cbn [mbind option_bind].
  destruct f as [id|]; [|apply good_same; [done|]; intros x; by case_test].
  destruct (Hf id eq_refl) as (r & Hr & Ho & Haw). rewrite Hr. cbn [mbind option_bind].
  case_test; [by apply good_same|]. case_test; [by apply good_same|].
  case_test.
  { apply good_frames; [done| | |done].
    - intros id'. split; try done. intros x _. unfold uses. rewrite due_app, filter_cons_False, filter_nil by (cbn; tauto).
      cbn [length]. change (in_flight (set_calls ?l s) x) with (in_flight s x). lia.
    - destruct (proj1 Hs). split; try done. cbn. apply list.Forall_app. split; [done|]. by constructor. }
  case_test; [by apply good_same|]. bool_arith.
  pose proof (mo_timeout _ (ro_msg _ _ _ Ho)).
  apply (ack_applies s id r m); try done.
  destruct (is_rmpp (wr r)) eqn:Ei; [done|]. destruct (mo_plain _ (ro_msg _ _ _ Ho) Ei). congruence.
Qed.

(** ** Received MADs *)

Lemma recv_wc_ok s m data env :
  sends_ok s -> mad_room m.(in_bytes) -> (forall d, data = Some d -> mad_room d.(in_bytes)) ->
  (in_order -> post_result env = 0) ->
  exists s' out rest, ib_process_rmpp_recv_wc a msecs_to_jiffies head_num m data env s = Some (s', out, rest) /\
    good s (Some (s', out)) /\ (forall d, rest = Some d -> mad_room d.(in_bytes)).
Proof.
  intros Hs Hm Hd He. unfold ib_process_rmpp_recv_wc.
  destruct (room_get _ RMPP_FLAGS_OFF Hm) as [fl ->]; [done|]. cbn [mbind option_bind].
  case_test; [eexists _, _, _; split; [done|]; split; [by apply good_same|naive_solver]|].
  destruct (room_get _ RMPP_VERSION_OFF Hm) as [v ->]; [done|].
  unfold rmpp_type. destruct (room_get _ RMPP_TYPE_OFF Hm) as [t ->]; [done|]. cbn [mbind option_bind].
  assert (Hfin : forall res, good s res -> exists s' out rest,
    ('(s', out) ← res; Some (s', out, None)) = Some (s', out, rest) /\ good s (Some (s', out)) /\
    (forall d : in_mad, rest = Some d -> mad_room d.(in_bytes))).
  { intros res (s' & out & -> & Hg). eexists _, _, _. split; [done|]. split; [|done]. by exists s', out. }
  case_test; [by apply Hfin, abort_nack_ok|].
  case_test; [eexists _, _, _; split; [done|]; split; [by apply good_same|done]|].
  case_test; [by apply Hfin, process_rmpp_ack_ok|].
  destruct (room_get _ RMPP_STATUS_OFF Hm) as [st Est]; [done|].
  case_test; [apply Hfin; unfold process_rmpp_stop; rewrite Est; cbn [mbind option_bind];
    case_test; [by apply abort_nack_ok|by apply abort_send_ok]|].
  case_test; [apply Hfin; unfold process_rmpp_abort; rewrite Est; cbn [mbind option_bind];
    case_test; [by apply abort_nack_ok|by apply abort_send_ok]|].
  by apply Hfin, abort_nack_ok.
Qed.

Lemma good_bind s s1 out1 res :
  good s (Some (s1, out1)) -> (sends_ok s1 -> good s1 res) ->
  good s ('(s2, out2) ← res; Some (s2, out1 ++ out2)).
Proof.
  intros (s' & out & [= <- <-] & Hs1 & Ht1) Hres. destruct (Hres Hs1) as (s2 & out2 & -> & Hs2 & Ht2).
  exists s2, (out1 ++ out2). split; [done|]. split; [done|]. intros x. rewrite tally_app, Ht2, Ht1. lia.
Qed.

Lemma complete_recv_ok s m security data env :
  sends_ok s -> mad_room m.(in_bytes) -> (forall d, data = Some d -> mad_room d.(in_bytes)) ->
  (in_order -> post_result env = 0) ->
  good s (ib_mad_complete_recv a msecs_to_jiffies head_num m security data env s).
Proof.
  intros Hs Hm Hd He. unfold ib_mad_complete_recv. case_test; [by apply good_same|].
  assert (Hp : exists s1 out rest, (if ib_mad_kernel_rmpp_agent a
      then ib_process_rmpp_recv_wc a msecs_to_jiffies head_num m data env s else Some (s, [], Some m)) = Some (s1, out, rest) /\
    good s (Some (s1, out)) /\ (forall d, rest = Some d -> mad_room d.(in_bytes))).
  { case_test; [by apply recv_wc_ok|]. eexists _, _, _. split; [done|]. split; [by apply good_same|naive_solver]. }
  destruct Hp as (s1 & out & rest & -> & Hg & Hrest). cbn [mbind option_bind]. destruct rest as [m'|]; [|done].
  specialize (Hrest m' eq_refl). destruct (room_response _ Hrest) as [b ->]. cbn [mbind option_bind].
  destruct b; cbn [negb]; [|eapply (good_bind _ _ _ (Some (s1, [Unsolicited m']))); [done|intros; by apply good_same]].
  assert (Hs1 : sends_ok s1) by (by destruct Hg as (? & ? & [= <- <-] & ? & _)).
  destruct (find_send_mad_ok s1 m' Hs1 Hrest) as (f & -> & Hf). cbn [mbind option_bind]. destruct f as [id|].
  - destruct (Hf id eq_refl) as (r & Hr & Ho & Haw).
    pose proof (good_bind s s1 out _ Hg (fun _ => mark_ok s1 id r IB_WC_SUCCESS [Response id m'] Hs1 Hr Ho Haw (fun _ => eq_refl))) as G.
    destruct (ib_mark_mad_done id s1); exact G.
  - unfold mad_class. destruct (room_get _ 1 Hrest) as [c ->]; [done|].
    destruct (room_get _ RMPP_FLAGS_OFF Hrest) as [fl ->]; [done|]. cbn [mbind option_bind].
    eapply (good_bind _ _ _ (Some (s1, _))); [done|]. intros _. apply good_same; [done|]. intros x. by case_test.
Qed.

(** ** Posting *)

Lemma prepare_msg w :
  postable w -> (is_rmpp w = true -> ready (prepare msecs_to_jiffies w) /\ rmpp_pos (prepare msecs_to_jiffies w)) /\
  (is_rmpp w = false -> plain (prepare msecs_to_jiffies w)) /\
  is_rmpp (prepare msecs_to_jiffies w) = is_rmpp w /\ 0 <= timeout (prepare msecs_to_jiffies w) /\
  (0 < timeout (prepare msecs_to_jiffies w) -> w.(send_buf).(timeout_ms) <> 0).
Proof.
  intros [Hroom Hrange Hr Hp]. split; [|split; [|split; [done|split]]].
  - intros Hi. destruct (Hr Hi) as ([] & Hs & Ha & Hl). split; [by split|]. split; cbn; rewrite ?Hs, ?Ha, ?Hl; lia.
  - intros Hi. by destruct (Hp Hi).
  - by apply jif_nonneg, int_range_u32.
  - cbn. intros H E. rewrite E, jif_0 in H. lia.
Qed.

(** What the request is when it has been sent. *)
Definition posted (w : send_wr) : Prop :=
  msg_ok w /\ w.(refcount) = 1 + c_bool (awaiting w).

Lemma post_plain w env :
  postable w -> is_rmpp w = false -> exists out,
  ib_send_mad head_num (prepare msecs_to_jiffies w) env = Some (prepare msecs_to_jiffies w, post_result env, out) /\
  posted (prepare msecs_to_jiffies w).
Proof.
  intros Hpo Hi. destruct (prepare_msg w Hpo) as (_ & Hp & Hi' & Ht & Hms). specialize (Hp Hi). rewrite Hi in Hi'.
  destruct (send_plain _ env Hp) as [out ->]. exists out. split; [done|]. split; [|done].
  split; try done; try apply Hpo; [by rewrite Hi'|]. intros [_ Hpos]%awaiting_spec _. by apply Hms.
Qed.

Lemma post_rmpp w repwin env :
  postable w -> is_rmpp w = true -> env_ok env -> exists w' ret out,
  ('(w, ret, out) ← ib_send_rmpp_mad msecs_to_jiffies head_num (prepare msecs_to_jiffies w) repwin env;
   if (0 <=? ret) && negb (ret =? IB_RMPP_RESULT_CONSUMED) then ib_send_mad head_num w env else Some (w, ret, out))
  = Some (w', ret, out) /\ (0 <= ret -> posted w').
Proof.
  intros Hpo Hi He. destruct (prepare_msg w Hpo) as (Hrd & _ & Hi' & Ht & Hms). destruct (Hrd Hi) as [Hr Hp].
  rewrite Hi in Hi'. destruct (po_rmpp _ Hpo Hi) as (_ & Hs & Ha & _).
  set (w1 := prepare msecs_to_jiffies w) in *. pose proof (po_room _ Hpo : mad_room (mad (send_buf w1))) as Hroom.
  assert (Hrange : int_range (timeout_ms (send_buf w1))) by apply Hpo.
  unfold ib_send_rmpp_mad. apply is_rmpp_active in Hi' as Hact. rewrite (proj2 Hact). cbn [mbind option_bind negb].
  unfold rmpp_type. destruct (room_get _ RMPP_TYPE_OFF Hroom) as [t ->]; [done|]. cbn [mbind option_bind].
  pose proof (rd_count _ Hr). case_test; cbn [mbind option_bind].
  - (* an acknowledgement, stop or abort of the agent's own *)
    set (w2 := set_ctl (set_seg_num 1 (ctl w1)) w1).
    assert (Hr2 : ready w2) by (apply ready_ctl; try done; apply Hr).
    destruct (ib_send_mad_ok head_num w2 env Hr2) as (i & out & E2 & Hi2 & _); [cbn in *; lia|].
    cbn [Z.leb Z.eqb IB_RMPP_RESULT_INTERNAL IB_RMPP_RESULT_CONSUMED andb negb]. cbn. rewrite E2.
    eexists _, _, _. split; [done|]. intros _. split; [|done].
    split; try done; [|intros Hx; change (is_rmpp w1 = false) in Hx; congruence|].
    + intros _. split; [by apply ready_ctl|]. destruct Hp. split; cbn in *; lia.
    + intros _ Hl. specialize (Hl Hi'). cbn in *. lia.
  - unfold init_newwin. destruct (room_get _ 3 Hroom) as [me ->]; [done|]. cbn [mbind option_bind].
    set (win := if c_true _ then _ else _). set (w2 := set_refcount _ (set_ctl _ w1)).
    assert (Hr2 : ready w2) by (by destruct Hr).
    assert (Hp2 : rmpp_pos w2) by (by destruct Hp).
    destruct (send_next_advances w2 env) as (w3 & out & -> & Had); try done; [cbn in *; lia|].
    assert (Hm3 : msg_ok w3) by (apply (advanced_ok w2); try done; cbn in *; lia).
    assert (Haw : awaiting w3 = true).
    { apply awaiting_spec. rewrite (ad_status _ _ Had). split; [done|]. pose proof (ad_timeout _ _ Had) as Hat.
      destruct Hat as [Hat|[Hat Hms2]]; [done|]. rewrite Hat. by apply jif_pos; [apply int_range_u32|]. }
    cbn [mbind option_bind]. unfold env_ok in He.
    destruct (Z.eqb_spec (post_result env) 0) as [E0|E0]; cbn.
    + eexists _, _, _. split; [done|]. intros _. split; [done|]. rewrite Haw, (ad_ref _ _ Had). cbn.
      destruct (Z.ltb_spec 0 (jif (timeout_ms (send_buf w)))); cbn in *; [rewrite (proj2 (Z.eqb_neq _ _)) by lia; cbn; lia|].
      rewrite (proj2 (Z.eqb_eq _ _)) by lia. cbn. lia.
    + rewrite (proj2 (Z.leb_gt _ _)) by lia. cbn. eexists _, _, _. split; [done|]. lia.
Qed.

Lemma post_ok s id w p :
  sends_ok s -> s.(reqs) !! id = None -> postable w -> env_ok p.(p_env) ->
  good s (ib_post_send_mad a msecs_to_jiffies head_num id w p s).
Proof.
  intros Hs Hnone Hpo He. unfold ib_post_send_mad. pose proof (po_room _ Hpo) as Hroom.
  assert (Hrej : forall ret, good s (Some (s, [Rejected id ret]))) by (intros; by apply good_same).
  case_test; [done|]. case_test; [done|]. unfold mad_class. destruct (room_get _ 1 Hroom) as [c ->]; [done|].
  cbn [mbind option_bind]. case_test; [done|]. case_test; [done|]. case_test; [by apply good_same|].
  unfold mad_tid. destruct (room_be _ 8 8 Hroom) as [t ->]; [done..|]. cbn [mbind option_bind].
  assert (Hp : exists w' ret out, (if ib_mad_kernel_rmpp_agent a then
      '(w, ret, out) ← ib_send_rmpp_mad msecs_to_jiffies head_num (prepare msecs_to_jiffies w) (p_repwin p) (p_env p);
      if (0 <=? ret) && negb (ret =? IB_RMPP_RESULT_CONSUMED)
      then ib_send_mad head_num w (p_env p) else Some (w, ret, out)
    else ib_send_mad head_num (prepare msecs_to_jiffies w) (p_env p)) = Some (w', ret, out) /\ (0 <= ret -> posted w')).
  { destruct (is_rmpp w) eqn:Ei.
    - rewrite (proj1 (is_rmpp_active _ Ei)). by apply post_rmpp.
    - destruct (post_plain w (p_env p) Hpo Ei) as (out & E4 & Hpost). case_test; [|eauto 10].
      assert (Ha : rmpp_active (mad (send_buf w)) = Some false).
      { unfold is_rmpp in Ei. rewrite E5 in Ei. destruct (room_active _ Hroom) as [[] Hb]; rewrite Hb in *; done. }
      unfold ib_send_rmpp_mad. cbn [prepare send_buf set_retries mad]. rewrite Ha. cbn [mbind option_bind negb].
      cbn [Z.leb Z.eqb IB_RMPP_RESULT_UNHANDLED IB_RMPP_RESULT_CONSUMED andb negb]. cbn. eauto 10. }
  destruct Hp as (w' & ret & out & -> & Hpost). cbn [mbind option_bind]. case_test; [done|]. apply Z.ltb_ge in E4.
  destruct (Hpost E4) as [Hm Href]. pose proof (proj2 Hs id) as Ho. unfold one_ok in Ho. rewrite Hnone in Ho.
  destruct Ho as (Hu & H1 & H2 & H3). destruct (uses_zero s id Hu) as [Hfl%in_flight_out _].
  set (s1 := set_reqs (<[id := mk_req w' t]> s.(reqs)) s). set (s2 := set_lists _ _ _ s1).
  rewrite (fly_some id s2) by done. cbn [mbind option_bind]. set (s3 := set_flights _ s2).
  assert (Hu3 : uses s3 id = 1) by (unfold s3; rewrite (uses_fly s2 id) by done; change (uses s2 id) with (uses s id); lia).
  apply (good_intro id); [done| | | | |].
  - eapply req_frame_trans; [apply frame_insert|]. eapply req_frame_trans; [|apply (frame_fly id s2)].
    split; try done. intros x Hx. cbn. rewrite list.elem_of_app, list_elem_of_singleton. naive_solver.
  - apply (queues_fly id s2); [|done]. apply (queues_append id s1).
    + apply queues_insert_req; [apply Hs|done].
    + cbn. rewrite !list.elem_of_app. naive_solver.
  - unfold one_ok. cbn [reqs s3 s2 s1 set_flights set_lists set_reqs]. rewrite lookup_insert_eq. cbn [wr].
    split; [done|by rewrite Hu3|lia|]. apply Sends; [cbn; set_solver|lia].
  - intros x Hx. cbn. rewrite tally_sent, (proj2 (Z.eqb_neq _ _)) by congruence. done.
  - cbn. rewrite tally_sent, Z.eqb_refl, (live_none _ _ Hnone). unfold live. cbn. by rewrite lookup_insert_eq.
Qed.

(** ** Modification *)

Lemma msg_ok_modify w w' k t :
  msg_ok w -> int_range k -> 0 <= t -> w'.(send_buf) = set_timeout_ms k w.(send_buf) -> w'.(ctl) = w.(ctl) ->
  w'.(sge_len) = w.(sge_len) -> w'.(timeout) = t -> (awaiting w' = true -> k <> 0) -> msg_ok w'.
Proof.
  intros [] Hk Ht Hb Hc Hg Htm Ha. assert (Hi : is_rmpp w' = is_rmpp w) by (unfold is_rmpp; by rewrite Hb).
  split; rewrite ?Hb, ?Htm, ?Hi, ?Hc; try done; [| |auto].
  - intros H. destruct (mo_rmpp0 H) as [[] []]. split; [split|split]; rewrite ?Hb, ?Hc, ?Hg; done.
  - intros H. destruct (mo_plain0 H). split; rewrite ?Hb, ?Hc, ?Hg; done.
Qed.

Lemma s32_nonzero ms : 0 <= ms < 2 ^ 32 -> ms <> 0 -> int_range (s32 ms) /\ s32 ms <> 0.
Proof.
  intros Hm Hn. split; [apply s32_range|]. unfold s32. rewrite wrap_small by (unfold fits; lia).
  destruct (Z.ltb_spec ms (2 ^ 31)); lia.
Qed.

(** What [ib_modify_mad] makes of the request before it sets the timeout. *)
Definition modified (w : send_wr) (ms : Z) : send_wr :=
  let w := if ms =? 0
           then set_refcount (w.(refcount) - c_bool (0 <? w.(timeout))) (set_status IB_WC_WR_FLUSH_ERR w)
           else w in
  set_buf (set_timeout_ms (s32 ms) w.(send_buf)) w.

Lemma modified_ok w ms t :
  msg_ok w -> 0 <= ms < 2 ^ 32 -> w.(status) = IB_WC_SUCCESS -> (ms <> 0 -> 0 < w.(timeout)) ->
  0 <= t -> (ms <> 0 -> 0 < t) ->
  let w' := set_timeout t (modified w ms) in
  msg_ok w' /\ w'.(refcount) - c_bool (awaiting w') = w.(refcount) - c_bool (awaiting w) /\
  (awaiting w' = true -> ms <> 0) /\ ((modified w ms).(status) = IB_WC_SUCCESS -> ms <> 0).
Proof.
  intros Hm Hms Hst Hc Ht Htp w'.
  assert (Haw : awaiting w' = true -> ms <> 0).
  { intros [H _]%awaiting_spec E. unfold w', modified in H. rewrite E in H. done. }
  split; [|split; [|split; [done|]]].
  - apply (msg_ok_modify w w' (s32 ms) t); try done; [apply s32_range| | | |].
    all: try (unfold w', modified; cbn; by case_test).
    intros H. apply s32_nonzero; auto.
  - unfold awaiting. rewrite Hst. cbn [andb]. unfold w', modified. destruct (Z.eqb_spec ms 0) as [->|Hn]; cbn.
    + lia.
    + rewrite Hst. cbn. specialize (Hc Hn). specialize (Htp Hn).
      rewrite !(proj2 (Z.ltb_lt _ _)) by lia. cbn. lia.
  - unfold modified. destruct (Z.eqb_spec ms 0); cbn; done.
Qed.

Lemma find_send_wr_ok s id :
  sends_ok s -> exists f, find_send_wr a id s = Some f /\
    forall x, f = Some x -> x = id /\ exists r, s.(reqs) !! id = Some r /\ req_ok s id r.(wr).
Proof.
  intros Hs. unfold find_send_wr. case_decide as Hw.
  - eexists. split; [done|]. intros x [= <-]. split; [done|]. apply lists_live; [done|]. set_solver.
  - case_decide as Hsn; [|by exists None].
    destruct (lists_live s id Hs) as (r & Hr & Ho); [set_solver|]. rewrite Hr. cbn [mbind option_bind].
    destruct (is_rmpp_data_total (mad (send_buf (wr r)))) as [d ->]; [apply Ho|]. cbn [mbind option_bind].
    eexists. split; [done|]. intros x Hx. destruct d; simplify_eq. split; [done|]. by exists r.
Qed.

Lemma modify_ok s id ms :
  sends_ok s -> 0 <= ms < 2 ^ 32 ->
  (forall r, s.(reqs) !! id = Some r -> r.(wr).(status) = IB_WC_SUCCESS -> ms <> 0 -> 0 < r.(wr).(timeout)) ->
  good s (ib_modify_mad a msecs_to_jiffies id ms s).
Proof.
  intros Hs Hms Hc. unfold ib_modify_mad. destruct (find_send_wr_ok s id Hs) as (f & -> & Hf). cbn [mbind option_bind].
  destruct f as [x|]; [|by apply good_same]. destruct (Hf x eq_refl) as (-> & r & Hr & [Hm Href Hone Hpl]).
  rewrite Hr. cbn [mbind option_bind]. case_test; [by apply good_same|]. bool_arith. specialize (Hc r Hr ltac:(done)).
  fold (modified (wr r) ms). set (w := modified (wr r) ms). pose proof (jif_nonneg ms ltac:(lia)) as Hj.
  assert (Hjp : ms <> 0 -> 0 < jif ms) by (intros; apply jif_pos; lia).
  pose proof (mo_timeout _ Hm). pose proof (qo_now _ (proj1 Hs)).
  pose proof (in_flight_bounds s id). pose proof (due_nonneg s id).
  destruct Hpl as [Hw Hu Ht|Hsn Hu|Hd Hu Ht].
  { (* it waits: it waits anew *)
    specialize (Ht ltac:(done)). assert (Haw : awaiting (wr r) = true) by (by apply awaiting_spec).
    rewrite Haw, Hu in Href. change (0 + c_bool true) with 1 in Href. rewrite Href, (proj2 (c_true_spec _)) by lia.
    change (negb true || (1 <? 1)) with false. cbn iota.
    rewrite (store_some _ _ r) by done. cbn [mbind option_bind].
    destruct (modified_ok (wr r) ms (jif ms + jiffies s) Hm Hms) as (Hm' & Hr' & _ & Hs'); try done; [lia|intros Hn; specialize (Hjp Hn); lia|].
    apply (reset_ok s id r w ms); try done; [|auto]. rewrite Haw, Href in Hr'. change (c_bool true) with 1 in Hr'.
    fold w in Hr'. change (refcount (set_timeout ?t w)) with (refcount w) in Hr'. lia. }
  all: assert (Hact : negb (c_true (timeout (wr r))) || (1 <? refcount (wr r)) = true);
    [destruct (c_true (timeout (wr r))) eqn:Ec; [|done]; apply c_true_spec in Ec;
     rewrite (proj2 (awaiting_spec (wr r))) in Href by (split; [done|lia]); cbn in *; apply Z.ltb_lt; lia|].
  all: rewrite Hact; rewrite (store_some _ _ r) by done; cbn [mbind option_bind];
    destruct (modified_ok (wr r) ms (jif ms) Hm Hms) as (Hm' & Hr' & Ha' & _); try done.
  all: assert (Hn : id ∉ s.(wait_list)) by (apply (place_not_waiting s id (wr r)); [apply Hs|by econstructor|done]).
  all: apply (good_intro id); [done|apply frame_insert|by apply queues_insert_req; [apply Hs|]| |done|
    by rewrite (live_some _ _ _ Hr); unfold live; cbn; rewrite lookup_insert_eq].
  all: unfold one_ok; cbn [reqs set_reqs]; rewrite lookup_insert_eq; cbn [wr]; fold w in Hr', Ha', Hm';
    (split; [done|rewrite uses_reqs; lia| |]).
  - intros Ha. rewrite uses_reqs. apply Hone. apply awaiting_spec. auto.
  - by apply Sends.
  - intros Ha. specialize (Hc (Ha' Ha)). lia.
  - destruct (decide (ms = 0)) as [->|Hnz]; [|specialize (Hc Hnz); lia]. apply Done; [done|done|]. apply jif_0.
Qed.

(** ** Timeouts *)

Lemma retry_rmpp_ok w env :
  is_rmpp w = true -> mad_room w.(send_buf).(mad) -> int_range w.(send_buf).(timeout_ms) -> ready w -> rmpp_pos w ->
  w.(timeout) = jif w.(send_buf).(timeout_ms) -> w.(status) = IB_WC_SUCCESS ->
  exists w' ret out, ib_retry_rmpp msecs_to_jiffies head_num w env = Some (w', ret, out) /\
    ret <> IB_RMPP_RESULT_UNHANDLED /\
    (ret = IB_RMPP_RESULT_CONSUMED -> msg_ok w' /\ awaiting w' = true /\ w'.(refcount) = w.(refcount)).
Proof.
  intros Hi Hroom Hrange Hr Hp Ht Hst. unfold ib_retry_rmpp. rewrite (proj2 (is_rmpp_active _ Hi)).
  cbn [mbind option_bind negb]. pose proof (rp_ack _ Hp). pose proof (rp_ack_seg _ Hp). pose proof (rd_count _ Hr).
  destruct (Z.eqb_spec (last_ack (ctl w)) (seg_count (send_buf w))) as [E|E]; [by eexists _, _, _|].
  set (w1 := set_ctl _ w).
  assert (Hr1 : ready w1) by (apply ready_ctl; cbn; try done; lia).
  assert (Hp1 : rmpp_pos w1) by (split; cbn; lia).
  destruct (send_next_advances w1 env) as (w2 & out & -> & Had); try done; [cbn; lia|]. cbn [mbind option_bind].
  eexists _, _, _. split; [done|]. split; [by case_test|]. intros _.
  assert (Hj : 0 <= jif (timeout_ms (send_buf w))) by (by apply jif_nonneg, int_range_u32).
  split; [apply (advanced_ok w1); try done; cbn; lia|]. split; [|apply Had].
  apply awaiting_spec. rewrite (ad_status _ _ Had). split; [done|]. destruct (ad_timeout _ _ Had) as [?|[-> Hms]]; [done|].
  cbn in *. rewrite Ht. by apply jif_pos; [apply int_range_u32|].
Qed.

Lemma retry_send_ok w env :
  msg_ok w -> awaiting w = true ->
  exists w' ret out, retry_send a msecs_to_jiffies head_num w env = Some (w', ret, out) /\
    (ret = 0 -> msg_ok w' /\ awaiting w' = true /\ w'.(refcount) = w.(refcount) + 1).
Proof.
  intros Hm [Hst Hpos]%awaiting_spec. unfold retry_send. case_test; [by eexists _, _, _|].
  set (b := set_retries _ _). set (w1 := set_timeout _ _).
  assert (Hi1 : is_rmpp w1 = is_rmpp w) by done.
  assert (Hmr : mad_room (mad (send_buf w1))) by apply Hm.
  assert (Hrg : int_range (timeout_ms (send_buf w1))) by apply Hm.
  assert (Hin : exists w' ret out, (if ib_mad_kernel_rmpp_agent a then
      '(w, ret, out) ← ib_retry_rmpp msecs_to_jiffies head_num w1 env;
      if ret =? IB_RMPP_RESULT_UNHANDLED then ib_send_mad head_num w env
      else Some (w, if ret =? IB_RMPP_RESULT_CONSUMED then 0 else - ECOMM, out)
    else ib_send_mad head_num w1 env) = Some (w', ret, out) /\
    (ret = 0 -> msg_ok w' /\ awaiting w' = true /\ w'.(refcount) = w.(refcount))).
  { destruct (is_rmpp w) eqn:Hi.
    - rewrite (proj1 (is_rmpp_active _ Hi)). destruct (mo_rmpp _ Hm Hi) as [Hr Hp].
      destruct (retry_rmpp_ok w1 env) as (w2 & ret & out & -> & Hu & Hc); try done; [by destruct Hr|by destruct Hp|].
      cbn [mbind option_bind]. rewrite (proj2 (Z.eqb_neq _ _) Hu). eexists _, _, _. split; [done|].
      destruct (Z.eqb_spec ret IB_RMPP_RESULT_CONSUMED); [auto|done].
    - assert (Hp : plain w1) by (by destruct (mo_plain _ Hm Hi)).
      destruct (send_plain w1 env Hp) as [out Eo].
      assert (Hms : timeout_ms (send_buf w) <> 0).
      { apply Hm; [by apply awaiting_spec|]. rewrite Hi. done. }
      pose proof (jif_pos _ (int_range_u32 _ Hrg) Hms) as Hj.
      assert (Haw : awaiting w1 = true) by (by apply awaiting_spec).
      assert (Hm1 : msg_ok w1) by (split; try done; [by rewrite Hi1|apply Z.lt_le_incl, Hj]).
      case_test; [|rewrite Eo; eauto 10]. unfold ib_retry_rmpp.
      assert (Ha : rmpp_active (mad (send_buf w1)) = Some false) by (apply (kernel_plain w); done).
      rewrite Ha. cbn [mbind option_bind negb]. rewrite Z.eqb_refl.
      rewrite Eo. eauto 10. }
  destruct Hin as (w' & ret & out & -> & Hc). cbn [mbind option_bind]. eexists _, _, _. split; [done|].
  intros ->. destruct (Hc eq_refl) as (Hm' & Ha' & Hr'). cbn [c_true negb Z.eqb].
  split; [|split; [done|cbn; lia]]. by apply (msg_ok_fields w').
Qed.

Lemma queues_worker s b t :
  queues_ok s -> (s.(wait_list) <> [] -> b = true \/ is_Some t) ->
  (in_order -> forall d id, t = Some d -> id ∈ s.(wait_list) -> d <= Z.max (deadline s id) s.(jiffies)) ->
  queues_ok (set_worker b (set_timer t s)).
Proof. intros []. by split. Qed.

Lemma timeout_sends_ok s env :
  sends_ok s -> s.(worker) = true -> env_ok env -> good s (timeout_sends a msecs_to_jiffies head_num env s).
Proof.
  intros Hs Hwk He. unfold timeout_sends. pose proof (proj1 Hs) as Hq.
  destruct (wait_list s) as [|id l] eqn:Ew.
  { apply good_frames; try done. pose proof (queues_worker s false s.(timer) Hq) as H. destruct s; cbn in *.
    apply H; [congruence|]. rewrite Ew. set_solver. }
  destruct (lists_live s id Hs) as (r & Hr & Ho); [rewrite Ew; set_solver|]. rewrite Hr. cbn [mbind option_bind].
  pose proof Ho as [Hm Href Hone Hpl].
  assert (Hu : uses s id = 0 /\ (status (wr r) = IB_WC_SUCCESS -> 0 < timeout (wr r))).
  { destruct Hpl as [_ ? ?|Hi Hu|Hi Hu ?]; [done| |];
      destruct (place_not_waiting s id (wr r) Hq); try done; by (rewrite Ew; left) || by econstructor. }
  destruct Hu as [Hu Hpos]. unfold time_after. case_test.
  - (* not due yet *)
    apply Z.ltb_lt in E. rewrite Z.max_r by lia. apply good_frames; try done; [by destruct (timer s)|].
    assert (Hd : in_order -> forall x, x ∈ s.(wait_list) -> timeout (wr r) <= Z.max (deadline s x) s.(jiffies)).
    { intros Ho' x Hx. rewrite <- (deadline_some _ _ _ Hr). pose proof (qo_sorted _ Hq Ho') as Hst. rewrite Ew in *.
      apply StronglySorted_cons in Hst as [Hst _]. rewrite list.Forall_forall in Hst.
      apply elem_of_cons in Hx as [->|Hx]; [lia|by apply Hst]. }
    destruct (timer s) as [t|] eqn:Et.
    + pose proof (queues_worker s false (Some t) Hq) as H. rewrite <- Et in *. destruct s; cbn in *. apply H; [eauto|].
      intros Ho' d x Hd' Hx. by apply (qo_timer _ Hq Ho').
    + replace (jiffies s + (timeout (wr r) - jiffies s)) with (timeout (wr r)) by lia.
      apply queues_worker; [done|eauto|]. intros Ho' d x [= <-] Hx. by apply Hd.
  - assert (Hrep : forall e, (forall x, tally1 x e = if id =? x then -1 else 0) ->
      good s (Some (drop_req id (unlink id s), [e]))).
    { intros e Hte. apply report_ok; try done; [apply frame_unlink|by apply queues_unlink|by apply (live_some _ _ r)|apply (unlink_lists id s)]. }
    destruct (Z.eqb_spec (status (wr r)) IB_WC_SUCCESS) as [Est|Est]; [|by apply Hrep].
    assert (Haw : awaiting (wr r) = true) by (apply awaiting_spec; auto).
    destruct (retry_send_ok (wr r) env Hm Haw) as (w & ret & out & -> & Hc). cbn [mbind option_bind].
    destruct (c_true ret) eqn:Ec; cbn [negb]; [by apply Hrep|]. apply c_true_false in Ec. destruct (Hc Ec) as (Hm' & Ha' & Hr').
    rewrite (store_some (unlink id s) id r) by exact Hr. cbn [mbind option_bind].
    set (s1 := set_reqs _ (unlink id s)). destruct (uses_zero s id Hu) as [Hfl%in_flight_out _].
    rewrite fly_some by done. cbn [mbind option_bind]. set (s2 := set_flights _ s1). set (s3 := set_lists _ _ _ s2).
    assert (Hu3 : uses s3 id = 1).
    { change (uses s3 id) with (uses s2 id). unfold s2. rewrite (uses_fly s1 id) by done.
      change (uses s1 id) with (uses s id). lia. }
    assert (Hf2 : frame id s s2).
    { eapply req_frame_trans; [apply frame_unlink|]. eapply req_frame_trans; [apply frame_insert|apply (frame_fly id s1)]. }
    apply (good_intro id); [done| | | | |].
    + eapply req_frame_trans; [exact Hf2|]. split; try done. intros x Hx. cbn.
      rewrite list.elem_of_app, list_elem_of_singleton. naive_solver.
    + apply (queues_append id s2); [|apply (unlink_lists id s)]. apply (queues_fly id s1); [|done].
      apply queues_insert_req; [by apply queues_unlink|]. intros Hx. by apply elem_of_without in Hx as [? _].
    + unfold one_ok. cbn [reqs s3 s2 s1 set_flights set_lists set_reqs]. rewrite lookup_insert_eq. cbn [wr].
      split; [done| |intros _; lia|].
      * rewrite Hu3, Ha', Hr', Href, Hu, Haw. done.
      * apply Sends; [cbn; set_solver|lia].
    + intros x _. apply tally_sent.
    + rewrite tally_sent, (live_some _ _ _ Hr). unfold live. cbn. by rewrite lookup_insert_eq.
Qed.

(** ** Cancellation *)

Lemma cancel_one_ok s id w : req_ok s id w -> req_ok s id (cancel_one w).
Proof.
  intros [Hm Href Hone Hpl]. unfold cancel_one. case_test; [|done]. apply Z.eqb_eq in E.
  set (w' := set_refcount _ _). assert (Ha : awaiting w' = false) by done.
  assert (Hm' : msg_ok w') by (apply (msg_ok_fields w); done).
  split; [done| |by rewrite Ha|].
  - rewrite Ha. cbn [refcount w' set_refcount]. rewrite Href. unfold awaiting. rewrite E. cbn. lia.
  - destruct Hpl as [Hi Hu Ht|Hi Hu|Hi Hu Ht]; [apply Waits|apply Sends|apply Done]; done.
Qed.

Lemma cancel_sends_ok l : forall s, sends_ok s -> (forall x, x ∈ l -> x ∈ s.(send_list)) ->
  exists m, cancel_sends l s = Some (set_reqs m s) /\ sends_ok (set_reqs m s) /\
    forall x, live (set_reqs m s) x = live s x.
Proof.
  induction l as [|id l IH]; intros s Hs Hl; cbn [cancel_sends].
  { exists s.(reqs). assert (E : set_reqs s.(reqs) s = s) by (by destruct s). by rewrite E. }
  destruct (lists_live s id Hs) as (r & Hr & Ho); [set_solver|]. rewrite Hr. cbn [mbind option_bind].
  rewrite (store_some _ _ _ _ Hr). cbn [mbind option_bind].
  set (s1 := set_reqs (<[id := mk_req (cancel_one (wr r)) (req_tid r)]> s.(reqs)) s).
  assert (Hs1 : sends_ok s1).
  { apply (frame_ok id s); [done|apply frame_insert| |].
    - apply queues_insert_req; [apply Hs|]. intros _. rewrite (deadline_some _ _ _ Hr). cbn. unfold cancel_one. by case_test.
    - unfold one_ok. cbn [reqs set_reqs s1]. rewrite lookup_insert_eq. cbn [wr]. pose proof (cancel_one_ok s id _ Ho) as [? ? ? []].
      all: split; try done; by econstructor. }
  destruct (IH s1 Hs1) as (m & -> & Hm & Hlv); [set_solver|].
  exists m. split; [done|]. split; [done|]. intros x. change (set_reqs m s) with (set_reqs m s1). rewrite Hlv.
  unfold live. cbn [reqs set_reqs s1]. destruct (decide (x = id)) as [->|Hx]; [by rewrite lookup_insert_eq, Hr|by rewrite lookup_insert_ne].
Qed.

Lemma drop_all s l :
  exists m, foldr drop_req s l = set_reqs m s /\ forall x, m !! x = if decide (x ∈ l) then None else s.(reqs) !! x.
Proof.
  induction l as [|id l (m & E & Hm)]; cbn [foldr].
  - exists s.(reqs). split; [by destruct s|]. intros x. by rewrite decide_False by set_solver.
  - exists (delete id m). rewrite E. split; [done|]. intros x. destruct (decide (x = id)) as [->|Hx].
    + rewrite lookup_delete_eq, decide_True; [done|left].
    + rewrite lookup_delete_ne, Hm by done. apply decide_ext. rewrite elem_of_cons. naive_solver.
Qed.

Lemma tally_flushed x l :
  NoDup l -> tally x ((fun id => Report id IB_WC_WR_FLUSH_ERR) <$> l) = if decide (x ∈ l) then -1 else 0.
Proof.
  induction 1 as [|id l Hi Hl IH]; cbn; [done|]. change (list_fmap _ _ ?f l) with (f <$> l). rewrite IH.
  destruct (Z.eqb_spec id x) as [->|Hx].
  - rewrite (decide_False (P := x ∈ l)), decide_True by (done || left). done.
  - rewrite (decide_ext (x ∈ id :: l) (x ∈ l)); [done|]. rewrite elem_of_cons. naive_solver.
Qed.

Lemma cancel_mads_ok s : sends_ok s -> good s (cancel_mads s).
Proof.
  intros Hs. unfold cancel_mads. destruct (cancel_sends_ok s.(send_list) s Hs) as (m & -> & Hs1 & Hl1); [done|].
  cbn [mbind option_bind]. set (s1 := set_reqs m s) in *. pose proof (proj1 Hs1) as Hq1.
  apply (good_trans s s1); [done|]. clearbody s1. clear Hs m Hl1.
  pose proof (qo_lists _ Hq1) as Hn. apply list.NoDup_app in Hn as (Hns & Hsw & Hn2).
  apply list.NoDup_app in Hn2 as (Hnw & Hwd & Hnd). unfold report_flushed.
  rewrite decide_True by (apply list.Forall_forall; intros x Hx; destruct (wait_live s1 Hs1 x Hx) as (r & Hr & _); cbn; eauto).
  destruct (drop_all (set_lists s1.(send_list) [] s1.(done_list) s1) s1.(wait_list)) as (m & -> & Hm).
  eexists _, _. split; [done|]. split; [split|].
  - destruct Hq1. split; try done; cbn.
    + apply list.NoDup_app. split; [done|]. split; [set_solver|done].
    + intros _. constructor.
    + set_solver.
  - intros x. pose proof (proj2 Hs1 x) as Ho. unfold one_ok in *. cbn [reqs set_reqs]. rewrite Hm. cbn [reqs set_lists].
    case_decide as Hx.
    + destruct (wait_live s1 Hs1 x Hx) as (r & Hr & _). rewrite Hr in Ho. destruct Ho as [_ _ _ [_ Hu _|Hi _|Hi _ _]].
      * split; [done|]. cbn. split; [intros ?; apply (Hsw x); set_solver|]. split; [set_solver|by apply Hwd].
      * destruct (Hsw x Hi). set_solver.
      * by destruct (Hwd x Hx).
    + destruct (reqs s1 !! x) as [r|]; [|unfold absent in *; cbn; naive_solver set_solver].
      destruct Ho as [? ? ? [? ? ?|? ?|? ? ?]]; split; try done; [by apply Sends|by apply Done].
  - intros x. rewrite tally_flushed by done. unfold live. cbn [reqs set_reqs]. rewrite Hm. case_decide as Hx; [|cbn; lia].
    destruct (wait_live s1 Hs1 x Hx) as (r & -> & _). done.
Qed.

(** ** Every step *)

Lemma hw_done_ok s id st :
  sends_ok s -> id ∈ s.(flights) ->
  good s (Some (set_calls (s.(calls) ++ [Complete id st]) (set_flights (without id s.(flights)) s), [])).
Proof.
  intros Hs Hi. pose proof (in_flight_in s id Hi) as Hfl. pose proof (due_nonneg s id).
  destruct (uses_live s id Hs) as (r & Hr & [Hm Href Hone Hpl]); [unfold uses; lia|].
  set (s1 := set_flights (without id s.(flights)) s). set (s2 := set_calls _ s1).
  assert (Hu : uses s2 id = uses s id).
  { change s2 with (set_calls (s1.(calls) ++ [Complete id st]) s1). rewrite uses_complete. unfold uses. rewrite Hfl. unfold in_flight, s1. cbn [flights set_flights].
    rewrite bool_decide_false by (rewrite elem_of_without; naive_solver). unfold due. cbn. lia. }
  assert (Hf : frame id s s2).
  { eapply req_frame_trans; [|apply (frame_complete id st s1)]. split; try done. intros x Hx.
    unfold uses, in_flight, s1. cbn [flights set_flights]. f_equal. f_equal. apply bool_decide_ext.
    rewrite elem_of_without. naive_solver. }
  apply (good_intro id); [done|done| | |done|cbn [tally]; change (live s2 id) with (live s id); lia].
  - apply (queues_complete id st s1). apply queues_flights; [apply Hs|]. apply NoDup_without, Hs.
  - unfold one_ok. change (reqs s2) with s.(reqs). rewrite Hr. split; rewrite ?Hu; try done.
    destruct Hpl; [apply Waits|apply Sends|apply Done]; rewrite ?Hu; done.
Qed.

Lemma abort_taken s k m st :
  sends_ok s -> s.(calls) !! k = Some (Abort m st) ->
  sends_ok (set_calls (delete k s.(calls)) s) /\ mad_room m.(in_bytes).
Proof.
  intros Hs Hc. pose proof (delete_Permutation _ _ _ Hc) as Hp. pose proof (proj1 Hs) as Hq.
  assert (Hcalls := qo_calls _ Hq). rewrite Hp in Hcalls. apply list.Forall_cons in Hcalls as [Hm Hcalls].
  split; [|done]. set (s1 := set_calls (delete k s.(calls)) s). assert (Hf : forall id, frame id s s1).
  { intros id. split; try done. intros x _. unfold uses, due. change (in_flight s1 x) with (in_flight s x). f_equal. f_equal.
    assert (E : length (filter (completes x) s.(calls)) = length (filter (completes x) (Abort m st :: s1.(calls))))
      by (apply Permutation_length; f_equiv; exact Hp).
    rewrite E, filter_cons_False by (cbn; tauto). done. }
  destruct (good_frames s s1 [] Hs Hf) as (? & ? & [= <- <-] & H1 & _); [by destruct Hq|done|done].
Qed.

Lemma call_ok s k env :
  sends_ok s -> (k < length s.(calls))%nat -> good s (step a msecs_to_jiffies head_num s (Call k env)).
Proof.
  intros Hs Hk. cbn [step]. destruct (lookup_lt_is_Some_2 _ _ Hk) as [c Hc]. rewrite Hc. cbn [mbind option_bind].
  destruct c as [id st|m st]; [by apply send_complete_ok|]. destruct (abort_taken s k m st Hs Hc) as [Hs1 Hm].
  apply (good_trans s (set_calls (delete k s.(calls)) s)); [done|]. by apply abort_nack_ok.
Qed.

Lemma step_good s e : sends_ok s -> enabled s e -> good s (step a msecs_to_jiffies head_num s e).
Proof.
  intros Hs He. pose proof (proj1 Hs) as Hq. destruct e; cbn [enabled] in He.
  - apply post_ok; naive_solver.
  - by apply hw_done_ok.
  - destruct He. by apply call_ok.
  - destruct He as (? & ? & ? & ?). by apply complete_recv_ok.
  - destruct He. by apply modify_ok.
  - apply good_frames; try done. destruct Hq. split; try done; cbn.
    + intros Ho. eapply StronglySorted_ext; [|by apply qo_sorted0]. intros x y _ _. unfold by_then, deadline. cbn. lia.
    + intros Ho t id Ht Hi. specialize (qo_timer0 Ho t id Ht Hi). unfold deadline in *. cbn. lia.
    + lia.
  - apply good_frames; try done. apply queues_worker; [done|by left|done].
  - destruct He. by apply timeout_sends_ok.
  - by apply cancel_mads_ok.
Qed.

(** ** Traces *)

(** The states an agent reaches, with what it has announced on the way. *)
Inductive trace : sends -> list effect -> Prop :=
  | trace_init now : 0 <= now -> trace (sends_init now) []
  | trace_step s out e s' out' :
      trace s out -> enabled s e -> step a msecs_to_jiffies head_num s e = Some (s', out') -> trace s' (out ++ out').

Lemma sends_init_ok now : 0 <= now -> sends_ok (sends_init now).
Proof.
  intros Hn. split.
  2: { intros id. unfold one_ok, absent. cbn. split; [done|]. set_solver. }
  split; cbn; try done; try constructor.
Qed.

Lemma trace_ok s out : trace s out -> sends_ok s /\ forall x, live s x = tally x out.
Proof.
  induction 1 as [now Hn|s out e s' out' _ [Hs Hl] He E]; [split; [by apply sends_init_ok|done]|].
  destruct (step_good s e Hs He) as (s1 & out1 & E1 & Hs1 & Ht). rewrite E in E1. simplify_eq.
  split; [done|]. intros x. by rewrite Ht, Hl, tally_app.
Qed.

(** ** Unregistering *)











End invariant.

(** ** Properties *)





(** What is assumed of [msecs_to_jiffies]. *)
Record jiffies_ok (msecs : Z -> Z) : Prop := {
  jo_0 : msecs 0 = 0;
  jo_pos : forall m, 0 < m < 2 ^ 32 -> 0 < msecs m
}.



(** As long as no acknowledgement fails to send the next segment, requests
    wait in the order of their deadlines, and between two runs of the timeout
    work the timer is set no later than the first deadline or now. *)
Theorem timeouts_in_order msecs head_num a s out :
  jiffies_ok msecs -> head_num <> 1 -> trace a msecs head_num True s out ->
  StronglySorted (by_then s) s.(wait_list) /\
  (s.(worker) = false -> forall id, id ∈ s.(wait_list) ->
     exists t, s.(timer) = Some t /\ t <= Z.max (deadline s id) s.(jiffies)).
Proof.
  intros [J0 Jp] Hh Ht. destruct (trace_ok a msecs head_num True J0 Jp Hh s out Ht) as [[Hq _] _].
  split; [by apply (qo_sorted _ _ Hq)|]. intros Hw id Hi.
  destruct (qo_armed _ _ Hq) as [Hw'|[t Et]]; [intros E; rewrite E in Hi; set_solver|congruence|].
  exists t. split; [done|]. by apply (qo_timer _ _ Hq I).
Qed.

(** ** A transfer *)

(** A message of five segments, whose sender expects a response within a
    second. *)
Definition sample_count : Z := 1000.
Definition sample_long : send_wr := Eval vm_compute in
  match umad_build 8 sample_agent (sample_ubuf ++ replicate 700 7) sample_count true sample_mem with
  | Some (inr w) => set_buf (set_retries 3 (set_timeout_ms 1000 w.(send_buf))) w
  | _ => empty_wr
  end.

(** The jiffies a kernel counts when it has been up for five minutes. *)
Definition sample_now : Z := 2 ^ 32.
Definition sample_post : post_in := mk_post 0 true true 0 None (Posted 0).
Definition sample_posted : event := Post 1 sample_long sample_post.

(** A datagram of the receiver, in answer to the request. *)
Definition sample_answer (rmpp_type_ n win : Z) : in_mad :=
  let m := sample_long.(send_buf).(mad) in
  mk_in (take 3 m ++ [0x92] ++ drop 4 (take 24 m) ++ [1; rmpp_type_; 1; 0] ++ to_be 4 n ++ to_be 4 win ++ drop 36 m)
    (fun _ => true).
Definition sample_ack (n win : Z) : event := Receive (sample_answer IB_MGMT_RMPP_TYPE_ACK n win) 0 None (Posted 0).
Definition one_flight : list event := [HwDone 1 0; Call 0 (Posted 0)].

Definition sample_run (evs : list event) : option (sends * list effect) :=
  run sample_agent id 8 (sends_init sample_now) evs.
Definition sample_state (evs : list event) : sends :=
  match sample_run evs with Some (s, _) => s | None => sends_init 0 end.

(** The numbers of the segments sent, and how each request ended. *)
Definition seg_sent (e : effect) : option Z :=
  match e with Sent _ wire => be_get wire RMPP_SEG_NUM_OFF 4 | _ => None end.
Definition ending (e : effect) : option Z := match e with Report _ st => Some st | _ => None end.

Example sample_transfer :
  match sample_run ([sample_posted] ++ one_flight ++ [sample_ack 1 3] ++ one_flight ++ one_flight ++
     [sample_ack 3 5] ++ one_flight ++ one_flight ++ [sample_ack 5 5]) with
  | Some (s, out) => (omap seg_sent out, s.(wait_list), omap ending out)
  | None => ([], [], [])
  end = ([1; 2; 3; 4; 5], [1], []).
Proof. vm_compute. reflexivity. Qed.

(** The events of the three cases below. In the second the receiver closes the
    window; in the third the response to the request has come before its
    completion, and the client extends its timeout at that moment. *)
Definition lost_ack_events : list event := [sample_posted] ++ one_flight ++ [sample_ack 1 2] ++ one_flight.
Definition closed_window_events : list event :=
  [sample_posted] ++ one_flight ++ [sample_ack 1 1; Tick 1000; TimerFires; TimeoutSends (Posted 0)] ++
  one_flight ++ one_flight ++ one_flight.
Definition early_response : in_mad :=
  let m := sample_long.(send_buf).(mad) in
  mk_in (take 3 m ++ [0x92] ++ drop 4 (take 26 m) ++ replicate 30 0) (fun _ => true).
Definition race_events : list event :=
  [sample_posted] ++ one_flight ++
  [sample_ack 1 2; Receive early_response 0 None (Posted 0); Modify 1 500; Call 0 (Posted 0)].

(** Three flaws. A deadline the code has already computed is taken for a
    duration again when an acknowledgement sends the next segment: it is counted
    from boot twice over, so if that segment's acknowledgement is lost the
    sender waits as long again as the machine has been up. The sender compares
    its position with the window for equality only: a retry past a closed
    window sends all the rest. And a timeout set while the response of a request
    is being handled puts it on the wait list though the hardware has it: its
    retry would post the work request twice. *)
Theorem send_path_flaws :
  (let s := sample_state lost_ack_events in
   s.(wait_list) = [1] /\ deadline s 1 = 2 * sample_now + 1000 /\ s.(jiffies) = sample_now) /\
  match sample_run closed_window_events with
  | Some (s, out) => omap seg_sent out = [1; 2; 3; 4; 5] /\
      (fun r => (r.(wr).(ctl).(last_ack), r.(wr).(ctl).(newwin))) <$> s.(reqs) !! 1 = Some (1, 1)
  | None => False
  end /\
  (let s := sample_state race_events in s.(flights) = [1] /\ s.(wait_list) = [1] /\
   is_Some (sample_run race_events) /\
   sample_run (race_events ++ [Tick (2 * sample_now); TimerFires; TimeoutSends (Posted 0)]) = None).
Proof. vm_compute. split_and!; try reflexivity. eauto. Qed.

(** What the client asks for does not matter to the message. *)
Lemma ready_asks w k t : ready w -> ready (set_buf (set_retries k (set_timeout_ms t w.(send_buf))) w).
Proof. by intros []. Qed.

Lemma sample_long_ready : ready sample_long.
Proof.
  destruct (umad_build_ok 8 sample_agent (sample_ubuf ++ replicate 700 7) sample_count true sample_mem)
    as [(e & E & _)|(w & E & Hb)]; [vm_compute; reflexivity|vm_compute; split; [discriminate|reflexivity]|..].
  - vm_compute in E. discriminate E.
  - assert (El : sample_long = set_buf (set_retries 3 (set_timeout_ms 1000 w.(send_buf))) w).
    { assert (Hw : match umad_build 8 sample_agent (sample_ubuf ++ replicate 700 7) sample_count true sample_mem with
        | Some (inr w) => set_buf (set_retries 3 (set_timeout_ms 1000 w.(send_buf))) w | _ => empty_wr end = sample_long)
        by (vm_compute; reflexivity).
      rewrite E in Hw. symmetry. exact Hw. }
    rewrite El. apply ready_asks. apply Hb.
Qed.

Lemma sample_postable : postable sample_agent sample_long.
Proof.
  split.
  - apply (bool_decide_eq_true_1 _). vm_compute. reflexivity.
  - split; vm_compute; [discriminate|reflexivity].
  - intros _. split; [exact sample_long_ready|]. vm_compute. auto.
  - vm_compute. discriminate.
Qed.

Lemma id_jiffies : jiffies_ok id.
Proof. split; [done|]. intros m Hm. exact (proj1 Hm). Qed.

Lemma sample_trace1 in_order :
  exists out, trace sample_agent id 8 in_order (sample_state [sample_posted]) out.
Proof.
  eexists. eapply (trace_step _ _ _ _ (sends_init sample_now) [] sample_posted); [apply trace_init; done| |].
  - split; [vm_compute; reflexivity|]. split; [exact sample_postable|]. vm_compute. discriminate.
  - vm_compute. reflexivity.
Qed.

Lemma sample_trace2 in_order :
  exists out, trace sample_agent id 8 in_order (sample_state ([sample_posted] ++ one_flight)) out.
Proof.
  destruct (sample_trace1 in_order) as [out H]. eexists.
  eapply (trace_step _ _ _ _ (sample_state [sample_posted; HwDone 1 0]) _ (Call 0 (Posted 0))).
  - eapply (trace_step _ _ _ _ _ _ (HwDone 1 0) _ _ H); [vm_compute; left|vm_compute; reflexivity].
  - split; [vm_compute; auto|vm_compute; discriminate].
  - vm_compute. reflexivity.
Qed.




Lemma timeouts_in_order_witness :
  exists t, (sample_state ([sample_posted] ++ one_flight)).(timer) = Some t /\
    t <= Z.max (deadline (sample_state ([sample_posted] ++ one_flight)) 1) sample_now.
Proof.
  destruct (sample_trace2 True) as [out H].
  apply (timeouts_in_order id 8 sample_agent _ out id_jiffies ltac:(discriminate) H); [vm_compute; reflexivity|].
  vm_compute. left.
Defined.
