(* ===== verification/Buddy.v ===== *)
(** The buddy allocator of the steering memory of mlx5:
    drivers/net/ethernet/mellanox/mlx5/core/steering/dr_buddy.c.

    One bitmap per order tells which blocks of that order are free. A bitmap is
    a list of bits, as many as the words the kernel allocates for it have; a bit
    outside it, or an order without a bitmap, is [None]. *)

From S2P Require Import Prelude.
#[local] Open Scope Z_scope.

(** ** The code *)

(** [struct mlx5dr_icm_buddy_mem]; [bitmap] and [num_free] by order. *)
Record icm_buddy := mk_buddy {
  bitmap : list (list bool); num_free : list Z; max_order : Z
}.

(** [bitmap_zalloc] allocates whole words. *)
Definition bitmap_zalloc (nbits : Z) : list bool :=
  replicate (Z.to_nat (64 * ((nbits + 63) / 64))) false.

Definition test_bit (b : icm_buddy) (o s : Z) : option bool := l ← arr_get b.(bitmap) o; arr_get l s.

(** [bitmap_set(bitmap[o], s, 1)] and [bitmap_clear(bitmap[o], s, 1)] *)
Definition write_bit (v : bool) (o s : Z) (b : icm_buddy) : option icm_buddy :=
  l ← arr_get b.(bitmap) o;
  l ← arr_set l s v;
  m ← arr_set b.(bitmap) o l;
  Some (mk_buddy m b.(num_free) b.(max_order)).

(** [num_free[o] += d] on an [unsigned int]. *)
Definition count_free (d o : Z) (b : icm_buddy) : option icm_buddy :=
  n ← arr_get b.(num_free) o;
  f ← arr_set b.(num_free) o (u32 (n + d));
  Some (mk_buddy b.(bitmap) f b.(max_order)).

(** The first set bit below [size], or [size]. *)
Definition find_first_bit (l : list bool) (size : Z) : Z :=
  match list_find (fun b => b = true) (take (Z.to_nat size) l) with
  | Some (i, _) => Z.of_nat i
  | None => size
  end.

(** [arrays_ok] and [bitmap_ok] are the answers of the allocator. *)
Definition mlx5dr_buddy_init (max : Z) (arrays_ok : bool) (bitmap_ok : Z -> bool) : option (Z + icm_buddy) :=
  if negb arrays_ok then Some (inl (- ENOMEM)) else
  let orders := seqZ 0 (max + 1) in
  if negb (forallb bitmap_ok orders) then Some (inl (- ENOMEM)) else
  let b := mk_buddy ((fun i => bitmap_zalloc (Z.shiftl 1 (max - i))) <$> orders)
             (replicate (Z.to_nat (max + 1)) 0) max in
  b ← write_bit true max 0 b;
  f ← arr_set b.(num_free) max 1;
  Some (inr (mk_buddy b.(bitmap) f max)).

(** The loop over the orders; fuel running out is [None]. *)
Fixpoint find_from (fuel : nat) (b : icm_buddy) (order_iter : Z) : option (Z + Z * Z) :=
  if b.(max_order) <? order_iter then Some (inl (- ENOMEM)) else
  match fuel with
  | O => None
  | S fuel =>
      n ← arr_get b.(num_free) order_iter;
      if negb (c_true n) then find_from fuel b (order_iter + 1) else
      let m := Z.shiftl 1 (b.(max_order) - order_iter) in
      l ← arr_get b.(bitmap) order_iter;
      let seg := find_first_bit l m in
      if m <=? seg then Some (inl (- ENOMEM)) else Some (inr (seg, order_iter))
  end.

Definition dr_buddy_find_free_seg (b : icm_buddy) (start_order : Z) : option (Z + Z * Z) :=
  find_from (Z.to_nat (b.(max_order) + 1)) b start_order.

(** Splitting the block found down to the order asked for. *)
Fixpoint split_down (fuel : nat) (b : icm_buddy) (seg order_iter order : Z) : option (icm_buddy * Z) :=
  if order_iter <=? order then Some (b, seg) else
  match fuel with
  | O => None
  | S fuel =>
      let order_iter := order_iter - 1 in
      let seg := u32 (Z.shiftl seg 1) in
      b ← write_bit true order_iter (Z.lxor seg 1) b;
      b ← count_free 1 order_iter b;
      split_down fuel b seg order_iter order
  end.

(** The segment, or the error. *)
Definition mlx5dr_buddy_alloc_mem (b : icm_buddy) (order : Z) : option (icm_buddy * (Z + Z)) :=
  r ← dr_buddy_find_free_seg b order;
  match r with
  | inl err => Some (b, inl err)
  | inr (seg, order_iter) =>
      b ← write_bit false order_iter seg b;
      b ← count_free (-1) order_iter b;
      '(b, seg) ← split_down (Z.to_nat order_iter) b seg order_iter order;
      Some (b, inr (u32 (Z.shiftl seg order)))
  end.

(** Merging a block with its free buddies. *)
Fixpoint merge_up (fuel : nat) (b : icm_buddy) (seg order : Z) : option (icm_buddy * Z * Z) :=
  free ← test_bit b order (Z.lxor seg 1);
  if negb free then Some (b, seg, order) else
  match fuel with
  | O => None
  | S fuel =>
      b ← write_bit false order (Z.lxor seg 1) b;
      b ← count_free (-1) order b;
      merge_up fuel b (Z.shiftr seg 1) (order + 1)
  end.

Definition mlx5dr_buddy_free_mem (b : icm_buddy) (seg order : Z) : option icm_buddy :=
  '(b, seg, order) ← merge_up (Z.to_nat b.(max_order)) b (Z.shiftr seg order) order;
  b ← write_bit true order seg b;
  count_free 1 order b.

(** ** Blocks *)

(** A block is its order and its number among the blocks of that order. *)
Abbreviation block := (Z * Z)%type.

(** The unit [x] of memory lies in the block. *)
Definition covers (p : block) (x : Z) : Prop := x / 2 ^ p.1 = p.2.

(** The blocks tile the [2 ^ n] units of memory. *)
Record tiling (n : Z) (T : gset block) : Prop := {
  tl_range : forall o s, (o, s) ∈ T -> 0 <= o <= n /\ 0 <= s < 2 ^ (n - o);
  tl_cover : forall x, 0 <= x < 2 ^ n -> exists p, p ∈ T /\ covers p x;
  tl_disjoint : forall p q x, p ∈ T -> q ∈ T -> covers p x -> covers q x -> p = q
}.

(** The halves of a block. *)
Definition halves (o s : Z) : gset block := {[ (o - 1, 2 * s); (o - 1, 2 * s + 1) ]}.

Lemma elem_of_halves o s p : p ∈ halves o s <-> p = (o - 1, 2 * s) \/ p = (o - 1, 2 * s + 1).
Proof. unfold halves. set_solver. Qed.

Lemma pow_half o : 1 <= o -> 2 ^ o = 2 ^ (o - 1) * 2.
Proof. intros. rewrite Z.mul_comm, <- Z.pow_succ_r by lia. f_equal. lia. Qed.

Lemma covers_half o s x : 1 <= o -> covers (o, s) x <-> covers (o - 1, 2 * s) x \/ covers (o - 1, 2 * s + 1) x.
Proof.
  intros Ho. unfold covers. cbn.
  assert (E : x / 2 ^ o = x / 2 ^ (o - 1) / 2).
  { rewrite Z.div_div by lia. f_equal. by apply pow_half. }
  rewrite E. pose proof (Z.div_mod (x / 2 ^ (o - 1)) 2 ltac:(lia)).
  pose proof (Z.mod_pos_bound (x / 2 ^ (o - 1)) 2 ltac:(lia)). lia.
Qed.

Lemma halves_disjoint o s x : ~ (covers (o - 1, 2 * s) x /\ covers (o - 1, 2 * s + 1) x).
Proof. unfold covers. cbn. lia. Qed.

(** A block has units. *)
Lemma covers_first o s : 0 <= o -> covers (o, s) (s * 2 ^ o).
Proof. intros. unfold covers. cbn. rewrite Z.div_mul by lia. done. Qed.

Lemma tiling_unit n T p : tiling n T -> p ∈ T -> exists x, 0 <= x < 2 ^ n /\ covers p x.
Proof.
  intros [Hr _ _] Hp. destruct p as [o s]. destruct (Hr o s Hp) as [Ho Hs]. exists (s * 2 ^ o).
  split; [|apply covers_first; lia]. pose proof (Z.pow_pos_nonneg 2 o ltac:(lia) ltac:(lia)).
  assert (E : 2 ^ n = 2 ^ (n - o) * 2 ^ o) by (rewrite <- Z.pow_add_r by lia; f_equal; lia). nia.
Qed.

(** Splitting a block, and merging its halves. *)
Lemma tiling_split n T o s :
  tiling n T -> (o, s) ∈ T -> 1 <= o -> tiling n (T ∖ {[ (o, s) ]} ∪ halves o s).
Proof.
  intros Ht Hin Ho. pose proof Ht as [Hr Hc Hd]. destruct (Hr o s Hin) as [Hon Hs].
  assert (P : 2 ^ (n - (o - 1)) = 2 ^ (n - o) * 2).
  { rewrite (pow_half (n - (o - 1))) by lia. do 2 f_equal. lia. }
  assert (Hh : forall p x, p ∈ halves o s -> covers p x -> covers (o, s) x).
  { intros p x [->| ->]%elem_of_halves Hx; apply covers_half; auto. }
  split.
  - intros o' s' [Hp|Hp]%elem_of_union; [apply Hr; set_solver|].
    apply elem_of_halves in Hp as [Hp|Hp]; injection Hp as -> ->; lia.
  - intros x Hx. destruct (Hc x Hx) as (p & Hp & Hpx). destruct (decide (p = (o, s))) as [->|Hne].
    + apply covers_half in Hpx as [H|H]; [| |done]; eexists; (split; [|exact H]); rewrite elem_of_union, elem_of_halves; auto.
    + exists p. split; [set_solver|done].
  - intros p q x Hp Hq Hpx Hqx.
    assert (Hmix : forall p q, p ∈ T ∖ {[ (o, s) ]} -> q ∈ halves o s -> covers p x -> covers q x -> False).
    { intros p' q' H1 H2 H3 H4. apply (Hh q' x) in H4; [|done].
      assert (p' = (o, s)) by (apply (Hd _ _ x); set_solver). set_solver. }
    apply elem_of_union in Hp as [Hp|Hp], Hq as [Hq|Hq].
    + apply (Hd _ _ x); set_solver.
    + by destruct (Hmix p q).
    + by destruct (Hmix q p).
    + pose proof (halves_disjoint o s x). apply elem_of_halves in Hp as [->| ->], Hq as [->| ->]; naive_solver.
Qed.

Lemma tiling_merge n T o s :
  tiling n T -> halves o s ⊆ T -> 1 <= o <= n -> tiling n (T ∖ halves o s ∪ {[ (o, s) ]}).
Proof.
  intros Ht Hin Ho. pose proof Ht as [Hr Hc Hd].
  assert (H1 : (o - 1, 2 * s) ∈ T) by (apply Hin, elem_of_halves; auto).
  assert (H2 : (o - 1, 2 * s + 1) ∈ T) by (apply Hin, elem_of_halves; auto).
  destruct (Hr _ _ H1) as [_ Hs1]. destruct (Hr _ _ H2) as [_ Hs2].
  assert (P : 2 ^ (n - (o - 1)) = 2 ^ (n - o) * 2).
  { rewrite (pow_half (n - (o - 1))) by lia. do 2 f_equal. lia. }
  split.
  - intros o' s' [Hp|Hp%elem_of_singleton]%elem_of_union; [apply Hr; set_solver|]. injection Hp as -> ->. lia.
  - intros x Hx. destruct (Hc x Hx) as (p & Hp & Hpx). destruct (decide (p ∈ halves o s)) as [Hh|Hh].
    + exists (o, s). split; [set_solver|]. apply covers_half; [lia|].
      apply elem_of_halves in Hh as [->| ->]; auto.
    + exists p. split; [set_solver|done].
  - assert (Hmix : forall p x, p ∈ T ∖ halves o s -> covers p x -> ~ covers (o, s) x).
    { intros p x Hp Hpx Hx. apply elem_of_difference in Hp as [Hp Hn]. apply Hn, elem_of_halves.
      apply covers_half in Hx as [Hx|Hx]; [left|right|lia].
      - by apply (Hd _ _ x).
      - by apply (Hd _ _ x). }
    intros p q x Hp Hq Hpx Hqx. apply elem_of_union in Hp as [Hp|Hp%elem_of_singleton], Hq as [Hq|Hq%elem_of_singleton]; subst.
    + apply (Hd _ _ x); set_solver.
    + by destruct (Hmix p x).
    + by destruct (Hmix q x).
    + done.
Qed.

(** ** The bitmaps as a set of free blocks *)

Lemma lxor_even k : Z.lxor (2 * k) 1 = 2 * k + 1.
Proof.
  rewrite <- Z.add_nocarry_lxor; [done|]. change 1 with (Z.ones 1). rewrite Z.land_ones by lia.
  rewrite Z.mul_comm. by apply Z.mod_mul.
Qed.

Lemma lxor_odd k : Z.lxor (2 * k + 1) 1 = 2 * k.
Proof. rewrite <- lxor_even, Z.lxor_assoc, Z.lxor_nilpotent. apply Z.lxor_0_r. Qed.

(** A block and its buddy are the halves of the block above. *)
Lemma lxor_half s : Z.lxor s 1 = 2 * (s / 2) + (1 - s mod 2) /\ s = 2 * (s / 2) + s mod 2 /\ 0 <= s mod 2 < 2.
Proof.
  pose proof (Z.div_mod s 2 ltac:(lia)) as E. pose proof (Z.mod_pos_bound s 2 ltac:(lia)) as B.
  assert (s mod 2 = 0 \/ s mod 2 = 1) as [H|H] by lia; rewrite H in *.
  - split; [|lia]. rewrite E at 1. rewrite Z.add_0_r, lxor_even. lia.
  - split; [|lia]. rewrite E at 1. rewrite lxor_odd. lia.
Qed.

Lemma buddies_halves o s : halves (o + 1) (s / 2) = {[ (o, s); (o, Z.lxor s 1) ]}.
Proof.
  destruct (lxor_half s) as (E1 & E2 & B). apply set_eq. intros p.
  rewrite elem_of_halves, elem_of_union, !elem_of_singleton. replace (o + 1 - 1) with o by lia.
  rewrite E1. set (k := s / 2) in *. set (r := s mod 2) in *. clearbody k r. subst s.
  assert (r = 0 \/ r = 1) as [-> | ->] by lia; rewrite ?Z.add_0_r; naive_solver.
Qed.

(** The blocks of one order. *)
Definition of_order (o : Z) (F : gset block) : gset block := filter (fun p => p.1 = o) F.

Record buddy_ok (b : icm_buddy) (F : gset block) : Prop := {
  bo_max : 0 <= b.(max_order) <= 30;
  bo_bits : forall o, 0 <= o <= b.(max_order) -> exists l, arr_get b.(bitmap) o = Some l /\
    2 <= Z.of_nat (length l) /\ 2 ^ (b.(max_order) - o) <= Z.of_nat (length l) /\
    forall s, arr_get l s = Some true <-> (o, s) ∈ F;
  bo_range : forall o s, (o, s) ∈ F -> 0 <= o <= b.(max_order) /\ 0 <= s < 2 ^ (b.(max_order) - o);
  bo_count : forall o, 0 <= o <= b.(max_order) ->
    arr_get b.(num_free) o = Some (Z.of_nat (size (of_order o F)))
}.

Lemma of_order_size b F o : buddy_ok b F -> 0 <= o <= b.(max_order) -> Z.of_nat (size (of_order o F)) <= 2 ^ 30.
Proof.
  intros Hb Ho. pose proof (bo_max _ _ Hb).
  assert (Hsub : of_order o F ⊆ list_to_set ((fun s => (o, s)) <$> seqZ 0 (2 ^ (b.(max_order) - o)))).
  { intros [o' s] [Hi Hin]%elem_of_filter. cbn in Hi. subst o'. apply elem_of_list_to_set, list_elem_of_fmap.
    exists s. split; [done|]. apply elem_of_seqZ. destruct (bo_range _ _ Hb _ _ Hin). lia. }
  apply subseteq_size in Hsub. rewrite size_list_to_set in Hsub.
  - rewrite length_fmap, length_seqZ in Hsub.
    assert (2 ^ (b.(max_order) - o) <= 2 ^ 30) by (apply Z.pow_le_mono_r; lia). lia.
  - apply NoDup_fmap_2; [congruence|apply NoDup_seqZ].
Qed.

Lemma of_order_add o s F : (o, s) ∉ F ->
  size (of_order o (F ∪ {[ (o, s) ]})) = S (size (of_order o F)) /\
  forall o', o' <> o -> of_order o' (F ∪ {[ (o, s) ]}) = of_order o' F.
Proof.
  intros Hn. unfold of_order. split.
  - assert (E : filter (fun p => p.1 = o) (F ∪ {[ (o, s) ]}) = filter (fun p => p.1 = o) F ∪ {[ (o, s) ]})
      by (apply set_eq; intros [o' s']; set_solver).
    rewrite E, size_union by set_solver. rewrite size_singleton. lia.
  - intros o' Ho. apply set_eq. intros [o2 s2]. set_solver.
Qed.

Lemma write_bit_ok (v : bool) (b : icm_buddy) (F : gset block) (o s : Z) :
  buddy_ok b F -> 0 <= o <= b.(max_order) -> 0 <= s < 2 ^ (b.(max_order) - o) ->
  let F' := if v then F ∪ {[ (o, s) ]} else F ∖ {[ (o, s) ]} in
  exists m, write_bit v o s b = Some (mk_buddy m b.(num_free) b.(max_order)) /\
  forall o', 0 <= o' <= b.(max_order) -> exists l, arr_get m o' = Some l /\
    2 <= Z.of_nat (length l) /\ 2 ^ (b.(max_order) - o') <= Z.of_nat (length l) /\
    forall s', arr_get l s' = Some true <-> (o', s') ∈ F'.
Proof.
  intros Hb Ho Hs F'. unfold write_bit. destruct (bo_bits _ _ Hb o Ho) as (l & El & H2 & Hl & Hbits). rewrite El.
  cbn [mbind option_bind]. destruct (arr_set l s v) as [l'|] eqn:Es.
  2: { rewrite arr_set_Some in Es by lia. done. }
  cbn [mbind option_bind]. destruct (arr_set (bitmap b) o l') as [m|] eqn:Em.
  2: { apply arr_get_inv in El. rewrite arr_set_Some in Em by lia. done. }
  exists m. split; [done|]. intros o' Ho'. rewrite (arr_get_set _ _ _ _ o' Em). case_decide as Ho2.
  - subst o'. exists l'. split; [done|]. rewrite (arr_set_length _ _ _ _ Es). split; [done|]. split; [done|].
    intros s'. rewrite (arr_get_set _ _ _ _ s' Es). case_decide as Hs'.
    + subst s'. unfold F'. destruct v; set_solver.
    + rewrite Hbits. unfold F'. destruct v; set_solver.
  - destruct (bo_bits _ _ Hb o' Ho') as (l2 & El2 & H2' & Hl2 & Hbits2). exists l2. split; [done|]. split; [done|].
    split; [done|]. intros s'. rewrite Hbits2. unfold F'. destruct v; set_solver.
Qed.

Lemma count_free_ok d o b n :
  0 <= o -> arr_get b.(num_free) o = Some n -> 0 <= n + d < 2 ^ 32 ->
  exists f, count_free d o b = Some (mk_buddy b.(bitmap) f b.(max_order)) /\
    forall o', arr_get f o' = if decide (o = o') then Some (n + d) else arr_get b.(num_free) o'.
Proof.
  intros Ho En Hn. unfold count_free. rewrite En. cbn [mbind option_bind].
  destruct (arr_set (num_free b) o (u32 (n + d))) as [f|] eqn:Ef.
  2: { apply arr_get_inv in En. rewrite arr_set_Some in Ef by lia. done. }
  exists f. split; [done|]. intros o'. rewrite (arr_get_set _ _ _ _ o' Ef). by rewrite wrap_small by (unfold fits; lia).
Qed.

(** A block becomes free. *)
Lemma give_ok b F o s :
  buddy_ok b F -> 0 <= o <= b.(max_order) -> 0 <= s < 2 ^ (b.(max_order) - o) -> (o, s) ∉ F ->
  exists b1 b2, write_bit true o s b = Some b1 /\ count_free 1 o b1 = Some b2 /\
    buddy_ok b2 (F ∪ {[ (o, s) ]}) /\ b2.(max_order) = b.(max_order).
Proof.
  intros Hb Ho Hs Hn. destruct (write_bit_ok true b F o s Hb Ho Hs) as (m & E1 & Hbits).
  pose proof (of_order_size b F o Hb Ho). destruct (of_order_add o s F Hn) as [Hsz Hoth].
  destruct (count_free_ok 1 o (mk_buddy m b.(num_free) b.(max_order)) (Z.of_nat (size (of_order o F)))) as (f & E2 & Hf);
    [lia|apply (bo_count _ _ Hb o Ho)|lia|].
  eexists _, _. split; [exact E1|]. split; [exact E2|]. split; [|done]. split; cbn; [apply Hb|exact Hbits| |].
  - intros o' s' [Hin|Hin%elem_of_singleton]%elem_of_union; [by apply (bo_range _ _ Hb)|]. by injection Hin as -> ->.
  - intros o' Ho'. rewrite Hf. case_decide; [subst o'; rewrite Hsz; f_equal; lia|].
    rewrite Hoth by done. by apply (bo_count _ _ Hb).
Qed.

(** A free block is taken. *)
Lemma take_ok b F o s :
  buddy_ok b F -> (o, s) ∈ F ->
  exists b1 b2, write_bit false o s b = Some b1 /\ count_free (-1) o b1 = Some b2 /\
    buddy_ok b2 (F ∖ {[ (o, s) ]}) /\ b2.(max_order) = b.(max_order).
Proof.
  intros Hb Hin. destruct (bo_range _ _ Hb _ _ Hin) as [Ho Hs].
  destruct (write_bit_ok false b F o s Hb Ho Hs) as (m & E1 & Hbits).
  pose proof (of_order_size b F o Hb Ho). destruct (of_order_add o s (F ∖ {[ (o, s) ]})) as [Hsz Hoth]; [set_solver|].
  replace (F ∖ {[ (o, s) ]} ∪ {[ (o, s) ]}) with F in Hsz, Hoth
    by (apply set_eq; intros p; destruct (decide (p = (o, s))); set_solver).
  destruct (count_free_ok (-1) o (mk_buddy m b.(num_free) b.(max_order)) (Z.of_nat (size (of_order o F)))) as (f & E2 & Hf);
    [lia|apply (bo_count _ _ Hb o Ho)|lia|].
  eexists _, _. split; [exact E1|]. split; [exact E2|]. split; [|done]. split; cbn; [apply Hb|exact Hbits| |].
  - intros o' s' Hin'. apply (bo_range _ _ Hb). set_solver.
  - intros o' Ho'. rewrite Hf. case_decide; [subst o'; f_equal; lia|]. rewrite <- Hoth by done. by apply (bo_count _ _ Hb).
Qed.

(** ** Searching *)

Lemma find_first_bit_spec l m :
  0 <= m <= Z.of_nat (length l) ->
  let seg := find_first_bit l m in
  0 <= seg < m /\ arr_get l seg = Some true \/
  seg = m /\ forall s, 0 <= s < m -> arr_get l s <> Some true.
Proof.
  intros Hm. unfold find_first_bit. destruct (list_find _ _) as [[i v]|] eqn:E.
  - left. apply list_find_Some in E as (Hi & -> & _). apply lookup_take_Some in Hi as [Hi Hlt].
    split; [lia|]. rewrite arr_get_lookup by lia. by rewrite Nat2Z.id.
  - right. split; [done|]. intros s Hs Ht. rewrite arr_get_lookup in Ht by lia. apply list_find_None in E.
    rewrite list.Forall_forall in E. apply (E true); [|done].
    apply (list_elem_of_lookup_2 _ (Z.to_nat s)). apply lookup_take_Some. split; [done|lia].
Qed.

(** The search finds a free block of the least order that has one. *)
Lemma find_from_ok b F : buddy_ok b F -> forall fuel o,
  0 <= o -> b.(max_order) + 1 - o <= Z.of_nat fuel ->
  (exists o' s, find_from fuel b o = Some (inr (s, o')) /\ o <= o' <= b.(max_order) /\ (o', s) ∈ F) \/
  find_from fuel b o = Some (inl (- ENOMEM)) /\ forall o' s, o <= o' -> (o', s) ∉ F.
Proof.
  intros Hb. induction fuel as [|fuel IH]; intros o Ho Hf; cbn [find_from].
  - rewrite (proj2 (Z.ltb_lt _ _)) by lia. right. split; [done|].
    intros o' s Ho' Hin. destruct (bo_range _ _ Hb _ _ Hin). lia.
  - destruct (Z.ltb_spec (max_order b) o).
    + right. split; [done|]. intros o' s Ho' Hin. destruct (bo_range _ _ Hb _ _ Hin). lia.
    + rewrite (bo_count _ _ Hb) by lia. cbn [mbind option_bind].
      destruct (bo_bits _ _ Hb o ltac:(lia)) as (l & El & _ & Hl & Hbits).
      destruct (c_true (Z.of_nat (size (of_order o F)))) eqn:Ec; cbn [negb].
      * rewrite El. cbn [mbind option_bind]. rewrite Z.shiftl_1_l.
        pose proof (Z.pow_pos_nonneg 2 (max_order b - o) ltac:(lia) ltac:(lia)).
        destruct (find_first_bit_spec l (2 ^ (max_order b - o))) as [[Hs Hbit]|[Hs Hnone]]; [lia| |].
        -- rewrite (proj2 (Z.leb_gt _ _)) by lia. left. eexists o, _. split; [done|]. split; [lia|]. by apply Hbits.
        -- exfalso. apply c_true_spec in Ec. destruct (set_choose_L (of_order o F)) as [[o' s] Hin].
           { intros E. rewrite E, size_empty in Ec. done. }
           apply elem_of_filter in Hin as [Hi Hin]. cbn in Hi. subst o'. destruct (bo_range _ _ Hb _ _ Hin) as [_ Hr].
           by apply (Hnone s Hr), Hbits.
      * apply c_true_false in Ec. assert (He : of_order o F = ∅) by (apply leibniz_equiv, size_empty_inv; lia).
        destruct (IH (o + 1)) as [(o' & s & E & Ho' & Hin)|[E Hn]]; [lia|lia| |].
        -- left. exists o', s. split; [done|]. split; [lia|done].
        -- right. split; [done|]. intros o' s Ho' Hin. destruct (decide (o' = o)) as [->|Hne].
           ++ assert (Hx : (o, s) ∈ of_order o F) by (by apply elem_of_filter). rewrite He in Hx. set_solver.
           ++ apply (Hn o' s); [lia|done].
Qed.

(** ** The allocator *)

(** No free block has a free buddy. *)
Definition merged (n : Z) (F : gset block) : Prop :=
  forall o s, o < n -> (o, s) ∈ F -> (o, Z.lxor s 1) ∉ F.

(** The free blocks [F] and the allocated ones [A] tile the memory. *)
Record buddy_inv (b : icm_buddy) (F A : gset block) : Prop := {
  bi_ok : buddy_ok b F;
  bi_disjoint : F ## A;
  bi_tiling : tiling b.(max_order) (F ∪ A);
  bi_merged : merged b.(max_order) F
}.

(** While a block is in hand, neither free nor allocated. *)
Record hand_inv (b : icm_buddy) (F A : gset block) (o s : Z) : Prop := {
  hi_ok : buddy_ok b F;
  hi_disjoint : F ## A;
  hi_hand : (o, s) ∉ F ∪ A;
  hi_tiling : tiling b.(max_order) (F ∪ A ∪ {[ (o, s) ]});
  hi_merged : merged b.(max_order) F
}.

Lemma hand_range b F A o s : hand_inv b F A o s -> 0 <= o <= b.(max_order) /\ 0 <= s < 2 ^ (b.(max_order) - o).
Proof. intros H. apply (tl_range _ _ (hi_tiling _ _ _ _ _ H)). set_solver. Qed.

(** One of a pair of blocks is not in a tiling that has the block above. *)
Lemma half_not_in n T o s p : tiling n T -> (o, s) ∈ T -> 1 <= o -> p ∈ halves o s -> p ∉ T.
Proof.
  intros Ht Hin Ho Hp HpT. destruct (tiling_unit n T p Ht HpT) as (x & Hx & Hpx).
  assert (E : p = (o, s)).
  { apply (tl_disjoint _ _ Ht _ _ x); [done|done|done|]. apply covers_half; [done|].
    apply elem_of_halves in Hp as [->| ->]; auto. }
  subst p. apply elem_of_halves in Hp as [[=]|[=]]; lia.
Qed.

Lemma merged_add n F o s : merged n F -> (o, Z.lxor s 1) ∉ F -> Z.lxor s 1 <> s -> merged n (F ∪ {[ (o, s) ]}).
Proof.
  intros Hm Hn Hne o' s' Ho [Hin|Hin%elem_of_singleton]%elem_of_union Hx.
  - apply elem_of_union in Hx as [Hx|Hx%elem_of_singleton]; [by apply (Hm o' s')|]. injection Hx as -> <-.
    rewrite Z.lxor_assoc, Z.lxor_nilpotent, Z.lxor_0_r in Hn. done.
  - injection Hin as -> ->. apply elem_of_union in Hx as [Hx|Hx%elem_of_singleton]; [done|]. injection Hx as Hx. lia.
Qed.

Lemma lxor_ne s : Z.lxor s 1 <> s.
Proof. destruct (lxor_half s). lia. Qed.

Lemma split_sets (F A : gset block) o s :
  (o, s) ∉ F ∪ A ->
  (F ∪ A ∪ {[ (o, s) ]}) ∖ {[ (o, s) ]} ∪ halves o s = F ∪ {[ (o - 1, 2 * s + 1) ]} ∪ A ∪ {[ (o - 1, 2 * s) ]}.
Proof.
  intros Hn. apply set_eq. intros p. rewrite !elem_of_union, elem_of_difference, !elem_of_union, elem_of_halves, !elem_of_singleton.
  rewrite elem_of_union in Hn. destruct (decide (p = (o, s))) as [->|Hp]; tauto.
Qed.

Lemma merge_sets (F A : gset block) (h k u : block) :
  h ∉ F ∪ A -> k ∈ F -> k ∉ A -> (F ∪ A ∪ {[ h ]}) ∖ {[ h; k ]} ∪ {[ u ]} = F ∖ {[ k ]} ∪ A ∪ {[ u ]}.
Proof.
  intros Hh Hk HkA. apply set_eq. intros p.
  rewrite !elem_of_union, !elem_of_difference, !elem_of_union, !elem_of_singleton. rewrite elem_of_union in Hh.
  destruct (decide (p = h)) as [E1|E1], (decide (p = k)) as [E2|E2];
    [subst; tauto|subst p; tauto|subst p; tauto|tauto].
Qed.

Lemma disjoint_add (F A : gset block) p : F ## A -> p ∉ A -> F ∪ {[ p ]} ## A.
Proof. set_solver. Qed.

Lemma disjoint_sub (F A : gset block) X : F ## A -> F ∖ X ## A.
Proof. set_solver. Qed.

Lemma not_in_add (F A : gset block) p q : p ∉ F ∪ A -> p <> q -> p ∉ F ∪ {[ q ]} ∪ A.
Proof. set_solver. Qed.

Lemma not_in_sub (F A X : gset block) p : p ∉ F ∪ A -> p ∉ F ∖ X ∪ A.
Proof. set_solver. Qed.

Lemma not_in_weaken (F A X : gset block) p : p ∉ F ∪ A ∪ X -> p ∉ F ∪ A /\ p ∉ F /\ p ∉ A.
Proof. set_solver. Qed.

Lemma split_down_ok order : 0 <= order -> forall fuel b F A o s,
  hand_inv b F A o s -> order <= o -> o - order <= Z.of_nat fuel ->
  exists b' F' s', split_down fuel b s o order = Some (b', s') /\ hand_inv b' F' A order s' /\
    b'.(max_order) = b.(max_order).
Proof.
  intros H0. induction fuel as [|fuel IH]; intros b F A o s Hh Hle Hf; cbn [split_down].
  - assert (o = order) as -> by lia. rewrite Z.leb_refl. eauto 10.
  - destruct (Z.leb_spec o order); [assert (o = order) as -> by lia; eauto 10|].
    destruct (hand_range _ _ _ _ _ Hh) as [Ho Hs]. pose proof Hh as [Hb Hd Hn Ht Hm].
    pose proof (bo_max _ _ Hb) as Hmax.
    assert (P : 2 ^ (b.(max_order) - (o - 1)) = 2 ^ (b.(max_order) - o) * 2).
    { rewrite (pow_half (b.(max_order) - (o - 1))) by lia. do 2 f_equal. lia. }
    assert (2 ^ (b.(max_order) - (o - 1)) <= 2 ^ 30) by (apply Z.pow_le_mono_r; lia).
    rewrite Z.shiftl_mul_pow2, (Z.mul_comm s) by lia. change (2 ^ 1) with 2.
    rewrite wrap_small by (unfold fits; lia). rewrite lxor_even.
    assert (Hin : (o, s) ∈ F ∪ A ∪ {[ (o, s) ]}) by (apply elem_of_union; right; by apply elem_of_singleton).
    destruct (not_in_weaken F A {[ (o, s) ]} (o - 1, 2 * s)) as (Hn1 & _ & _);
      [apply (half_not_in _ _ o s _ Ht Hin); [lia|apply elem_of_halves; auto]|].
    destruct (not_in_weaken F A {[ (o, s) ]} (o - 1, 2 * s + 1)) as (_ & Hn2 & Hn3);
      [apply (half_not_in _ _ o s _ Ht Hin); [lia|apply elem_of_halves; auto]|].
    destruct (give_ok b F (o - 1) (2 * s + 1) Hb) as (b1 & b2 & -> & E2 & Hb2 & Hmx); [lia|lia|done|].
    cbn [mbind option_bind]. rewrite E2. cbn [mbind option_bind].
    destruct (IH b2 (F ∪ {[ (o - 1, 2 * s + 1) ]}) A (o - 1) (2 * s)) as (b' & F' & s' & E' & Hh' & Hmx'); [|lia|lia|].
    + split; [done|by apply disjoint_add|apply not_in_add; [done|intros [=]; lia]| |]; rewrite Hmx.
      * rewrite <- split_sets by done. apply tiling_split; [done|done|lia].
      * apply merged_add; [done| |apply lxor_ne]. by rewrite lxor_odd; intros ?; apply Hn1, elem_of_union; left.
    + exists b', F', s'. split; [done|]. split; [done|congruence].
Qed.

Lemma merge_up_ok : forall fuel b F A o s,
  hand_inv b F A o s -> b.(max_order) - o <= Z.of_nat fuel ->
  exists b' F' o' s', merge_up fuel b s o = Some (b', s', o') /\ hand_inv b' F' A o' s' /\
    b'.(max_order) = b.(max_order) /\ (o', Z.lxor s' 1) ∉ F'.
Proof.
  induction fuel as [|fuel IH]; intros b F A o s Hh Hf.
  all: destruct (hand_range _ _ _ _ _ Hh) as [Ho Hs]; pose proof Hh as [Hb Hd Hn Ht Hm].
  all: destruct (bo_bits _ _ Hb o Ho) as (l & El & H2 & Hl & Hbits); destruct (lxor_half s) as (Ex & Es & Er).
  all: assert (Hget : exists v, arr_get l (Z.lxor s 1) = Some v)
    by (apply arr_get_Some; destruct (decide (o = b.(max_order))) as [->|];
        [rewrite Z.sub_diag in *; cbn in Hs; lia|
         pose proof (pow_half (b.(max_order) - o) ltac:(lia)); lia]).
  all: destruct Hget as [v Hv]; cbn [merge_up]; unfold test_bit; rewrite El; cbn [mbind option_bind]; rewrite Hv;
    cbn [mbind option_bind]; destruct v; cbn [negb];
    [apply Hbits in Hv as Hin|assert (Hnf : (o, Z.lxor s 1) ∉ F) by (rewrite <- Hbits, Hv; done); eauto 10].
  all: destruct (bo_range _ _ Hb _ _ Hin) as [_ Hxr].
  all: assert (Hlt : o < b.(max_order)) by (destruct (decide (o = b.(max_order))) as [->|]; [rewrite Z.sub_diag in *; cbn in *; lia|lia]).
  - lia.
  - destruct (take_ok b F o (Z.lxor s 1) Hb Hin) as (b1 & b2 & -> & E2 & Hb2 & Hmx). cbn [mbind option_bind].
    rewrite E2. cbn [mbind option_bind]. rewrite Z.shiftr_div_pow2 by lia. change (2 ^ 1) with 2.
    set (T := F ∪ A ∪ {[ (o, s) ]}) in *.
    assert (HoT : (o, s) ∈ T) by (apply elem_of_union; right; by apply elem_of_singleton).
    assert (HxT : (o, Z.lxor s 1) ∈ T) by (do 2 (apply elem_of_union; left); done).
    assert (Hsub : halves (o + 1) (s / 2) ⊆ T) by (rewrite buddies_halves; intros p; rewrite elem_of_union, !elem_of_singleton; intros [->| ->]; done).
    destruct (not_in_weaken F A {[ (o, s) ]} (o + 1, s / 2)) as (Hup & _ & _).
    { intros Hin2. apply (half_not_in _ _ (o + 1) (s / 2) (o, s) Ht Hin2); [lia| |done].
      rewrite buddies_halves. apply elem_of_union_l. by apply elem_of_singleton. }
    destruct (IH b2 (F ∖ {[ (o, Z.lxor s 1) ]}) A (o + 1) (s / 2)) as (b' & F' & o' & s' & E' & Hh' & Hmx' & Hn'); [|lia|].
    + split; [done|by apply disjoint_sub|by apply not_in_sub| |]; rewrite Hmx.
      * rewrite <- (merge_sets F A (o, s)) by (done || by intros ?; apply (Hd _ Hin)). fold T.
        rewrite <- buddies_halves. apply tiling_merge; [done|done|lia].
      * intros o1 s1 Ho1 [Hin1 _]%elem_of_difference [Hin3 _]%elem_of_difference. by apply (Hm o1 s1).
    + exists b', F', o', s'. split; [done|]. split; [done|]. split; [congruence|done].
Qed.

(** ** What the allocator promises *)

(** No allocated block has a unit of the block. *)
Definition unused (A : gset block) (o s : Z) : Prop :=
  forall p x, p ∈ A -> covers p x -> ~ covers (o, s) x.

Lemma div_pow_mono x y a b : 0 <= a <= b -> x / 2 ^ a = y / 2 ^ a -> x / 2 ^ b = y / 2 ^ b.
Proof.
  intros Hab E. replace (2 ^ b) with (2 ^ a * 2 ^ (b - a)) by (rewrite <- Z.pow_add_r by lia; f_equal; lia).
  rewrite <- !Z.div_div by lia. by rewrite E.
Qed.

Lemma covers_buddy o s : 0 <= o -> covers (o + 1, s / 2) (Z.lxor s 1 * 2 ^ o).
Proof.
  intros Ho. destruct (lxor_half s) as (E & _ & B). pose proof (Z.pow_pos_nonneg 2 o ltac:(lia) ltac:(lia)).
  unfold covers. cbn. rewrite (pow_half (o + 1)) by lia. replace (o + 1 - 1) with o by lia.
  rewrite <- Z.div_div, Z.div_mul by lia. rewrite E, Z.mul_comm, Z.div_add_l by lia. rewrite (Z.div_small (1 - s mod 2)); lia.
Qed.

Lemma inv_cover b F A x : buddy_inv b F A -> 0 <= x < 2 ^ b.(max_order) ->
  exists p, p ∈ F ∪ A /\ covers p x.
Proof. intros H. apply (tl_cover _ _ (bi_tiling _ _ _ H)). Qed.

Lemma region_unit n o s x : 0 <= o <= n -> 0 <= s < 2 ^ (n - o) -> covers (o, s) x -> 0 <= x < 2 ^ n.
Proof.
  intros Ho Hs Hx. unfold covers in Hx. cbn in Hx. pose proof (Z.pow_pos_nonneg 2 o ltac:(lia) ltac:(lia)).
  pose proof (Z.div_mod x (2 ^ o) ltac:(lia)). pose proof (Z.mod_pos_bound x (2 ^ o) ltac:(lia)).
  assert (E : 2 ^ n = 2 ^ (n - o) * 2 ^ o) by (rewrite <- Z.pow_add_r by lia; f_equal; lia). nia.
Qed.

(** Free blocks inside an unused region are never smaller than it: the least
    of them would have a free buddy. *)
Lemma unused_orders b F A order s :
  buddy_inv b F A -> 0 <= order <= b.(max_order) -> 0 <= s < 2 ^ (b.(max_order) - order) -> unused A order s ->
  forall k : nat, Z.of_nat k <= order ->
  forall p x, p ∈ F -> covers p x -> covers (order, s) x -> Z.of_nat k <= p.1.
Proof.
  intros Hi Ho Hs Hu. pose proof Hi as [Hb Hd Ht Hm]. induction k as [|k IH]; intros Hk [o1 s1] x Hp Hpx Hx; cbn [fst].
  { destruct (bo_range _ _ Hb _ _ Hp). lia. }
  specialize (IH ltac:(lia)). pose proof (IH _ _ Hp Hpx Hx) as Hle. cbn [fst] in Hle.
  destruct (decide (o1 = Z.of_nat k)) as [->|]; [|lia]. exfalso.
  set (o := Z.of_nat k) in *. set (y := Z.lxor s1 1 * 2 ^ o).
  assert (Exy : x / 2 ^ (o + 1) = y / 2 ^ (o + 1)).
  { unfold y. rewrite (covers_buddy o s1) by lia. cbn. unfold covers in Hpx. cbn in Hpx. rewrite (pow_half (o + 1)) by lia.
    replace (o + 1 - 1) with o by lia. rewrite <- Z.div_div by lia. by rewrite Hpx. }
  assert (Hy : covers (order, s) y) by (unfold covers in *; cbn in *; rewrite <- Hx; symmetry; apply (div_pow_mono _ _ (o + 1)); [lia|done]).
  destruct (inv_cover b F A y Hi) as (q & Hq & Hqy); [by apply (region_unit _ order s)|].
  apply elem_of_union in Hq as [Hq|Hq]; [|by destruct (Hu q y Hq Hqy)].
  pose proof (IH _ _ Hq Hqy Hy) as Hle2. destruct q as [o2 s2]. cbn [fst] in Hle2.
  destruct (decide (o2 = o)) as [->|Hne].
  - assert (s2 = Z.lxor s1 1) as -> by (unfold covers, y in Hqy; cbn in Hqy; rewrite Z.div_mul in Hqy by lia; done).
    by apply (Hm o s1); [lia| |].
  - assert (Hqx : covers (o2, s2) x) by (unfold covers in *; cbn in *; rewrite <- Hqy; apply (div_pow_mono _ _ (o + 1)); [lia|done]).
    assert (E : (o, s1) = (o2, s2)) by (apply (tl_disjoint _ _ Ht _ _ x); [by apply elem_of_union_l|by apply elem_of_union_l|done|done]).
    injection E. lia.
Qed.

(** An unused block of the order asked for is inside a free block at least as big. *)
Lemma unused_free b F A order s :
  buddy_inv b F A -> 0 <= order <= b.(max_order) -> 0 <= s < 2 ^ (b.(max_order) - order) -> unused A order s ->
  exists o' s', order <= o' /\ (o', s') ∈ F.
Proof.
  intros Hi Ho Hs Hu. pose proof (covers_first order s ltac:(lia)) as Hx.
  destruct (inv_cover b F A _ Hi (region_unit _ _ _ _ Ho Hs Hx)) as ([o' s'] & Hp & Hpx).
  apply elem_of_union in Hp as [Hp|Hp]; [|by destruct (Hu _ _ Hp Hpx)]. exists o', s'. split; [|done].
  pose proof (unused_orders _ _ _ _ _ Hi Ho Hs Hu (Z.to_nat order) ltac:(lia) _ _ Hp Hpx Hx) as H. cbn [fst] in H. lia.
Qed.

(** The operations of the allocator, and their answers. *)
Inductive buddy_op := Alloc (order : Z) | Free (seg order : Z).

(** [Some r] is the answer of an allocation. *)
Definition buddy_step (b : icm_buddy) (op : buddy_op) : option (icm_buddy * option (Z + Z)) :=
  match op with
  | Alloc order => '(b, r) ← mlx5dr_buddy_alloc_mem b order; Some (b, Some r)
  | Free seg order => b ← mlx5dr_buddy_free_mem b seg order; Some (b, None)
  end.

(** The contract: [A] are the blocks the client holds. *)
Inductive spec_step (n : Z) (A : gset block) : buddy_op -> option (Z + Z) -> gset block -> Prop :=
  | spec_alloc order s :
      0 <= order <= n -> 0 <= s < 2 ^ (n - order) -> (order, s) ∉ A -> unused A order s ->
      spec_step n A (Alloc order) (Some (inr (s * 2 ^ order))) (A ∪ {[ (order, s) ]})
  | spec_full order :
      (forall s, order <= n -> 0 <= s < 2 ^ (n - order) -> ~ unused A order s) ->
      spec_step n A (Alloc order) (Some (inl (- ENOMEM))) A
  | spec_free order s :
      (order, s) ∈ A ->
      spec_step n A (Free (s * 2 ^ order) order) None (A ∖ {[ (order, s) ]}).

(** A client frees what it holds. *)
Definition allowed (A : gset block) (op : buddy_op) : Prop :=
  match op with
  | Alloc order => 0 <= order
  | Free seg order => exists s, seg = s * 2 ^ order /\ (order, s) ∈ A
  end.

Lemma inv_to_hand b F A o s :
  buddy_inv b F A -> (o, s) ∈ F ->
  exists b1 b2, write_bit false o s b = Some b1 /\ count_free (-1) o b1 = Some b2 /\
    hand_inv b2 (F ∖ {[ (o, s) ]}) A o s /\ b2.(max_order) = b.(max_order).
Proof.
  intros [Hb Hd Ht Hm] Hin. destruct (take_ok b F o s Hb Hin) as (b1 & b2 & E1 & E2 & Hb2 & Hmx).
  exists b1, b2. split; [done|]. split; [done|]. split; [|done]. split; [done|by apply disjoint_sub| | |]; rewrite ?Hmx.
  - intros [H|H]%elem_of_union; [|by apply (Hd _ Hin)]. apply elem_of_difference in H as [_ H]. by apply H, elem_of_singleton.
  - replace (F ∖ {[ (o, s) ]} ∪ A ∪ {[ (o, s) ]}) with (F ∪ A); [done|]. apply set_eq. intros p.
    rewrite !elem_of_union, elem_of_difference, elem_of_singleton. destruct (decide (p = (o, s))) as [->|]; tauto.
  - intros o1 s1 Ho1 [Hin1 _]%elem_of_difference [Hin2 _]%elem_of_difference. by apply (Hm o1 s1).
Qed.

Lemma hand_to_alloc b F A o s :
  hand_inv b F A o s -> buddy_inv b F (A ∪ {[ (o, s) ]}) /\ unused A o s /\ (o, s) ∉ A.
Proof.
  intros [Hb Hd Hn Ht Hm]. destruct (not_in_weaken F A ∅ (o, s)) as (_ & HnF & HnA); [set_solver|].
  split; [|split; [|done]].
  - split; [done| | |done].
    + intros p Hp [Hq|Hq%elem_of_singleton]%elem_of_union; [by apply (Hd p)|by subst p].
    + by rewrite (assoc_L (∪)).
  - intros p x Hp Hpx Hx. apply HnA. assert (p = (o, s)) as <-; [|done].
    apply (tl_disjoint _ _ Ht _ _ x); [|by apply elem_of_union_r, elem_of_singleton|done|done].
    by apply elem_of_union_l, elem_of_union_r.
Qed.

Lemma alloc_ok b F A order :
  buddy_inv b F A -> 0 <= order ->
  exists b' r F' A', mlx5dr_buddy_alloc_mem b order = Some (b', r) /\ b'.(max_order) = b.(max_order) /\
    buddy_inv b' F' A' /\ spec_step b.(max_order) A (Alloc order) (Some r) A'.
Proof.
  intros Hi Ho. pose proof (bi_ok _ _ _ Hi) as Hb. pose proof (bo_max _ _ Hb) as Hmax.
  unfold mlx5dr_buddy_alloc_mem, dr_buddy_find_free_seg.
  destruct (find_from_ok b F Hb (Z.to_nat (max_order b + 1)) order Ho ltac:(lia)) as [(o' & s & -> & Ho' & Hin)|[-> Hn]];
    cbn [mbind option_bind].
  - destruct (inv_to_hand b F A o' s Hi Hin) as (b1 & b2 & -> & E2 & Hh & Hmx). cbn [mbind option_bind]. rewrite E2.
    cbn [mbind option_bind].
    destruct (split_down_ok order Ho (Z.to_nat o') b2 _ A o' s Hh ltac:(lia) ltac:(lia)) as (b' & F' & s' & -> & Hh' & Hmx').
    cbn [mbind option_bind]. destruct (hand_range _ _ _ _ _ Hh') as [Hr Hs]. rewrite Hmx', Hmx in Hr, Hs.
    destruct (hand_to_alloc _ _ _ _ _ Hh') as (Hi' & Hu & HnA).
    assert (E : u32 (Z.shiftl s' order) = s' * 2 ^ order).
    { rewrite Z.shiftl_mul_pow2 by lia. apply wrap_small. unfold fits.
      assert (2 ^ max_order b <= 2 ^ 30) by (apply Z.pow_le_mono_r; lia).
      pose proof (region_unit (max_order b) order s' _ Hr Hs (covers_first order s' ltac:(lia))). lia. }
    eexists _, _, F', _. split; [done|]. split; [congruence|]. split; [done|]. rewrite E. by apply spec_alloc.
  - eexists _, _, F, A. split; [done|]. split; [done|]. split; [done|]. apply spec_full. intros s Hle Hs Hu.
    destruct (unused_free _ _ _ _ _ Hi (conj Ho Hle) Hs Hu) as (o' & s' & Ho' & Hin). by apply (Hn o' s').
Qed.

Lemma free_ok b F A o s :
  buddy_inv b F A -> (o, s) ∈ A ->
  exists b' F', mlx5dr_buddy_free_mem b (s * 2 ^ o) o = Some b' /\ b'.(max_order) = b.(max_order) /\
    buddy_inv b' F' (A ∖ {[ (o, s) ]}).
Proof.
  intros [Hb Hd Ht Hm] Hin. destruct (tl_range _ _ Ht o s) as [Ho Hs]; [by apply elem_of_union_r|].
  unfold mlx5dr_buddy_free_mem. rewrite Z.shiftr_div_pow2, Z.div_mul by lia.
  assert (Hh : hand_inv b F (A ∖ {[ (o, s) ]}) o s).
  { split; [done| | | |done].
    - intros p Hp [Hq _]%elem_of_difference. by apply (Hd p).
    - intros [H|H]%elem_of_union; [by apply (Hd _ H)|]. apply elem_of_difference in H as [_ H]. by apply H, elem_of_singleton.
    - replace (F ∪ A ∖ {[ (o, s) ]} ∪ {[ (o, s) ]}) with (F ∪ A); [done|]. apply set_eq. intros p.
      rewrite !elem_of_union, elem_of_difference, elem_of_singleton. destruct (decide (p = (o, s))) as [->|]; tauto. }
  destruct (merge_up_ok (Z.to_nat (max_order b)) b F _ o s Hh ltac:(lia)) as (b' & F' & o' & s' & -> & Hh' & Hmx & Hn').
  cbn [mbind option_bind]. pose proof Hh' as [Hb' Hd' Hnh Ht' Hm']. destruct (hand_range _ _ _ _ _ Hh') as [Ho' Hs'].
  destruct (not_in_weaken F' (A ∖ {[ (o, s) ]}) ∅ (o', s')) as (_ & HnF & HnA); [set_solver|].
  destruct (give_ok b' F' o' s' Hb' Ho' Hs' HnF) as (b1 & b2 & -> & E2 & Hb2 & Hmx2). cbn [mbind option_bind].
  exists b2, (F' ∪ {[ (o', s') ]}). split; [done|]. split; [congruence|]. split; [done|by apply disjoint_add| |].
  - rewrite Hmx2. replace (F' ∪ {[ (o', s') ]} ∪ A ∖ {[ (o, s) ]}) with (F' ∪ A ∖ {[ (o, s) ]} ∪ {[ (o', s') ]}); [done|].
    by rewrite <- !(assoc_L (∪)), (comm_L (∪) {[ (o', s') ]}).
  - rewrite Hmx2. apply merged_add; [done|done|apply lxor_ne].
Qed.

Lemma bitmap_zalloc_length k : 0 <= k ->
  2 <= Z.of_nat (length (bitmap_zalloc (2 ^ k))) /\ 2 ^ k <= Z.of_nat (length (bitmap_zalloc (2 ^ k))).
Proof.
  intros Hk. unfold bitmap_zalloc. rewrite length_replicate. pose proof (Z.pow_pos_nonneg 2 k ltac:(lia) ltac:(lia)).
  pose proof (Z.div_mod (2 ^ k + 63) 64 ltac:(lia)). pose proof (Z.mod_pos_bound (2 ^ k + 63) 64 ltac:(lia)). lia.
Qed.

Lemma bitmap_zalloc_clear k s : arr_get (bitmap_zalloc k) s <> Some true.
Proof.
  intros H. pose proof (arr_get_inv _ _ _ H). rewrite arr_get_lookup in H by lia.
  apply lookup_replicate in H as [H _]. done.
Qed.

Lemma init_ok n : 0 <= n <= 30 ->
  exists b, mlx5dr_buddy_init n true (fun _ => true) = Some (inr b) /\ b.(max_order) = n /\
    buddy_inv b {[ (n, 0) ]} ∅.
Proof.
  intros Hn. unfold mlx5dr_buddy_init. cbn [negb]. replace (forallb _ _) with true by (symmetry; by apply forallb_forall).
  cbn [negb]. set (b0 := mk_buddy _ _ n).
  assert (Hb0 : buddy_ok b0 ∅).
  { split; [done| |set_solver|].
    - cbn. intros o Ho. exists (bitmap_zalloc (Z.shiftl 1 (n - o))). rewrite arr_get_lookup by lia.
      rewrite list_lookup_fmap, lookup_seqZ_lt by lia. cbn. rewrite Z2Nat.id by lia. split; [done|].
      rewrite Z.shiftl_1_l. destruct (bitmap_zalloc_length (n - o) ltac:(lia)) as [H1 H2]. split; [done|]. split; [done|].
      intros s. split; [|set_solver]. intros H. by apply bitmap_zalloc_clear in H.
    - cbn. intros o Ho. rewrite arr_get_lookup by lia. by rewrite lookup_replicate_2 by lia. }
  destruct (write_bit_ok true b0 ∅ n 0 Hb0) as (m & -> & Hbits); [cbn; lia|cbn; rewrite Z.sub_diag; lia|].
  cbn [mbind option_bind num_free max_order bitmap b0].
  destruct (arr_set (replicate (Z.to_nat (n + 1)) 0) n 1) as [f|] eqn:Ef.
  2: { rewrite arr_set_Some in Ef by (rewrite length_replicate; lia). done. }
  cbn [mbind option_bind]. eexists. split; [done|]. split; [done|].
  assert (E0 : ∅ ∪ {[ (n, 0) ]} =@{gset block} {[ (n, 0) ]}) by set_solver. rewrite E0 in Hbits.
  split; cbn.
  - split; cbn; [done|exact Hbits| |].
    + intros o s Hin%elem_of_singleton. injection Hin as -> ->. rewrite Z.sub_diag. lia.
    + intros o Ho. rewrite (arr_get_set _ _ _ _ o Ef). case_decide as Ho2.
      * subst o. destruct (of_order_add n 0 ∅) as [Hsz _]; [set_solver|]. rewrite E0 in Hsz. by rewrite Hsz.
      * destruct (of_order_add n 0 ∅) as [_ Hoth]; [set_solver|]. rewrite E0 in Hoth. rewrite Hoth by done.
        rewrite arr_get_lookup by lia. by rewrite lookup_replicate_2 by lia.
  - set_solver.
  - rewrite (right_id_L ∅ (∪)). split.
    + intros o s Hin%elem_of_singleton. injection Hin as -> ->. rewrite Z.sub_diag. lia.
    + intros x Hx. exists (n, 0). split; [by apply elem_of_singleton|]. unfold covers. cbn. by apply Z.div_small.
    + intros p q x ->%elem_of_singleton ->%elem_of_singleton. done.
  - intros o s Ho Hin%elem_of_singleton. injection Hin as -> ->. lia.
Qed.

(** ** Runs of a client *)

Abbreviation history := (list (buddy_op * option (Z + Z))).

(** A client chooses its next call by the calls so far and their answers. *)
Fixpoint run_client (k : nat) (client : history -> buddy_op) (b : icm_buddy) (h : history) :
    option (icm_buddy * history) :=
  match k with
  | O => Some (b, h)
  | S k =>
      '(b, r) ← buddy_step b (client h);
      run_client k client b (h ++ [(client h, r)])
  end.

(** Histories the contract allows, with what the client holds after them. *)
Inductive spec_run (n : Z) : history -> gset block -> Prop :=
  | spec_start : spec_run n [] ∅
  | spec_more h A op r A' :
      spec_run n h A -> spec_step n A op r A' -> spec_run n (h ++ [(op, r)]) A'.

Lemma step_ok b F A op :
  buddy_inv b F A -> allowed A op ->
  exists b' r F' A', buddy_step b op = Some (b', r) /\ b'.(max_order) = b.(max_order) /\
    buddy_inv b' F' A' /\ spec_step b.(max_order) A op r A'.
Proof.
  intros Hi Hal. destruct op as [order|seg order]; cbn [buddy_step] in *.
  - destruct (alloc_ok b F A order Hi Hal) as (b' & r & F' & A' & -> & Hmx & Hi' & Hs). cbn. eauto 10.
  - destruct Hal as (s & -> & Hin). destruct (free_ok b F A order s Hi Hin) as (b' & F' & -> & Hmx & Hi'). cbn.
    eexists _, _, F', _. do 3 (split; [done|]). by constructor.
Qed.

Lemma client_run_ok n client :
  (forall h A, spec_run n h A -> allowed A (client h)) ->
  forall k b h F A, b.(max_order) = n -> buddy_inv b F A -> spec_run n h A ->
  exists b' h' F' A', run_client k client b h = Some (b', h') /\ length h' = (length h + k)%nat /\
    buddy_inv b' F' A' /\ b'.(max_order) = n /\ spec_run n h' A'.
Proof.
  intros Hc. induction k as [|k IH]; intros b h F A Hn Hi Hr; cbn [run_client].
  - exists b, h, F, A. by rewrite Nat.add_0_r.
  - destruct (step_ok b F A (client h) Hi (Hc _ _ Hr)) as (b' & r & F' & A' & -> & Hmx & Hi' & Hs).
    cbn [mbind option_bind].
    destruct (IH b' (h ++ [(client h, r)]) F' A') as (b'' & h' & F'' & A'' & E & Hlen & Hi'' & Hr'');
      [congruence|done|rewrite Hn in Hs; by eapply spec_more|].
    exists b'', h', F'', A''. split; [done|]. rewrite Hlen, length_app. cbn. split; [lia|done].
Qed.

(** What a run of the contract leaves allocated is in range and disjoint. *)
Lemma spec_run_disjoint n h A : 0 <= n -> spec_run n h A ->
  (forall o s, (o, s) ∈ A -> 0 <= o <= n /\ 0 <= s < 2 ^ (n - o)) /\
  forall p q x, p ∈ A -> q ∈ A -> covers p x -> covers q x -> p = q.
Proof.
  intros Hn. induction 1 as [|h A op r A' Hr [IHr IHd] Hs]; [set_solver|].
  destruct Hs as [order s Ho Hs Hni Hu|order _|order s Hin]; [|done|].
  - split.
    + intros o' s' [Hin|Hin%elem_of_singleton]%elem_of_union; [by apply IHr|]. by injection Hin as -> ->.
    + intros p q x [Hp|Hp%elem_of_singleton]%elem_of_union [Hq|Hq%elem_of_singleton]%elem_of_union Hpx Hqx.
      * by apply (IHd _ _ x).
      * subst q. by destruct (Hu p x).
      * subst p. by destruct (Hu q x).
      * by subst.
  - split; [intros o' s' [H _]%elem_of_difference; by apply IHr|].
    intros p q x [Hp _]%elem_of_difference [Hq _]%elem_of_difference. by apply IHd.
Qed.

(** When nothing is held the whole memory can be had again. *)
Lemma empty_whole b F : buddy_inv b F ∅ ->
  exists b', mlx5dr_buddy_alloc_mem b b.(max_order) = Some (b', inr 0).
Proof.
  intros Hi. pose proof (bo_max _ _ (bi_ok _ _ _ Hi)).
  destruct (alloc_ok b F ∅ b.(max_order) Hi ltac:(lia)) as (b' & r & F' & A' & E & _ & _ & Hs).
  rewrite E. inversion Hs as [order s Ho Hr _ _ |order Hfull|]; subst.
  - rewrite Z.sub_diag in Hr. assert (s = 0) as -> by lia. by exists b'.
  - exfalso. apply (Hfull 0); [lia|rewrite Z.sub_diag; lia|]. intros p x []%elem_of_empty.
Qed.

(** C27: the buddy allocator refines its contract. Memory for [2 ^ n] units (n at
    most 30) is set up; then, whatever a client asks for, as long as it frees
    only what it holds, every call returns (no loop runs out of steps, no bitmap
    is accessed out of bounds) and every answer is one the contract allows: an
    allocation yields an aligned block of the order asked for that shares no
    unit with a block held, and it fails, with [-ENOMEM], only when every
    aligned block of that order shares a unit with one. So the blocks held are
    always inside the memory and disjoint, and once nothing is held the whole
    memory can be allocated as one block again. *)
Theorem buddy_refines_contract (n : Z) (client : history -> buddy_op) :
  0 <= n <= 30 ->
  (forall h A, spec_run n h A -> allowed A (client h)) ->
  exists b, mlx5dr_buddy_init n true (fun _ => true) = Some (inr b) /\
  forall k, exists b' h A, run_client k client b [] = Some (b', h) /\ length h = k /\ spec_run n h A /\
    (forall o s, (o, s) ∈ A -> 0 <= o <= n /\ 0 <= s < 2 ^ (n - o)) /\
    (forall p q x, p ∈ A -> q ∈ A -> covers p x -> covers q x -> p = q) /\
    (A = ∅ -> exists b'', mlx5dr_buddy_alloc_mem b' n = Some (b'', inr 0)).
Proof.
  intros Hn Hc. destruct (init_ok n Hn) as (b & E & Hmx & Hi). exists b. split; [done|]. intros k.
  destruct (client_run_ok n client Hc k b [] _ _ Hmx Hi (spec_start n)) as (b' & h & F & A & Er & Hlen & Hi' & Hmx' & Hr).
  destruct (spec_run_disjoint n h A (proj1 Hn) Hr) as [H1 H2].
  exists b', h, A. split; [done|]. split; [done|]. split; [done|]. split; [done|]. split; [done|].
  intros ->. rewrite <- Hmx'. by apply (empty_whole _ F).
Qed.

(** A client that frees what it has just been given, and otherwise allocates. *)
Definition in_turn (h : history) : buddy_op :=
  match list.last h with
  | Some (Alloc order, Some (inr seg)) => Free seg order
  | _ => Alloc (Z.of_nat (length h) mod 5)
  end.

Lemma in_turn_allowed n h A : spec_run n h A -> allowed A (in_turn h).
Proof.
  destruct 1 as [|h A op r A' _ Hs]; [done|]. unfold in_turn. rewrite list.last_snoc.
  destruct Hs as [order s Ho Hs Hn Hu|order _|order s _]; cbn [allowed]; [|apply Z.mod_pos_bound; lia..].
  exists s. split; [done|]. by apply elem_of_union_r, elem_of_singleton.
Qed.

Theorem buddy_refines_contract_witness :
  exists b, mlx5dr_buddy_init 3 true (fun _ => true) = Some (inr b) /\
  forall k, exists b' h A, run_client k in_turn b [] = Some (b', h) /\ length h = k /\ spec_run 3 h A /\
    (forall o s, (o, s) ∈ A -> 0 <= o <= 3 /\ 0 <= s < 2 ^ (3 - o)) /\
    (forall p q x, p ∈ A -> q ∈ A -> covers p x -> covers q x -> p = q) /\
    (A = ∅ -> exists b'', mlx5dr_buddy_alloc_mem b' 3 = Some (b'', inr 0)).
Proof. apply (buddy_refines_contract 3 in_turn); [lia|apply in_turn_allowed]. Defined.

(** Two blocks split off, an order that cannot be had, and the merge. *)
Example buddy_run :
  (b ← mlx5dr_buddy_init 3 true (fun _ => true);
   match b with
   | inl _ => None
   | inr b =>
       '(_, h) ← run_client 6 (fun h => nth (length h) [Alloc 1; Alloc 0; Alloc 3; Free 0 1; Free 2 0] (Alloc 3)) b [];
       Some (h.*2)
   end) = Some [Some (inr 0); Some (inr 2); Some (inl (- ENOMEM)); None; None; Some (inr 0)].
Proof. by vm_compute. Qed.
