(* ===== verification/IcmPool.v ===== *)
(** The steering memory pools of mlx5:
    drivers/net/ethernet/mellanox/mlx5/core/steering/dr_icm_pool.c, over the
    buddy allocator of [Buddy].

    A pool hands out chunks of device memory. A chunk that is freed is "hot",
    since the hardware may still read it: it goes to an array of hot chunks and
    back to its buddy only after the hardware has been synchronised. The buddies
    of a pool are named by numbers that are never reused, so that a use of a
    buddy after it is destroyed, like an access outside an array, is [None]. *)

From S2P Require Import Prelude Buddy.
#[local] Open Scope Z_scope.

(** ** Sizes (dr_types.h) *)

Inductive mlx5dr_icm_type := DR_ICM_TYPE_STE | DR_ICM_TYPE_MODIFY_ACTION | DR_ICM_TYPE_MODIFY_HDR_PTRN.

#[export] Instance icm_type_dec : EqDecision mlx5dr_icm_type.
Proof. solve_decision. Defined.

Definition DR_STE_SIZE : Z := 64.
Definition DR_MODIFY_ACTION_SIZE : Z := 8.

Definition mlx5dr_icm_pool_dm_type_to_entry_size (t : mlx5dr_icm_type) : Z :=
  match t with DR_ICM_TYPE_STE => DR_STE_SIZE | _ => DR_MODIFY_ACTION_SIZE end.

Definition mlx5dr_icm_pool_chunk_size_to_entries (chunk_size : Z) : Z := u32 (Z.shiftl 1 chunk_size).

(** An [int] product. *)
Definition mlx5dr_icm_pool_chunk_size_to_byte (chunk_size : Z) (t : mlx5dr_icm_type) : Z :=
  s32 (mlx5dr_icm_pool_dm_type_to_entry_size t * s32 (mlx5dr_icm_pool_chunk_size_to_entries chunk_size)).

(** ** The state *)

(** [struct mlx5dr_icm_mr], of what the pool uses. *)
Record mlx5dr_icm_mr := mk_mr { icm_start_addr : Z; mr_length : Z }.

(** [struct mlx5dr_icm_buddy_mem]; [ste_entries] is the size of its STE cache
    ([ste_arr], [hw_ste_arr], [miss_list]), when it has one. *)
Record icm_buddy_mem := mk_buddy_mem {
  bm_buddy : icm_buddy; bm_mr : mlx5dr_icm_mr; used_memory : Z; ste_entries : option Z
}.

(** [struct mlx5dr_icm_hot_chunk] *)
Record hot_chunk := mk_hot { hot_buddy : Z; hot_seg : Z; hot_size : Z }.

#[export] Instance hot_chunk_dec : EqDecision hot_chunk.
Proof. solve_decision. Defined.

(** [struct mlx5dr_icm_chunk]; [ste_index] is where its part of the STE cache
    starts. *)
Record icm_chunk := mk_chunk { chunk_buddy : Z; chunk_seg : Z; chunk_size : Z; ste_index : option Z }.

(** [struct mlx5dr_icm_pool]. [buddies] are the live buddies by name, and
    [next_buddy] is the name of the next one. *)
Record icm_pool := mk_pool {
  icm_type : mlx5dr_icm_type; max_log_chunk_sz : Z;
  buddy_mem_list : list Z; buddies : gmap Z icm_buddy_mem; next_buddy : Z;
  hot_chunks_arr : list hot_chunk; hot_chunks_num : Z; hot_memory_size : Z; th : Z;
  num_buddies : Z
}.

Definition with_buddies (p : icm_pool) (l : list Z) (m : gmap Z icm_buddy_mem) (next n : Z) : icm_pool :=
  mk_pool p.(icm_type) p.(max_log_chunk_sz) l m next p.(hot_chunks_arr) p.(hot_chunks_num) p.(hot_memory_size)
    p.(th) n.

Definition set_buddy (p : icm_pool) (i : Z) (b : icm_buddy_mem) : icm_pool :=
  with_buddies p p.(buddy_mem_list) (<[i := b]> p.(buddies)) p.(next_buddy) p.(num_buddies).

Definition with_hot (p : icm_pool) (arr : list hot_chunk) (n size : Z) : icm_pool :=
  mk_pool p.(icm_type) p.(max_log_chunk_sz) p.(buddy_mem_list) p.(buddies) p.(next_buddy) arr n size
    p.(th) p.(num_buddies).

(** ** Addresses of a chunk *)

Definition mlx5dr_icm_pool_get_chunk_byte_size (p : icm_pool) (c : icm_chunk) : Z :=
  u32 (mlx5dr_icm_pool_chunk_size_to_byte c.(chunk_size) p.(icm_type)).

Definition mlx5dr_icm_pool_get_chunk_mr_addr (p : icm_pool) (c : icm_chunk) : Z :=
  u64 (mlx5dr_icm_pool_dm_type_to_entry_size p.(icm_type) * c.(chunk_seg)).


(** ** Buddies *)

Definition DR_ICM_MODIFY_HDR_ALIGN_BASE : Z := 64.

(** What the allocations answer while a buddy is created: the structures, the
    device memory (its address), its key, the buddy itself, its arrays and
    bitmaps, and the STE cache. *)
Record answers := mk_answers {
  mr_alloc : bool; dm_alloc : option Z; mkey_err : Z;
  buddy_alloc : bool; arrays_alloc : bool; bitmap_alloc : Z -> bool; cache_alloc : bool
}.

(** [None] is a null pointer. *)
Definition dr_icm_pool_mr_create (p : icm_pool) (a : answers) : option mlx5dr_icm_mr :=
  if negb a.(mr_alloc) then None else
  let length := mlx5dr_icm_pool_chunk_size_to_byte p.(max_log_chunk_sz) p.(icm_type) in
  let log_align_base :=
    match p.(icm_type) with
    | DR_ICM_TYPE_STE => Z.log2 length
    | _ => Z.log2 DR_ICM_MODIFY_HDR_ALIGN_BASE
    end in
  match a.(dm_alloc) with
  | None => None
  | Some addr =>
      if c_true a.(mkey_err) then None else
      if c_true (Z.land addr (Z.shiftl 1 log_align_base - 1)) then None else
      Some (mk_mr addr length)
  end.

Definition dr_icm_buddy_init_ste_cache (p : icm_pool) (a : answers) : Z + Z :=
  if a.(cache_alloc) then inr (mlx5dr_icm_pool_chunk_size_to_entries p.(max_log_chunk_sz)) else inl (- ENOMEM).

(** The new pool and the error. *)
Definition dr_icm_buddy_create (p : icm_pool) (a : answers) : option (icm_pool * Z) :=
  match dr_icm_pool_mr_create p a with
  | None => Some (p, - ENOMEM)
  | Some mr =>
      if negb a.(buddy_alloc) then Some (p, - ENOMEM) else
      r ← mlx5dr_buddy_init p.(max_log_chunk_sz) a.(arrays_alloc) a.(bitmap_alloc);
      match r with
      | inl _ => Some (p, - ENOMEM)
      | inr b =>
          let add cache :=
            with_buddies p (p.(next_buddy) :: p.(buddy_mem_list))
              (<[p.(next_buddy) := mk_buddy_mem b mr 0 cache]> p.(buddies)) (p.(next_buddy) + 1)
              (u32 (p.(num_buddies) + 1)) in
          match p.(icm_type) with
          | DR_ICM_TYPE_STE =>
              match dr_icm_buddy_init_ste_cache p a with
              | inl _ => Some (p, - ENOMEM)
              | inr n => Some (add (Some n), 0)
              end
          | _ => Some (add None, 0)
          end
      end
  end.

Definition dr_icm_buddy_destroy (p : icm_pool) (i : Z) : option icm_pool :=
  _ ← p.(buddies) !! i;
  Some (with_buddies p (filter (fun j => j <> i) p.(buddy_mem_list)) (delete i p.(buddies)) p.(next_buddy)
          (u32 (p.(num_buddies) - 1))).

(** ** Synchronisation *)

(** Both [memset]s of the chunk's part of the cache stay inside it. *)
Definition dr_icm_chunk_ste_init (b : icm_buddy_mem) (offset n : Z) : option Z :=
  let index := offset / DR_STE_SIZE in
  total ← b.(ste_entries);
  if decide (0 <= index /\ index + n <= total) then Some index else None.

Definition dr_icm_chunk_init (p : icm_pool) (chunk_size i seg : Z) : option (icm_pool * icm_chunk) :=
  b ← p.(buddies) !! i;
  index ← match p.(icm_type) with
          | DR_ICM_TYPE_STE =>
              let offset := s32 (u32 (mlx5dr_icm_pool_dm_type_to_entry_size p.(icm_type) * seg)) in
              index ← dr_icm_chunk_ste_init b offset (mlx5dr_icm_pool_chunk_size_to_entries chunk_size);
              Some (Some index)
          | _ => Some None
          end;
  let c := mk_chunk i seg chunk_size index in
  let b := mk_buddy_mem b.(bm_buddy) b.(bm_mr) (u64 (b.(used_memory) + mlx5dr_icm_pool_get_chunk_byte_size p c))
             b.(ste_entries) in
  Some (set_buddy p i b, c).

Definition dr_icm_pool_is_sync_required (p : icm_pool) : bool := p.(th) <? p.(hot_memory_size).

(** One turn of the loop over the hot chunks. *)
Definition clear_hot (p : icm_pool) (h : hot_chunk) : option icm_pool :=
  let num_entries := mlx5dr_icm_pool_chunk_size_to_entries h.(hot_size) in
  b ← p.(buddies) !! h.(hot_buddy);
  buddy ← mlx5dr_buddy_free_mem b.(bm_buddy) h.(hot_seg) (Z.log2 num_entries);
  let used := u64 (b.(used_memory) - mlx5dr_icm_pool_chunk_size_to_byte h.(hot_size) p.(icm_type)) in
  Some (set_buddy p h.(hot_buddy) (mk_buddy_mem buddy b.(bm_mr) used b.(ste_entries))).

(** The hot chunks, if the array holds that many. *)
Definition hot_entries (p : icm_pool) : option (list hot_chunk) :=
  if decide (0 <= p.(hot_chunks_num) <= Z.of_nat (length p.(hot_chunks_arr)))
  then Some (take (Z.to_nat p.(hot_chunks_num)) p.(hot_chunks_arr)) else None.

Fixpoint clear_all (p : icm_pool) (hot : list hot_chunk) : option icm_pool :=
  match hot with
  | [] => Some p
  | h :: hot => p ← clear_hot p h; clear_all p hot
  end.

Definition dr_icm_pool_clear_hot_chunks_arr (p : icm_pool) : option icm_pool :=
  hot ← hot_entries p;
  p ← clear_all p hot;
  Some (with_hot p p.(hot_chunks_arr) 0 0).

(** The loop over the buddies, with what is left of the list. *)
Fixpoint destroy_unused (p : icm_pool) (ids : list Z) : option icm_pool :=
  match ids with
  | [] => Some p
  | i :: ids =>
      b ← p.(buddies) !! i;
      p ← (if negb (c_true b.(used_memory)) && bool_decide (p.(icm_type) = DR_ICM_TYPE_STE)
           then dr_icm_buddy_destroy p i else Some p);
      destroy_unused p ids
  end.

(** [err] is the answer of [mlx5dr_cmd_sync_steering]. *)
Definition dr_icm_pool_sync_all_buddy_pools (p : icm_pool) (err : Z) : option (icm_pool * Z) :=
  if c_true err then Some (p, err) else
  p ← dr_icm_pool_clear_hot_chunks_arr p;
  p ← destroy_unused p p.(buddy_mem_list);
  Some (p, 0).

(** ** Chunks *)

Inductive searched := Found (i seg : Z) | Warned (err : Z) | NotFound.

Fixpoint search_buddies (p : icm_pool) (ids : list Z) (chunk_size : Z) (new_mem : bool) : option (icm_pool * searched) :=
  match ids with
  | [] => Some (p, NotFound)
  | i :: ids =>
      b ← p.(buddies) !! i;
      '(buddy, r) ← mlx5dr_buddy_alloc_mem b.(bm_buddy) chunk_size;
      let p := set_buddy p i (mk_buddy_mem buddy b.(bm_mr) b.(used_memory) b.(ste_entries)) in
      match r with
      | inr seg => Some (p, Found i seg)
      | inl err => if new_mem then Some (p, Warned err) else search_buddies p ids chunk_size new_mem
      end
  end.

(** The error, or the buddy and the segment; the fuel bounds the jumps back to
    [alloc_buddy_mem]. *)
Fixpoint get_mem (fuel : nat) (p : icm_pool) (chunk_size : Z) (new_mem : bool) (a : answers) :
    option (icm_pool * (Z + Z * Z)) :=
  match fuel with
  | O => None
  | S fuel =>
      '(p, r) ← search_buddies p p.(buddy_mem_list) chunk_size new_mem;
      match r with
      | Found i seg => Some (p, inr (i, seg))
      | Warned err => Some (p, inl err)
      | NotFound =>
          '(p, err) ← dr_icm_buddy_create p a;
          if c_true err then Some (p, inl err) else get_mem fuel p chunk_size true a
      end
  end.

Definition dr_icm_handle_buddies_get_mem (p : icm_pool) (chunk_size : Z) (a : answers) :
    option (icm_pool * (Z + Z * Z)) :=
  get_mem 2 p chunk_size false a.

(** [chunk_alloc] is the answer of [kmem_cache_alloc]; no chunk is a null
    pointer. *)
Definition mlx5dr_icm_alloc_chunk (p : icm_pool) (chunk_size : Z) (a : answers) (chunk_alloc : bool) :
    option (icm_pool * option icm_chunk) :=
  if p.(max_log_chunk_sz) <? chunk_size then Some (p, None) else
  '(p, r) ← dr_icm_handle_buddies_get_mem p chunk_size a;
  match r with
  | inl _ => Some (p, None)
  | inr (i, seg) =>
      if chunk_alloc then
        '(p, c) ← dr_icm_chunk_init p chunk_size i seg;
        Some (p, Some c)
      else
        b ← p.(buddies) !! i;
        buddy ← mlx5dr_buddy_free_mem b.(bm_buddy) seg chunk_size;
        Some (set_buddy p i (mk_buddy_mem buddy b.(bm_mr) b.(used_memory) b.(ste_entries)), None)
  end.

(** [err] is the answer of the device, should a synchronisation be due. *)
Definition mlx5dr_icm_free_chunk (p : icm_pool) (c : icm_chunk) (err : Z) : option icm_pool :=
  let hot_size := u64 (p.(hot_memory_size) + mlx5dr_icm_pool_get_chunk_byte_size p c) in
  arr ← arr_set p.(hot_chunks_arr) p.(hot_chunks_num) (mk_hot c.(chunk_buddy) c.(chunk_seg) c.(chunk_size));
  let p := with_hot p arr (u32 (p.(hot_chunks_num) + 1)) hot_size in
  if dr_icm_pool_is_sync_required p
  then '(p, _) ← dr_icm_pool_sync_all_buddy_pools p err; Some p
  else Some p.

(** ** The pool *)

Definition hot_mem_percent (t : mlx5dr_icm_type) : Z :=
  match t with
  | DR_ICM_TYPE_STE => 25
  | DR_ICM_TYPE_MODIFY_HDR_PTRN => 50
  | DR_ICM_TYPE_MODIFY_ACTION => 90
  end.

Definition max_hot_size (t : mlx5dr_icm_type) (max_log : Z) : Z :=
  u32 (Z.quot (s32 (mlx5dr_icm_pool_chunk_size_to_byte max_log t * hot_mem_percent t)) 100).

Definition num_of_chunks (t : mlx5dr_icm_type) (max_log : Z) : Z :=
  let entry_size := mlx5dr_icm_pool_dm_type_to_entry_size t in
  u32 (u32 (max_hot_size t max_log + entry_size - 1) / entry_size + 1).

(** [None] is a null pointer; [max_log] is the domain's limit for the type. *)
Definition mlx5dr_icm_pool_create (t : mlx5dr_icm_type) (max_log : Z) (pool_alloc arr_alloc : bool) : option icm_pool :=
  if negb pool_alloc then None else
  if negb arr_alloc then None else
  Some (mk_pool t max_log [] ∅ 0 (replicate (Z.to_nat (num_of_chunks t max_log)) (mk_hot 0 0 0)) 0 0
          (max_hot_size t max_log) 0).



(** ** Sizes *)

Abbreviation esz := mlx5dr_icm_pool_dm_type_to_entry_size.

Definition bytes (t : mlx5dr_icm_type) (s : Z) : Z := esz t * 2 ^ s.

Lemma esz_pos t : 8 <= esz t <= 64.
Proof. destruct t; vm_compute; split; congruence. Qed.

Lemma pow_20 s : 0 <= s <= 20 -> 1 <= 2 ^ s <= 2 ^ 20.
Proof. intros. pose proof (Z.pow_pos_nonneg 2 s). split; [lia|]. apply Z.pow_le_mono_r; lia. Qed.

Lemma entries_pow s : 0 <= s <= 20 -> mlx5dr_icm_pool_chunk_size_to_entries s = 2 ^ s.
Proof.
  intros Hs. unfold mlx5dr_icm_pool_chunk_size_to_entries. rewrite Z.shiftl_1_l. pose proof (pow_20 s Hs).
  apply wrap_small. unfold fits. lia.
Qed.

Lemma bytes_pow s t : 0 <= s <= 20 -> mlx5dr_icm_pool_chunk_size_to_byte s t = bytes t s.
Proof.
  intros Hs. unfold mlx5dr_icm_pool_chunk_size_to_byte. rewrite entries_pow by done. pose proof (pow_20 s Hs).
  pose proof (esz_pos t). rewrite !s32_small; [done|lia|rewrite s32_small by lia; nia].
Qed.

Lemma bytes_range t s : 0 <= s <= 20 -> esz t <= bytes t s <= 2 ^ 26.
Proof. intros Hs. unfold bytes. pose proof (pow_20 s Hs). pose proof (esz_pos t). nia. Qed.

Lemma max_hot_size_range t n : 0 <= n <= 20 -> 0 <= max_hot_size t n < 2 ^ 31.
Proof.
  intros Hn. unfold max_hot_size. rewrite bytes_pow by done. unfold bytes. pose proof (pow_20 n Hn).
  assert (Hb : 0 <= esz t * 2 ^ n * hot_mem_percent t < 2 ^ 31) by (unfold mlx5dr_icm_pool_dm_type_to_entry_size, hot_mem_percent, DR_STE_SIZE, DR_MODIFY_ACTION_SIZE; destruct t; lia).
  rewrite s32_small by done. rewrite Z.quot_div_nonneg by lia.
  set (m := esz t * 2 ^ n * hot_mem_percent t) in *. clearbody m.
  assert (0 <= m / 100 <= m) by (split; [apply Z.div_pos; lia|apply Z.div_le_upper_bound; lia]).
  rewrite wrap_small by (unfold fits; lia). lia.
Qed.

(** As many chunks as fit the threshold leave room for one more. *)
Lemma num_of_chunks_room t n k : 0 <= n <= 20 -> 0 <= k -> k * esz t <= max_hot_size t n ->
  k < num_of_chunks t n <= 2 ^ 31.
Proof.
  intros Hn Hk H. pose proof (max_hot_size_range t n Hn). pose proof (esz_pos t). unfold num_of_chunks.
  rewrite (wrap_small 32 (max_hot_size t n + esz t - 1)) by (unfold fits; lia).
  assert (k <= (max_hot_size t n + esz t - 1) / esz t) by (apply Z.div_le_lower_bound; lia).
  assert ((max_hot_size t n + esz t - 1) / esz t < 2 ^ 31) by (apply Z.div_lt_upper_bound; lia).
  rewrite wrap_small by (unfold fits; lia). lia.
Qed.

(** ** The chunks of a buddy *)

(** The block of a chunk, in the buddy's terms. *)
Definition hot_block (h : hot_chunk) : block := (h.(hot_size), h.(hot_seg) / 2 ^ h.(hot_size)).

Definition of_buddy (i : Z) (L : list hot_chunk) : list hot_chunk := filter (fun h => h.(hot_buddy) = i) L.

Definition aligned (h : hot_chunk) : Prop := hot_seg h = hot_seg h / 2 ^ hot_size h * 2 ^ hot_size h.

Definition mem_size (t : mlx5dr_icm_type) (L : list hot_chunk) : Z :=
  foldr Z.add 0 ((fun h => bytes t h.(hot_size)) <$> L).

Definition blocks (L : list hot_chunk) : gset block := list_to_set (hot_block <$> L).

Lemma hot_block_inj h h' :
  aligned h -> aligned h' -> hot_buddy h = hot_buddy h' -> hot_block h = hot_block h' -> h = h'.
Proof.
  destruct h as [i s o], h' as [i' s' o']. unfold aligned, hot_block. cbn. intros H H' -> [= -> E].
  rewrite H, H', E. done.
Qed.

(** A block is the units it covers. *)
Definition units (p : block) : list Z := seqZ (p.2 * 2 ^ p.1) (2 ^ p.1).

Lemma elem_of_units p x : 0 <= p.1 -> x ∈ units p <-> covers p x.
Proof.
  intros Hp. unfold units, covers. rewrite elem_of_seqZ. pose proof (Z.pow_pos_nonneg 2 p.1 ltac:(lia) Hp) as P.
  split; [intros H; symmetry; apply (Z.div_unique x (2 ^ p.1) p.2 (x - p.2 * 2 ^ p.1)); lia|].
  intros <-. pose proof (Z.div_mod x (2 ^ p.1) ltac:(lia)). pose proof (Z.mod_pos_bound x (2 ^ p.1) P). lia.
Qed.

Lemma length_units_bind (l : list block) :
  (forall p, p ∈ l -> 0 <= p.1) -> Z.of_nat (length (l ≫= units)) = foldr Z.add 0 ((fun p => 2 ^ p.1) <$> l).
Proof.
  induction l as [|p l IH]; intros Hp; cbn; [done|]. rewrite length_app, Nat2Z.inj_add, IH by (intros; apply Hp; by right).
  unfold units at 1. rewrite length_seqZ. pose proof (Z.pow_pos_nonneg 2 p.1 ltac:(lia) (Hp p (list_elem_of_here _ _))). lia.
Qed.

(** Disjoint blocks are no larger together than the memory. *)
Lemma blocks_sum b F (l : list block) :
  NoDup l -> buddy_inv b F (list_to_set l) ->
  foldr Z.add 0 ((fun p => 2 ^ p.1) <$> l) <= 2 ^ b.(max_order).
Proof.
  intros Hl Hi. pose proof (bi_tiling _ _ _ Hi) as Ht. pose proof (bo_max _ _ (bi_ok _ _ _ Hi)) as Hmax.
  assert (Hin : forall p, p ∈ l -> p ∈ F ∪ list_to_set l) by (intros; by apply elem_of_union_r, elem_of_list_to_set).
  assert (Hr : forall p, p ∈ l -> 0 <= p.1 <= max_order b /\ 0 <= p.2 < 2 ^ (max_order b - p.1))
    by (intros [o s] Hp; by apply (tl_range _ _ Ht o s), Hin).
  rewrite <- length_units_bind by (intros; by apply Hr).
  assert (Hsub : l ≫= units ⊆+ seqZ 0 (2 ^ max_order b)).
  { apply NoDup_submseteq.
    - apply NoDup_bind; [|intros; apply NoDup_seqZ|done]. intros p q x Hp Hq Hpx Hqx.
      apply elem_of_units in Hpx, Hqx; [|by apply Hr..]. by apply (tl_disjoint _ _ Ht _ _ x); try apply Hin.
    - intros x (p & Hx & Hp)%list_elem_of_bind. destruct (Hr p Hp). apply elem_of_units in Hx; [|lia].
      apply elem_of_seqZ. destruct p as [o s]. pose proof (region_unit (max_order b) o s x ltac:(done) ltac:(done) Hx). lia. }
  apply submseteq_length in Hsub. rewrite length_seqZ in Hsub. pose proof (Z.pow_pos_nonneg 2 (max_order b)). lia.
Qed.

Lemma mem_size_blocks t L : mem_size t L = esz t * foldr Z.add 0 ((fun p => 2 ^ p.1) <$> (hot_block <$> L)).
Proof. unfold mem_size. induction L as [|h L IH]; cbn; [lia|]. rewrite IH. unfold bytes. lia. Qed.

Lemma mem_size_cons t h L : mem_size t (h :: L) = bytes t h.(hot_size) + mem_size t L.
Proof. done. Qed.

Lemma mem_size_nonneg t L : 0 <= mem_size t L.
Proof.
  induction L as [|h L IH]; [done|]. rewrite mem_size_cons. unfold bytes. pose proof (esz_pos t).
  pose proof (Z.pow_nonneg 2 (hot_size h) ltac:(lia)). nia.
Qed.

Lemma mem_size_perm t L L' : L ≡ₚ L' -> mem_size t L = mem_size t L'.
Proof. unfold mem_size. induction 1; cbn in *; lia. Qed.

Lemma mem_size_zero t L : Forall (fun h => 0 <= hot_size h) L -> mem_size t L = 0 -> L = [].
Proof.
  destruct 1 as [|h L Hh HL]; [done|]. rewrite mem_size_cons. pose proof (mem_size_nonneg t L). unfold bytes. pose proof (esz_pos t).
  pose proof (Z.pow_pos_nonneg 2 (hot_size h) ltac:(lia) Hh). nia.
Qed.

(** ** The invariant *)

(** A buddy whose allocated blocks are those of [L], and whose [used_memory]
    counts those of [U]: between an allocation and its accounting they differ. *)
Record buddy_mem_ok (t : mlx5dr_icm_type) (n : Z) (L U : list hot_chunk) (b : icm_buddy_mem) : Prop := {
  bm_inv : exists F, buddy_inv b.(bm_buddy) F (blocks L);
  bm_order : b.(bm_buddy).(max_order) = n;
  bm_used : b.(used_memory) = mem_size t U;
  bm_cache : b.(ste_entries) = match t with DR_ICM_TYPE_STE => Some (2 ^ n) | _ => None end;
  bm_length : b.(bm_mr).(mr_length) = bytes t n;
  bm_aligned : t = DR_ICM_TYPE_STE -> Z.land b.(bm_mr).(icm_start_addr) (bytes t n - 1) = 0
}.

Record pool_inv (p : icm_pool) (L U : list hot_chunk) : Prop := {
  pi_log : 0 <= p.(max_log_chunk_sz) <= 20;
  pi_nodup_list : NoDup p.(buddy_mem_list);
  pi_list : forall i, i ∈ p.(buddy_mem_list) <-> is_Some (p.(buddies) !! i);
  pi_next : forall i, is_Some (p.(buddies) !! i) -> i < p.(next_buddy);
  pi_count : p.(num_buddies) = u32 (Z.of_nat (length p.(buddy_mem_list)));
  pi_nodup : NoDup L;
  pi_held : forall h, h ∈ L -> is_Some (p.(buddies) !! h.(hot_buddy)) /\ aligned h;
  pi_buddy : forall i b, p.(buddies) !! i = Some b ->
    buddy_mem_ok p.(icm_type) p.(max_log_chunk_sz) (of_buddy i L) (of_buddy i U) b
}.

Lemma of_buddy_cons i h L : of_buddy i (h :: L) = if decide (hot_buddy h = i) then h :: of_buddy i L else of_buddy i L.
Proof. unfold of_buddy. by rewrite filter_cons. Qed.

Lemma elem_of_of_buddy i h L : h ∈ of_buddy i L <-> hot_buddy h = i /\ h ∈ L.
Proof. unfold of_buddy. by rewrite list_elem_of_filter. Qed.

(** The blocks of a buddy's chunks are distinct. *)
Lemma of_buddy_nodup p L U i : pool_inv p L U -> NoDup (hot_block <$> of_buddy i L).
Proof.
  intros Hi. assert (Hnd : NoDup (of_buddy i L)) by (apply list.NoDup_filter, Hi).
  assert (Hh : forall h, h ∈ of_buddy i L -> aligned h /\ hot_buddy h = i).
  { intros h [Hb Hin]%elem_of_of_buddy. split; [by apply (pi_held _ _ _ Hi)|done]. }
  revert Hh. induction Hnd as [|h l Hn _ IH]; intros Hh; cbn; constructor.
  - intros (h' & E & Hin)%list_elem_of_fmap. apply Hn.
    destruct (Hh h (list_elem_of_here _ _)), (Hh h' (list_elem_of_further _ _ _ Hin)).
    by rewrite (hot_block_inj h h') by congruence.
  - apply IH. intros h' Hin. apply Hh. by right.
Qed.

(** A chunk's size is in range. *)
Lemma held_range p L U h : pool_inv p L U -> h ∈ L ->
  0 <= h.(hot_size) <= p.(max_log_chunk_sz) /\
  0 <= h.(hot_seg) / 2 ^ h.(hot_size) < 2 ^ (p.(max_log_chunk_sz) - h.(hot_size)).
Proof.
  intros Hi Hin. destruct (pi_held _ _ _ Hi h Hin) as [[b Hb] _]. destruct (pi_buddy _ _ _ Hi _ b Hb) as [[F HF] Ho _ _ _ _].
  rewrite <- Ho. apply (tl_range _ _ (bi_tiling _ _ _ HF)). apply elem_of_union_r, elem_of_list_to_set, list_elem_of_fmap.
  exists h. split; [done|]. by apply elem_of_of_buddy.
Qed.

Lemma used_bound p L U i : pool_inv p L U -> 0 <= mem_size p.(icm_type) (of_buddy i L) <= 2 ^ 26.
Proof.
  intros Hi. pose proof (pi_log _ _ _ Hi) as Hlog.
  destruct (buddies p !! i) as [b|] eqn:Hb.
  - destruct (pi_buddy _ _ _ Hi _ b Hb) as [[F HF] Ho _ _ _ _]. rewrite mem_size_blocks.
    pose proof (blocks_sum _ F _ (of_buddy_nodup _ _ _ i Hi) HF) as Hs. rewrite Ho in Hs.
    pose proof (pow_20 _ Hlog). pose proof (esz_pos (icm_type p)).
    assert (0 <= foldr Z.add 0 ((fun p => 2 ^ p.1) <$> (hot_block <$> of_buddy i L))); [|nia].
    generalize (hot_block <$> of_buddy i L). intros l. induction l as [|q l IH]; cbn; [lia|].
    pose proof (Z.pow_nonneg 2 q.1 ltac:(lia)). lia.
  - destruct (of_buddy i L) as [|h l] eqn:E; [cbn; lia|].
    assert (Hin : h ∈ of_buddy i L) by (rewrite E; left). apply elem_of_of_buddy in Hin as [Hh Hin].
    destruct (pi_held _ _ _ Hi h Hin) as [[b Hb'] _]. congruence.
Qed.

Lemma pool_inv_perm p L L' U U' : L ≡ₚ L' -> U ≡ₚ U' -> pool_inv p L U -> pool_inv p L' U'.
Proof.
  intros HL HU [? ? ? ? ? Hnd Hh Hb]. split; try done.
  - by rewrite <- HL.
  - intros h. rewrite <- HL. apply Hh.
  - intros i b E. destruct (Hb i b E) as [[F HF] Ho Hu Hc Hl Ha].
    assert (HLi : of_buddy i L ≡ₚ of_buddy i L') by (unfold of_buddy; by rewrite HL).
    assert (HUi : of_buddy i U ≡ₚ of_buddy i U') by (unfold of_buddy; by rewrite HU).
    split; [|done| |done..].
    + exists F. unfold blocks in *. replace (list_to_set (hot_block <$> of_buddy i L')) with
        (list_to_set (hot_block <$> of_buddy i L) : gset block); [done|]. apply list_to_set_perm_L. by rewrite HLi.
    + rewrite Hu. by apply mem_size_perm.
Qed.

(** The part of a pool that its buddies are not. *)
Definition pool_rest (p : icm_pool) :=
  (p.(icm_type), p.(max_log_chunk_sz), p.(hot_chunks_arr), p.(hot_chunks_num), p.(hot_memory_size), p.(th)).

Definition same_list (p p' : icm_pool) : Prop :=
  pool_rest p' = pool_rest p /\ p'.(buddy_mem_list) = p.(buddy_mem_list) /\ p'.(next_buddy) = p.(next_buddy) /\
  p'.(num_buddies) = p.(num_buddies) /\ forall j, is_Some (p'.(buddies) !! j) <-> is_Some (p.(buddies) !! j).

#[export] Instance same_list_trans : Transitive same_list.
Proof.
  intros p q r (E1 & E2 & E3 & E4 & E5) (F1 & F2 & F3 & F4 & F5).
  do 4 (split; [congruence|]). intros j. by rewrite F5, E5.
Qed.

Lemma set_buddy_same p i b b0 : p.(buddies) !! i = Some b0 -> same_list p (set_buddy p i b).
Proof.
  intros Hb. do 4 (split; [done|]). intros j. cbn. destruct (decide (i = j)) as [<-|Hne].
  - rewrite lookup_insert_eq, Hb. by split.
  - by rewrite lookup_insert_ne.
Qed.

(** One buddy changes, with the chunks it holds. *)
Lemma set_buddy_inv p L U i b b' L' U' :
  pool_inv p L U -> p.(buddies) !! i = Some b ->
  buddy_mem_ok p.(icm_type) p.(max_log_chunk_sz) (of_buddy i L') (of_buddy i U') b' ->
  (forall j, j <> i -> of_buddy j L' = of_buddy j L /\ of_buddy j U' = of_buddy j U) ->
  NoDup L' -> (forall h, h ∈ L' -> is_Some (p.(buddies) !! h.(hot_buddy)) /\ aligned h) ->
  pool_inv (set_buddy p i b') L' U'.
Proof.
  intros [? ? Hl Hx ? _ _ Hb] E Hb' Hoth Hnd Hh. destruct (set_buddy_same p i b' b E) as (_ & _ & _ & _ & Hdom).
  split; cbn in *; [done|done| | |done|done| |].
  - intros j. by rewrite Hdom.
  - intros j. rewrite Hdom. apply Hx.
  - intros h Hin. rewrite Hdom. by apply Hh.
  - intros j bj Ej. destruct (decide (i = j)) as [<-|Hne].
    + rewrite lookup_insert_eq in Ej. by injection Ej as <-.
    + rewrite lookup_insert_ne in Ej by done. destruct (Hoth j ltac:(done)) as [-> ->]. by apply Hb.
Qed.

Lemma of_buddy_other i h (L : list hot_chunk) j : hot_buddy h = i -> j <> i -> of_buddy j (h :: L) = of_buddy j L.
Proof. intros <- Hj. rewrite of_buddy_cons. by case_decide. Qed.

Lemma of_buddy_same h (L : list hot_chunk) : of_buddy (hot_buddy h) (h :: L) = h :: of_buddy (hot_buddy h) L.
Proof. rewrite of_buddy_cons. by case_decide. Qed.

Lemma mk_hot_block i s o : 0 <= o -> hot_block (mk_hot i (s * 2 ^ o) o) = (o, s).
Proof. intros Ho. unfold hot_block. cbn. pose proof (Z.pow_pos_nonneg 2 o ltac:(lia) Ho). by rewrite Z.div_mul by lia. Qed.

Lemma mk_hot_aligned i s o : 0 <= o -> aligned (mk_hot i (s * 2 ^ o) o).
Proof. intros Ho. unfold aligned. cbn. pose proof (Z.pow_pos_nonneg 2 o ltac:(lia) Ho). by rewrite Z.div_mul by lia. Qed.

(** A buddy gives a block. *)
Lemma buddy_gives p L U i b size :
  pool_inv p L U -> p.(buddies) !! i = Some b -> 0 <= size <= p.(max_log_chunk_sz) ->
  exists buddy r, mlx5dr_buddy_alloc_mem b.(bm_buddy) size = Some (buddy, r) /\
  let p' := set_buddy p i (mk_buddy_mem buddy b.(bm_mr) b.(used_memory) b.(ste_entries)) in
  match r with
  | inr seg => mk_hot i seg size ∉ L /\ pool_inv p' (mk_hot i seg size :: L) U
  | inl _ => pool_inv p' L U /\ of_buddy i L <> []
  end.
Proof.
  intros Hi Hb Hs. destruct (pi_buddy _ _ _ Hi i b Hb) as [[F HF] Ho Hu Hc Hl Ha].
  destruct (alloc_ok _ _ _ size HF ltac:(lia)) as (b' & r & F' & A' & E & Hmx & HF' & Hspec).
  exists b', r. split; [done|]. rewrite Ho in *. inversion Hspec as [o s Ho' Hs' Hn Hun|o Hfull|]; subst.
  - set (h := mk_hot i (s * 2 ^ size) size).
    assert (Hhb : hot_block h = (size, s)) by (apply mk_hot_block; lia).
    assert (HnL : h ∉ L).
    { intros Hin. apply Hn, elem_of_list_to_set, list_elem_of_fmap. exists h. split; [done|]. by apply elem_of_of_buddy. }
    split; [done|]. apply (set_buddy_inv p L U i b); [done|done| | |apply list.NoDup_cons; split; [done|apply Hi]|].
    + rewrite (of_buddy_same h L : of_buddy i (h :: L) = h :: of_buddy i L). split; [|cbn; congruence|done..].
      exists F'. unfold blocks. cbn [fmap list_fmap list_to_set bm_buddy]. rewrite Hhb, (comm_L (∪)). apply HF'.
    + intros j Hj. by rewrite (of_buddy_other i h).
    + intros h' [->|Hin]%elem_of_cons; [split; [by eexists|apply mk_hot_aligned; lia]|by apply (pi_held _ _ _ Hi)].
  - split.
    + apply (set_buddy_inv p L U i b); [done|done| |done|apply Hi|apply (pi_held _ _ _ Hi)].
      split; cbn; [by exists F'|congruence|done..].
    + intros E0. rewrite E0 in Hfull. apply (Hfull 0); [lia| |by intros q x Hq].
      pose proof (Z.pow_pos_nonneg 2 (max_log_chunk_sz p - size)). lia.
Qed.

(** A buddy takes a block back. *)
Lemma buddy_takes p L U h b :
  pool_inv p (h :: L) U -> p.(buddies) !! h.(hot_buddy) = Some b ->
  exists buddy, mlx5dr_buddy_free_mem b.(bm_buddy) h.(hot_seg) h.(hot_size) = Some buddy /\
    forall used U', 
      (used = mem_size p.(icm_type) (of_buddy h.(hot_buddy) U')) ->
      (forall j, j <> h.(hot_buddy) -> of_buddy j U' = of_buddy j U) ->
      pool_inv (set_buddy p h.(hot_buddy) (mk_buddy_mem buddy b.(bm_mr) used b.(ste_entries))) L U'.
Proof.
  intros Hi Hb. destruct (pi_buddy _ _ _ Hi _ b Hb) as [[F HF] Ho Hu Hc Hl Ha]. rewrite of_buddy_same in HF.
  destruct (pi_held _ _ _ Hi h) as [_ Hal]; [by left|]. set (o := hot_size h) in *. set (s := hot_seg h / 2 ^ o).
  destruct (free_ok _ _ _ o s HF) as (b' & F' & E & Hmx & HF'); [unfold blocks; cbn; set_solver|].
  exists b'. rewrite Hal. split; [done|]. intros used U' Hused HU'.
  pose proof (of_buddy_nodup _ _ _ (hot_buddy h) Hi) as Hnd. rewrite of_buddy_same in Hnd. cbn in Hnd.
  apply list.NoDup_cons in Hnd as [Hnb _]. pose proof (pi_nodup _ _ _ Hi) as HndL. apply list.NoDup_cons in HndL as [_ HndL].
  apply (set_buddy_inv p (h :: L) U _ b); [done|done| | |done|intros; apply (pi_held _ _ _ Hi); by right].
  - split; cbn; [|congruence|done..]. exists F'.
    replace (blocks (of_buddy (hot_buddy h) L)) with (blocks (h :: of_buddy (hot_buddy h) L) ∖ {[ (o, s) ]}); [done|].
    unfold blocks. cbn. change (hot_block h) with (o, s). apply set_eq. intros q.
    rewrite elem_of_difference, elem_of_union, elem_of_singleton, elem_of_list_to_set.
    destruct (decide (q = (o, s))) as [->|]; [|tauto]. split; [tauto|done].
  - intros j Hj. by rewrite (of_buddy_other (hot_buddy h) h), HU'.
Qed.

(** ** Searching the buddies *)

Lemma search_ok p L U size new_mem ids :
  pool_inv p L U -> 0 <= size <= p.(max_log_chunk_sz) -> (forall i, i ∈ ids -> is_Some (p.(buddies) !! i)) ->
  exists p' r, search_buddies p ids size new_mem = Some (p', r) /\ same_list p p' /\
  match r with
  | Found i seg => mk_hot i seg size ∉ L /\ pool_inv p' (mk_hot i seg size :: L) U
  | Warned _ => new_mem = true /\ match ids with i :: _ => of_buddy i L <> [] | [] => False end
  | NotFound => pool_inv p' L U /\ (new_mem = true -> ids = [])
  end.
Proof.
  intros Hi Hs. revert p Hi Hs. induction ids as [|i ids IH]; intros p Hi Hs Hids; cbn [search_buddies].
  - exists p, NotFound. split; [done|]. split; [|done]. do 4 (split; [done|]). done.
  - destruct (Hids i) as [b Hb]; [by left|]. rewrite Hb. cbn [mbind option_bind].
    destruct (buddy_gives p L U i b size Hi Hb Hs) as (buddy & r & -> & Hr). cbn [mbind option_bind].
    set (p' := set_buddy p i _) in *. pose proof (set_buddy_same p i (mk_buddy_mem buddy (bm_mr b) (used_memory b) (ste_entries b)) b Hb) as Hsame.
    fold p' in Hsame. destruct r as [err|seg].
    + destruct Hr as [Hi' Hne]. destruct new_mem; [by exists p', (Warned err)|].
      destruct (IH p' Hi') as (p'' & r & -> & Hsame' & Hr'); [done|intros j Hj; apply Hsame, Hids; by right|].
      exists p'', r. split; [done|]. split; [by etrans|]. destruct r; [done|naive_solver|naive_solver].
    + by exists p', (Found i seg).
Qed.

Lemma init_cases n a bm :
  mlx5dr_buddy_init n a bm = Some (inl (- ENOMEM)) \/
  mlx5dr_buddy_init n a bm = mlx5dr_buddy_init n true (fun _ => true).
Proof.
  unfold mlx5dr_buddy_init. destruct a; cbn [negb]; [|by left]. destruct (forallb bm _); cbn [negb]; [right|by left].
  replace (forallb (fun _ => true) _) with true by (symmetry; by apply forallb_forall). done.
Qed.

(** No chunk belongs to a buddy that is not there. *)
Lemma of_buddy_fresh p L U : pool_inv p L U -> forall i, buddies p !! i = None -> of_buddy i L = [].
Proof.
  intros Hi i Hn. destruct (of_buddy i L) as [|h l] eqn:E; [done|].
  assert (Hin : h ∈ of_buddy i L) by (rewrite E; left). apply elem_of_of_buddy in Hin as [<- Hin].
  destruct (pi_held _ _ _ Hi h Hin) as [[b Hb] _]. congruence.
Qed.

Lemma buddy_create_ok p L U a :
  pool_inv p L U -> (forall h, h ∈ U -> h ∈ L) ->
  exists p' err, dr_icm_buddy_create p a = Some (p', err) /\ pool_inv p' L U /\ pool_rest p' = pool_rest p /\
    (err = - ENOMEM /\ p' = p \/
     err = 0 /\ p'.(buddy_mem_list) = p.(next_buddy) :: p.(buddy_mem_list) /\ of_buddy p.(next_buddy) L = []).
Proof.
  intros Hi HUL. unfold dr_icm_buddy_create. assert (Hbad : exists p' err, Some (p, - ENOMEM) = Some (p', err) /\ pool_inv p' L U /\ pool_rest p' = pool_rest p /\
    (err = - ENOMEM /\ p' = p \/
     err = 0 /\ p'.(buddy_mem_list) = p.(next_buddy) :: p.(buddy_mem_list) /\ of_buddy p.(next_buddy) L = []))
    by (exists p, (- ENOMEM); naive_solver).
  destruct (dr_icm_pool_mr_create p a) as [mr|] eqn:Emr; [|done].
  destruct (buddy_alloc a); cbn [negb]; [|done].
  destruct (init_cases (max_log_chunk_sz p) (arrays_alloc a) (bitmap_alloc a)) as [-> | ->]; [done|].
  pose proof (pi_log _ _ _ Hi) as Hlog.
  destruct (init_ok (max_log_chunk_sz p) ltac:(lia)) as (b & -> & Hmx & Hb). cbn [mbind option_bind].
  set (i := next_buddy p). set (n := max_log_chunk_sz p) in *.
  assert (Hfresh : buddies p !! i = None).
  { destruct (buddies p !! i) eqn:E; [|done]. pose proof (pi_next _ _ _ Hi i ltac:(by eexists)). unfold i in *. lia. }
  assert (HL : of_buddy i L = []) by by eapply of_buddy_fresh.
  assert (HU : of_buddy i U = []).
  { destruct (of_buddy i U) as [|h l] eqn:E; [done|]. assert (Hin : h ∈ of_buddy i U) by (rewrite E; left).
    apply elem_of_of_buddy in Hin as [Hh Hin]. assert (Hx : h ∈ of_buddy i L) by (apply elem_of_of_buddy; auto).
    rewrite HL in Hx. by apply elem_of_nil in Hx. }
  assert (Hmr : mr_length mr = bytes (icm_type p) n /\ (icm_type p = DR_ICM_TYPE_STE -> Z.land (icm_start_addr mr) (bytes (icm_type p) n - 1) = 0)).
  { unfold dr_icm_pool_mr_create in Emr. destruct (mr_alloc a); cbn [negb] in Emr; [|done]. destruct (dm_alloc a); [|done].
    destruct (c_true (mkey_err a)); [done|]. destruct (c_true (Z.land _ _)) eqn:El; [done|]. injection Emr as <-. cbn.
    fold n in El |- *. rewrite bytes_pow in El |- * by done. split; [done|]. intros Ht. rewrite Ht in *. apply c_true_false in El.
    assert (Eb : bytes DR_ICM_TYPE_STE n = 2 ^ (6 + n)) by (rewrite Z.pow_add_r by lia; done).
    rewrite Eb in *. rewrite Z.log2_pow2, Z.shiftl_1_l in El by lia. done. }
  assert (Hnew : forall cache, cache = match icm_type p with DR_ICM_TYPE_STE => Some (2 ^ n) | _ => None end ->
    pool_inv (with_buddies p (i :: buddy_mem_list p) (<[i:=mk_buddy_mem b mr 0 cache]> (buddies p)) (i + 1) (u32 (num_buddies p + 1))) L U).
  { intros cache Hc. destruct Hmr as [Hlen Halign]. split; cbn.
    - done.
    - constructor; [|apply Hi]. rewrite (pi_list _ _ _ Hi), Hfresh. by intros [].
    - intros j. rewrite elem_of_cons, (pi_list _ _ _ Hi), lookup_insert_is_Some'. naive_solver.
    - intros j [<-|Hj]%lookup_insert_is_Some'; [lia|]. pose proof (pi_next _ _ _ Hi j Hj). unfold i. lia.
    - rewrite (pi_count _ _ _ Hi). unfold wrap. rewrite Zplus_mod_idemp_l. f_equal. lia.
    - apply Hi.
    - intros h Hin. destruct (pi_held _ _ _ Hi h Hin). split; [|done]. apply lookup_insert_is_Some'. by right.
    - intros j bj Ej. apply lookup_insert_Some in Ej as [[<- <-]|[Hne Ej]]; [|by apply (pi_buddy _ _ _ Hi)].
      rewrite HL, HU. split; cbn; [eexists; exact Hb|done|done|done|done|done]. }
  pose proof (entries_pow n Hlog) as He. unfold dr_icm_buddy_init_ste_cache. fold n. rewrite He.
  destruct (icm_type p) eqn:Et; [destruct (cache_alloc a); [|done]|..]; 
    (eexists _, _; split; [done|]; split; [apply Hnew; done|]; split; [by unfold pool_rest; cbn; rewrite ?Et|right; done]).
Qed.

(** ** Allocation *)

Lemma get_mem_ok p L U size a :
  pool_inv p L U -> (forall h, h ∈ U -> h ∈ L) -> 0 <= size <= p.(max_log_chunk_sz) ->
  exists p' r, dr_icm_handle_buddies_get_mem p size a = Some (p', r) /\ pool_rest p' = pool_rest p /\
  match r with
  | inr (i, seg) => mk_hot i seg size ∉ L /\ pool_inv p' (mk_hot i seg size :: L) U
  | inl err => err = - ENOMEM /\ pool_inv p' L U
  end.
Proof.
  intros Hi HUL Hs. unfold dr_icm_handle_buddies_get_mem. cbn [get_mem].
  destruct (search_ok p L U size false (buddy_mem_list p) Hi Hs) as (p1 & r & -> & Hsame & Hr);
    [intros i; apply (pi_list _ _ _ Hi)|]. cbn [mbind option_bind].
  destruct r as [i seg|err|]; [|by destruct Hr|].
  { exists p1, (inr (i, seg)). split; [done|]. by split; [apply Hsame|]. }
  destruct Hr as [Hi1 _]. destruct Hsame as [Erest _].
  destruct (buddy_create_ok p1 L U a Hi1 HUL) as (p2 & err & -> & Hi2 & Erest2 & [[-> ->]|(-> & Elist & Hfresh)]);
    cbn [mbind option_bind].
  - eexists _, (inl _). split; [done|]. done.
  - cbn [c_true negb Z.eqb].
    assert (Hs2 : 0 <= size <= max_log_chunk_sz p2) by (unfold pool_rest in *; assert (max_log_chunk_sz p2 = max_log_chunk_sz p) as -> by congruence; done).
    destruct (search_ok p2 L U size true (buddy_mem_list p2) Hi2 Hs2) as (p3 & r & -> & Hsame3 & Hr);
      [intros i; apply (pi_list _ _ _ Hi2)|]. cbn [mbind option_bind]. rewrite Elist in Hr.
    destruct r as [i seg|err|]; [|by destruct Hr|by destruct Hr as [_ Hr]; specialize (Hr eq_refl)].
    exists p3, (inr (i, seg)). split; [done|]. split; [|done]. destruct Hsame3 as [E3 _]. congruence.
Qed.

Definition hot_of (c : icm_chunk) : hot_chunk := mk_hot c.(chunk_buddy) c.(chunk_seg) c.(chunk_size).

(** The chunk's part of the STE cache is that of its segment. *)
Definition cache_ok (t : mlx5dr_icm_type) (c : icm_chunk) : Prop :=
  c.(ste_index) = match t with DR_ICM_TYPE_STE => Some c.(chunk_seg) | _ => None end.

Lemma seg_range p L U h : pool_inv p L U -> h ∈ L ->
  0 <= h.(hot_seg) /\ h.(hot_seg) + 2 ^ h.(hot_size) <= 2 ^ p.(max_log_chunk_sz) <= 2 ^ 20.
Proof.
  intros Hi Hin. destruct (held_range _ _ _ _ Hi Hin) as [Ho Hs]. destruct (pi_held _ _ _ Hi h Hin) as [_ Hal].
  pose proof (pow_20 _ (pi_log _ _ _ Hi)). rewrite Hal.
  assert (E : 2 ^ max_log_chunk_sz p = 2 ^ (max_log_chunk_sz p - hot_size h) * 2 ^ hot_size h)
    by (rewrite <- Z.pow_add_r by lia; f_equal; lia).
  pose proof (Z.pow_pos_nonneg 2 (hot_size h)). nia.
Qed.

Lemma chunk_init_ok p L i seg size :
  let h := mk_hot i seg size in
  pool_inv p (h :: L) L ->
  exists p' c, dr_icm_chunk_init p size i seg = Some (p', c) /\ pool_rest p' = pool_rest p /\
    hot_of c = h /\ cache_ok p.(icm_type) c /\ pool_inv p' (h :: L) (h :: L).
Proof.
  intros h Hi. destruct (pi_held _ _ _ Hi h) as [[b Hb] Hal]; [by left|]. cbn in Hb.
  destruct (held_range _ _ _ h Hi) as [Ho _]; [by left|]. destruct (seg_range _ _ _ h Hi) as [Hs0 Hs]; [by left|].
  destruct (pi_buddy _ _ _ Hi i b Hb) as [HF Hord Hu Hc Hl Ha]. pose proof (pi_log _ _ _ Hi) as Hlog. cbn in Ho, Hs0, Hs.
  pose proof (used_bound _ _ _ i Hi) as Hub. rewrite (of_buddy_same h L : of_buddy i (h :: L) = h :: of_buddy i L), mem_size_cons in Hub.
  pose proof (bytes_range (icm_type p) size ltac:(lia)) as Hbr.
  assert (Hnew : forall ix, pool_inv (set_buddy p i (mk_buddy_mem (bm_buddy b) (bm_mr b)
      (u64 (used_memory b + mlx5dr_icm_pool_get_chunk_byte_size p (mk_chunk i seg size ix))) (ste_entries b))) (h :: L) (h :: L)).
  { intros ix. apply (set_buddy_inv p (h :: L) L i b); [done|done| | |apply Hi|apply (pi_held _ _ _ Hi)].
    - split; [done|done| |done..]. cbn [used_memory]. unfold mlx5dr_icm_pool_get_chunk_byte_size. cbn [chunk_size].
      rewrite bytes_pow by lia. pose proof (esz_pos (icm_type p)). cbn [hot_size h] in Hub.
      rewrite (of_buddy_same h L : of_buddy i (h :: L) = h :: of_buddy i L), mem_size_cons, Hu.
      rewrite (wrap_small 32) by (unfold fits; lia). cbn [hot_size h]. 
      pose proof (mem_size_nonneg (icm_type p) (of_buddy i L)).
      rewrite wrap_small by (unfold fits; lia). lia.
    - intros j Hj. by rewrite (of_buddy_other i h). }
  unfold dr_icm_chunk_init. rewrite Hb. cbn [mbind option_bind]. unfold cache_ok.
  destruct (icm_type p) eqn:Et; cbn [mbind option_bind mlx5dr_icm_pool_dm_type_to_entry_size].
  2, 3: eexists _, _; split; [done|]; split; [done|]; split; [done|]; split; [done|apply Hnew].
  unfold dr_icm_chunk_ste_init. rewrite Hc, entries_pow by lia. cbn [mbind option_bind]. unfold DR_STE_SIZE.
  rewrite (wrap_small 32) by (unfold fits; lia). rewrite s32_small by lia. rewrite (Z.mul_comm 64), Z.div_mul by lia.
  rewrite decide_True by lia. cbn [mbind option_bind].
  eexists _, _. split; [done|]. split; [done|]. split; [done|]. split; [done|].
  rewrite <- Hc. apply Hnew.
Qed.

Lemma free_mem_ok p L U h b :
  pool_inv p (h :: L) U -> p.(buddies) !! h.(hot_buddy) = Some b -> of_buddy h.(hot_buddy) L = of_buddy h.(hot_buddy) U ->
  exists buddy, mlx5dr_buddy_free_mem b.(bm_buddy) h.(hot_seg) h.(hot_size) = Some buddy /\
    pool_inv (set_buddy p h.(hot_buddy) (mk_buddy_mem buddy b.(bm_mr) b.(used_memory) b.(ste_entries))) L U.
Proof.
  intros Hi Hb HU. destruct (buddy_takes _ _ _ _ _ Hi Hb) as (buddy & E & H). exists buddy. split; [done|].
  apply H; [|done]. apply (bm_used _ _ _ _ _ (pi_buddy _ _ _ Hi _ _ Hb)).
Qed.

Lemma alloc_chunk_ok p L size a chunk_alloc :
  pool_inv p L L -> 0 <= size ->
  exists p' r, mlx5dr_icm_alloc_chunk p size a chunk_alloc = Some (p', r) /\ pool_rest p' = pool_rest p /\
  match r with
  | Some c => hot_of c ∉ L /\ c.(chunk_size) = size /\ cache_ok p.(icm_type) c /\ pool_inv p' (hot_of c :: L) (hot_of c :: L)
  | None => pool_inv p' L L
  end.
Proof.
  intros Hi Hs. unfold mlx5dr_icm_alloc_chunk. destruct (Z.ltb_spec (max_log_chunk_sz p) size); [by eexists _, None|].
  destruct (get_mem_ok p L L size a Hi ltac:(done) ltac:(lia)) as (p1 & r & -> & Erest & Hr). cbn [mbind option_bind].
  destruct r as [err|[i seg]]; [by eexists _, None; destruct Hr|]. destruct Hr as [Hn Hi1].
  destruct chunk_alloc.
  - destruct (chunk_init_ok p1 L i seg size Hi1) as (p2 & c & -> & Erest2 & Eh & Hc & Hi2). cbn [mbind option_bind].
    eexists _, (Some c). split; [done|]. split; [congruence|]. rewrite Eh. split; [done|].
    split; [by injection Eh|]. split; [|done]. unfold pool_rest in *.
    by replace (icm_type p) with (icm_type p1) by congruence.
  - set (h := mk_hot i seg size) in *. destruct (pi_held _ _ _ Hi1 h) as [[b Hb] _]; [by left|].
    destruct (free_mem_ok p1 L L h b Hi1 Hb eq_refl) as (buddy & E & Hi2). cbn in Hb, E, Hi2.
    rewrite Hb. cbn [mbind option_bind]. rewrite E. cbn [mbind option_bind]. by eexists _, None.
Qed.

(** ** Synchronisation *)

Lemma clear_hot_ok p L h :
  pool_inv p (h :: L) (h :: L) ->
  exists p', clear_hot p h = Some p' /\ same_list p p' /\ pool_inv p' L L.
Proof.
  intros Hi. destruct (pi_held _ _ _ Hi h) as [[b Hb] _]; [by left|]. unfold clear_hot. rewrite Hb. cbn [mbind option_bind].
  destruct (held_range _ _ _ h Hi) as [Ho _]; [by left|]. pose proof (pi_log _ _ _ Hi).
  rewrite entries_pow, Z.log2_pow2, bytes_pow by lia.
  destruct (buddy_takes _ _ _ _ _ Hi Hb) as (buddy & -> & H'). cbn [mbind option_bind].
  eexists. split; [done|]. split; [by eapply set_buddy_same|]. apply H'.
  - pose proof (bm_used _ _ _ _ _ (pi_buddy _ _ _ Hi _ _ Hb)) as Hu. rewrite of_buddy_same, mem_size_cons in Hu.
    pose proof (used_bound _ _ _ (hot_buddy h) Hi) as Hub. rewrite of_buddy_same, mem_size_cons in Hub.
    pose proof (mem_size_nonneg (icm_type p) (of_buddy (hot_buddy h) L)). pose proof (bytes_range (icm_type p) (hot_size h) ltac:(lia)).
    pose proof (esz_pos (icm_type p)). rewrite wrap_small by (unfold fits; lia). lia.
  - intros j Hj. by rewrite (of_buddy_other (hot_buddy h) h).
Qed.

Lemma clear_all_ok hot : forall p L,
  pool_inv p (hot ++ L) (hot ++ L) ->
  exists p', clear_all p hot = Some p' /\ same_list p p' /\ pool_inv p' L L.
Proof.
  induction hot as [|h hot IH]; intros p L Hi; cbn [clear_all].
  - exists p. split; [done|]. split; [|done]. do 4 (split; [done|]). done.
  - destruct (clear_hot_ok p (hot ++ L) h Hi) as (p1 & -> & Hs1 & Hi1). cbn [mbind option_bind].
    destruct (IH p1 L Hi1) as (p2 & -> & Hs2 & Hi2). exists p2. split; [done|]. split; [by etrans|done].
Qed.

Definition hot (p : icm_pool) : list hot_chunk := take (Z.to_nat p.(hot_chunks_num)) p.(hot_chunks_arr).

Lemma with_hot_inv p L U arr n size : pool_inv p L U -> pool_inv (with_hot p arr n size) L U.
Proof. by intros []. Qed.

Lemma clear_hot_chunks_ok p L :
  pool_inv p (hot p ++ L) (hot p ++ L) -> 0 <= p.(hot_chunks_num) <= Z.of_nat (length p.(hot_chunks_arr)) ->
  exists p', dr_icm_pool_clear_hot_chunks_arr p = Some (with_hot p' p.(hot_chunks_arr) 0 0) /\
    same_list p p' /\ pool_inv p' L L.
Proof.
  intros Hi Hn. unfold dr_icm_pool_clear_hot_chunks_arr, hot_entries. rewrite decide_True by done. cbn [mbind option_bind].
  destruct (clear_all_ok (hot p) p L Hi) as (p' & E & Hs & Hi'). fold (hot p). rewrite E. cbn [mbind option_bind].
  exists p'. split; [|done]. destruct Hs as [Hr _]. unfold pool_rest in Hr. by replace (hot_chunks_arr p') with (hot_chunks_arr p) by congruence.
Qed.

Lemma filter_ne_length i (l : list Z) : NoDup l -> i ∈ l -> S (length (filter (fun j => j <> i) l)) = length l.
Proof.
  intros Hnd Hin. assert (E : l ≡ₚ i :: filter (fun j => j <> i) l); [|by rewrite E at 2].
  apply list.NoDup_Permutation; [done| |].
  - apply list.NoDup_cons. split; [rewrite list_elem_of_filter; naive_solver|by apply list.NoDup_filter].
  - intros j. rewrite elem_of_cons, list_elem_of_filter. destruct (decide (j = i)) as [->|]; naive_solver.
Qed.

Lemma buddy_destroy_ok p L i :
  pool_inv p L L -> of_buddy i L = [] -> is_Some (p.(buddies) !! i) ->
  exists p', dr_icm_buddy_destroy p i = Some p' /\ pool_rest p' = pool_rest p /\ pool_inv p' L L /\
    p'.(buddies) = delete i p.(buddies).
Proof.
  intros Hi HL [b Hb]. unfold dr_icm_buddy_destroy. rewrite Hb. cbn [mbind option_bind]. eexists. split; [done|].
  split; [done|]. split; [|done]. pose proof Hi as [? Hnd Hl Hx Hc HndL Hh Hbud]. split; cbn; [done| | | | |done| |].
  - by apply list.NoDup_filter.
  - intros j. rewrite list_elem_of_filter, Hl, lookup_delete_is_Some. naive_solver.
  - intros j [_ Hj]%lookup_delete_is_Some. by apply Hx.
  - rewrite Hc. pose proof (filter_ne_length i (buddy_mem_list p) Hnd ltac:(rewrite Hl; by eexists)) as Hlen.
    rewrite <- Hlen. unfold wrap. rewrite Zminus_mod_idemp_l. f_equal. lia.
  - intros h Hin. destruct (Hh h Hin). split; [|done]. apply lookup_delete_is_Some. split; [|done]. intros E.
    assert (Hx' : h ∈ of_buddy i L) by (apply elem_of_of_buddy; auto). rewrite HL in Hx'. by apply elem_of_nil in Hx'.
  - intros j bj [_ Hj]%lookup_delete_Some. by apply Hbud.
Qed.

(** A buddy without memory in use has no chunks. *)
Lemma unused_empty p L i b :
  pool_inv p L L -> p.(buddies) !! i = Some b -> b.(used_memory) = 0 -> of_buddy i L = [].
Proof.
  intros Hi Hb Hu. rewrite (bm_used _ _ _ _ _ (pi_buddy _ _ _ Hi _ _ Hb)) in Hu. apply mem_size_zero in Hu; [done|].
  apply list.Forall_forall. intros h [_ Hin]%elem_of_of_buddy. destruct (held_range _ _ _ h Hi Hin). lia.
Qed.

Lemma destroy_unused_ok ids : forall p L,
  pool_inv p L L -> NoDup ids -> (forall i, i ∈ ids -> is_Some (p.(buddies) !! i)) ->
  exists p', destroy_unused p ids = Some p' /\ pool_rest p' = pool_rest p /\ pool_inv p' L L.
Proof.
  induction ids as [|i ids IH]; intros p L Hi Hnd Hids; cbn [destroy_unused]; [by exists p|].
  apply list.NoDup_cons in Hnd as [Hni Hnd]. destruct (Hids i) as [b Hb]; [by left|]. rewrite Hb. cbn [mbind option_bind].
  destruct (negb (c_true (used_memory b)) && bool_decide (icm_type p = DR_ICM_TYPE_STE)) eqn:Et.
  - apply andb_true_iff in Et as [Et _]. apply negb_true_iff, c_true_false in Et.
    destruct (buddy_destroy_ok p L i Hi) as (p1 & -> & Er & Hi1 & Eb); [by eapply unused_empty|by eexists|]. cbn [mbind option_bind].
    destruct (IH p1 L Hi1 Hnd) as (p2 & -> & Er2 & Hi2).
    + intros j Hj. rewrite Eb. apply lookup_delete_is_Some. split; [congruence|]. apply Hids. by right.
    + exists p2. split; [done|]. split; [congruence|done].
  - cbn [mbind option_bind]. apply IH; [done|done|]. intros j Hj. apply Hids. by right.
Qed.

(** ** Runs of a pool *)

(** The memory of the chunks that are in use or hot. *)
Definition held (p : icm_pool) (live : list icm_chunk) : list hot_chunk := hot p ++ (hot_of <$> live).

Record pool_ok (t : mlx5dr_icm_type) (n : Z) (p : icm_pool) (live : list icm_chunk) : Prop := {
  po_inv : pool_inv p (held p live) (held p live);
  po_type : p.(icm_type) = t;
  po_log : p.(max_log_chunk_sz) = n;
  po_len : Z.of_nat (length p.(hot_chunks_arr)) = num_of_chunks t n;
  po_th : p.(th) = max_hot_size t n;
  po_num : 0 <= p.(hot_chunks_num);
  po_size : p.(hot_memory_size) = mem_size t (hot p);
  po_few : p.(hot_chunks_num) * esz t <= p.(hot_memory_size) <= p.(th);
  po_cache : Forall (cache_ok t) live
}.

Lemma pool_ok_room t n p live : pool_ok t n p live -> p.(hot_chunks_num) < Z.of_nat (length p.(hot_chunks_arr)) <= 2 ^ 31.
Proof.
  intros [Hi Ht Hn Hlen Hth Hnum _ Hfew _]. rewrite Hlen. pose proof (pi_log _ _ _ Hi). rewrite Hn in *.
  apply num_of_chunks_room; [done|done|]. rewrite <- Hth. lia.
Qed.

Lemma create_pool_ok t n p : 0 <= n <= 20 -> mlx5dr_icm_pool_create t n true true = Some p -> pool_ok t n p [].
Proof.
  intros Hn [= <-]. pose proof (max_hot_size_range t n Hn). split; cbn; try done; [|rewrite length_replicate|lia].
  - split; cbn; [done|constructor| |by intros i [x Hx]|done|constructor|by intros h Hh%elem_of_nil|done].
    intros i. rewrite elem_of_nil. split; [done|by intros [x Hx]].
  - pose proof (num_of_chunks_room t n 0 Hn). lia.
Qed.

Lemma pool_ok_rest t n p p' live :
  pool_ok t n p live -> pool_rest p' = pool_rest p -> forall live', pool_inv p' (held p live') (held p live') ->
  Forall (cache_ok t) live' -> pool_ok t n p' live'.
Proof.
  intros [Hi Ht Hn Hlen Hth Hnum Hsz Hfew Hc] E live' Hi' Hc'. unfold pool_rest in E.
  assert (Eh : hot p' = hot p) by (unfold hot; congruence).
  split; [unfold held in *; by rewrite Eh|..|done]; rewrite ?Eh; congruence.
Qed.

Lemma alloc_pool_ok t n p live size a chunk_alloc :
  pool_ok t n p live -> 0 <= size ->
  exists p' r, mlx5dr_icm_alloc_chunk p size a chunk_alloc = Some (p', r) /\
    match r with
    | Some c => c.(chunk_size) = size /\ pool_ok t n p' (c :: live)
    | None => pool_ok t n p' live
    end.
Proof.
  intros Hp Hs. destruct (alloc_chunk_ok p _ size a chunk_alloc (po_inv _ _ _ _ Hp) Hs) as (p' & r & E & Er & Hr).
  exists p', r. split; [done|]. destruct r as [c|].
  - destruct Hr as (Hn & Hcs & Hc & Hi). split; [done|]. apply (pool_ok_rest t n p p' live); [done|done| |].
    + eapply pool_inv_perm; [..|exact Hi]; unfold held; cbn; by rewrite Permutation_middle.
    + constructor; [by rewrite <- (po_type _ _ _ _ Hp)|apply Hp].
  - by apply (pool_ok_rest t n p p' live); [..|apply Hp].
Qed.

Lemma sync_ok p L :
  pool_inv p (hot p ++ L) (hot p ++ L) -> 0 <= p.(hot_chunks_num) <= Z.of_nat (length p.(hot_chunks_arr)) ->
  exists p', dr_icm_pool_sync_all_buddy_pools p 0 = Some (p', 0) /\
    pool_rest p' = pool_rest (with_hot p p.(hot_chunks_arr) 0 0) /\ pool_inv p' L L.
Proof.
  intros Hi Hn. unfold dr_icm_pool_sync_all_buddy_pools. cbn [c_true negb Z.eqb].
  destruct (clear_hot_chunks_ok p L Hi Hn) as (p1 & -> & Hs & Hi1). cbn [mbind option_bind].
  set (q := with_hot p1 (hot_chunks_arr p) 0 0). assert (Hq : pool_inv q L L) by by apply with_hot_inv.
  destruct (destroy_unused_ok (buddy_mem_list q) q L Hq) as (p2 & -> & Er & Hi2);
    [apply Hq|intros i; apply (pi_list _ _ _ Hq)|]. cbn [mbind option_bind].
  exists p2. split; [done|]. split; [|done]. rewrite Er. destruct Hs as [Hs _]. unfold pool_rest in *. cbn. congruence.
Qed.

Lemma take_insert_snoc {A} (l : list A) (k : nat) x : (k < length l)%nat -> take (S k) (<[k := x]> l) = take k l ++ [x].
Proof.
  intros Hk. rewrite (take_S_r _ _ x) by by apply list_lookup_insert_eq. by rewrite take_insert_ge by lia.
Qed.

Lemma free_pool_ok t n p l1 c l2 :
  pool_ok t n p (l1 ++ c :: l2) ->
  exists p', mlx5dr_icm_free_chunk p c 0 = Some p' /\ pool_ok t n p' (l1 ++ l2).
Proof.
  intros Hp. pose proof (pool_ok_room _ _ _ _ Hp) as Hroom. pose proof Hp as [Hi Ht Hn Hlen Hth Hnum Hsz Hfew Hc].
  assert (Hin : hot_of c ∈ held p (l1 ++ c :: l2)).
  { apply list.elem_of_app. right. apply list_elem_of_fmap. exists c. split; [done|]. apply list.elem_of_app. right. by left. }
  destruct (held_range _ _ _ _ Hi Hin) as [Ho _]. cbn in Ho. pose proof (pi_log _ _ _ Hi) as Hlog.
  pose proof (bytes_range t (chunk_size c) ltac:(lia)) as Hb. pose proof (esz_pos t). pose proof (max_hot_size_range t n ltac:(lia)).
  unfold mlx5dr_icm_free_chunk. fold (hot_of c).
  assert (Ehs : u64 (hot_memory_size p + mlx5dr_icm_pool_get_chunk_byte_size p c) = hot_memory_size p + bytes t (chunk_size c)).
  { unfold mlx5dr_icm_pool_get_chunk_byte_size. rewrite bytes_pow, Ht by lia. rewrite (wrap_small 32) by (unfold fits; lia).
    apply wrap_small. unfold fits. nia. }
  rewrite Ehs. unfold arr_set at 1. destruct (decide (0 <= hot_chunks_num p < Z.of_nat (length (hot_chunks_arr p)))) as [_|]; [|lia].
  cbn [mbind option_bind]. rewrite (wrap_small 32) by (unfold fits; lia). set (arr := <[_ := hot_of c]> (hot_chunks_arr p)).
  set (q := with_hot p arr (hot_chunks_num p + 1) (hot_memory_size p + bytes t (chunk_size c))).
  assert (Hla : length arr = length (hot_chunks_arr p)) by apply length_insert.
  assert (Ehot : hot q = hot p ++ [hot_of c]).
  { unfold hot. cbn. replace (Z.to_nat (hot_chunks_num p + 1)) with (S (Z.to_nat (hot_chunks_num p))) by lia.
    apply take_insert_snoc. lia. }
  assert (Hperm : hot q ++ (hot_of <$> l1 ++ l2) ≡ₚ held p (l1 ++ c :: l2)).
  { unfold held. rewrite Ehot, !fmap_app, fmap_cons, <- (assoc_L (++)). cbn. by rewrite Permutation_middle. }
  assert (Hiq : pool_inv q (hot q ++ (hot_of <$> l1 ++ l2)) (hot q ++ (hot_of <$> l1 ++ l2)))
    by (apply (pool_inv_perm q (held p (l1 ++ c :: l2)) _ (held p (l1 ++ c :: l2)) _); [by symmetry|by symmetry|by apply with_hot_inv]).
  assert (Hc' : Forall (cache_ok t) (l1 ++ l2)) by (apply list.Forall_app in Hc as [? Hc2]; inversion Hc2; by apply list.Forall_app).
  assert (Hsum : mem_size t (hot q) = hot_memory_size p + bytes t (chunk_size c)).
  { rewrite Ehot, (mem_size_perm _ _ (hot_of c :: hot p)) by (by rewrite Permutation_app_comm). rewrite mem_size_cons, <- Hsz. cbn. lia. }
  destruct (dr_icm_pool_is_sync_required q) eqn:Esync.
  - destruct (sync_ok q _ Hiq) as (p' & -> & Er & Hi'); [cbn; lia|]. cbn [mbind option_bind].
    exists p'. split; [done|]. unfold pool_rest in Er. cbn in Er. injection Er as E1 E2 E3 E4 E5 E6.
    assert (Eh : hot p' = []) by (unfold hot; by rewrite E4).
    split; [unfold held; by rewrite Eh|congruence|congruence|rewrite E3; lia|congruence|lia|by rewrite E5, Eh|lia|done].
  - exists q. split; [done|]. unfold dr_icm_pool_is_sync_required in Esync. apply Z.ltb_ge in Esync. cbn in Esync.
    split; [done|done|done|cbn; lia|done|cbn; lia|by rewrite Hsum|cbn; nia|done].
Qed.



(** What a driver does with a pool: it creates it, allocates chunks, whatever
    the allocations answer, and frees chunks it has; every synchronisation of
    the hardware succeeds. *)
Inductive reach (t : mlx5dr_icm_type) (n : Z) : icm_pool -> list icm_chunk -> Prop :=
  | reach_create p : mlx5dr_icm_pool_create t n true true = Some p -> reach t n p []
  | reach_alloc p live size a chunk_alloc p' r :
      reach t n p live -> 0 <= size -> mlx5dr_icm_alloc_chunk p size a chunk_alloc = Some (p', r) ->
      reach t n p' (match r with Some c => c :: live | None => live end)
  | reach_free p l1 c l2 p' :
      reach t n p (l1 ++ c :: l2) -> mlx5dr_icm_free_chunk p c 0 = Some p' -> reach t n p' (l1 ++ l2).

Lemma reach_ok t n p live : 0 <= n <= 20 -> reach t n p live -> pool_ok t n p live.
Proof.
  intros Hn. induction 1 as [p E|p live size a ca p' r _ IH Hs E|p l1 c l2 p' _ IH E].
  - by apply create_pool_ok.
  - destruct (alloc_pool_ok t n p live size a ca IH Hs) as (p1 & r1 & E1 & Hr). rewrite E in E1. injection E1 as <- <-.
    destruct r; [apply Hr|done].
  - destruct (free_pool_ok t n p l1 c l2 IH) as (p1 & E1 & Hp). rewrite E in E1. by injection E1 as <-.
Qed.

(** The memory of a chunk, within that of its buddy. *)
Definition chunk_start (p : icm_pool) (h : hot_chunk) : Z :=
  mlx5dr_icm_pool_get_chunk_mr_addr p (mk_chunk h.(hot_buddy) h.(hot_seg) h.(hot_size) None).
Definition chunk_end (p : icm_pool) (h : hot_chunk) : Z :=
  chunk_start p h + mlx5dr_icm_pool_get_chunk_byte_size p (mk_chunk h.(hot_buddy) h.(hot_seg) h.(hot_size) None).

Lemma chunk_start_eq p L U h : pool_inv p L U -> h ∈ L ->
  chunk_start p h = esz p.(icm_type) * h.(hot_seg) /\
  chunk_end p h = esz p.(icm_type) * (h.(hot_seg) + 2 ^ h.(hot_size)).
Proof.
  intros Hi Hin. destruct (seg_range _ _ _ _ Hi Hin) as [Hs Hb]. destruct (held_range _ _ _ _ Hi Hin) as [Ho _].
  pose proof (pi_log _ _ _ Hi). pose proof (esz_pos (icm_type p)). pose proof (Z.pow_pos_nonneg 2 (hot_size h)).
  pose proof (bytes_range (icm_type p) (hot_size h) ltac:(lia)).
  unfold chunk_end, chunk_start, mlx5dr_icm_pool_get_chunk_mr_addr, mlx5dr_icm_pool_get_chunk_byte_size.
  cbn [chunk_seg chunk_size]. rewrite bytes_pow by lia. rewrite !wrap_small by (unfold fits; nia). unfold bytes. lia.
Qed.





(** C29: the array of hot chunks never overflows. In every state a pool can reach,
    as long as synchronisations succeed, the memory that waits for one is within
    the threshold, it is exactly that of the chunks in the array, and the array
    has room for another. *)
Theorem icm_hot_bounds (t : mlx5dr_icm_type) (n : Z) (p : icm_pool) (live : list icm_chunk) :
  0 <= n <= 20 -> reach t n p live ->
  0 <= p.(hot_chunks_num) < Z.of_nat (length p.(hot_chunks_arr)) /\
  p.(hot_memory_size) <= p.(th) /\
  p.(hot_memory_size) = foldr Z.add 0 ((fun h => chunk_end p h - chunk_start p h) <$> hot p).
Proof.
  intros Hn Hr. pose proof (reach_ok t n p live Hn Hr) as Hp. pose proof (pool_ok_room _ _ _ _ Hp).
  pose proof (po_num _ _ _ _ Hp). pose proof (po_few _ _ _ _ Hp). split; [lia|]. split; [lia|].
  rewrite (po_size _ _ _ _ Hp). unfold mem_size. f_equal. apply list_fmap_ext. intros i h Eh.
  assert (Hin : h ∈ held p live) by (apply list.elem_of_app; left; by apply list_elem_of_lookup_2 in Eh).
  destruct (chunk_start_eq _ _ _ _ (po_inv _ _ _ _ Hp) Hin) as [-> ->]. rewrite (po_type _ _ _ _ Hp). unfold bytes. lia.
Qed.

(** ** A pool of four STEs *)

Definition ans (addr : Z) : answers := mk_answers true (Some addr) 0 true true (fun _ => true) true.

(** Allocations of a size each, then frees of the chunks in order of allocation, each
    with the answer of the device. *)
Fixpoint alloc_each (p : icm_pool) (sizes : list Z) : option (icm_pool * list icm_chunk) :=
  match sizes with
  | [] => Some (p, [])
  | s :: sizes =>
      '(p, c) ← mlx5dr_icm_alloc_chunk p s (ans 4096) true;
      c ← c;
      '(p, l) ← alloc_each p sizes;
      Some (p, c :: l)
  end.

Fixpoint free_each (p : icm_pool) (l : list (icm_chunk * Z)) : option icm_pool :=
  match l with
  | [] => Some p
  | (c, err) :: l => p ← mlx5dr_icm_free_chunk p c err; free_each p l
  end.

Definition small_pool : icm_pool :=
  Eval vm_compute in
  match mlx5dr_icm_pool_create DR_ICM_TYPE_STE 2 true true with Some p => p | None => mk_pool DR_ICM_TYPE_STE 0 [] ∅ 0 [] 0 0 0 0 end.

(** A synchronisation that fails leaves the array of hot chunks to overflow.
    In a pool of four STEs two chunks may wait for a synchronisation; when the
    device refuses the synchronisation the second one is due for, nothing is
    cleared, and the third free writes outside the array, whatever the device
    answers then. *)
Theorem icm_sync_failure_overruns :
  mlx5dr_icm_pool_create DR_ICM_TYPE_STE 2 true true = Some small_pool /\
  exists p c1 c2 c3 q,
    alloc_each small_pool [0; 0; 0] = Some (p, [c1; c2; c3]) /\
    free_each p [(c1, 0); (c2, - EINVAL)] = Some q /\
    q.(hot_chunks_num) = Z.of_nat (length q.(hot_chunks_arr)) /\
    (forall err, mlx5dr_icm_free_chunk q c3 err = None) /\
    (exists q', free_each p [(c1, 0); (c2, 0); (c3, 0)] = Some q' /\ q'.(hot_chunks_num) = 1).
Proof.
  split; [done|]. eexists _, _, _, _, _. split; [by vm_compute|]. split; [by vm_compute|]. split; [by vm_compute|].
  split; [by intros; vm_compute|]. eexists. by split; vm_compute.
Qed.

(** A pool with a chunk in use and a hot one. *)
Definition used_pool : icm_pool * list icm_chunk :=
  Eval vm_compute in
  match '(p, l) ← alloc_each small_pool [0; 1];
        match l with c :: l => p ← mlx5dr_icm_free_chunk p c 0; Some (p, l) | [] => None end with
  | Some r => r
  | None => (small_pool, [])
  end.

Lemma used_pool_reach : reach DR_ICM_TYPE_STE 2 used_pool.1 used_pool.2.
Proof.
  pose proof (reach_create DR_ICM_TYPE_STE 2 small_pool eq_refl) as H.
  eapply (reach_alloc _ _ _ _ 0 (ans 4096) true) in H; [|done|by vm_compute].
  eapply (reach_alloc _ _ _ _ 1 (ans 4096) true) in H; [|done|by vm_compute].
  eapply (reach_free _ _ _ [_] (mk_chunk 0 0 0 (Some 0)) []) in H; [exact H|by vm_compute].
Qed.


Theorem icm_hot_bounds_witness :
  let p := used_pool.1 in
  p.(hot_chunks_num) = 1 /\
  0 <= p.(hot_chunks_num) < Z.of_nat (length p.(hot_chunks_arr)) /\
  p.(hot_memory_size) <= p.(th) /\
  p.(hot_memory_size) = foldr Z.add 0 ((fun h => chunk_end p h - chunk_start p h) <$> hot p).
Proof.
  split; [reflexivity|]. apply (icm_hot_bounds DR_ICM_TYPE_STE 2 used_pool.1 used_pool.2); [lia|apply used_pool_reach].
Defined.
