(* ===== verification/UmemBlocks.v ===== *)
(** Memory regions as the device sees them: the best page size of a pinned
    region and its division into blocks (drivers/infiniband/core/umem.c, the
    block iterator of verbs.c, include/rdma/ib_umem.h).

    A scatterlist is a list of DMA address and length pairs; reaching past its
    end is the null pointer of [sg_next]. *)

From S2P Require Import Prelude.
#[local] Open Scope Z_scope.

(** ** The code *)

(** The DMA side of a [struct scatterlist] entry. *)
Record sg_entry := mk_sg { sg_dma_address : Z; sg_dma_len : Z }.

(** [struct ib_umem]; [odp_shift] is the page shift of an on-demand region. *)
Record ib_umem := mk_umem {
  um_length : Z; um_address : Z; um_iova : Z; odp_shift : option Z; um_sgl : list sg_entry
}.

(** [GENMASK(h, l)] on 64 bits. *)
Definition GENMASK (h l : Z) : Z := Z.ones (h + 1) - Z.ones l.

Definition bits_per (n : Z) : Z := if n <? 2 then 1 else Z.log2 n + 1.

Fixpoint pos_ctz (p : positive) : Z := match p with xO p => 1 + pos_ctz p | _ => 0 end.
Definition count_trailing_zeros (n : Z) : Z := match n with Zpos p => pos_ctz p | _ => 0 end.

Definition rounddown_pow_of_two (n : Z) : Z := 2 ^ Z.log2 n.

(** [ALIGN] and [ALIGN_DOWN] on an [unsigned long], to a power of two. *)
Definition ALIGN_DOWN (x a : Z) : Z := Z.land x (u64 (- a)).
Definition ALIGN (x a : Z) : Z := Z.land (u64 (x + a - 1)) (u64 (- a)).

Section page.
Variable PAGE_SHIFT : Z.
Definition PAGE_SIZE : Z := Z.shiftl 1 PAGE_SHIFT.

(** [umem->address & ~PAGE_MASK] *)
Definition ib_umem_offset (umem : ib_umem) : Z := Z.land umem.(um_address) (PAGE_SIZE - 1).

Definition ib_umem_num_dma_blocks (umem : ib_umem) (pgsz : Z) : Z :=
  u64 (ALIGN (u64 (umem.(um_iova) + umem.(um_length))) pgsz - ALIGN_DOWN umem.(um_iova) pgsz) / pgsz.

(** The walk over the scatterlist that gathers the bits in which device and
    virtual addresses differ, and the bits at which entries meet. *)
Fixpoint pgsz_mask (sgs : list sg_entry) (pgoff va mask : Z) : Z :=
  match sgs with
  | [] => mask
  | sg :: rest =>
      let mask := Z.lor mask (Z.lxor (u64 (sg.(sg_dma_address) + pgoff)) va) in
      let va := u64 (va + u64 (sg.(sg_dma_len) - pgoff)) in
      let mask := match rest with [] => mask | _ => Z.lor mask va end in
      pgsz_mask rest 0 va mask
  end.

(** The page size, and the region with its [iova] set. *)
Definition ib_umem_find_best_pgsz (umem : ib_umem) (pgsz_bitmap virt : Z) : ib_umem * Z :=
  let umem := mk_umem umem.(um_length) umem.(um_address) virt umem.(odp_shift) umem.(um_sgl) in
  match umem.(odp_shift) with
  | Some page_shift =>
      let page_size := u32 (Z.shiftl 1 page_shift) in
      (umem, if c_true (Z.land pgsz_bitmap page_size) then page_size else 0)
  | None =>
      let mask := Z.land pgsz_bitmap (GENMASK 63 (bits_per (Z.lxor (u64 (umem.(um_length) - 1 + virt)) virt))) in
      let pgoff := ib_umem_offset umem in
      let mask := pgsz_mask umem.(um_sgl) pgoff virt mask in
      let pgsz_bitmap := if c_true mask then Z.land pgsz_bitmap (GENMASK (count_trailing_zeros mask) 0) else pgsz_bitmap in
      (umem, if c_true pgsz_bitmap then rounddown_pow_of_two pgsz_bitmap else 0)
  end.

(** ** The block iterator *)

(** [struct ib_block_iter]. [it_sg] is what is left of the scatterlist. *)
Record ib_block_iter := mk_iter {
  it_sg : list sg_entry; it_dma_addr : Z; it_numblocks : Z; it_nents : Z; it_advance : Z; it_pg_bit : Z
}.

Definition __rdma_block_iter_start (sglist : list sg_entry) (nents pgsz : Z) : ib_block_iter :=
  mk_iter sglist 0 0 nents 0 (Z.log2 pgsz).

(** The answer, and the iterator. [__sg_advance] and the two locals are
    [unsigned int]. *)
Definition __rdma_block_iter_next (b : ib_block_iter) : bool * ib_block_iter :=
  match b.(it_sg) with
  | [] => (false, b)
  | sg :: rest =>
      if negb (c_true b.(it_nents)) then (false, b) else
      let dma_addr := u64 (sg.(sg_dma_address) + b.(it_advance)) in
      let block_offset := u32 (Z.land dma_addr (Z.shiftl 1 b.(it_pg_bit) - 1)) in
      let sg_delta := u32 (Z.shiftl 1 b.(it_pg_bit) - block_offset) in
      if sg_delta <? u32 (sg.(sg_dma_len) - b.(it_advance))
      then (true, mk_iter (sg :: rest) dma_addr b.(it_numblocks) b.(it_nents) (u32 (b.(it_advance) + sg_delta)) b.(it_pg_bit))
      else (true, mk_iter rest dma_addr b.(it_numblocks) (u32 (b.(it_nents) - 1)) 0 b.(it_pg_bit))
  end.

Definition rdma_block_iter_dma_address (b : ib_block_iter) : Z :=
  Z.land b.(it_dma_addr) (u64 (- Z.shiftl 1 b.(it_pg_bit))).

Definition __rdma_umem_block_iter_start (umem : ib_umem) (pgsz : Z) : ib_block_iter :=
  let b := __rdma_block_iter_start umem.(um_sgl) (Z.of_nat (length umem.(um_sgl))) pgsz in
  mk_iter b.(it_sg) b.(it_dma_addr) (ib_umem_num_dma_blocks umem pgsz) b.(it_nents)
    (u32 (Z.land (ib_umem_offset umem) (u64 (- pgsz)))) b.(it_pg_bit).

Definition __rdma_umem_block_iter_next (b : ib_block_iter) : bool * ib_block_iter :=
  let '(more, b) := __rdma_block_iter_next b in
  if more then
    (c_true b.(it_numblocks),
     mk_iter b.(it_sg) b.(it_dma_addr) (u64 (b.(it_numblocks) - 1)) b.(it_nents) b.(it_advance) b.(it_pg_bit))
  else (false, b).

(** [rdma_umem_for_each_dma_block]: the addresses of the blocks in order;
    [None] if the fuel does not suffice. *)
Fixpoint dma_blocks (fuel : nat) (b : ib_block_iter) : option (list Z) :=
  match fuel with
  | O => None
  | S fuel =>
      let '(more, b) := __rdma_umem_block_iter_next b in
      if more then l ← dma_blocks fuel b; Some (rdma_block_iter_dma_address b :: l) else Some []
  end.

Definition umem_dma_blocks (umem : ib_umem) (pgsz : Z) : option (list Z) :=
  dma_blocks (S (Z.to_nat (ib_umem_num_dma_blocks umem pgsz))) (__rdma_umem_block_iter_start umem pgsz).

(** ** What the region is *)

(** The DMA address of byte [j], counted from [pgoff] into the first entry. *)
Fixpoint dma_at (sgs : list sg_entry) (pgoff j : Z) : Z :=
  match sgs with
  | [] => 0
  | sg :: rest =>
      if j <? sg.(sg_dma_len) - pgoff then sg.(sg_dma_address) + pgoff + j
      else dma_at rest 0 (j - (sg.(sg_dma_len) - pgoff))
  end.

Fixpoint sg_total (sgs : list sg_entry) : Z :=
  match sgs with [] => 0 | sg :: rest => sg.(sg_dma_len) + sg_total rest end.

Definition sg_ok (sg : sg_entry) : Prop :=
  0 < sg.(sg_dma_len) < 2 ^ 32 /\ 0 <= sg.(sg_dma_address) /\ sg.(sg_dma_address) + sg.(sg_dma_len) <= 2 ^ 64.

(** A region as [ib_umem_get] leaves it: page-aligned start, entries that cover it. *)
Record umem_ok (umem : ib_umem) (virt : Z) : Prop := {
  uo_sgs : Forall sg_ok umem.(um_sgl);
  uo_first : exists sg rest, umem.(um_sgl) = sg :: rest /\ sg.(sg_dma_address) mod 2 ^ PAGE_SHIFT = 0 /\
    ib_umem_offset umem < sg.(sg_dma_len);
  uo_length : 0 < um_length umem <= sg_total umem.(um_sgl) - ib_umem_offset umem;
  uo_virt : 0 <= virt;
  uo_top : virt + sg_total umem.(um_sgl) <= 2 ^ 63;
  uo_pinned : umem.(odp_shift) = None
}.
End page.

(** ** Bits *)

(** The low [k] bits are zero. *)
Definition low0 (k a : Z) : Prop := forall i, 0 <= i < k -> Z.testbit a i = false.

Lemma low0_mod k a : 0 <= k -> low0 k a <-> a mod 2 ^ k = 0.
Proof.
  intros Hk. split.
  - intros H. apply Z.bits_inj'. intros i Hi. rewrite Z.bits_0. destruct (decide (i < k)).
    + rewrite Z.mod_pow2_bits_low by lia. by apply H.
    + apply Z.mod_pow2_bits_high. lia.
  - intros H i Hi. rewrite <- (Z.mod_pow2_bits_low a k i) by lia. rewrite H. apply Z.bits_0.
Qed.

Lemma low0_lor k a b : low0 k (Z.lor a b) <-> low0 k a /\ low0 k b.
Proof.
  unfold low0. split.
  - intros H. split; intros i Hi; specialize (H i Hi); rewrite Z.lor_spec in H; by apply orb_false_iff in H as [? ?].
  - intros [Ha Hb] i Hi. by rewrite Z.lor_spec, Ha, Hb.
Qed.

Lemma low0_lxor k a b : 0 <= k -> low0 k (Z.lxor a b) <-> a mod 2 ^ k = b mod 2 ^ k.
Proof.
  intros Hk. split.
  - intros H. apply Z.bits_inj'. intros i Hi. destruct (decide (i < k)).
    + rewrite !Z.mod_pow2_bits_low by lia. specialize (H i ltac:(lia)). rewrite Z.lxor_spec in H. by apply xorb_eq.
    + by rewrite !Z.mod_pow2_bits_high by lia.
  - intros H i Hi. rewrite Z.lxor_spec, <- (Z.mod_pow2_bits_low a k i), H, (Z.mod_pow2_bits_low b k i) by lia.
    apply xorb_nilpotent.
Qed.

Lemma ctz_spec n : 0 < n ->
  0 <= count_trailing_zeros n /\ low0 (count_trailing_zeros n) n /\ Z.testbit n (count_trailing_zeros n) = true.
Proof.
  destruct n as [|p|p]; [lia| |lia]. intros _. cbn [count_trailing_zeros]. induction p as [p IH|p IH|]; cbn [pos_ctz].
  - split; [done|]. split; [intros i Hi; lia|done].
  - destruct IH as (H0 & Hl & Ht). split; [lia|]. rewrite (Pos2Z.inj_xO p).
    replace (1 + pos_ctz p) with (Z.succ (pos_ctz p)) by lia. rewrite Z.double_bits_succ. split; [|done].
    intros i Hi. destruct (decide (i = 0)) as [->|]; [apply Z.testbit_even_0|].
    replace i with (Z.succ (i - 1)) by lia. rewrite Z.double_bits_succ. apply Hl. lia.
  - split; [done|]. split; [intros i Hi; lia|done].
Qed.

Lemma genmask_bit h l i : 0 <= l -> -1 <= h -> 0 <= i -> l <= h + 1 ->
  Z.testbit (GENMASK h l) i = (l <=? i) && (i <=? h).
Proof.
  intros Hl Hh Hi Hlh. unfold GENMASK.
  replace (Z.ones (h + 1) - Z.ones l) with (Z.ldiff (Z.ones (h + 1)) (Z.ones l)).
  - rewrite Z.ldiff_spec, !ones_testbit by lia.
    destruct (Z.leb_spec 0 i), (Z.ltb_spec i (h + 1)), (Z.ltb_spec i l), (Z.leb_spec l i), (Z.leb_spec i h); cbn; lia || done.
  - symmetry. apply Z.sub_nocarry_ldiff. apply Z.bits_inj'. intros j Hj. rewrite Z.ldiff_spec, !ones_testbit, Z.bits_0 by lia.
    destruct (Z.leb_spec 0 j), (Z.ltb_spec j (h + 1)), (Z.ltb_spec j l); cbn; lia || done.
Qed.

Lemma land_align x k : 0 <= x < 2 ^ 64 -> 0 <= k < 64 -> Z.land x (u64 (- 2 ^ k)) = 2 ^ k * (x / 2 ^ k).
Proof.
  intros Hx Hk. assert (P : 1 <= 2 ^ k < 2 ^ 64).
  { pose proof (Z.pow_pos_nonneg 2 k). pose proof (Z.pow_lt_mono_r 2 k 64). lia. }
  assert (E : u64 (- 2 ^ k) = GENMASK 63 k).
  { unfold GENMASK, wrap. rewrite !Z.ones_equiv. symmetry. apply (Z.mod_unique _ _ (-1)); [left|]; change (63 + 1) with 64; lia. }
  rewrite E, Z.mul_comm, <- Z.shiftl_mul_pow2, <- Z.shiftr_div_pow2 by lia. apply Z.bits_inj'. intros i Hi.
  rewrite Z.land_spec, genmask_bit by lia. destruct (Z.leb_spec k i); cbn [andb].
  - rewrite Z.shiftl_spec, Z.shiftr_spec by lia. replace (i - k + k) with i by lia.
    destruct (Z.leb_spec i 63); [by rewrite andb_true_r|]. rewrite andb_false_r. symmetry.
    rewrite <- (Z.mod_small x (2 ^ 64)) by lia. apply Z.mod_pow2_bits_high. lia.
  - by rewrite andb_false_r, Z.shiftl_spec_low by lia.
Qed.

Lemma align_down_eq x k : 0 <= x < 2 ^ 64 -> 0 <= k < 64 -> ALIGN_DOWN x (2 ^ k) = 2 ^ k * (x / 2 ^ k).
Proof. apply land_align. Qed.

Lemma align_eq x k : 0 <= x <= 2 ^ 63 -> 0 <= k < 63 -> ALIGN x (2 ^ k) = 2 ^ k * ((x + 2 ^ k - 1) / 2 ^ k).
Proof.
  intros Hx Hk. assert (P : 1 <= 2 ^ k <= 2 ^ 62) by (pose proof (Z.pow_pos_nonneg 2 k); pose proof (Z.pow_le_mono_r 2 k 62); lia).
  unfold ALIGN. rewrite (wrap_small 64 (x + 2 ^ k - 1)) by (unfold fits; lia). apply land_align; lia.
Qed.

Lemma land_mask a k : 0 <= k -> Z.land a (Z.shiftl 1 k - 1) = a mod 2 ^ k.
Proof. intros. rewrite Z.shiftl_1_l, Z.sub_1_r, <- Z.ones_equiv. by apply Z.land_ones. Qed.

(** ** Usable page sizes *)

(** With pages of [2 ^ k] bytes, every entry starts as far into a page as the
    virtual address does, and entries meet at page boundaries. *)
Fixpoint usable (k : Z) (sgs : list sg_entry) (off va : Z) : Prop :=
  match sgs with
  | [] => True
  | sg :: rest =>
      (sg.(sg_dma_address) + off) mod 2 ^ k = va mod 2 ^ k /\
      (rest = [] \/ (va + (sg.(sg_dma_len) - off)) mod 2 ^ k = 0) /\
      usable k rest 0 (va + (sg.(sg_dma_len) - off))
  end.

Lemma sg_total_nonneg sgs : Forall sg_ok sgs -> 0 <= sg_total sgs.
Proof. induction 1 as [|sg rest [[H _] _] _ IH]; cbn; lia. Qed.

Lemma pgsz_mask_low0 k : 0 <= k -> forall sgs off va mask,
  Forall sg_ok sgs -> 0 <= off -> match sgs with sg :: _ => off < sg.(sg_dma_len) | [] => True end ->
  0 <= va -> va - off + sg_total sgs <= 2 ^ 63 ->
  low0 k (pgsz_mask sgs off va mask) <-> low0 k mask /\ usable k sgs off va.
Proof.
  intros Hk. induction sgs as [|sg rest IH]; intros off va mask Hok Hoff Hlt Hva Htop; cbn [pgsz_mask usable]; [tauto|].
  apply list.Forall_cons in Hok as [Hsg Hrest]. pose proof Hsg as (Hl & Ha & Hal). pose proof (sg_total_nonneg _ Hrest) as Ht.
  cbn [sg_total] in Htop.
  assert (E1 : u64 (sg_dma_address sg + off) = sg_dma_address sg + off) by (apply wrap_small; unfold fits; lia).
  assert (E2 : u64 (sg_dma_len sg - off) = sg_dma_len sg - off) by (apply wrap_small; unfold fits; lia).
  assert (E3 : u64 (va + (sg_dma_len sg - off)) = va + (sg_dma_len sg - off)) by (apply wrap_small; unfold fits; lia).
  rewrite E1, E2, E3. rewrite IH; [|done|lia| |lia|lia].
  - destruct rest as [|sg' rest]; rewrite ?low0_lor, low0_lxor by done; [tauto|].
    rewrite (low0_mod k (va + _)) by done. assert (sg' :: rest <> []) by done. tauto.
  - destruct rest as [|sg' rest]; [done|]. apply list.Forall_cons in Hrest as [(? & _) _]. lia.
Qed.

(** ** The iterator *)

Lemma dma_blocks_end fuel b : b.(it_numblocks) = 0 -> dma_blocks (S fuel) b = Some [].
Proof.
  intros Hn. cbn [dma_blocks]. unfold __rdma_umem_block_iter_next. destruct (__rdma_block_iter_next b) as [more b'] eqn:E.
  destruct more; [|done]. assert (it_numblocks b' = 0) as -> ; [|done].
  unfold __rdma_block_iter_next in E. destruct (it_sg b); [done|]. destruct (negb _); [done|].
  destruct (_ <? _); by injection E as <-.
Qed.

(** The iterator stands [adv] bytes into the first entry, at virtual address [v]. *)
Record at_sg (k : Z) (sgs : list sg_entry) (adv v : Z) : Prop := {
  as_ok : Forall sg_ok sgs;
  as_adv : 0 <= adv;
  as_first : match sgs with sg :: _ => adv < sg.(sg_dma_len) | [] => False end;
  as_v : 0 <= v;
  as_usable : usable k sgs adv v
}.

Lemma pow_range k : 0 <= k <= 62 -> 1 <= 2 ^ k <= 2 ^ 62.
Proof. intros. pose proof (Z.pow_pos_nonneg 2 k). pose proof (Z.pow_le_mono_r 2 k 62). lia. Qed.

(** The start of the next page. *)
Definition next_page (k v : Z) : Z := 2 ^ k * (v / 2 ^ k) + 2 ^ k.

Lemma next_page_bounds k v : 0 <= k -> v < next_page k v <= v + 2 ^ k /\ next_page k v - v = 2 ^ k - v mod 2 ^ k.
Proof.
  intros Hk. unfold next_page. pose proof (Z.pow_pos_nonneg 2 k ltac:(lia) Hk).
  pose proof (Z.div_mod v (2 ^ k) ltac:(lia)). pose proof (Z.mod_pos_bound v (2 ^ k) ltac:(lia)). lia.
Qed.

Lemma next_page_div k v : 0 <= k -> next_page k v / 2 ^ k = v / 2 ^ k + 1.
Proof.
  intros Hk. unfold next_page. pose proof (Z.pow_pos_nonneg 2 k ltac:(lia) Hk).
  replace (2 ^ k * (v / 2 ^ k) + 2 ^ k) with ((v / 2 ^ k + 1) * 2 ^ k) by lia. by apply Z.div_mul; lia.
Qed.

(** No page boundary lies between. *)
Lemma next_page_least k v w : 0 <= k -> v < w -> w mod 2 ^ k = 0 -> next_page k v <= w.
Proof.
  intros Hk Hvw Hw. pose proof (Z.pow_pos_nonneg 2 k ltac:(lia) Hk). apply Z.mod_divide in Hw as [c ->]; [|lia].
  assert (v / 2 ^ k < c) by (apply Z.div_lt_upper_bound; lia). unfold next_page. nia.
Qed.

Lemma next_delta k a v : 0 <= k <= 62 -> a mod 2 ^ k = v mod 2 ^ k -> next_page k v - v < 2 ^ 32 ->
  u32 (Z.shiftl 1 k - u32 (Z.land a (Z.shiftl 1 k - 1))) = next_page k v - v.
Proof.
  intros Hk E Hlt. rewrite land_mask, Z.shiftl_1_l, E by lia. destruct (next_page_bounds k v) as [H1 H2]; [lia|].
  unfold wrap. rewrite Zminus_mod_idemp_r, <- H2. apply Z.mod_small. lia.
Qed.

(** The block the iterator yields. *)
Lemma next_address k sg rest d n adv v : 0 <= k <= 62 -> at_sg k (sg :: rest) adv v -> 0 < n ->
  exists sgs' adv' nents',
    __rdma_umem_block_iter_next (mk_iter (sg :: rest) d n (Z.of_nat (length (sg :: rest))) adv k) =
      (true, mk_iter sgs' (sg.(sg_dma_address) + adv) (u64 (n - 1)) nents' adv' k) /\
    (next_page k v < v + (sg_total (sg :: rest) - adv) -> Z.of_nat (length (sg :: rest)) < 2 ^ 32 ->
     nents' = Z.of_nat (length sgs') /\ at_sg k sgs' adv' (next_page k v) /\
     sg_total sgs' - adv' = sg_total (sg :: rest) - adv - (next_page k v - v) /\
     (length sgs' <= length (sg :: rest))%nat /\
     forall j, next_page k v - v <= j -> dma_at (sg :: rest) adv j = dma_at sgs' adv' (j - (next_page k v - v))).
Proof.
  intros Hk [Hok Hadv Hfirst Hv (Hcong & Hend & Hus)] Hn. apply list.Forall_cons in Hok as [Hsg Hrest].
  pose proof Hsg as (Hl & Ha & Hal). destruct (next_page_bounds k v) as [Hnp _]; [lia|].
  unfold __rdma_umem_block_iter_next, __rdma_block_iter_next. cbn [it_sg it_nents it_advance it_pg_bit it_numblocks].
  assert (c_true (Z.of_nat (length (sg :: rest))) = true) as -> by (apply c_true_spec; cbn; lia). cbn [negb].
  rewrite (wrap_small 64 (sg_dma_address sg + adv)) by (unfold fits; lia).
  rewrite (wrap_small 32 (sg_dma_len sg - adv)) by (unfold fits; lia).
  set (delta := u32 (Z.shiftl 1 k - _)).
  assert (Hd : next_page k v - v < 2 ^ 32 -> delta = next_page k v - v) by (intros; by apply next_delta).
  assert (Hc : c_true n = true) by (apply c_true_spec; lia). clearbody delta.
  destruct (Z.ltb_spec delta (sg_dma_len sg - adv)) as [Hlt|Hge]; cbn [it_sg it_nents it_advance it_pg_bit it_numblocks it_dma_addr].
  - eexists _, _, _. rewrite Hc. split; [done|]. intros Hmore Hlen. cbn [sg_total] in *.
    destruct (decide (sg_dma_len sg - adv <= next_page k v - v)) as [Hle|Hgt].
    + destruct Hend as [->|Hend]; [cbn in Hmore; lia|].
      pose proof (next_page_least k v (v + (sg_dma_len sg - adv)) ltac:(lia) ltac:(lia) Hend). rewrite Hd in Hlt by lia. lia.
    + rewrite Hd by lia. rewrite wrap_small by (unfold fits; lia). split; [done|]. split.
      * split; [by apply list.Forall_cons|lia|lia|lia|]. cbn [usable]. split; [|split].
        -- replace (sg_dma_address sg + (adv + (next_page k v - v))) with (sg_dma_address sg + adv + (next_page k v - v)) by lia.
           rewrite Zplus_mod, Hcong, <- Zplus_mod. f_equal. lia.
        -- destruct Hend as [->|Hend]; [by left|right]. rewrite <- Hend. f_equal. lia.
        -- replace (next_page k v + _) with (v + (sg_dma_len sg - adv)) by lia. done.
      * split; [lia|]. split; [done|]. intros j Hj. cbn [dma_at].
        destruct (Z.ltb_spec j (sg_dma_len sg - adv)), (Z.ltb_spec (j - (next_page k v - v)) (sg_dma_len sg - (adv + (next_page k v - v))));
          [lia|lia|lia|f_equal; lia].
  - eexists _, _, _. rewrite Hc. split; [done|]. intros Hmore Hlen. cbn [sg_total] in *.
    destruct rest as [|sg' rest].
    { cbn in Hmore. rewrite Hd in Hge by lia. lia. }
    destruct Hend as [?|Hend]; [done|].
    assert (Hne : next_page k v - v <= sg_dma_len sg - adv).
    { pose proof (next_page_least k v (v + (sg_dma_len sg - adv)) ltac:(lia) ltac:(lia) Hend). lia. }
    rewrite Hd in Hge by lia. assert (Eend : v + (sg_dma_len sg - adv) = next_page k v) by lia. rewrite Eend in Hus.
    split; [cbn [length] in *; rewrite wrap_small by (unfold fits; lia); lia|]. split.
    + split; [done|lia| |lia|done]. apply list.Forall_cons in Hrest as [(? & _) _]. lia.
    + split; [lia|]. split; [cbn; lia|]. intros j Hj. cbn [dma_at].
      destruct (Z.ltb_spec j (sg_dma_len sg - adv)); [lia|]. by replace (sg_dma_len sg - adv) with (next_page k v - v) by lia.
Qed.

(** Bytes up to the next page are in the first entry. *)
Lemma dma_at_block k sg rest adv v j : 0 <= k -> at_sg k (sg :: rest) adv v ->
  0 <= j -> v + j < next_page k v -> j < sg_total (sg :: rest) - adv ->
  dma_at (sg :: rest) adv j = sg.(sg_dma_address) + adv + j.
Proof.
  intros Hk [Hok Hadv Hfirst Hv (Hcong & Hend & Hus)] Hj Hnp Htot. cbn [dma_at].
  destruct (Z.ltb_spec j (sg_dma_len sg - adv)); [done|]. exfalso. cbn [sg_total] in Htot.
  destruct Hend as [->|Hend]; [cbn in Htot; lia|].
  pose proof (next_page_least k v (v + (sg_dma_len sg - adv)) Hk ltac:(lia) Hend). lia.
Qed.

(** The bits of an address below the page are those of the virtual address. *)
Lemma block_translate k a v j : 0 <= k -> a mod 2 ^ k = v mod 2 ^ k -> 0 <= j -> v + j < next_page k v ->
  2 ^ k * (a / 2 ^ k) + (v + j) mod 2 ^ k = a + j.
Proof.
  intros Hk E Hj Hnp. destruct (next_page_bounds k v Hk) as [_ Hd]. pose proof (Z.pow_pos_nonneg 2 k ltac:(lia) Hk).
  pose proof (Z.mod_pos_bound v (2 ^ k) ltac:(lia)). pose proof (Z.div_mod a (2 ^ k) ltac:(lia)).
  assert ((v + j) mod 2 ^ k = v mod 2 ^ k + j); [|lia].
  symmetry. apply (Z.mod_unique _ _ (v / 2 ^ k)); [left; lia|]. pose proof (Z.div_mod v (2 ^ k) ltac:(lia)). lia.
Qed.

Lemma it_address k sgs a n nents adv : 0 <= k <= 62 -> 0 <= a < 2 ^ 64 ->
  rdma_block_iter_dma_address (mk_iter sgs a n nents adv k) = 2 ^ k * (a / 2 ^ k).
Proof. intros. unfold rdma_block_iter_dma_address. cbn. rewrite Z.shiftl_1_l. apply land_align; lia. Qed.

(** From [v] on, the iterator yields the pages in order. *)
Lemma dma_blocks_ok k : 0 <= k <= 62 -> forall n sgs d adv v,
  at_sg k sgs adv v -> Z.of_nat (length sgs) < 2 ^ 32 -> Z.of_nat n < 2 ^ 64 ->
  (n <> 0%nat -> 2 ^ k * (v / 2 ^ k + Z.of_nat n - 1) < v + (sg_total sgs - adv)) ->
  exists blocks, dma_blocks (S n) (mk_iter sgs d (Z.of_nat n) (Z.of_nat (length sgs)) adv k) = Some blocks /\
    length blocks = n /\ Forall (fun a => a mod 2 ^ k = 0) blocks /\
    forall j, 0 <= j < sg_total sgs - adv -> (v + j) / 2 ^ k < v / 2 ^ k + Z.of_nat n ->
      exists a, blocks !! Z.to_nat ((v + j) / 2 ^ k - v / 2 ^ k) = Some a /\
        a + (v + j) mod 2 ^ k = dma_at sgs adv j.
Proof.
  intros Hk. pose proof (pow_range k Hk) as Hp. induction n as [|n IH]; intros sgs d adv v Hat Hlen Hn Hneed.
  { exists []. rewrite dma_blocks_end by done. split; [done|]. split; [done|]. split; [constructor|]. intros j Hj Hlt.
    assert (v / 2 ^ k <= (v + j) / 2 ^ k) by (apply Z.div_le_mono; lia). lia. }
  destruct sgs as [|sg rest]; [by destruct (as_first _ _ _ _ Hat)|].
  destruct (next_address k sg rest d (Z.of_nat (S n)) adv v Hk Hat ltac:(lia)) as (sgs' & adv' & nents' & Enext & Hmore).
  pose proof Hat as [Hok Hadv Hfirst Hv (Hcong & _ & _)]. apply list.Forall_cons in Hok as [(Hl & Ha & Hal) _].
  set (a := sg_dma_address sg + adv) in *. set (b' := mk_iter sgs' a _ _ _ _) in Enext.
  assert (Eb : u64 (Z.of_nat (S n) - 1) = Z.of_nat n) by (rewrite wrap_small by (unfold fits; lia); lia).
  assert (Hrest : exists blocks, dma_blocks (S n) b' = Some blocks /\ length blocks = n /\ Forall (fun a => a mod 2 ^ k = 0) blocks /\
    forall j, next_page k v - v <= j -> j < sg_total (sg :: rest) - adv -> (v + j) / 2 ^ k < v / 2 ^ k + Z.of_nat (S n) ->
      exists a, blocks !! Z.to_nat ((v + j) / 2 ^ k - v / 2 ^ k - 1) = Some a /\
        a + (v + j) mod 2 ^ k = dma_at (sg :: rest) adv j).
  { destruct (decide (n = 0%nat)) as [->|Hn0].
    - exists []. rewrite dma_blocks_end by (cbn; lia). split; [done|]. split; [done|]. split; [constructor|]. intros j Hj _ Hlt.
      assert (next_page k v / 2 ^ k <= (v + j) / 2 ^ k) by (apply Z.div_le_mono; lia). rewrite next_page_div in * by lia. lia.
    - destruct Hmore as (-> & Hat' & Htot & Hlen' & Hdma); [unfold next_page; specialize (Hneed ltac:(lia)); nia|done|].
      destruct (IH sgs' a adv' (next_page k v) Hat') as (blocks & E & Hlb & Hal' & Hj'); [lia|lia| |].
      + intros _. rewrite next_page_div by lia. specialize (Hneed ltac:(lia)). lia.
      + exists blocks. unfold b'. rewrite Eb. split; [done|]. split; [done|]. split; [done|]. intros j Hj1 Hj2 Hlt.
        rewrite next_page_div in Hj' by lia. destruct (Hj' (j - (next_page k v - v))) as (c & Ec & Et); [lia| |].
        * replace (next_page k v + (j - (next_page k v - v))) with (v + j) by lia. lia.
        * exists c. replace (next_page k v + (j - (next_page k v - v))) with (v + j) in * by lia.
          split; [by rewrite Z.sub_add_distr in Ec|]. by rewrite Hdma. }
  destruct Hrest as (blocks & E & Hlb & Hal' & Hj). exists (2 ^ k * (a / 2 ^ k) :: blocks).
  cbn [dma_blocks] in E |- *. rewrite Enext. cbn [mbind option_bind]. rewrite E. cbn [mbind option_bind].
  unfold b'. rewrite it_address by lia. split; [done|]. split; [cbn; lia|].
  split; [constructor; [by rewrite Z.mul_comm, Z.mod_mul by lia|done]|]. intros j Hj1 Hj2.
  destruct (decide (v + j < next_page k v)) as [Hlt|Hge].
  - exists (2 ^ k * (a / 2 ^ k)). assert (Ed : (v + j) / 2 ^ k = v / 2 ^ k).
    { assert (v / 2 ^ k <= (v + j) / 2 ^ k) by (apply Z.div_le_mono; lia).
      assert ((v + j) / 2 ^ k < v / 2 ^ k + 1) by (apply Z.div_lt_upper_bound; unfold next_page in Hlt; lia). lia. }
    rewrite Ed, Z.sub_diag. split; [done|]. rewrite (block_translate k a v j) by (done || lia).
    unfold a. by rewrite (dma_at_block k sg rest adv v j) by (done || lia).
  - destruct (Hj j) as (c & Ec & Et); [lia|lia|lia|]. exists c. split; [|done].
    assert (next_page k v / 2 ^ k <= (v + j) / 2 ^ k) by (apply Z.div_le_mono; lia). rewrite next_page_div in * by lia.
    replace (Z.to_nat ((v + j) / 2 ^ k - v / 2 ^ k)) with (S (Z.to_nat ((v + j) / 2 ^ k - v / 2 ^ k - 1))) by lia. done.
Qed.

(** ** The page size chosen *)

Lemma bits_per_above x i : 0 <= x -> bits_per x <= i -> Z.testbit x i = false.
Proof.
  intros Hx Hi. unfold bits_per in Hi. destruct (Z.ltb_spec x 2).
  - apply Z.bits_above_log2; [done|]. assert (x = 0 \/ x = 1) as [-> | ->] by lia; cbn; lia.
  - apply Z.bits_above_log2; lia.
Qed.

Lemma bits_per_pos x : 0 < bits_per x.
Proof. unfold bits_per. destruct (Z.ltb_spec x 2); [lia|]. pose proof (Z.log2_nonneg x). lia. Qed.

(** Both ends are in one page of [2 ^ k]. *)
Lemma one_page a b k : 0 <= a -> 0 <= b -> bits_per (Z.lxor a b) <= k -> a / 2 ^ k = b / 2 ^ k.
Proof.
  intros Ha Hb Hk. pose proof (bits_per_pos (Z.lxor a b)). rewrite <- !Z.shiftr_div_pow2 by lia. apply Z.lxor_eq. rewrite <- Z.shiftr_lxor.
  apply Z.bits_inj'. intros i Hi. rewrite Z.shiftr_spec, Z.bits_0 by lia.
  apply bits_per_above; [by apply Z.lxor_nonneg|lia].
Qed.

Lemma log2_bit n : 0 < n -> Z.testbit n (Z.log2 n) = true.
Proof. intros. by apply Z.bit_log2. Qed.

Lemma bit_le_log2 n k : 0 <= n -> Z.testbit n k = true -> k <= Z.log2 n.
Proof.
  intros Hn Hk. destruct (decide (k <= Z.log2 n)); [done|]. rewrite Z.bits_above_log2 in Hk by lia. done.
Qed.

Lemma bit_pos n k : 0 <= n -> Z.testbit n k = true -> 0 < n.
Proof. intros Hn Hk. destruct (decide (n = 0)) as [->|]; [by rewrite Z.bits_0 in Hk|lia]. Qed.

(** The choice, from a mask whose zeros mean usable pages or pages larger than
    needed. *)
Lemma choice_spec bitmap mask0 mask (P : Z -> Prop) :
  0 <= bitmap < 2 ^ 63 -> 0 <= mask ->
  (forall k, 0 <= k -> low0 k mask <-> low0 k mask0 /\ P k) ->
  (forall i, 0 <= i -> Z.testbit mask0 i = true -> Z.testbit bitmap i = true) ->
  (forall j k, 0 <= j <= k -> P k -> P j) ->
  let bitmap' := if c_true mask then Z.land bitmap (GENMASK (count_trailing_zeros mask) 0) else bitmap in
  bitmap' = 0 /\ (forall k, 0 <= k -> Z.testbit bitmap k = true -> ~ P k) \/
  0 < bitmap' /\ Z.testbit bitmap (Z.log2 bitmap') = true /\ P (Z.log2 bitmap') /\
  (forall k, Z.log2 bitmap' < k -> Z.testbit bitmap k = true -> P k -> Z.testbit mask0 (Z.log2 bitmap') = true).
Proof.
  intros Hb Hm Hlow Hsub Hmono bitmap'. unfold bitmap'. destruct (c_true mask) eqn:Ec; clear bitmap'.
  2: { apply c_true_false in Ec. subst mask. assert (HP : forall k, 0 <= k -> P k) by (intros; apply Hlow; [done|]; intros i _; apply Z.bits_0).
    destruct (decide (bitmap = 0)) as [->|]; [left; split; [done|]; intros k _; by rewrite Z.bits_0|right].
    split; [lia|]. split; [apply log2_bit; lia|]. split; [apply HP, Z.log2_nonneg|].
    intros k Hk Hbit _. apply bit_le_log2 in Hbit; lia. }
  apply c_true_spec in Ec. destruct (ctz_spec mask ltac:(lia)) as (Hc0 & Hcl & Hct). set (c := count_trailing_zeros mask) in *.
  set (B := Z.land bitmap (GENMASK c 0)).
  assert (HB : forall i, 0 <= i -> Z.testbit B i = Z.testbit bitmap i && (i <=? c)).
  { intros i Hi. unfold B. rewrite Z.land_spec, genmask_bit by lia. by rewrite (proj2 (Z.leb_le 0 i)). }
  assert (HB0 : 0 <= B) by (apply Z.land_nonneg; lia).
  assert (Hbig : forall k, c < k -> P k -> Z.testbit mask0 c = true /\ Z.testbit B c = true).
  { intros k Hk HPk. assert (E : Z.testbit mask0 c = true); [|by rewrite HB, Z.leb_refl, Hsub by done].
    destruct (Z.testbit mask0 c) eqn:E; [done|]. assert (Hl : low0 (c + 1) mask).
    { apply Hlow; [lia|]. split; [|apply (Hmono _ k); [lia|done]].
      destruct (Hlow c ltac:(lia)) as [[H0 _] _]; [done|]. intros i Hi. destruct (decide (i = c)) as [->|]; [done|]. apply H0. lia. }
    specialize (Hl c ltac:(lia)). congruence. }
  destruct (decide (B = 0)) as [E0|Hne]; [left; split; [done|]|right].
  - intros k Hk Hbit HPk. destruct (decide (k <= c)).
    + assert (Hx : Z.testbit B k = true) by (rewrite HB, Hbit by lia; cbn; lia). by rewrite E0, Z.bits_0 in Hx.
    + destruct (Hbig k ltac:(lia) HPk) as [_ Hx]. by rewrite E0, Z.bits_0 in Hx.
  - pose proof (log2_bit B ltac:(lia)) as Hlb. rewrite HB in Hlb by apply Z.log2_nonneg. apply andb_true_iff in Hlb as [Hlb Hlc].
    apply Z.leb_le in Hlc. pose proof (Z.log2_nonneg B). split; [lia|]. split; [done|]. split.
    + apply Hlow; [done|]. intros i Hi. apply Hcl. lia.
    + intros k Hk Hbit HPk. destruct (decide (k <= c)).
      * assert (Hx : Z.testbit B k = true) by (rewrite HB, Hbit by lia; cbn; lia). apply bit_le_log2 in Hx; lia.
      * destruct (Hbig k ltac:(lia) HPk) as [Hx HBc]. apply bit_le_log2 in HBc; [|done]. by replace (Z.log2 B) with c by lia.
Qed.

Lemma usable_mono j k sgs : 0 <= j <= k -> forall off va, usable k sgs off va -> usable j sgs off va.
Proof.
  intros Hjk. assert (Hl : forall a, low0 k a -> low0 j a) by (intros a H i Hi; apply H; lia).
  induction sgs as [|sg rest IH]; intros off va; cbn [usable]; [done|]. intros (Hc & Hend & Hu). split; [|split; [|by apply IH]].
  - apply (low0_lxor j); [lia|]. by apply Hl, low0_lxor; [lia|].
  - destruct Hend as [->|Hend]; [by left|right]. apply (low0_mod j); [lia|]. by apply Hl, low0_mod; [lia|].
Qed.

Lemma pgsz_mask_nonneg sgs : Forall sg_ok sgs -> forall off va mask, 0 <= va -> 0 <= mask -> 0 <= pgsz_mask sgs off va mask.
Proof.
  induction 1 as [|sg rest Hsg _ IH]; intros off va mask Hva Hm; cbn [pgsz_mask]; [done|].
  assert (Hw : forall x, 0 <= u64 x) by (intros; apply wrap_fits; lia).
  apply IH; [apply Hw|]. destruct rest; rewrite ?Z.lor_nonneg, Z.lxor_nonneg; pose proof Hw; naive_solver lia.
Qed.

(** ** The number of blocks *)

Lemma offset_range P umem : 0 <= P <= 30 -> 0 <= ib_umem_offset P umem < 2 ^ P.
Proof.
  intros HP. unfold ib_umem_offset, PAGE_SIZE. rewrite land_mask by lia. apply Z.mod_pos_bound.
  apply Z.pow_pos_nonneg; lia.
Qed.

Lemma num_blocks_eq len addr virt sh sgs k : 0 <= virt -> 0 < len -> virt + len <= 2 ^ 63 -> 0 <= k <= 62 ->
  ib_umem_num_dma_blocks (mk_umem len addr virt sh sgs) (2 ^ k) = (virt + len - 1) / 2 ^ k - virt / 2 ^ k + 1.
Proof.
  intros Hv Hl Htop Hk. pose proof (pow_range k Hk) as Hp. unfold ib_umem_num_dma_blocks. cbn.
  rewrite (wrap_small 64 (virt + len)) by (unfold fits; lia). rewrite align_eq, align_down_eq by lia.
  replace (virt + len + 2 ^ k - 1) with (virt + len - 1 + 1 * 2 ^ k) by lia. rewrite Z.div_add by lia.
  set (x := (virt + len - 1) / 2 ^ k). set (y := virt / 2 ^ k).
  assert (y <= x) by (apply Z.div_le_mono; lia).
  assert (0 <= y) by (apply Z.div_pos; lia). assert (2 ^ k * x <= virt + len - 1) by (apply Z.mul_div_le; lia).
  rewrite wrap_small by (unfold fits; nia). replace (2 ^ k * (x + 1) - 2 ^ k * y) with ((x - y + 1) * 2 ^ k) by lia.
  by rewrite Z.div_mul by lia.
Qed.

(** Larger pages are never more. *)
Lemma fewer_blocks a b j k : 0 <= j <= k -> a <= b -> b / 2 ^ k - a / 2 ^ k <= b / 2 ^ j - a / 2 ^ j.
Proof.
  intros Hjk Hab. replace (2 ^ k) with (2 ^ j * 2 ^ (k - j)) by (rewrite <- Z.pow_add_r by lia; f_equal; lia).
  pose proof (Z.pow_pos_nonneg 2 j ltac:(lia) ltac:(lia)). pose proof (Z.pow_pos_nonneg 2 (k - j) ltac:(lia) ltac:(lia)) as Hc.
  rewrite <- !Z.div_div by lia. set (x := b / 2 ^ j). set (y := a / 2 ^ j). set (c := 2 ^ (k - j)) in *.
  assert (y <= x) by (apply Z.div_le_mono; lia). clearbody x y c.
  assert (x / c <= y / c + (x - y)); [|lia].
  replace x with (y + (x - y)) at 1 by lia. set (d := x - y) in *.
  assert (y + d < c * (y / c + d + 1)); [|pose proof (Z.div_lt_upper_bound (y + d) c (y / c + d + 1)); lia].
  pose proof (Z.div_mod y c ltac:(lia)). pose proof (Z.mod_pos_bound y c ltac:(lia)). nia.
Qed.

(** What [ib_umem_find_best_pgsz] answers. *)
Lemma best_cases P umem bitmap virt :
  0 <= P <= 30 -> umem_ok P umem virt -> 0 <= bitmap < 2 ^ 63 ->
  let u' := mk_umem umem.(um_length) umem.(um_address) virt umem.(odp_shift) umem.(um_sgl) in
  let us k := usable k umem.(um_sgl) (ib_umem_offset P umem) virt in
  exists p, ib_umem_find_best_pgsz P umem bitmap virt = (u', p) /\
  (p = 0 /\ (forall k, 0 <= k -> Z.testbit bitmap k = true -> ~ us k) \/
   exists k, p = 2 ^ k /\ 0 <= k <= 62 /\ Z.testbit bitmap k = true /\ us k /\
     (forall k', k < k' -> Z.testbit bitmap k' = true -> us k' -> virt / 2 ^ k = (virt + umem.(um_length) - 1) / 2 ^ k)).
Proof.
  intros HP [Hsgs (sg & rest & Esg & Hfa & Hfl) Hlen Hv Htop Hpin] Hb u' us. pose proof (offset_range P umem HP) as Hoff.
  pose proof (sg_total_nonneg _ Hsgs). unfold ib_umem_find_best_pgsz. cbn [odp_shift um_length um_sgl]. rewrite Hpin.
  replace (mk_umem (um_length umem) (um_address umem) virt None (um_sgl umem)) with u' by (unfold u'; by rewrite Hpin).
  change (ib_umem_offset P u') with (ib_umem_offset P umem).
  rewrite (wrap_small 64 (um_length umem - 1 + virt)) by (unfold fits; lia).
  set (x := Z.lxor (um_length umem - 1 + virt) virt). set (mask0 := Z.land bitmap (GENMASK 63 (bits_per x))).
  set (mask := pgsz_mask _ _ _ mask0). cbn [snd].
  assert (Hx : 0 <= x) by (apply Z.lxor_nonneg; lia). pose proof (bits_per_pos x) as Hbp.
  assert (Hx63 : bits_per x <= 63).
  { assert (Hl : forall a, 0 <= a < 2 ^ 63 -> Z.log2 a < 63).
    { intros a Ha. destruct (decide (a = 0)) as [->|]; [done|]. apply Z.log2_lt_pow2; lia. }
    unfold bits_per. destruct (Z.ltb_spec x 2); [lia|].
    pose proof (Z.log2_lxor (um_length umem - 1 + virt) virt ltac:(lia) ltac:(lia)) as Hlx. fold x in Hlx.
    pose proof (Hl (um_length umem - 1 + virt) ltac:(lia)). pose proof (Hl virt ltac:(lia)). lia. }
  destruct (choice_spec bitmap mask0 mask us) as [[E0 Hno]|(Hpos & Hbit & Hus & Hbig)]; [done| | | | | |].
  - apply pgsz_mask_nonneg; [done|done|]. apply Z.land_nonneg. lia.
  - intros k Hk. apply pgsz_mask_low0; [done|done|lia|by rewrite Esg|lia|lia].
  - intros i Hi Hm. unfold mask0 in Hm. rewrite Z.land_spec in Hm. by apply andb_true_iff in Hm as [? _].
  - intros j k Hjk. by apply usable_mono.
  - exists 0. rewrite E0. split; [done|]. by left.
  - set (k := Z.log2 _) in *. exists (2 ^ k). assert (Hc : forall n, 0 < n -> c_true n = true) by (intros; apply c_true_spec; lia).
    rewrite (Hc _ Hpos). split; [done|]. right. exists k. split; [done|]. pose proof (Z.log2_nonneg _ : 0 <= k) as Hk0.
    assert (Hk : k <= 62).
    { apply bit_le_log2 in Hbit; [|lia]. assert (Z.log2 bitmap < 63); [|lia]. apply Z.log2_lt_pow2; [|lia].
      destruct (decide (bitmap = 0)) as [->|]; [|lia]. cbn in Hpos. destruct (c_true mask) in Hpos; [by rewrite Z.land_0_l in Hpos|lia]. }
    split; [lia|]. split; [done|]. split; [done|]. intros k' Hk' Hbit' Hus'. specialize (Hbig k' Hk' Hbit' Hus').
    unfold mask0 in Hbig. rewrite Z.land_spec, genmask_bit in Hbig by lia. apply andb_true_iff in Hbig as [_ Hge].
    apply andb_true_iff in Hge as [Hge _]. apply Z.leb_le in Hge. symmetry.
    replace (virt + um_length umem - 1) with (um_length umem - 1 + virt) by lia. by apply one_page; [lia|lia|].
Qed.

Lemma ib_umem_find_best_pgsz_umem P umem bitmap virt :
  (ib_umem_find_best_pgsz P umem bitmap virt).1 = mk_umem umem.(um_length) umem.(um_address) virt umem.(odp_shift) umem.(um_sgl).
Proof. unfold ib_umem_find_best_pgsz. by destruct (odp_shift umem). Qed.

(** The page size chosen is the best. For a pinned region mapped at [virt]:
    the answer is 0 only when no supported page size is usable, that is, with
    none do all entries of the scatterlist start as far into a page as their
    virtual addresses and meet at page boundaries; otherwise it is a supported
    size that is usable, and no usable supported size needs fewer blocks. *)
Theorem best_pgsz_is_best (P : Z) (umem : ib_umem) (bitmap virt : Z) :
  0 <= P <= 30 -> umem_ok P umem virt -> 0 <= bitmap < 2 ^ 63 ->
  let us k := usable k umem.(um_sgl) (ib_umem_offset P umem) virt in
  exists u' p, ib_umem_find_best_pgsz P umem bitmap virt = (u', p) /\
  (p = 0 /\ (forall k, 0 <= k -> Z.testbit bitmap k = true -> ~ us k) \/
   exists k, p = 2 ^ k /\ 0 <= k <= 62 /\ Z.testbit bitmap k = true /\ us k /\
     (forall k', 0 <= k' -> Z.testbit bitmap k' = true -> us k' ->
        ib_umem_num_dma_blocks u' p <= ib_umem_num_dma_blocks u' (2 ^ k'))).
Proof.
  intros HP Hok Hb us. destruct (best_cases P umem bitmap virt HP Hok Hb) as (p & E & Hp). eexists _, p. split; [exact E|].
  destruct Hp as [Hp|(k & -> & Hk & Hbit & Hus & Hbig)]; [by left|right]. exists k. do 4 (split; [done|]).
  intros k' Hk' Hbit' Hus'. pose proof Hok as [Hsgs _ Hlen Hv Htop _]. pose proof (offset_range P umem HP).
  assert (Hk62 : k' <= 62).
  { apply bit_le_log2 in Hbit'; [|lia]. assert (Z.log2 bitmap < 63); [|lia]. apply Z.log2_lt_pow2; [|lia]. apply (bit_pos _ k); [lia|done]. }
  rewrite !num_blocks_eq by lia. destruct (decide (k' <= k)).
  - pose proof (fewer_blocks virt (virt + um_length umem - 1) k' k ltac:(lia) ltac:(lia)). lia.
  - rewrite (Hbig k' ltac:(lia) Hbit' Hus') at 1.
    pose proof (Z.div_le_mono virt (virt + um_length umem - 1) (2 ^ k') ltac:(apply Z.pow_pos_nonneg; lia) ltac:(lia)). lia.
Qed.

Lemma usable_back k sgs off d va :
  usable k sgs off va -> usable k sgs (off - d) (va - d).
Proof.
  destruct sgs as [|sg rest]; cbn [usable]; [done|]. intros (Hc & Hend & Hu).
  replace (va - d + (sg_dma_len sg - (off - d))) with (va + (sg_dma_len sg - off)) by lia. split; [|done].
  replace (sg_dma_address sg + (off - d)) with (sg_dma_address sg + off - d) by lia.
  by rewrite Zminus_mod, Hc, <- Zminus_mod.
Qed.

Lemma dma_at_back sgs off d j : 0 <= j -> match sgs with sg :: _ => off < sg.(sg_dma_len) | [] => True end ->
  dma_at sgs (off - d) (j + d) = dma_at sgs off j.
Proof.
  destruct sgs as [|sg rest]; cbn [dma_at]; [done|]. intros Hj Hoff.
  replace (j + d - (sg_dma_len sg - (off - d))) with (j - (sg_dma_len sg - off)) by lia.
  destruct (Z.ltb_spec (j + d) (sg_dma_len sg - (off - d))), (Z.ltb_spec j (sg_dma_len sg - off)); lia || done.
Qed.

(** Where the iterator starts: the offset into the first entry rounded down to a block. *)
Lemma start_advance P umem virt k sg rest : 0 <= P <= 30 -> 0 <= k <= 62 ->
  umem.(um_sgl) = sg :: rest -> sg.(sg_dma_address) mod 2 ^ P = 0 -> 0 <= virt -> 
  let off := ib_umem_offset P umem in
  let d := off mod 2 ^ k in
  usable k umem.(um_sgl) off virt ->
  u32 (Z.land off (u64 (- 2 ^ k))) = off - d /\ 0 <= off - d /\ d <= virt mod 2 ^ k.
Proof.
  intros HP Hk Esg Ha Hv off d Hus. pose proof (offset_range P umem HP) as Ho. fold off in Ho. pose proof (pow_range k Hk) as Hp.
  assert (2 ^ P <= 2 ^ 30) by (apply Z.pow_le_mono_r; lia).
  assert (Hd : off - d = 2 ^ k * (off / 2 ^ k)) by (unfold d; pose proof (Z.div_mod off (2 ^ k) ltac:(lia)); lia).
  assert (0 <= off / 2 ^ k) by (apply Z.div_pos; lia). assert (0 <= d <= off) by (unfold d; pose proof (Z.mod_pos_bound off (2 ^ k)); nia).
  rewrite land_align, wrap_small by (unfold fits; lia). split; [lia|]. split; [lia|].
  rewrite Esg in Hus. destruct Hus as (Hc & _). rewrite <- Hc. unfold d.
  destruct (decide (k <= P)).
  - assert (E : sg_dma_address sg mod 2 ^ k = 0).
    { rewrite (Znumtheory.Zmod_div_mod (2 ^ k) (2 ^ P)) by (lia || apply Z.pow_pos_nonneg || exists (2 ^ (P - k)); rewrite <- ?Z.pow_add_r by lia; f_equal; lia).
      rewrite Ha. by apply Z.mod_0_l; lia. }
    rewrite Zplus_mod, E, Z.add_0_l, Z.mod_mod by lia. lia.
  - assert (2 ^ P <= 2 ^ k) by (apply Z.pow_le_mono_r; lia). rewrite (Z.mod_small off) by lia.
    apply Z.mod_divide in Ha as [c ->]; [|lia].
    replace (2 ^ k) with (2 ^ P * 2 ^ (k - P)) by (rewrite <- Z.pow_add_r by lia; f_equal; lia).
    pose proof (Z.pow_pos_nonneg 2 (k - P) ltac:(lia) ltac:(lia)).
    rewrite Z.rem_mul_r by lia. rewrite (Z.add_comm (c * 2 ^ P)), Z.mod_add, Z.mod_small by lia.
    pose proof (Z.mod_pos_bound ((off + c * 2 ^ P) / 2 ^ P) (2 ^ (k - P)) ltac:(lia)). nia.
Qed.

(** C30: the blocks of a region translate its addresses. Take the page size
    chosen for a pinned region mapped at [virt], when there is one, and walk the
    region's blocks: the walk ends, it yields exactly as many blocks as
    [ib_umem_num_dma_blocks] says, all aligned to the page size, and looking a
    virtual address of the region up in them, as a device does in a page table,
    gives the DMA address that the scatterlist has for that byte. *)
Theorem blocks_translate (P : Z) (umem : ib_umem) (bitmap virt : Z) :
  0 <= P <= 30 -> umem_ok P umem virt -> 0 <= bitmap < 2 ^ 63 -> Z.of_nat (length umem.(um_sgl)) < 2 ^ 32 ->
  let '(u', pgsz) := ib_umem_find_best_pgsz P umem bitmap virt in
  pgsz <> 0 ->
  exists blocks, umem_dma_blocks P u' pgsz = Some blocks /\
    Z.of_nat (length blocks) = ib_umem_num_dma_blocks u' pgsz /\ Forall (fun a => a mod pgsz = 0) blocks /\
    forall j, 0 <= j < umem.(um_length) ->
      exists a, blocks !! Z.to_nat ((virt + j) / pgsz - virt / pgsz) = Some a /\
        a + (virt + j) mod pgsz = dma_at umem.(um_sgl) (ib_umem_offset P umem) j.
Proof.
  intros HP Hok Hb Hlen32. destruct (best_cases P umem bitmap virt HP Hok Hb) as (p & -> & Hp). intros Hp0.
  destruct Hp as [[-> _]|(k & -> & Hk & _ & Hus & _)]; [done|]. pose proof (pow_range k Hk) as Hpow.
  destruct Hok as [Hsgs (sg & rest & Esg & Hfa & Hfl) Hlen Hv Htop Hpin]. set (off := ib_umem_offset P umem) in *.
  destruct (start_advance P umem virt k sg rest HP Hk Esg Hfa Hv Hus) as (Eadv & Hadv & Hd). fold off in Eadv, Hadv, Hd.
  set (d := off mod 2 ^ k) in *. pose proof (Z.mod_pos_bound off (2 ^ k) ltac:(lia) : 0 <= d < 2 ^ k) as Hd0.
  set (u' := mk_umem _ _ _ _ _). pose proof (offset_range P umem HP) as Ho. fold off in Ho.
  assert (En : ib_umem_num_dma_blocks u' (2 ^ k) = (virt + um_length umem - 1) / 2 ^ k - virt / 2 ^ k + 1)
    by (apply num_blocks_eq; lia).
  assert (Hge : virt / 2 ^ k <= (virt + um_length umem - 1) / 2 ^ k) by (apply Z.div_le_mono; lia).
  assert (Hle : 2 ^ k * ((virt + um_length umem - 1) / 2 ^ k) <= virt + um_length umem - 1) by (apply Z.mul_div_le; lia).
  set (n := ib_umem_num_dma_blocks u' (2 ^ k)) in *.
  assert (Hdiv : (virt - d) / 2 ^ k = virt / 2 ^ k).
  { pose proof (Z.div_mod virt (2 ^ k) ltac:(lia)). symmetry. apply (Z.div_unique _ _ _ (virt mod 2 ^ k - d)); [left|]; pose proof (Z.mod_pos_bound virt (2 ^ k)); lia. }
  assert (0 <= virt / 2 ^ k) by (apply Z.div_pos; lia).
  assert (Hat : at_sg k (um_sgl umem) (off - d) (virt - d)).
  { split; [done|lia|rewrite Esg; lia| |by apply usable_back]. pose proof (Z.mod_le virt (2 ^ k)). lia. }
  destruct (dma_blocks_ok k Hk (Z.to_nat n) (um_sgl umem) 0 (off - d) (virt - d) Hat Hlen32) as (blocks & E & Hl & Hal & Htr);
    [nia|intros _; rewrite Hdiv; nia|].
  exists blocks. unfold umem_dma_blocks. fold n. unfold __rdma_umem_block_iter_start, __rdma_block_iter_start.
  cbn [it_sg it_dma_addr it_nents it_pg_bit]. change (ib_umem_offset P u') with off. fold n. rewrite Eadv, Z.log2_pow2 by lia.
  rewrite Z2Nat.id in E by lia. split; [exact E|]. split; [lia|]. split; [done|]. intros j Hj.
  destruct (Htr (j + d)) as (a & Ea & Et); [lia| |].
  - replace (virt - d + (j + d)) with (virt + j) by lia. rewrite Hdiv.
    assert ((virt + j) / 2 ^ k <= (virt + um_length umem - 1) / 2 ^ k) by (apply Z.div_le_mono; lia). lia.
  - replace (virt - d + (j + d)) with (virt + j) in * by lia. rewrite Hdiv in Ea. exists a. split; [done|].
    rewrite Et. apply dma_at_back; [lia|]. by rewrite Esg.
Qed.

(** ** A region of three entries *)

(** 20000 bytes from byte 100 of a page, in three pieces that fit pages of 16
    kilobytes. *)
Definition three_pieces : ib_umem :=
  mk_umem 20000 12388 0 None [mk_sg 77824 4096; mk_sg 131072 16384; mk_sg 32768 4096].

Lemma three_pieces_ok : umem_ok 12 three_pieces 12388.
Proof.
  split; [|by exists (mk_sg 77824 4096), [mk_sg 131072 16384; mk_sg 32768 4096]|vm_compute; split; congruence|lia|vm_compute; congruence|done].
  repeat (apply list.Forall_cons; split; [by repeat split|]). constructor.
Qed.

Theorem best_pgsz_is_best_witness :
  let umem := three_pieces in let virt := 12388 in let bitmap := 2 ^ 30 - 4096 in
  let us k := usable k umem.(um_sgl) (ib_umem_offset 12 umem) virt in
  ib_umem_find_best_pgsz 12 umem bitmap virt = (mk_umem 20000 12388 12388 None umem.(um_sgl), 16384) /\
  exists u' p, ib_umem_find_best_pgsz 12 umem bitmap virt = (u', p) /\
  (p = 0 /\ (forall k, 0 <= k -> Z.testbit bitmap k = true -> ~ us k) \/
   exists k, p = 2 ^ k /\ 0 <= k <= 62 /\ Z.testbit bitmap k = true /\ us k /\
     (forall k', 0 <= k' -> Z.testbit bitmap k' = true -> us k' ->
        ib_umem_num_dma_blocks u' p <= ib_umem_num_dma_blocks u' (2 ^ k'))).
Proof.
  split; [reflexivity|]. apply (best_pgsz_is_best 12 three_pieces (2 ^ 30 - 4096) 12388); [lia|apply three_pieces_ok|lia].
Defined.

Theorem blocks_translate_witness :
  let umem := three_pieces in let virt := 12388 in
  exists blocks, umem_dma_blocks 12 (mk_umem 20000 12388 12388 None umem.(um_sgl)) 16384 = Some blocks /\
    Z.of_nat (length blocks) = 2 /\ Forall (fun a => a mod 16384 = 0) blocks /\
    forall j, 0 <= j < umem.(um_length) ->
      exists a, blocks !! Z.to_nat ((virt + j) / 16384 - virt / 16384) = Some a /\
        a + (virt + j) mod 16384 = dma_at umem.(um_sgl) (ib_umem_offset 12 umem) j.
Proof.
  apply (blocks_translate 12 three_pieces (2 ^ 30 - 4096) 12388); [lia|apply three_pieces_ok|lia|reflexivity|discriminate].
Defined.
