(* ===== verification/SgPages.v ===== *)
(** Scatterlists of kernel memory regions: [ib_sg_to_pages] of
    drivers/infiniband/core/verbs.c, with the page callback of mlx5
    (drivers/infiniband/hw/mlx5/mr.c).

    What the driver does with a page is an interface, [PageDriver]: the core is
    proved against its laws, which mlx5's callback satisfies. *)

From S2P Require Import Prelude UmemBlocks.
#[local] Open Scope Z_scope.

(** ** The driver's side *)

(** A driver sets one page at a time and can hold [capacity] of them. The answer is
    the new state and the return value. *)
Class PageDriver (S : Type) := {
  set_page : S -> Z -> option (S * Z);
  pages : S -> list Z;
  capacity : S -> nat
}.

Class PageDriverLaws (S : Type) `{PageDriver S} := {
  driver_ok : S -> Prop;
  pages_fit : forall s, driver_ok s -> (length (pages s) <= capacity s)%nat;
  set_page_room : forall s a, driver_ok s -> (length (pages s) < capacity s)%nat -> 0 <= a < 2 ^ 64 -> a mod 4 = 0 ->
    exists s', set_page s a = Some (s', 0) /\ driver_ok s' /\ pages s' = pages s ++ [a] /\ capacity s' = capacity s;
  set_page_full : forall s a, driver_ok s -> (capacity s <= length (pages s))%nat ->
    set_page s a = Some (s, - ENOMEM)
}.

(** ** The core *)

(** The fields of [struct ib_mr] the core sets. *)
Record ib_mr := mk_mr { mr_iova : Z; mr_length : Z; mr_page_size : Z }.

Section core.
Context {S : Type} `{PageDriver S}.

(** [while (page_addr < end_dma_addr)] around the body of the inner loop. The
    answer is [None] in the second place, or the error and [prev_addr]. *)
Fixpoint while_pages (fuel : nat) (page_size : Z) (s : S) (page_addr prev_addr end_dma_addr : Z) :
    option (S * option (Z * Z)) :=
  if negb (page_addr <? end_dma_addr) then Some (s, None) else
  match fuel with
  | O => None
  | Datatypes.S fuel =>
      '(s, ret) ← set_page s page_addr;
      if ret <? 0 then Some (s, Some (ret, prev_addr)) else
      while_pages fuel page_size s (u64 (page_addr + page_size)) page_addr end_dma_addr
  end.

(** The [do] loop: the body runs before the test. *)
Definition do_pages (fuel : nat) (page_size : Z) (s : S) (page_addr prev_addr end_dma_addr : Z) :
    option (S * option (Z * Z)) :=
  '(s, ret) ← set_page s page_addr;
  if ret <? 0 then Some (s, Some (ret, prev_addr)) else
  while_pages fuel page_size s (u64 (page_addr + page_size)) page_addr end_dma_addr.

(** The loop over the entries: [nents] are left, [i] are done. The answer is the
    value returned, the offset left behind, the length and the driver's
    state. *)
Fixpoint map_sgs (nents : nat) (sgs : list sg_entry) (page_size i sg_offset last_end_dma_addr last_page_off length : Z)
    (s : S) : option (Z * Z * Z * S) :=
  match nents with
  | O => Some (i, 0, length, s)
  | Datatypes.S nents =>
      match sgs with
      | [] => None
      | sg :: rest =>
          let page_mask := u64 (- page_size) in
          let dma_addr := u64 (sg.(sg_dma_address) + sg_offset) in
          let dma_len := u32 (sg.(sg_dma_len) - sg_offset) in
          let end_dma_addr := u64 (dma_addr + dma_len) in
          let page_addr := Z.land dma_addr page_mask in
          let fuel := Z.to_nat (dma_len / page_size + 2) in
          let unaligned := c_true i && (c_true last_page_off || negb (page_addr =? dma_addr)) in
          if unaligned && negb (last_end_dma_addr =? dma_addr) then Some (i, 0, length, s) else
          '(s, err) ← (if unaligned then while_pages fuel page_size s (u64 (page_addr + page_size)) dma_addr end_dma_addr
                       else do_pages fuel page_size s page_addr dma_addr end_dma_addr);
          match err with
          | Some (ret, prev_addr) =>
              let sg_offset := u32 (prev_addr - sg.(sg_dma_address)) in
              let length := u64 (length + (prev_addr - dma_addr)) in
              Some (if c_true i || c_true sg_offset then i else ret, sg_offset, length, s)
          | None =>
              map_sgs nents rest page_size (i + 1) 0 end_dma_addr (Z.land end_dma_addr (page_size - 1)) (u64 (length + dma_len)) s
          end
      end
  end.

(** [sg_offset_p] is the offset, if the pointer is not null; what is left in it
    is in the answer all the same. *)
Definition ib_sg_to_pages (mr : ib_mr) (sgl : list sg_entry) (sg_nents : Z) (sg_offset_p : option Z) (s : S) :
    option (Z * Z * ib_mr * S) :=
  let sg_offset := default 0 sg_offset_p in
  match sgl with
  | [] => None
  | sg :: _ =>
      if (sg_nents <=? 0) || (sg.(sg_dma_len) <? sg_offset) then Some (- EINVAL, sg_offset, mr, s) else
      let iova := u64 (sg.(sg_dma_address) + sg_offset) in
      '(ret, off, length, s) ← map_sgs (Z.to_nat sg_nents) sgl mr.(mr_page_size) 0 sg_offset 0 0 0 s;
      Some (ret, off, mk_mr iova length mr.(mr_page_size), s)
  end.
End core.

(** ** mlx5 *)

(** [struct mlx5_ib_mr]: the descriptors, in memory for [max_descs] of them. *)
Record mlx5_ib_mr := mk_mlx5 { descs : list Z; ndescs : Z; max_descs : Z }.

Definition MLX5_EN_RD : Z := 1.
Definition MLX5_EN_WR : Z := 2.

Definition mlx5_set_page (mr : mlx5_ib_mr) (addr : Z) : option (mlx5_ib_mr * Z) :=
  if mr.(ndescs) =? mr.(max_descs) then Some (mr, - ENOMEM) else
  d ← arr_set mr.(descs) mr.(ndescs) (Z.lor (Z.lor addr MLX5_EN_RD) MLX5_EN_WR);
  Some (mk_mlx5 d (mr.(ndescs) + 1) mr.(max_descs), 0).

(** The pages of the descriptors in use. *)
#[export] Instance mlx5_driver : PageDriver mlx5_ib_mr := {
  set_page := mlx5_set_page;
  pages mr := (fun d => Z.land d (u64 (- 4))) <$> take (Z.to_nat mr.(ndescs)) mr.(descs);
  capacity mr := Z.to_nat mr.(max_descs)
}.

(** A region set up for mapping by [mlx5_ib_map_mr_sg]. *)
Definition mlx5_mr_ok (mr : mlx5_ib_mr) : Prop :=
  0 <= mr.(ndescs) <= mr.(max_descs) /\ Z.of_nat (length mr.(descs)) = mr.(max_descs).

Lemma desc_page a : 0 <= a < 2 ^ 64 -> a mod 4 = 0 -> Z.land (Z.lor (Z.lor a MLX5_EN_RD) MLX5_EN_WR) (u64 (- 4)) = a.
Proof.
  intros Ha H4. rewrite !Z.land_lor_distr_l. change (Z.land MLX5_EN_RD (u64 (-4))) with 0.
  change (Z.land MLX5_EN_WR (u64 (-4))) with 0. rewrite !Z.lor_0_r. change (-4) with (- 2 ^ 2).
  rewrite land_align by lia. change (2 ^ 2) with 4. pose proof (Z.div_mod a 4). lia.
Qed.

#[export] Instance mlx5_driver_laws : PageDriverLaws mlx5_ib_mr.
Proof.
  refine {| driver_ok := mlx5_mr_ok |}.
  - intros mr [Hn Hl]. unfold pages, capacity. cbn. rewrite length_fmap, length_take. lia.
  - intros mr a [Hn Hl] Hroom Ha H4. unfold set_page, pages, capacity in *. cbn in *. rewrite length_fmap, length_take in Hroom.
    unfold mlx5_set_page. rewrite (proj2 (Z.eqb_neq _ _)) by lia. unfold arr_set. rewrite decide_True by lia. cbn [mbind option_bind].
    eexists. split; [done|]. split; [split; cbn; [lia|by rewrite length_insert]|]. cbn. split; [|done].
    replace (Z.to_nat (ndescs mr + 1)) with (S (Z.to_nat (ndescs mr))) by lia.
    rewrite (take_S_r _ _ (Z.lor (Z.lor a MLX5_EN_RD) MLX5_EN_WR)) by (apply list_lookup_insert_eq; lia).
    rewrite take_insert_ge by lia. rewrite fmap_app. cbn. by rewrite desc_page.
  - intros mr a [Hn Hl] Hfull. unfold set_page, pages, capacity in *. cbn in *. rewrite length_fmap, length_take in Hfull.
    unfold mlx5_set_page. by rewrite (proj2 (Z.eqb_eq _ _)) by lia.
Defined.

(** ** Setting the pages of one entry *)

Section laws.
Context {S : Type} `{PageDriverLaws S}.





(** Byte [j] of the region, looked up in the pages, is at [x]. *)
Definition looked (ps iova : Z) (pg : list Z) (j x : Z) : Prop :=
  exists a, pg !! Z.to_nat ((iova + j) / ps - iova / ps) = Some a /\ a mod ps = 0 /\ a + (iova + j) mod ps = x.





(** ** The entries in turn *)















End laws.

(** ** mlx5 regions *)

(** A region for [n] pages, as [mlx5_ib_map_mr_sg] starts. *)
Definition fresh_mr (n : nat) : mlx5_ib_mr := mk_mlx5 (replicate n 0) 0 (Z.of_nat n).

(** Three entries, of which the last leaves a gap. *)
Definition gap_list : list sg_entry := [mk_sg 4608 3584; mk_sg 8192 6000; mk_sg 65536 512].


Example gap_run :
  (fun r => (r.1.1.1, r.1.1.2, r.1.2, pages r.2)) <$> ib_sg_to_pages (mk_mr 0 0 4096) gap_list 3 (Some 512) (fresh_mr 8) =
    Some (2, 0, mk_mr 5120 9072 4096, [4096; 8192; 12288]).
Proof. by vm_compute. Qed.

(** Where the core goes wrong. A region for one page, given an unaligned
    buffer that continues on a second page: the page before [dma_addr] counts
    as the place reached, so that the answer is 0 entries without an error, a
    length of 512 bytes less than nothing and an offset as far out of range. And an
    offset equal to the length of the first entry is let through, although
    nothing of that entry is left to map: a page is set for it, which all later bytes
    are then looked up one page too early in. *)
Theorem sg_to_pages_flaws :
  (exists mr' s', ib_sg_to_pages (mk_mr 0 0 4096) [mk_sg 4608 8192] 1 None (fresh_mr 1) =
     Some (0, 2 ^ 32 - 512, mr', s') /\ mr'.(mr_length) = 2 ^ 64 - 512) /\
  (exists mr' s', ib_sg_to_pages (mk_mr 0 0 4096) [mk_sg 4096 4096; mk_sg 65536 4096] 2 (Some 4096) (fresh_mr 8) =
     Some (2, 0, mr', s') /\ mr'.(mr_length) = 4096 /\
     dma_at [mk_sg 4096 4096; mk_sg 65536 4096] 4096 0 = 65536 /\
     looked 4096 mr'.(mr_iova) (pages s') 0 8192).
Proof.
  split; eexists _, _; (split; [by vm_compute|]); [by vm_compute|]. split; [by vm_compute|]. split; [by vm_compute|].
  exists 8192. by vm_compute.
Qed.
