(* ===== verification/Counting.v ===== *)
(** Counting the objects of a map that have a property, what a reference count is
    compared with, and sums over a map. Shared by the components whose objects are counted. *)

From S2P Require Import Prelude.
#[local] Open Scope Z_scope.

Section count.
Context {A : Type}.
Implicit Types (P : A -> bool) (mcs : gmap Z A).

Definition count (P : A -> bool) (m : gmap Z A) : Z :=
  map_fold (fun _ me n => c_bool (P me) + n) 0 m.

Lemma count_new P mcs m me : mcs !! m = None -> count P (<[m := me]> mcs) = c_bool (P me) + count P mcs.
Proof. intros Hm. unfold count. rewrite map_fold_insert_L; [done| |done]. intros. lia. Qed.

Lemma count_delete P mcs m me : mcs !! m = Some me -> count P (delete m mcs) = count P mcs - c_bool (P me).
Proof.
  intros Hm. pose proof (count_new P (delete m mcs) m me (lookup_delete_eq _ _)) as E.
  rewrite insert_delete_id in E by done. lia.
Qed.

Lemma count_update P mcs m me me' :
  mcs !! m = Some me -> count P (<[m := me']> mcs) = count P mcs - c_bool (P me) + c_bool (P me').
Proof.
  intros Hm. rewrite <- insert_delete_eq, count_new by apply lookup_delete_eq. rewrite (count_delete _ _ _ me) by done. lia.
Qed.

Lemma count_pos P mcs : 0 <= count P mcs /\ (forall m me, mcs !! m = Some me -> P me = true -> 0 < count P mcs).
Proof.
  unfold count. induction mcs as [|m me mcs Hm IH] using map_ind.
  - rewrite map_fold_empty. split; [lia|]. by intros ?? ?%lookup_empty_Some.
  - fold (count P (<[m := me]> mcs)). fold (count P mcs) in IH. rewrite count_new by done. destruct IH as [IH0 IH].
    assert (0 <= c_bool (P me)) by (by destruct (P me)). split; [lia|]. intros m' me' Hm' HP.
    apply lookup_insert_Some in Hm' as [[<- <-]|[_ Hm']]; [rewrite HP; cbn; lia|]. specialize (IH _ _ Hm' HP). lia.
Qed.

Lemma count_zero P mcs m me : count P mcs = 0 -> mcs !! m = Some me -> P me = false.
Proof. intros Hc Hm. destruct (P me) eqn:E; [|done]. pose proof (proj2 (count_pos P mcs) m me Hm E). lia. Qed.

Lemma count_none P mcs : (forall m me, mcs !! m = Some me -> P me = false) -> count P mcs = 0.
Proof.
  unfold count. induction mcs as [|m me mcs Hm IH] using map_ind; intros Hn; [apply map_fold_empty|].
  fold (count P (<[m := me]> mcs)). rewrite count_new by done. rewrite (Hn m me) by apply lookup_insert_eq. cbn.
  apply IH. intros m' me' Hm'. apply (Hn m'). apply lookup_insert_Some. right. split; [congruence|done].
Qed.

Lemma count_exists P mcs : count P mcs <> 0 -> exists m me, mcs !! m = Some me /\ P me = true.
Proof.
  induction mcs as [|m me mcs Hm IH] using map_ind; intros Hc; [by destruct Hc|]. rewrite count_new in Hc by done.
  destruct (P me) eqn:E; [exists m, me; by rewrite lookup_insert_eq|].
  destruct (IH Hc) as (m' & me' & Hm' & HP). exists m', me'. split; [|done]. rewrite lookup_insert_ne; [done|congruence].
Qed.

(** A count depends on what the predicate says of each key only. *)
Lemma count_ext P mcs mcs' :
  (forall m, from_option P false (mcs !! m) = from_option P false (mcs' !! m)) -> count P mcs = count P mcs'.
Proof.
  revert mcs'. induction mcs as [|m me mcs Hm IH] using map_ind; intros mcs' Hext.
  - symmetry. apply count_none. intros m me Hm. specialize (Hext m). rewrite lookup_empty, Hm in Hext. done.
  - rewrite count_new by done. pose proof (Hext m) as Em. rewrite lookup_insert_eq in Em. cbn in Em.
    rewrite (IH (delete m mcs')).
    + destruct (mcs' !! m) as [me'|] eqn:E'; cbn in Em.
      * rewrite (count_delete _ _ _ me') by done. rewrite Em. lia.
      * rewrite delete_id, Em by done. done.
    + intros m'. destruct (decide (m' = m)) as [->|Hne]; [by rewrite Hm, lookup_delete_eq|].
      specialize (Hext m'). by rewrite lookup_insert_ne in Hext by done; rewrite lookup_delete_ne by done.
Qed.

(** Maps that differ at one key. *)
Lemma count_at P mcs mcs' m : (forall m', m' <> m -> mcs' !! m' = mcs !! m') ->
  count P mcs' = count P mcs - c_bool (from_option P false (mcs !! m)) + c_bool (from_option P false (mcs' !! m)).
Proof.
  intros Hext. assert (Hdel : delete m mcs' = delete m mcs).
  { apply map_eq. intros m'. destruct (decide (m' = m)) as [->|Hne]; [by rewrite !lookup_delete_eq|].
    rewrite !lookup_delete_ne by done. by apply Hext. }
  assert (Hcut : forall mcs0 : gmap Z A, count P mcs0 = count P (delete m mcs0) + c_bool (from_option P false (mcs0 !! m))).
  { intros mcs0. destruct (mcs0 !! m) as [me|] eqn:E; cbn; [rewrite (count_delete _ _ _ me) by done; lia|].
    rewrite delete_id by done. lia. }
  rewrite (Hcut mcs'), (Hcut mcs), Hdel. lia.
Qed.

Lemma count_diff P mcs mcs' m : (forall m', m' <> m -> mcs' !! m' = mcs !! m') ->
  count P mcs' - count P mcs = c_bool (from_option P false (mcs' !! m)) - c_bool (from_option P false (mcs !! m)).
Proof. intros Hext. rewrite (count_at P mcs mcs' m) by done. lia. Qed.

(** What is counted once is there once. *)
Lemma count_one P mcs m m' me me' :
  count P mcs <= 1 -> mcs !! m = Some me -> mcs !! m' = Some me' -> P me = true -> P me' = true -> m = m'.
Proof.
  intros Hc Hm Hm' HP HP'. destruct (decide (m = m')) as [|Hne]; [done|exfalso].
  pose proof (count_delete P mcs m me Hm) as E. rewrite HP in E. cbn in E.
  assert (0 < count P (delete m mcs)); [|lia]. apply (proj2 (count_pos P (delete m mcs)) m' me'); [|done].
  by rewrite lookup_delete_ne.
Qed.

(** Sums over a map. *)
Definition total (f : A -> Z) (m : gmap Z A) : Z := map_fold (fun _ me n => f me + n) 0 m.

Lemma total_new f mcs m me : mcs !! m = None -> total f (<[m := me]> mcs) = f me + total f mcs.
Proof. intros Hm. unfold total. rewrite map_fold_insert_L; [done| |done]. intros. lia. Qed.

Lemma total_delete f mcs m me : mcs !! m = Some me -> total f (delete m mcs) = total f mcs - f me.
Proof.
  intros Hm. pose proof (total_new f (delete m mcs) m me (lookup_delete_eq _ _)) as E.
  rewrite insert_delete_id in E by done. lia.
Qed.

Lemma total_update f mcs m me me' : mcs !! m = Some me -> total f (<[m := me']> mcs) = total f mcs - f me + f me'.
Proof.
  intros Hm. rewrite <- insert_delete_eq, total_new by apply lookup_delete_eq. rewrite (total_delete _ _ _ me) by done. lia.
Qed.

Lemma total_nonneg f mcs : (forall m me, mcs !! m = Some me -> 0 <= f me) -> 0 <= total f mcs.
Proof.
  induction mcs as [|m me mcs Hm IH] using map_ind; intros Hf; [unfold total; by rewrite map_fold_empty|]. rewrite total_new by done.
  pose proof (Hf m me (lookup_insert_eq _ _ _)). assert (0 <= total f mcs); [|lia]. apply IH. intros m' me' Hm'. apply (Hf m').
  rewrite lookup_insert_ne by congruence. done.
Qed.

End count.
