(* ===== verification/McastTable.v ===== *)
(** The table of multicast groups of a port (drivers/infiniband/core/multicast.c):
    a red-black tree of the groups by MGID.

    The tree library of the kernel is not part of this source: what linking and
    erasing do to the shape of a tree is the class [RbTree], and the code relies
    on its laws, that they keep the nodes in order. Search and insertion are the
    descents the code writes out. An MGID is its 128-bit big-endian value, which
    is how [memcmp] compares two of them. *)

From stdpp Require Import sorting.
From S2P Require Import Prelude.
#[local] Open Scope Z_scope.

(** Nodes are the addresses of their groups. *)
Inductive rb_root :=
  | RB_EMPTY
  | RB_NODE (rb_left : rb_root) (node : Z) (rb_right : rb_root).

(** The nodes from [rb_first] on, by [rb_next]. *)
Fixpoint nodes (t : rb_root) : list Z :=
  match t with RB_EMPTY => [] | RB_NODE l g r => nodes l ++ g :: nodes r end.

(** Rebalancing after a node was linked, and erasing a node. *)
Class RbTree := {
  rb_insert_color : Z -> rb_root -> rb_root;
  rb_erase : Z -> rb_root -> rb_root
}.

Class RbTreeLaws `{RbTree} := {
  nodes_insert_color g t : nodes (rb_insert_color g t) = nodes t;
  nodes_erase g t : NoDup (nodes t) -> g ∈ nodes t -> nodes (rb_erase g t) = filter (.≠ g) (nodes t)
}.

Section table.
Context `{RbTree}.

(** The MGID in the record of a group; [None] when the group is gone. *)
Variable mgid_of : Z -> option Z.

Fixpoint mcast_find (t : rb_root) (mgid : Z) : option (option Z) :=
  match t with
  | RB_EMPTY => Some None
  | RB_NODE l group r =>
      k ← mgid_of group;
      if mgid =? k then Some (Some group)
      else if mgid <? k then mcast_find l mgid else mcast_find r mgid
  end.

(** The group that is in the way, or the tree with the new node linked. *)
Fixpoint link_node (t : rb_root) (group mgid : Z) (allow_duplicates : bool) : option (Z + rb_root) :=
  match t with
  | RB_EMPTY => Some (inr (RB_NODE RB_EMPTY group RB_EMPTY))
  | RB_NODE l cur_group r =>
      k ← mgid_of cur_group;
      let left_ := ret ← link_node l group mgid allow_duplicates;
                   Some (match ret with inl c => inl c | inr l' => inr (RB_NODE l' cur_group r) end) in
      let right_ := ret ← link_node r group mgid allow_duplicates;
                    Some (match ret with inl c => inl c | inr r' => inr (RB_NODE l cur_group r') end) in
      if mgid <? k then left_
      else if k <? mgid then right_
      else if allow_duplicates then left_
      else Some (inl cur_group)
  end.

(** The table, and the group already there, if any. *)
Definition mcast_insert (t : rb_root) (group : Z) (allow_duplicates : bool) : option (rb_root * option Z) :=
  mgid ← mgid_of group;
  ret ← link_node t group mgid allow_duplicates;
  Some (match ret with
        | inl cur_group => (t, Some cur_group)
        | inr t => (rb_insert_color group t, None)
        end).
End table.

(** ** Order of the table *)

(** In order of MGID; only groups that still wait for their MGID, whose value
    is 0, can be equal. *)
Definition before (mgid_of : Z -> option Z) (a b : Z) : Prop :=
  exists x y, mgid_of a = Some x /\ mgid_of b = Some y /\ (x < y \/ x = y /\ x = 0).

Definition ordered (mgid_of : Z -> option Z) (l : list Z) : Prop := StronglySorted (before mgid_of) l.

Lemma StronglySorted_split {A} (R : A -> A -> Prop) l1 l2 :
  StronglySorted R (l1 ++ l2) <->
  StronglySorted R l1 /\ StronglySorted R l2 /\ (forall a b, a ∈ l1 -> b ∈ l2 -> R a b).
Proof.
  induction l1 as [|a l1 IH]; cbn.
  - split; [intros Hs; split; [constructor|split; [done|by intros ?? ?%elem_of_nil]]|by intros (? & ? & ?)].
  - split.
    + intros [Hs Ha]%StronglySorted_inv. apply IH in Hs as (H1 & H2 & H12).
      rewrite list.Forall_forall in Ha. split; [|split; [done|]].
      * constructor; [done|]. apply list.Forall_forall. intros b Hb. apply Ha, list.elem_of_app. by left.
      * intros b c [->|Hb]%list.elem_of_cons Hc; [apply Ha, list.elem_of_app; by right|by apply H12].
    + intros ([H1 Ha]%StronglySorted_inv & H2 & H12). rewrite list.Forall_forall in Ha. constructor.
      * apply IH. split; [done|]. split; [done|]. intros b c Hb Hc. apply H12; [by apply list.elem_of_cons; right|done].
      * apply list.Forall_forall. intros b [Hb|Hb]%list.elem_of_app; [by apply Ha|]. apply H12; [by left|done].
Qed.

Lemma ordered_cons_split mgid_of l1 g l2 :
  ordered mgid_of (l1 ++ g :: l2) <->
  ordered mgid_of l1 /\ ordered mgid_of l2 /\ (forall a, a ∈ l1 -> before mgid_of a g) /\
  (forall b, b ∈ l2 -> before mgid_of g b) /\ (forall a b, a ∈ l1 -> b ∈ l2 -> before mgid_of a b).
Proof.
  unfold ordered. rewrite StronglySorted_split. split.
  - intros (H1 & [H2 Hg]%StronglySorted_inv & H12). rewrite list.Forall_forall in Hg.
    split; [done|]. split; [done|]. split; [intros a Ha; apply H12; [done|by left]|]. split; [done|].
    intros a b Ha Hb. apply H12; [done|by right].
  - intros (H1 & H2 & Hl & Hr & H12). split; [done|]. split; [by constructor; [|apply list.Forall_forall]|].
    intros a b Ha [->|Hb]%list.elem_of_cons; [by apply Hl|by apply H12].
Qed.

Lemma ordered_filter mgid_of (P : Z -> Prop) `{forall x, Decision (P x)} l :
  ordered mgid_of l -> ordered mgid_of (filter P l).
Proof.
  unfold ordered. induction 1 as [|a l Hs IH Ha]; [constructor|]. rewrite filter_cons. case_decide; [|done].
  constructor; [done|]. rewrite list.Forall_forall in Ha. apply list.Forall_forall.
  intros b [_ Hb]%list_elem_of_filter. by apply Ha.
Qed.

Lemma ordered_ext (f1 f2 : Z -> option Z) l :
  (forall g, g ∈ l -> f2 g = f1 g) -> ordered f1 l -> ordered f2 l.
Proof.
  intros Hf. unfold ordered. induction 1 as [|a l Hs IH Ha]; [constructor|].
  constructor; [apply IH; intros g Hg; apply Hf; by right|].
  rewrite list.Forall_forall in Ha. apply list.Forall_forall. intros b Hb.
  destruct (Ha b Hb) as (x & y & Hx & Hy & Hxy). exists x, y.
  rewrite !Hf by (by left || by right). done.
Qed.

Section laws.
Context `{RbTreeLaws}.
Variable mgid_of : Z -> option Z.

Definition keyed (l : list Z) : Prop := forall g, g ∈ l -> is_Some (mgid_of g).

(** The descent finds a group of that MGID exactly when the table has one. *)
Lemma mcast_find_spec t mgid :
  keyed (nodes t) -> ordered mgid_of (nodes t) ->
  exists r, mcast_find mgid_of t mgid = Some r /\
    match r with
    | Some g => g ∈ nodes t /\ mgid_of g = Some mgid
    | None => forall g, g ∈ nodes t -> mgid_of g <> Some mgid
    end.
Proof.
  induction t as [|l IHl g r IHr]; cbn [nodes mcast_find]; intros Hk Ho.
  - exists None. split; [done|]. by intros g ?%elem_of_nil.
  - apply ordered_cons_split in Ho as (Hol & Hor & Hl & Hr & _).
    destruct (Hk g) as [k Eg]; [apply list.elem_of_app; right; by left|]. rewrite Eg. cbn [mbind option_bind].
    assert (Hkl : keyed (nodes l)) by (intros a Ha; apply Hk, list.elem_of_app; by left).
    assert (Hkr : keyed (nodes r)) by (intros a Ha; apply Hk, list.elem_of_app; right; by right).
    destruct (Z.eqb_spec mgid k) as [->|Hne].
    { exists (Some g). split; [done|]. split; [apply list.elem_of_app; right; by left|done]. }
    destruct (Z.ltb_spec mgid k) as [Hlt|Hge].
    + destruct (IHl Hkl Hol) as (ret & -> & Hret). exists ret. split; [done|]. destruct ret as [g'|].
      * split; [apply list.elem_of_app; left; apply Hret|by apply Hret].
      * intros a [Ha|[->|Ha]%list.elem_of_cons]%list.elem_of_app; [by apply Hret|congruence|].
        destruct (Hr a Ha) as (x & y & ? & ? & ?). intros ?. simplify_eq. lia.
    + destruct (IHr Hkr Hor) as (ret & -> & Hret). exists ret. split; [done|]. destruct ret as [g'|].
      * split; [apply list.elem_of_app; do 2 right; apply Hret|by apply Hret].
      * intros a [Ha|[->|Ha]%list.elem_of_cons]%list.elem_of_app; [|congruence|by apply Hret].
        destruct (Hl a Ha) as (x & y & ? & ? & ?). intros ?. simplify_eq. lia.
Qed.

(** What the descent into a subtree amounts to for the whole tree. *)
Definition linked_ok (group mgid : Z) (l : list Z) (ret : Z + rb_root) : Prop :=
  match ret with
  | inl cur => mgid <> 0 /\ cur ∈ l /\ mgid_of cur = Some mgid
  | inr t' => ordered mgid_of (nodes t') /\ exists l1 l2, l = l1 ++ l2 /\ nodes t' = l1 ++ group :: l2
  end.

Lemma before_trans a b c : before mgid_of a b -> before mgid_of b c -> before mgid_of a c.
Proof. intros (x & y & ? & ? & ?) (x' & y' & ? & ? & ?). simplify_eq. exists x, y'. split; [done|]. split; [done|]. lia. Qed.

Lemma linked_in group l t' l1 l2 : l = l1 ++ l2 -> nodes t' = l1 ++ group :: l2 -> forall a, a ∈ nodes t' -> a = group \/ a ∈ l.
Proof. intros -> -> a. rewrite !list.elem_of_app, list.elem_of_cons. tauto. Qed.

Lemma linked_left group mgid l c r ret :
  ordered mgid_of (nodes l ++ c :: nodes r) -> before mgid_of group c -> linked_ok group mgid (nodes l) ret ->
  linked_ok group mgid (nodes l ++ c :: nodes r) (match ret with inl x => inl x | inr l' => inr (RB_NODE l' c r) end).
Proof.
  intros (Hol & Hor & Hl & Hr & Hlr)%ordered_cons_split Hg. destruct ret as [x|t']; cbn.
  - intros (? & ? & ?). split; [done|]. split; [apply list.elem_of_app; by left|done].
  - intros (Hs & l1 & l2 & El & Et). pose proof (linked_in _ _ _ _ _ El Et) as Hin. split.
    + apply ordered_cons_split. split; [done|]. split; [done|]. split; [intros a [->|Ha]%Hin; auto|]. split; [done|].
      intros a b [->|Ha]%Hin Hb; [|auto]. eapply before_trans; eauto.
    + exists l1, (l2 ++ c :: nodes r). by rewrite El, Et, <- !app_assoc.
Qed.

Lemma linked_right group mgid l c r ret :
  ordered mgid_of (nodes l ++ c :: nodes r) -> before mgid_of c group -> linked_ok group mgid (nodes r) ret ->
  linked_ok group mgid (nodes l ++ c :: nodes r) (match ret with inl x => inl x | inr r' => inr (RB_NODE l c r') end).
Proof.
  intros (Hol & Hor & Hl & Hr & Hlr)%ordered_cons_split Hg. destruct ret as [x|t']; cbn.
  - intros (? & ? & ?). split; [done|]. split; [apply list.elem_of_app; right; by right|done].
  - intros (Hs & l1 & l2 & El & Et). pose proof (linked_in _ _ _ _ _ El Et) as Hin. split.
    + apply ordered_cons_split. split; [done|]. split; [done|]. split; [done|]. split; [intros a [->|Ha]%Hin; auto|].
      intros a b Ha [->|Hb]%Hin; [|auto]. eapply before_trans; eauto.
    + exists (nodes l ++ c :: l1), l2. by rewrite El, Et, <- !app_assoc.
Qed.

Lemma link_node_spec t group mgid dup :
  keyed (nodes t) -> ordered mgid_of (nodes t) -> mgid_of group = Some mgid -> dup = (mgid =? 0) ->
  exists ret, link_node mgid_of t group mgid dup = Some ret /\ linked_ok group mgid (nodes t) ret.
Proof.
  intros Hk Ho Hg Hdup. revert Hk Ho. induction t as [|l IHl c r IHr]; cbn [nodes link_node]; intros Hk Ho.
  - eexists. split; [done|]. cbn. split; [repeat constructor|]. by exists [], [].
  - pose proof Ho as (Hol & Hor & _)%ordered_cons_split.
    destruct (Hk c) as [k Ec]; [apply list.elem_of_app; right; by left|]. rewrite Ec. cbn [mbind option_bind].
    destruct IHl as (rl & -> & Hrl); [intros a Ha; apply Hk, list.elem_of_app; by left|done|].
    destruct IHr as (rr & -> & Hrr); [intros a Ha; apply Hk, list.elem_of_app; right; by right|done|].
    cbn [mbind option_bind].
    destruct (Z.ltb_spec mgid k); [eexists; split; [done|]; apply linked_left; [done|exists mgid, k; auto with lia|done]|].
    destruct (Z.ltb_spec k mgid); [eexists; split; [done|]; apply linked_right; [done|exists k, mgid; auto with lia|done]|].
    assert (mgid = k) as <- by lia. destruct (Z.eqb_spec mgid 0) as [Hz|Hz]; subst dup.
    + eexists. split; [done|]. apply linked_left; [done|exists mgid, mgid; auto with lia|done].
    + eexists. split; [done|]. cbn. split; [done|]. split; [apply list.elem_of_app; right; by left|done].
Qed.

(** Inserting keeps the order, and fails exactly when another group has the
    MGID. *)
Lemma mcast_insert_spec t group mgid :
  keyed (nodes t) -> ordered mgid_of (nodes t) -> mgid_of group = Some mgid ->
  exists t' cur, mcast_insert mgid_of t group (mgid =? 0) = Some (t', cur) /\
    match cur with
    | Some cur_group => t' = t /\ mgid <> 0 /\ cur_group ∈ nodes t /\ mgid_of cur_group = Some mgid
    | None => ordered mgid_of (nodes t') /\ nodes t' ≡ₚ group :: nodes t
    end.
Proof.
  intros Hk Ho Hg. unfold mcast_insert. rewrite Hg. cbn [mbind option_bind].
  destruct (link_node_spec t group mgid (mgid =? 0) Hk Ho Hg eq_refl) as ([cur|t'] & -> & Hret); cbn [mbind option_bind].
  - exists t, (Some cur). done.
  - destruct Hret as (Hs & l1 & l2 & El & Et). exists (rb_insert_color group t'), None. split; [done|].
    rewrite nodes_insert_color. split; [done|]. rewrite Et, El. symmetry. apply Permutation_middle.
Qed.

Lemma mcast_insert_free t group mgid :
  keyed (nodes t) -> ordered mgid_of (nodes t) -> mgid_of group = Some mgid ->
  (mgid = 0 \/ forall g, g ∈ nodes t -> mgid_of g <> Some mgid) ->
  exists t', mcast_insert mgid_of t group (mgid =? 0) = Some (t', None) /\
    ordered mgid_of (nodes t') /\ nodes t' ≡ₚ group :: nodes t.
Proof.
  intros Hk Ho Hg Hfree. destruct (mcast_insert_spec t group mgid Hk Ho Hg) as (t' & [cur|] & E & Hc).
  - destruct Hc as (_ & ? & Hin & Hcur), Hfree as [->|Hfree]; [done|]. by destruct (Hfree cur Hin).
  - by exists t'.
Qed.
End laws.

(** ** An instance: trees that are never balanced *)

Fixpoint of_nodes (l : list Z) : rb_root :=
  match l with [] => RB_EMPTY | g :: l => RB_NODE RB_EMPTY g (of_nodes l) end.

Lemma nodes_of_nodes l : nodes (of_nodes l) = l.
Proof. induction l; cbn; congruence. Qed.

#[export] Instance plain_tree : RbTree := {
  rb_insert_color _ t := t;
  rb_erase g t := of_nodes (filter (.≠ g) (nodes t))
}.

#[export] Instance plain_tree_laws : RbTreeLaws.
Proof. split; [done|]. intros g t _ _. apply nodes_of_nodes. Qed.
