(* ===== verification/Multicast.v ===== *)
(** Multicast groups of a port: drivers/infiniband/core/multicast.c.

    Groups and members are objects named by their addresses; an address may be
    used again after [kfree]. A step is what the code does while it holds the
    group's or the port's lock, or one atomic operation outside of them, and a
    thread is the point it has reached: that of the thread that owns a group is
    [owner], that of a user in [ib_sa_join_multicast] or [ib_sa_free_multicast]
    is the [stage] of the member. Using an object that is gone, erasing a node
    that is not in the tree, and reading a variable that was never written are
    [None]. The subnet administrator, the users' callbacks, the allocator and
    the P_Key table answer through arguments. *)

From S2P Require Import Prelude McastTable.
#[local] Open Scope Z_scope.

(** ** Data *)

(** [struct ib_sa_mcmember_rec]; GIDs as 128-bit values, big-endian members by
    their values. *)
Record ib_sa_mcmember_rec := mk_rec {
  mgid : Z; port_gid : Z; qkey : Z; mlid : Z; mtu_selector : Z; mtu : Z; traffic_class : Z; pkey : Z;
  rate_selector : Z; rate : Z; packet_life_time_selector : Z; packet_life_time : Z; sl : Z;
  flow_label : Z; hop_limit : Z; scope : Z; join_state : Z; proxy_join : Z
}.

Definition set_join_state (r : ib_sa_mcmember_rec) (js : Z) : ib_sa_mcmember_rec :=
  mk_rec r.(mgid) r.(port_gid) r.(qkey) r.(mlid) r.(mtu_selector) r.(mtu) r.(traffic_class) r.(pkey)
    r.(rate_selector) r.(rate) r.(packet_life_time_selector) r.(packet_life_time) r.(sl)
    r.(flow_label) r.(hop_limit) r.(scope) js r.(proxy_join).

(** The record of a new group: zero but for the MGID. *)
Definition zero_rec (gid : Z) : ib_sa_mcmember_rec := mk_rec gid 0 0 0 0 0 0 0 0 0 0 0 0 0 0 0 0 0.

Inductive mcast_state := MCAST_JOINING | MCAST_MEMBER | MCAST_ERROR.

Inductive mcast_group_state := MCAST_IDLE | MCAST_BUSY | MCAST_GROUP_ERROR | MCAST_PKEY_EVENT.

#[export] Instance mcast_state_eq_dec : EqDecision mcast_state.
Proof. solve_decision. Defined.
#[export] Instance mcast_group_state_eq_dec : EqDecision mcast_group_state.
Proof. solve_decision. Defined.

Definition MCAST_INVALID_PKEY_INDEX : Z := 65535.
Definition NUM_JOIN_MEMBERSHIP_TYPES : Z := 4.
Definition ENETRESET : Z := 102.

(** Where the thread is that works on a group. *)
Inductive thread :=
  | NoOwner                              (** nobody: the group is idle *)
  | Retest                               (** queued, or before taking the lock in [mcast_work_handler] *)
  | Callback (m status : Z)              (** calling back about a join, then dropping the reference *)
  | SendJoin (m : Z)                     (** in [send_join] *)
  | FailJoin (m status : Z)              (** before the lock in [fail_join] *)
  | WaitJoin                             (** a join is with the subnet administrator *)
  | SendLeave (leave : Z)                (** in [send_leave] *)
  | WaitLeave                            (** a leave is with the subnet administrator *)
  | ErrEntry                             (** entering [process_group_error] *)
  | ErrStart (index : option (option Z)) (** before its lock; whether and what [ib_find_pkey] answered *)
  | ErrLoop                              (** in its loop, before taking the lock again *)
  | ErrCallback (m : Z)                  (** calling back about the reset *)
  | Blocked (m : Z) (error : bool).      (** in [ib_sa_free_multicast], from the loop above if [error] *)

#[export] Instance thread_eq_dec : EqDecision thread.
Proof. solve_decision. Defined.

Record mcast_group := mk_group {
  rec : ib_sa_mcmember_rec;
  pending_list : list Z;
  active_list : list Z;
  last_join : option Z;
  members : list Z;
  g_refcount : Z;
  g_state : mcast_group_state;
  pkey_index : Z;
  leave_state : Z;
  retries : Z;
  owner : thread;
  releases : nat  (** former owners about to call [release_group] *)
}.

(** Where the user's thread is that joins or frees a member. *)
Inductive stage :=
  | Finding                  (** in [acquire_group], before the search *)
  | Allocating               (** in [acquire_group], the search failed *)
  | Queuing                  (** before [queue_join] *)
  | Held                     (** [ib_sa_join_multicast] has queued it *)
  | FreeLock                 (** the callback asked to free it: [ib_sa_free_multicast] before its lock *)
  | FreeRelease (cb : bool)  (** before [release_group]; called by the group's thread if [cb] *)
  | FreeDeref (cb : bool)    (** before [deref_member] *)
  | FreeWait (cb : bool).    (** waiting for the completion *)

#[export] Instance stage_eq_dec : EqDecision stage.
Proof. solve_decision. Defined.

Record mcast_member := mk_member {
  m_rec : ib_sa_mcmember_rec;
  comp_mask : Z;
  group : option Z;
  m_state : mcast_state;
  m_refcount : Z;
  at_ : stage;
  derefs : nat;      (** threads that sent a join, about to call [deref_member] *)
  called : list Z    (** the callback's statuses so far, the last one first *)
}.

Record mcast_port := mk_port {
  groups : gmap Z mcast_group;
  mcs : gmap Z mcast_member;
  table : rb_root;
  refcount : Z;
  retrying : list Z  (** groups whose [retries] a thread in [leave_handler] is about to decrement *)
}.

(** ** Updates *)

Definition set_rec (g : mcast_group) r := mk_group r g.(pending_list) g.(active_list) g.(last_join) g.(members)
  g.(g_refcount) g.(g_state) g.(pkey_index) g.(leave_state) g.(retries) g.(owner) g.(releases).
Definition set_lists (g : mcast_group) p a := mk_group g.(rec) p a g.(last_join) g.(members)
  g.(g_refcount) g.(g_state) g.(pkey_index) g.(leave_state) g.(retries) g.(owner) g.(releases).
Definition set_last_join (g : mcast_group) m := mk_group g.(rec) g.(pending_list) g.(active_list) m g.(members)
  g.(g_refcount) g.(g_state) g.(pkey_index) g.(leave_state) g.(retries) g.(owner) g.(releases).
Definition set_members (g : mcast_group) ms := mk_group g.(rec) g.(pending_list) g.(active_list) g.(last_join) ms
  g.(g_refcount) g.(g_state) g.(pkey_index) g.(leave_state) g.(retries) g.(owner) g.(releases).
Definition set_ref (g : mcast_group) n := mk_group g.(rec) g.(pending_list) g.(active_list) g.(last_join) g.(members)
  n g.(g_state) g.(pkey_index) g.(leave_state) g.(retries) g.(owner) g.(releases).
Definition set_state (g : mcast_group) st := mk_group g.(rec) g.(pending_list) g.(active_list) g.(last_join) g.(members)
  g.(g_refcount) st g.(pkey_index) g.(leave_state) g.(retries) g.(owner) g.(releases).
Definition set_pkey_index (g : mcast_group) i := mk_group g.(rec) g.(pending_list) g.(active_list) g.(last_join) g.(members)
  g.(g_refcount) g.(g_state) i g.(leave_state) g.(retries) g.(owner) g.(releases).
Definition set_leave_state (g : mcast_group) l := mk_group g.(rec) g.(pending_list) g.(active_list) g.(last_join) g.(members)
  g.(g_refcount) g.(g_state) g.(pkey_index) l g.(retries) g.(owner) g.(releases).
Definition set_retries (g : mcast_group) n := mk_group g.(rec) g.(pending_list) g.(active_list) g.(last_join) g.(members)
  g.(g_refcount) g.(g_state) g.(pkey_index) g.(leave_state) n g.(owner) g.(releases).
Definition set_owner (g : mcast_group) o := mk_group g.(rec) g.(pending_list) g.(active_list) g.(last_join) g.(members)
  g.(g_refcount) g.(g_state) g.(pkey_index) g.(leave_state) g.(retries) o g.(releases).
Definition set_releases (g : mcast_group) n := mk_group g.(rec) g.(pending_list) g.(active_list) g.(last_join) g.(members)
  g.(g_refcount) g.(g_state) g.(pkey_index) g.(leave_state) g.(retries) g.(owner) n.

Definition with_rec (m : mcast_member) r := mk_member r m.(comp_mask) m.(group) m.(m_state) m.(m_refcount) m.(at_) m.(derefs) m.(called).
Definition with_group (m : mcast_member) g := mk_member m.(m_rec) m.(comp_mask) g m.(m_state) m.(m_refcount) m.(at_) m.(derefs) m.(called).
Definition with_state (m : mcast_member) st := mk_member m.(m_rec) m.(comp_mask) m.(group) st m.(m_refcount) m.(at_) m.(derefs) m.(called).
Definition with_ref (m : mcast_member) n := mk_member m.(m_rec) m.(comp_mask) m.(group) m.(m_state) n m.(at_) m.(derefs) m.(called).
Definition with_stage (m : mcast_member) s := mk_member m.(m_rec) m.(comp_mask) m.(group) m.(m_state) m.(m_refcount) s m.(derefs) m.(called).
Definition with_derefs (m : mcast_member) n := mk_member m.(m_rec) m.(comp_mask) m.(group) m.(m_state) m.(m_refcount) m.(at_) n m.(called).
Definition with_called (m : mcast_member) l := mk_member m.(m_rec) m.(comp_mask) m.(group) m.(m_state) m.(m_refcount) m.(at_) m.(derefs) l.

Definition put_group (p : mcast_port) (g : Z) (gr : mcast_group) : mcast_port :=
  mk_port (<[g := gr]> p.(groups)) p.(mcs) p.(table) p.(refcount) p.(retrying).
Definition put_member (p : mcast_port) (m : Z) (me : mcast_member) : mcast_port :=
  mk_port p.(groups) (<[m := me]> p.(mcs)) p.(table) p.(refcount) p.(retrying).

(** [list_del]: a node is in one list at most. *)
Definition unlist (m : Z) (l : list Z) : list Z := filter (.≠ m) l.
Definition list_del_init (g : mcast_group) (m : Z) : mcast_group :=
  set_lists g (unlist m g.(pending_list)) (unlist m g.(active_list)).

(** ** Membership and records *)

Fixpoint adjust_membership (members : list Z) (join_state inc : Z) : list Z :=
  match members with
  | [] => []
  | n :: members =>
      (if c_true (Z.land join_state 1) then n + inc else n) :: adjust_membership members (Z.shiftr join_state 1) inc
  end.

Fixpoint empty_states (members : list Z) (i : Z) : Z :=
  match members with
  | [] => 0
  | n :: members => Z.lor (if c_true n then 0 else Z.shiftl 1 i) (empty_states members (i + 1))
  end.

Definition get_leave_state (g : mcast_group) : Z :=
  Z.land (empty_states g.(members) 0) g.(rec).(join_state).

Definition IB_SA_COMP_MASK (n : Z) : Z := Z.shiftl 1 n.
Definition IB_SA_MCMEMBER_REC_PORT_GID : Z := IB_SA_COMP_MASK 1.
Definition IB_SA_MCMEMBER_REC_QKEY : Z := IB_SA_COMP_MASK 2.
Definition IB_SA_MCMEMBER_REC_MLID : Z := IB_SA_COMP_MASK 3.
Definition IB_SA_MCMEMBER_REC_MTU_SELECTOR : Z := IB_SA_COMP_MASK 4.
Definition IB_SA_MCMEMBER_REC_MTU : Z := IB_SA_COMP_MASK 5.
Definition IB_SA_MCMEMBER_REC_TRAFFIC_CLASS : Z := IB_SA_COMP_MASK 6.
Definition IB_SA_MCMEMBER_REC_PKEY : Z := IB_SA_COMP_MASK 7.
Definition IB_SA_MCMEMBER_REC_RATE_SELECTOR : Z := IB_SA_COMP_MASK 8.
Definition IB_SA_MCMEMBER_REC_RATE : Z := IB_SA_COMP_MASK 9.
Definition IB_SA_MCMEMBER_REC_PACKET_LIFE_TIME_SELECTOR : Z := IB_SA_COMP_MASK 10.
Definition IB_SA_MCMEMBER_REC_PACKET_LIFE_TIME : Z := IB_SA_COMP_MASK 11.
Definition IB_SA_MCMEMBER_REC_SL : Z := IB_SA_COMP_MASK 12.
Definition IB_SA_MCMEMBER_REC_FLOW_LABEL : Z := IB_SA_COMP_MASK 13.
Definition IB_SA_MCMEMBER_REC_HOP_LIMIT : Z := IB_SA_COMP_MASK 14.
Definition IB_SA_MCMEMBER_REC_SCOPE : Z := IB_SA_COMP_MASK 15.

Definition IB_SA_GT : Z := 0.
Definition IB_SA_LT : Z := 1.
Definition IB_SA_EQ : Z := 2.

Definition asked (mask bit : Z) : bool := c_true (Z.land mask bit).

Definition check_selector (mask selector_mask value_mask selector src_value dst_value : Z) : bool :=
  if negb (asked mask selector_mask) || negb (asked mask value_mask) then false
  else if selector =? IB_SA_GT then src_value <=? dst_value
  else if selector =? IB_SA_LT then dst_value <=? src_value
  else if selector =? IB_SA_EQ then negb (src_value =? dst_value)
  else false.

Definition cmp_rec (src dst : ib_sa_mcmember_rec) (mask : Z) : Z :=
  let differ bit f := asked mask bit && negb (f src =? f dst) in
  if differ IB_SA_MCMEMBER_REC_PORT_GID port_gid then - EINVAL
  else if differ IB_SA_MCMEMBER_REC_QKEY qkey then - EINVAL
  else if differ IB_SA_MCMEMBER_REC_MLID mlid then - EINVAL
  else if check_selector mask IB_SA_MCMEMBER_REC_MTU_SELECTOR IB_SA_MCMEMBER_REC_MTU
            dst.(mtu_selector) src.(mtu) dst.(mtu) then - EINVAL
  else if differ IB_SA_MCMEMBER_REC_TRAFFIC_CLASS traffic_class then - EINVAL
  else if differ IB_SA_MCMEMBER_REC_PKEY pkey then - EINVAL
  else if check_selector mask IB_SA_MCMEMBER_REC_RATE_SELECTOR IB_SA_MCMEMBER_REC_RATE
            dst.(rate_selector) src.(rate) dst.(rate) then - EINVAL
  else if check_selector mask IB_SA_MCMEMBER_REC_PACKET_LIFE_TIME_SELECTOR IB_SA_MCMEMBER_REC_PACKET_LIFE_TIME
            dst.(packet_life_time_selector) src.(packet_life_time) dst.(packet_life_time) then - EINVAL
  else if differ IB_SA_MCMEMBER_REC_SL sl then - EINVAL
  else if differ IB_SA_MCMEMBER_REC_FLOW_LABEL flow_label then - EINVAL
  else if differ IB_SA_MCMEMBER_REC_HOP_LIMIT hop_limit then - EINVAL
  else if differ IB_SA_MCMEMBER_REC_SCOPE scope then - EINVAL
  else 0.

(** ** Operations *)

Section operations.
Context `{RbTree}.

Definition mgid_of (p : mcast_port) (g : Z) : option Z := gr ← p.(groups) !! g; Some gr.(rec).(mgid).

(** Erasing a node that is not in the tree is undefined. *)
Definition erase (t : rb_root) (g : Z) : option rb_root :=
  if decide (g ∈ nodes t) then Some (rb_erase g t) else None.

(** With [kfree] and [deref_port] after the lock: nobody else knows the group. *)
Definition release_group (p : mcast_port) (g : Z) : option mcast_port :=
  gr ← p.(groups) !! g;
  if gr.(g_refcount) - 1 =? 0 then
    table ← erase p.(table) g;
    Some (mk_port (delete g p.(groups)) p.(mcs) table (p.(refcount) - 1) p.(retrying))
  else Some (put_group p g (set_ref gr (gr.(g_refcount) - 1))).

Definition refcount_inc (me : mcast_member) : mcast_member := with_ref me (me.(m_refcount) + 1).

(** The completion is done when the count is zero. *)
Definition deref_member (p : mcast_port) (m : Z) : option mcast_port :=
  me ← p.(mcs) !! m;
  Some (put_member p m (with_ref me (me.(m_refcount) - 1))).

(** [acquire_group] in two steps: the search, then a new group's insertion,
    whose memory the allocator names by [kzalloc]. A group found before the
    insertion is used instead. *)
Definition found (p : mcast_port) (m g : Z) : option mcast_port :=
  me ← p.(mcs) !! m;
  gr ← p.(groups) !! g;
  Some (put_member (put_group p g (set_ref gr (gr.(g_refcount) + 1))) m (with_stage (with_group me (Some g)) Queuing)).

Definition new_group (gid : Z) : mcast_group :=
  mk_group (zero_rec gid) [] [] None [0; 0; 0; 0] 0 MCAST_IDLE MCAST_INVALID_PKEY_INDEX 0 3 NoOwner 0.

Definition acquire_find (p : mcast_port) (m : Z) : option mcast_port :=
  me ← p.(mcs) !! m;
  let gid := me.(m_rec).(mgid) in
  if gid =? 0 then Some (put_member p m (with_stage me Allocating)) else
  ret ← mcast_find (mgid_of p) p.(table) gid;
  match ret with
  | Some g => found p m g
  | None => Some (put_member p m (with_stage me Allocating))
  end.

Definition acquire_insert (p : mcast_port) (m : Z) (kzalloc : option Z) : option mcast_port :=
  me ← p.(mcs) !! m;
  match kzalloc with
  | None => Some (mk_port p.(groups) (delete m p.(mcs)) p.(table) p.(refcount) p.(retrying))
  | Some g =>
      let gid := me.(m_rec).(mgid) in
      let p1 := put_group p g (new_group gid) in
      '(t, cur_group) ← mcast_insert (mgid_of p1) p.(table) g (gid =? 0);
      match cur_group with
      | Some cur => found p m cur
      | None => found (mk_port p1.(groups) p.(mcs) t (p.(refcount) + 1) p.(retrying)) m g
      end
  end.

(** The beginning of [ib_sa_join_multicast], the member's memory named by
    [kmalloc]; an error is returned at once. *)
Definition ib_sa_join_multicast (p : mcast_port) (client_data : bool) (kmalloc : option Z)
    (r : ib_sa_mcmember_rec) (mask : Z) : mcast_port * Z :=
  if negb client_data then (p, - ENODEV) else
  match kmalloc with
  | None => (p, - ENOMEM)
  | Some m => (put_member p m (mk_member r mask None MCAST_JOINING 1 Finding 0 []), 0)
  end.

(** Waking the thread of an idle group. *)
Definition queue_work (gr : mcast_group) : mcast_group := set_owner gr Retest.

Definition queue_join (p : mcast_port) (m : Z) : option mcast_port :=
  me ← p.(mcs) !! m;
  g ← me.(group);
  gr ← p.(groups) !! g;
  let gr := set_lists gr (gr.(pending_list) ++ [m]) gr.(active_list) in
  let gr := if decide (gr.(g_state) = MCAST_IDLE)
            then queue_work (set_ref (set_state gr MCAST_BUSY) (gr.(g_refcount) + 1)) else gr in
  Some (put_member (put_group p g gr) m (with_stage me Held)).

(** [ib_sa_free_multicast]: under the lock, [release_group] unless the reference
    went to the group's thread, [deref_member], and the end of the wait, after
    which the caller goes on; that is the group's thread if [cb]. *)
Definition ib_sa_free_multicast (p : mcast_port) (m : Z) (cb : bool) : option mcast_port :=
  me ← p.(mcs) !! m;
  g ← me.(group);
  gr ← p.(groups) !! g;
  let gr := if decide (me.(m_state) = MCAST_MEMBER)
            then set_members gr (adjust_membership gr.(members) me.(m_rec).(join_state) (-1)) else gr in
  let gr := list_del_init gr m in
  Some (if decide (gr.(g_state) = MCAST_IDLE)
        then put_member (put_group p g (queue_work (set_state gr MCAST_BUSY))) m (with_stage me (FreeDeref cb))
        else put_member (put_group p g gr) m (with_stage me (FreeRelease cb))).

Definition free_release (p : mcast_port) (m : Z) (cb : bool) : option mcast_port :=
  me ← p.(mcs) !! m;
  g ← me.(group);
  release_group (put_member p m (with_stage me (FreeDeref cb))) g.

Definition free_deref (p : mcast_port) (m : Z) (cb : bool) : option mcast_port :=
  me ← p.(mcs) !! m;
  deref_member (put_member p m (with_stage me (FreeWait cb))) m.

Definition free_kfree (p : mcast_port) (m : Z) (cb : bool) : option mcast_port :=
  me ← p.(mcs) !! m;
  let p := mk_port p.(groups) (delete m p.(mcs)) p.(table) p.(refcount) p.(retrying) in
  if cb then
    g ← me.(group);
    gr ← p.(groups) !! g;
    match gr.(owner) with
    | Blocked _ error => Some (put_group p g (set_owner gr (if error then ErrLoop else Retest)))
    | _ => None
    end
  else Some p.

(** The member joins; [list_move] puts it at the head. *)
Definition join_group (gr : mcast_group) (m : Z) (me : mcast_member) (js : Z) : mcast_group * mcast_member :=
  let me := with_state me MCAST_MEMBER in
  let gr := set_members gr (adjust_membership gr.(members) js 1) in
  let gr := set_rec gr (set_join_state gr.(rec) (Z.lor gr.(rec).(join_state) js)) in
  let me := with_rec me (set_join_state gr.(rec) js) in
  (set_lists gr (unlist m gr.(pending_list)) (m :: unlist m gr.(active_list)), me).

(** [mcast_work_handler], from taking the lock to leaving it. *)
Definition mcast_work_handler (p : mcast_port) (g : Z) : option mcast_port :=
  gr ← p.(groups) !! g;
  if decide (gr.(g_state) <> MCAST_BUSY) then Some (put_group p g (set_owner gr ErrEntry)) else
  match gr.(pending_list) with
  | m :: _ =>
      me ← p.(mcs) !! m;
      let js := me.(m_rec).(join_state) in
      let me := refcount_inc me in
      if js =? Z.land gr.(rec).(join_state) js then
        let status := cmp_rec gr.(rec) me.(m_rec) me.(comp_mask) in
        let '(gr, me) := if negb (c_true status) then join_group gr m me js else (list_del_init gr m, me) in
        Some (put_member (put_group p g (set_owner gr (Callback m status))) m me)
      else Some (put_member (put_group p g (set_owner gr (SendJoin m))) m me)
  | [] =>
      let js := get_leave_state gr in
      if c_true js
      then Some (put_group p g (set_owner (set_rec gr (set_join_state gr.(rec) (Z.ldiff gr.(rec).(join_state) js))) (SendLeave js)))
      else Some (put_group p g (set_releases (set_owner (set_state gr MCAST_IDLE) NoOwner) (S gr.(releases))))
  end.

(** After a callback that answered [ret]: the reference is dropped, and the
    member freed if [ret] is not zero. *)
Definition after_callback (p : mcast_port) (g m status ret : Z) (error : bool) : option mcast_port :=
  gr ← p.(groups) !! g;
  me ← p.(mcs) !! m;
  let me := with_called me (status :: me.(called)) in
  if c_true ret
  then deref_member (put_member (put_group p g (set_owner gr (Blocked m error))) m (with_stage me FreeLock)) m
  else deref_member (put_member (put_group p g (set_owner gr (if error then ErrLoop else Retest))) m me) m.

Definition callback (p : mcast_port) (g ret : Z) : option mcast_port :=
  gr ← p.(groups) !! g;
  match gr.(owner) with
  | Callback m status => after_callback p g m status ret false
  | ErrCallback m => after_callback p g m (- ENETRESET) ret true
  | _ => None
  end.

(** [send_join]; [ret] is what [ib_sa_mcmember_rec_query] answers. The sender
    drops its reference later, when the answer may already be there. *)
Definition send_join (p : mcast_port) (g m ret : Z) : option mcast_port :=
  gr ← p.(groups) !! g;
  me ← p.(mcs) !! m;
  let gr := set_last_join gr (Some m) in
  let ret := if 0 <? ret then 0 else ret in
  if c_true ret then Some (put_group p g (set_owner gr (FailJoin m ret)))
  else Some (put_member (put_group p g (set_owner gr WaitJoin)) m (with_derefs me (S me.(derefs)))).

Definition sender_deref (p : mcast_port) (m : Z) : option mcast_port :=
  me ← p.(mcs) !! m;
  deref_member (put_member p m (with_derefs me (Nat.pred me.(derefs)))) m.

Definition fail_join (p : mcast_port) (g m status : Z) : option mcast_port :=
  gr ← p.(groups) !! g;
  _ ← p.(mcs) !! m;
  Some (put_group p g (set_owner (list_del_init gr m) (Callback m status))).

(** [send_leave] with the query's answer, and the group afterwards. *)
Definition send_leave (gr : mcast_group) (leave ret : Z) : mcast_group * Z :=
  (set_leave_state gr leave, if 0 <? ret then 0 else ret).

Definition leave_sent (p : mcast_port) (g leave ret : Z) : option mcast_port :=
  gr ← p.(groups) !! g;
  let '(gr, ret) := send_leave gr leave ret in
  Some (put_group p g (set_owner gr (if c_true ret then Retest else WaitLeave))).

(** [process_group_error]: the look at the P_Key table, which answers the index
    if it finds the key, and the parts under the lock. *)
Definition find_pkey (p : mcast_port) (g : Z) (answer : option Z) : option mcast_port :=
  gr ← p.(groups) !! g;
  Some (put_group p g (set_owner gr (ErrStart (if decide (gr.(g_state) = MCAST_PKEY_EVENT) then Some answer else None)))).

Definition error_loop (p : mcast_port) (g : Z) : option mcast_port :=
  gr ← p.(groups) !! g;
  match gr.(active_list) with
  | m :: _ =>
      me ← p.(mcs) !! m;
      let gr := list_del_init gr m in
      let gr := set_members gr (adjust_membership gr.(members) me.(m_rec).(join_state) (-1)) in
      Some (put_member (put_group p g (set_owner gr (ErrCallback m))) m (with_state (refcount_inc me) MCAST_ERROR))
  | [] =>
      Some (put_group p g (set_owner (set_state (set_rec gr (set_join_state gr.(rec) 0)) MCAST_BUSY) Retest))
  end.

(** The condition reads [pkey_index] only when the table was asked and has the
    key; when it was not asked the variable has no value. *)
Definition process_group_error (p : mcast_port) (g : Z) (index : option (option Z)) : option mcast_port :=
  gr ← p.(groups) !! g;
  let unmoved := put_group p g (set_owner (set_state gr MCAST_BUSY) Retest) in
  if decide (gr.(g_state) = MCAST_PKEY_EVENT) then
    match index with
    | None => None
    | Some (Some i) => if gr.(pkey_index) =? i then Some unmoved else error_loop p g
    | Some None => error_loop p g
    end
  else error_loop p g.

(** [process_join_error]: the first of the pending list is failed if it is the
    member the join was sent for. *)
Definition process_join_error (p : mcast_port) (g status : Z) : option mcast_port :=
  gr ← p.(groups) !! g;
  match gr.(pending_list) with
  | m :: _ =>
      if decide (gr.(last_join) = Some m) then
        me ← p.(mcs) !! m;
        Some (put_member (put_group p g (set_owner (list_del_init gr m) (Callback m status))) m (refcount_inc me))
      else Some (put_group p g (set_owner gr Retest))
  | [] => Some (put_group p g (set_owner gr Retest))
  end.

(** [join_handler] up to [mcast_work_handler]; [index] is what [ib_find_pkey]
    answers for the P_Key of the record. *)
Definition join_handler (p : mcast_port) (g status : Z) (r : ib_sa_mcmember_rec) (index : option Z) : option mcast_port :=
  if c_true status then process_join_error p g status else
  gr ← p.(groups) !! g;
  let index := default MCAST_INVALID_PKEY_INDEX index in
  let gr' := if bool_decide (gr.(g_state) = MCAST_BUSY) && (gr.(pkey_index) =? MCAST_INVALID_PKEY_INDEX)
             then set_pkey_index gr index else gr in
  let mgids_changed := negb (r.(mgid) =? gr.(rec).(mgid)) in
  let p := put_group p g (set_owner (set_rec gr' r) Retest) in
  if mgids_changed then
    t ← erase p.(table) g;
    '(t, _) ← mcast_insert (mgid_of p) t g (r.(mgid) =? 0);
    Some (mk_port p.(groups) p.(mcs) t p.(refcount) p.(retrying))
  else Some p.

(** [leave_handler] up to [mcast_work_handler]; [ret] is the answer to the query
    sent again. *)
Definition leave_handler (p : mcast_port) (g status ret : Z) : option mcast_port :=
  gr ← p.(groups) !! g;
  if c_true status && (0 <? gr.(retries)) then
    let '(gr, ret) := send_leave gr gr.(leave_state) ret in
    if negb (c_true ret)
    then Some (mk_port (<[g := set_owner gr WaitLeave]> p.(groups)) p.(mcs) p.(table) p.(refcount) (g :: p.(retrying)))
    else Some (put_group p g (set_owner gr Retest))
  else Some (put_group p g (set_owner gr Retest)).

Definition retry_counted (p : mcast_port) (g : Z) : option mcast_port :=
  gr ← p.(groups) !! g;
  Some (mk_port (<[g := set_retries gr (gr.(retries) - 1)]> p.(groups)) p.(mcs) p.(table) p.(refcount) (unlist g p.(retrying))).

(** The release of a former owner. *)
Definition idle_release (p : mcast_port) (g : Z) : option mcast_port :=
  gr ← p.(groups) !! g;
  release_group (put_group p g (set_releases gr (Nat.pred gr.(releases)))) g.

Definition group_event (st : mcast_group_state) (gr : mcast_group) : mcast_group :=
  let gr' := if decide (gr.(g_state) = MCAST_IDLE) then queue_work (set_ref gr (gr.(g_refcount) + 1)) else gr in
  if decide (gr.(g_state) <> MCAST_GROUP_ERROR) then set_state gr' st else gr'.

(** Under the port's lock, over the groups of the table; what other threads do
    to a group under its own lock commutes with the turns of the other groups. *)
Fixpoint groups_event (p : mcast_port) (gs : list Z) (st : mcast_group_state) : option mcast_port :=
  match gs with
  | [] => Some p
  | g :: gs =>
      gr ← p.(groups) !! g;
      groups_event (put_group p g (group_event st gr)) gs st
  end.

Definition mcast_groups_event (p : mcast_port) (st : mcast_group_state) : option mcast_port :=
  groups_event p (nodes p.(table)) st.

(** Events: port error, LID change and client re-registration; P_Key change. *)
Inductive ib_event_type := IB_EVENT_PORT_ERR | IB_EVENT_LID_CHANGE | IB_EVENT_CLIENT_REREGISTER
  | IB_EVENT_PKEY_CHANGE | IB_EVENT_OTHER.

Definition mcast_event_handler (p : mcast_port) (rdma_cap_ib_mcast : bool) (event : ib_event_type) : option mcast_port :=
  if negb rdma_cap_ib_mcast then Some p else
  match event with
  | IB_EVENT_PORT_ERR | IB_EVENT_LID_CHANGE | IB_EVENT_CLIENT_REREGISTER => mcast_groups_event p MCAST_GROUP_ERROR
  | IB_EVENT_PKEY_CHANGE => mcast_groups_event p MCAST_PKEY_EVENT
  | IB_EVENT_OTHER => Some p
  end.

(** The record of the group of an MGID; [EADDRNOTAVAIL] is 99. *)
Definition ib_sa_get_mcmember_rec (p : mcast_port) (client_data : bool) (gid : Z) : option (Z + ib_sa_mcmember_rec) :=
  if negb client_data then Some (inl (- ENODEV)) else
  ret ← mcast_find (mgid_of p) p.(table) gid;
  match ret with
  | Some g => gr ← p.(groups) !! g; Some (inr gr.(rec))
  | None => Some (inl (-99))
  end.

(** A port as [mcast_add_one] leaves it. *)
Definition mcast_add_one : mcast_port := mk_port ∅ ∅ RB_EMPTY 1 [].

(** ** Steps *)

Inductive step :=
  | Join (client_data : bool) (kmalloc : option Z) (r : ib_sa_mcmember_rec) (mask : Z)
  | AcquireFind (m : Z)
  | AcquireInsert (m : Z) (kzalloc : option Z)
  | QueueJoin (m : Z)
  | Free (m : Z) (cb : bool)
  | DoRelease (m : Z) (cb : bool)
  | DoDeref (m : Z) (cb : bool)
  | DoKfree (m : Z) (cb : bool)
  | Work (g : Z)
  | UserCallback (g ret : Z)
  | DoSendJoin (g m ret : Z)
  | SenderDeref (m : Z)
  | DoFailJoin (g m status : Z)
  | DoSendLeave (g leave ret : Z)
  | DoFindPkey (g : Z) (answer : option Z)
  | DoError (g : Z) (index : option (option Z))
  | DoErrorLoop (g : Z)
  | JoinAnswer (g status : Z) (r : ib_sa_mcmember_rec) (index : option Z)
  | LeaveAnswer (g status ret : Z)
  | RetryCounted (g : Z)
  | IdleRelease (g : Z)
  | Event (cap : bool) (event : ib_event_type).

Definition exec (p : mcast_port) (s : step) : option mcast_port :=
  match s with
  | Join data k r mask => Some (ib_sa_join_multicast p data k r mask).1
  | AcquireFind m => acquire_find p m
  | AcquireInsert m k => acquire_insert p m k
  | QueueJoin m => queue_join p m
  | Free m cb => ib_sa_free_multicast p m cb
  | DoRelease m cb => free_release p m cb
  | DoDeref m cb => free_deref p m cb
  | DoKfree m cb => free_kfree p m cb
  | Work g => mcast_work_handler p g
  | UserCallback g ret => callback p g ret
  | DoSendJoin g m ret => send_join p g m ret
  | SenderDeref m => sender_deref p m
  | DoFailJoin g m status => fail_join p g m status
  | DoSendLeave g leave ret => leave_sent p g leave ret
  | DoFindPkey g answer => find_pkey p g answer
  | DoError g index => process_group_error p g index
  | DoErrorLoop g => error_loop p g
  | JoinAnswer g status r index => join_handler p g status r index
  | LeaveAnswer g status ret => leave_handler p g status ret
  | RetryCounted g => retry_counted p g
  | IdleRelease g => idle_release p g
  | Event cap e => mcast_event_handler p cap e
  end.

Fixpoint run (p : mcast_port) (l : list step) : option mcast_port :=
  match l with [] => Some p | s :: l => p ← exec p s; run p l end.
End operations.
