(* ===== verification/MulticastSafe.v ===== *)
(** Multicast groups, proved: the contract of the users and of the subnet
    administrator, the invariant of groups and members, that every step of
    Multicast.v keeps it, and what follows for whole runs.

    Reference counts are counted: that of a group counts the members that hold
    it, its thread, and former threads; that of a member its user, the group's
    thread and senders. A step changes one group and one member at most ([one
    group], [one member], [both]), except an event. *)

From stdpp Require Import sorting.
From S2P Require Import Prelude Counting McastTable Multicast.
#[local] Open Scope Z_scope.

(** ** Membership counts *)

Definition states : list Z := [0; 1; 2; 3].
#[global] Arguments states : simpl never.

Lemma odd_bit j : c_true (Z.land j 1) = Z.testbit j 0.
Proof. change 1 with (Z.ones 1). rewrite Z.land_ones by lia. rewrite Zmod_odd, Z.bit0_odd. by destruct (Z.odd j). Qed.

Lemma adjust_membership_map (f : Z -> Z) js inc :
  adjust_membership (map f states) js inc = map (fun i => f i + (if Z.testbit js i then inc else 0)) states.
Proof.
  unfold states. cbn [map adjust_membership]. rewrite !odd_bit, !Z.shiftr_spec by lia.
  change (0 + 1 + 1 + 1) with 3. change (0 + 1 + 1) with 2. change (0 + 1) with 1.
  by destruct (Z.testbit js 0), (Z.testbit js 1), (Z.testbit js 2), (Z.testbit js 3); rewrite ?Z.add_0_r.
Qed.

(** Bit [i] of the state to leave: the administrator has it, no member does. *)
Lemma empty_states_bit (f : Z -> Z) i :
  0 <= i -> Z.testbit (empty_states (map f states) 0) i = (i <? 4) && (f i =? 0).
Proof.
  intros Hi. unfold states. cbn [map empty_states]. unfold c_true.
  change (0 + 1 + 1 + 1) with 3. change (0 + 1 + 1) with 2. change (0 + 1) with 1.
  rewrite !Z.lor_spec, Z.testbit_0_l.
  assert (Hb : forall k, 0 <= k -> Z.testbit (if negb (f k =? 0) then 0 else Z.shiftl 1 k) i = (i =? k) && (f k =? 0)).
  { intros k Hk. destruct (Z.eqb_spec (f k) 0); cbn [negb]; [|by rewrite Z.testbit_0_l, andb_false_r].
    rewrite Z.shiftl_1_l, Z.pow2_bits_eqb by lia. rewrite andb_true_r. apply Z.eqb_sym. }
  rewrite !Hb, orb_false_r by lia.
  destruct (decide (i < 4)) as [Hlt|Hge].
  - assert (i = 0 \/ i = 1 \/ i = 2 \/ i = 3) as [-> | [-> | [-> | ->]]] by lia; cbn; by rewrite ?orb_false_r.
  - rewrite (proj2 (Z.ltb_ge i 4)) by lia. rewrite !(proj2 (Z.eqb_neq i _)) by lia. done.
Qed.

Lemma land_subset_bits x js : Z.land x js = js <-> forall i, 0 <= i -> Z.testbit js i = true -> Z.testbit x i = true.
Proof.
  split.
  - intros E i Hi Hb. rewrite <- E, Z.land_spec in Hb. by apply andb_prop in Hb as [? _].
  - intros Hsub. apply Z.bits_inj'. intros i Hi. rewrite Z.land_spec. destruct (Z.testbit js i) eqn:E; [|apply andb_false_r].
    by rewrite (Hsub i Hi E).
Qed.

(** ** The invariant *)

Definition attached (me : mcast_member) : bool := match me.(at_) with Held | FreeLock => true | _ => false end.

Definition holding (me : mcast_member) : bool :=
  match me.(at_) with Queuing | Held | FreeLock | FreeRelease _ => true | _ => false end.

(** Queued by its user, now or before. *)
Definition queued (me : mcast_member) : bool :=
  match me.(at_) with Finding | Allocating | Queuing => false | _ => true end.

(** Freed by the thread of its group. *)
Definition freed_by_cb (me : mcast_member) : bool :=
  match me.(at_) with FreeLock | FreeRelease true | FreeDeref true | FreeWait true => true | _ => false end.

Definition in_group (g : Z) (me : mcast_member) : bool := bool_decide (me.(group) = Some g).

Definition holds_group (g : Z) (me : mcast_member) : bool := in_group g me && holding me.

Definition is_active (g : Z) (me : mcast_member) : bool :=
  in_group g me && attached me && bool_decide (me.(m_state) = MCAST_MEMBER).

Definition active_in (g i : Z) (me : mcast_member) : bool := is_active g me && Z.testbit me.(m_rec).(join_state) i.

(** The member a thread holds a reference to. *)
Definition holds (o : thread) (m : Z) : bool :=
  match o with Callback m' _ | SendJoin m' | FailJoin m' _ | ErrCallback m' => m' =? m | _ => false end.

(** The member a thread deals with. *)
Definition subject (o : thread) : option Z :=
  match o with Callback m _ | SendJoin m | FailJoin m _ | ErrCallback m | Blocked m _ => Some m | _ => None end.

Definition owned (gr : mcast_group) : Z := match gr.(owner) with NoOwner => 0 | _ => 1 end.

Section invariant.
Context `{RbTreeLaws}.

(** Whether the subnet administrator is assumed to confirm what it granted. *)
Variable granted : Prop.

Definition thread_ok (mcs : gmap Z mcast_member) (g : Z) (gr : mcast_group) : Prop :=
  match gr.(owner) with
  | Callback m status => exists me, mcs !! m = Some me /\ me.(group) = Some g /\ queued me = true /\ m ∉ gr.(pending_list) /\ me.(called) = [] /\
      me.(m_state) = if status =? 0 then MCAST_MEMBER else MCAST_JOINING
  | SendJoin m => exists me, mcs !! m = Some me /\ me.(group) = Some g /\ queued me = true /\ me.(called) = [] /\ me.(m_state) = MCAST_JOINING
  | FailJoin m status => status <> 0 /\
      exists me, mcs !! m = Some me /\ me.(group) = Some g /\ queued me = true /\ me.(called) = [] /\ me.(m_state) = MCAST_JOINING
  | ErrCallback m => exists me, mcs !! m = Some me /\ me.(group) = Some g /\ queued me = true /\ me.(called) = [0] /\ me.(m_state) = MCAST_ERROR
  | ErrEntry => gr.(g_state) <> MCAST_BUSY
  | ErrStart None => gr.(g_state) = MCAST_GROUP_ERROR
  | Blocked m _ => exists me, mcs !! m = Some me /\ me.(group) = Some g /\ freed_by_cb me = true
  | _ => True
  end.

Definition pending_ok (g : Z) (me : mcast_member) : Prop :=
  me.(group) = Some g /\ attached me = true /\ me.(m_state) = MCAST_JOINING /\ me.(called) = [].

Definition granted_ok (g : Z) (gr : mcast_group) (me : mcast_member) : Prop :=
  is_active g me = true -> Z.land gr.(rec).(join_state) me.(m_rec).(join_state) = me.(m_rec).(join_state).

Record group_ok (mcs : gmap Z mcast_member) (g : Z) (gr : mcast_group) : Prop := {
  go_ref : gr.(g_refcount) = count (holds_group g) mcs + owned gr + Z.of_nat gr.(releases);
  go_idle : gr.(g_state) = MCAST_IDLE <-> gr.(owner) = NoOwner;
  go_rest : gr.(owner) = NoOwner -> gr.(pending_list) = [] /\ get_leave_state gr = 0;
  go_lists : NoDup (gr.(pending_list) ++ gr.(active_list));
  go_active : forall m, m ∈ gr.(active_list) <-> exists me, mcs !! m = Some me /\ is_active g me = true;
  go_pending : forall m, m ∈ gr.(pending_list) -> exists me, mcs !! m = Some me /\ pending_ok g me;
  go_members : gr.(members) = map (fun i => count (active_in g i) mcs) states;
  go_thread : thread_ok mcs g gr;
  go_granted : granted -> forall m me, mcs !! m = Some me -> granted_ok g gr me
}.

(** References of the group's thread to a member. *)
Definition thread_refs (groups : gmap Z mcast_group) (m : Z) (me : mcast_member) : Z :=
  match me.(group) with
  | Some g => from_option (fun gr => c_bool (holds gr.(owner) m)) 0 (groups !! g)
  | None => 0
  end.

(** What a member has been told. *)
Definition called_ok (groups : gmap Z mcast_group) (m : Z) (me : mcast_member) : Prop :=
  match me.(m_state) with
  | MCAST_JOINING => me.(called) = [] \/ exists status, status <> 0 /\ me.(called) = [status]
  | MCAST_MEMBER => me.(called) = [0] \/
      me.(called) = [] /\ exists g gr, me.(group) = Some g /\ groups !! g = Some gr /\ gr.(owner) = Callback m 0
  | MCAST_ERROR => me.(called) = [- ENETRESET; 0] \/ me.(called) = [0]
  end.

Record member_ok (groups : gmap Z mcast_group) (m : Z) (me : mcast_member) : Prop := {
  mo_ref : me.(m_refcount) = (match me.(at_) with FreeWait _ => 0 | _ => 1 end) + Z.of_nat me.(derefs) + thread_refs groups m me;
  mo_group : holding me = true -> exists g gr, me.(group) = Some g /\ groups !! g = Some gr;
  mo_cb : freed_by_cb me = true ->
    exists g gr e, me.(group) = Some g /\ groups !! g = Some gr /\ gr.(owner) = Blocked m e;
  mo_new : match me.(at_) with
           | Finding | Allocating => me.(group) = None /\ me.(m_state) = MCAST_JOINING /\ me.(called) = []
           | Queuing => me.(m_state) = MCAST_JOINING /\ me.(called) = []
           | _ => is_Some me.(group)
           end;
  mo_called : called_ok groups m me
}.

Record table_ok (p : mcast_port) : Prop := {
  to_nodup : NoDup (nodes p.(table));
  to_linked : forall g, g ∈ nodes p.(table) <-> is_Some (p.(groups) !! g);
  to_ordered : ordered (mgid_of p) (nodes p.(table));
  to_refcount : p.(refcount) = 1 + Z.of_nat (size p.(groups));
  to_retrying : forall g, g ∈ p.(retrying) -> exists gr, p.(groups) !! g = Some gr /\ gr.(owner) = WaitLeave
}.

Record inv (p : mcast_port) : Prop := {
  inv_table : table_ok p;
  inv_groups : forall g gr, p.(groups) !! g = Some gr -> group_ok p.(mcs) g gr;
  inv_members : forall m me, p.(mcs) !! m = Some me -> member_ok p.(groups) m me
}.

(** ** The contract *)

Definition at_stage (p : mcast_port) (m : Z) (s : stage) : Prop := exists me, p.(mcs) !! m = Some me /\ me.(at_) = s.

Definition at_thread (p : mcast_port) (g : Z) (o : thread) : Prop :=
  exists gr, p.(groups) !! g = Some gr /\ gr.(owner) = o.

(** When a step can come: a thread is where the step starts, the allocator names
    unused memory, a completion that is waited for is done, users free a member
    once, and the administrator's answer to a join has the group's MGID, or one
    that no group of the port has; a retry is counted before its answer comes. *)
Definition enabled (p : mcast_port) (s : step) : Prop :=
  match s with
  | Join _ k _ _ => forall m, k = Some m -> p.(mcs) !! m = None
  | AcquireFind m => at_stage p m Finding
  | AcquireInsert m k => at_stage p m Allocating /\ forall g, k = Some g -> p.(groups) !! g = None
  | QueueJoin m => at_stage p m Queuing
  | Free m cb => at_stage p m (if cb then FreeLock else Held)
  | DoRelease m cb => at_stage p m (FreeRelease cb)
  | DoDeref m cb => at_stage p m (FreeDeref cb)
  | DoKfree m cb => exists me, p.(mcs) !! m = Some me /\ me.(at_) = FreeWait cb /\ me.(m_refcount) = 0
  | Work g => at_thread p g Retest
  | UserCallback g ret => exists gr m, p.(groups) !! g = Some gr /\
      ((exists status, gr.(owner) = Callback m status) \/ gr.(owner) = ErrCallback m) /\
      (ret <> 0 -> at_stage p m Held)
  | DoSendJoin g m _ => at_thread p g (SendJoin m)
  | SenderDeref m => exists me, p.(mcs) !! m = Some me /\ (0 < me.(derefs))%nat
  | DoFailJoin g m status => at_thread p g (FailJoin m status)
  | DoSendLeave g leave _ => at_thread p g (SendLeave leave)
  | DoFindPkey g _ => at_thread p g ErrEntry
  | DoError g index => at_thread p g (ErrStart index)
  | DoErrorLoop g => at_thread p g ErrLoop
  | JoinAnswer g status r _ => exists gr, p.(groups) !! g = Some gr /\ gr.(owner) = WaitJoin /\
      (status = 0 -> r.(mgid) = gr.(rec).(mgid) \/ r.(mgid) = 0 \/ (forall g', mgid_of p g' <> Some r.(mgid))) /\
      (status = 0 -> granted -> Z.land r.(join_state) gr.(rec).(join_state) = gr.(rec).(join_state))
  | LeaveAnswer g _ _ => at_thread p g WaitLeave /\ g ∉ p.(retrying)
  | RetryCounted g => g ∈ p.(retrying)
  | IdleRelease g => exists gr, p.(groups) !! g = Some gr /\ (0 < gr.(releases))%nat
  | Event _ _ => True
  end.

(** ** What steps leave alone *)

(** What a group sees of a member that holds it, and of one its thread deals
    with. *)
Definition live (g : Z) (mo : option mcast_member) : option (bool * mcast_state * Z * list Z) :=
  me ← mo;
  if in_group g me && holding me then Some (attached me, me.(m_state), me.(m_rec).(join_state), me.(called)) else None.

Definition full (g : Z) (mo : option mcast_member) : option (mcast_state * list Z * bool * bool) :=
  me ← mo; if in_group g me then Some (me.(m_state), me.(called), freed_by_cb me, queued me) else None.

Lemma in_group_spec g me : in_group g me = true <-> me.(group) = Some g.
Proof. apply bool_decide_eq_true. Qed.

Lemma attached_holding me : attached me = true -> holding me = true.
Proof. unfold attached, holding. by destruct (at_ me). Qed.

Lemma is_active_spec g me : is_active g me = true <-> me.(group) = Some g /\ attached me = true /\ me.(m_state) = MCAST_MEMBER.
Proof. unfold is_active. rewrite !andb_true_iff, bool_decide_eq_true, in_group_spec. tauto. Qed.

Lemma live_active g mo mo' : live g mo = live g mo' ->
  (forall i, from_option (active_in g i) false mo = from_option (active_in g i) false mo') /\
  from_option (holds_group g) false mo = from_option (holds_group g) false mo' /\
  from_option (is_active g) false mo = from_option (is_active g) false mo'.
Proof.
  assert (Hactive : forall me, in_group g me && holding me = false -> is_active g me = false).
  { intros me Hf. destruct (is_active g me) eqn:E; [|done]. apply is_active_spec in E as (Hg%in_group_spec & Ha%attached_holding & _).
    by rewrite Hg, Ha in Hf. }
  destruct mo as [me|], mo' as [me'|]; cbn; unfold holds_group, active_in.
  - destruct (in_group g me && holding me) eqn:E, (in_group g me' && holding me') eqn:E'; intros [=].
    + apply andb_prop in E as [Hg _], E' as [Hg' _]. unfold is_active. rewrite Hg, Hg'. cbn [andb].
      replace (attached me') with (attached me) by done. replace (m_state me') with (m_state me) by done.
      replace (join_state (m_rec me')) with (join_state (m_rec me)) by done. done.
    + rewrite (Hactive me E), (Hactive me' E'). done.
  - destruct (in_group g me && holding me) eqn:E; intros [=]. rewrite (Hactive me E). done.
  - destruct (in_group g me' && holding me') eqn:E; intros [=]. rewrite (Hactive me' E). done.
  - done.
Qed.

Lemma live_Some g me mo' : live g (Some me) = live g mo' -> me.(group) = Some g -> holding me = true ->
  exists me', mo' = Some me' /\ me'.(group) = Some g /\ attached me' = attached me /\ me'.(m_state) = me.(m_state) /\
    me'.(m_rec).(join_state) = me.(m_rec).(join_state) /\ me'.(called) = me.(called).
Proof.
  cbn. intros E Hg%in_group_spec Hh. rewrite Hg, Hh in E. destruct mo' as [me'|]; cbn in E; [|done].
  destruct (in_group g me' && holding me') eqn:E'; [|done]. apply andb_prop in E' as [Hg'%in_group_spec _].
  injection E as E1 E2 E3 E4. exists me'. done.
Qed.

Lemma full_Some g me mo' : full g (Some me) = full g mo' -> me.(group) = Some g ->
  exists me', mo' = Some me' /\ me'.(group) = Some g /\ me'.(m_state) = me.(m_state) /\ me'.(called) = me.(called) /\
    freed_by_cb me' = freed_by_cb me /\ queued me' = queued me.
Proof.
  cbn. intros E Hg%in_group_spec. rewrite Hg in E. destruct mo' as [me'|]; cbn in E; [|done].
  destruct (in_group g me') eqn:Hg'; [|done]. apply in_group_spec in Hg'. injection E as E1 E2 E3 E4. exists me'. done.
Qed.

Lemma thread_ok_ext mcs mcs' g gr :
  (forall m, subject gr.(owner) = Some m -> full g (mcs !! m) = full g (mcs' !! m)) ->
  thread_ok mcs g gr -> thread_ok mcs' g gr.
Proof.
  unfold thread_ok. intros Hs. destruct (owner gr); cbn in Hs; try done; specialize (Hs m eq_refl);
    [| |intros [Hst Hme]; split; [done|]; revert Hme| |]; intros (me & Hm & Hg & Hrest); rewrite Hm in Hs;
    destruct (full_Some g me _ Hs Hg) as (me' & Hm' & Hg' & Est & Ecalled & Efreed & Eq);
    exists me'; rewrite ?Est, ?Ecalled, ?Efreed, ?Eq; done.
Qed.

Lemma thread_ok_put mcs g gr gr' :
  gr'.(owner) = gr.(owner) ->
  (forall m, m ∈ gr'.(pending_list) -> m ∈ gr.(pending_list) \/ subject gr.(owner) <> Some m) ->
  (gr.(g_state) = MCAST_GROUP_ERROR -> gr'.(g_state) = MCAST_GROUP_ERROR) ->
  (gr.(g_state) <> MCAST_BUSY -> gr'.(g_state) <> MCAST_BUSY) ->
  thread_ok mcs g gr -> thread_ok mcs g gr'.
Proof.
  unfold thread_ok. intros -> Hp Hs Hb. destruct (owner gr) as [| |m status| | | | | | |[]| | |]; try done.
  intros (me & Hm & Hg & Hq & Hnp & Hrest). exists me. split; [done|]. split; [done|]. split; [done|]. split; [|done].
  intros Hin. by destruct (Hp m Hin).
Qed.

(** A group is as it was if what it sees of the members is. *)
Lemma group_ok_ext mcs mcs' g gr :
  (forall m, live g (mcs !! m) = live g (mcs' !! m)) ->
  (forall m, subject gr.(owner) = Some m -> full g (mcs !! m) = full g (mcs' !! m)) ->
  group_ok mcs g gr -> group_ok mcs' g gr.
Proof.
  intros Hlive Hfull [Href Hidle Hrest Hlists Hact Hpend Hmem Hthr Hgr].
  assert (Hin : forall m, (exists me, mcs !! m = Some me /\ is_active g me = true) <->
    (exists me, mcs' !! m = Some me /\ is_active g me = true)).
  { intros m. destruct (live_active _ _ _ (Hlive m)) as (_ & _ & Ha).
    destruct (mcs !! m) as [me|], (mcs' !! m) as [me'|]; cbn in Ha; split; intros (x & [= <-] & Hx);
      first [(eexists; split; [done|congruence]) | congruence]. }
  split; try done.
  - rewrite Href. do 2 f_equal. apply count_ext. intros m. apply (live_active _ _ _ (Hlive m)).
  - intros m. by rewrite Hact, Hin.
  - intros m Hm. destruct (Hpend m Hm) as (me & Em & Hg & Hat & Hst & Hc). specialize (Hlive m). rewrite Em in Hlive.
    destruct (live_Some _ _ _ Hlive Hg (attached_holding _ Hat)) as (me' & Em' & Hg' & Hat' & Hst' & _ & Hc').
    exists me'. split; [done|]. unfold pending_ok. rewrite Hat', Hst', Hc'. done.
  - rewrite Hmem. apply map_ext. intros i. apply count_ext. intros m. apply (live_active _ _ _ (Hlive m)).
  - by apply (thread_ok_ext mcs).
  - intros Hgt m me' Em' Ha. pose proof (proj1 (is_active_spec _ _) Ha) as (Hg' & Hat' & _).
    specialize (Hlive m). rewrite Em' in Hlive. symmetry in Hlive.
    destruct (live_Some _ _ _ Hlive Hg' (attached_holding _ Hat')) as (me & Em & Hg & Hat & Hst & Hjs & _).
    rewrite <- Hjs. apply (Hgr Hgt m me Em). apply is_active_spec. rewrite Hat, Hst. by apply is_active_spec in Ha as (_ & ? & ?).
Qed.

(** A member is as it was if its group's thread does the same with it. *)
Definition same_thread (m : Z) (o o' : thread) : Prop := o' = o \/ (subject o <> Some m /\ subject o' <> Some m).

Lemma holds_subject o m : holds o m = true -> subject o = Some m.
Proof. destruct o; cbn; try done; intros ->%Z.eqb_eq; done. Qed.

Lemma member_ok_ext groups groups' m me :
  (forall g, me.(group) = Some g ->
    (exists gr gr', groups !! g = Some gr /\ groups' !! g = Some gr' /\ same_thread m gr.(owner) gr'.(owner)) \/
    (groups !! g = groups' !! g) \/
    (holding me = false /\ from_option (fun gr => subject gr.(owner)) None (groups !! g) <> Some m /\
     from_option (fun gr => subject gr.(owner)) None (groups' !! g) <> Some m)) ->
  member_ok groups m me -> member_ok groups' m me.
Proof.
  intros Hs [Href Hgrp Hcb Hnew Hcalled].
  assert (Hno : forall o, subject o <> Some m -> holds o m = false).
  { intros o Ho. destruct (holds o m) eqn:E; [|done]. by apply holds_subject in E. }
  split; [| | |done|].
  - rewrite Href. f_equal. unfold thread_refs. destruct (group me) as [g|]; [|done].
    destruct (Hs g eq_refl) as [(gr & gr' & -> & -> & Hst) | [-> | (_ & H1 & H2)]]; cbn.
    + destruct Hst as [-> | [H1 H2]]; [done|by rewrite !Hno].
    + done.
    + destruct (groups !! g), (groups' !! g); cbn in *; rewrite ?Hno by done; done.
  - intros Hh. destruct (Hgrp Hh) as (g & gr & Eg & E). exists g.
    destruct (Hs g Eg) as [(gr0 & gr' & _ & E' & _) | [Ee | (Hf & _)]]; [by exists gr'|exists gr; by rewrite <- Ee|congruence].
  - intros Hf. destruct (Hcb Hf) as (g & gr & e & Eg & E & Eo).
    destruct (Hs g Eg) as [(gr0 & gr' & E0 & E' & Hst) | [Ee | (_ & Hn & _)]]; [| |rewrite E in Hn; cbn in Hn; by rewrite Eo in Hn].
    + simplify_eq. exists g, gr', e. split; [done|]. split; [done|]. destruct Hst as [Hst|[Hn _]]; [by rewrite Hst|by rewrite Eo in Hn].
    + exists g, gr, e. by rewrite <- Ee.
  - unfold called_ok in *. destruct (m_state me); [done| |done]. destruct Hcalled as [?|(Hc & g & gr & Eg & E & Eo)]; [by left|].
    right. split; [done|]. destruct (Hs g Eg) as [(gr0 & gr' & E0 & E' & Hst) | [Ee | (_ & Hn & _)]];
      [| |rewrite E in Hn; cbn in Hn; by rewrite Eo in Hn].
    + simplify_eq. exists g, gr'. split; [done|]. split; [done|]. destruct Hst as [Hst|[Hn _]]; [by rewrite Hst|by rewrite Eo in Hn].
    + exists g, gr. by rewrite <- Ee.
Qed.

(** ** Changing one group, one member, or both *)

Lemma mgid_of_put p g gr gr' : p.(groups) !! g = Some gr -> gr'.(rec).(mgid) = gr.(rec).(mgid) ->
  forall g', mgid_of (put_group p g gr') g' = mgid_of p g'.
Proof.
  intros Hg Hm g'. unfold mgid_of, put_group. cbn. destruct (decide (g' = g)) as [->|Hne].
  - by rewrite lookup_insert_eq, Hg; cbn; rewrite Hm.
  - by rewrite lookup_insert_ne by done.
Qed.

Lemma table_ok_put p p' g gr gr' :
  table_ok p -> p.(groups) !! g = Some gr -> gr'.(rec).(mgid) = gr.(rec).(mgid) ->
  (gr.(owner) = WaitLeave -> gr'.(owner) = WaitLeave \/ g ∉ p.(retrying)) ->
  p'.(groups) = <[g := gr']> p.(groups) -> p'.(table) = p.(table) -> p'.(refcount) = p.(refcount) ->
  p'.(retrying) = p.(retrying) -> table_ok p'.
Proof.
  intros [Hnd Hlink Hord Hcnt Hret] Hg Hm Hw Eg Et Er Ew. split; rewrite ?Et, ?Er, ?Ew, ?Eg.
  - done.
  - intros g'. rewrite Hlink. destruct (decide (g' = g)) as [->|Hne]; [rewrite lookup_insert_eq, Hg|by rewrite lookup_insert_ne].
    split; by eexists.
  - apply (ordered_ext (mgid_of p)); [|done]. intros g' _. rewrite <- (mgid_of_put p g gr gr' Hg Hm). unfold mgid_of. by rewrite Eg.
  - by rewrite map_size_insert_Some by (by eexists).
  - intros g' Hin. destruct (Hret g' Hin) as (gr0 & Hg0 & Ho). destruct (decide (g' = g)) as [->|Hne].
    + simplify_eq. exists gr'. rewrite lookup_insert_eq. split; [done|]. by destruct (Hw Ho).
    + exists gr0. by rewrite lookup_insert_ne.
Qed.

Lemma table_ok_members p mcs' : table_ok p -> table_ok (mk_port p.(groups) mcs' p.(table) p.(refcount) p.(retrying)).
Proof. by intros []. Qed.

Lemma live_outside g mo : (forall me, mo = Some me -> me.(group) <> Some g) -> live g mo = None /\ full g mo = None.
Proof.
  intros Hn. destruct mo as [me|]; [|done]. specialize (Hn me eq_refl). cbn.
  destruct (in_group g me) eqn:E; [by apply in_group_spec in E|done].
Qed.

Lemma same_thread_subject m o o' :
  (o' = o \/ (forall m', m' <> m -> subject o <> Some m') /\ (forall m', m' <> m -> subject o' <> Some m')) ->
  forall m', m' <> m -> same_thread m' o o'.
Proof. intros [->|[H1 H2]] m' Hne; [by left|right; auto]. Qed.

Lemma inv_both p g gr gr' m me' :
  inv p -> p.(groups) !! g = Some gr -> gr'.(rec).(mgid) = gr.(rec).(mgid) ->
  (gr.(owner) = WaitLeave -> gr'.(owner) = WaitLeave \/ g ∉ p.(retrying)) ->
  (forall m', m' <> m -> same_thread m' gr.(owner) gr'.(owner)) ->
  (forall me, p.(mcs) !! m = Some me -> me.(group) = Some g \/ me.(group) = None) -> me'.(group) = Some g ->
  group_ok (<[m := me']> p.(mcs)) g gr' -> member_ok (<[g := gr']> p.(groups)) m me' ->
  inv (put_member (put_group p g gr') m me').
Proof.
  intros [Htab Hgs Hms] Hg Hmg Hw Hst Hold Hnew Hgo Hmo. split.
  - by apply (table_ok_put p _ g gr gr').
  - cbn. intros g0 gr0 Hg0. destruct (decide (g0 = g)) as [->|Hne]; [rewrite lookup_insert_eq in Hg0; by simplify_eq|].
    rewrite lookup_insert_ne in Hg0 by done.
    destruct (live_outside g0 (p.(mcs) !! m)) as [Hl Hf]; [intros me Hm; destruct (Hold me Hm); congruence|].
    destruct (live_outside g0 (Some me')) as [Hl' Hf']; [intros me [= <-]; congruence|].
    apply (group_ok_ext p.(mcs)); [| |by apply Hgs]; intros m0; destruct (decide (m0 = m)) as [->|Hnm];
      rewrite ?lookup_insert_eq, ?lookup_insert_ne by done; congruence.
  - cbn. intros m0 me0 Hm0. destruct (decide (m0 = m)) as [->|Hne]; [rewrite lookup_insert_eq in Hm0; by simplify_eq|].
    rewrite lookup_insert_ne in Hm0 by done. apply (member_ok_ext p.(groups)); [|by apply Hms].
    intros g0 _. destruct (decide (g0 = g)) as [->|Hng]; [left|right; left; by rewrite lookup_insert_ne].
    exists gr, gr'. rewrite lookup_insert_eq. auto.
Qed.

(** A group changes, and the table perhaps. *)
Lemma inv_group_table p p' g gr gr' :
  inv p -> p.(groups) !! g = Some gr -> table_ok p' -> p'.(groups) = <[g := gr']> p.(groups) -> p'.(mcs) = p.(mcs) ->
  (forall m', same_thread m' gr.(owner) gr'.(owner)) -> group_ok p.(mcs) g gr' -> inv p'.
Proof.
  intros [Htab Hgs Hms] Hg Htab' Eg Em Hst Hgo. split; [done| |]; rewrite Eg, Em.
  - intros g0 gr0 Hg0. destruct (decide (g0 = g)) as [->|Hne]; [rewrite lookup_insert_eq in Hg0; by simplify_eq|].
    rewrite lookup_insert_ne in Hg0 by done. by apply Hgs.
  - intros m0 me0 Hm0. apply (member_ok_ext p.(groups)); [|by apply Hms].
    intros g0 _. destruct (decide (g0 = g)) as [->|Hng]; [left|right; left; by rewrite lookup_insert_ne].
    exists gr, gr'. rewrite lookup_insert_eq. auto.
Qed.

Lemma inv_group p g gr gr' :
  inv p -> p.(groups) !! g = Some gr -> gr'.(rec).(mgid) = gr.(rec).(mgid) ->
  (gr.(owner) = WaitLeave -> gr'.(owner) = WaitLeave \/ g ∉ p.(retrying)) ->
  (forall m', same_thread m' gr.(owner) gr'.(owner)) -> group_ok p.(mcs) g gr' ->
  inv (put_group p g gr').
Proof.
  intros Hinv Hg Hmg Hw Hst Hgo. apply (inv_group_table p _ g gr gr'); try done.
  apply (table_ok_put p _ g gr gr'); try done. apply Hinv.
Qed.

Lemma inv_member p m me me' :
  inv p -> p.(mcs) !! m = Some me ->
  (forall g, live g (Some me) = live g (Some me') /\ full g (Some me) = full g (Some me')) ->
  member_ok p.(groups) m me' -> inv (put_member p m me').
Proof.
  intros [Htab Hgs Hms] Hm Hv Hmo. split.
  - by apply table_ok_members.
  - cbn. intros g gr Hg. apply (group_ok_ext p.(mcs)); [| |by apply Hgs]; intros m0; destruct (decide (m0 = m)) as [->|Hnm];
      rewrite ?lookup_insert_eq, ?lookup_insert_ne, ?Hm by done; try done; intros; apply Hv.
  - cbn. intros m0 me0 Hm0. destruct (decide (m0 = m)) as [->|Hne]; [rewrite lookup_insert_eq in Hm0; by simplify_eq|].
    rewrite lookup_insert_ne in Hm0 by done. by apply Hms.
Qed.

Lemma group_both mcs g gr gr' m me me' :
  group_ok mcs g gr -> mcs !! m = Some me -> me'.(group) = Some g ->
  gr'.(g_refcount) - owned gr' - Z.of_nat gr'.(releases) =
    gr.(g_refcount) - owned gr - Z.of_nat gr.(releases) + c_bool (holds_group g me') - c_bool (holds_group g me) ->
  (gr'.(g_state) = MCAST_IDLE <-> gr'.(owner) = NoOwner) ->
  (gr'.(owner) = NoOwner -> gr'.(pending_list) = [] /\ get_leave_state gr' = 0) ->
  NoDup (gr'.(pending_list) ++ gr'.(active_list)) ->
  (forall m', m' <> m -> m' ∈ gr'.(active_list) <-> m' ∈ gr.(active_list)) -> (m ∈ gr'.(active_list) <-> is_active g me' = true) ->
  (forall m', m' <> m -> m' ∈ gr'.(pending_list) -> m' ∈ gr.(pending_list)) -> (m ∈ gr'.(pending_list) -> pending_ok g me') ->
  (forall f, gr.(members) = map f states ->
    gr'.(members) = map (fun i => f i - c_bool (active_in g i me) + c_bool (active_in g i me')) states) ->
  thread_ok (<[m := me']> mcs) g gr' ->
  (granted -> granted_ok g gr' me' /\ forall m' me0, m' <> m -> mcs !! m' = Some me0 -> granted_ok g gr me0 -> granted_ok g gr' me0) ->
  group_ok (<[m := me']> mcs) g gr'.
Proof.
  intros [Href Hidle Hrest Hlists Hact Hpend Hmem Hthr Hgr] Hm Hg' Href' Hidle' Hrest' Hlists' Hact1 Hact2 Hp1 Hp2 Hmem' Hthr' Hgr'.
  split; try done.
  - rewrite (count_update _ _ _ me) by done. lia.
  - intros m'. destruct (decide (m' = m)) as [->|Hne]; [rewrite Hact2, lookup_insert_eq|rewrite Hact1, Hact, lookup_insert_ne by done; done].
    split; [by exists me'|by intros (? & [= <-] & ?)].
  - intros m' Hin. destruct (decide (m' = m)) as [->|Hne]; [rewrite lookup_insert_eq; eauto|].
    rewrite lookup_insert_ne by done. eauto.
  - rewrite (Hmem' _ Hmem). apply map_ext. intros i. by rewrite (count_update _ _ _ me).
  - intros Hgt m' me0 Hm'. destruct (Hgr' Hgt) as [Hown Hother].
    destruct (decide (m' = m)) as [->|Hne]; [rewrite lookup_insert_eq in Hm'; by simplify_eq|].
    rewrite lookup_insert_ne in Hm' by done. apply (Hother m'); [done|done|]. by apply (Hgr Hgt m').
Qed.

(** The lists stay, and the member stays what it is to them. *)
Lemma group_both_same mcs g gr gr' m me me' :
  group_ok mcs g gr -> mcs !! m = Some me -> me'.(group) = Some g ->
  gr'.(g_refcount) - owned gr' - Z.of_nat gr'.(releases) =
    gr.(g_refcount) - owned gr - Z.of_nat gr.(releases) + c_bool (holds_group g me') - c_bool (holds_group g me) ->
  (gr'.(g_state) = MCAST_IDLE <-> gr'.(owner) = NoOwner) ->
  (gr'.(owner) = NoOwner -> gr'.(pending_list) = [] /\ get_leave_state gr' = 0) ->
  gr'.(pending_list) = gr.(pending_list) -> gr'.(active_list) = gr.(active_list) -> gr'.(members) = gr.(members) ->
  gr'.(rec).(join_state) = gr.(rec).(join_state) -> me'.(m_rec).(join_state) = me.(m_rec).(join_state) ->
  is_active g me' = is_active g me -> (m ∈ gr.(pending_list) -> pending_ok g me') ->
  thread_ok (<[m := me']> mcs) g gr' ->
  group_ok (<[m := me']> mcs) g gr'.
Proof.
  intros Hgo Hm Hg' Href Hidle Hrest Ep Ea Em Er Ejs Eact Hpend Hthr.
  apply (group_both _ _ gr _ _ me); rewrite ?Ep, ?Ea, ?Em; try done.
  - intros Ho. rewrite <- Ep. by apply Hrest.
  - apply Hgo.
  - rewrite Eact, (go_active _ _ _ Hgo), Hm. split; [by intros (? & [= <-] & ?)|by exists me].
  - intros f ->. apply map_ext. intros i. unfold active_in. rewrite Eact, Ejs. lia.
  - intros Hgt. pose proof (go_granted _ _ _ Hgo Hgt) as Hgr. unfold granted_ok in *. rewrite Er, Eact, Ejs. split; [by apply (Hgr m)|done].
Qed.

Lemma group_only mcs g gr gr' :
  group_ok mcs g gr ->
  gr'.(g_refcount) - owned gr' - Z.of_nat gr'.(releases) = gr.(g_refcount) - owned gr - Z.of_nat gr.(releases) ->
  (gr'.(g_state) = MCAST_IDLE <-> gr'.(owner) = NoOwner) ->
  (gr'.(owner) = NoOwner -> gr'.(pending_list) = [] /\ get_leave_state gr' = 0) ->
  gr'.(pending_list) = gr.(pending_list) -> gr'.(active_list) = gr.(active_list) -> gr'.(members) = gr.(members) ->
  thread_ok mcs g gr' ->
  (granted -> forall m me, mcs !! m = Some me -> granted_ok g gr me -> granted_ok g gr' me) ->
  group_ok mcs g gr'.
Proof.
  intros [Href Hidle Hrest Hlists Hact Hpend Hmem Hthr Hgr] Href' Hidle' Hrest' Ep Ea Em Hthr' Hgr'.
  split; rewrite ?Ep, ?Ea, ?Em; try done; [lia|intros Ho; rewrite <- Ep; by apply Hrest'|]. intros Hgt m me Hm. eapply Hgr'; eauto.
Qed.

Lemma thread_same mcs g gr gr' m me me' :
  thread_ok mcs g gr -> mcs !! m = Some me -> gr'.(owner) = gr.(owner) ->
  (forall m', m' ∈ gr'.(pending_list) -> m' ∈ gr.(pending_list) \/ subject gr.(owner) <> Some m') ->
  gr'.(g_state) = gr.(g_state) ->
  (subject gr.(owner) = Some m -> full g (Some me) = full g (Some me')) ->
  thread_ok (<[m := me']> mcs) g gr'.
Proof.
  intros Ht Hm Ho Hp Hs Hf. apply (thread_ok_put _ _ gr); [done|done|by rewrite Hs|by rewrite Hs|]. apply (thread_ok_ext mcs); [|done].
  intros m0 Hs0. destruct (decide (m0 = m)) as [->|Hne]; [rewrite Hm, lookup_insert_eq; auto|by rewrite lookup_insert_ne].
Qed.

Lemma member_ok_put groups g gr gr' m me :
  member_ok groups m me -> groups !! g = Some gr -> same_thread m gr.(owner) gr'.(owner) -> member_ok (<[g := gr']> groups) m me.
Proof.
  intros Hmo Hg Hst. apply (member_ok_ext groups); [|done]. intros g0 _.
  destruct (decide (g0 = g)) as [->|Hng]; [left|right; left; by rewrite lookup_insert_ne].
  exists gr, gr'. by rewrite lookup_insert_eq.
Qed.

(** The member a thread deals with. *)
Lemma subject_member mcs g gr m : thread_ok mcs g gr -> subject gr.(owner) = Some m ->
  exists me, mcs !! m = Some me /\ me.(group) = Some g /\ queued me = true.
Proof.
  unfold thread_ok. intros Ht Hs. destruct (owner gr); cbn in Hs; try done; injection Hs as ->; try destruct Ht as [_ Ht];
    destruct Ht as (me & Hm & Hg & Hrest); exists me; (split; [done|]; split; [done|]); [by destruct Hrest..|].
  unfold freed_by_cb, queued in *. by destruct (at_ me) as [| | | | |[]|[]|[]].
Qed.

(** ** Objects that come and go *)

Lemma inv_new_member p m me :
  inv p -> p.(mcs) !! m = None -> me.(group) = None -> member_ok p.(groups) m me -> inv (put_member p m me).
Proof.
  intros [Htab Hgs Hms] Hm Hg Hmo. split.
  - by apply table_ok_members.
  - cbn. intros g gr Hgr. destruct (live_outside g (Some me)) as [Hl Hf]; [intros ? [= <-]; congruence|].
    apply (group_ok_ext p.(mcs)); [| |by apply Hgs]; intros m0; destruct (decide (m0 = m)) as [->|Hnm];
      rewrite ?lookup_insert_eq, ?lookup_insert_ne, ?Hm by done; try done; intros; by rewrite ?Hl, ?Hf.
  - cbn. intros m0 me0 Hm0. destruct (decide (m0 = m)) as [->|Hne]; [rewrite lookup_insert_eq in Hm0; by simplify_eq|].
    rewrite lookup_insert_ne in Hm0 by done. by apply Hms.
Qed.

Lemma live_not_holding g me : holding me = false -> live g (Some me) = None.
Proof. intros Hh. cbn. by rewrite Hh, andb_false_r. Qed.

(** A member that holds no group and with which no thread deals can go. *)
Lemma inv_delete_member p m me :
  inv p -> p.(mcs) !! m = Some me -> holding me = false ->
  (forall g gr, me.(group) = Some g -> p.(groups) !! g = Some gr -> subject gr.(owner) <> Some m) ->
  inv (mk_port p.(groups) (delete m p.(mcs)) p.(table) p.(refcount) p.(retrying)).
Proof.
  intros [Htab Hgs Hms] Hm Hh Hs. split.
  - by apply table_ok_members.
  - cbn. intros g gr Hg. apply (group_ok_ext p.(mcs)); [| |by apply Hgs]; intros m0; destruct (decide (m0 = m)) as [->|Hnm];
      rewrite ?lookup_delete_eq, ?lookup_delete_ne, ?Hm by done; try done.
    + by rewrite live_not_holding.
    + intros Hsub. apply live_outside. intros ? [= <-] Hgm. by apply (Hs g gr).
  - cbn. intros m0 me0 [_ Hm0]%lookup_delete_Some. by apply Hms.
Qed.

(** The member freed by the group's thread goes, and the thread goes on. *)
Lemma inv_delete_blocked p m me g gr o :
  inv p -> p.(mcs) !! m = Some me -> holding me = false -> me.(group) = Some g -> p.(groups) !! g = Some gr ->
  subject gr.(owner) = Some m -> (o = Retest \/ o = ErrLoop) ->
  inv (mk_port (<[g := set_owner gr o]> p.(groups)) (delete m p.(mcs)) p.(table) p.(refcount) p.(retrying)).
Proof.
  intros [Htab Hgs Hms] Hm Hh Hmg Hg Hs Ho.
  assert (Hown : gr.(owner) <> NoOwner /\ gr.(owner) <> WaitLeave /\ owned gr = 1).
  { unfold owned. by destruct (owner gr). }
  destruct Hown as (Hn & Hw & Hone).
  assert (Hset : forall x, owner (set_owner gr x) = x) by done.
  assert (Ho' : o <> NoOwner /\ subject o = None /\ owned (set_owner gr o) = 1) by (by destruct Ho as [-> | ->]).
  destruct Ho' as (Hon & Hos & Hone'). split.
  - by apply (table_ok_put p _ g gr (set_owner gr o)).
  - cbn. intros g0 gr0 Hg0. destruct (decide (g0 = g)) as [->|Hne].
    + rewrite lookup_insert_eq in Hg0. injection Hg0 as <-.
      apply (group_ok_ext p.(mcs)).
      * intros m0. destruct (decide (m0 = m)) as [->|Hnm]; rewrite ?lookup_delete_eq, ?lookup_delete_ne, ?Hm by done; [|done].
        by rewrite live_not_holding.
      * intros m0. rewrite Hset, Hos. done.
      * pose proof (Hgs g gr Hg) as Hgo. apply (group_only _ _ gr); try done; [cbn; lia| |].
        -- rewrite Hset. pose proof (go_idle _ _ _ Hgo). cbn. tauto.
        -- unfold thread_ok. rewrite Hset. by destruct Ho as [-> | ->].
    + rewrite lookup_insert_ne in Hg0 by done. destruct (live_outside g0 (Some me)) as [Hl Hf]; [intros ? [= <-]; congruence|].
      apply (group_ok_ext p.(mcs)); [| |by apply Hgs]; intros m0; destruct (decide (m0 = m)) as [->|Hnm];
        rewrite ?lookup_delete_eq, ?lookup_delete_ne, ?Hm by done; by rewrite ?Hl, ?Hf.
  - cbn. intros m0 me0 [Hnm Hm0]%lookup_delete_Some. apply (member_ok_ext p.(groups)); [|by apply Hms].
    intros g0 _. destruct (decide (g0 = g)) as [->|Hng]; [left|right; left; by rewrite lookup_insert_ne].
    exists gr, (set_owner gr o). rewrite lookup_insert_eq, Hset. split; [done|]. split; [done|]. right. rewrite Hs, Hos. split; congruence.
Qed.

Lemma inv_unheld p g m me : inv p -> p.(groups) !! g = None -> p.(mcs) !! m = Some me -> me.(group) = Some g -> holding me = false.
Proof.
  intros Hinv Hg Hm Hmg. destruct (holding me) eqn:Hh; [|done].
  destruct (mo_group _ _ _ (inv_members _ Hinv m me Hm) Hh) as (g' & gr & Eg & E). congruence.
Qed.

(** A new group, linked. *)
Lemma inv_new_group p g gid t :
  inv p -> p.(groups) !! g = None -> ordered (mgid_of (put_group p g (new_group gid))) (nodes t) ->
  nodes t ≡ₚ g :: nodes p.(table) ->
  inv (mk_port (<[g := new_group gid]> p.(groups)) p.(mcs) t (p.(refcount) + 1) p.(retrying)).
Proof.
  intros Hinv Hg Hord Hperm. pose proof Hinv as [Htab Hgs Hms].
  assert (Hzero : forall P, (forall me, P me = true -> me.(group) = Some g /\ holding me = true) -> count P p.(mcs) = 0).
  { intros P HP. apply count_none. intros m me Hm. destruct (P me) eqn:E; [|done]. destruct (HP me E) as [Hmg Hh].
    by rewrite (inv_unheld p g m me) in Hh. }
  split; cbn.
  - destruct Htab as [Hnd Hlink Hordp Hcnt Hret]. split; cbn.
    + rewrite Hperm. apply list.NoDup_cons. split; [|done]. rewrite Hlink, Hg. by intros [].
    + intros g'. rewrite Hperm, list.elem_of_cons, Hlink. destruct (decide (g' = g)) as [->|Hne].
      * rewrite lookup_insert_eq, Hg. split; [by eexists|by left].
      * rewrite lookup_insert_ne by done. tauto.
    + done.
    + rewrite map_size_insert_None by done. lia.
    + intros g' Hin. destruct (Hret g' Hin) as (gr & Hgr & Ho). exists gr. split; [|done]. rewrite lookup_insert_ne; congruence.
  - intros g0 gr0 [[<- <-]|[Hne Hg0]]%lookup_insert_Some; [|by apply Hgs]. split; cbn; try done.
    + rewrite Hzero; [done|]. intros me. unfold holds_group. rewrite andb_true_iff, in_group_spec. done.
    + constructor.
    + intros m. rewrite list.elem_of_nil. split; [done|]. intros (me & Hm & (Hmg & Ha%attached_holding & _)%is_active_spec).
      by rewrite (inv_unheld p g m me) in Ha.
    + by intros m ?%elem_of_nil.
    + unfold states. cbn. rewrite !Hzero; [done| | | |]; intros me [(? & ?%attached_holding & _)%is_active_spec _]%andb_prop; done.
    + intros _ m me Hm (Hmg & Ha%attached_holding & _)%is_active_spec. by rewrite (inv_unheld p g m me) in Ha.
  - intros m me Hm. apply (member_ok_ext p.(groups)); [|by apply Hms]. intros g0 Hg0. right.
    destruct (decide (g0 = g)) as [->|Hne]; [right|left; by rewrite lookup_insert_ne].
    rewrite Hg, lookup_insert_eq. split; [by apply (inv_unheld p g m)|done].
Qed.

(** A group without references is unlinked and freed. *)
Lemma inv_drop_group p g gr t :
  inv p -> p.(groups) !! g = Some gr -> gr.(g_refcount) = 0 -> erase p.(table) g = Some t ->
  inv (mk_port (delete g p.(groups)) p.(mcs) t (p.(refcount) - 1) p.(retrying)).
Proof.
  intros [Htab Hgs Hms] Hg Href Ht. pose proof (Hgs g gr Hg) as Hgo.
  pose proof (go_ref _ _ _ Hgo) as Hr. pose proof (proj1 (count_pos (holds_group g) p.(mcs))) as Hpos.
  assert (Hown : gr.(owner) = NoOwner /\ count (holds_group g) p.(mcs) = 0).
  { unfold owned in Hr. destruct (owner gr); try (exfalso; lia). split; [done|lia]. }
  destruct Hown as [Hown Hcnt0]. unfold erase in Ht. case_decide as Hin; [|done]. injection Ht as <-.
  split; cbn.
  - destruct Htab as [Hnd Hlink Hord Hcnt Hret]. split; cbn; rewrite ?nodes_erase by done.
    + by apply list.NoDup_filter.
    + intros g'. rewrite list_elem_of_filter, Hlink.
      destruct (decide (g' = g)) as [->|Hne]; [rewrite lookup_delete_eq|rewrite lookup_delete_ne by done].
      * split; [tauto|by intros []].
      * tauto.
    + apply (ordered_ext (mgid_of p)); [|by apply ordered_filter]. intros g' [Hne _]%list_elem_of_filter.
      unfold mgid_of. cbn. by rewrite lookup_delete_ne.
    + rewrite map_size_delete_Some by (by eexists). pose proof (map_size_ne_0_lookup_2 p.(groups) g (ltac:(by eexists))). lia.
    + intros g' Hg'. destruct (Hret g' Hg') as (gr' & Hgr' & Ho). exists gr'. split; [|done]. rewrite lookup_delete_ne; congruence.
  - intros g0 gr0 [_ Hg0]%lookup_delete_Some. by apply Hgs.
  - intros m me Hm. apply (member_ok_ext p.(groups)); [|by apply Hms]. intros g0 Hg0. right.
    destruct (decide (g0 = g)) as [->|Hne]; [right|left; by rewrite lookup_delete_ne].
    rewrite Hg, lookup_delete_eq. cbn. rewrite Hown. split; [|done].
    pose proof (count_zero _ _ m me Hcnt0 Hm) as Hz. unfold holds_group in Hz. by rewrite (proj2 (in_group_spec g me) Hg0) in Hz.
Qed.

End invariant.
