(* ===== verification/MulticastRun.v ===== *)
(** Multicast groups in operation: every step of Multicast.v goes through and
    keeps the invariant of MulticastSafe.v, so that whole runs do. *)

From S2P Require Import Prelude Counting McastTable Multicast MulticastSafe.
#[local] Open Scope Z_scope.

Section steps.
Context `{RbTreeLaws}.
Variable granted : Prop.
Abbreviation inv := (inv granted).
Abbreviation group_ok := (group_ok granted).

Definition keeps (p : mcast_port) (s : step) : Prop := exists p', exec p s = Some p' /\ inv p'.

Lemma member_has_group p m me : inv p -> p.(mcs) !! m = Some me -> holding me = true ->
  exists g gr, me.(group) = Some g /\ p.(groups) !! g = Some gr.
Proof. intros Hinv Hm Hh. exact (mo_group _ _ _ (inv_members _ _ Hinv m me Hm) Hh). Qed.

Lemma granted_ok_refl g gr gr' me : gr'.(rec).(join_state) = gr.(rec).(join_state) -> granted_ok g gr me -> granted_ok g gr' me.
Proof. unfold granted_ok. by intros ->. Qed.

(** ** Joining *)

Lemma join_keeps p data k r mask : inv p -> enabled granted p (Join data k r mask) -> keeps p (Join data k r mask).
Proof.
  intros Hinv Hen. eexists. split; [done|]. unfold ib_sa_join_multicast. destruct data; [|done]. destruct k as [m|]; [|done].
  cbn. apply inv_new_member; [done|by apply Hen|done|]. split; cbn; try done. by left.
Qed.

(** A member that has no group yet is no thread's. *)
Lemma new_member_free p m me : inv p -> p.(mcs) !! m = Some me -> me.(group) = None ->
  forall g gr, p.(groups) !! g = Some gr -> subject gr.(owner) <> Some m.
Proof.
  intros Hinv Hm Hn g gr Hg Hs. pose proof (go_thread _ _ _ _ (inv_groups _ _ Hinv g gr Hg)) as Ht. unfold thread_ok in Ht.
  destruct (owner gr); cbn in Hs; try done; injection Hs as ->; try destruct Ht as [_ Ht]; destruct Ht as (me0 & Hm0 & Hg0 & _); congruence.
Qed.

Lemma new_member p m me : inv p -> p.(mcs) !! m = Some me -> (me.(at_) = Finding \/ me.(at_) = Allocating) ->
  me.(group) = None /\ me.(m_state) = MCAST_JOINING /\ me.(called) = [] /\ holding me = false /\ attached me = false.
Proof.
  intros Hinv Hm Hat. pose proof (mo_new _ _ _ (inv_members _ _ Hinv m me Hm)) as Hnew. unfold holding, attached.
  destruct Hat as [E|E]; rewrite E in *; naive_solver.
Qed.

(** Taking a reference on a group. *)
Lemma found_keeps p m me g gr : inv p -> p.(mcs) !! m = Some me -> (me.(at_) = Finding \/ me.(at_) = Allocating) ->
  p.(groups) !! g = Some gr -> exists p', found p m g = Some p' /\ inv p'.
Proof.
  intros Hinv Hm Hat Hg. unfold found. rewrite Hm, Hg. cbn [mbind option_bind]. eexists. split; [done|].
  pose proof (inv_members _ _ Hinv m me Hm) as Hmo. pose proof (inv_groups _ _ Hinv g gr Hg) as Hgo.
  destruct (new_member p m me Hinv Hm Hat) as (Hgrp & Hst & Hc & Hh & Ha).
  pose proof (new_member_free p m me Hinv Hm Hgrp g gr Hg) as Hno.
  apply (inv_both _ _ g gr); try done; try (intros; by left); [naive_solver| |].
  - apply (group_both_same _ _ _ gr _ _ me); try done.
    + unfold holds_group, in_group. rewrite Hh, andb_false_r, bool_decide_eq_true_2 by done. cbn. unfold owned. cbn. lia.
    + apply Hgo.
    + apply Hgo.
    + unfold is_active. rewrite Ha, andb_false_r. cbn. by rewrite andb_false_r.
    + intros (me0 & ? & ? & ? & _)%(go_pending _ _ _ _ Hgo). congruence.
    + apply (thread_ok_ext p.(mcs)).
      * intros m0 Hs. by rewrite lookup_insert_ne by (intros ->; done).
      * apply (thread_ok_put _ _ gr); [done|by left|done|done|apply Hgo].
  - destruct Hmo as [Href _ _ _ _]. split; cbn.
    + rewrite Href. unfold thread_refs. rewrite Hgrp. cbn. rewrite lookup_insert_eq. cbn.
      destruct (holds (owner gr) m) eqn:E; [by apply holds_subject in E|]. by destruct Hat as [-> | ->].
    + intros _. exists g. eexists. split; [done|]. apply lookup_insert_eq.
    + done.
    + done.
    + unfold called_ok. cbn. rewrite Hst. by left.
Qed.

(** Without a group yet, the member allocates one. *)
Lemma allocating_keeps p m me : inv p -> p.(mcs) !! m = Some me -> me.(at_) = Finding -> inv (put_member p m (with_stage me Allocating)).
Proof.
  intros Hinv Hm Hat. destruct (new_member p m me Hinv Hm (or_introl Hat)) as (Hgrp & Hst & Hc & Hh & Ha).
  apply (inv_member _ _ _ me); [done|done| |].
  - intros g. cbn. unfold in_group. cbn. rewrite Hgrp. done.
  - destruct (inv_members _ _ Hinv m me Hm) as [Href _ _ _ Hcalled]. split; cbn; try done. rewrite Href, Hat.
    unfold thread_refs. cbn. by rewrite Hgrp.
Qed.

Lemma keyed_table p : inv p -> keyed (mgid_of p) (nodes p.(table)).
Proof. intros Hinv g Hg. apply (to_linked _ (inv_table _ _ Hinv)) in Hg as [gr Hg]. unfold mgid_of. rewrite Hg. by eexists. Qed.

Lemma acquire_find_keeps p m : inv p -> enabled granted p (AcquireFind m) -> keeps p (AcquireFind m).
Proof.
  intros Hinv (me & Hm & Hat). unfold keeps. cbn. unfold acquire_find. rewrite Hm. cbn [mbind option_bind].
  destruct (mgid (m_rec me) =? 0); [eexists; split; [done|by apply allocating_keeps]|].
  destruct (mcast_find_spec (mgid_of p) p.(table) (mgid (m_rec me)) (keyed_table p Hinv) (to_ordered _ (inv_table _ _ Hinv)))
    as ([g|] & -> & Hfound); cbn [mbind option_bind].
  - destruct Hfound as [[gr Hg]%(to_linked _ (inv_table _ _ Hinv)) _]. apply (found_keeps p m me g gr); auto.
  - eexists. split; [done|]. by apply allocating_keeps.
Qed.

Lemma acquire_insert_keeps p m k : inv p -> enabled granted p (AcquireInsert m k) -> keeps p (AcquireInsert m k).
Proof.
  intros Hinv [(me & Hm & Hat) Hk]. destruct (new_member p m me Hinv Hm (or_intror Hat)) as (Hgrp & Hst & Hc & Hh & Ha).
  unfold keeps. cbn. unfold acquire_insert. rewrite Hm. cbn [mbind option_bind]. destruct k as [g|].
  - specialize (Hk g eq_refl). set (gid := mgid (m_rec me)). set (p1 := put_group p g (new_group gid)).
    assert (Hext : forall g', g' ∈ nodes p.(table) -> mgid_of p1 g' = mgid_of p g').
    { intros g' Hg'. unfold mgid_of. cbn. rewrite lookup_insert_ne; [done|]. intros ->.
      apply (to_linked _ (inv_table _ _ Hinv)) in Hg' as [? ?]. congruence. }
    destruct (mcast_insert_spec (mgid_of p1) p.(table) g gid) as (t & [cur|] & -> & Hcur).
    + intros g' Hg'. rewrite Hext by done. by apply (keyed_table p).
    + apply (ordered_ext (mgid_of p)); [done|apply Hinv].
    + unfold mgid_of. cbn. by rewrite lookup_insert_eq.
    + cbn [mbind option_bind]. destruct Hcur as (_ & _ & [gr Hg]%(to_linked _ (inv_table _ _ Hinv)) & _).
      apply (found_keeps p m me cur gr); auto.
    + cbn [mbind option_bind]. destruct Hcur as [Hord Hperm]. subst p1.
      apply (found_keeps _ m me g (new_group gid)); [by apply inv_new_group|done|by right|]. apply lookup_insert_eq.
  - eexists. split; [done|]. apply (inv_delete_member _ _ _ me); [done|done|done|]. congruence.
Qed.
(** A member in no list of its group. *)
Lemma not_listed p g gr m me : inv p -> p.(groups) !! g = Some gr -> p.(mcs) !! m = Some me -> attached me = false ->
  m ∉ gr.(pending_list) /\ m ∉ gr.(active_list) /\ is_active g me = false.
Proof.
  intros Hinv Hg Hm Ha. pose proof (inv_groups _ _ Hinv g gr Hg) as Hgo. split; [|split].
  - intros (me0 & ? & _ & ? & _)%(go_pending _ _ _ _ Hgo). congruence.
  - intros (me0 & ? & (_ & ? & _)%is_active_spec)%(go_active _ _ _ _ Hgo). congruence.
  - unfold is_active. by rewrite Ha, andb_false_r.
Qed.

Lemma nodup_app_move {A} (l1 l2 : list A) x : NoDup (l1 ++ l2) -> x ∉ l1 -> x ∉ l2 -> NoDup ((l1 ++ [x]) ++ l2).
Proof.
  intros Hnd H1 H2. rewrite <- app_assoc. cbn. rewrite <- Permutation_middle. apply list.NoDup_cons.
  split; [|done]. rewrite list.elem_of_app. tauto.
Qed.

Lemma queue_join_keeps p m : inv p -> enabled granted p (QueueJoin m) -> keeps p (QueueJoin m).
Proof.
  intros Hinv (me & Hm & Hat). pose proof (inv_members _ _ Hinv m me Hm) as [Href _ _ Hnew _].
  assert (Hh : holding me = true) by (unfold holding; by rewrite Hat).
  assert (Ha : attached me = false) by (unfold attached; by rewrite Hat).
  destruct (member_has_group p m me Hinv Hm Hh) as (g & gr & Hgm & Hg). pose proof (inv_groups _ _ Hinv g gr Hg) as Hgo.
  destruct (not_listed p g gr m me Hinv Hg Hm Ha) as (Hnp & Hna & Hact). rewrite Hat in Hnew. destruct Hnew as [Hst Hc].
  unfold keeps. cbn. unfold queue_join. rewrite Hm. cbn [mbind option_bind]. rewrite Hgm. cbn [mbind option_bind].
  rewrite Hg. cbn [mbind option_bind]. eexists. split; [done|].
  set (gr1 := set_lists gr _ _).
  set (gr' := if decide (g_state gr1 = MCAST_IDLE) then _ else _).
  assert (Hidle : g_state gr1 = MCAST_IDLE <-> owner gr = NoOwner) by apply (go_idle _ _ _ _ Hgo).
  assert (Hgr' : gr'.(rec) = gr.(rec) /\ gr'.(pending_list) = gr.(pending_list) ++ [m] /\ gr'.(active_list) = gr.(active_list) /\
    gr'.(members) = gr.(members) /\ gr'.(releases) = gr.(releases) /\
    gr'.(g_refcount) - owned gr' = gr.(g_refcount) - owned gr /\
    gr'.(g_state) <> MCAST_IDLE /\ gr'.(owner) <> NoOwner /\
    (gr'.(owner) = gr.(owner) /\ gr'.(g_state) = gr.(g_state) \/ gr'.(owner) = Retest /\ gr.(owner) = NoOwner)).
  { subst gr'. unfold owned. destruct (decide (g_state gr1 = MCAST_IDLE)) as [E|E].
    - pose proof (proj1 Hidle E) as Eo. cbn. rewrite Eo. repeat split; auto; try lia.
    - subst gr1. cbn in *. repeat split; auto. tauto. }
  clearbody gr'. destruct Hgr' as (Er & Ep & Ea & Em & Erel & Eref & Hs & Ho & Hown).
  apply (inv_both _ _ g gr); try done.
  - by rewrite Er.
  - intros Hw. left. destruct Hown as [[-> _]|[_ ?]]; [done|congruence].
  - intros m' Hne. destruct Hown as [[-> _]|[-> ->]]; [by left|by right].
  - naive_solver.
  - apply (group_both _ _ _ gr _ _ me); try done.
    + unfold holds_group, in_group. cbn. rewrite Hgm, bool_decide_eq_true_2, Hh by done. cbn. lia.
    + rewrite Ep, Ea. apply nodup_app_move; [apply Hgo|done|done].
    + by rewrite Ea.
    + rewrite Ea. unfold is_active. cbn. rewrite Hst. rewrite andb_false_r. done.
    + intros m' Hne. rewrite Ep, list.elem_of_app, list_elem_of_singleton. tauto.
    + intros f Hf. rewrite Em, Hf. apply map_ext. intros i. unfold active_in. rewrite Hact. unfold is_active. cbn.
      rewrite Hst, andb_false_r. cbn. lia.
    + destruct Hown as [[Hown Hst']|[Hown _]]; [|unfold thread_ok; by rewrite Hown].
      assert (Hns : subject gr.(owner) <> Some m).
      { intros (me0 & Hm0 & _ & Hq)%(subject_member p.(mcs) g); [|apply Hgo]. simplify_eq. unfold queued in Hq. by rewrite Hat in Hq. }
      apply (thread_same _ _ gr _ _ me); try done; [apply Hgo|]. intros m'. rewrite Ep, list.elem_of_app, list_elem_of_singleton.
      intros [?| ->]; auto.
    + intros Hgt. unfold granted_ok. rewrite Er. split; [|done]. unfold is_active. cbn. by rewrite Hst, andb_false_r.
  - assert (Hmo : member_ok (<[g := gr']> p.(groups)) m me).
    { apply (member_ok_put _ _ gr); [by apply Hinv|done|]. destruct Hown as [[-> _]|[-> ->]]; [by left|by right]. }
    destruct Hmo as [Href' Hgrp' _ _ Hcalled']. rewrite Hat in Href'. split; cbn; [done|intros _; by apply Hgrp'|done|by rewrite Hgm|done].
Qed.
(** ** Freeing *)

Lemma elem_of_unlist m m' l : m' ∈ unlist m l <-> m' <> m /\ m' ∈ l.
Proof. unfold unlist. by rewrite list_elem_of_filter. Qed.

Lemma nodup_unlist m l1 l2 : NoDup (l1 ++ l2) -> NoDup (unlist m l1 ++ unlist m l2).
Proof. unfold unlist. rewrite <- list.filter_app. apply list.NoDup_filter. Qed.

Lemma active_in_attached g i me : me.(group) = Some g -> attached me = true ->
  active_in g i me = bool_decide (me.(m_state) = MCAST_MEMBER) && Z.testbit me.(m_rec).(join_state) i.
Proof. intros Hg Ha. unfold active_in, is_active, in_group. by rewrite bool_decide_eq_true_2, Ha by done. Qed.

Lemma blocked_owner p m me g gr : inv p -> p.(mcs) !! m = Some me -> freed_by_cb me = true -> me.(group) = Some g ->
  p.(groups) !! g = Some gr -> exists e, gr.(owner) = Blocked m e.
Proof.
  intros Hinv Hm Hf Hgm Hg. destruct (mo_cb _ _ _ (inv_members _ _ Hinv m me Hm) Hf) as (g' & gr' & e & ? & ? & ?).
  simplify_eq. by exists e.
Qed.

(** What [ib_sa_free_multicast] does to the group. *)
Definition free_group (gr : mcast_group) (m : Z) (me : mcast_member) : mcast_group :=
  list_del_init (if decide (me.(m_state) = MCAST_MEMBER)
                 then set_members gr (adjust_membership gr.(members) me.(m_rec).(join_state) (-1)) else gr) m.

Lemma free_group_members gr m me g f : me.(group) = Some g -> attached me = true -> gr.(members) = map f states ->
  (free_group gr m me).(members) = map (fun i => f i - c_bool (active_in g i me)) states.
Proof.
  intros Hg Ha Hf. unfold free_group. case_decide as Hst; cbn.
  - rewrite Hf, adjust_membership_map. apply map_ext. intros i. rewrite active_in_attached, bool_decide_eq_true_2 by done.
    cbn. destruct (Z.testbit _ i); cbn; lia.
  - rewrite Hf. apply map_ext. intros i. rewrite active_in_attached, bool_decide_eq_false_2 by done. cbn. lia.
Qed.

Lemma free_group_fields gr m me :
  (free_group gr m me).(rec) = gr.(rec) /\ (free_group gr m me).(pending_list) = unlist m gr.(pending_list) /\
  (free_group gr m me).(active_list) = unlist m gr.(active_list) /\ (free_group gr m me).(releases) = gr.(releases) /\
  (free_group gr m me).(g_refcount) = gr.(g_refcount) /\ (free_group gr m me).(g_state) = gr.(g_state) /\
  (free_group gr m me).(owner) = gr.(owner).
Proof. unfold free_group. by case_decide. Qed.

(** A detached member leaves the group's lists and counts. *)
Lemma free_keeps_group p g gr gr' m me me' :
  inv p -> p.(groups) !! g = Some gr -> p.(mcs) !! m = Some me -> me.(group) = Some g -> attached me = true ->
  me'.(group) = Some g -> attached me' = false -> full g (Some me) = full g (Some me') ->
  gr'.(rec) = gr.(rec) -> gr'.(pending_list) = unlist m gr.(pending_list) -> gr'.(active_list) = unlist m gr.(active_list) ->
  gr'.(members) = (free_group gr m me).(members) ->
  gr'.(g_refcount) - owned gr' - Z.of_nat gr'.(releases) =
    gr.(g_refcount) - owned gr - Z.of_nat gr.(releases) + c_bool (holds_group g me') - 1 ->
  gr'.(g_state) <> MCAST_IDLE -> gr'.(owner) <> NoOwner ->
  (gr'.(owner) = gr.(owner) /\ gr'.(g_state) = gr.(g_state) \/ gr'.(owner) = Retest) ->
  group_ok (<[m := me']> p.(mcs)) g gr'.
Proof.
  intros Hinv Hg Hm Hgm Ha Hgm' Ha' Hfull Er Ep Ea Em Eref Hs Ho Hown. pose proof (inv_groups _ _ Hinv g gr Hg) as Hgo.
  assert (Hact : is_active g me' = false) by (unfold is_active; by rewrite Ha', andb_false_r).
  apply (group_both _ _ _ gr _ _ me); try done.
  - assert (holds_group g me = true) as -> by (unfold holds_group; by rewrite (proj2 (in_group_spec g me) Hgm), (attached_holding _ Ha)).
    done.
  - rewrite Ep, Ea. apply nodup_unlist, Hgo.
  - intros m' Hne. rewrite Ea, elem_of_unlist. tauto.
  - rewrite Ea, elem_of_unlist, Hact. naive_solver.
  - intros m' Hne. rewrite Ep, elem_of_unlist. tauto.
  - rewrite Ep, elem_of_unlist. tauto.
  - intros f Hf. rewrite Em, (free_group_members _ _ _ g f) by done. apply map_ext. intros i. unfold active_in at 3. rewrite Hact. cbn. lia.
  - destruct Hown as [[Hown Hst]|Hown]; [|unfold thread_ok; by rewrite Hown].
    apply (thread_same _ _ gr _ _ me); try done; [apply Hgo|].
    intros m'. rewrite Ep, elem_of_unlist. tauto.
  - intros Hgt. unfold granted_ok. rewrite Er, Hact. done.
Qed.

Lemma free_keeps p m cb : inv p -> enabled granted p (Free m cb) -> keeps p (Free m cb).
Proof.
  intros Hinv (me & Hm & Hat). pose proof (inv_members _ _ Hinv m me Hm) as Hmo.
  assert (Ha : attached me = true) by (unfold attached; by destruct cb; rewrite Hat).
  destruct (member_has_group p m me Hinv Hm (attached_holding _ Ha)) as (g & gr & Hgm & Hg).
  pose proof (inv_groups _ _ Hinv g gr Hg) as Hgo. pose proof (go_idle _ _ _ _ Hgo) as Hidle.
  assert (Hcb : cb = true -> gr.(owner) <> NoOwner).
  { intros ->. destruct (blocked_owner p m me g gr) as [e ->]; try done. unfold freed_by_cb. by rewrite Hat. }
  destruct (free_group_fields gr m me) as (Er & Ep & Ea & Erel & Eref & Est & Eo).
  unfold keeps. cbn. unfold ib_sa_free_multicast. rewrite Hm. cbn [mbind option_bind]. rewrite Hgm. cbn [mbind option_bind].
  rewrite Hg. cbn [mbind option_bind]. fold (free_group gr m me). eexists. split; [done|]. rewrite Est.
  assert (Hmo' : forall gr', (gr'.(owner) = gr.(owner) \/ gr.(owner) = NoOwner /\ gr'.(owner) = Retest) ->
    member_ok (<[g := gr']> p.(groups)) m me).
  { intros gr' Hown. apply (member_ok_put _ _ gr); [done|done|]. destruct Hown as [->|[-> ->]]; [by left|by right]. }
  assert (Hfull : forall s, freed_by_cb (with_stage me s) = cb -> queued (with_stage me s) = true ->
    full g (Some me) = full g (Some (with_stage me s))).
  { intros s Hf Hq. cbn. rewrite Hf, Hq. unfold freed_by_cb, queued. destruct cb; by rewrite Hat. }
  case_decide as Es.
  - pose proof (proj1 Hidle Es) as Eno. destruct cb; [by destruct Hcb|].
    apply (inv_both _ _ g gr); try done; [by rewrite <- Er|by rewrite Eno|intros; rewrite Eno; by right|naive_solver| |].
    + apply (free_keeps_group p g gr _ m me); try done; [by apply Hfull| |by right].
      unfold holds_group, holding, owned. cbn -[free_group]. rewrite Eno, Erel, Eref, andb_false_r. cbn. lia.
    + destruct (Hmo' (queue_work (set_state (free_group gr m me) MCAST_BUSY))) as [Href' _ _ _ Hc]; [by right|].
      rewrite Hat in Href'. split; try done. cbn. by rewrite Hgm.
  - apply (inv_both _ _ g gr); try done; [by rewrite Er|intros ?; rewrite Eo; by left|intros; rewrite Eo; by left|naive_solver| |].
    + apply (free_keeps_group p g gr _ m me); try done; [apply Hfull; by destruct cb| |by rewrite Est|rewrite Eo; tauto|by left].
      unfold holds_group, holding, owned, in_group. cbn -[free_group]. rewrite Eo, Erel, Eref, bool_decide_eq_true_2 by done. cbn. lia.
    + destruct (Hmo' (free_group gr m me)) as [Href' Hgrp' Hcb' _ Hc]; [by left|].
      split; cbn; try done; [by destruct cb; rewrite Hat in Href'|intros _; apply Hgrp', attached_holding, Ha|].
      intros Hf. apply Hcb'. unfold freed_by_cb. destruct cb; [by rewrite Hat|done].
Qed.
(** A reference that is given back; with the last one the group goes. *)
Lemma release_keeps p g gr : p.(groups) !! g = Some gr -> inv (put_group p g (set_ref gr (gr.(g_refcount) - 1))) ->
  exists p', release_group p g = Some p' /\ inv p'.
Proof.
  intros Hg Hinv. unfold release_group. rewrite Hg. cbn [mbind option_bind].
  destruct (Z.eqb_spec (g_refcount gr - 1) 0) as [Hz|]; [|by eexists].
  assert (Hin : g ∈ nodes p.(table)).
  { apply (to_linked _ (inv_table _ _ Hinv)). cbn. rewrite lookup_insert_eq. by eexists. }
  assert (He : erase p.(table) g = Some (rb_erase g p.(table))) by (unfold erase; by rewrite decide_True).
  rewrite He. cbn [mbind option_bind]. eexists. split; [done|].
  pose proof (inv_drop_group _ _ g _ _ Hinv (lookup_insert_eq _ _ _) Hz He) as Hdrop. cbn in Hdrop.
  by rewrite delete_insert_eq in Hdrop.
Qed.

Lemma with_group_refs m o me gs g gr : me.(group) = Some g -> gs !! g = Some gr -> gr.(owner) = o ->
  thread_refs gs m me = c_bool (holds o m).
Proof. intros Hm Hg <-. unfold thread_refs. by rewrite Hm, Hg. Qed.

Lemma do_release_keeps p m cb : inv p -> enabled granted p (DoRelease m cb) -> keeps p (DoRelease m cb).
Proof.
  intros Hinv (me & Hm & Hat). pose proof (inv_members _ _ Hinv m me Hm) as Hmo.
  assert (Hh : holding me = true) by (unfold holding; by rewrite Hat).
  assert (Ha : attached me = false) by (unfold attached; by rewrite Hat).
  destruct (member_has_group p m me Hinv Hm Hh) as (g & gr & Hgm & Hg). pose proof (inv_groups _ _ Hinv g gr Hg) as Hgo.
  unfold keeps. cbn. unfold free_release. rewrite Hm. cbn [mbind option_bind]. rewrite Hgm. cbn [mbind option_bind].
  apply (release_keeps _ g gr); [done|].
  change (inv (put_member (put_group p g (set_ref gr (g_refcount gr - 1))) m (with_stage me (FreeDeref cb)))).
  apply (inv_both _ _ g gr); try done; try (intros; by left); [naive_solver| |].
  - destruct (not_listed p g gr m me Hinv Hg Hm Ha) as (Hnp & _ & Hact).
    apply (group_both_same _ _ _ gr _ _ me); try done; try apply Hgo.
    + assert (holds_group g me = true) as -> by (unfold holds_group; by rewrite (proj2 (in_group_spec g me) Hgm), Hh).
      unfold holds_group, holding, owned. cbn. rewrite andb_false_r. cbn. lia.
    + rewrite Hact. unfold is_active. by rewrite andb_false_r.
    + apply (thread_same _ _ gr _ _ me); try done; [apply Hgo|by left|].
      intros _. cbn. unfold freed_by_cb, queued, in_group. cbn. by rewrite Hat.
  - destruct (member_ok_put p.(groups) g gr (set_ref gr (g_refcount gr - 1)) m me) as [Href' _ Hcb' _ Hc]; [done|done|by left|].
    split; cbn; try done; [by rewrite Hat in Href'|].
    intros Hf. apply Hcb'. unfold freed_by_cb. by rewrite Hat.
Qed.

(** A member that changes without its group noticing. *)
Lemma unseen_keeps p m me me' : inv p -> p.(mcs) !! m = Some me -> me'.(group) = me.(group) ->
  me'.(m_state) = me.(m_state) -> me'.(m_rec) = me.(m_rec) -> me'.(called) = me.(called) ->
  attached me' = attached me -> holding me' = holding me -> freed_by_cb me' = freed_by_cb me -> queued me' = queued me ->
  me'.(m_refcount) - me.(m_refcount) = (match me'.(at_) with FreeWait _ => 0 | _ => 1 end) - (match me.(at_) with FreeWait _ => 0 | _ => 1 end)
    + Z.of_nat me'.(derefs) - Z.of_nat me.(derefs) ->
  match me'.(at_) with Finding | Allocating | Queuing => me'.(at_) = me.(at_) | _ => True end ->
  inv (put_member p m me').
Proof.
  intros Hinv Hm Hg Hst Hr Hc Ha Hh Hf Hq Href Hat. apply (inv_member _ _ _ me); [done|done| |].
  - intros g. cbn. unfold in_group. rewrite Hg, Hst, Hr, Hc, Ha, Hh, Hf, Hq. done.
  - destruct (inv_members _ _ Hinv m me Hm) as [Href0 Hgrp Hcb Hnew Hcalled]. split; rewrite ?Hg, ?Hst, ?Hc, ?Hh, ?Hf; try done.
    + unfold thread_refs in *. rewrite Hg. lia.
    + unfold queued in Hq. destruct (at_ me'), (at_ me); try done.
    + unfold called_ok. by rewrite Hg, Hst, Hc.
Qed.

Lemma do_deref_keeps p m cb : inv p -> enabled granted p (DoDeref m cb) -> keeps p (DoDeref m cb).
Proof.
  intros Hinv (me & Hm & Hat). unfold keeps. cbn. unfold free_deref. rewrite Hm. cbn [mbind option_bind].
  unfold deref_member. cbn. rewrite lookup_insert_eq. cbn [mbind option_bind]. eexists. split; [done|].
  unfold put_member. cbn. rewrite insert_insert_eq. change (inv (put_member p m (with_ref (with_stage me (FreeWait cb)) (m_refcount me - 1)))).
  apply (unseen_keeps _ _ me); try done; unfold attached, holding, freed_by_cb, queued; cbn; rewrite Hat; try done. lia.
Qed.

Lemma sender_deref_keeps p m : inv p -> enabled granted p (SenderDeref m) -> keeps p (SenderDeref m).
Proof.
  intros Hinv (me & Hm & Hd). unfold keeps. cbn. unfold sender_deref. rewrite Hm. cbn [mbind option_bind].
  unfold deref_member. cbn. rewrite lookup_insert_eq. cbn [mbind option_bind]. eexists. split; [done|].
  unfold put_member. cbn. rewrite insert_insert_eq. change (inv (put_member p m (with_ref (with_derefs me (Nat.pred (derefs me))) (m_refcount me - 1)))).
  apply (unseen_keeps _ _ me); try done; cbn; [lia|by destruct (at_ me)].
Qed.

Lemma do_kfree_keeps p m cb : inv p -> enabled granted p (DoKfree m cb) -> keeps p (DoKfree m cb).
Proof.
  intros Hinv (me & Hm & Hat & Hz). pose proof (inv_members _ _ Hinv m me Hm) as [Href _ _ Hnew _].
  assert (Hh : holding me = false) by (unfold holding; by rewrite Hat).
  rewrite Hat in Href, Hnew. destruct Hnew as [g Hgm]. unfold keeps. cbn. unfold free_kfree. rewrite Hm. cbn [mbind option_bind].
  destruct cb.
  - assert (Hf : freed_by_cb me = true) by (unfold freed_by_cb; by rewrite Hat).
    destruct (mo_cb _ _ _ (inv_members _ _ Hinv m me Hm) Hf) as (g' & gr & e & Hg' & Hg & Ho). simplify_eq.
    rewrite Hgm. cbn [mbind option_bind]. cbn. rewrite Hg. cbn [mbind option_bind]. rewrite Ho. eexists. split; [done|].
    refine (inv_delete_blocked _ p m me g gr _ Hinv Hm Hh Hgm Hg _ _); [by rewrite Ho|by destruct e; [right|left]].
  - eexists. split; [done|]. apply (inv_delete_member _ _ _ me); [done|done|done|]. intros g0 gr Hg0 Hg Hs. simplify_eq.
    rewrite (with_group_refs _ (owner gr) _ _ g gr) in Href by done.
    assert (Hn : holds (owner gr) m = false) by (destruct (holds (owner gr) m); [cbn in Href; lia|done]).
    pose proof (go_thread _ _ _ _ (inv_groups _ _ Hinv g gr Hg)) as Ht. unfold thread_ok in Ht.
    destruct (owner gr); cbn in Hs, Hn; try done; injection Hs as ->; rewrite ?Z.eqb_refl in Hn; try done.
    destruct Ht as (me0 & Hm0 & _ & Hf). simplify_eq. unfold freed_by_cb in Hf. by rewrite Hat in Hf.
Qed.
(** ** The group's thread *)

(** The thread moves on by itself, dealing with no member. *)
Lemma thread_moves p g gr gr' :
  inv p -> p.(groups) !! g = Some gr ->
  gr.(owner) <> NoOwner -> gr'.(owner) <> NoOwner ->
  thread_ok p.(mcs) g gr' -> gr'.(g_refcount) = gr.(g_refcount) -> gr'.(releases) = gr.(releases) ->
  gr'.(pending_list) = gr.(pending_list) -> gr'.(active_list) = gr.(active_list) -> gr'.(members) = gr.(members) ->
  gr'.(g_state) <> MCAST_IDLE ->
  (granted -> forall m me, p.(mcs) !! m = Some me -> is_active g me = true -> granted_ok g gr me -> granted_ok g gr' me) ->
  group_ok p.(mcs) g gr'.
Proof.
  intros Hinv Hg Ho Ho' Ht Eref Erel Ep Ea Em Est Hgr. pose proof (inv_groups _ _ Hinv g gr Hg) as Hgo.
  apply (group_only _ _ _ gr); try done.
  - rewrite Eref, Erel. unfold owned. destruct (owner gr), (owner gr'); done.
  - intros Hgt m me Hm Hok Hact. by apply (Hgr Hgt m me).
Qed.

Lemma thread_keeps p g gr gr' :
  inv p -> p.(groups) !! g = Some gr -> subject gr.(owner) = None -> subject gr'.(owner) = None ->
  gr.(owner) <> NoOwner -> gr'.(owner) <> NoOwner -> (gr.(owner) = WaitLeave -> g ∉ p.(retrying)) ->
  thread_ok p.(mcs) g gr' -> gr'.(g_refcount) = gr.(g_refcount) -> gr'.(releases) = gr.(releases) ->
  gr'.(pending_list) = gr.(pending_list) -> gr'.(active_list) = gr.(active_list) -> gr'.(members) = gr.(members) ->
  gr'.(rec).(mgid) = gr.(rec).(mgid) -> gr'.(g_state) <> MCAST_IDLE ->
  (granted -> forall m me, p.(mcs) !! m = Some me -> is_active g me = true -> granted_ok g gr me -> granted_ok g gr' me) ->
  inv (put_group p g gr').
Proof.
  intros Hinv Hg Hs Hs' Ho Ho' Hw Ht Eref Erel Ep Ea Em Egid Est Hgr.
  apply (inv_group _ _ _ gr); try done; [auto|intros m'; right; by rewrite Hs, Hs'|]. by apply (thread_moves p g gr).
Qed.

Lemma busy_not_idle p g gr : inv p -> p.(groups) !! g = Some gr -> gr.(owner) <> NoOwner -> gr.(g_state) <> MCAST_IDLE.
Proof. intros Hinv Hg Ho Hs. by apply Ho, (go_idle _ _ _ _ (inv_groups _ _ Hinv g gr Hg)). Qed.

(** The thread takes a reference to a member it found in a list, or gives its
    reference back. *)
Lemma inv_thread_member p g gr gr' m me me' :
  inv p -> p.(groups) !! g = Some gr -> p.(mcs) !! m = Some me -> me.(group) = Some g ->
  (subject gr.(owner) = None \/ subject gr.(owner) = Some m) -> (subject gr'.(owner) = None \/ subject gr'.(owner) = Some m) ->
  gr.(owner) <> WaitLeave -> gr'.(rec).(mgid) = gr.(rec).(mgid) ->
  me'.(group) = me.(group) -> me'.(at_) = me.(at_) \/ me.(at_) = Held /\ me'.(at_) = FreeLock ->
  (freed_by_cb me' = true -> exists e, gr'.(owner) = Blocked m e) ->
  queued me = true ->
  me'.(m_refcount) - me.(m_refcount) = c_bool (holds gr'.(owner) m) - c_bool (holds gr.(owner) m) +
    Z.of_nat me'.(derefs) - Z.of_nat me.(derefs) ->
  called_ok (<[g := gr']> p.(groups)) m me' ->
  group_ok (<[m := me']> p.(mcs)) g gr' ->
  inv (put_member (put_group p g gr') m me').
Proof.
  intros Hinv Hg Hm Hgm Hs Hs' Hw Egid Egrp Eat Hf Hq Eref Hc Hgo. pose proof (inv_members _ _ Hinv m me Hm) as [Href Hgrp Hcb Hnew _].
  apply (inv_both _ _ g gr); try done.
  - apply same_thread_subject. right. destruct Hs as [-> | ->], Hs' as [-> | ->]; split; congruence.
  - naive_solver.
  - congruence.
  - rewrite (with_group_refs _ (owner gr) _ _ g gr) in Href by done. split; try done.
    + rewrite (with_group_refs _ (owner gr') _ _ g gr'); [|congruence|apply lookup_insert_eq|done].
      assert ((match at_ me' with FreeWait _ => 0 | _ => 1 end) = (match at_ me with FreeWait _ => 0 | _ => 1 end)) as ->
        by (by destruct Eat as [-> | [-> ->]]).
      lia.
    + intros _. exists g, gr'. rewrite Egrp. split; [done|apply lookup_insert_eq].
    + intros Hfr. destruct (Hf Hfr) as [e He]. exists g, gr', e. rewrite Egrp. split; [done|]. split; [apply lookup_insert_eq|done].
    + unfold queued in Hq. rewrite Egrp. by destruct Eat as [-> | [Ee ->]]; [destruct (at_ me)|rewrite Ee in Hnew].
Qed.

(** The thread leaves the member as it is but for its references. *)
Lemma put_member_id p m me : p.(mcs) !! m = Some me -> put_member p m me = p.
Proof. intros Hm. unfold put_member. rewrite insert_id by done. by destruct p. Qed.

Lemma pending_facts p g gr m : inv p -> p.(groups) !! g = Some gr -> m ∈ gr.(pending_list) ->
  exists me, p.(mcs) !! m = Some me /\ pending_ok g me /\ queued me = true /\ is_active g me = false /\ m ∉ gr.(active_list).
Proof.
  intros Hinv Hg Hin. pose proof (inv_groups _ _ Hinv g gr Hg) as Hgo.
  destruct (go_pending _ _ _ _ Hgo m Hin) as (me & Hm & Hgm & Ha & Hst & Hc). exists me. split; [done|]. split; [done|].
  unfold attached in Ha. unfold queued, is_active. rewrite Hst, andb_false_r.
  split; [by destruct (at_ me)|]. split; [done|].
  intros (me0 & ? & (_ & _ & ?)%is_active_spec)%(go_active _ _ _ _ Hgo). congruence.
Qed.

(** A member in the hands of the group's thread is not being freed by it. *)
Lemma not_blocked p m me g gr : inv p -> p.(mcs) !! m = Some me -> me.(group) = Some g -> p.(groups) !! g = Some gr ->
  (forall e, gr.(owner) <> Blocked m e) -> freed_by_cb me = false.
Proof.
  intros Hinv Hm Hgm Hg Hno. destruct (freed_by_cb me) eqn:Hf; [|done].
  destruct (blocked_owner p m me g gr Hinv Hm Hf Hgm Hg) as [e He]. by destruct (Hno e).
Qed.
Lemma not_active p g gr m me : inv p -> p.(groups) !! g = Some gr -> p.(mcs) !! m = Some me -> is_active g me = false ->
  m ∉ gr.(active_list).
Proof.
  intros Hinv Hg Hm Hf (me0 & ? & ?)%(go_active _ _ _ _ (inv_groups _ _ Hinv g gr Hg)). congruence.
Qed.

(** A join fails: the member leaves the pending list and will be called back. *)
Lemma fail_keeps p g gr m me status n :
  inv p -> p.(groups) !! g = Some gr -> p.(mcs) !! m = Some me -> me.(group) = Some g ->
  (subject gr.(owner) = None \/ subject gr.(owner) = Some m) -> gr.(owner) <> NoOwner -> gr.(owner) <> WaitLeave ->
  (forall e, gr.(owner) <> Blocked m e) ->
  queued me = true -> me.(m_state) = MCAST_JOINING -> me.(called) = [] -> status <> 0 ->
  n = me.(m_refcount) + 1 - c_bool (holds gr.(owner) m) ->
  inv (put_member (put_group p g (set_owner (list_del_init gr m) (Callback m status))) m (with_ref me n)).
Proof.
  intros Hinv Hg Hm Hgm Hs Ho Hw Hnb Hq Hst Hc Hstatus ->. pose proof (inv_groups _ _ Hinv g gr Hg) as Hgo.
  assert (Hact : is_active g me = false) by (unfold is_active; by rewrite Hst, andb_false_r).
  pose proof (not_active p g gr m me Hinv Hg Hm Hact) as Hna.
  apply (inv_thread_member _ _ gr _ _ me); try done; [by right|by left| | | |].
  - intros Hf. change (freed_by_cb me = true) in Hf. by rewrite (not_blocked p m me g gr) in Hf.
  - cbn. rewrite Z.eqb_refl. cbn. lia.
  - unfold called_ok. cbn. rewrite Hst. by left.
  - assert (Hio : gr.(g_state) <> MCAST_IDLE) by by apply (busy_not_idle p g).
    assert (Hactive : forall x, x <> m -> x ∈ unlist m gr.(active_list) <-> x ∈ gr.(active_list)).
    { intros x Hx. rewrite elem_of_unlist. tauto. }
    apply (group_both _ _ _ gr _ _ me); try done.
    + cbn. change (holds_group g (with_ref me _)) with (holds_group g me). unfold owned. cbn. destruct (owner gr); [done|..]; lia.
    + apply nodup_unlist, Hgo.
    + cbn. rewrite elem_of_unlist. change (is_active g (with_ref me _)) with (is_active g me). rewrite Hact. split; [tauto|done].
    + cbn. intros m' Hne. rewrite elem_of_unlist. tauto.
    + cbn. rewrite elem_of_unlist. tauto.
    + cbn. intros f ->. apply map_ext. intros i. change (active_in g i (with_ref me _)) with (active_in g i me). lia.
    + unfold thread_ok. cbn. eexists. rewrite lookup_insert_eq. split; [done|]. cbn. rewrite elem_of_unlist, (proj2 (Z.eqb_neq _ _)) by done.
      split; [done|]. split; [done|]. split; [tauto|done].
    + intros Hgt. unfold granted_ok. change (is_active g (with_ref me _)) with (is_active g me). by rewrite Hact.
Qed.

(** The thread takes the first pending member to send its join. *)
Lemma to_send_keeps p g gr m me :
  inv p -> p.(groups) !! g = Some gr -> gr.(owner) = Retest -> m ∈ gr.(pending_list) -> p.(mcs) !! m = Some me ->
  inv (put_member (put_group p g (set_owner gr (SendJoin m))) m (refcount_inc me)).
Proof.
  intros Hinv Hg Ho Hin Hm. pose proof (inv_groups _ _ Hinv g gr Hg) as Hgo.
  destruct (pending_facts p g gr m Hinv Hg Hin) as (me0 & Hm0 & Hp & Hq & Hact & Hna). simplify_eq.
  pose proof Hp as (Hgm & Ha & Hst & Hc).
  apply (inv_thread_member _ _ gr _ _ me); try done; [by rewrite Ho; left|by right|by rewrite Ho|by left| | | |].
  - intros Hf. change (freed_by_cb me = true) in Hf. rewrite (not_blocked p m me g gr) in Hf; try done. by rewrite Ho.
  - cbn. rewrite Z.eqb_refl, Ho. cbn. lia.
  - unfold called_ok. cbn. rewrite Hst. by left.
  - assert (Hio : gr.(g_state) <> MCAST_IDLE) by (apply (busy_not_idle p g); rewrite ?Ho; done).
    apply (group_both_same _ _ _ gr _ _ me); try done.
    + change (holds_group g (refcount_inc me)) with (holds_group g me). cbn. unfold owned. cbn. rewrite Ho. lia.
    + unfold thread_ok. cbn. eexists. rewrite lookup_insert_eq. done.
Qed.

(** The first pending member joins what the group has joined already. *)
Lemma join_group_keeps p g gr m me js gr' me' :
  inv p -> p.(groups) !! g = Some gr -> gr.(owner) = Retest -> m ∈ gr.(pending_list) -> p.(mcs) !! m = Some me ->
  js = me.(m_rec).(join_state) -> join_group gr m (refcount_inc me) js = (gr', me') ->
  inv (put_member (put_group p g (set_owner gr' (Callback m 0))) m me').
Proof.
  intros Hinv Hg Ho Hin Hm -> Ej. pose proof (inv_groups _ _ Hinv g gr Hg) as Hgo.
  destruct (pending_facts p g gr m Hinv Hg Hin) as (me0 & Hm0 & Hp & Hq & Hact & Hna). simplify_eq.
  pose proof Hp as (Hgm & Ha & Hst & Hc). unfold join_group in Ej. injection Ej as <- <-.
  assert (Hio : gr.(g_state) <> MCAST_IDLE) by (apply (busy_not_idle p g); rewrite ?Ho; done).
  apply (inv_thread_member _ _ gr _ _ me); try done; [by rewrite Ho; left|by right|by rewrite Ho|by left| | | |].
  - intros Hf. change (freed_by_cb me = true) in Hf. rewrite (not_blocked p m me g gr) in Hf; try done. by rewrite Ho.
  - cbn. rewrite Z.eqb_refl, Ho. cbn. lia.
  - unfold called_ok. cbn. right. split; [done|]. exists g. eexists. split; [done|]. by rewrite lookup_insert_eq.
  - match goal with |- group_ok (<[m := ?x]> _) _ _ => set (me' := x) end.
    assert (Hact' : is_active g me' = true) by (apply is_active_spec; done).
    apply (group_both _ _ _ gr _ _ me); try done.
    + change (holds_group g me') with (holds_group g me). cbn. unfold owned. cbn. rewrite Ho. lia.
    + cbn. rewrite <- Permutation_middle. apply list.NoDup_cons. rewrite list.elem_of_app, !elem_of_unlist.
      split; [tauto|]. apply nodup_unlist, Hgo.
    + intros m' Hne. cbn. rewrite list.elem_of_cons, elem_of_unlist. tauto.
    + rewrite Hact'. cbn. rewrite list.elem_of_cons. tauto.
    + intros m' Hne. cbn. rewrite elem_of_unlist. tauto.
    + cbn. rewrite elem_of_unlist. tauto.
    + intros f Hf. cbn. rewrite Hf, adjust_membership_map. apply map_ext. intros i. unfold active_in. rewrite Hact, Hact'.
      subst me'. cbn. destruct (Z.testbit _ i); cbn; lia.
    + unfold thread_ok. cbn. exists me'. rewrite lookup_insert_eq. split; [done|]. rewrite elem_of_unlist. subst me'. cbn.
      split; [done|]. split; [done|]. split; [tauto|done].
    + intros Hgt. unfold granted_ok. cbn. split.
      * intros _. apply land_subset_bits. intros i Hi Hb. by rewrite Z.lor_spec, Hb, orb_true_r.
      * intros m' me0 Hne Hm' Hok Hact0. specialize (Hok Hact0). apply land_subset_bits. intros i Hi Hb.
        rewrite Z.lor_spec. apply orb_true_iff. left. by apply (proj1 (land_subset_bits _ _) Hok).
Qed.
(** Leaving a state that no member has: the members' states stay. *)
Lemma leave_granted p g gr m me : inv p -> p.(groups) !! g = Some gr -> p.(mcs) !! m = Some me -> is_active g me = true ->
  granted_ok g gr me -> granted_ok g (set_rec gr (set_join_state gr.(rec) (Z.ldiff gr.(rec).(join_state) (get_leave_state gr)))) me.
Proof.
  intros Hinv Hg Hm Hact Hok _. specialize (Hok Hact). cbn. apply land_subset_bits. intros i Hi Hb.
  rewrite Z.ldiff_spec. pose proof (proj1 (land_subset_bits _ _) Hok i Hi Hb) as Hr. rewrite Hr. cbn [andb].
  unfold get_leave_state. rewrite (go_members _ _ _ _ (inv_groups _ _ Hinv g gr Hg)), Z.land_spec, empty_states_bit by done.
  assert (Hpos : 0 < count (active_in g i) p.(mcs)).
  { apply (proj2 (count_pos _ _) m me Hm). unfold active_in. by rewrite Hact, Hb. }
  rewrite (proj2 (Z.eqb_neq _ _)) by lia. by rewrite andb_false_r.
Qed.

Lemma idle_keeps p g gr : inv p -> p.(groups) !! g = Some gr -> gr.(owner) = Retest -> gr.(pending_list) = [] ->
  get_leave_state gr = 0 ->
  inv (put_group p g (set_releases (set_owner (set_state gr MCAST_IDLE) NoOwner) (S gr.(releases)))).
Proof.
  intros Hinv Hg Ho Hp Hl. pose proof (inv_groups _ _ Hinv g gr Hg) as Hgo.
  apply (inv_group _ _ _ gr); try done; [by rewrite Ho|intros m'; right; by rewrite Ho|].
  apply (group_only _ _ _ gr); try done. cbn. unfold owned. cbn. rewrite Ho. lia.
Qed.

Lemma work_keeps p g : inv p -> enabled granted p (Work g) -> keeps p (Work g).
Proof.
  intros Hinv (gr & Hg & Ho). pose proof (inv_groups _ _ Hinv g gr Hg) as Hgo.
  assert (Hio : gr.(g_state) <> MCAST_IDLE) by (apply (busy_not_idle p g); rewrite ?Ho; done).
  unfold keeps. cbn. unfold mcast_work_handler. rewrite Hg. cbn [mbind option_bind]. case_decide as Hb.
  { eexists. split; [done|]. apply (thread_keeps p g gr); try done; rewrite Ho; done. }
  destruct (pending_list gr) as [|m ms] eqn:Ep.
  - destruct (c_true (get_leave_state gr)) eqn:El.
    + eexists. split; [done|]. apply (thread_keeps p g gr); try done; try (rewrite Ho; done).
      intros _ m me Hm Hact Hok. exact (leave_granted p g gr m me Hinv Hg Hm Hact Hok).
    + eexists. split; [done|]. apply idle_keeps; try done. by apply c_true_false.
  - assert (Hin : m ∈ gr.(pending_list)) by (rewrite Ep; left).
    destruct (pending_facts p g gr m Hinv Hg Hin) as (me & Hm & (Hgm & Ha & Hst & Hc) & Hq & Hact & Hna).
    rewrite Hm. cbn [mbind option_bind]. destruct (_ =? Z.land _ _); [|eexists; split; [done|by apply to_send_keeps]].
    destruct (c_true (cmp_rec _ _ _)) eqn:Es; cbn [negb].
    + eexists. split; [done|]. apply c_true_spec in Es.
      apply (fail_keeps p g gr m me); try done; rewrite Ho; try done; [by left|cbn; lia].
    + apply c_true_false in Es. rewrite Es.
      destruct (join_group gr m (refcount_inc me) (join_state (m_rec me))) as [gr' me'] eqn:Ej. eexists. split; [done|].
      by apply (join_group_keeps p g gr m me _ gr' me' Hinv Hg Ho Hin Hm eq_refl).
Qed.

(** What the thread is about to tell a member, the member may be told. *)
Definition to_tell (o : thread) (m status : Z) : Prop := o = Callback m status \/ o = ErrCallback m /\ status = - ENETRESET.

Lemma told_called p g gr m me status : inv p -> p.(groups) !! g = Some gr -> p.(mcs) !! m = Some me ->
  to_tell gr.(owner) m status ->
  m ∉ gr.(pending_list) /\ forall gs st, called_ok gs m (with_ref (with_stage (with_called me (status :: me.(called))) st) (me.(m_refcount) - 1)).
Proof.
  intros Hinv Hg Hm Ho. pose proof (inv_groups _ _ Hinv g gr Hg) as Hgo.
  pose proof (go_thread _ _ _ _ Hgo) as Ht. unfold thread_ok in Ht. unfold called_ok. cbn.
  destruct Ho as [E|[E ->]]; rewrite E in Ht.
  - destruct Ht as (me0 & Hm0 & _ & _ & Hnp & Hc & Hst). simplify_eq. split; [done|]. intros gs st. rewrite Hst, Hc.
    destruct (Z.eqb_spec status 0) as [->|]; [by left|right; by exists status].
  - destruct Ht as (me0 & Hm0 & _ & _ & Hc & Hst). simplify_eq. rewrite Hst, Hc. split; [|by left].
    intros (me1 & Hm1 & _ & _ & Hst1 & _)%(go_pending _ _ _ _ Hgo). congruence.
Qed.

(** Where the thread goes and where the member is after a callback. *)
Definition after (o : thread) (s : stage) (m : Z) (me : mcast_member) : Prop :=
  (o = Retest \/ o = ErrLoop) /\ s = me.(at_) \/ (exists e, o = Blocked m e) /\ s = FreeLock /\ me.(at_) = Held.

Lemma told_keeps p g gr m me status o s :
  inv p -> p.(groups) !! g = Some gr -> p.(mcs) !! m = Some me -> to_tell gr.(owner) m status -> after o s m me ->
  inv (put_member (put_group p g (set_owner gr o)) m
      (with_ref (with_stage (with_called me (status :: me.(called))) s) (me.(m_refcount) - 1))).
Proof.
  intros Hinv Hg Hm Ho Haft. pose proof (inv_groups _ _ Hinv g gr Hg) as Hgo.
  destruct (told_called p g gr m me status Hinv Hg Hm Ho) as [Hnp Hcalled].
  assert (Hs : holds gr.(owner) m = true) by (destruct Ho as [-> | [-> _]]; cbn; apply Z.eqb_refl).
  destruct (subject_member _ _ _ _ (go_thread _ _ _ _ Hgo) (holds_subject _ _ Hs)) as (me0 & Hm0 & Hgm & Hq). simplify_eq.
  assert (Hown : owned gr = 1 /\ gr.(owner) <> WaitLeave /\ gr.(owner) <> NoOwner /\ forall e, gr.(owner) <> Blocked m e).
  { unfold owned. by destruct Ho as [-> | [-> _]]. }
  destruct Hown as (Hone & Hw & Hno & Hnb). pose proof (not_blocked p m me g gr Hinv Hm Hgm Hg Hnb) as Hf.
  pose proof (busy_not_idle p g gr Hinv Hg Hno) as Hio. set (me' := with_ref _ _).
  assert (Hview : attached me' = attached me /\ holding me' = holding me).
  { unfold attached, holding. subst me'. cbn. by destruct Haft as [[_ ->] | (_ & -> & ->)]. }
  destruct Hview as [Ea Eh].
  assert (Ho' : o <> NoOwner /\ holds o m = false /\ (subject o = None \/ subject o = Some m)).
  { destruct Haft as [[[-> | ->] _] | ([e ->] & _)]; auto. }
  destruct Ho' as (Hno' & Hnh & Hso).
  apply (inv_thread_member _ _ gr _ _ me); try done.
  - right. by apply holds_subject.
  - destruct Haft as [[_ ->]|(_ & -> & ->)]; auto.
  - intros Hf'. destruct Haft as [[_ ->]|(He & _)]; [|done]. change (freed_by_cb me = true) in Hf'. congruence.
  - cbn. rewrite Hs, Hnh. cbn. lia.
  - apply Hcalled.
  - apply (group_both_same _ _ _ gr _ _ me); try done.
    + unfold holds_group. rewrite Eh. change (in_group g me') with (in_group g me). cbn. rewrite Hone. unfold owned. cbn.
      destruct o; try done; lia.
    + unfold is_active. by rewrite Ea.
    + unfold thread_ok. cbn. destruct Haft as [[[-> | ->] _] | ([e ->] & Es & _)]; [done|done|].
      exists me'. rewrite lookup_insert_eq. unfold freed_by_cb. cbn. by rewrite Es.
Qed.

(** A callback: the member has been told, and is freed if it asked for it. *)
Lemma after_callback_keeps p g gr m me status ret error :
  inv p -> p.(groups) !! g = Some gr -> p.(mcs) !! m = Some me -> to_tell gr.(owner) m status ->
  (ret <> 0 -> me.(at_) = Held) ->
  exists p', after_callback p g m status ret error = Some p' /\ inv p'.
Proof.
  intros Hinv Hg Hm Ho Hret. unfold after_callback. rewrite Hg, Hm. cbn [mbind option_bind]. unfold deref_member.
  destruct (c_true ret) eqn:Er; cbn; rewrite lookup_insert_eq; cbn [mbind option_bind]; eexists; (split; [done|]);
    unfold put_member; cbn; rewrite insert_insert_eq.
  - apply c_true_spec in Er. apply (told_keeps p g gr m me status (Blocked m error) FreeLock); try done. right. eauto.
  - apply (told_keeps p g gr m me status (if error then ErrLoop else Retest) me.(at_)); try done. left. by destruct error; auto.
Qed.

Lemma callback_keeps p g ret : inv p -> enabled granted p (UserCallback g ret) -> keeps p (UserCallback g ret).
Proof.
  intros Hinv (gr & m & Hg & Ho & Hret). pose proof (inv_groups _ _ Hinv g gr Hg) as Hgo.
  assert (Hs : holds gr.(owner) m = true) by (destruct Ho as [[st ->] | ->]; cbn; apply Z.eqb_refl).
  destruct (subject_member _ _ _ _ (go_thread _ _ _ _ Hgo) (holds_subject _ _ Hs)) as (me & Hm & _).
  assert (Hret' : ret <> 0 -> me.(at_) = Held) by (intros Hr; destruct (Hret Hr) as (me0 & ? & ?); by simplify_eq).
  unfold keeps. cbn. unfold callback. rewrite Hg. cbn [mbind option_bind]. destruct Ho as [[st Ho]|Ho]; rewrite Ho.
  - apply (after_callback_keeps p g gr m me); try done. by left.
  - apply (after_callback_keeps p g gr m me); try done. by right.
Qed.
(** ** Queries *)

Lemma at_SendJoin p g gr m : inv p -> p.(groups) !! g = Some gr -> gr.(owner) = SendJoin m ->
  exists me, p.(mcs) !! m = Some me /\ me.(group) = Some g /\ queued me = true /\ me.(called) = [] /\ me.(m_state) = MCAST_JOINING.
Proof.
  intros Hinv Hg Ho. pose proof (go_thread _ _ _ _ (inv_groups _ _ Hinv g gr Hg)) as Ht. unfold thread_ok in Ht. by rewrite Ho in Ht.
Qed.

Lemma send_join_keeps p g m ret : inv p -> enabled granted p (DoSendJoin g m ret) -> keeps p (DoSendJoin g m ret).
Proof.
  intros Hinv (gr & Hg & Ho). pose proof (inv_groups _ _ Hinv g gr Hg) as Hgo.
  destruct (at_SendJoin p g gr m Hinv Hg Ho) as (me & Hm & Hgm & Hq & Hc & Hst).
  assert (Hio : gr.(g_state) <> MCAST_IDLE) by (apply (busy_not_idle p g); rewrite ?Ho; done).
  assert (Hf : freed_by_cb me = false) by (apply (not_blocked p m me g gr); try done; by rewrite Ho).
  assert (Hact : is_active g me = false) by (unfold is_active; by rewrite Hst, andb_false_r).
  unfold keeps. cbn. unfold send_join. rewrite Hg, Hm. cbn [mbind option_bind]. set (r := if 0 <? ret then 0 else ret).
  destruct (c_true r) eqn:Er; eexists; (split; [done|]).
  - apply c_true_spec in Er. rewrite <- (put_member_id (put_group p g _) m me) by done.
    apply (inv_thread_member _ _ gr _ _ me); try done; [by rewrite Ho; right|by right|by rewrite Ho|by left|by rewrite Hf| | |].
    + rewrite Ho. cbn. lia.
    + unfold called_ok. rewrite Hst. by left.
    + apply (group_both_same _ _ _ gr _ _ me); try done.
      * cbn. unfold owned. cbn. rewrite Ho. lia.
      * intros Hin. destruct (pending_facts p g gr m Hinv Hg Hin) as (me0 & Hm0 & Hp & _). by simplify_eq.
      * unfold thread_ok. cbn. split; [done|]. exists me. by rewrite lookup_insert_eq.
  - apply (inv_thread_member _ _ gr _ _ me); try done; [by rewrite Ho; right|by left|by rewrite Ho|by left| | | |].
    + intros Hf'. change (freed_by_cb me = true) in Hf'. congruence.
    + rewrite Ho. cbn. rewrite Z.eqb_refl. cbn. lia.
    + unfold called_ok. cbn. rewrite Hst. by left.
    + apply (group_both_same _ _ _ gr _ _ me); try done.
      * change (holds_group g (with_derefs me _)) with (holds_group g me). cbn. unfold owned. cbn. rewrite Ho. lia.
      * intros Hin. destruct (pending_facts p g gr m Hinv Hg Hin) as (me0 & Hm0 & Hp & _). by simplify_eq.
Qed.

Lemma fail_join_keeps p g m status : inv p -> enabled granted p (DoFailJoin g m status) -> keeps p (DoFailJoin g m status).
Proof.
  intros Hinv (gr & Hg & Ho). pose proof (go_thread _ _ _ _ (inv_groups _ _ Hinv g gr Hg)) as Ht. unfold thread_ok in Ht.
  rewrite Ho in Ht. destruct Ht as (Hstatus & me & Hm & Hgm & Hq & Hc & Hst).
  unfold keeps. cbn. unfold fail_join. rewrite Hg, Hm. cbn [mbind option_bind]. eexists. split; [done|].
  rewrite <- (put_member_id (put_group p g _) m me) by done.
  assert (E : with_ref me (m_refcount me) = me) by (by destruct me). rewrite <- E.
  apply (fail_keeps p g gr m me); try done; rewrite Ho; try done; [by right|cbn; rewrite Z.eqb_refl; cbn; lia].
Qed.

Lemma leave_sent_keeps p g leave ret : inv p -> enabled granted p (DoSendLeave g leave ret) -> keeps p (DoSendLeave g leave ret).
Proof.
  intros Hinv (gr & Hg & Ho). assert (Hio : gr.(g_state) <> MCAST_IDLE) by (apply (busy_not_idle p g); rewrite ?Ho; done).
  unfold keeps. cbn. unfold leave_sent. rewrite Hg. cbn [mbind option_bind]. unfold send_leave. cbn [fst snd].
  eexists. split; [done|]. destruct (c_true _); apply (thread_keeps p g gr); try done; rewrite Ho; done.
Qed.

Lemma find_pkey_keeps p g answer : inv p -> enabled granted p (DoFindPkey g answer) -> keeps p (DoFindPkey g answer).
Proof.
  intros Hinv (gr & Hg & Ho). assert (Hio : gr.(g_state) <> MCAST_IDLE) by (apply (busy_not_idle p g); rewrite ?Ho; done).
  pose proof (go_thread _ _ _ _ (inv_groups _ _ Hinv g gr Hg)) as Ht. unfold thread_ok in Ht. rewrite Ho in Ht.
  unfold keeps. cbn. unfold find_pkey. rewrite Hg. cbn [mbind option_bind]. eexists. split; [done|].
  apply (thread_keeps p g gr); try done; try (rewrite Ho; done). unfold thread_ok. cbn. case_decide as Es; [done|].
  by destruct (g_state gr).
Qed.

(** ** Errors *)

Lemma active_facts p g gr m : inv p -> p.(groups) !! g = Some gr -> m ∈ gr.(active_list) ->
  exists me, p.(mcs) !! m = Some me /\ me.(group) = Some g /\ attached me = true /\ me.(m_state) = MCAST_MEMBER /\
    is_active g me = true /\ m ∉ gr.(pending_list) /\ queued me = true.
Proof.
  intros Hinv Hg Hin. pose proof (inv_groups _ _ Hinv g gr Hg) as Hgo.
  pose proof Hin as (me & Hm & Hact)%(go_active _ _ _ _ Hgo). exists me. pose proof Hact as (Hgm & Ha & Hst)%is_active_spec.
  repeat (split; [done|]). split.
  - intros (me0 & ? & _ & _ & ? & _)%(go_pending _ _ _ _ Hgo). congruence.
  - unfold attached in Ha. unfold queued. by destruct (at_ me).
Qed.

Lemma reset_keeps p g gr m ms me :
  inv p -> p.(groups) !! g = Some gr -> gr.(active_list) = m :: ms -> p.(mcs) !! m = Some me ->
  subject gr.(owner) = None -> gr.(owner) <> NoOwner -> gr.(owner) <> WaitLeave ->
  inv (put_member (put_group p g (set_owner (set_members (list_del_init gr m)
    (adjust_membership gr.(members) me.(m_rec).(join_state) (-1))) (ErrCallback m))) m (with_state (refcount_inc me) MCAST_ERROR)).
Proof.
  intros Hinv Hg El Hm Hs Ho Hw. pose proof (inv_groups _ _ Hinv g gr Hg) as Hgo.
  assert (Hin : m ∈ gr.(active_list)) by (rewrite El; left).
  destruct (active_facts p g gr m Hinv Hg Hin) as (me0 & Hm0 & Hgm & Ha & Hst & Hact & Hnp & Hq). simplify_eq.
  pose proof (busy_not_idle p g gr Hinv Hg Ho) as Hio.
  assert (Hf : freed_by_cb me = false) by (apply (not_blocked p m me g gr); try done; intros e E; by rewrite E in Hs).
  assert (Hh : holds gr.(owner) m = false).
  { destruct (holds (owner gr) m) eqn:E; [|done]. apply holds_subject in E. congruence. }
  pose proof (mo_called _ _ _ (inv_members _ _ Hinv m me Hm)) as Hc. unfold called_ok in Hc. rewrite Hst in Hc.
  assert (Hcalled : me.(called) = [0]).
  { destruct Hc as [?|(_ & g0 & gr0 & Hg0 & Hgr0 & E)]; [done|]. simplify_eq. by rewrite E in Hs. }
  set (me' := with_state _ _). assert (Hact' : is_active g me' = false) by (unfold is_active; by rewrite andb_false_r).
  apply (inv_thread_member _ _ gr _ _ me); try done; [by left|by right|by left| | | |].
  - intros Hf'. change (freed_by_cb me = true) in Hf'. congruence.
  - cbn. rewrite Z.eqb_refl, Hh. cbn. lia.
  - unfold called_ok. cbn. by right.
  - apply (group_both _ _ _ gr _ _ me); try done.
    + change (holds_group g me') with (holds_group g me). cbn. unfold owned. cbn. destruct (owner gr); try done; lia.
    + apply nodup_unlist, Hgo.
    + intros m' Hne. cbn. rewrite elem_of_unlist. tauto.
    + rewrite Hact'. cbn. rewrite elem_of_unlist. split; [tauto|done].
    + intros m' Hne. cbn. rewrite elem_of_unlist. tauto.
    + cbn. rewrite elem_of_unlist. tauto.
    + intros f Hfs. cbn. rewrite Hfs, adjust_membership_map. apply map_ext. intros i. unfold active_in. rewrite Hact, Hact'.
      cbn. destruct (Z.testbit _ i); cbn; lia.
    + unfold thread_ok. cbn. exists me'. by rewrite lookup_insert_eq.
    + intros Hgt. unfold granted_ok. by rewrite Hact'.
Qed.

Lemma error_loop_keeps p g gr : inv p -> p.(groups) !! g = Some gr ->
  subject gr.(owner) = None -> gr.(owner) <> NoOwner -> gr.(owner) <> WaitLeave ->
  exists p', error_loop p g = Some p' /\ inv p'.
Proof.
  intros Hinv Hg Hs Ho Hw. pose proof (busy_not_idle p g gr Hinv Hg Ho) as Hio.
  unfold error_loop. rewrite Hg. cbn [mbind option_bind]. destruct (active_list gr) as [|m ms] eqn:El.
  - eexists. split; [done|]. apply (thread_keeps p g gr); try done. intros _ m me Hm Hact.
    assert (Hin : m ∈ gr.(active_list)) by (apply (go_active _ _ _ _ (inv_groups _ _ Hinv g gr Hg)); by exists me).
    rewrite El in Hin. by apply elem_of_nil in Hin.
  - assert (Hin : m ∈ gr.(active_list)) by (rewrite El; left).
    destruct (active_facts p g gr m Hinv Hg Hin) as (me & Hm & _). rewrite Hm. cbn [mbind option_bind].
    eexists. split; [done|]. by apply (reset_keeps p g gr m ms me).
Qed.

Lemma do_error_keeps p g index : inv p -> enabled granted p (DoError g index) -> keeps p (DoError g index).
Proof.
  intros Hinv (gr & Hg & Ho). assert (Hio : gr.(g_state) <> MCAST_IDLE) by (apply (busy_not_idle p g); rewrite ?Ho; done).
  pose proof (go_thread _ _ _ _ (inv_groups _ _ Hinv g gr Hg)) as Ht. unfold thread_ok in Ht. rewrite Ho in Ht.
  assert (Hloop : exists p', error_loop p g = Some p' /\ inv p') by (apply (error_loop_keeps p g gr); rewrite ?Ho; done).
  unfold keeps. cbn. unfold process_group_error. rewrite Hg. cbn [mbind option_bind]. case_decide as Es; [|done].
  destruct index as [[i|]|]; [|done|congruence]. destruct (_ =? i); [|done].
  eexists. split; [done|]. apply (thread_keeps p g gr); try done; rewrite Ho; done.
Qed.

Lemma do_error_loop_keeps p g : inv p -> enabled granted p (DoErrorLoop g) -> keeps p (DoErrorLoop g).
Proof. intros Hinv (gr & Hg & Ho). apply (error_loop_keeps p g gr); rewrite ?Ho; done. Qed.
(** ** Answers of the subnet administrator *)

Lemma join_error_keeps p g gr status : inv p -> p.(groups) !! g = Some gr -> gr.(owner) = WaitJoin -> status <> 0 ->
  exists p', process_join_error p g status = Some p' /\ inv p'.
Proof.
  intros Hinv Hg Ho Hst. assert (Hio : gr.(g_state) <> MCAST_IDLE) by (apply (busy_not_idle p g); rewrite ?Ho; done).
  assert (Hretest : inv (put_group p g (set_owner gr Retest))) by (apply (thread_keeps p g gr); try done; rewrite Ho; done).
  unfold process_join_error. rewrite Hg. cbn [mbind option_bind].
  destruct (pending_list gr) as [|m ms] eqn:Ep; [by eexists|]. case_decide; [|by eexists].
  assert (Hin : m ∈ gr.(pending_list)) by (rewrite Ep; left).
  destruct (pending_facts p g gr m Hinv Hg Hin) as (me & Hm & (Hgm & Ha & Hjoin & Hc) & Hq & Hact & Hna).
  rewrite Hm. cbn [mbind option_bind]. eexists. split; [done|].
  apply (fail_keeps p g gr m me); try done; rewrite Ho; try done; [by left|cbn; lia].
Qed.

(** A group whose MGID changed is linked again in its place. *)
Lemma rehash_table p g gr gr' :
  inv p -> p.(groups) !! g = Some gr -> gr.(owner) <> WaitLeave ->
  (gr'.(rec).(mgid) = 0 \/ forall g', mgid_of p g' <> Some gr'.(rec).(mgid)) ->
  exists t t', erase p.(table) g = Some t /\
    mcast_insert (mgid_of (put_group p g gr')) t g (gr'.(rec).(mgid) =? 0) = Some (t', None) /\
    table_ok (mk_port (<[g := gr']> p.(groups)) p.(mcs) t' p.(refcount) p.(retrying)).
Proof.
  intros [[Hnd Hlink Hord Hcnt Hret] _ _] Hg Hw Hfree.
  assert (Hin : g ∈ nodes p.(table)) by (apply Hlink; by eexists).
  assert (Hother : forall g', g' <> g -> mgid_of (put_group p g gr') g' = mgid_of p g').
  { intros g' Hne. unfold mgid_of. cbn. by rewrite lookup_insert_ne. }
  assert (Hnodes : forall x, x ∈ nodes (rb_erase g p.(table)) <-> x <> g /\ x ∈ nodes p.(table)).
  { intros x. by rewrite nodes_erase, list_elem_of_filter. }
  exists (rb_erase g p.(table)).
  destruct (mcast_insert_free (mgid_of (put_group p g gr')) (rb_erase g p.(table)) g gr'.(rec).(mgid)) as (t' & Hins & Hord' & Hperm).
  - intros x [Hne Hx]%Hnodes. rewrite Hother by done. apply Hlink in Hx as [grx Hgrx]. unfold mgid_of. rewrite Hgrx. by eexists.
  - apply (ordered_ext (mgid_of p)); [intros x [Hne _]%Hnodes; by apply Hother|]. rewrite nodes_erase by done. by apply ordered_filter.
  - unfold mgid_of. cbn. by rewrite lookup_insert_eq.
  - destruct Hfree as [?|Hfree]; [by left|right]. intros x [Hne _]%Hnodes. rewrite Hother by done. apply Hfree.
  - exists t'. split; [unfold erase; by rewrite decide_True|]. split; [done|].
    assert (Hnd' : NoDup (nodes t')).
    { rewrite Hperm. apply list.NoDup_cons. rewrite Hnodes. split; [tauto|]. rewrite nodes_erase by done. by apply list.NoDup_filter. }
    split; cbn; try done.
    + intros x. rewrite Hperm, list.elem_of_cons, Hnodes, Hlink. destruct (decide (x = g)) as [->|Hne].
      * rewrite lookup_insert_eq. split; [by eexists|by left].
      * rewrite lookup_insert_ne by done. tauto.
    + by rewrite map_size_insert_Some by (by eexists).
    + intros x Hx. destruct (Hret x Hx) as (grx & Hgrx & Hox). exists grx. split; [|done]. rewrite lookup_insert_ne; congruence.
Qed.

Lemma join_answer_keeps p g status r index :
  inv p -> enabled granted p (JoinAnswer g status r index) -> keeps p (JoinAnswer g status r index).
Proof.
  intros Hinv (gr & Hg & Ho & Hgid & Hgrant). unfold keeps. cbn. unfold join_handler. destruct (c_true status) eqn:Es.
  { apply c_true_spec in Es. by apply (join_error_keeps p g gr). }
  apply c_true_false in Es. specialize (Hgid Es). specialize (Hgrant Es). rewrite Hg. cbn [mbind option_bind].
  set (gr0 := if bool_decide _ && _ then _ else gr). set (gr' := set_owner (set_rec gr0 r) Retest).
  assert (Hio : gr.(g_state) <> MCAST_IDLE) by (apply (busy_not_idle p g); rewrite ?Ho; done).
  assert (Hgo : group_ok p.(mcs) g gr').
  { apply (thread_moves p g gr); try done; subst gr' gr0; try (destruct (bool_decide _ && _); done); [by rewrite Ho|].
    intros Hgt m me Hm Hact Hok _. specialize (Hok Hact). cbn. apply land_subset_bits. intros i Hi Hb.
    apply (proj1 (land_subset_bits _ _) (Hgrant Hgt) i Hi). by apply (proj1 (land_subset_bits _ _) Hok). }
  assert (Hst : forall m', same_thread m' gr.(owner) gr'.(owner)) by (intros m'; right; by rewrite Ho).
  destruct (Z.eqb_spec r.(mgid) gr.(rec).(mgid)) as [Egid|Hne]; cbn [negb].
  - eexists. split; [done|]. apply (inv_group _ _ _ gr); try done. by rewrite Ho.
  - destruct (rehash_table p g gr gr') as (t & t' & He & Hins & Htab); [done|done|by rewrite Ho|by destruct Hgid as [?|?]|].
    cbn [table put_group]. rewrite He. cbn [mbind option_bind]. change (r.(mgid)) with (gr'.(rec).(mgid)). rewrite Hins.
    cbn [mbind option_bind]. eexists. split; [done|]. by apply (inv_group_table _ p _ g gr gr').
Qed.

Lemma retrying_table p g gr gr' l :
  inv p -> p.(groups) !! g = Some gr -> gr'.(rec).(mgid) = gr.(rec).(mgid) -> gr'.(owner) = WaitLeave ->
  (forall x, x ∈ l -> x = g \/ x ∈ p.(retrying)) ->
  table_ok (mk_port (<[g := gr']> p.(groups)) p.(mcs) p.(table) p.(refcount) l).
Proof.
  intros Hinv Hg Hgid Ho Hl. pose proof (table_ok_put p (put_group p g gr') g gr gr' (inv_table _ _ Hinv) Hg Hgid) as Htab.
  destruct Htab as [Hnd Hlink Hord Hcnt Hret]; try done; [by left|]. split; try done.
  intros x [->|Hx]%Hl; [exists gr'; cbn; by rewrite lookup_insert_eq|]. by apply Hret.
Qed.

Lemma leave_answer_keeps p g status ret : inv p -> enabled granted p (LeaveAnswer g status ret) -> keeps p (LeaveAnswer g status ret).
Proof.
  intros Hinv [(gr & Hg & Ho) Hnr]. assert (Hio : gr.(g_state) <> MCAST_IDLE) by (apply (busy_not_idle p g); rewrite ?Ho; done).
  unfold keeps. cbn. unfold leave_handler. rewrite Hg. cbn [mbind option_bind]. unfold send_leave.
  assert (Hretest : forall gr', gr'.(rec) = gr.(rec) -> set_owner gr' Retest = set_owner (set_leave_state gr gr'.(leave_state)) Retest ->
    inv (put_group p g (set_owner gr' Retest))).
  { intros gr' Er ->. apply (thread_keeps p g gr); try done; rewrite Ho; done. }
  destruct (_ && _); [|eexists; split; [done|]; apply Hretest; [done|by destruct gr]].
  destruct (negb _); eexists; (split; [done|]); [|by apply Hretest].
  set (gr' := set_owner _ WaitLeave).
  apply (inv_group_table _ p _ g gr gr'); try done.
  - apply (retrying_table p g gr); try done. intros x. by rewrite list.elem_of_cons.
  - intros m'. right. by rewrite Ho.
  - apply (thread_moves p g gr); try done. by rewrite Ho.
Qed.

Lemma retry_counted_keeps p g : inv p -> enabled granted p (RetryCounted g) -> keeps p (RetryCounted g).
Proof.
  intros Hinv Hin. destruct (to_retrying _ (inv_table _ _ Hinv) g Hin) as (gr & Hg & Ho).
  assert (Hio : gr.(g_state) <> MCAST_IDLE) by (apply (busy_not_idle p g); rewrite ?Ho; done).
  unfold keeps. cbn. unfold retry_counted. rewrite Hg. cbn [mbind option_bind]. eexists. split; [done|].
  set (gr' := set_retries gr _).
  apply (inv_group_table _ p _ g gr gr'); try done.
  - apply (retrying_table p g gr); try done. intros x. rewrite elem_of_unlist. tauto.
  - intros m'. by left.
  - apply (thread_moves p g gr); try done; [by rewrite Ho|by cbn; rewrite Ho|]. unfold thread_ok. cbn. by rewrite Ho.
Qed.

Lemma idle_release_keeps p g : inv p -> enabled granted p (IdleRelease g) -> keeps p (IdleRelease g).
Proof.
  intros Hinv (gr & Hg & Hrel). pose proof (inv_groups _ _ Hinv g gr Hg) as Hgo.
  unfold keeps. cbn. unfold idle_release. rewrite Hg. cbn [mbind option_bind].
  apply (release_keeps _ g (set_releases gr (Nat.pred gr.(releases)))); [apply lookup_insert_eq|].
  unfold put_group. cbn. rewrite insert_insert_eq. set (gr' := set_ref _ _).
  change (inv (put_group p g gr')). apply (inv_group _ _ _ gr); try done; [by left|by left|].
  apply (group_only _ _ _ gr); try done; try apply Hgo.
  - subst gr'. cbn. unfold owned. cbn. lia.
Qed.
(** ** Events *)

Lemma event_one p g gr st : inv p -> p.(groups) !! g = Some gr -> (st = MCAST_GROUP_ERROR \/ st = MCAST_PKEY_EVENT) ->
  inv (put_group p g (group_event st gr)).
Proof.
  intros Hinv Hg Hst. pose proof (inv_groups _ _ Hinv g gr Hg) as Hgo. pose proof (go_idle _ _ _ _ Hgo) as Hidle.
  set (gr' := group_event st gr).
  assert (Hgr' : gr'.(rec) = gr.(rec) /\ gr'.(pending_list) = gr.(pending_list) /\ gr'.(active_list) = gr.(active_list) /\
    gr'.(members) = gr.(members) /\ gr'.(releases) = gr.(releases) /\ gr'.(g_refcount) - owned gr' = gr.(g_refcount) - owned gr /\
    gr'.(g_state) <> MCAST_IDLE /\ gr'.(owner) <> NoOwner /\
    (gr'.(owner) = gr.(owner) \/ gr'.(owner) = Retest /\ gr.(owner) = NoOwner) /\
    (gr.(g_state) = MCAST_GROUP_ERROR -> gr'.(g_state) = MCAST_GROUP_ERROR) /\ gr'.(g_state) <> MCAST_BUSY).
  { subst gr'. unfold group_event, owned. destruct (decide (g_state gr = MCAST_IDLE)) as [E|E].
    - pose proof (proj1 Hidle E) as Eo. rewrite E, (decide_True (P := MCAST_IDLE <> MCAST_GROUP_ERROR)) by done.
      destruct Hst as [-> | ->]; cbn; rewrite Eo; repeat split; auto; try lia; done.
    - assert (owner gr <> NoOwner) by tauto. destruct (decide (g_state gr <> MCAST_GROUP_ERROR)) as [Eg|Eg]; cbn.
      + destruct Hst as [-> | ->]; repeat split; auto. done.
      + destruct (g_state gr); try (by destruct Eg). repeat split; auto. }
  clearbody gr'. destruct Hgr' as (Er & Ep & Ea & Em & Erel & Eref & Hs & Ho & Hown & Herr & Hb).
  apply (inv_group _ _ _ gr); try done.
  - by rewrite Er.
  - intros Hw. left. destruct Hown as [->|[_ ?]]; [done|congruence].
  - intros m'. destruct Hown as [->|[-> ->]]; [by left|by right].
  - apply (group_only _ _ _ gr); try done; [lia| |by intros Hgt m me Hm; unfold granted_ok; rewrite Er].
    destruct Hown as [Hown|[Hown _]]; [|unfold thread_ok; by rewrite Hown].
    apply (thread_ok_put _ _ gr); try done; [by rewrite Ep; left|apply Hgo].
Qed.

Lemma groups_event_keeps p gs st : inv p -> (forall g, g ∈ gs -> is_Some (p.(groups) !! g)) ->
  (st = MCAST_GROUP_ERROR \/ st = MCAST_PKEY_EVENT) -> exists p', groups_event p gs st = Some p' /\ inv p'.
Proof.
  intros Hinv Hgs Hst. revert p Hinv Hgs. induction gs as [|g gs IH]; intros p Hinv Hgs; cbn [groups_event]; [by eexists|].
  destruct (Hgs g) as [gr Hg]; [by left|]. rewrite Hg. cbn [mbind option_bind]. apply IH; [by apply event_one|].
  intros g' Hg'. cbn. destruct (decide (g' = g)) as [->|Hne]; [rewrite lookup_insert_eq; by eexists|].
  rewrite lookup_insert_ne by done. apply Hgs. by right.
Qed.

Lemma event_keeps p cap e : inv p -> keeps p (Event cap e).
Proof.
  intros Hinv. unfold keeps. cbn. unfold mcast_event_handler, mcast_groups_event. destruct cap; cbn [negb]; [|by eexists].
  destruct e; try (by eexists); (apply groups_event_keeps; [done|intros g Hg; by apply (to_linked _ (inv_table _ _ Hinv))|auto]).
Qed.

(** ** Every step *)

Lemma step_keeps p s : inv p -> enabled granted p s -> keeps p s.
Proof.
  intros Hinv Hen. destruct s.
  - by apply join_keeps.
  - by apply acquire_find_keeps.
  - by apply acquire_insert_keeps.
  - by apply queue_join_keeps.
  - by apply free_keeps.
  - by apply do_release_keeps.
  - by apply do_deref_keeps.
  - by apply do_kfree_keeps.
  - by apply work_keeps.
  - by apply callback_keeps.
  - by apply send_join_keeps.
  - by apply sender_deref_keeps.
  - by apply fail_join_keeps.
  - by apply leave_sent_keeps.
  - by apply find_pkey_keeps.
  - by apply do_error_keeps.
  - by apply do_error_loop_keeps.
  - by apply join_answer_keeps.
  - by apply leave_answer_keeps.
  - by apply retry_counted_keeps.
  - by apply idle_release_keeps.
  - by apply event_keeps.
Qed.

(** The ports that runs within the contract lead to. *)
Inductive reachable : mcast_port -> Prop :=
  | reachable_start : reachable mcast_add_one
  | reachable_step p s p' : reachable p -> enabled granted p s -> exec p s = Some p' -> reachable p'.

Lemma mcast_reachable_inv p : reachable p -> inv p.
Proof.
  induction 1 as [|p s p' _ IH Hen He].
  - split; cbn; try (by intros ?? ?%lookup_empty_Some). split; cbn.
    + constructor.
    + intros g. rewrite lookup_empty. split; [by intros ?%elem_of_nil|by intros []].
    + constructor.
    + by rewrite map_size_empty.
    + by intros g ?%elem_of_nil.
  - destruct (step_keeps p s IH Hen) as (p0 & He' & Hinv). congruence.
Qed.
End steps.
