(* ===== verification/MulticastLive.v ===== *)
(** What runs of the multicast groups guarantee: safety, agreement with the
    subnet administrator, what a user is told, the end of a wait; and runs in
    which the code does what it should not. *)

From S2P Require Import Prelude Counting McastTable Multicast MulticastSafe MulticastRun.
#[local] Open Scope Z_scope.

(** ** No group without a reference *)

Section runs.
Context `{RbTreeLaws}.

Definition positive (p : mcast_port) : Prop := forall g gr, p.(groups) !! g = Some gr -> 0 < gr.(g_refcount).


Lemma positive_groups p p' : p'.(groups) = p.(groups) -> positive p -> positive p'.
Proof. unfold positive. by intros ->. Qed.












(** ** Safety *)


(** ** What a user is told *)

(** A member's callback is called once with the outcome of its join, and
    after a success once more at most, with [-ENETRESET]; while it waits it has
    heard nothing, and while it is in the group it has heard of its success, or
    is just being told. *)
Theorem multicast_callbacks (p : mcast_port) m me : reachable False p -> p.(mcs) !! m = Some me ->
  (rev me.(called) = [] \/ (exists status, rev me.(called) = [status]) \/ rev me.(called) = [0; - ENETRESET]) /\
  (forall g gr, p.(groups) !! g = Some gr ->
     (m ∈ gr.(pending_list) -> me.(called) = []) /\
     (m ∈ gr.(active_list) -> me.(called) = [0] \/ me.(called) = [] /\ gr.(owner) = Callback m 0) /\
     (m ∈ gr.(active_list) -> m ∉ gr.(pending_list))).
Proof.
  intros Hr Hm. pose proof (mcast_reachable_inv _ _ Hr) as Hinv. pose proof (mo_called _ _ _ (inv_members _ _ Hinv m me Hm)) as Hc.
  unfold called_ok in Hc. split.
  - destruct (m_state me).
    + destruct Hc as [-> | (st & _ & ->)]; [by left|right; left; by exists st].
    + destruct Hc as [-> | [-> _]]; [right; left; by exists 0|by left].
    + destruct Hc as [-> | ->]; [by right; right|right; left; by exists 0].
  - intros g gr Hg. split; [|split].
    + intros Hin. destruct (pending_facts _ p g gr m Hinv Hg Hin) as (me0 & Hm0 & (_ & _ & _ & Hn) & _). by simplify_eq.
    + intros Hin. destruct (active_facts _ p g gr m Hinv Hg Hin) as (me0 & Hm0 & Hgm & _ & Hst & _). simplify_eq.
      rewrite Hst in Hc. destruct Hc as [?|(? & g' & gr' & ? & ? & ?)]; [by left|right]. by simplify_eq.
    + intros Hin. by destruct (active_facts _ p g gr m Hinv Hg Hin) as (_ & _ & _ & _ & _ & _ & Hn & _).
Qed.

(** ** The end of a wait *)

(** A run of steps that may all come. *)
Fixpoint legal (granted : Prop) (p : mcast_port) (l : list step) (p' : mcast_port) : Prop :=
  match l with
  | [] => p' = p
  | s :: l => enabled granted p s /\ exists p1, exec p s = Some p1 /\ legal granted p1 l p'
  end.

Lemma legal_reachable granted p l p' : reachable granted p -> legal granted p l p' -> reachable granted p'.
Proof.
  revert p. induction l as [|s l IH]; intros p Hr; cbn; [by intros ->|]. intros (Hen & p1 & He & Hl).
  apply (IH p1); [|done]. by apply (reachable_step granted p s).
Qed.

(** A step of the group's thread or of a sender; no user's. *)
Definition own_step (s : step) : Prop :=
  match s with UserCallback _ _ | DoSendJoin _ _ _ | DoFailJoin _ _ _ | SenderDeref _ => True | _ => False end.

Definition waits (p : mcast_port) (m : Z) (cb : bool) (n : nat) (b : bool) : Prop :=
  exists me, p.(mcs) !! m = Some me /\ me.(at_) = FreeWait cb /\ me.(derefs) = n /\ (thread_refs p.(groups) m me = c_bool b).

Lemma senders_finish p m cb n : reachable False p -> waits p m cb n false ->
  exists l p', legal False p l p' /\ length l = n /\ Forall own_step l /\ enabled False p' (DoKfree m cb).
Proof.
  revert p. induction n as [|n IH]; intros p Hr (me & Hm & Hat & Hd & Ht); pose proof (mcast_reachable_inv _ _ Hr) as Hinv.
  - exists [], p. repeat split; [done|]. exists me. split; [done|]. split; [done|].
    rewrite (mo_ref _ _ _ (inv_members _ _ Hinv m me Hm)), Hat, Hd, Ht. done.
  - assert (Hen : enabled False p (SenderDeref m)) by (exists me; split; [done|lia]).
    destruct (step_keeps _ p _ Hinv Hen) as (p1 & He & _). pose proof (reachable_step _ _ _ _ Hr Hen He) as Hr1.
    destruct (IH p1 Hr1) as (l & p' & Hl & Hlen & Hf & Hk).
    { cbn in He. unfold sender_deref, deref_member in He. rewrite Hm in He. cbn in He. rewrite lookup_insert_eq in He. cbn in He.
      injection He as <-. eexists. cbn. rewrite lookup_insert_eq. split; [done|]. cbn. rewrite Hd. done. }
    exists (SenderDeref m :: l), p'. split; [split; [done|by exists p1]|]. split; [cbn; lia|]. split; [by constructor|done].
Qed.

(** The thread's own steps make it let the member go. *)
Lemma callback_finishes p m g gr me cb n status : reachable False p -> p.(mcs) !! m = Some me -> me.(at_) = FreeWait cb ->
  me.(derefs) = n -> me.(group) = Some g -> p.(groups) !! g = Some gr ->
  (gr.(owner) = Callback m status \/ gr.(owner) = ErrCallback m) ->
  exists p1, enabled False p (UserCallback g 0) /\ exec p (UserCallback g 0) = Some p1 /\ waits p1 m cb n false.
Proof.
  intros Hr Hm Hat Hd Hgm Hg Ho.
  assert (Hen : enabled False p (UserCallback g 0)) by (exists gr, m; split; [done|]; split; [destruct Ho; eauto|done]).
  destruct (step_keeps _ p _ (mcast_reachable_inv _ _ Hr) Hen) as (p1 & He & _). exists p1. split; [done|]. split; [done|].
  cbn in He. unfold callback, after_callback, deref_member in He. rewrite Hg in He. cbn [mbind option_bind] in He.
  destruct Ho as [Ho|Ho]; rewrite Ho in He; cbn [mbind option_bind] in He; rewrite Hm in He; cbn in He; rewrite lookup_insert_eq in He; cbn in He;
    injection He as <-; eexists; cbn; rewrite lookup_insert_eq; (split; [done|]); (split; [done|]); (split; [done|]);
    unfold thread_refs; cbn; rewrite Hgm, lookup_insert_eq; done.
Qed.

(** So the wait ends when the thread is about to call back. *)
Lemma called_back p m g gr me cb status : reachable False p -> p.(mcs) !! m = Some me -> me.(at_) = FreeWait cb ->
  me.(group) = Some g -> p.(groups) !! g = Some gr -> (gr.(owner) = Callback m status \/ gr.(owner) = ErrCallback m) ->
  exists l p', legal False p l p' /\ (length l <= me.(derefs) + 1)%nat /\ Forall own_step l /\ enabled False p' (DoKfree m cb).
Proof.
  intros Hr Hm Hat Hgm Hg Ho.
  destruct (callback_finishes p m g gr me cb (derefs me) status) as (p1 & Hen & He & Hw); try done.
  destruct (senders_finish p1 m cb (derefs me)) as (l & p' & Hl & Hlen & Hf & Hk); [by apply (reachable_step _ p (UserCallback g 0))|done|].
  exists (UserCallback g 0 :: l), p'. split; [split; [done|by exists p1]|]. split; [cbn; lia|]. split; [by constructor|done].
Qed.

Lemma thread_refs_cases gs m me : thread_refs gs m me = 0 \/
  exists g gr, me.(group) = Some g /\ gs !! g = Some gr /\ holds gr.(owner) m = true.
Proof.
  unfold thread_refs. destruct (group me) as [g|]; [|by left]. destruct (gs !! g) as [gr|] eqn:Hg; [|by left]. cbn.
  destruct (holds (owner gr) m) eqn:E; [right; by exists g, gr|by left].
Qed.

(** A user who waits in [ib_sa_free_multicast] does not wait for ever, and not
    for itself: from any state a few steps of the group's thread and of senders,
    one for each reference left and at most two to finish what the thread is
    at, make the completion done, so that the member is freed. *)
Theorem free_multicast_returns (p : mcast_port) m me cb : reachable False p -> p.(mcs) !! m = Some me -> me.(at_) = FreeWait cb ->
  exists l p', legal False p l p' /\ (length l <= me.(derefs) + 2)%nat /\ Forall own_step l /\ enabled False p' (DoKfree m cb).
Proof.
  intros Hr Hm Hat. pose proof (mcast_reachable_inv _ _ Hr) as Hinv.
  destruct (thread_refs_cases p.(groups) m me) as [Hz|(g & gr & Hgm & Hg & Hh)].
  { destruct (senders_finish p m cb (derefs me)) as (l & p' & Hl & Hlen & Hf & Hk); [done|by exists me|].
    exists l, p'. split; [done|]. split; [lia|done]. }
  destruct (owner gr) as [| |m' status|m'|m' status| | | | | | |m'|] eqn:Ho; cbn in Hh; try done; apply Z.eqb_eq in Hh as ->.
  - destruct (called_back p m g gr me cb status) as (l & p' & ? & ? & ?); auto. exists l, p'. split; [done|]. split; [lia|done].
  - assert (Hen : enabled False p (DoSendJoin g m 1)) by by exists gr.
    destruct (step_keeps _ p _ Hinv Hen) as (p1 & He & _). pose proof (reachable_step _ _ _ _ Hr Hen He) as Hr1.
    destruct (senders_finish p1 m cb (S (derefs me))) as (l & p' & Hl & Hlen & Hf & Hk); [done| |].
    { cbn in He. unfold send_join in He. rewrite Hg, Hm in He. cbn in He. injection He as <-. eexists. cbn.
      rewrite lookup_insert_eq. split; [done|]. split; [done|]. split; [done|]. unfold thread_refs. cbn. by rewrite Hgm, lookup_insert_eq. }
    exists (DoSendJoin g m 1 :: l), p'. split; [split; [done|by exists p1]|]. split; [cbn; lia|]. split; [by constructor|done].
  - assert (Hen : enabled False p (DoFailJoin g m status)) by by exists gr.
    destruct (step_keeps _ p _ Hinv Hen) as (p1 & He & _). pose proof (reachable_step _ _ _ _ Hr Hen He) as Hr1. pose proof He as He'.
    cbn in He'. unfold fail_join in He'. rewrite Hg, Hm in He'. cbn in He'. injection He' as <-.
    destruct (called_back _ m g _ me cb status Hr1 Hm Hat Hgm (lookup_insert_eq _ _ _) (or_introl eq_refl)) as (l & p' & Hl & Hlen & Hf & Hk).
    exists (DoFailJoin g m status :: l), p'. split; [split; [done|by eexists]|]. split; [cbn; lia|]. split; [by constructor|done].
  - destruct (called_back p m g gr me cb 0) as (l & p' & ? & ? & ?); auto. exists l, p'. split; [done|]. split; [lia|done].
Qed.
(** ** Checking a run *)

Definition at_stageb (p : mcast_port) (m : Z) (s : stage) : bool :=
  from_option (fun me => bool_decide (me.(at_) = s)) false (p.(mcs) !! m).
Definition at_threadb (p : mcast_port) (g : Z) (o : thread) : bool :=
  from_option (fun gr => bool_decide (gr.(owner) = o)) false (p.(groups) !! g).

Definition enabledb (p : mcast_port) (s : step) : bool :=
  match s with
  | Join _ k _ _ => from_option (fun m => bool_decide (p.(mcs) !! m = None)) true k
  | AcquireFind m => at_stageb p m Finding
  | AcquireInsert m k => at_stageb p m Allocating && from_option (fun g => bool_decide (p.(groups) !! g = None)) true k
  | QueueJoin m => at_stageb p m Queuing
  | Free m cb => at_stageb p m (if cb then FreeLock else Held)
  | DoRelease m cb => at_stageb p m (FreeRelease cb)
  | DoDeref m cb => at_stageb p m (FreeDeref cb)
  | DoKfree m cb => from_option (fun me => bool_decide (me.(at_) = FreeWait cb) && (me.(m_refcount) =? 0)) false (p.(mcs) !! m)
  | Work g => at_threadb p g Retest
  | UserCallback g ret =>
      from_option (fun gr => match gr.(owner) with
                             | Callback m _ | ErrCallback m => (ret =? 0) || at_stageb p m Held
                             | _ => false
                             end) false (p.(groups) !! g)
  | DoSendJoin g m _ => at_threadb p g (SendJoin m)
  | SenderDeref m => from_option (fun me => 0 <? Z.of_nat me.(derefs)) false (p.(mcs) !! m)
  | DoFailJoin g m status => at_threadb p g (FailJoin m status)
  | DoSendLeave g leave _ => at_threadb p g (SendLeave leave)
  | DoFindPkey g _ => at_threadb p g ErrEntry
  | DoError g index => at_threadb p g (ErrStart index)
  | DoErrorLoop g => at_threadb p g ErrLoop
  | JoinAnswer g status r _ =>
      from_option (fun gr => bool_decide (gr.(owner) = WaitJoin) && (negb (status =? 0) || (r.(mgid) =? gr.(rec).(mgid)) && (Z.land r.(join_state) gr.(rec).(join_state) =? gr.(rec).(join_state)))) false (p.(groups) !! g)
  | LeaveAnswer g _ _ => at_threadb p g WaitLeave && bool_decide (g ∉ p.(retrying))
  | RetryCounted g => bool_decide (g ∈ p.(retrying))
  | IdleRelease g => from_option (fun gr => 0 <? Z.of_nat gr.(releases)) false (p.(groups) !! g)
  | Event _ _ => true
  end.

Lemma at_stageb_sound p m s : at_stageb p m s = true -> at_stage p m s.
Proof. unfold at_stageb. destruct (p.(mcs) !! m) as [me|] eqn:E; [|done]. intros Hs%bool_decide_eq_true. by exists me. Qed.

Lemma at_threadb_sound p g o : at_threadb p g o = true -> at_thread p g o.
Proof. unfold at_threadb. destruct (p.(groups) !! g) as [gr|] eqn:E; [|done]. intros Hs%bool_decide_eq_true. by exists gr. Qed.

Lemma enabledb_sound granted p s : enabledb p s = true -> enabled granted p s.
Proof.
  destruct s; cbn; intros Hs; try (by apply at_stageb_sound); try (by apply at_threadb_sound); try done.
  - intros m ->. by apply bool_decide_eq_true in Hs.
  - apply andb_prop in Hs as [Hs Hk]. split; [by apply at_stageb_sound|]. intros g ->. by apply bool_decide_eq_true in Hk.
  - destruct (p.(mcs) !! m) as [me|] eqn:E; [|done]. cbn in Hs. apply andb_prop in Hs as [Hs%bool_decide_eq_true Hz%Z.eqb_eq]. by exists me.
  - destruct (p.(groups) !! g) as [gr|] eqn:E; [|done]. cbn in Hs.
    assert (Hret : forall m, (ret =? 0) || at_stageb p m Held = true -> ret <> 0 -> at_stage p m Held).
    { intros m [Hz%Z.eqb_eq|Ha]%orb_prop Hr; [done|by apply at_stageb_sound]. }
    destruct (owner gr) eqn:Ho; try done; exists gr, m; (split; [done|]); (split; [|by apply Hret]); [left; by exists status|by right].
  - destruct (p.(mcs) !! m) as [me|] eqn:E; [|done]. cbn in Hs. apply Z.ltb_lt in Hs. exists me. split; [done|lia].
  - destruct (p.(groups) !! g) as [gr|] eqn:E; [|done]. cbn in Hs. apply andb_prop in Hs as [Ho%bool_decide_eq_true Hr].
    exists gr. split; [done|]. split; [done|]. apply orb_prop in Hr as [Hn%negb_true_iff%Z.eqb_neq|[Hr%Z.eqb_eq Hjs%Z.eqb_eq]%andb_prop]; [done|]. split; [by left|done].
  - apply andb_prop in Hs as [Hs Hr%bool_decide_eq_true]. split; [by apply at_threadb_sound|done].
  - by apply bool_decide_eq_true in Hs.
  - destruct (p.(groups) !! g) as [gr|] eqn:E; [|done]. cbn in Hs. apply Z.ltb_lt in Hs. exists gr. split; [done|lia].
Qed.

Fixpoint legalb (p : mcast_port) (l : list step) : option mcast_port :=
  match l with [] => Some p | s :: l => if enabledb p s then p ← exec p s; legalb p l else None end.

Lemma legalb_sound granted p l p' : legalb p l = Some p' -> legal granted p l p'.
Proof.
  revert p. induction l as [|s l IH]; intros p; cbn; [by intros [= <-]|]. destruct (enabledb p s) eqn:E; [|done].
  destruct (exec p s) as [p1|] eqn:He; [|done]. cbn. intros Hl. split; [by apply enabledb_sound|]. exists p1. auto.
Qed.

Lemma checked_reachable granted l p : legalb mcast_add_one l = Some p -> reachable granted p.
Proof. intros Hl%(legalb_sound granted). eapply legal_reachable; [apply reachable_start|done]. Qed.
End runs.

(** ** Concrete runs *)

(** A record for an MGID and the states to join. *)
Definition rec_of (gid js : Z) : ib_sa_mcmember_rec := set_join_state (zero_rec gid) js.

(** Member [m] joins the group of MGID [gid] at address [g], up to the moment its
    join is with the administrator. *)
Definition sends_join (m gid js : Z) (new : bool) : list step :=
  [Join true (Some m) (rec_of gid js) 0; AcquireFind m] ++ (if new then [AcquireInsert m (Some 100)] else []) ++
  [QueueJoin m; Work 100; DoSendJoin 100 m 1; SenderDeref m].

(** It is told that it is a member, and the group comes to rest. *)
Definition is_told (gid js index : Z) : list step :=
  [JoinAnswer 100 0 (rec_of gid js) (Some index); Work 100; UserCallback 100 0; Work 100; IdleRelease 100].

Definition port_of (l : list step) : mcast_port := default mcast_add_one (legalb mcast_add_one l).

Definition joined : mcast_port := Eval vm_compute in port_of (sends_join 1 5 1 true ++ is_told 5 1 3).

Lemma joined_reachable granted : reachable granted joined.
Proof. apply (checked_reachable granted (sends_join 1 5 1 true ++ is_told 5 1 3)). vm_compute. reflexivity. Qed.




Definition joined_member : mcast_member :=
  Eval vm_compute in default (mk_member (zero_rec 0) 0 None MCAST_JOINING 0 Finding 0 []) (joined.(mcs) !! 1).

Lemma multicast_callbacks_witness : joined.(mcs) !! 1 = Some joined_member /\
  (rev joined_member.(called) = [] \/ (exists status, rev joined_member.(called) = [status]) \/
   rev joined_member.(called) = [0; - ENETRESET]).
Proof.
  assert (Hm : joined.(mcs) !! 1 = Some joined_member) by (vm_compute; reflexivity).
  split; [exact Hm|]. apply (multicast_callbacks joined 1 joined_member (joined_reachable False) Hm).
Defined.

(** A member freed while its join is being sent. *)
Definition freed_early_steps : list step :=
  [Join true (Some 1) (rec_of 5 1) 0; AcquireFind 1; AcquireInsert 1 (Some 100); QueueJoin 1; Work 100;
   Free 1 false; DoRelease 1 false; DoDeref 1 false].
Definition freed_early : mcast_port := Eval vm_compute in port_of freed_early_steps.
Definition freed_early_member : mcast_member := Eval vm_compute in default joined_member (freed_early.(mcs) !! 1).

Lemma free_multicast_returns_witness : freed_early_member.(m_refcount) = 1 /\
  exists l p', legal False freed_early l p' /\ (length l <= freed_early_member.(derefs) + 2)%nat /\ Forall own_step l /\
    enabled False p' (DoKfree 1 false).
Proof.
  split; [vm_compute; reflexivity|]. apply free_multicast_returns.
  - apply (checked_reachable False freed_early_steps). vm_compute. reflexivity.
  - vm_compute. reflexivity.
  - vm_compute. reflexivity.
Defined.

(** ** Where the code relies on its surroundings *)

(** Member 1 asks for a new group; while the administrator makes it, member 2
    asks for the group of MGID 7. *)
Definition before_taken : list step :=
  sends_join 1 0 1 true ++ [Join true (Some 2) (rec_of 7 1) 0; AcquireFind 2; AcquireInsert 2 (Some 200); QueueJoin 2].

(** The answer names MGID 7. Member 1 is told, and leaves. *)
Definition after_taken : list step :=
  [Work 100; UserCallback 100 0; Work 100; IdleRelease 100; Free 1 false; DoDeref 1 false; Work 100; DoSendLeave 100 1 1;
   LeaveAnswer 100 0 0; Work 100].

Definition p_before_taken : mcast_port := Eval vm_compute in port_of before_taken.
Definition p_taken : mcast_port :=
  Eval vm_compute in default mcast_add_one (exec p_before_taken (JoinAnswer 100 0 (rec_of 7 1) None)).
Definition p_after_taken : mcast_port := Eval vm_compute in default mcast_add_one (legalb p_taken after_taken).

(** A member joins and leaves; the leave is answered with an error and sent again. *)
Definition before_retry : list step :=
  sends_join 1 5 1 true ++ is_told 5 1 3 ++
  [Free 1 false; DoDeref 1 false; DoKfree 1 false; Work 100; DoSendLeave 100 1 1; LeaveAnswer 100 (-110) 1].
Definition after_retry : list step := [Work 100; IdleRelease 100].

Definition p_before_retry : mcast_port := Eval vm_compute in port_of before_retry.
Definition p_retried : mcast_port := Eval vm_compute in default mcast_add_one (exec p_before_retry (LeaveAnswer 100 0 0)).
Definition p_after_retry : mcast_port := Eval vm_compute in default mcast_add_one (legalb p_retried after_retry).

(** Two answers that the code is not prepared for. When the administrator
    gives a new group an MGID that another group of the port has, [join_handler]
    takes the group out of the table, [mcast_insert] refuses to put it back, and
    the refusal is ignored: the group is in use outside the table, and erased
    from it again when it is released. And when the answer to a repeated leave
    comes before [leave_handler] has counted the repetition, the group is freed
    and [retries] decremented in freed memory. *)
Theorem multicast_unsafe_answers :
  (reachable False p_before_taken /\ exec p_before_taken (JoinAnswer 100 0 (rec_of 7 1) None) = Some p_taken /\
   100 ∉ nodes p_taken.(table) /\ is_Some (p_taken.(groups) !! 100) /\
   legal False p_taken after_taken p_after_taken /\ enabled False p_after_taken (IdleRelease 100) /\
   exec p_after_taken (IdleRelease 100) = None) /\
  (reachable False p_before_retry /\ at_thread p_before_retry 100 WaitLeave /\ p_before_retry.(retrying) = [100] /\
   exec p_before_retry (LeaveAnswer 100 0 0) = Some p_retried /\
   legal False p_retried after_retry p_after_retry /\ p_after_retry.(groups) !! 100 = None /\
   enabled False p_after_retry (RetryCounted 100) /\ exec p_after_retry (RetryCounted 100) = None).
Proof.
  split.
  - split; [apply (checked_reachable False before_taken); vm_compute; reflexivity|]. split; [vm_compute; reflexivity|].
    split; [apply (bool_decide_unpack _); vm_compute; exact I|]. split; [by eexists; vm_compute|].
    split; [apply legalb_sound; vm_compute; reflexivity|]. split; [apply enabledb_sound; vm_compute; reflexivity|].
    vm_compute. reflexivity.
  - split; [apply (checked_reachable False before_retry); vm_compute; reflexivity|].
    split; [apply at_threadb_sound; vm_compute; reflexivity|]. split; [vm_compute; reflexivity|]. split; [vm_compute; reflexivity|].
    split; [apply legalb_sound; vm_compute; reflexivity|]. split; [vm_compute; reflexivity|].
    split; [apply enabledb_sound; vm_compute; reflexivity|]. vm_compute. reflexivity.
Qed.

(** ** Where the code does not do what it means to *)

(** Member 1 is freed while its join is with the administrator, and a new member
    gets its memory; it wants to join in another state. *)
Definition first_life : list step :=
  sends_join 1 5 1 true ++ [Free 1 false; DoRelease 1 false; DoDeref 1 false; DoKfree 1 false].
Definition second_life : list step :=
  [Join true (Some 1) (rec_of 5 2) 0; AcquireFind 1; QueueJoin 1; JoinAnswer 100 (-110) (rec_of 5 0) None].
Definition p_second_life : mcast_port := Eval vm_compute in port_of (first_life ++ second_life).

Definition sends (s : step) : Prop := match s with DoSendJoin _ _ _ => True | _ => False end.
#[export] Instance sends_dec s : Decision (sends s).
Proof. destruct s; cbn; apply _. Defined.

(** The P_Key of the group moves from index 1 to 2: the members are reset, and a
    member joins again, the key still at 2. Then the table changes, the key not. *)
Definition key_moved : list step :=
  sends_join 1 5 1 true ++ is_told 5 1 1 ++
  [Event true IB_EVENT_PKEY_CHANGE; Work 100; DoFindPkey 100 (Some 2); DoError 100 (Some (Some 2)); UserCallback 100 1;
   Free 1 true; DoRelease 1 true; DoDeref 1 true; DoKfree 1 true; DoErrorLoop 100] ++
  [Join true (Some 2) (rec_of 5 1) 0; AcquireFind 2; QueueJoin 2; Work 100; DoSendJoin 100 2 1; SenderDeref 2] ++ is_told 5 1 2.
Definition key_stays : list step :=
  [Event true IB_EVENT_PKEY_CHANGE; Work 100; DoFindPkey 100 (Some 2); DoError 100 (Some (Some 2)); UserCallback 100 0].
Definition p_key_stays : mcast_port := Eval vm_compute in port_of (key_moved ++ key_stays).

(** Two runs within the contract that go wrong. [process_join_error]
    recognises the member whose join failed by its address: a member that was
    allocated where a freed one was is told of a failure although no join was
    ever sent for it. And [join_handler] records the P_Key index of a group only
    once: after the key has moved and the group was joined again, every later
    change of the P_Key table resets the members, the key unmoved. *)
Theorem multicast_flaws :
  (reachable False p_second_life /\ legalb mcast_add_one (first_life ++ second_life) = Some p_second_life /\
   Forall (fun s => ~ sends s) second_life /\ at_thread p_second_life 100 (Callback 1 (-110)) /\
   option_map (fun me => me.(m_rec).(join_state)) (p_second_life.(mcs) !! 1) = Some 2) /\
  (reachable False p_key_stays /\ legalb mcast_add_one (key_moved ++ key_stays) = Some p_key_stays /\
   option_map (fun me => rev me.(called)) (p_key_stays.(mcs) !! 2) = Some [0; - ENETRESET] /\
   option_map pkey_index (p_key_stays.(groups) !! 100) = Some 1).
Proof.
  split.
  - split; [apply (checked_reachable False (first_life ++ second_life)); vm_compute; reflexivity|].
    split; [vm_compute; reflexivity|]. split; [apply (bool_decide_unpack _); vm_compute; exact I|].
    split; [apply at_threadb_sound; vm_compute; reflexivity|]. vm_compute. reflexivity.
  - split; [apply (checked_reachable False (key_moved ++ key_stays)); vm_compute; reflexivity|].
    split; [vm_compute; reflexivity|]. split; vm_compute; reflexivity.
Qed.
