(* ===== verification/Uobject.v ===== *)
(** User objects of the verbs ABI: drivers/infiniband/core/rdma_core.c, the
    objects with a handle in the file's [idr].

    A file's memory is a map of user objects. A command in flight is a set of
    holds, each the point its thread has reached with one object: looked up,
    locked, being created, being destroyed. A step is one atomic operation of the
    code, or what it does while nobody else can see the object. The clean-up of a
    file holds [hw_destroy_rwsem] for writing from beginning to end and is one
    step: what others can do meanwhile is take and drop references. Using an
    object that is gone, destroying hardware twice, and a [WARN_ON] about the
    core's own state are [None]. What drivers and allocators answer are
    arguments. *)

From S2P Require Import Prelude.
#[local] Open Scope Z_scope.

(** ** Data *)

Inductive rdma_lookup_mode := UVERBS_LOOKUP_READ | UVERBS_LOOKUP_WRITE | UVERBS_LOOKUP_DESTROY.

Inductive rdma_remove_reason :=
  RDMA_REMOVE_DESTROY | RDMA_REMOVE_CLOSE | RDMA_REMOVE_DRIVER_REMOVE | RDMA_REMOVE_ABORT | RDMA_REMOVE_DRIVER_FAILURE.

#[export] Instance rdma_lookup_mode_eq_dec : EqDecision rdma_lookup_mode.
Proof. solve_decision. Defined.
#[export] Instance rdma_remove_reason_eq_dec : EqDecision rdma_remove_reason.
Proof. solve_decision. Defined.

Definition EIO : Z := 5.

(** [uapi_object] names the type; [object] is the hardware object; whether the
    list node is in a list is whether the address is in [uobjects]. *)
Record ib_uobject := mk_uobj {
  uapi_object : Z;
  context : bool;
  object : option Z;
  id : Z;
  ref : Z;
  usecnt : Z
}.

Inductive hold :=
  | Looked (u : Z) (mode : rdma_lookup_mode) (want : option Z)  (** has a reference, not yet checked *)
  | Locked (u : Z) (mode : rdma_lookup_mode)                    (** [rdma_lookup_get_uobject] returned it *)
  | Dropping (u : Z)                                            (** unlocked, before [uverbs_uobject_put] *)
  | Creating (u : Z)                                            (** between [rdma_alloc_begin_uobject] and commit or abort *)
  | DestroyTry (u : Z)                                          (** [uobj_destroy] has the semaphore *)
  | DestroyHw (u : Z)                                           (** and the lock *)
  | DestroyHandle (u : Z)                                       (** the hardware object is gone *)
  | DestroyList (u : Z)                                         (** the handle is gone *)
  | DestroyUp (u ret : Z)                                       (** before [up_read] *)
  | UpRead.                                                     (** committed or aborted, before [up_read] *)

(** An entry of [idr] is reserved while it is [Some None]; [hw] are the hardware
    objects that exist; [closed] says that the file was closed. *)
Record ib_uverbs_file := mk_ufile {
  uobjs : gmap Z ib_uobject;
  idr : gmap Z (option Z);
  uobjects : list Z;
  hw_destroy_rwsem : Z;
  ucontext : bool;
  ib_dev : bool;
  closed : bool;
  hw : gset Z;
  holds : gmap Z hold
}.

Definition set_uobjs (s : ib_uverbs_file) m := mk_ufile m s.(idr) s.(uobjects) s.(hw_destroy_rwsem) s.(ucontext) s.(ib_dev) s.(closed) s.(hw) s.(holds).
Definition set_idr (s : ib_uverbs_file) m := mk_ufile s.(uobjs) m s.(uobjects) s.(hw_destroy_rwsem) s.(ucontext) s.(ib_dev) s.(closed) s.(hw) s.(holds).
Definition set_uobjects (s : ib_uverbs_file) l := mk_ufile s.(uobjs) s.(idr) l s.(hw_destroy_rwsem) s.(ucontext) s.(ib_dev) s.(closed) s.(hw) s.(holds).
Definition set_sem (s : ib_uverbs_file) n := mk_ufile s.(uobjs) s.(idr) s.(uobjects) n s.(ucontext) s.(ib_dev) s.(closed) s.(hw) s.(holds).
Definition set_ucontext (s : ib_uverbs_file) b := mk_ufile s.(uobjs) s.(idr) s.(uobjects) s.(hw_destroy_rwsem) b s.(ib_dev) s.(closed) s.(hw) s.(holds).
Definition set_ib_dev (s : ib_uverbs_file) b := mk_ufile s.(uobjs) s.(idr) s.(uobjects) s.(hw_destroy_rwsem) s.(ucontext) b s.(closed) s.(hw) s.(holds).
Definition set_closed (s : ib_uverbs_file) b := mk_ufile s.(uobjs) s.(idr) s.(uobjects) s.(hw_destroy_rwsem) s.(ucontext) s.(ib_dev) b s.(hw) s.(holds).
Definition set_hw (s : ib_uverbs_file) h := mk_ufile s.(uobjs) s.(idr) s.(uobjects) s.(hw_destroy_rwsem) s.(ucontext) s.(ib_dev) s.(closed) h s.(holds).
Definition set_holds (s : ib_uverbs_file) m := mk_ufile s.(uobjs) s.(idr) s.(uobjects) s.(hw_destroy_rwsem) s.(ucontext) s.(ib_dev) s.(closed) s.(hw) m.

Definition put_uobj (s : ib_uverbs_file) (u : Z) (o : ib_uobject) : ib_uverbs_file := set_uobjs s (<[u := o]> s.(uobjs)).
Definition put_hold (s : ib_uverbs_file) (t : Z) (h : hold) : ib_uverbs_file := set_holds s (<[t := h]> s.(holds)).
Definition end_hold (s : ib_uverbs_file) (t : Z) : ib_uverbs_file := set_holds s (delete t s.(holds)).

Definition with_context (o : ib_uobject) b := mk_uobj o.(uapi_object) b o.(object) o.(id) o.(ref) o.(usecnt).
Definition with_object (o : ib_uobject) h := mk_uobj o.(uapi_object) o.(context) h o.(id) o.(ref) o.(usecnt).
Definition with_id (o : ib_uobject) i := mk_uobj o.(uapi_object) o.(context) o.(object) i o.(ref) o.(usecnt).
Definition with_ref (o : ib_uobject) n := mk_uobj o.(uapi_object) o.(context) o.(object) o.(id) n o.(usecnt).
Definition with_usecnt (o : ib_uobject) n := mk_uobj o.(uapi_object) o.(context) o.(object) o.(id) o.(ref) n.

(** ** References and locks *)

Definition uverbs_uobject_get (s : ib_uverbs_file) (u : Z) : option ib_uverbs_file :=
  o ← s.(uobjs) !! u; Some (put_uobj s u (with_ref o (o.(ref) + 1))).

(** With the last reference the object is freed. *)
Definition uverbs_uobject_put (s : ib_uverbs_file) (u : Z) : option ib_uverbs_file :=
  o ← s.(uobjs) !! u;
  Some (if o.(ref) - 1 =? 0 then set_uobjs s (delete u s.(uobjs)) else put_uobj s u (with_ref o (o.(ref) - 1))).

Definition uverbs_try_lock_object (o : ib_uobject) (mode : rdma_lookup_mode) : ib_uobject * Z :=
  match mode with
  | UVERBS_LOOKUP_READ => if o.(usecnt) =? -1 then (o, - EBUSY) else (with_usecnt o (o.(usecnt) + 1), 0)
  | UVERBS_LOOKUP_WRITE => if o.(usecnt) =? 0 then (with_usecnt o (-1), 0) else (o, - EBUSY)
  | UVERBS_LOOKUP_DESTROY => (o, 0)
  end.

(** Whether the check of a kernel with lock debugging is content. *)
Definition assert_uverbs_usecnt (o : ib_uobject) (mode : rdma_lookup_mode) : bool :=
  match mode with
  | UVERBS_LOOKUP_READ => 0 <? o.(usecnt)
  | UVERBS_LOOKUP_WRITE => o.(usecnt) =? -1
  | UVERBS_LOOKUP_DESTROY => true
  end.

(** ** Destruction *)

(** The driver's answer is [ret]; the hardware object must exist. *)
Definition destroy_hw_idr_uobject (s : ib_uverbs_file) (h ret : Z) : option (ib_uverbs_file * Z) :=
  if c_true ret then Some (s, ret) else if decide (h ∈ s.(hw)) then Some (set_hw s (s.(hw) ∖ {[h]}), 0) else None.

Definition remove_handle_idr_uobject (s : ib_uverbs_file) (u : Z) : option ib_uverbs_file :=
  o ← s.(uobjs) !! u;
  uverbs_uobject_put (set_idr s (delete o.(id) s.(idr))) u.

Definition alloc_abort_idr_uobject (s : ib_uverbs_file) (u : Z) : option ib_uverbs_file :=
  o ← s.(uobjs) !! u; Some (set_idr s (delete o.(id) s.(idr))).

(** The parts of [uverbs_destroy_uobject]: the hardware object, the rest of the
    object, the list. *)
Definition destroy_object (s : ib_uverbs_file) (u : Z) (reason : rdma_remove_reason) (ret : Z) : option (ib_uverbs_file * Z) :=
  o ← s.(uobjs) !! u;
  if decide (reason = RDMA_REMOVE_ABORT) then
    if decide (u ∈ s.(uobjects)) then None
    else if negb o.(context) then None
    else s ← alloc_abort_idr_uobject s u; Some (s, 0)
  else
    match o.(object) with
    | Some h =>
        '(s, ret) ← destroy_hw_idr_uobject s h ret;
        if c_true ret then Some (s, ret) else Some (put_uobj s u (with_object o None), 0)
    | None => Some (s, 0)
    end.

Definition release_object (s : ib_uverbs_file) (u : Z) (reason : rdma_remove_reason) : option ib_uverbs_file :=
  o ← s.(uobjs) !! u;
  let s := put_uobj s u (with_context o false) in
  if decide (reason = RDMA_REMOVE_DESTROY) then remove_handle_idr_uobject s u
  else Some (put_uobj s u (with_usecnt (with_context o false) 0)).

Definition unlist_object (s : ib_uverbs_file) (u : Z) : option ib_uverbs_file :=
  _ ← s.(uobjs) !! u;
  if decide (u ∈ s.(uobjects)) then uverbs_uobject_put (set_uobjects s (filter (.≠ u) s.(uobjects))) u else Some s.

Definition uverbs_destroy_uobject (s : ib_uverbs_file) (u : Z) (reason : rdma_remove_reason) (ret : Z) :
    option (ib_uverbs_file * Z) :=
  o ← s.(uobjs) !! u;
  if negb (assert_uverbs_usecnt o UVERBS_LOOKUP_WRITE) then None else
  '(s, ret) ← destroy_object s u reason ret;
  if c_true ret then Some (s, ret) else
  s ← release_object s u reason;
  s ← unlist_object s u;
  s ← (if decide (reason = RDMA_REMOVE_ABORT) then uverbs_uobject_put s u else Some s);
  Some (s, 0).

(** [uobj_destroy], from the semaphore to the return, by one hold. *)
Definition down_read (s : ib_uverbs_file) : ib_uverbs_file := set_sem s (s.(hw_destroy_rwsem) + 1).
Definition up_read (s : ib_uverbs_file) : ib_uverbs_file := set_sem s (s.(hw_destroy_rwsem) - 1).

Definition destroy_begin (s : ib_uverbs_file) (t u : Z) : option ib_uverbs_file :=
  if s.(hw_destroy_rwsem) <? 0 then None else Some (put_hold (down_read s) t (DestroyTry u)).

Definition destroy_try (s : ib_uverbs_file) (t u : Z) : option ib_uverbs_file :=
  o ← s.(uobjs) !! u;
  let '(o, ret) := uverbs_try_lock_object o UVERBS_LOOKUP_WRITE in
  Some (put_hold (put_uobj s u o) t (if c_true ret then DestroyUp u ret else DestroyHw u)).

Definition destroy_hw_step (s : ib_uverbs_file) (t u ret : Z) : option ib_uverbs_file :=
  o ← s.(uobjs) !! u;
  if negb (assert_uverbs_usecnt o UVERBS_LOOKUP_WRITE) then None else
  '(s, ret) ← destroy_object s u RDMA_REMOVE_DESTROY ret;
  if c_true ret
  then o ← s.(uobjs) !! u; Some (put_hold (put_uobj s u (with_usecnt o 0)) t (DestroyUp u ret))
  else Some (put_hold s t (DestroyHandle u)).

Definition destroy_handle_step (s : ib_uverbs_file) (t u : Z) : option ib_uverbs_file :=
  s ← release_object s u RDMA_REMOVE_DESTROY; Some (put_hold s t (DestroyList u)).

Definition destroy_list_step (s : ib_uverbs_file) (t u : Z) : option ib_uverbs_file :=
  s ← unlist_object s u; Some (put_hold s t (DestroyUp u 0)).

Definition destroy_up (s : ib_uverbs_file) (t u : Z) : option ib_uverbs_file :=
  Some (put_hold (up_read s) t (Locked u UVERBS_LOOKUP_DESTROY)).

(** [uobj_destroy] with nobody in between. *)
Definition uobj_destroy (s : ib_uverbs_file) (u ret : Z) : option (ib_uverbs_file * Z) :=
  if s.(hw_destroy_rwsem) <? 0 then None else
  let s := down_read s in
  o ← s.(uobjs) !! u;
  let '(o, busy) := uverbs_try_lock_object o UVERBS_LOOKUP_WRITE in
  if c_true busy then Some (up_read (put_uobj s u o), busy) else
  '(s, ret) ← uverbs_destroy_uobject (put_uobj s u o) u RDMA_REMOVE_DESTROY ret;
  if c_true ret then o ← s.(uobjs) !! u; Some (up_read (put_uobj s u (with_usecnt o 0)), ret)
  else Some (up_read s, 0).

(** ** Creation *)

(** What the allocators and the resource controller answer; the identity of the
    new object, the new handle. [has_context] says that the command has found the
    context with another object. *)
Record begin_answers := {
  a_has_context : bool;
  a_kzalloc : option Z;
  a_xa_alloc : Z + Z;
  a_charge : Z
}.

Definition alloc_uobj (s : ib_uverbs_file) (obj : Z) (a : begin_answers) : Z + (Z * ib_uobject) :=
  if negb a.(a_has_context) && negb s.(ib_dev) then inl (- EIO)
  else if negb a.(a_has_context) && negb s.(ucontext) then inl (- EINVAL)
  else match a.(a_kzalloc) with
       | None => inl (- ENOMEM)
       | Some u => inr (u, mk_uobj obj true None 0 1 (-1))
       end.

Definition alloc_begin_idr_uobject (s : ib_uverbs_file) (obj : Z) (a : begin_answers) : ib_uverbs_file * (Z + Z) :=
  match alloc_uobj s obj a with
  | inl err => (s, inl err)
  | inr (u, o) =>
      match a.(a_xa_alloc) with
      | inl err => (s, inl err)
      | inr i =>
          if c_true a.(a_charge) then (s, inl a.(a_charge))
          else (set_idr (put_uobj s u (mk_uobj obj true None i 1 (-1))) (<[i := None]> s.(idr)), inr u)
      end
  end.

(** The result, and 0 or the error. *)
Definition rdma_alloc_begin_uobject (s : ib_uverbs_file) (t obj : Z) (a : begin_answers) : ib_uverbs_file * Z :=
  if s.(hw_destroy_rwsem) <? 0 then (s, - EIO) else
  match alloc_begin_idr_uobject (down_read s) obj a with
  | (s, inl err) => (up_read s, err)
  | (s, inr u) => (put_hold s t (Creating u), 0)
  end.

(** The handler makes the hardware object, or unmakes it. *)
Definition handler_creates (s : ib_uverbs_file) (u h : Z) : option ib_uverbs_file :=
  o ← s.(uobjs) !! u; Some (set_hw (put_uobj s u (with_object o (Some h))) (s.(hw) ∪ {[h]})).

Definition handler_unwinds (s : ib_uverbs_file) (u : Z) : option ib_uverbs_file :=
  o ← s.(uobjs) !! u;
  h ← o.(object);
  Some (set_hw (put_uobj s u (with_object o None)) (s.(hw) ∖ {[h]})).

Definition alloc_commit_idr_uobject (s : ib_uverbs_file) (u : Z) : option ib_uverbs_file :=
  o ← s.(uobjs) !! u;
  if decide (s.(idr) !! o.(id) = Some None) then Some (set_idr s (<[o.(id) := Some u]> s.(idr))) else None.

Definition rdma_alloc_commit_uobject (s : ib_uverbs_file) (t u : Z) : option ib_uverbs_file :=
  s ← uverbs_uobject_get s u;
  let s := set_uobjects s (u :: s.(uobjects)) in
  o ← s.(uobjs) !! u;
  s ← alloc_commit_idr_uobject (put_uobj s u (with_usecnt o 0)) u;
  Some (put_hold s t UpRead).

Definition rdma_alloc_abort_uobject (s : ib_uverbs_file) (t u : Z) (hw_obj_valid : bool) (ret : Z) : option ib_uverbs_file :=
  '(s, ret) ← (if hw_obj_valid then o ← s.(uobjs) !! u; h ← o.(object); destroy_hw_idr_uobject s h ret else Some (s, 0));
  if c_true ret then rdma_alloc_commit_uobject s t u else
  '(s, _) ← uverbs_destroy_uobject s u RDMA_REMOVE_ABORT 0;
  Some (put_hold s t UpRead).

Definition up_read_hold (s : ib_uverbs_file) (t : Z) : option ib_uverbs_file := Some (end_hold (up_read s) t).

(** ** Lookup *)

(** The state, and 0 or the error. *)
Definition lookup_get_idr_uobject (s : ib_uverbs_file) (t i : Z) (mode : rdma_lookup_mode) (want : option Z) :
    option (ib_uverbs_file * Z) :=
  if i <? 0 then Some (s, - EINVAL) else
  match s.(idr) !! i with
  | Some (Some u) =>
      o ← s.(uobjs) !! u;
      if o.(ref) =? 0 then Some (s, - ENOENT)
      else Some (put_hold (put_uobj s u (with_ref o (o.(ref) + 1))) t (Looked u mode want), 0)
  | _ => Some (s, - ENOENT)
  end.

(** The rest of [rdma_lookup_get_uobject]; on an error the object is dropped. *)
Definition rdma_lookup_get_uobject (s : ib_uverbs_file) (t u : Z) (mode : rdma_lookup_mode) (want : option Z) :
    option (ib_uverbs_file * Z) :=
  o ← s.(uobjs) !! u;
  let drop ret := Some (put_hold s t (Dropping u), ret) in
  if from_option (fun w => negb (o.(uapi_object) =? w)) false want then drop (- EINVAL)
  else if bool_decide (mode <> UVERBS_LOOKUP_DESTROY) && negb s.(ib_dev) then drop (- EIO)
  else let '(o, ret) := uverbs_try_lock_object o mode in
       if c_true ret then drop ret else Some (put_hold (put_uobj s u o) t (Locked u mode), 0).

(** [rdma_lookup_put_uobject] up to the reference, and the reference. *)
Definition rdma_lookup_put_uobject (s : ib_uverbs_file) (t u : Z) (mode : rdma_lookup_mode) : option ib_uverbs_file :=
  o ← s.(uobjs) !! u;
  if negb (assert_uverbs_usecnt o mode) then None else
  let o := match mode with
           | UVERBS_LOOKUP_READ => with_usecnt o (o.(usecnt) - 1)
           | UVERBS_LOOKUP_WRITE => with_usecnt o 0
           | UVERBS_LOOKUP_DESTROY => o
           end in
  Some (put_hold (put_uobj s u o) t (Dropping u)).

Definition drop_hold (s : ib_uverbs_file) (t u : Z) : option ib_uverbs_file :=
  s ← uverbs_uobject_put s u; Some (end_hold s t).

(** A handler looks at the hardware object of an object it has locked. *)
Definition handler_uses (s : ib_uverbs_file) (u : Z) : option ib_uverbs_file :=
  o ← s.(uobjs) !! u;
  h ← o.(object);
  if decide (h ∈ s.(hw)) then Some s else None.

(** ** Replacement *)

(** [XA_ZERO_ENTRY] and no entry both read as [NULL]. *)
Definition swap_idr_uobjects (s : ib_uverbs_file) (obj_old obj_new : Z) : option ib_uverbs_file :=
  o ← s.(uobjs) !! obj_old;
  n ← s.(uobjs) !! obj_new;
  if decide (s.(idr) !! o.(id) = Some (Some obj_old)) then
    let s := set_idr s (<[o.(id) := None]> s.(idr)) in
    let s := put_uobj (put_uobj s obj_old (with_id o n.(id))) obj_new (with_id n o.(id)) in
    match s.(idr) !! n.(id) with
    | Some (Some _) => None
    | _ => Some (set_idr s (<[n.(id) := Some obj_old]> s.(idr)))
    end
  else None.

(** The result of the destruction is dropped; the caller puts [to_uobj] back as
    one that was destroyed. *)
Definition rdma_assign_uobject (s : ib_uverbs_file) (t to_uobj new_uobj ret : Z) : option ib_uverbs_file :=
  o ← s.(uobjs) !! to_uobj;
  n ← s.(uobjs) !! new_uobj;
  if negb (assert_uverbs_usecnt n UVERBS_LOOKUP_WRITE) then None
  else if negb (o.(uapi_object) =? n.(uapi_object)) then None
  else s ← swap_idr_uobjects s to_uobj new_uobj;
       '(s, _) ← uverbs_destroy_uobject s to_uobj RDMA_REMOVE_DESTROY ret;
       Some (put_hold s t (Locked to_uobj UVERBS_LOOKUP_DESTROY)).

(** ** Clean-up *)

(** A pass over the list as it was when the pass began; [answers] are the
    driver's, by the hardware objects that exist and the object to destroy. *)
Fixpoint cleanup_list (s : ib_uverbs_file) (l : list Z) (reason : rdma_remove_reason) (answers : gset Z -> Z -> Z) (ret : Z) :
    option (ib_uverbs_file * Z) :=
  match l with
  | [] => Some (s, ret)
  | u :: l =>
      o ← s.(uobjs) !! u;
      let '(o, busy) := uverbs_try_lock_object o UVERBS_LOOKUP_WRITE in
      if c_true busy then None else
      let o := if decide (reason = RDMA_REMOVE_DRIVER_FAILURE) then with_object o None else o in
      '(s, failed) ← uverbs_destroy_uobject (put_uobj s u o) u reason (answers s.(hw) u);
      if c_true failed then o ← s.(uobjs) !! u; cleanup_list (put_uobj s u (with_usecnt o 0)) l reason answers ret
      else cleanup_list s l reason answers 0
  end.

Definition __uverbs_cleanup_ufile (s : ib_uverbs_file) (reason : rdma_remove_reason) (answers : gset Z -> Z -> Z) :
    option (ib_uverbs_file * Z) :=
  '(s, ret) ← cleanup_list s s.(uobjects) reason answers (- EINVAL);
  if decide (reason = RDMA_REMOVE_DRIVER_FAILURE)
  then if decide (s.(uobjects) = []) then Some (s, 0) else None
  else Some (s, ret).

(** The passes, as long as they destroy something; the answers differ by pass. *)
Fixpoint cleanup_passes (fuel : nat) (s : ib_uverbs_file) (reason : rdma_remove_reason) (answers : nat -> gset Z -> Z -> Z) :
    option ib_uverbs_file :=
  match fuel with
  | O => None
  | S fuel =>
      if decide (s.(uobjects) = []) then Some s else
      '(s, ret) ← __uverbs_cleanup_ufile s reason (answers fuel);
      if c_true ret then Some s else cleanup_passes fuel s reason answers
  end.

Definition uverbs_destroy_ufile_hw (s : ib_uverbs_file) (reason : rdma_remove_reason) (answers : nat -> gset Z -> Z -> Z) :
    option ib_uverbs_file :=
  if negb s.(ucontext) then Some s else
  s ← cleanup_passes (S (length s.(uobjects))) s reason answers;
  s ← (if decide (s.(uobjects) = []) then Some s
       else '(s, _) ← __uverbs_cleanup_ufile s RDMA_REMOVE_DRIVER_FAILURE (fun _ _ => 0); Some s);
  Some (set_ucontext s false).

(** Putting what is left in [idr] when the file itself goes: every object must be
    without hardware object. *)
Fixpoint put_entries (s : ib_uverbs_file) (l : list (Z * option Z)) : option ib_uverbs_file :=
  match l with
  | [] => Some s
  | (_, None) :: l => put_entries s l
  | (_, Some u) :: l =>
      o ← s.(uobjs) !! u;
      match o.(object) with
      | Some _ => None
      | None => s ← uverbs_uobject_put s u; put_entries s l
      end
  end.

Definition release_ufile_idr_uobject (s : ib_uverbs_file) : option ib_uverbs_file :=
  s ← put_entries s (map_to_list s.(idr)); Some (set_idr s ∅).

(** ** Steps *)

Inductive step :=
  | AllocBegin (t obj : Z) (a : begin_answers)
  | HandlerCreates (t u h : Z)
  | HandlerUnwinds (t u : Z)
  | Commit (t u : Z)
  | AbortCreate (t u : Z) (hw_obj_valid : bool) (ret : Z)
  | DoUpRead (t : Z)
  | Lookup (t i : Z) (mode : rdma_lookup_mode) (want : option Z)
  | CheckLock (t u : Z) (mode : rdma_lookup_mode) (want : option Z)
  | Use (t u : Z) (mode : rdma_lookup_mode)
  | Unlock (t u : Z) (mode : rdma_lookup_mode)
  | DropHold (t u : Z)
  | DestroyBegin (t u : Z)
  | TryDestroy (t u : Z)
  | DoDestroyHw (t u ret : Z)
  | DoDestroyHandle (t u : Z)
  | DoDestroyList (t u : Z)
  | DoDestroyUp (t u ret : Z)
  | Assign (t u t' v ret : Z)
  | RemoveDevice
  | CloseFile
  | CleanUp (reason : rdma_remove_reason) (answers : nat -> gset Z -> Z -> Z).

Definition exec (s : ib_uverbs_file) (e : step) : option ib_uverbs_file :=
  match e with
  | AllocBegin t obj a => Some (rdma_alloc_begin_uobject s t obj a).1
  | HandlerCreates _ u h => handler_creates s u h
  | HandlerUnwinds _ u => handler_unwinds s u
  | Commit t u => rdma_alloc_commit_uobject s t u
  | AbortCreate t u valid ret => rdma_alloc_abort_uobject s t u valid ret
  | DoUpRead t => up_read_hold s t
  | Lookup t i mode want => r ← lookup_get_idr_uobject s t i mode want; Some r.1
  | CheckLock t u mode want => r ← rdma_lookup_get_uobject s t u mode want; Some r.1
  | Use _ u _ => handler_uses s u
  | Unlock t u mode => rdma_lookup_put_uobject s t u mode
  | DropHold t u => drop_hold s t u
  | DestroyBegin t u => destroy_begin s t u
  | TryDestroy t u => destroy_try s t u
  | DoDestroyHw t u ret => destroy_hw_step s t u ret
  | DoDestroyHandle t u => destroy_handle_step s t u
  | DoDestroyList t u => destroy_list_step s t u
  | DoDestroyUp t u _ => destroy_up s t u
  | Assign t u _ v ret => rdma_assign_uobject s t u v ret
  | RemoveDevice => Some (set_ib_dev s false)
  | CloseFile => Some (set_closed s true)
  | CleanUp reason answers => uverbs_destroy_ufile_hw s reason answers
  end.

Fixpoint run (s : ib_uverbs_file) (l : list step) : option ib_uverbs_file :=
  match l with [] => Some s | e :: l => s ← exec s e; run s l end.

(** A file after [ib_uverbs_open] and the creation of its context. *)
Definition opened : ib_uverbs_file := mk_ufile ∅ ∅ [] 0 true true false ∅ ∅.
