(* ===== verification/UobjectSafe.v ===== *)
(** User objects, the invariant: what a user object, a hold and a file are in
    every reachable state, and that it is enough to know what a step does to one
    object and one hold.

    References are counted: an object is referred to by its entry in [idr], by the
    list of the file and by holds. The lock is counted too: [usecnt] is -1 while
    one hold is writing or when the object is gone, and otherwise the number of
    readers. *)

From S2P Require Import Prelude Counting Uobject.
#[local] Open Scope Z_scope.

(** ** Holds *)

(** The object of a hold. *)
Definition about (h : hold) : option Z :=
  match h with
  | Looked u _ _ | Locked u _ | Dropping u | Creating u | DestroyTry u | DestroyHw u | DestroyHandle u | DestroyList u
  | DestroyUp u _ => Some u
  | UpRead => None
  end.

Definition refers (u : Z) (h : hold) : bool := bool_decide (about h = Some u).

Definition reader (h : hold) : bool := match h with Locked _ UVERBS_LOOKUP_READ => true | _ => false end.

Definition writer (h : hold) : bool :=
  match h with
  | Locked _ UVERBS_LOOKUP_WRITE | Creating _ | DestroyHw _ | DestroyHandle _ | DestroyList _ => true
  | _ => false
  end.

Definition reads (u : Z) (h : hold) : bool := refers u h && reader h.
Definition writes (u : Z) (h : hold) : bool := refers u h && writer h.

(** Holds that have [hw_destroy_rwsem]. *)
Definition in_sem (h : hold) : bool :=
  match h with Looked _ _ _ | Locked _ _ | Dropping _ => false | _ => true end.

Lemma refers_spec u h : refers u h = true <-> about h = Some u.
Proof. apply bool_decide_eq_true. Qed.

(** ** The invariant *)

Definition in_idr (s : ib_uverbs_file) (u : Z) (o : ib_uobject) : bool := bool_decide (s.(idr) !! o.(id) = Some (Some u)).
Definition listed (s : ib_uverbs_file) (u : Z) : bool := bool_decide (u ∈ s.(uobjects)).
Definition has_hw (o : ib_uobject) : bool := bool_decide (is_Some o.(object)).

Definition refs (s : ib_uverbs_file) (u : Z) (o : ib_uobject) : Z :=
  c_bool (in_idr s u o) + c_bool (listed s u) + count (refers u) s.(holds).

Definition readers (s : ib_uverbs_file) (u : Z) : Z := count (reads u) s.(holds).
Definition writers (s : ib_uverbs_file) (u : Z) : Z := count (writes u) s.(holds).

(** A locked object: one writer, or nobody and the object is gone. An unlocked
    one: it has its handle, and it is in the list as long as it has hardware. *)
Definition lock_ok (s : ib_uverbs_file) (u : Z) (o : ib_uobject) : Prop :=
  (o.(usecnt) = -1 /\ readers s u = 0 /\
     (writers s u = 1 \/ writers s u = 0 /\ in_idr s u o = false /\ listed s u = false /\ has_hw o = false)) \/
  (o.(usecnt) = readers s u /\ writers s u = 0 /\ in_idr s u o = true /\ listed s u = has_hw o).

Record obj_ok (s : ib_uverbs_file) (u : Z) (o : ib_uobject) : Prop := {
  oo_ref : o.(ref) = refs s u o;
  oo_pos : 0 < o.(ref);
  oo_lock : lock_ok s u o;
  oo_hw : forall h, o.(object) = Some h -> h ∈ s.(hw)
}.

(** What a hold knows of its object. *)
Definition hold_ok (s : ib_uverbs_file) (h : hold) : Prop :=
  forall u, about h = Some u -> exists o, s.(uobjs) !! u = Some o /\
  match h with
  | Locked _ UVERBS_LOOKUP_WRITE => in_idr s u o = true /\ listed s u = true /\ has_hw o = true
  | Creating _ => s.(idr) !! o.(id) = Some None /\ listed s u = false /\ o.(context) = true /\ o.(ref) = 1
  | DestroyHw _ => in_idr s u o = true /\ listed s u = has_hw o /\ (s.(ucontext) = true -> listed s u = true)
  | DestroyHandle _ => in_idr s u o = true /\ has_hw o = false
  | DestroyList _ => in_idr s u o = false /\ has_hw o = false
  | _ => True
  end.

(** The handle a hold has reserved. *)
Definition reserves (s : ib_uverbs_file) (h : hold) (i : Z) : Prop :=
  exists u o, h = Creating u /\ s.(uobjs) !! u = Some o /\ o.(id) = i.

Record table_ok (s : ib_uverbs_file) : Prop := {
  to_entry : forall i u, s.(idr) !! i = Some (Some u) -> exists o, s.(uobjs) !! u = Some o /\ o.(id) = i;
  to_reserved : forall i, s.(idr) !! i = Some None -> exists t h, s.(holds) !! t = Some h /\ reserves s h i;
  to_unique : forall i t t' h h', s.(holds) !! t = Some h -> s.(holds) !! t' = Some h' ->
    reserves s h i -> reserves s h' i -> t = t';
  to_nodup : NoDup s.(uobjects);
  to_listed : forall u, u ∈ s.(uobjects) -> is_Some (s.(uobjs) !! u);
  to_hw : forall u u' o o' h, s.(uobjs) !! u = Some o -> s.(uobjs) !! u' = Some o' ->
    o.(object) = Some h -> o'.(object) = Some h -> u = u'
}.

(** A file without context, and a closed file. *)
Record file_ok (s : ib_uverbs_file) : Prop := {
  fo_sem : s.(hw_destroy_rwsem) = count in_sem s.(holds);
  fo_gone : s.(ucontext) = false -> s.(uobjects) = [] /\ (s.(ib_dev) = false \/ s.(closed) = true) /\
    forall t h, s.(holds) !! t = Some h -> match h with Creating _ | Locked _ (UVERBS_LOOKUP_READ | UVERBS_LOOKUP_WRITE) => False | _ => True end;
  fo_closed : s.(closed) = true -> s.(holds) = ∅
}.

(** The invariant also holds in the middle of a clean-up; [settled] is what holds
    of the file between two steps besides. *)
Record inv (s : ib_uverbs_file) : Prop := {
  inv_objs : forall u o, s.(uobjs) !! u = Some o -> obj_ok s u o;
  inv_holds : forall t h, s.(holds) !! t = Some h -> hold_ok s h;
  inv_table : table_ok s;
  inv_file : file_ok s
}.

Definition settled (s : ib_uverbs_file) : Prop :=
  s.(ucontext) = true -> forall u o, s.(uobjs) !! u = Some o -> o.(usecnt) <> -1 -> listed s u = true.

(** ** The contract *)

Definition at_hold (s : ib_uverbs_file) (t : Z) (h : hold) : Prop := s.(holds) !! t = Some h.

(** Nobody is in a command that uses an object or creates one. *)
Definition quiet (s : ib_uverbs_file) : Prop :=
  s.(hw_destroy_rwsem) = 0 /\
  forall t h, s.(holds) !! t = Some h -> match h with Locked _ (UVERBS_LOOKUP_READ | UVERBS_LOOKUP_WRITE) => False | _ => True end.

(** When a step can come. A thread is where the step starts; what is allocated is
    unused; an object found before has the file's context; a handler creates the
    hardware object of a new object once, says truly whether it did, and has done
    so when it succeeds. An object that is replaced can be destroyed. A file is closed when no command is in flight, and
    cleaned up then, or when the device is gone and the commands that were in
    flight are done. *)
Definition enabled (s : ib_uverbs_file) (e : step) : Prop :=
  match e with
  | AllocBegin t _ a => s.(closed) = false /\ s.(holds) !! t = None /\ (a.(a_has_context) = true -> s.(ucontext) = true) /\
      (forall u, a.(a_kzalloc) = Some u -> s.(uobjs) !! u = None) /\ (forall i, a.(a_xa_alloc) = inr i -> s.(idr) !! i = None)
  | HandlerCreates t u h => at_hold s t (Creating u) /\ h ∉ s.(hw) /\ exists o, s.(uobjs) !! u = Some o /\ o.(object) = None
  | HandlerUnwinds t u => at_hold s t (Creating u) /\ exists o, s.(uobjs) !! u = Some o /\ has_hw o = true
  | Commit t u => at_hold s t (Creating u) /\ exists o, s.(uobjs) !! u = Some o /\ has_hw o = true
  | AbortCreate t u valid _ => at_hold s t (Creating u) /\ exists o, s.(uobjs) !! u = Some o /\ has_hw o = valid
  | DoUpRead t => at_hold s t UpRead
  | Lookup t _ _ _ => s.(closed) = false /\ s.(holds) !! t = None
  | CheckLock t u mode want => at_hold s t (Looked u mode want)
  | Use t u mode => at_hold s t (Locked u mode) /\ mode <> UVERBS_LOOKUP_DESTROY
  | Unlock t u mode => at_hold s t (Locked u mode)
  | DropHold t u => at_hold s t (Dropping u)
  | DestroyBegin t u => at_hold s t (Locked u UVERBS_LOOKUP_DESTROY)
  | TryDestroy t u => at_hold s t (DestroyTry u)
  | DoDestroyHw t u _ => at_hold s t (DestroyHw u)
  | DoDestroyHandle t u => at_hold s t (DestroyHandle u)
  | DoDestroyList t u => at_hold s t (DestroyList u)
  | DoDestroyUp t u ret => at_hold s t (DestroyUp u ret)
  | Assign t u t' v ret => at_hold s t (Locked u UVERBS_LOOKUP_WRITE) /\ at_hold s t' (Creating v) /\ ret = 0 /\
      exists o n, s.(uobjs) !! u = Some o /\ s.(uobjs) !! v = Some n /\ o.(uapi_object) = n.(uapi_object)
  | RemoveDevice => True
  | CloseFile => s.(holds) = ∅
  | CleanUp reason _ => quiet s /\
      (reason = RDMA_REMOVE_CLOSE /\ s.(closed) = true \/ reason = RDMA_REMOVE_DRIVER_REMOVE /\ s.(ib_dev) = false)
  end.

(** ** Changing one object and one hold *)

Definition touches (u : Z) (h : option hold) : Prop := forall h', h = Some h' -> about h' = Some u \/ about h' = None.

Record change (s s' : ib_uverbs_file) (t u : Z) : Prop := {
  ch_uobjs : forall u', u' <> u -> s'.(uobjs) !! u' = s.(uobjs) !! u';
  ch_holds : forall t', t' <> t -> s'.(holds) !! t' = s.(holds) !! t';
  ch_old : touches u (s.(holds) !! t);
  ch_new : touches u (s'.(holds) !! t);
  ch_idr : forall u' o, u' <> u -> s.(uobjs) !! u' = Some o -> in_idr s' u' o = in_idr s u' o;
  ch_list : forall u', u' <> u -> listed s' u' = listed s u';
  ch_hw : forall u' o h, u' <> u -> s.(uobjs) !! u' = Some o -> o.(object) = Some h -> h ∈ s.(hw) -> h ∈ s'.(hw);
  ch_ucontext : s'.(ucontext) = s.(ucontext);
  ch_ib_dev : s'.(ib_dev) = s.(ib_dev);
  ch_closed : s'.(closed) = s.(closed)
}.

Lemma touches_refers u u' h : touches u h -> u' <> u -> from_option (refers u') false h = false.
Proof.
  intros Ht Hne. destruct h as [h|]; [|done]. cbn. unfold refers. apply bool_decide_eq_false. destruct (Ht h eq_refl); congruence.
Qed.

Lemma counts_other s s' t u u' : change s s' t u -> u' <> u ->
  count (refers u') s'.(holds) = count (refers u') s.(holds) /\ readers s' u' = readers s u' /\ writers s' u' = writers s u'.
Proof.
  intros Hch Hne. unfold readers, writers.
  rewrite !(count_at _ s.(holds) s'.(holds) t) by apply (ch_holds _ _ _ _ Hch).
  pose proof (touches_refers _ _ _ (ch_old _ _ _ _ Hch) Hne) as Ho. pose proof (touches_refers _ _ _ (ch_new _ _ _ _ Hch) Hne) as Hn.
  assert (Hsub : forall h, from_option (refers u') false h = false ->
    from_option (reads u') false h = false /\ from_option (writes u') false h = false).
  { intros [h|]; [|done]. cbn. unfold reads, writes. by intros ->. }
  destruct (Hsub _ Ho) as [-> ->], (Hsub _ Hn) as [-> ->]. rewrite Ho, Hn. cbn. lia.
Qed.

Lemma obj_ok_other s s' t u u' o : change s s' t u -> u' <> u -> s.(uobjs) !! u' = Some o -> obj_ok s u' o -> obj_ok s' u' o.
Proof.
  intros Hch Hne Hu [Href Hpos Hlock Hhw]. destruct (counts_other _ _ _ _ _ Hch Hne) as (Ec & Er & Ew).
  split.
  - unfold refs in *. by rewrite Ec, (ch_idr _ _ _ _ Hch _ _ Hne Hu), (ch_list _ _ _ _ Hch _ Hne).
  - done.
  - unfold lock_ok in *. by rewrite Er, Ew, (ch_idr _ _ _ _ Hch _ _ Hne Hu), (ch_list _ _ _ _ Hch _ Hne).
  - intros h Hh. eapply (ch_hw _ _ _ _ Hch); eauto.
Qed.

(** Another hold sees what it saw. *)
Lemma hold_ok_other s s' h :
  (forall u o, about h = Some u -> s.(uobjs) !! u = Some o -> exists o', s'.(uobjs) !! u = Some o' /\
    (writer h = true -> in_idr s' u o' = in_idr s u o /\ listed s' u = listed s u /\ has_hw o' = has_hw o /\
      o'.(context) = o.(context) /\ (h = Creating u -> s'.(idr) !! o'.(id) = s.(idr) !! o.(id) /\ o'.(ref) = o.(ref)))) ->
  s'.(ucontext) = s.(ucontext) -> hold_ok s h -> hold_ok s' h.
Proof.
  intros Hsee Hctx Hok u Hu. destruct (Hok u Hu) as (o & Ho & Hh). destruct (Hsee u o Hu Ho) as (o' & Ho' & Hw).
  exists o'. split; [done|]. destruct h as [| ? [| |] | | | | | | | |]; try done;
    destruct (Hw eq_refl) as (E1 & E2 & E3 & E4 & E5); rewrite ?E1, ?E2, ?E3, ?E4; try done.
  - injection Hu as <-. by destruct (E5 eq_refl) as [-> ->].
  - by rewrite Hctx.
Qed.

Lemma inv_change s s' t u :
  inv s -> change s s' t u ->
  (forall o, s'.(uobjs) !! u = Some o -> obj_ok s' u o) ->
  (forall h, s'.(holds) !! t = Some h -> hold_ok s' h) ->
  (forall t' h, t' <> t -> s.(holds) !! t' = Some h -> about h = Some u -> hold_ok s' h) ->
  (forall t' u' o, t' <> t -> u' <> u -> s.(holds) !! t' = Some (Creating u') -> s.(uobjs) !! u' = Some o ->
    s'.(idr) !! o.(id) = s.(idr) !! o.(id)) ->
  table_ok s' -> file_ok s' -> inv s'.
Proof.
  intros Hinv Hch Hobj Hhold Hsame Hres Htab Hfile. split; [| |done|done].
  - intros u' o Hu'. destruct (decide (u' = u)) as [->|Hne]; [by apply Hobj|].
    rewrite (ch_uobjs _ _ _ _ Hch) in Hu' by done. apply (obj_ok_other s s' t u); try done. by apply Hinv.
  - intros t' h Ht'. destruct (decide (t' = t)) as [->|Hne]; [by apply Hhold|].
    rewrite (ch_holds _ _ _ _ Hch) in Ht' by done. destruct (decide (about h = Some u)) as [Hab|Hab]; [by apply (Hsame t')|].
    apply (hold_ok_other s); [|by apply Hch|by apply (inv_holds _ Hinv t')]. intros u' o Hu' Ho. exists o.
    assert (Hnu : u' <> u) by congruence. rewrite (ch_uobjs _ _ _ _ Hch) by done. split; [done|]. intros _.
    rewrite (ch_idr _ _ _ _ Hch), (ch_list _ _ _ _ Hch) by done. split_and!; try done. intros ->. split; [|done]. by apply (Hres t' u').
Qed.

Lemma file_change s s' t u :
  file_ok s -> change s s' t u ->
  s'.(hw_destroy_rwsem) - s.(hw_destroy_rwsem) =
    c_bool (from_option in_sem false (s'.(holds) !! t)) - c_bool (from_option in_sem false (s.(holds) !! t)) ->
  (s.(ucontext) = false -> s'.(uobjects) = [] /\
    match s'.(holds) !! t with Some (Creating _ | Locked _ (UVERBS_LOOKUP_READ | UVERBS_LOOKUP_WRITE)) => False | _ => True end) ->
  (is_Some (s.(holds) !! t) \/ s.(closed) = false) -> file_ok s'.
Proof.
  intros [Hsem Hgone Hclosed] Hch Hs Hg Ht. split.
  - rewrite (count_at _ s.(holds) s'.(holds) t) by apply (ch_holds _ _ _ _ Hch). lia.
  - rewrite (ch_ucontext _ _ _ _ Hch), (ch_ib_dev _ _ _ _ Hch), (ch_closed _ _ _ _ Hch). intros Hc. destruct (Hgone Hc) as (_ & Hd & Hh).
    destruct (Hg Hc) as [Hl Hn]. split; [done|]. split; [done|]. intros t' h Ht'.
    destruct (decide (t' = t)) as [->|Hne]; [by rewrite Ht' in Hn|]. rewrite (ch_holds _ _ _ _ Hch) in Ht' by done. by apply (Hh t').
  - rewrite (ch_closed _ _ _ _ Hch). intros Hc. destruct Ht as [Ht|Ht]; [|congruence].
    rewrite (Hclosed Hc) in Ht. by apply is_Some_None in Ht.
Qed.

(** The object stays; it may lose its handle and its place in the list. *)
Lemma table_change s s' t u o :
  inv s -> change s s' t u -> s.(uobjs) !! u = Some o ->
  s'.(idr) = s.(idr) \/ (s'.(idr) = delete o.(id) s.(idr) /\ in_idr s u o = true) ->
  s'.(uobjects) = s.(uobjects) \/ s'.(uobjects) = filter (.≠ u) s.(uobjects) ->
  (exists o', s'.(uobjs) !! u = Some o' /\ o'.(id) = o.(id) /\ forall h, o'.(object) = Some h -> o.(object) = Some h \/ h ∉ s.(hw)) ->
  (s'.(holds) !! t = Some (Creating u) <-> s.(holds) !! t = Some (Creating u)) -> table_ok s'.
Proof.
  intros Hinv Hch Hu Hi El (o' & Hu' & Eid & Ho) Hcr. pose proof (inv_table _ Hinv) as [Hent Hresv Huniq Hnd Hlist Hhw].
  assert (Hi' : forall i v, s'.(idr) !! i = Some v -> s.(idr) !! i = Some v).
  { destruct Hi as [-> | [-> _]]; [done|]. by intros i v [_ ?]%lookup_delete_Some. }
  assert (Hback : forall t' h i, s'.(holds) !! t' = Some h -> reserves s' h i -> s.(holds) !! t' = Some h /\ reserves s h i).
  { intros t' h i Ht' (u0 & o0 & -> & Hu0 & Hid). split.
    - destruct (decide (t' = t)) as [->|Hne]; [|by rewrite <- (ch_holds _ _ _ _ Hch)].
      assert (u0 = u) as -> by (destruct (ch_new _ _ _ _ Hch _ Ht'); cbn in *; congruence). by apply Hcr.
    - destruct (decide (u0 = u)) as [->|Hne]; [exists u, o; split_and!; congruence|].
      rewrite (ch_uobjs _ _ _ _ Hch) in Hu0 by done. by exists u0, o0. }
  assert (Hsub : forall v, v ∈ s'.(uobjects) -> v ∈ s.(uobjects)).
  { intros v. destruct El as [-> | ->]; [done|]. by intros [_ ?]%list_elem_of_filter. }
  split.
  - intros i v Hv%Hi'. destruct (Hent i v Hv) as (ov & Hov & <-). destruct (decide (v = u)) as [->|Hne]; [exists o'; split; congruence|].
    exists ov. by rewrite (ch_uobjs _ _ _ _ Hch).
  - intros i Hri%Hi'. destruct (Hresv i Hri) as (t' & h & Ht' & u0 & o0 & -> & Hu0 & Hid). exists t', (Creating u0). split.
    + destruct (decide (t' = t)) as [->|Hne]; [|by rewrite (ch_holds _ _ _ _ Hch)].
      assert (u0 = u) as -> by (destruct (ch_old _ _ _ _ Hch _ Ht'); cbn in *; congruence). by apply Hcr.
    + exists u0. destruct (decide (u0 = u)) as [->|Hne]; [exists o'; split_and!; congruence|].
      exists o0. by rewrite (ch_uobjs _ _ _ _ Hch).
  - intros i t1 t2 h1 h2 H1 H2 R1 R2. destruct (Hback _ _ _ H1 R1), (Hback _ _ _ H2 R2). by apply (Huniq i t1 t2 h1 h2).
  - destruct El as [-> | ->]; [done|by apply list.NoDup_filter].
  - intros v Hv%Hsub. destruct (decide (v = u)) as [->|Hne]; [by eexists|]. rewrite (ch_uobjs _ _ _ _ Hch) by done. by apply Hlist.
  - assert (Huu : forall v ov h, v <> u -> s'.(uobjs) !! v = Some ov -> ov.(object) = Some h -> o'.(object) = Some h -> False).
    { intros v ov h Hne Hv Hh Hh'. rewrite (ch_uobjs _ _ _ _ Hch) in Hv by done. destruct (Ho h Hh') as [Hoh|Hnin].
      - apply Hne. by apply (Hhw v u ov o h).
      - destruct Hnin. by apply (oo_hw _ _ _ (inv_objs _ Hinv v ov Hv)). }
    intros v v' ov ov' h Hv Hv' Hh Hh'. destruct (decide (v = u)) as [->|Hne], (decide (v' = u)) as [->|Hne']; try done.
    + exfalso. apply (Huu v' ov' h Hne' Hv' Hh'). congruence.
    + exfalso. apply (Huu v ov h Hne Hv Hh). congruence.
    + rewrite (ch_uobjs _ _ _ _ Hch) in Hv, Hv' by done. by apply (Hhw v v' ov ov' h).
Qed.

(** ** Steps that change the count and the lock of an object *)

Definition light (s : ib_uverbs_file) (u : Z) (o : ib_uobject) (sem : Z) (hs : gmap Z hold) : ib_uverbs_file :=
  mk_ufile (<[u := o]> s.(uobjs)) s.(idr) s.(uobjects) sem s.(ucontext) s.(ib_dev) s.(closed) s.(hw) hs.

(** The same object but for the count and the lock. *)
Definition same_core (o o' : ib_uobject) : Prop :=
  o'.(id) = o.(id) /\ o'.(object) = o.(object) /\ o'.(context) = o.(context).

Lemma same_core_sees s u o o' : same_core o o' -> in_idr s u o' = in_idr s u o /\ has_hw o' = has_hw o.
Proof. unfold in_idr, has_hw. by intros (-> & -> & _). Qed.

(** How a hold on an object changes the lock: nothing, a reader comes or goes, a
    writer comes or goes. *)
Definition lock_moves (s : ib_uverbs_file) (u : Z) (o o' : ib_uobject) (dr dw : Z) : Prop :=
  (o'.(usecnt) = o.(usecnt) /\ dr = 0 /\ dw = 0) \/
  (o.(usecnt) <> -1 /\ o'.(usecnt) = o.(usecnt) + dr /\ dw = 0) \/
  (o.(usecnt) = 0 /\ o'.(usecnt) = -1 /\ dr = 0 /\ dw = 1) \/
  (o'.(usecnt) = 0 /\ dr = 0 /\ dw = -1 /\ in_idr s u o = true /\ listed s u = has_hw o).

Lemma lock_shift s s' u o o' :
  lock_ok s u o -> same_core o o' -> s'.(idr) = s.(idr) -> s'.(uobjects) = s.(uobjects) ->
  lock_moves s u o o' (readers s' u - readers s u) (writers s' u - writers s u) -> lock_ok s' u o'.
Proof.
  intros Hl Hc Ei El Hm. destruct (same_core_sees s' u o o' Hc) as [E1 E2].
  assert (E3 : in_idr s' u o = in_idr s u o) by (unfold in_idr; by rewrite Ei).
  assert (E4 : listed s' u = listed s u) by (unfold listed; by rewrite El).
  pose proof (proj1 (count_pos (reads u) s.(holds))) as Hr. pose proof (proj1 (count_pos (writes u) s.(holds))) as Hw.
  pose proof (proj1 (count_pos (reads u) s'.(holds))) as Hr'. pose proof (proj1 (count_pos (writes u) s'.(holds))) as Hw'.
  unfold lock_ok, lock_moves in *. rewrite E1, E2, E3, E4. fold (readers s u) (readers s' u) (writers s u) (writers s' u) in *.
  destruct Hl as [(Hl1 & Hl2 & [Hl3|(Hl3 & Hl4)]) | (Hl1 & Hl2 & Hl3)], Hm as [Hm|[Hm|[Hm|Hm]]];
    first [left; split; [lia|]; split; [lia|]; first [left; lia | right; split; [lia|]; tauto]
          |right; split; [lia|]; split; [lia|]; tauto | exfalso; lia].
Qed.

Lemma inv_light s t u o o' sem hs :
  inv s -> s.(uobjs) !! u = Some o -> same_core o o' -> (forall t', t' <> t -> hs !! t' = s.(holds) !! t') ->
  touches u (s.(holds) !! t) -> touches u (hs !! t) ->
  o'.(ref) - o.(ref) = c_bool (from_option (refers u) false (hs !! t)) - c_bool (from_option (refers u) false (s.(holds) !! t)) ->
  0 < o'.(ref) ->
  lock_moves s u o o' (c_bool (from_option (reads u) false (hs !! t)) - c_bool (from_option (reads u) false (s.(holds) !! t)))
    (c_bool (from_option (writes u) false (hs !! t)) - c_bool (from_option (writes u) false (s.(holds) !! t))) ->
  (forall h, hs !! t = Some h -> hold_ok s h) -> hs !! t <> Some (Creating u) -> (forall t', s.(holds) !! t' <> Some (Creating u)) ->
  sem - s.(hw_destroy_rwsem) = c_bool (from_option in_sem false (hs !! t)) - c_bool (from_option in_sem false (s.(holds) !! t)) ->
  (s.(ucontext) = false ->
    match hs !! t with Some (Creating _ | Locked _ (UVERBS_LOOKUP_READ | UVERBS_LOOKUP_WRITE)) => False | _ => True end) ->
  (is_Some (s.(holds) !! t) \/ s.(closed) = false) ->
  inv (light s u o' sem hs).
Proof.
  intros Hinv Hu Hcore Hhs Hold Hnew Href Hpos Hlock Hok Hn Hn' Hsem Hgone Ht. set (s' := light s u o' sem hs).
  assert (Hch : change s s' t u).
  { split; try done; cbn. intros u' Hne. by rewrite lookup_insert_ne. }
  pose proof (inv_objs _ Hinv u o Hu) as [Oref Opos Olock Ohw].
  pose proof Hcore as (Eid & Eobj & Ectx). destruct (same_core_sees s u o o' Hcore) as [E1 E2].
  assert (Hsees : forall h, h <> Creating u -> hold_ok s h -> hold_ok s' h).
  { intros h Hhc. apply hold_ok_other; [|done]. intros v ov Hv' Hv. destruct (decide (v = u)) as [->|Hne].
    - exists o'. cbn. rewrite lookup_insert_eq. split; [done|]. intros _. by assert (ov = o) as -> by congruence.
    - exists ov. cbn. rewrite lookup_insert_ne by done. done. }
  apply (inv_change s s' t u); try done.
  - cbn. intros o0. rewrite lookup_insert_eq. intros [= <-]. split.
    + unfold refs in *. rewrite (count_at _ s.(holds) s'.(holds) t) by done. change (listed s' u) with (listed s u).
      change (in_idr s' u o') with (in_idr s u o'). rewrite E1. cbn. lia.
    + done.
    + apply (lock_shift s _ _ o); try done. unfold readers, writers. by rewrite !(count_diff _ s.(holds) s'.(holds) t).
    + cbn. rewrite Eobj. done.
  - intros h Hh. apply Hsees, Hok; [|done]. intros ->. by destruct Hn.
  - intros t' h _ Ht' _. apply Hsees, (inv_holds _ Hinv t'); [|done]. intros ->. by destruct (Hn' t').
  - apply (table_change s s' t u o); try done; [by left|by left| |split; [by intros ?%Hn|by intros ?%Hn']].
    exists o'. cbn. rewrite lookup_insert_eq, Eobj. split_and!; try done. by left.
  - apply (file_change s s' t u); try done; [by apply Hinv|]. intros Hc. split; [|by apply Hgone].
    by apply (fo_gone _ (inv_file _ Hinv)).
Qed.

Lemma settled_light s u o' sem hs :
  settled s -> (s.(ucontext) = true -> o'.(usecnt) <> -1 -> listed s u = true) -> settled (light s u o' sem hs).
Proof.
  intros Hs Ho Hc v ov. cbn. destruct (decide (v = u)) as [->|Hne].
  - rewrite lookup_insert_eq. intros [= <-]. by apply Ho.
  - rewrite lookup_insert_ne by done. by apply (Hs Hc v).
Qed.

(** An object that is being created is nobody else's. *)
Lemma no_creating s t h u : inv s -> s.(holds) !! t = Some h -> about h = Some u -> h <> Creating u ->
  forall t', s.(holds) !! t' <> Some (Creating u).
Proof.
  intros Hinv Ht Ha Hn t' Ht'. destruct (inv_holds _ Hinv t' _ Ht' u eq_refl) as (o & Hu & Hi & Hl & _ & Href).
  pose proof (oo_ref _ _ _ (inv_objs _ Hinv u o Hu)) as Hr. unfold refs in Hr. rewrite Href, Hl in Hr.
  assert (t = t') as ->; [|congruence]. apply (count_one (refers u) s.(holds) t t' h (Creating u)); try done.
  - destruct (in_idr s u o); cbn in Hr; lia.
  - by apply refers_spec.
  - by apply refers_spec.
Qed.

(** A hold becomes another hold on the same object. *)
Lemma inv_hold s t u o o' sem h0 h1 :
  inv s -> s.(uobjs) !! u = Some o -> s.(holds) !! t = Some h0 -> about h0 = Some u -> about h1 = Some u ->
  same_core o o' -> o'.(ref) = o.(ref) ->
  lock_moves s u o o' (c_bool (reader h1) - c_bool (reader h0)) (c_bool (writer h1) - c_bool (writer h0)) ->
  hold_ok s h1 -> h0 <> Creating u -> h1 <> Creating u ->
  sem - s.(hw_destroy_rwsem) = c_bool (in_sem h1) - c_bool (in_sem h0) ->
  (s.(ucontext) = false -> match h1 with Locked _ (UVERBS_LOOKUP_READ | UVERBS_LOOKUP_WRITE) => False | _ => True end) ->
  inv (light s u o' sem (<[t := h1]> s.(holds))).
Proof.
  intros Hinv Hu Ht Ha0 Ha1 Hcore Href Hlock Hok Hn0 Hn1 Hsem Hgone.
  assert (E0 : refers u h0 = true) by (by apply refers_spec). assert (E1 : refers u h1 = true) by (by apply refers_spec).
  apply (inv_light s t u o o'); rewrite ?Ht, ?lookup_insert_eq; cbn; unfold reads, writes; rewrite ?E0, ?E1; cbn; try done.
  - intros t' Hne. by rewrite lookup_insert_ne.
  - intros h [= <-]. by left.
  - intros h [= <-]. by left.
  - lia.
  - rewrite Href. apply (oo_pos s u), (inv_objs _ Hinv u o Hu).
  - by intros h [= <-].
  - congruence.
  - by apply (no_creating s t h0).
  - intros Hc. specialize (Hgone Hc). destruct h1; try done. cbn in Ha1. congruence.
  - left. by eexists.
Qed.

Lemma put_uobj_same s u o : s.(uobjs) !! u = Some o -> <[u := o]> s.(uobjs) = s.(uobjs).
Proof. apply insert_id. Qed.

(** Holds that need no more than that their object is there. *)
Lemma hold_ok_trivial s h u o : about h = Some u -> s.(uobjs) !! u = Some o -> writer h = false -> hold_ok s h.
Proof.
  intros Ha Hu Hw v Hv. exists o. split; [congruence|]. destruct h as [| ? [| |] | | | | | | | |]; done.
Qed.

Lemma hold_object s t h u : inv s -> s.(holds) !! t = Some h -> about h = Some u -> exists o, s.(uobjs) !! u = Some o.
Proof. intros Hinv Ht Ha. destruct (inv_holds _ Hinv t h Ht u Ha) as (o & Ho & _). by exists o. Qed.

(** A hold that reads or writes is counted. *)
Lemma hold_counted s t h u : s.(holds) !! t = Some h -> about h = Some u ->
  (reader h = true -> 0 < readers s u) /\ (writer h = true -> 0 < writers s u).
Proof.
  intros Ht Ha%refers_spec. unfold readers, writers. split; intros Hh; apply (proj2 (count_pos _ _) t h); try done.
  - unfold reads. by rewrite Ha.
  - unfold writes. by rewrite Ha.
Qed.

Lemma reader_lock s t h u o : inv s -> s.(uobjs) !! u = Some o -> s.(holds) !! t = Some h -> about h = Some u -> reader h = true ->
  0 < o.(usecnt) /\ in_idr s u o = true /\ listed s u = has_hw o.
Proof.
  intros Hinv Hu Ht Ha Hr. destruct (hold_counted s t h u Ht Ha) as [Hp _]. specialize (Hp Hr).
  destruct (oo_lock _ _ _ (inv_objs _ Hinv u o Hu)) as [(_ & ? & _)|(? & _ & ? & ?)]; [lia|split; [lia|done]].
Qed.

Lemma writer_lock s t h u o : inv s -> s.(uobjs) !! u = Some o -> s.(holds) !! t = Some h -> about h = Some u -> writer h = true ->
  o.(usecnt) = -1 /\ readers s u = 0 /\ writers s u = 1.
Proof.
  intros Hinv Hu Ht Ha Hw. destruct (hold_counted s t h u Ht Ha) as [_ Hp]. specialize (Hp Hw).
  destruct (oo_lock _ _ _ (inv_objs _ Hinv u o Hu)) as [(? & ? & Hx)|(_ & ? & _)]; lia.
Qed.

(** One writer at a time, and no reader beside it. *)
Lemma writer_alone s t t' h h' u : inv s -> s.(holds) !! t = Some h -> s.(holds) !! t' = Some h' -> about h = Some u -> about h' = Some u ->
  writer h = true -> t' <> t -> reader h' = false /\ writer h' = false.
Proof.
  intros Hinv Ht Ht' Ha Ha' Hw Hne. destruct (hold_object s t h u Hinv Ht Ha) as [o Hu].
  destruct (writer_lock s t h u o) as (_ & Hr & Hc); try done. destruct (hold_counted s t' h' u Ht' Ha') as [Hp _]. split.
  - destruct (reader h'); [|done]. specialize (Hp eq_refl). lia.
  - destruct (writer h') eqn:Hw'; [|done]. destruct Hne. apply (count_one (writes u) s.(holds) t' t h' h); try done.
    + fold (writers s u). lia.
    + unfold writes. by rewrite (proj2 (refers_spec u h') Ha').
    + unfold writes. by rewrite (proj2 (refers_spec u h) Ha).
Qed.

(** ** An object goes with its last hold *)

Section gone.
Variables (s s' : ib_uverbs_file) (t u : Z) (o : ib_uobject) (h0 : hold).
Hypotheses (Hinv : inv s) (Hu : s.(uobjs) !! u = Some o) (Ht : s.(holds) !! t = Some h0) (Ha0 : about h0 = Some u).
Hypotheses (Href : o.(ref) = 1) (Eu : s'.(uobjs) = delete u s.(uobjs)) (El : s'.(uobjects) = s.(uobjects)).
Hypothesis Hhs : forall t', t' <> t -> s'.(holds) !! t' = s.(holds) !! t'.
Hypothesis Hnew : forall h, s'.(holds) !! t = Some h -> h = UpRead.
Hypothesis Hidr : h0 = Creating u /\ s'.(idr) = delete o.(id) s.(idr) \/ h0 <> Creating u /\ s'.(idr) = s.(idr).
Hypothesis Hhw : forall h, h ∈ s.(hw) -> o.(object) <> Some h -> h ∈ s'.(hw).
Hypotheses (Ec : s'.(ucontext) = s.(ucontext)) (Ed : s'.(ib_dev) = s.(ib_dev)) (Ecl : s'.(closed) = s.(closed)).
Hypothesis Hsem : s'.(hw_destroy_rwsem) - s.(hw_destroy_rwsem) =
  c_bool (from_option in_sem false (s'.(holds) !! t)) - c_bool (in_sem h0).

Lemma last_ref : in_idr s u o = false /\ listed s u = false /\ count (refers u) s.(holds) = 1.
Proof.
  pose proof (oo_ref _ _ _ (inv_objs _ Hinv u o Hu)) as Hr. unfold refs in Hr.
  assert (0 < count (refers u) s.(holds)); [apply (proj2 (count_pos _ _) t h0 Ht); by apply refers_spec|].
  destruct (in_idr s u o), (listed s u); cbn in Hr; lia.
Qed.

Lemma no_other_hold t' h : t' <> t -> s.(holds) !! t' = Some h -> about h <> Some u.
Proof.
  intros Hne Ht' Ha. destruct last_ref as (_ & _ & Hc). apply Hne. apply (count_one (refers u) s.(holds) t' t h h0); try done.
  - lia.
  - by apply refers_spec.
  - by apply refers_spec.
Qed.

Lemma no_entry i : s.(idr) !! i <> Some (Some u).
Proof.
  intros Hi. destruct (to_entry _ (inv_table _ Hinv) i u Hi) as (o' & Hu' & <-). assert (o' = o) as -> by congruence.
  destruct last_ref as (Hf & _). unfold in_idr in Hf. by apply bool_decide_eq_false in Hf.
Qed.

(** The handle that goes was reserved for the object. *)
Lemma gone_idr j : s'.(idr) !! j = s.(idr) !! j \/ (h0 = Creating u /\ j = o.(id) /\ s.(idr) !! j = Some None /\ s'.(idr) !! j = None).
Proof.
  destruct Hidr as [[E Ei]|[_ Ei]]; rewrite Ei; [|by left]. destruct (decide (j = o.(id))) as [->|Hne].
  - right. rewrite lookup_delete_eq. split_and!; try done. rewrite E in Ht. destruct (inv_holds _ Hinv t _ Ht u eq_refl) as (o' & Hu' & Hi & _).
    by assert (o' = o) as -> by congruence.
  - left. by rewrite lookup_delete_ne.
Qed.

Lemma change_gone : change s s' t u.
Proof.
  split; rewrite ?Eu; try done.
  - intros u' Hne. by rewrite lookup_delete_ne.
  - rewrite Ht. intros h [= <-]. by left.
  - intros h Hh. right. by rewrite (Hnew h Hh).
  - intros u' o' Hne _. unfold in_idr. apply bool_decide_ext. destruct (gone_idr o'.(id)) as [->|(_ & -> & E1 & E2)]; [done|].
    rewrite E1, E2. done.
  - intros u' _. unfold listed. by rewrite El.
  - intros u' o' h Hne Hu' Ho Hh. apply Hhw; [done|]. intros Ho'. apply Hne. by apply (to_hw _ (inv_table _ Hinv) u' u o' o h).
Qed.

Lemma table_gone : table_ok s'.
Proof.
  pose proof (inv_table _ Hinv) as [Hent Hresv Huniq Hnd Hlist Huhw]. pose proof last_ref as (_ & Hnl & _).
  assert (Hback : forall t' h i, s'.(holds) !! t' = Some h -> reserves s' h i -> t' <> t /\ s.(holds) !! t' = Some h /\ reserves s h i).
  { intros t' h i Ht' (u0 & o0 & -> & Hu0 & Hid). destruct (decide (t' = t)) as [->|Hne]; [by apply Hnew in Ht'|].
    rewrite Hhs in Ht' by done. rewrite Eu in Hu0. apply lookup_delete_Some in Hu0 as [_ Hu0]. split_and!; try done. by exists u0, o0. }
  split; rewrite ?El, ?Eu; try done.
  - intros i v Hv. destruct (gone_idr i) as [E|(_ & _ & _ & E)]; [|congruence]. rewrite E in Hv. destruct (Hent i v Hv) as (ov & Hov & Hid).
    exists ov. rewrite lookup_delete_ne; [done|]. intros <-. by apply (no_entry i).
  - intros i Hi. destruct (gone_idr i) as [E|(_ & _ & _ & E)]; [|congruence]. rewrite E in Hi.
    destruct (Hresv i Hi) as (t' & h & Ht' & u0 & o0 & -> & Hu0 & Hid). assert (Hne : t' <> t).
    { intros ->. assert (h0 = Creating u0) as -> by congruence. cbn in Ha0. injection Ha0 as ->. assert (o0 = o) as -> by congruence.
      destruct Hidr as [[_ Ei]|[Hn _]]; [|done]. rewrite <- Hid, Ei, lookup_delete_eq in E. congruence. }
    exists t', (Creating u0). rewrite Hhs by done. split; [done|]. exists u0, o0. rewrite Eu, lookup_delete_ne; [done|].
    intros <-. by apply (no_other_hold t' (Creating u)).
  - intros i t1 t2 h1 h2 H1 H2 R1 R2. destruct (Hback _ _ _ H1 R1) as (_ & ? & ?), (Hback _ _ _ H2 R2) as (_ & ? & ?). by apply (Huniq i t1 t2 h1 h2).
  - intros v Hv. rewrite lookup_delete_ne; [by apply Hlist|]. intros <-. unfold listed in Hnl. by apply bool_decide_eq_false in Hnl.
  - intros v v' ov ov' h [_ Hv]%lookup_delete_Some [_ Hv']%lookup_delete_Some. by apply (Huhw v v' ov ov' h).
Qed.

Lemma inv_gone : inv s'.
Proof.
  apply (inv_change s s' t u); try done; try apply change_gone; try apply table_gone.
  - intros o'. by rewrite Eu, lookup_delete_eq.
  - intros h Hh. rewrite (Hnew h Hh). by intros ? ?.
  - intros t' h Hne Ht' Ha. by destruct (no_other_hold t' h Hne Ht').
  - intros t' u' o' Hne Hneu Ht' Hu'. destruct (gone_idr o'.(id)) as [|(E & Hid & _)]; [done|]. exfalso. apply Hne. symmetry.
    rewrite E in Ht. apply (to_unique _ (inv_table _ Hinv) o.(id) t t' (Creating u) (Creating u')); try done; [by exists u, o|].
    by exists u', o'.
  - apply (file_change s s' t u); [by apply Hinv|by apply change_gone|by rewrite Ht| |rewrite Ht; left; by eexists].
    intros Hc. rewrite El. split; [by apply (fo_gone _ (inv_file _ Hinv))|].
    destruct (s'.(holds) !! t) as [h|] eqn:E; [|done]. by rewrite (Hnew h eq_refl).
Qed.

Lemma settled_gone : settled s -> settled s'.
Proof.
  intros Hs Hc v ov. rewrite Eu. intros [_ Hv]%lookup_delete_Some. unfold listed. rewrite El. apply (Hs (ltac:(congruence)) v ov Hv).
Qed.

End gone.

(** ** Steps of the writer of an object *)

Section writer.
Variables (s s' : ib_uverbs_file) (t u : Z) (o o' : ib_uobject) (h0 h1 : hold).
Hypotheses (Hinv : inv s) (Hu : s.(uobjs) !! u = Some o) (Ht : s.(holds) !! t = Some h0).
Hypotheses (Ha0 : about h0 = Some u) (Ha1 : about h1 = Some u) (Hw0 : writer h0 = true) (Hsem1 : in_sem h1 = in_sem h0).
Hypotheses (Eu : s'.(uobjs) = <[u := o']> s.(uobjs)) (Eh : s'.(holds) = <[t := h1]> s.(holds)).
Hypotheses (Eid : o'.(id) = o.(id)) (Euse : o'.(usecnt) = -1) (Esem : s'.(hw_destroy_rwsem) = s.(hw_destroy_rwsem)).
Hypotheses (Ec : s'.(ucontext) = s.(ucontext)) (Ed : s'.(ib_dev) = s.(ib_dev)) (Ecl : s'.(closed) = s.(closed)).
Hypothesis Hidr : s'.(idr) = s.(idr) \/ (s'.(idr) = delete o.(id) s.(idr) /\ in_idr s u o = true).
Hypothesis Hlist : s'.(uobjects) = s.(uobjects) \/ s'.(uobjects) = filter (.≠ u) s.(uobjects).
Hypothesis Hhw : forall h, h ∈ s.(hw) -> o.(object) <> Some h -> h ∈ s'.(hw).
Hypothesis Hobj : forall h, o'.(object) = Some h -> (o.(object) = Some h \/ h ∉ s.(hw)) /\ h ∈ s'.(hw).
Hypothesis Href : o'.(ref) - c_bool (in_idr s' u o') - c_bool (listed s' u) = o.(ref) - c_bool (in_idr s u o) - c_bool (listed s u).
Hypothesis Hcr : h1 = Creating u <-> h0 = Creating u.
Hypothesis Hnl : match h1 with Locked _ (UVERBS_LOOKUP_READ | UVERBS_LOOKUP_WRITE) => False | _ => True end.
Hypothesis Hok : hold_ok s' h1.
Hypothesis Hgone : writer h1 = true \/ in_idr s' u o' = false /\ listed s' u = false /\ has_hw o' = false.

Lemma change_writer : change s s' t u.
Proof.
  split; rewrite ?Eu, ?Eh; try done.
  - intros u' Hne. by rewrite lookup_insert_ne.
  - intros t' Hne. by rewrite lookup_insert_ne.
  - rewrite Ht. intros h [= <-]. by left.
  - rewrite lookup_insert_eq. intros h [= <-]. by left.
  - intros v ov Hne _. unfold in_idr. destruct Hidr as [-> | [-> Hi]]; [done|]. apply bool_decide_ext.
    unfold in_idr in Hi. apply bool_decide_eq_true in Hi. destruct (decide (ov.(id) = o.(id))) as [->|Hnid].
    + rewrite lookup_delete_eq, Hi. split; [done|congruence].
    + by rewrite lookup_delete_ne.
  - intros v Hne. unfold listed. apply bool_decide_ext. destruct Hlist as [-> | ->]; [done|]. rewrite list_elem_of_filter. tauto.
  - intros v ov h Hne Hv Hh Hin. apply Hhw; [done|]. intros Ho. apply Hne. by apply (to_hw _ (inv_table _ Hinv) v u ov o h).
Qed.

Lemma obj_writer : obj_ok s' u o'.
Proof.
  pose proof change_writer as Hch. pose proof (inv_objs _ Hinv u o Hu) as [Oref Opos _ _].
  destruct (writer_lock s t h0 u o Hinv Hu Ht Ha0 Hw0) as (_ & Hr & Hw).
  assert (E0 : refers u h0 = true) by (by apply refers_spec). assert (E1 : refers u h1 = true) by (by apply refers_spec).
  assert (Hc : forall P, count P s'.(holds) = count P s.(holds) - c_bool (P h0) + c_bool (P h1)).
  { intros P. rewrite (count_at P s.(holds) s'.(holds) t) by apply (ch_holds _ _ _ _ Hch). by rewrite Eh, Ht, lookup_insert_eq. }
  assert (Hrd : reader h0 = false /\ reader h1 = false).
  { destruct h0 as [| ? [| |] | | | | | | | |]; try done; by destruct h1 as [| ? [| |] | | | | | | | |]. }
  assert (Href' : o'.(ref) = refs s' u o').
  { unfold refs in *. rewrite Hc, E0, E1. cbn. lia. }
  split.
  - done.
  - rewrite Href'. unfold refs. assert (0 < count (refers u) s'.(holds)).
    { apply (proj2 (count_pos _ _) t h1); [by rewrite Eh, lookup_insert_eq|done]. }
    destruct (in_idr s' u o'), (listed s' u); cbn; lia.
  - left. unfold readers, writers in *. rewrite !Hc. unfold reads, writes. rewrite E0, E1, Hw0. destruct Hrd as [-> ->]. cbn.
    split; [done|]. split; [fold (reads u); lia|]. fold (writes u). destruct Hgone as [-> |Hg]; cbn; [left; lia|].
    destruct (writer h1); cbn; [left; lia|right; split; [lia|done]].
  - intros h Hh. by apply Hobj.
Qed.

Lemma inv_writer : inv s'.
Proof.
  pose proof change_writer as Hch. apply (inv_change s s' t u); try done.
  - intros ov. rewrite Eu, lookup_insert_eq. intros [= <-]. apply obj_writer.
  - intros h. rewrite Eh, lookup_insert_eq. by intros [= <-].
  - intros t' h Hne Ht' Ha. destruct (writer_alone s t t' h0 h u Hinv Ht Ht' Ha0 Ha Hw0 Hne) as [_ Hw].
    apply (hold_ok_trivial s' h u o'); [done| |done]. by rewrite Eu, lookup_insert_eq.
  - intros t' v ov Hne Hnv Ht' Hv. destruct Hidr as [-> | [-> Hi]]; [done|].
    destruct (inv_holds _ Hinv t' _ Ht' v eq_refl) as (ov' & Hv' & Hres & _). assert (ov' = ov) as -> by congruence.
    unfold in_idr in Hi. apply bool_decide_eq_true in Hi. rewrite lookup_delete_ne; [done|congruence].
  - apply (table_change s s' t u o); try done.
    + exists o'. rewrite Eu, lookup_insert_eq. split; [done|]. split; [done|]. intros h Hh. by apply Hobj.
    + rewrite Eh, lookup_insert_eq, Ht. split; intros [= E]; f_equal; by apply Hcr.
  - apply (file_change s s' t u); [by apply Hinv|done|rewrite Eh, lookup_insert_eq, Ht; cbn; rewrite Hsem1; lia| |rewrite Ht; left; by eexists].
    intros Hc. rewrite Eh, lookup_insert_eq. destruct (fo_gone _ (inv_file _ Hinv) Hc) as (Hl & _ & Hh). split.
    + destruct Hlist as [-> | ->]; by rewrite Hl.
    + specialize (Hh t h0 Ht). destruct h1 as [| ? [| |] | | | | | | | |]; try done. cbn in Ha1. injection Ha1 as ->.
      by rewrite (proj1 Hcr eq_refl) in Hh.
Qed.

Lemma settled_writer : settled s -> settled s'.
Proof.
  intros Hs Hc v ov. rewrite Eu. destruct (decide (v = u)) as [->|Hne]; [rewrite lookup_insert_eq; intros [= <-]; lia|].
  rewrite lookup_insert_ne by done. intros Hv Huse. rewrite (ch_list _ _ _ _ change_writer) by done. apply (Hs (ltac:(congruence)) v ov Hv Huse).
Qed.

End writer.
