(* ===== verification/UobjectRun.v ===== *)
(** User objects, the steps: every enabled step succeeds and keeps the invariant
    of UobjectSafe.v. The clean-up of a whole file is in UobjectClean.v. *)

From S2P Require Import Prelude Counting Uobject UobjectSafe.
#[local] Open Scope Z_scope.

Definition good (s : ib_uverbs_file) : Prop := inv s /\ settled s.

(** ** Looking objects up and letting them go *)

Lemma lookup_keeps s t i mode want :
  good s -> s.(closed) = false -> s.(holds) !! t = None ->
  exists s' ret, lookup_get_idr_uobject s t i mode want = Some (s', ret) /\ good s'.
Proof.
  intros [Hinv Hset] Hcl Ht. unfold lookup_get_idr_uobject. case_match; [by eexists _, _|].
  destruct (idr s !! i) as [[u|]|] eqn:Hi; [|by eexists _, _..].
  destruct (to_entry _ (inv_table _ Hinv) i u Hi) as (o & Hu & <-). unfold mbind, option_bind. rewrite Hu.
  pose proof (inv_objs _ Hinv u o Hu) as Hok. pose proof (oo_pos _ _ _ Hok) as Hpos.
  rewrite (proj2 (Z.eqb_neq _ _)) by lia. eexists _, _. split; [done|].
  set (o' := with_ref o (o.(ref) + 1)). change (good (light s u o' s.(hw_destroy_rwsem) (<[t := Looked u mode want]> s.(holds)))). split.
  - apply (inv_light s t u o o'); rewrite ?Ht, ?lookup_insert_eq; cbn; unfold reads, writes, refers; rewrite ?bool_decide_true; try done; try lia.
    + intros t' Hne. by rewrite lookup_insert_ne.
    + intros h [= <-]. by left.
    + cbn. lia.
    + left. cbn. lia.
    + intros h [= <-]. by apply (hold_ok_trivial _ _ u o).
    + intros t' Ht'. destruct (inv_holds _ Hinv t' _ Ht' u eq_refl) as (o0 & Hu0 & Hi0 & _).
      assert (o0 = o) as -> by congruence. congruence.
    + by right.
  - apply settled_light; [done|]. intros Hc Huc. by apply (Hset Hc u o).
Qed.

Lemma check_lock_keeps s t u mode want :
  good s -> at_hold s t (Looked u mode want) -> exists s' ret, rdma_lookup_get_uobject s t u mode want = Some (s', ret) /\ good s'.
Proof.
  intros [Hinv Hset] Ht. destruct (hold_object s t _ u Hinv Ht eq_refl) as [o Hu].
  unfold rdma_lookup_get_uobject, mbind, option_bind. rewrite Hu.
  assert (Hdrop : forall ret : Z, exists s' ret', Some (put_hold s t (Dropping u), ret) = Some (s', ret') /\ good s').
  { intros ret. eexists _, _. split; [done|]. split.
    - pose proof (inv_hold s t u o o s.(hw_destroy_rwsem) (Looked u mode want) (Dropping u)) as Hh. unfold light in Hh.
      rewrite put_uobj_same in Hh by done. apply Hh; try done; [left; cbn; lia|by apply (hold_ok_trivial _ _ u o)|cbn; lia].
    - exact Hset. }
  case_match; [by apply Hdrop|]. case_match eqn:Hdev; [by apply Hdrop|].
  assert (Hlive : mode <> UVERBS_LOOKUP_DESTROY -> s.(ucontext) = true).
  { intros Hm. rewrite bool_decide_true in Hdev by done. apply negb_false_iff in Hdev. destruct (ucontext s) eqn:Hc; [done|].
    destruct (fo_gone _ (inv_file _ Hinv) Hc) as (_ & [|Hcl] & _); [congruence|].
    unfold at_hold in Ht. rewrite (fo_closed _ (inv_file _ Hinv) Hcl) in Ht. by rewrite lookup_empty in Ht. }
  pose proof (oo_lock _ _ _ (inv_objs _ Hinv u o Hu)) as Hlock.
  destruct (uverbs_try_lock_object o mode) as [o' ret] eqn:Hl. destruct (c_true ret) eqn:Hret; [by apply Hdrop|].
  eexists _, _. split; [done|].
  change (good (light s u o' s.(hw_destroy_rwsem) (<[t := Locked u mode]> s.(holds)))).
  assert (Hmoves : same_core o o' /\ o'.(ref) = o.(ref) /\
    lock_moves s u o o' (c_bool (reader (Locked u mode))) (c_bool (writer (Locked u mode))) /\
    (o'.(usecnt) <> -1 -> o.(usecnt) <> -1) /\ (mode = UVERBS_LOOKUP_WRITE -> o.(usecnt) = 0)).
  { unfold uverbs_try_lock_object in Hl. destruct mode.
    - case_match eqn:E; injection Hl as <- <-; [done|]. apply Z.eqb_neq in E. split_and!; try done. right; left. cbn. lia.
    - case_match eqn:E; injection Hl as <- <-; [|done]. apply Z.eqb_eq in E. split_and!; try done. right; right; left. cbn. lia.
    - injection Hl as <- <-. split_and!; try done. left. cbn. lia. }
  destruct Hmoves as (Hcore & Href & Hmv & Huse & Hw). split.
  - apply (inv_hold s t u o o' _ (Looked u mode want)); try done; cbn [reader writer c_bool]; rewrite ?Z.sub_0_r; try done.
    + destruct mode; [by apply (hold_ok_trivial _ _ u o)| |by apply (hold_ok_trivial _ _ u o)].
      intros v [= <-]. exists o. split; [done|]. specialize (Hw eq_refl). specialize (Hset (Hlive ltac:(done)) u o Hu).
      destruct Hlock as [(? & _)|(_ & _ & Hi & Hlist)]; [lia|]. rewrite <- Hlist. split; [done|]. split; apply Hset; lia.
    + cbn. lia.
    + intros Hc. destruct mode; try done; by rewrite Hlive in Hc.
  - apply settled_light; [done|]. intros Hc Hn. apply (Hset Hc u o Hu). by apply Huse.
Qed.

Lemma unlock_keeps s t u mode : good s -> at_hold s t (Locked u mode) -> exists s', rdma_lookup_put_uobject s t u mode = Some s' /\ good s'.
Proof.
  intros [Hinv Hset] Ht. destruct (hold_object s t _ u Hinv Ht eq_refl) as [o Hu].
  unfold rdma_lookup_put_uobject, mbind, option_bind. rewrite Hu.
  assert (Hpre : assert_uverbs_usecnt o mode = true /\ (mode = UVERBS_LOOKUP_WRITE -> in_idr s u o = true /\ listed s u = true /\ has_hw o = true) /\
    (mode = UVERBS_LOOKUP_READ -> 0 < o.(usecnt))).
  { destruct mode; cbn; [| |done].
    - destruct (reader_lock s t _ u o Hinv Hu Ht eq_refl eq_refl) as (Hp & _). split_and!; [lia|done|lia].
    - destruct (writer_lock s t _ u o Hinv Hu Ht eq_refl eq_refl) as (Hp & _). split_and!; [lia| |done]. intros _.
      destruct (inv_holds _ Hinv t _ Ht u eq_refl) as (o0 & Hu0 & Hrest). by assert (o0 = o) as -> by congruence. }
  destruct Hpre as (-> & Hw & Hr). cbn [negb]. eexists. split; [done|].
  set (o' := match mode with UVERBS_LOOKUP_READ => with_usecnt o (usecnt o - 1) | UVERBS_LOOKUP_WRITE => with_usecnt o 0 | UVERBS_LOOKUP_DESTROY => o end).
  change (good (light s u o' s.(hw_destroy_rwsem) (<[t := Dropping u]> s.(holds)))). split.
  - apply (inv_hold s t u o o' _ (Locked u mode)); try done.
    + subst o'. by destruct mode.
    + subst o'. by destruct mode.
    + subst o'. destruct mode; cbn.
      * right; left. specialize (Hr eq_refl). cbn. lia.
      * right; right; right. destruct (Hw eq_refl) as (? & -> & ->). done.
      * left. lia.
    + by apply (hold_ok_trivial _ _ u o).
    + cbn. lia.
  - apply settled_light; [done|]. intros Hc Hn. subst o'. destruct mode; cbn in Hn.
    + specialize (Hr eq_refl). apply (Hset Hc u o Hu). lia.
    + by apply Hw.
    + by apply (Hset Hc u o Hu).
Qed.

Lemma drop_keeps s t u : good s -> at_hold s t (Dropping u) -> exists s', drop_hold s t u = Some s' /\ good s'.
Proof.
  intros [Hinv Hset] Ht. destruct (hold_object s t _ u Hinv Ht eq_refl) as [o Hu].
  unfold drop_hold, uverbs_uobject_put, mbind, option_bind. rewrite Hu. eexists. split; [done|].
  pose proof (inv_objs _ Hinv u o Hu) as Hok. case_match eqn:Hr.
  - apply Z.eqb_eq in Hr. set (s' := end_hold _ t).
    assert (Hd : s'.(holds) !! t = None) by (cbn; by rewrite lookup_delete_eq).
    split; [apply (inv_gone s s' t u o (Dropping u))|apply (settled_gone s s' u)]; try done.
    + lia.
    + intros t' Hne. cbn. by rewrite lookup_delete_ne.
    + by rewrite Hd.
    + by right.
    + rewrite Hd. cbn. lia.
  - apply Z.eqb_neq in Hr. set (o' := with_ref o (o.(ref) - 1)).
    change (good (light s u o' s.(hw_destroy_rwsem) (delete t s.(holds)))). split.
    + pose proof (oo_pos _ _ _ Hok).
      apply (inv_light s t u o o'); unfold at_hold in Ht; rewrite ?Ht, ?lookup_delete_eq; cbn; unfold reads, writes, refers;
        rewrite ?bool_decide_true by done; try done.
      * intros t' Hne. by rewrite lookup_delete_ne.
      * intros h [= <-]. by left.
      * cbn. lia.
      * lia.
      * left. cbn. lia.
      * by apply (no_creating s t (Dropping u)).
      * lia.
      * left. by eexists.
    + apply settled_light; [done|]. intros Hc Hn. by apply (Hset Hc u o).
Qed.

Lemma up_read_keeps s t : good s -> at_hold s t UpRead -> exists s', up_read_hold s t = Some s' /\ good s'.
Proof.
  intros [Hinv Hset] Ht. eexists. split; [done|]. split; [|exact Hset]. set (s' := end_hold (up_read s) t).
  assert (Hd : s'.(holds) !! t = None) by (cbn; by rewrite lookup_delete_eq).
  assert (Hother : forall t', t' <> t -> s'.(holds) !! t' = s.(holds) !! t') by (intros t' Hne; cbn; by rewrite lookup_delete_ne).
  unfold at_hold in Ht. assert (Hch : forall u, change s s' t u).
  { intros u. split; try done; [|by rewrite Hd]. rewrite Ht. intros h [= <-]. by right. }
  destruct (inv_table _ Hinv) as [Hent Hresv Huniq Hnd Hlist Huhw]. split.
  - intros u o Hu. apply (obj_ok_other s s' t (u + 1)); try done; [lia|by apply Hinv].
  - intros t' h Hh. destruct (decide (t' = t)) as [->|Hne]; [congruence|]. rewrite Hother in Hh by done.
    apply (hold_ok_other s); [|done|by apply (inv_holds _ Hinv t')]. intros u o _ Hu. by exists o.
  - split; try done.
    + intros i Hi. destruct (Hresv i Hi) as (t' & h & Ht' & u & o & -> & Hu & Hid). exists t', (Creating u).
      rewrite Hother by (intros ->; congruence). split; [done|]. by exists u, o.
    + intros i t1 t2 h1 h2 H1 H2. cbn in H1, H2. apply lookup_delete_Some in H1 as [_ H1], H2 as [_ H2]. by apply (Huniq i).
  - apply (file_change s s' t 0); [by apply Hinv|by apply Hch|rewrite Ht, Hd; cbn; lia| |rewrite Ht; left; by eexists].
    intros Hc. rewrite Hd. split; [|done]. by apply (fo_gone _ (inv_file _ Hinv)).
Qed.

(** ** Destroying an object *)

Lemma destroy_begin_keeps s t u :
  good s -> at_hold s t (Locked u UVERBS_LOOKUP_DESTROY) -> exists s', destroy_begin s t u = Some s' /\ good s'.
Proof.
  intros [Hinv Hset] Ht. destruct (hold_object s t _ u Hinv Ht eq_refl) as [o Hu]. unfold destroy_begin.
  pose proof (proj1 (count_pos in_sem s.(holds))) as Hp. rewrite <- (fo_sem _ (inv_file _ Hinv)) in Hp.
  rewrite (proj2 (Z.ltb_ge _ _)) by lia. eexists. split; [done|]. split; [|exact Hset].
  pose proof (inv_hold s t u o o (s.(hw_destroy_rwsem) + 1) (Locked u UVERBS_LOOKUP_DESTROY) (DestroyTry u)) as Hh. unfold light in Hh.
  rewrite put_uobj_same in Hh by done. apply Hh; try done; [left; cbn; lia|by apply (hold_ok_trivial _ _ u o)|cbn; lia].
Qed.

Lemma destroy_up_keeps s t u ret : good s -> at_hold s t (DestroyUp u ret) -> exists s', destroy_up s t u = Some s' /\ good s'.
Proof.
  intros [Hinv Hset] Ht. destruct (hold_object s t _ u Hinv Ht eq_refl) as [o Hu]. eexists. split; [done|]. split; [|exact Hset].
  pose proof (inv_hold s t u o o (s.(hw_destroy_rwsem) - 1) (DestroyUp u ret) (Locked u UVERBS_LOOKUP_DESTROY)) as Hh. unfold light in Hh.
  rewrite put_uobj_same in Hh by done. apply Hh; try done; [left; cbn; lia|by apply (hold_ok_trivial _ _ u o)|cbn; lia].
Qed.

Lemma destroy_try_keeps s t u : good s -> at_hold s t (DestroyTry u) -> exists s', destroy_try s t u = Some s' /\ good s'.
Proof.
  intros [Hinv Hset] Ht. destruct (hold_object s t _ u Hinv Ht eq_refl) as [o Hu].
  unfold destroy_try, mbind, option_bind. rewrite Hu. cbn [uverbs_try_lock_object]. destruct (Z.eqb_spec o.(usecnt) 0) as [Hn|Hn].
  - eexists. split; [done|]. set (o' := with_usecnt o (-1)).
    change (good (light s u o' s.(hw_destroy_rwsem) (<[t := DestroyHw u]> s.(holds)))). split.
    + apply (inv_hold s t u o o' _ (DestroyTry u)); try done; cbn; [right; right; left; cbn; lia| |lia].
      intros v [= <-]. exists o. split; [done|].
      destruct (oo_lock _ _ _ (inv_objs _ Hinv u o Hu)) as [(? & _)|(_ & _ & Hi & Hl)]; [lia|]. split; [done|]. split; [done|].
      intros Hc. apply (Hset Hc u o); [done|lia].
    + apply settled_light; [done|]. cbn. lia.
  - eexists. split; [done|]. change (c_true (- EBUSY)) with true. cbn iota.
    change (good (light s u o s.(hw_destroy_rwsem) (<[t := DestroyUp u (- EBUSY)]> s.(holds)))). split.
    + apply (inv_hold s t u o o _ (DestroyTry u)); try done; cbn; [left; lia|by apply (hold_ok_trivial _ _ u o)|lia].
    + apply settled_light; [done|]. intros Hc Hx. by apply (Hset Hc u o).
Qed.

(** What a hold says of the object it is about. *)
Lemma hold_says s t h u o : inv s -> s.(holds) !! t = Some h -> about h = Some u -> s.(uobjs) !! u = Some o ->
  match h with
  | Locked _ UVERBS_LOOKUP_WRITE => in_idr s u o = true /\ listed s u = true /\ has_hw o = true
  | Creating _ => s.(idr) !! o.(id) = Some None /\ listed s u = false /\ o.(context) = true /\ o.(ref) = 1
  | DestroyHw _ => in_idr s u o = true /\ listed s u = has_hw o /\ (s.(ucontext) = true -> listed s u = true)
  | DestroyHandle _ => in_idr s u o = true /\ has_hw o = false
  | DestroyList _ => in_idr s u o = false /\ has_hw o = false
  | _ => True
  end.
Proof.
  intros Hinv Ht Ha Hu. destruct (inv_holds _ Hinv t h Ht u Ha) as (o0 & Hu0 & Hh). by assert (o0 = o) as <- by congruence.
Qed.

Lemma has_hw_spec o : has_hw o = true <-> exists h, o.(object) = Some h.
Proof. apply bool_decide_eq_true. Qed.

Lemma destroy_hw_keeps s t u ret : good s -> at_hold s t (DestroyHw u) -> exists s', destroy_hw_step s t u ret = Some s' /\ good s'.
Proof.
  intros [Hinv Hset] Ht. destruct (hold_object s t _ u Hinv Ht eq_refl) as [o Hu].
  destruct (writer_lock s t _ u o Hinv Hu Ht eq_refl eq_refl) as (Huse & _ & Hw).
  destruct (hold_says s t _ u o Hinv Ht eq_refl Hu) as (Hi & Hl & Hctx).
  unfold destroy_hw_step, mbind, option_bind. rewrite Hu. unfold assert_uverbs_usecnt. rewrite Huse.
  change (negb (-1 =? -1)) with false. cbn iota. unfold destroy_object, mbind, option_bind. rewrite Hu. rewrite decide_False by done.
  destruct (object o) as [h|] eqn:Ho.
  - unfold destroy_hw_idr_uobject. destruct (c_true ret) eqn:Hret.
    + rewrite Hret. cbn iota beta. rewrite Hret, Hu. eexists. split; [done|]. set (o' := with_usecnt o 0).
      change (good (light s u o' s.(hw_destroy_rwsem) (<[t := DestroyUp u ret]> s.(holds)))). split.
      * apply (inv_hold s t u o o' _ (DestroyHw u)); try done; cbn; [by right; right; right|by apply (hold_ok_trivial _ _ u o)|lia].
      * apply settled_light; [done|]. intros Hc _. by apply Hctx.
    + rewrite decide_True by (by apply (oo_hw s u o); [apply (inv_objs _ Hinv u o Hu)|]). cbn.
      eexists. split; [done|]. set (s' := put_hold _ _ _).
      split; [apply (inv_writer s s' t u o (with_object o None) (DestroyHw u) (DestroyHandle u))
             |apply (settled_writer s s' t u o (with_object o None) (DestroyHw u) (DestroyHandle u))]; try done; try (by left).
      * intros h' Hin Hne. cbn. set_solver.
      * intros v [= <-]. exists (with_object o None). cbn. rewrite lookup_insert_eq. done.
      * intros h' Hin Hne. cbn. set_solver.
  - eexists. split; [done|]. cbn. set (s' := put_hold _ _ _). 
    assert (Hs : s'.(uobjs) = <[u := o]> s.(uobjs)) by (cbn; by rewrite insert_id).
    split; [apply (inv_writer s s' t u o o (DestroyHw u) (DestroyHandle u))
           |apply (settled_writer s s' t u o o (DestroyHw u) (DestroyHandle u))]; try done; try (by left).
    + by rewrite Ho.
    + intros v [= <-]. exists o. split; [done|]. split; [done|]. unfold has_hw. by rewrite Ho.
Qed.

(** The writer's own reference is counted beside those of handle and list. *)
Lemma hold_refs s t h u o : inv s -> s.(holds) !! t = Some h -> about h = Some u -> s.(uobjs) !! u = Some o ->
  1 + c_bool (in_idr s u o) + c_bool (listed s u) <= o.(ref).
Proof.
  intros Hinv Ht Ha%refers_spec Hu. rewrite (oo_ref _ _ _ (inv_objs _ Hinv u o Hu)). unfold refs.
  pose proof (proj2 (count_pos (refers u) s.(holds)) t h Ht Ha). lia.
Qed.

Lemma destroy_handle_keeps s t u : good s -> at_hold s t (DestroyHandle u) -> exists s', destroy_handle_step s t u = Some s' /\ good s'.
Proof.
  intros [Hinv Hset] Ht. destruct (hold_object s t _ u Hinv Ht eq_refl) as [o Hu].
  destruct (hold_says s t _ u o Hinv Ht eq_refl Hu) as (Hi & Hh).
  pose proof (hold_refs s t _ u o Hinv Ht eq_refl Hu) as Hr. rewrite Hi in Hr. cbn in Hr.
  destruct (writer_lock s t _ u o Hinv Hu Ht eq_refl eq_refl) as (Huse & _ & Hw).
  unfold destroy_handle_step, release_object, remove_handle_idr_uobject, uverbs_uobject_put, mbind, option_bind. rewrite Hu.
  rewrite decide_True by done. cbn. rewrite lookup_insert_eq. cbn.
  assert (0 <= c_bool (listed s u)) by (by destruct (listed s u)). rewrite (proj2 (Z.eqb_neq _ _)) by lia.
  eexists. split; [done|]. set (s' := put_hold _ _ _). set (o' := with_ref (with_context o false) (o.(ref) - 1)).
  assert (Eu : s'.(uobjs) = <[u := o']> s.(uobjs)) by apply insert_insert_eq.
  assert (Hni : in_idr s' u o' = false) by (apply bool_decide_eq_false; cbn; by rewrite lookup_delete_eq).
  split; [apply (inv_writer s s' t u o o' (DestroyHandle u) (DestroyList u))
         |apply (settled_writer s s' t u o o' (DestroyHandle u) (DestroyList u))]; try done; try (by left); try (by right).
  - intros h Hh'. unfold has_hw in Hh. cbn in Hh'. rewrite Hh' in Hh. done.
  - rewrite Hni, Hi. change (listed s' u) with (listed s u). cbn. lia.
  - intros v [= <-]. exists o'. rewrite Eu, lookup_insert_eq. done.
Qed.

Lemma destroy_list_keeps s t u : good s -> at_hold s t (DestroyList u) -> exists s', destroy_list_step s t u = Some s' /\ good s'.
Proof.
  intros [Hinv Hset] Ht. destruct (hold_object s t _ u Hinv Ht eq_refl) as [o Hu].
  destruct (hold_says s t _ u o Hinv Ht eq_refl Hu) as (Hi & Hh).
  pose proof (hold_refs s t _ u o Hinv Ht eq_refl Hu) as Hr.
  destruct (writer_lock s t _ u o Hinv Hu Ht eq_refl eq_refl) as (Huse & _ & Hw).
  assert (Hno : forall h, o.(object) <> Some h) by (intros h Ho; unfold has_hw in Hh; by rewrite Ho in Hh).
  unfold destroy_list_step, unlist_object, uverbs_uobject_put, mbind, option_bind. rewrite Hu.
  case_decide as Hin; [|].
  - cbn. rewrite Hu. assert (Hl : listed s u = true) by (by apply bool_decide_eq_true). rewrite Hl in Hr. cbn in Hr.
    assert (0 <= c_bool (in_idr s u o)) by (by destruct (in_idr s u o)). rewrite (proj2 (Z.eqb_neq _ _)) by lia.
    eexists. split; [done|]. set (s' := put_hold _ _ _). set (o' := with_ref o (o.(ref) - 1)).
    assert (Hnl : listed s' u = false) by (apply bool_decide_eq_false; cbn; rewrite list_elem_of_filter; tauto).
    split; [apply (inv_writer s s' t u o o' (DestroyList u) (DestroyUp u 0))
           |apply (settled_writer s s' t u o o' (DestroyList u) (DestroyUp u 0))]; try done; try (by left); try (by right).
    + intros h Hh'. by destruct (Hno h).
    + rewrite Hnl, Hl. change (in_idr s' u o') with (in_idr s u o). cbn. lia.
    + by apply (hold_ok_trivial s' _ u o'); [|cbn; rewrite lookup_insert_eq|].
  - assert (Hl : listed s u = false) by (by apply bool_decide_eq_false).
    eexists. split; [done|]. set (s' := put_hold _ _ _).
    assert (Eu : s'.(uobjs) = <[u := o]> s.(uobjs)) by (cbn; by rewrite insert_id).
    split; [apply (inv_writer s s' t u o o (DestroyList u) (DestroyUp u 0))
           |apply (settled_writer s s' t u o o (DestroyList u) (DestroyUp u 0))]; try done; try (by left); try (by right).
    + intros h Hh'. by destruct (Hno h).
    + by apply (hold_ok_trivial s' _ u o).
Qed.

Lemma filter_absent (u : Z) (l : list Z) : u ∉ l -> filter (.≠ u) l = l.
Proof.
  induction l as [|v l IH]; [done|]. intros [Hne Hv]%list.not_elem_of_cons. rewrite filter_cons_True by done. by rewrite IH.
Qed.

(** The state after a destruction: [refs] is what is left of the references. *)
Definition destroyed (s : ib_uverbs_file) (u : Z) (o : ib_uobject) : ib_uverbs_file :=
  mk_ufile (<[u := mk_uobj o.(uapi_object) false None o.(id) (o.(ref) - 1 - c_bool (listed s u)) (-1)]> s.(uobjs))
    (delete o.(id) s.(idr)) (filter (.≠ u) s.(uobjects)) s.(hw_destroy_rwsem) s.(ucontext) s.(ib_dev) s.(closed)
    (match o.(object) with Some h => s.(hw) ∖ {[h]} | None => s.(hw) end) s.(holds).

(** Release and removal from the list, when there are references enough. *)
Lemma release_unlist s u o : s.(uobjs) !! u = Some o -> 1 + 1 + c_bool (listed s u) <= o.(ref) ->
  (s1 ← release_object s u RDMA_REMOVE_DESTROY; unlist_object s1 u) =
    Some (mk_ufile (<[u := with_ref (with_context o false) (o.(ref) - 1 - c_bool (listed s u))]> s.(uobjs)) (delete o.(id) s.(idr))
      (filter (.≠ u) s.(uobjects)) s.(hw_destroy_rwsem) s.(ucontext) s.(ib_dev) s.(closed) s.(hw) s.(holds)).
Proof.
  intros Hu Href. assert (0 <= c_bool (listed s u)) by (by destruct (listed s u)).
  unfold release_object, remove_handle_idr_uobject, uverbs_uobject_put, mbind, option_bind. rewrite Hu, decide_True by done.
  cbn. rewrite lookup_insert_eq. cbn. rewrite (proj2 (Z.eqb_neq _ _)) by lia.
  unfold unlist_object, uverbs_uobject_put, mbind, option_bind. cbn. rewrite lookup_insert_eq. cbn.
  unfold listed in *. destruct (decide (u ∈ uobjects s)) as [Hin|Hin].
  - rewrite bool_decide_true in * by done. cbn in *. rewrite ?lookup_insert_eq. cbn. rewrite (proj2 (Z.eqb_neq _ _)) by lia.
    unfold put_uobj, set_uobjs, set_uobjects, set_idr. cbn. by rewrite !insert_insert_eq.
  - rewrite bool_decide_false in * by done. cbn in *. unfold put_uobj, set_uobjs, set_idr. cbn.
    by rewrite !insert_insert_eq, filter_absent, Z.sub_0_r.
Qed.

(** [uverbs_destroy_uobject] for a command that has locked the object. *)
Lemma destroy_uobject_done s u o ret : s.(uobjs) !! u = Some o -> o.(usecnt) = -1 -> (forall h, o.(object) = Some h -> h ∈ s.(hw)) ->
  1 + 1 + c_bool (listed s u) <= o.(ref) -> o.(object) = None \/ ret = 0 ->
  uverbs_destroy_uobject s u RDMA_REMOVE_DESTROY ret = Some (destroyed s u o, 0).
Proof.
  intros Hu Hn Hhw Href Hor.
  set (hs := match o.(object) with Some h => s.(hw) ∖ {[h]} | None => s.(hw) end).
  assert (Hd : destroy_object s u RDMA_REMOVE_DESTROY ret = Some (set_hw (put_uobj s u (with_object o None)) hs, 0)).
  { unfold destroy_object, destroy_hw_idr_uobject, mbind, option_bind, hs. rewrite Hu, decide_False by done.
    destruct (object o) as [h|] eqn:Ho; cbn.
    - destruct Hor as [?| ->]; [done|]. cbn. rewrite decide_True by (by apply Hhw). done.
    - unfold put_uobj, set_uobjs, set_hw. cbn. rewrite insert_id; [by destruct s|]. rewrite Hu. f_equal. destruct o. cbn in *. by subst. }
  unfold uverbs_destroy_uobject, mbind, option_bind. rewrite Hu. cbn [assert_uverbs_usecnt]. rewrite Hn.
  change (negb (-1 =? -1)) with false. cbn iota. rewrite Hd. cbn iota beta. change (c_true 0) with false. cbn iota.
  set (s1 := set_hw (put_uobj s u (with_object o None)) hs).
  assert (Hrel := release_unlist s1 u (with_object o None) (lookup_insert_eq _ _ _) Href). unfold mbind, option_bind in Hrel.
  destruct (release_object s1 u RDMA_REMOVE_DESTROY) as [s2|]; [|done]. rewrite Hrel, decide_False by done.
  unfold destroyed. cbn. rewrite insert_insert_eq. do 4 f_equal. unfold with_ref. cbn. by rewrite Hn.
Qed.

(** ** Handlers *)

Lemma put_hold_same s t h : s.(holds) !! t = Some h -> <[t := h]> s.(holds) = s.(holds).
Proof. apply insert_id. Qed.

Lemma creates_keeps s t u h o :
  good s -> at_hold s t (Creating u) -> h ∉ s.(hw) -> s.(uobjs) !! u = Some o -> o.(object) = None ->
  exists s', handler_creates s u h = Some s' /\ good s'.
Proof.
  intros [Hinv Hset] Ht Hh Hu Ho. destruct (hold_says s t _ u o Hinv Ht eq_refl Hu) as (Hi & Hl & Hc).
  destruct (writer_lock s t _ u o Hinv Hu Ht eq_refl eq_refl) as (Huse & _ & _).
  unfold handler_creates, mbind, option_bind. rewrite Hu. eexists. split; [done|]. set (s' := set_hw _ _).
  assert (Eh : s'.(holds) = <[t := Creating u]> s.(holds)) by (cbn; by rewrite put_hold_same).
  split; [apply (inv_writer s s' t u o (with_object o (Some h)) (Creating u) (Creating u))
         |apply (settled_writer s s' t u o (with_object o (Some h)) (Creating u) (Creating u))]; try done; try (by left); cbn; try set_solver.
  - intros v [= <-]. exists (with_object o (Some h)). cbn. rewrite lookup_insert_eq. done.
Qed.

Lemma unwinds_keeps s t u o :
  good s -> at_hold s t (Creating u) -> s.(uobjs) !! u = Some o -> has_hw o = true ->
  exists s', handler_unwinds s u = Some s' /\ good s'.
Proof.
  intros [Hinv Hset] Ht Hu Ho. destruct (hold_says s t _ u o Hinv Ht eq_refl Hu) as (Hi & Hl & Hc).
  destruct (writer_lock s t _ u o Hinv Hu Ht eq_refl eq_refl) as (Huse & _ & _). apply has_hw_spec in Ho as [h Ho].
  unfold handler_unwinds, mbind, option_bind. rewrite Hu, Ho. eexists. split; [done|]. set (s' := set_hw _ _).
  assert (Eh : s'.(holds) = <[t := Creating u]> s.(holds)) by (cbn; by rewrite put_hold_same).
  split; [apply (inv_writer s s' t u o (with_object o None) (Creating u) (Creating u))
         |apply (settled_writer s s' t u o (with_object o None) (Creating u) (Creating u))]; try done; try (by left); cbn; try set_solver.
  - intros v [= <-]. exists (with_object o None). cbn. rewrite lookup_insert_eq. done.
Qed.

(** A handler that has locked an object finds its hardware. *)
Lemma uses_keeps s t u mode :
  good s -> at_hold s t (Locked u mode) -> mode <> UVERBS_LOOKUP_DESTROY -> handler_uses s u = Some s.
Proof.
  intros [Hinv Hset] Ht Hm. destruct (hold_object s t _ u Hinv Ht eq_refl) as [o Hu].
  assert (Ho : has_hw o = true).
  { destruct (ucontext s) eqn:Hc; [|by destruct (fo_gone _ (inv_file _ Hinv) Hc) as (_ & _ & Hh); specialize (Hh t _ Ht); destruct mode].
    destruct mode; [| |done].
    - destruct (reader_lock s t _ u o Hinv Hu Ht eq_refl eq_refl) as (Hp & _ & <-). apply (Hset Hc u o Hu). lia.
    - by apply (hold_says s t _ u o Hinv Ht eq_refl Hu). }
  apply has_hw_spec in Ho as [h Ho]. unfold handler_uses, mbind, option_bind. rewrite Hu, Ho. apply decide_True.
  by apply (oo_hw s u o); [apply (inv_objs _ Hinv u o Hu)|].
Qed.

(** ** Creating an object *)

Lemma unborn s u : inv s -> s.(uobjs) !! u = None ->
  listed s u = false /\ (forall i, s.(idr) !! i <> Some (Some u)) /\ (forall t h, s.(holds) !! t = Some h -> about h <> Some u) /\
  forall P, (forall h, P h = true -> about h = Some u) -> count P s.(holds) = 0.
Proof.
  intros Hinv Hu. assert (Hn : forall t h, s.(holds) !! t = Some h -> about h <> Some u).
  { intros t h Ht Ha. destruct (inv_holds _ Hinv t h Ht u Ha) as (o & Ho & _). congruence. }
  split_and!; [| |done|].
  - apply bool_decide_eq_false. intros Hin%(to_listed _ (inv_table _ Hinv)). rewrite Hu in Hin. by apply is_Some_None in Hin.
  - intros i Hi. destruct (to_entry _ (inv_table _ Hinv) i u Hi) as (o & Ho & _). congruence.
  - intros P HP. apply count_none. intros t h Ht. destruct (P h) eqn:E; [|done]. by destruct (Hn t h Ht (HP h E)).
Qed.

Section alloc.
Variables (s : ib_uverbs_file) (t u i obj : Z).
Hypotheses (Hinv : inv s) (Ht : s.(holds) !! t = None) (Hu : s.(uobjs) !! u = None) (Hi : s.(idr) !! i = None).
Hypotheses (Hcl : s.(closed) = false) (Hc : s.(ucontext) = true).
Let o := mk_uobj obj true None i 1 (-1).
Let s' := put_hold (set_idr (put_uobj (down_read s) u o) (<[i := None]> s.(idr))) t (Creating u).

Lemma change_alloc : change s s' t u.
Proof.
  split; try done.
  - intros v Hne. cbn. by rewrite lookup_insert_ne.
  - intros t' Hne. cbn. by rewrite lookup_insert_ne.
  - by rewrite Ht.
  - cbn. rewrite lookup_insert_eq. intros h [= <-]. by left.
  - intros v ov Hne Hv. unfold in_idr. cbn. apply bool_decide_ext. destruct (decide (ov.(id) = i)) as [->|Hnid].
    + by rewrite lookup_insert_eq, Hi.
    + by rewrite lookup_insert_ne.
Qed.

Lemma table_alloc : table_ok s'.
Proof.
  destruct (unborn s u Hinv Hu) as (Hnl & Hne & Hnh & _). pose proof (inv_table _ Hinv) as [Hent Hresv Huniq Hnd Hlist Huhw].
  assert (Hback : forall t' h j, t' <> t -> s'.(holds) !! t' = Some h -> reserves s' h j -> s.(holds) !! t' = Some h /\ reserves s h j).
  { intros t' h j Hnt Ht' (v & ov & -> & Hv & Hid). cbn in Ht', Hv. rewrite lookup_insert_ne in Ht' by done.
    split; [done|]. exists v, ov. rewrite lookup_insert_ne in Hv; [done|]. intros <-. by destruct (Hnh t' _ Ht'). }
  assert (Hown : forall t' h j, t' <> t -> s'.(holds) !! t' = Some h -> reserves s' h j -> j <> i).
  { intros t' h j Hnt Ht' Hr ->. destruct (Hback t' h i Hnt Ht' Hr) as [Ht0 (v & ov & -> & Hv & Hid)].
    destruct (inv_holds _ Hinv t' _ Ht0 v eq_refl) as (ov' & Hv' & Hres & _). assert (ov' = ov) as -> by congruence. congruence. }
  assert (Hnew : forall h j, s'.(holds) !! t = Some h -> reserves s' h j -> j = i).
  { intros h j Hh (v & ov & -> & Hv & Hid). cbn in Hh, Hv. rewrite lookup_insert_eq in Hh. injection Hh as <-.
    rewrite lookup_insert_eq in Hv. by injection Hv as <-. }
  split; cbn; try done.
  - intros j v. destruct (decide (j = i)) as [->|Hnj]; [by rewrite lookup_insert_eq|rewrite lookup_insert_ne by done].
    intros Hv. destruct (Hent j v Hv) as (ov & Hov & Hid). exists ov. rewrite lookup_insert_ne; [done|]. intros <-. by destruct (Hne j).
  - intros j. destruct (decide (j = i)) as [->|Hnj]; [intros _|rewrite lookup_insert_ne by done].
    + exists t, (Creating u). rewrite lookup_insert_eq. split; [done|]. exists u, o. cbn. by rewrite lookup_insert_eq.
    + intros Hj. destruct (Hresv j Hj) as (t' & h & Ht' & v & ov & -> & Hv & Hid). exists t', (Creating v).
      rewrite lookup_insert_ne by congruence. split; [done|]. exists v, ov. cbn. rewrite lookup_insert_ne by congruence. done.
  - intros j t1 t2 h1 h2 H1 H2 R1 R2. destruct (decide (t1 = t)) as [->|N1], (decide (t2 = t)) as [->|N2]; try done.
    + rewrite (Hnew h1 j H1 R1) in R2. by destruct (Hown t2 h2 i N2 H2 R2).
    + rewrite (Hnew h2 j H2 R2) in R1. by destruct (Hown t1 h1 i N1 H1 R1).
    + destruct (Hback _ _ _ N1 H1 R1), (Hback _ _ _ N2 H2 R2). by apply (Huniq j t1 t2 h1 h2).
  - intros v Hv. destruct (decide (v = u)) as [->|Hnv]; [rewrite lookup_insert_eq; by eexists|]. rewrite lookup_insert_ne by done. by apply Hlist.
  - intros v v' ov ov' h. rewrite !lookup_insert_Some. intros [[<- <-]|[_ Hv]]; [done|]. intros [[<- <-]|[_ Hv']]; [done|].
    by apply (Huhw v v' ov ov' h).
Qed.

Lemma inv_alloc : inv s'.
Proof.
  destruct (unborn s u Hinv Hu) as (Hnl & Hne & Hnh & Hz). pose proof change_alloc as Hch.
  assert (Hcnt : forall P, (forall h, P h = true -> about h = Some u) -> count P s'.(holds) = c_bool (P (Creating u))).
  { intros P HP. rewrite (count_at P s.(holds) s'.(holds) t) by apply (ch_holds _ _ _ _ Hch). rewrite Hz, Ht by done. cbn. by rewrite lookup_insert_eq. }
  assert (Hr : forall P : hold -> bool, (forall h, refers u h && P h = true -> about h = Some u)).
  { intros P h [Hx _]%andb_prop. by apply refers_spec. }
  apply (inv_change s s' t u); try done.
  - cbn. intros o0. rewrite lookup_insert_eq. intros [= <-].
    assert (Hi0 : in_idr s' u o = false) by (apply bool_decide_eq_false; cbn; by rewrite lookup_insert_eq).
    assert (Hself : refers u (Creating u) = true) by (by apply refers_spec).
    split; try done.
    + unfold refs. rewrite Hi0. change (listed s' u) with (listed s u). rewrite Hnl, Hcnt, Hself; [done|]. intros h. apply refers_spec.
    + left. unfold readers, writers. rewrite !Hcnt by apply Hr. unfold reads, writes. rewrite Hself. cbn. split; [done|]. split; [done|]. by left.
  - cbn. intros h. rewrite lookup_insert_eq. intros [= <-] v [= <-]. exists o. cbn. by rewrite !lookup_insert_eq.
  - intros t' h Hnt Ht' Ha. by destruct (Hnh t' h Ht').
  - intros t' v ov Hnt Hnv Ht' Hv. cbn. destruct (inv_holds _ Hinv t' _ Ht' v eq_refl) as (ov' & Hv' & Hres & _).
    assert (ov' = ov) as -> by congruence. rewrite lookup_insert_ne; [done|congruence].
  - apply table_alloc.
  - apply (file_change s s' t u); try done; [by apply Hinv| |congruence|by right].
    cbn. rewrite lookup_insert_eq, Ht. cbn. lia.
Qed.

Lemma settled_alloc : settled s -> settled s'.
Proof.
  intros Hs _ v ov. cbn. destruct (decide (v = u)) as [->|Hne]; [rewrite lookup_insert_eq; by intros [= <-]|].
  rewrite lookup_insert_ne by done. by apply (Hs Hc v).
Qed.

End alloc.

Lemma alloc_begin_keeps s t obj a :
  good s -> enabled s (AllocBegin t obj a) -> good (rdma_alloc_begin_uobject s t obj a).1.
Proof.
  intros [Hinv Hset] (Hcl & Ht & Hctx & Hk & Hx). unfold rdma_alloc_begin_uobject, alloc_begin_idr_uobject, alloc_uobj. cbn.
  case_match; [done|]. assert (Hup : good (up_read (down_read s))).
  { assert (up_read (down_read s) = s) as ->; [|done]. unfold up_read, down_read, set_sem. cbn.
    rewrite Z.add_simpl_r. by destruct s. }
  assert (Hfin : a_has_context a || ucontext s = true -> forall u i, a_kzalloc a = Some u -> a_xa_alloc a = inr i ->
    good (put_hold (set_idr (put_uobj (down_read s) u (mk_uobj obj true None i 1 (-1))) (<[i := None]> s.(idr))) t (Creating u))).
  { intros Hcx u i Hu Hi. assert (Hc : ucontext s = true) by (destruct (a_has_context a); [by apply Hctx|done]).
    split; [apply inv_alloc|apply settled_alloc]; auto. }
  destruct (a_has_context a); cbn in *; [|destruct (ib_dev s); cbn; [|done]; destruct (ucontext s); cbn in *; [|done]];
    (destruct (a_kzalloc a) as [u|]; [|done]; destruct (a_xa_alloc a) as [e|i]; [done|]; destruct (c_true (a_charge a)); [done|]; by apply Hfin).
Qed.

Section commit.
Variables (s : ib_uverbs_file) (t u : Z) (o : ib_uobject).
Hypotheses (Hinv : inv s) (Ht : s.(holds) !! t = Some (Creating u)) (Hu : s.(uobjs) !! u = Some o) (Ho : has_hw o = true).
Let o' := with_usecnt (with_ref o (o.(ref) + 1)) 0.
Let s' := mk_ufile (<[u := o']> s.(uobjs)) (<[o.(id) := Some u]> s.(idr)) (u :: s.(uobjects)) s.(hw_destroy_rwsem) s.(ucontext)
  s.(ib_dev) s.(closed) s.(hw) (<[t := UpRead]> s.(holds)).

Lemma commit_eq : rdma_alloc_commit_uobject s t u = Some s'.
Proof.
  destruct (hold_says s t _ u o Hinv Ht eq_refl Hu) as (Hi & _).
  unfold rdma_alloc_commit_uobject, uverbs_uobject_get, mbind, option_bind. rewrite Hu. cbn. rewrite lookup_insert_eq.
  unfold alloc_commit_idr_uobject, mbind, option_bind. cbn. rewrite lookup_insert_eq. cbn. rewrite decide_True by done.
  unfold s', put_hold, set_idr, set_holds. cbn. do 2 f_equal. apply insert_insert_eq.
Qed.

Lemma change_commit : change s s' t u.
Proof.
  destruct (hold_says s t _ u o Hinv Ht eq_refl Hu) as (Hi & _). split; try done; cbn.
  - intros v Hne. by rewrite lookup_insert_ne.
  - intros t' Hne. by rewrite lookup_insert_ne.
  - rewrite Ht. intros h [= <-]. by left.
  - rewrite lookup_insert_eq. intros h [= <-]. by right.
  - intros v ov Hne Hv. unfold in_idr. cbn. apply bool_decide_ext. destruct (decide (ov.(id) = o.(id))) as [->|Hnid].
    + rewrite lookup_insert_eq, Hi. split; congruence.
    + by rewrite lookup_insert_ne.
  - intros v Hne. unfold listed. apply bool_decide_ext. cbn. rewrite list.elem_of_cons. tauto.
Qed.

Lemma other_creating t' v ov : t' <> t -> s.(holds) !! t' = Some (Creating v) -> s.(uobjs) !! v = Some ov -> ov.(id) <> o.(id).
Proof.
  intros Hne Ht' Hv E. apply Hne. symmetry. apply (to_unique _ (inv_table _ Hinv) o.(id) t t' (Creating u) (Creating v)); try done.
  - by exists u, o.
  - by exists v, ov.
Qed.

Lemma table_commit : table_ok s'.
Proof.
  destruct (hold_says s t _ u o Hinv Ht eq_refl Hu) as (Hi & Hnl & _). pose proof (inv_table _ Hinv) as [Hent Hresv Huniq Hnd Hlist Huhw].
  assert (Hback : forall t' h i, s'.(holds) !! t' = Some h -> reserves s' h i -> s.(holds) !! t' = Some h /\ reserves s h i).
  { intros t' h i Ht' (v & ov & -> & Hv & Hid). cbn in Ht', Hv. apply lookup_insert_Some in Ht' as [[_ ?]|[Hnt Ht']]; [done|].
    split; [done|]. exists v. apply lookup_insert_Some in Hv as [[<- <-]|[_ Hv]]; [by exists o|by exists ov]. }
  split; cbn.
  - intros i v. destruct (decide (i = o.(id))) as [->|Hne].
    + rewrite lookup_insert_eq. intros [= <-]. exists o'. by rewrite lookup_insert_eq.
    + rewrite lookup_insert_ne by done. intros Hv. destruct (Hent i v Hv) as (ov & Hov & Hid). exists ov.
      rewrite lookup_insert_ne; [done|]. intros <-. congruence.
  - intros i. destruct (decide (i = o.(id))) as [->|Hne]; [by rewrite lookup_insert_eq|rewrite lookup_insert_ne by done].
    intros Hri. destruct (Hresv i Hri) as (t' & h & Ht' & v & ov & -> & Hv & Hid). exists t', (Creating v).
    assert (Hnt : t' <> t) by (intros ->; congruence). rewrite lookup_insert_ne by done. split; [done|]. exists v, ov. cbn.
    rewrite lookup_insert_ne; [done|]. intros <-. congruence.
  - intros i t1 t2 h1 h2 H1 H2 R1 R2. destruct (Hback _ _ _ H1 R1), (Hback _ _ _ H2 R2). by apply (Huniq i t1 t2 h1 h2).
  - apply list.NoDup_cons. split; [|done]. by apply bool_decide_eq_false in Hnl.
  - intros v. rewrite list.elem_of_cons. intros [->|Hv]; [by rewrite lookup_insert_eq; eexists|].
    destruct (decide (v = u)) as [->|Hne]; [by rewrite lookup_insert_eq; eexists|]. rewrite lookup_insert_ne by done. by apply Hlist.
  - intros v v' ov ov' h. rewrite !lookup_insert_Some. intros [[<- <-]|[_ Hv]] [[<- <-]|[_ Hv']]; [done|..]; intros Hh Hh'.
    + by apply (Huhw u v' o ov' h).
    + by apply (Huhw v u ov o h).
    + by apply (Huhw v v' ov ov' h).
Qed.

Lemma inv_commit : inv s'.
Proof.
  destruct (hold_says s t _ u o Hinv Ht eq_refl Hu) as (Hi & Hnl & _). pose proof change_commit as Hch.
  pose proof (inv_objs _ Hinv u o Hu) as [Oref Opos Olock Ohw].
  destruct (writer_lock s t _ u o Hinv Hu Ht eq_refl eq_refl) as (Huse & Hr & Hw).
  assert (Hc : forall P, count P s'.(holds) = count P s.(holds) - c_bool (P (Creating u)) + c_bool (P UpRead)).
  { intros P. rewrite (count_at P s.(holds) s'.(holds) t) by apply (ch_holds _ _ _ _ Hch). cbn. by rewrite Ht, lookup_insert_eq. }
  assert (Hself : refers u (Creating u) = true) by (by apply refers_spec).
  assert (Hnone : refers u UpRead = false) by done.
  assert (Hni : in_idr s u o = false) by (apply bool_decide_eq_false; congruence).
  assert (Hin : in_idr s' u o' = true) by (apply bool_decide_eq_true; cbn; by rewrite lookup_insert_eq).
  assert (Hl : listed s' u = true) by (apply bool_decide_eq_true; cbn; by left).
  apply (inv_change s s' t u); try done.
  - cbn. intros o0. rewrite lookup_insert_eq. intros [= <-]. split; cbn.
    + unfold refs in *. rewrite Hin, Hl, Hc, Hself, Hnone. rewrite Hni, Hnl in Oref. cbn in *. lia.
    + lia.
    + right. unfold readers, writers in *. rewrite !Hc. unfold reads, writes. rewrite Hself, Hnone. cbn. fold (reads u) (writes u). rewrite Hin, Hl.
      split; [lia|]. split; [lia|]. split; [done|]. by rewrite <- Ho.
    + done.
  - cbn. intros h. rewrite lookup_insert_eq. by intros [= <-] ? ?.
  - intros t' h Hne Ht' Ha. destruct (writer_alone s t t' _ h u Hinv Ht Ht' eq_refl Ha eq_refl Hne) as [_ Hwr].
    apply (hold_ok_trivial s' h u o'); [done| |done]. cbn. by rewrite lookup_insert_eq.
  - intros t' v ov Hne Hnv Ht' Hv. cbn. rewrite lookup_insert_ne; [done|]. symmetry. by apply (other_creating t' v).
  - apply table_commit.
  - apply (file_change s s' t u); try done; [by apply Hinv|rewrite Ht; cbn; rewrite lookup_insert_eq; cbn; lia| |rewrite Ht; left; by eexists].
    intros Hctx. by destruct (fo_gone _ (inv_file _ Hinv) Hctx) as (_ & _ & Hh); specialize (Hh t _ Ht).
Qed.

Lemma settled_commit : settled s -> settled s'.
Proof.
  intros Hs Hctx v ov. cbn. unfold listed. rewrite bool_decide_eq_true. cbn. destruct (decide (v = u)) as [->|Hne].
  - intros _ _. by left.
  - rewrite lookup_insert_ne by done. intros Hv Huse. right. specialize (Hs Hctx v ov Hv Huse). by apply bool_decide_eq_true in Hs.
Qed.

End commit.

Lemma commit_keeps s t u o :
  good s -> at_hold s t (Creating u) -> s.(uobjs) !! u = Some o -> has_hw o = true ->
  exists s', rdma_alloc_commit_uobject s t u = Some s' /\ good s'.
Proof.
  intros [Hinv Hset] Ht Hu Ho. rewrite (commit_eq s t u o) by done. eexists. split; [done|].
  split; [by apply inv_commit|by apply settled_commit].
Qed.


(** An abort leaves nothing: the handle is free, the object is gone. *)
Lemma abort_destroys s t u o hs : inv s -> s.(holds) !! t = Some (Creating u) -> s.(uobjs) !! u = Some o ->
  uverbs_destroy_uobject (set_hw s hs) u RDMA_REMOVE_ABORT 0 =
    Some (mk_ufile (delete u s.(uobjs)) (delete o.(id) s.(idr)) s.(uobjects) s.(hw_destroy_rwsem) s.(ucontext) s.(ib_dev)
      s.(closed) hs s.(holds), 0).
Proof.
  intros Hinv Ht Hu. destruct (writer_lock s t _ u o Hinv Hu Ht eq_refl eq_refl) as (Huse & _).
  destruct (hold_says s t _ u o Hinv Ht eq_refl Hu) as (_ & Hl & Hctx & Href).
  assert (Hnl : u ∉ s.(uobjects)) by (by apply bool_decide_eq_false in Hl).
  unfold uverbs_destroy_uobject, destroy_object, alloc_abort_idr_uobject, mbind, option_bind. cbn. rewrite Hu. cbn.
  rewrite Huse. change (negb (-1 =? -1)) with false. cbn iota.
  rewrite decide_True, decide_False, Hctx by done. cbn.
  unfold release_object, unlist_object, uverbs_uobject_put, mbind, option_bind. cbn. rewrite Hu. cbn.
  rewrite decide_False by done. cbn. rewrite lookup_insert_eq, decide_False by done. cbn. rewrite lookup_insert_eq. cbn. rewrite Href. cbn.
  by rewrite !delete_insert_eq.
Qed.

Lemma abort_keeps s t u o valid ret :
  good s -> at_hold s t (Creating u) -> s.(uobjs) !! u = Some o -> has_hw o = valid ->
  exists s', rdma_alloc_abort_uobject s t u valid ret = Some s' /\ good s'.
Proof.
  intros [Hinv Hset] Ht Hu Hv.
  destruct (hold_says s t _ u o Hinv Ht eq_refl Hu) as (Hi & Hl & Hctx & Href).
  assert (Hclean : forall hs, (forall h, h ∈ s.(hw) -> o.(object) <> Some h -> h ∈ hs) ->
    exists s', ('(s, _) ← uverbs_destroy_uobject (set_hw s hs) u RDMA_REMOVE_ABORT 0; Some (put_hold s t UpRead)) = Some s' /\ good s').
  { intros hs Hhs. rewrite (abort_destroys s t u o) by done. eexists. split; [done|]. set (s' := put_hold _ _ _).
    assert (Hd : s'.(holds) !! t = Some UpRead) by (cbn; by rewrite lookup_insert_eq).
    split; [apply (inv_gone s s' t u o (Creating u))|apply (settled_gone s s' u)]; try done.
    - intros t' Hne. cbn. by rewrite lookup_insert_ne.
    - rewrite Hd. congruence.
    - by left.
    - rewrite Hd. cbn. lia. }
  unfold rdma_alloc_abort_uobject. destruct valid.
  - pose proof (commit_keeps s t u o (conj Hinv Hset) Ht Hu Hv) as Hcommit.
    apply has_hw_spec in Hv as [h Ho]. unfold mbind at 1 2 3, option_bind at 1 2 3. rewrite Hu, Ho. unfold mbind at 1, option_bind at 1.
    unfold destroy_hw_idr_uobject. destruct (c_true ret) eqn:Hret; [cbn iota beta; rewrite Hret; exact Hcommit|].
    rewrite decide_True by (by apply (oo_hw s u o); [apply (inv_objs _ Hinv u o Hu)|]). cbn iota.
    apply Hclean. intros h' Hin Hne. set_solver.
  - apply Hclean. done.
Qed.
