(* ===== verification/UobjectAssign.v ===== *)
(** User objects, the replacement of one object by another under its handle
    ([rdma_assign_uobject]): the two handles change places, then the old object is
    destroyed. *)

From S2P Require Import Prelude Counting Uobject UobjectSafe UobjectRun.
#[local] Open Scope Z_scope.

(** ** The swap *)

Section swap.
Variables (s : ib_uverbs_file) (t t' u v : Z) (o n : ib_uobject).
Hypotheses (Hinv : inv s) (Ht : s.(holds) !! t = Some (Locked u UVERBS_LOOKUP_WRITE)) (Ht' : s.(holds) !! t' = Some (Creating v)).
Hypotheses (Hu : s.(uobjs) !! u = Some o) (Hv : s.(uobjs) !! v = Some n).

Definition swapped : ib_uverbs_file :=
  set_idr (set_uobjs s (<[v := with_id n o.(id)]> (<[u := with_id o n.(id)]> s.(uobjs)))) (<[n.(id) := Some u]> (<[o.(id) := None]> s.(idr))).

Lemma swap_entries : s.(idr) !! o.(id) = Some (Some u) /\ s.(idr) !! n.(id) = Some None /\ o.(id) <> n.(id) /\ u <> v.
Proof.
  destruct (hold_says s t _ u o Hinv Ht eq_refl Hu) as (Hi & _). destruct (hold_says s t' _ v n Hinv Ht' eq_refl Hv) as (Hj & _).
  apply bool_decide_eq_true in Hi. split_and!; try done; [congruence|]. intros ->. assert (o = n) as -> by congruence. congruence.
Qed.

Lemma swap_eq : swap_idr_uobjects s u v = Some swapped.
Proof.
  destruct swap_entries as (Hi & Hj & Hne & _). unfold swap_idr_uobjects, mbind, option_bind. rewrite Hu, Hv, decide_True by done. cbn.
  rewrite lookup_insert_ne, Hj by done. done.
Qed.

(** Every object has a handle, or none, as it had before. *)
Lemma swap_in_idr w ow ow' : s.(uobjs) !! w = Some ow -> swapped.(uobjs) !! w = Some ow' -> in_idr swapped w ow' = in_idr s w ow.
Proof.
  destruct swap_entries as (Hi & Hj & Hne & Huv). intros Hw Hw'. unfold in_idr. apply bool_decide_ext. cbn in *.
  destruct (decide (w = v)) as [->|Hwv]; [|destruct (decide (w = u)) as [->|Hwu]].
  - rewrite lookup_insert_eq in Hw'. injection Hw' as <-. assert (ow = n) as -> by congruence. cbn.
    rewrite lookup_insert_ne, lookup_insert_eq, Hj by done. done.
  - rewrite lookup_insert_ne, lookup_insert_eq in Hw' by done. injection Hw' as <-. assert (ow = o) as -> by congruence. cbn.
    by rewrite lookup_insert_eq, Hi.
  - rewrite !lookup_insert_ne in Hw' by done. assert (ow' = ow) as -> by congruence.
    destruct (decide (ow.(id) = n.(id))) as [->|Hn1]; [rewrite lookup_insert_eq, Hj; split; congruence|rewrite lookup_insert_ne by done].
    destruct (decide (ow.(id) = o.(id))) as [->|Hn2]; [rewrite lookup_insert_eq, Hi; split; congruence|by rewrite lookup_insert_ne].
Qed.

(** Objects are what they were but for their number. *)
Lemma swap_objects w ow' : swapped.(uobjs) !! w = Some ow' -> exists ow, s.(uobjs) !! w = Some ow /\
  ow'.(object) = ow.(object) /\ ow'.(context) = ow.(context) /\ ow'.(ref) = ow.(ref) /\ ow'.(usecnt) = ow.(usecnt) /\
  ow'.(id) = (if decide (w = v) then o.(id) else if decide (w = u) then n.(id) else ow.(id)).
Proof.
  cbn. destruct (decide (w = v)) as [->|Hwv]; [rewrite lookup_insert_eq; intros [= <-]; by exists n|rewrite lookup_insert_ne by done].
  destruct (decide (w = u)) as [->|Hwu]; [rewrite lookup_insert_eq; intros [= <-]; by exists o|rewrite lookup_insert_ne by done].
  intros Hw. by exists ow'.
Qed.

Lemma swap_present w ow : s.(uobjs) !! w = Some ow -> exists ow', swapped.(uobjs) !! w = Some ow'.
Proof.
  intros Hw. cbn. destruct (decide (w = v)) as [->|Hwv]; [rewrite lookup_insert_eq; by eexists|rewrite lookup_insert_ne by done].
  destruct (decide (w = u)) as [->|Hwu]; [rewrite lookup_insert_eq; by eexists|rewrite lookup_insert_ne by done]. by exists ow.
Qed.

Lemma swap_hold h t0 : s.(holds) !! t0 = Some h -> hold_ok swapped h.
Proof.
  destruct swap_entries as (Hi & Hj & Hne & Huv). intros Ht0. apply (hold_ok_other s); [|done|by apply (inv_holds _ Hinv t0)].
  intros w ow Ha Hw. destruct (swap_present w ow Hw) as [ow' Hw']. exists ow'. split; [done|]. intros _.
  destruct (swap_objects w ow' Hw') as (ow0 & Hw0 & E1 & E2 & E3 & E4 & E5). assert (ow0 = ow) as -> by congruence.
  split; [by apply (swap_in_idr w ow ow')|]. split; [done|]. split; [unfold has_hw; by rewrite E1|]. split; [done|].
  intros ->. split; [|done]. rewrite E5. cbn. destruct (hold_says s t0 _ w ow Hinv Ht0 eq_refl Hw) as (Hr & _). rewrite Hr.
  destruct (decide (w = v)) as [->|Hwv]; [by rewrite lookup_insert_ne, lookup_insert_eq|].
  destruct (decide (w = u)) as [->|Hwu]; [exfalso; assert (ow = o) as -> by congruence; congruence|].
  rewrite lookup_insert_ne, lookup_insert_ne; [done|intros E; congruence|].
  intros E. apply Hwv. assert (t0 = t') as ->; [|congruence].
  apply (to_unique _ (inv_table _ Hinv) n.(id) t0 t' (Creating w) (Creating v)); try done; [by exists w, ow|by exists v, n].
Qed.

Lemma table_swap : table_ok swapped.
Proof.
  destruct swap_entries as (Hi & Hj & Hne & Huv). pose proof (inv_table _ Hinv) as [Hent Hresv Huniq Hnd Hlist Huhw].
  assert (Hmove : forall t0 h i, s.(holds) !! t0 = Some h -> reserves swapped h i ->
    reserves s h (if decide (i = o.(id)) then n.(id) else i) /\ i <> n.(id)).
  { intros t0 h i Ht0 (w & ow' & -> & Hw' & Hid). destruct (swap_objects w ow' Hw') as (ow & Hw & _ & _ & _ & _ & E).
    destruct (hold_says s t0 _ w ow Hinv Ht0 eq_refl Hw) as (Hr & _). rewrite Hid in E.
    destruct (decide (w = v)) as [->|Hwv]; [rewrite decide_True by done; split; [by exists v, n|congruence]|].
    destruct (decide (w = u)) as [->|Hwu]; [exfalso; assert (ow = o) as -> by congruence; congruence|].
    rewrite decide_False by congruence. split; [by exists w, ow|]. intros E'. apply Hwv. assert (t0 = t') as ->; [|congruence].
    apply (Huniq n.(id) t0 t' (Creating w) (Creating v)); try done; [exists w, ow; split_and!; congruence|by exists v, n]. }
  split; cbn; try done.
  - intros i w. destruct (decide (i = n.(id))) as [->|Hn1]; [rewrite lookup_insert_eq; intros [= <-]|rewrite lookup_insert_ne by done].
    + exists (with_id o n.(id)). by rewrite lookup_insert_ne, lookup_insert_eq by done.
    + destruct (decide (i = o.(id))) as [->|Hn2]; [by rewrite lookup_insert_eq|rewrite lookup_insert_ne by done].
      intros Hw. destruct (Hent i w Hw) as (ow & Hw0 & Hid). exists ow. rewrite !lookup_insert_ne; [done|intros <-; congruence|intros <-; congruence].
  - intros i. destruct (decide (i = n.(id))) as [->|Hn1]; [by rewrite lookup_insert_eq|rewrite lookup_insert_ne by done].
    destruct (decide (i = o.(id))) as [->|Hn2]; [intros _|rewrite lookup_insert_ne by done].
    + exists t', (Creating v). split; [done|]. exists v, (with_id n o.(id)). cbn. by rewrite lookup_insert_eq.
    + intros Hri. destruct (Hresv i Hri) as (t0 & h & Ht0 & w & ow & -> & Hw & Hid). exists t0, (Creating w). split; [done|].
      exists w, ow. cbn. rewrite !lookup_insert_ne; [done|intros <-; congruence|intros <-; congruence].
  - intros i t1 t2 h1 h2 H1 H2 R1 R2. destruct (Hmove t1 h1 i H1 R1) as [R1' _], (Hmove t2 h2 i H2 R2) as [R2' _]. by apply (Huniq _ t1 t2 h1 h2 H1 H2 R1').
  - intros w Hw. destruct (Hlist w Hw) as [ow How]. destruct (swap_present w ow How) as [ow' ?]. by exists ow'.
  - intros w w' ow ow' h Hw Hw' Hh Hh'. destruct (swap_objects w ow Hw) as (o1 & H1 & E1 & _), (swap_objects w' ow' Hw') as (o2 & H2 & E2 & _).
    apply (Huhw w w' o1 o2 h); congruence.
Qed.

Lemma inv_swap : inv swapped.
Proof.
  split.
  - intros w ow' Hw'. destruct (swap_objects w ow' Hw') as (ow & Hw & E1 & E2 & E3 & E4 & _).
    pose proof (swap_in_idr w ow ow' Hw Hw') as Ei. destruct (inv_objs _ Hinv w ow Hw) as [Oref Opos Olock Ohw]. split.
    + rewrite E3, Oref. unfold refs. by rewrite Ei.
    + by rewrite E3.
    + unfold lock_ok, has_hw in *. by rewrite E1, E4, Ei.
    + intros h. rewrite E1. apply Ohw.
  - intros t0 h Ht0. by apply (swap_hold h t0).
  - apply table_swap.
  - by destruct (inv_file _ Hinv).
Qed.

Lemma settled_swap : settled s -> settled swapped.
Proof.
  intros Hs Hc w ow' Hw' Huse. destruct (swap_objects w ow' Hw') as (ow & Hw & _ & _ & _ & E4 & _).
  apply (Hs Hc w ow Hw). congruence.
Qed.

End swap.

(** ** The destruction *)

(** The writer destroys its object, whole. *)
Lemma destroyed_keeps s t u o : good s -> s.(holds) !! t = Some (Locked u UVERBS_LOOKUP_WRITE) -> s.(uobjs) !! u = Some o ->
  uverbs_destroy_uobject s u RDMA_REMOVE_DESTROY 0 = Some (destroyed s u o, 0) /\
  good (put_hold (destroyed s u o) t (Locked u UVERBS_LOOKUP_DESTROY)).
Proof.
  intros [Hinv Hset] Ht Hu. destruct (writer_lock s t _ u o Hinv Hu Ht eq_refl eq_refl) as (Huse & _).
  destruct (hold_says s t _ u o Hinv Ht eq_refl Hu) as (Hi & Hl & Hh). pose proof (hold_refs s t _ u o Hinv Ht eq_refl Hu) as Hr.
  rewrite Hi in Hr. pose proof (inv_objs _ Hinv u o Hu) as [_ _ _ Ohw]. split.
  { apply destroy_uobject_done; try done. by right. }
  set (s' := put_hold (destroyed s u o) t (Locked u UVERBS_LOOKUP_DESTROY)).
  set (o' := mk_uobj o.(uapi_object) false None o.(id) (o.(ref) - 1 - c_bool (listed s u)) (-1)).
  assert (Hni : in_idr s' u o' = false) by (apply bool_decide_eq_false; cbn; by rewrite lookup_delete_eq).
  assert (Hnl : listed s' u = false) by (apply bool_decide_eq_false; cbn; rewrite list_elem_of_filter; tauto).
  split; [apply (inv_writer s s' t u o o' (Locked u UVERBS_LOOKUP_WRITE) (Locked u UVERBS_LOOKUP_DESTROY))
         |apply (settled_writer s s' t u o o' (Locked u UVERBS_LOOKUP_WRITE) (Locked u UVERBS_LOOKUP_DESTROY))]; try done; try (by right).
  - intros h Hin Hne. cbn. destruct (object o); [set_solver|done].
  - rewrite Hni, Hnl, Hi. cbn. lia.
  - apply (hold_ok_trivial s' _ u o'); [done| |done]. cbn. by rewrite lookup_insert_eq.
  - intros h Hin Hne. cbn. destruct (object o); [set_solver|done].
Qed.

Lemma assign_keeps s t u t' v ret :
  good s -> enabled s (Assign t u t' v ret) -> exists s', rdma_assign_uobject s t u v ret = Some s' /\ good s'.
Proof.
  intros [Hinv Hset] (Ht & Ht' & -> & o & n & Hu & Hv & Htype).
  destruct (writer_lock s t' _ v n Hinv Hv Ht' eq_refl eq_refl) as (Hn & _).
  unfold rdma_assign_uobject, mbind, option_bind. rewrite Hu, Hv. cbn [assert_uverbs_usecnt]. rewrite Hn.
  change (negb (-1 =? -1)) with false. cbn iota. rewrite Htype, Z.eqb_refl. cbn [negb].
  rewrite (swap_eq s t t' u v o n) by done. set (s1 := swapped s u v o n).
  assert (Hg1 : good s1) by (split; [by apply (inv_swap s t t')|by apply settled_swap]).
  destruct (swap_present s u v o n u o Hu) as [o1 Hu1].
  destruct (destroyed_keeps s1 t u o1 Hg1 Ht Hu1) as [-> Hg2]. eexists. split; [done|exact Hg2].
Qed.
