(* ===== verification/UobjectClean.v ===== *)
(** User objects, the clean-up of a file: what one turn of the loop of
    [__uverbs_cleanup_ufile] does, the loop as a pass over the hardware objects of
    the file, and the whole of [uverbs_destroy_ufile_hw]. *)

From S2P Require Import Prelude Counting Uobject UobjectSafe UobjectRun.
#[local] Open Scope Z_scope.

(** ** Clean-up *)

Lemma quiet_hold s t h : inv s -> quiet s -> s.(holds) !! t = Some h -> reader h = false /\ writer h = false /\ in_sem h = false.
Proof.
  intros Hinv [Hsem Hq] Ht. assert (Hin : in_sem h = false).
  { apply (count_zero in_sem s.(holds) t h); [|done]. by rewrite <- (fo_sem _ (inv_file _ Hinv)). }
  specialize (Hq t h Ht). by destruct h as [| ? [| |] | | | | | | | |].
Qed.

Lemma quiet_counts s u : inv s -> quiet s -> readers s u = 0 /\ writers s u = 0.
Proof.
  intros Hinv Hq. split; apply count_none; intros t h Ht; destruct (quiet_hold s t h Hinv Hq Ht) as (Hr & Hw & _).
  - unfold reads. by rewrite Hr, andb_false_r.
  - unfold writes. by rewrite Hw, andb_false_r.
Qed.

(** A listed object of a quiet file is unlocked and has hardware. *)
Lemma quiet_listed s u : inv s -> quiet s -> u ∈ s.(uobjects) ->
  exists o h, s.(uobjs) !! u = Some o /\ o.(object) = Some h /\ h ∈ s.(hw) /\ o.(usecnt) = 0 /\ in_idr s u o = true /\ 2 <= o.(ref).
Proof.
  intros Hinv Hq Hin. destruct (to_listed _ (inv_table _ Hinv) u Hin) as [o Hu]. pose proof (inv_objs _ Hinv u o Hu) as [Oref _ Olock Ohw].
  assert (Hl : listed s u = true) by (by apply bool_decide_eq_true). destruct (quiet_counts s u Hinv Hq) as [Hr Hw].
  pose proof (proj1 (count_pos (refers u) s.(holds))). unfold refs in Oref. rewrite Hl in Oref.
  destruct Olock as [(_ & _ & [?|(_ & _ & ? & _)])|(Huse & _ & Hi & Hhw)]; [lia|congruence|].
  rewrite Hl in Hhw. symmetry in Hhw. apply has_hw_spec in Hhw as [h Ho]. exists o, h. rewrite Hi in Oref. cbn in Oref.
  split_and!; try done; [by apply Ohw|lia|lia].
Qed.

(** The file after the destruction of one object by a clean-up. *)
Definition cleaned (s : ib_uverbs_file) (u : Z) (o : ib_uobject) (hs : gset Z) : ib_uverbs_file :=
  mk_ufile (<[u := with_ref (with_usecnt (with_context (with_object o None) false) 0) (o.(ref) - 1)]> s.(uobjs)) s.(idr)
    (filter (.≠ u) s.(uobjects)) s.(hw_destroy_rwsem) s.(ucontext) s.(ib_dev) s.(closed) hs s.(holds).

Section cleaned.
Variables (s : ib_uverbs_file) (u h : Z) (o : ib_uobject) (hs : gset Z).
Hypotheses (Hinv : inv s) (Hq : quiet s) (Hin : u ∈ s.(uobjects)) (Hu : s.(uobjs) !! u = Some o) (Ho : o.(object) = Some h).
Hypothesis Hhs : forall h', h' ∈ s.(hw) -> h' <> h -> h' ∈ hs.

Lemma cleaned_facts : o.(usecnt) = 0 /\ in_idr s u o = true /\ 2 <= o.(ref) /\ h ∈ s.(hw).
Proof.
  destruct (quiet_listed s u Hinv Hq Hin) as (o0 & h0 & Hu0 & Ho0 & Hh & H1 & H2 & H3). assert (o0 = o) as -> by congruence.
  assert (h0 = h) as -> by congruence. done.
Qed.

Lemma change_cleaned t : s.(holds) !! t = None -> change s (cleaned s u o hs) t u.
Proof.
  intros Ht. split; try done; cbn.
  - intros v Hne. by rewrite lookup_insert_ne.
  - by rewrite Ht.
  - by rewrite Ht.
  - intros v Hne. unfold listed. apply bool_decide_ext. cbn. rewrite list_elem_of_filter. tauto.
  - intros v ov h' Hne Hv Hh Hin'. apply Hhs; [done|]. intros ->. apply Hne. by apply (to_hw _ (inv_table _ Hinv) v u ov o h).
Qed.

Lemma inv_cleaned : inv (cleaned s u o hs).
Proof.
  destruct cleaned_facts as (Huse & Hi & Hr & _). set (t := fresh (dom s.(holds))).
  assert (Ht : s.(holds) !! t = None) by (apply not_elem_of_dom, is_fresh). pose proof (change_cleaned t Ht) as Hch.
  pose proof (inv_objs _ Hinv u o Hu) as [Oref Opos Olock Ohw]. destruct (quiet_counts s u Hinv Hq) as [Hcr Hcw].
  assert (Hl : listed s u = true) by (by apply bool_decide_eq_true).
  assert (Hnl : listed (cleaned s u o hs) u = false) by (apply bool_decide_eq_false; cbn; rewrite list_elem_of_filter; tauto).
  apply (inv_change s _ t u); try done.
  - cbn. intros o0. rewrite lookup_insert_eq. intros [= <-]. split; cbn.
    + unfold refs in *. rewrite Hnl. change (in_idr (cleaned s u o hs) u _) with (in_idr s u o). rewrite Hl in Oref. cbn in *. lia.
    + lia.
    + right. rewrite Hnl. by change (in_idr (cleaned s u o hs) u _) with (in_idr s u o).
    + done.
  - cbn. by rewrite Ht.
  - intros t' h' _ Ht' Ha. destruct (quiet_hold s t' h' Hinv Hq Ht') as (_ & Hw & _).
    eapply (hold_ok_trivial _ h' u); [done| |done]. cbn. by rewrite lookup_insert_eq.
  - apply (table_change s _ t u o); try done; [by left|by right|]. eexists. cbn. by rewrite lookup_insert_eq.
  - pose proof (inv_file _ Hinv) as [Hsem Hgone Hclosed]. split; try done. cbn. intros Hc. destruct (Hgone Hc) as (Hl0 & _).
    rewrite Hl0 in Hin. by apply elem_of_nil in Hin.
Qed.

(** One turn of the loop: the driver refuses, and the object is as it was; or the
    object is destroyed. *)
Lemma destroy_refused reason ans :
  reason = RDMA_REMOVE_CLOSE \/ reason = RDMA_REMOVE_DRIVER_REMOVE -> c_true ans = true ->
  uverbs_destroy_uobject (put_uobj s u (with_usecnt o (-1))) u reason ans = Some (put_uobj s u (with_usecnt o (-1)), ans).
Proof.
  intros Hreason Hans. unfold uverbs_destroy_uobject, destroy_object, destroy_hw_idr_uobject, mbind, option_bind. cbn.
  rewrite lookup_insert_eq. cbn. rewrite decide_False by (by destruct Hreason as [-> | ->]). rewrite Ho, Hans. cbn iota beta.
  rewrite Hans. cbn iota beta. by rewrite Hans.
Qed.

Lemma destroy_done reason o1 hs' ans :
  reason <> RDMA_REMOVE_ABORT -> reason <> RDMA_REMOVE_DESTROY ->
  (o1 = with_usecnt o (-1) /\ c_true ans = false /\ hs' = s.(hw) ∖ {[h]}) \/ (o1 = with_object (with_usecnt o (-1)) None /\ hs' = s.(hw)) ->
  uverbs_destroy_uobject (put_uobj s u o1) u reason ans = Some (cleaned s u o hs', 0).
Proof.
  intros Hna Hnd Ho1. destruct cleaned_facts as (Huse & Hi & Hr & Hh).
  assert (Hstep : exists s1 o2, destroy_object (put_uobj s u o1) u reason ans = Some (s1, 0) /\
    s1 = set_hw (put_uobj s u o2) hs' /\ with_ref (with_usecnt (with_context o2 false) 0) (o2.(ref) - 1) =
      with_ref (with_usecnt (with_context (with_object o None) false) 0) (o.(ref) - 1) /\ o2.(ref) = o.(ref)).
  { unfold destroy_object, destroy_hw_idr_uobject, mbind, option_bind. cbn. rewrite lookup_insert_eq, decide_False by done.
    destruct Ho1 as [(-> & Hans & ->)|(-> & ->)]; cbn.
    - rewrite Ho, Hans, decide_True by done. cbn. eexists _, (with_object (with_usecnt o (-1)) None). split; [done|]. split; [|done].
      unfold put_uobj, set_uobjs, set_hw. cbn. by rewrite insert_insert_eq.
    - by eexists _, (with_object (with_usecnt o (-1)) None). }
  destruct Hstep as (s1 & o2 & Hd & -> & Heq & Hro). unfold uverbs_destroy_uobject, mbind, option_bind. cbn [put_uobj set_uobjs uobjs].
  rewrite lookup_insert_eq. assert (Hassert : assert_uverbs_usecnt o1 UVERBS_LOOKUP_WRITE = true) by (by destruct Ho1 as [(-> & _)|(-> & _)]).
  rewrite Hassert. cbn [negb]. rewrite Hd. cbn iota beta. change (c_true 0) with false. cbn iota beta.
  unfold release_object, mbind, option_bind. cbn. rewrite lookup_insert_eq, decide_False by done.
  unfold unlist_object, uverbs_uobject_put, mbind, option_bind. cbn. rewrite lookup_insert_eq, decide_True by done. cbn.
  rewrite (proj2 (Z.eqb_neq _ _)) by lia. rewrite decide_False by done.
  unfold cleaned, put_uobj, set_uobjs, set_uobjects, set_hw. cbn. by rewrite !insert_insert_eq, <- Heq.
Qed.

End cleaned.

Lemma cleanup_turn s u o h l reason answers ret :
  inv s -> quiet s -> u ∈ s.(uobjects) -> s.(uobjs) !! u = Some o -> o.(object) = Some h ->
  reason = RDMA_REMOVE_CLOSE \/ reason = RDMA_REMOVE_DRIVER_REMOVE ->
  cleanup_list s (u :: l) reason answers ret =
    if c_true (answers s.(hw) u) then cleanup_list s l reason answers ret
    else cleanup_list (cleaned s u o (s.(hw) ∖ {[h]})) l reason answers 0.
Proof.
  intros Hinv Hq Hin Hu Ho Hreason. destruct (cleaned_facts s u h o Hinv Hq Hin Hu Ho) as (Huse & Hi & Hr & Hh).
  cbn [cleanup_list]. unfold mbind at 1, option_bind at 1. rewrite Hu. cbn [uverbs_try_lock_object]. rewrite Huse. change (0 =? 0) with true. cbn iota beta.
  change (c_true 0) with false. cbn iota. rewrite decide_False by (by destruct Hreason as [-> | ->]).
  destruct (c_true (answers (hw s) u)) eqn:Hans.
  - rewrite (destroy_refused s u h o) by done. unfold mbind, option_bind. rewrite Hans. cbn. rewrite lookup_insert_eq. cbn.
    f_equal. unfold put_uobj, set_uobjs. cbn. rewrite insert_insert_eq. replace (with_usecnt (with_usecnt o (-1)) 0) with o.
    + rewrite insert_id by done. by destruct s.
    + destruct o. cbn in *. by subst.
  - rewrite (destroy_done s u h o Hinv Hq Hin Hu Ho reason (with_usecnt o (-1)) (s.(hw) ∖ {[h]})); [done|..|by left];
      by destruct Hreason as [-> | ->].
Qed.

Lemma failure_turn s u o h l answers ret :
  inv s -> quiet s -> u ∈ s.(uobjects) -> s.(uobjs) !! u = Some o -> o.(object) = Some h ->
  cleanup_list s (u :: l) RDMA_REMOVE_DRIVER_FAILURE answers ret =
    cleanup_list (cleaned s u o s.(hw)) l RDMA_REMOVE_DRIVER_FAILURE answers 0.
Proof.
  intros Hinv Hq Hin Hu Ho. destruct (cleaned_facts s u h o Hinv Hq Hin Hu Ho) as (Huse & Hi & Hr & Hh).
  cbn [cleanup_list]. unfold mbind at 1, option_bind at 1. rewrite Hu. cbn [uverbs_try_lock_object]. rewrite Huse. change (0 =? 0) with true. cbn iota beta.
  change (c_true 0) with false. cbn iota. rewrite decide_True by done.
  by rewrite (destroy_done s u h o Hinv Hq Hin Hu Ho _ (with_object (with_usecnt o (-1)) None) s.(hw)); [|done..|right].
Qed.

(** ** What a pass is for the hardware *)

(** The objects of a file, newest first, each with its hardware object. *)
Definition hw_of (s : ib_uverbs_file) (u : Z) : Z := default 0 (o ← s.(uobjs) !! u; o.(object)).
Definition live_objects (s : ib_uverbs_file) : list (Z * Z) := map (fun u => (u, hw_of s u)) s.(uobjects).

(** The driver is asked once for each; what it refuses stays. *)
Fixpoint hw_pass (l : list (Z * Z)) (hs : gset Z) (answers : gset Z -> Z -> Z) : list (Z * Z) * gset Z :=
  match l with
  | [] => ([], hs)
  | (u, h) :: l =>
      if c_true (answers hs u) then let '(kept, hs) := hw_pass l hs answers in ((u, h) :: kept, hs)
      else hw_pass l (hs ∖ {[h]}) answers
  end.

Lemma hw_pass_length l hs answers :
  (length (hw_pass l hs answers).1 <= length l)%nat /\ (length (hw_pass l hs answers).1 = length l -> hw_pass l hs answers = (l, hs)).
Proof.
  revert hs. induction l as [|[u h] l IH]; intros hs; cbn; [done|]. destruct (c_true _).
  - specialize (IH hs). destruct (hw_pass l hs answers) as [kept hs']. cbn in *. destruct IH as [IH1 IH2]. split; [lia|].
    intros [= E]. specialize (IH2 E). by injection IH2 as -> ->.
  - destruct (IH (hs ∖ {[h]})) as [IH1 _]. split; lia.
Qed.

Lemma hw_pass_sub l hs answers p : p ∈ (hw_pass l hs answers).1 -> p ∈ l.
Proof.
  revert hs. induction l as [|[u h] l IH]; intros hs; cbn; [done|]. destruct (c_true _).
  - specialize (IH hs). destruct (hw_pass l hs answers) as [kept hs']. cbn in *. rewrite !list.elem_of_cons. tauto.
  - intros Hp. right. by apply (IH (hs ∖ {[h]})).
Qed.

(** What a clean-up leaves alone. *)
Record kept (s s' : ib_uverbs_file) : Prop := {
  kp_idr : s'.(idr) = s.(idr);
  kp_sem : s'.(hw_destroy_rwsem) = s.(hw_destroy_rwsem);
  kp_ucontext : s'.(ucontext) = s.(ucontext);
  kp_ib_dev : s'.(ib_dev) = s.(ib_dev);
  kp_closed : s'.(closed) = s.(closed);
  kp_holds : s'.(holds) = s.(holds);
  kp_dom : dom s'.(uobjs) = dom s.(uobjs);
  kp_listed : forall u, u ∈ s'.(uobjects) -> s'.(uobjs) !! u = s.(uobjs) !! u
}.

Lemma ukept_refl s : kept s s. Proof. done. Qed.

Lemma kept_cleaned s u o hs s' : s.(uobjs) !! u = Some o -> kept (cleaned s u o hs) s' -> u ∉ s'.(uobjects) -> kept s s'.
Proof.
  intros Hu [] Hn. cbn in *. split; try done.
  - rewrite kp_dom0, dom_insert_L. apply subseteq_union_1_L. apply singleton_subseteq_l, elem_of_dom. by eexists.
  - intros v Hv. rewrite kp_listed0 by done. rewrite lookup_insert_ne; [done|congruence].
Qed.

Lemma quiet_cleaned s u o hs : quiet s -> quiet (cleaned s u o hs).
Proof. done. Qed.

Lemma filter_middle (u : Z) (pre l : list Z) : NoDup (pre ++ u :: l) -> filter (.≠ u) (pre ++ u :: l) = pre ++ l.
Proof.
  intros (_ & Hdis & [Hu _]%list.NoDup_cons)%list.NoDup_app.
  rewrite list.filter_app, filter_cons_False by (intros Hx; by apply Hx). rewrite !filter_absent; [done|done|].
  intros Hin. apply (Hdis u Hin). by left.
Qed.

Lemma hw_of_cleaned s u o hs v : v <> u -> hw_of (cleaned s u o hs) v = hw_of s v.
Proof. intros Hne. unfold hw_of. cbn. by rewrite lookup_insert_ne. Qed.

(** The loop, from where it stands: [pre] are the objects it has left in the list. *)
Lemma cleanup_list_refines s pre l reason answers ret :
  inv s -> quiet s -> s.(uobjects) = pre ++ l -> reason = RDMA_REMOVE_CLOSE \/ reason = RDMA_REMOVE_DRIVER_REMOVE ->
  let '(ps, hs) := hw_pass (map (fun u => (u, hw_of s u)) l) s.(hw) answers in
  exists s', cleanup_list s l reason answers ret = Some (s', if (length ps <? length l)%nat then 0 else ret) /\
    inv s' /\ quiet s' /\ kept s s' /\ s'.(uobjects) = pre ++ map fst ps /\ s'.(hw) = hs.
Proof.
  intros Hinv Hq Hl Hreason. revert s pre ret Hinv Hq Hl. induction l as [|u l IH]; intros s pre ret Hinv Hq Hl.
  - cbn. exists s. by rewrite Hl.
  - assert (Hin : u ∈ s.(uobjects)) by (rewrite Hl; apply list.elem_of_app; right; by left).
    destruct (quiet_listed s u Hinv Hq Hin) as (o & h & Hu & Ho & Hh & _).
    rewrite (cleanup_turn s u o h) by done. cbn [map hw_pass length].
    assert (E : hw_of s u = h) by (unfold hw_of; by rewrite Hu; cbn; rewrite Ho).
    destruct (c_true (answers (hw s) u)).
    + specialize (IH s (pre ++ [u]) ret Hinv Hq). rewrite <- (assoc_L (++)) in IH. specialize (IH Hl).
      destruct (hw_pass _ (hw s) answers) as [ps hs]. destruct IH as (s' & E' & ? & ? & ? & Hl' & ?). exists s'. cbn [length map].
      rewrite E', Hl', <- (assoc_L (++)). split_and!; try done.
    + pose proof (to_nodup _ (inv_table _ Hinv)) as Hnd. rewrite Hl in Hnd. set (s1 := cleaned s u o (s.(hw) ∖ {[h]})).
      assert (Hl1 : s1.(uobjects) = pre ++ l) by (cbn; by rewrite Hl, filter_middle).
      assert (Hinv1 : inv s1) by (apply (inv_cleaned s u h o); try done; set_solver). specialize (IH s1 pre 0 Hinv1 Hq Hl1).
      assert (Hmap : map (fun v => (v, hw_of s1 v)) l = map (fun v => (v, hw_of s v)) l).
      { apply map_ext_in. intros v Hv%list_elem_of_In. f_equal. apply hw_of_cleaned. intros ->.
        apply list.NoDup_app in Hnd as (_ & _ & [Hnu _]%list.NoDup_cons). done. }
      rewrite Hmap in IH. change (s1.(hw)) with (s.(hw) ∖ {[h]}) in IH. rewrite E.
      pose proof (hw_pass_length (map (fun v => (v, hw_of s v)) l) (s.(hw) ∖ {[h]}) answers) as [Hlen _]. rewrite length_map in Hlen.
      destruct (hw_pass _ _ answers) as [ps hs] eqn:Hp. cbn in Hlen. destruct IH as (s' & E' & ? & ? & Hk & Hl' & ?).
      exists s'. rewrite E'. rewrite (proj2 (Nat.ltb_lt (length ps) (S (length l)))) by lia.
      split; [by destruct (_ <? _)%nat|]. split_and!; try done. apply (kept_cleaned s u o _ s' Hu Hk). rewrite Hl'. 
      apply list.NoDup_app in Hnd as (_ & Hdis & [Hnl _]%list.NoDup_cons). rewrite list.elem_of_app. intros [Hup|Hup].
      * apply (Hdis u Hup). by left.
      * apply list_elem_of_fmap in Hup as ([v h'] & -> & Hp'). pose proof (hw_pass_sub (map (fun v => (v, hw_of s v)) l) (s.(hw) ∖ {[h]}) answers (v, h')) as Hsub.
        rewrite Hp in Hsub. specialize (Hsub Hp'). apply list_elem_of_fmap in Hsub as (v' & [= <- _] & Hv'). by apply Hnl.
Qed.

(** ** Passes *)

Lemma live_objects_kept s s' ps : kept s s' -> s'.(uobjects) = map fst ps -> (forall p, p ∈ ps -> p ∈ live_objects s) ->
  live_objects s' = ps.
Proof.
  intros Hk Hl Hsub. unfold live_objects. rewrite Hl, map_map. rewrite <- (map_id ps) at 2. apply map_ext_in.
  intros [u h] Hp%list_elem_of_In. cbn. destruct (proj1 (list_elem_of_fmap _ _ _) (Hsub _ Hp)) as (u' & [= -> ->] & _).
  f_equal. unfold hw_of. rewrite (kp_listed _ _ Hk); [done|]. rewrite Hl. apply list_elem_of_fmap. by exists (u', hw_of s u').
Qed.

Lemma pass_refines s reason answers :
  inv s -> quiet s -> reason = RDMA_REMOVE_CLOSE \/ reason = RDMA_REMOVE_DRIVER_REMOVE ->
  exists s', __uverbs_cleanup_ufile s reason answers =
      Some (s', if (length s'.(uobjects) <? length s.(uobjects))%nat then 0 else - EINVAL) /\
    inv s' /\ quiet s' /\ kept s s' /\ (live_objects s', s'.(hw)) = hw_pass (live_objects s) s.(hw) answers.
Proof.
  intros Hinv Hq Hreason. pose proof (cleanup_list_refines s [] s.(uobjects) reason answers (- EINVAL) Hinv Hq eq_refl Hreason) as Hc.
  fold (live_objects s) in Hc. pose proof (hw_pass_sub (live_objects s) s.(hw) answers) as Hsub.
  destruct (hw_pass (live_objects s) (hw s) answers) as [ps hs]. destruct Hc as (s' & E & Hi & Hq' & Hk & Hl & <-).
  cbn in Hl, Hsub. exists s'. split_and!; try done; [|by rewrite (live_objects_kept s s' ps)].
  unfold __uverbs_cleanup_ufile, mbind, option_bind. rewrite E. rewrite decide_False by (by destruct Hreason as [-> | ->]).
  by rewrite Hl, length_map.
Qed.

Lemma failure_refines s answers : inv s -> quiet s ->
  exists s', __uverbs_cleanup_ufile s RDMA_REMOVE_DRIVER_FAILURE answers = Some (s', 0) /\
    inv s' /\ quiet s' /\ kept s s' /\ s'.(uobjects) = [] /\ s'.(hw) = s.(hw).
Proof.
  intros Hinv Hq. assert (Hloop : forall l s ret, inv s -> quiet s -> s.(uobjects) = l ->
    exists s' r, cleanup_list s l RDMA_REMOVE_DRIVER_FAILURE answers ret = Some (s', r) /\
      inv s' /\ quiet s' /\ kept s s' /\ s'.(uobjects) = [] /\ s'.(hw) = s.(hw)).
  { clear s Hinv Hq. induction l as [|u l IH]; intros s ret Hinv Hq Hl; [by exists s, ret|].
    assert (Hin : u ∈ s.(uobjects)) by (rewrite Hl; by left).
    destruct (quiet_listed s u Hinv Hq Hin) as (o & h & Hu & Ho & Hh & _). rewrite (failure_turn s u o h) by done.
    pose proof (to_nodup _ (inv_table _ Hinv)) as Hnd. rewrite Hl in Hnd.
    destruct (IH (cleaned s u o s.(hw)) 0) as (s' & r & E & Hi & Hq' & Hk & Hl' & Hhw).
    - by apply (inv_cleaned s u h).
    - done.
    - cbn. rewrite Hl. apply (filter_middle u [] l Hnd).
    - exists s', r. split_and!; try done. apply (kept_cleaned s u o _ s' Hu Hk). rewrite Hl'. apply not_elem_of_nil. }
  destruct (Hloop s.(uobjects) s (- EINVAL) Hinv Hq eq_refl) as (s' & r & E & Hi & Hq' & Hk & Hl' & Hhw).
  exists s'. split_and!; try done. unfold __uverbs_cleanup_ufile, mbind, option_bind. rewrite E. by rewrite !decide_True by done.
Qed.

(** The driver is asked again as long as it has taken something. *)
Fixpoint hw_clean (fuel : nat) (l : list (Z * Z)) (hs : gset Z) (answers : nat -> gset Z -> Z -> Z) : list (Z * Z) * gset Z :=
  match fuel with
  | O => (l, hs)
  | S fuel =>
      let '(l', hs') := hw_pass l hs (answers fuel) in
      if (length l' <? length l)%nat then hw_clean fuel l' hs' answers else (l', hs')
  end.

Lemma kept_trans s1 s2 s3 : kept s1 s2 -> kept s2 s3 -> (forall u, u ∈ s3.(uobjects) -> u ∈ s2.(uobjects)) -> kept s1 s3.
Proof. intros [] [] Hs. split; try congruence. intros u Hu. rewrite kp_listed1 by done. by apply kp_listed0, Hs. Qed.

Lemma live_length s : length (live_objects s) = length s.(uobjects).
Proof. apply length_map. Qed.

Lemma pass_sub s s' answers : (live_objects s', s'.(hw)) = hw_pass (live_objects s) s.(hw) answers ->
  forall u, u ∈ s'.(uobjects) -> u ∈ s.(uobjects).
Proof.
  intros E u Hu. pose proof (hw_pass_sub (live_objects s) s.(hw) answers (u, hw_of s' u)) as Hsub. rewrite <- E in Hsub. cbn in Hsub.
  assert (Hin : (u, hw_of s' u) ∈ live_objects s') by (apply list_elem_of_fmap; by exists u).
  destruct (proj1 (list_elem_of_fmap _ _ _) (Hsub Hin)) as (u' & [= <- _] & Hu'). done.
Qed.

(** Enough fuel: every pass but the last destroys something. *)
Lemma passes_refine fuel s reason answers :
  inv s -> quiet s -> reason = RDMA_REMOVE_CLOSE \/ reason = RDMA_REMOVE_DRIVER_REMOVE -> (length s.(uobjects) < fuel)%nat ->
  exists s', cleanup_passes fuel s reason answers = Some s' /\ inv s' /\ quiet s' /\ kept s s' /\
    (forall u, u ∈ s'.(uobjects) -> u ∈ s.(uobjects)) /\
    (live_objects s', s'.(hw)) = hw_clean fuel (live_objects s) s.(hw) answers.
Proof.
  intros Hinv Hq Hreason. revert s Hinv Hq. induction fuel as [|fuel IH]; intros s Hinv Hq Hf; [lia|].
  cbn [cleanup_passes hw_clean]. destruct (decide (uobjects s = [])) as [Hnil|Hnil].
  - exists s. split_and!; try done. unfold live_objects. by rewrite Hnil.
  - destruct (pass_refines s reason (answers fuel) Hinv Hq Hreason) as (s1 & E & Hi & Hq1 & Hk & Hp). unfold mbind, option_bind.
    rewrite E. pose proof (pass_sub s s1 _ Hp) as Hsub. rewrite <- Hp. rewrite !live_length.
    destruct (Nat.ltb_spec (length (uobjects s1)) (length (uobjects s))) as [Hlt|Hge].
    + change (c_true 0) with false. cbn iota. destruct (IH s1 Hi Hq1 ltac:(lia)) as (s' & E' & Hi' & Hq' & Hk' & Hs' & Hp').
      exists s'. split_and!; try done; [by apply (kept_trans s s1 s')|]. intros u Hu. by apply Hsub, Hs'.
    + change (c_true (- EINVAL)) with true. cbn iota. by exists s1.
Qed.

(** The whole of [uverbs_destroy_ufile_hw], without its last line. *)
Lemma destroy_ufile_refines s reason answers :
  inv s -> quiet s -> s.(ucontext) = true -> reason = RDMA_REMOVE_CLOSE \/ reason = RDMA_REMOVE_DRIVER_REMOVE ->
  exists s', uverbs_destroy_ufile_hw s reason answers = Some (set_ucontext s' false) /\ inv s' /\ quiet s' /\ kept s s' /\
    s'.(uobjects) = [] /\ s'.(hw) = (hw_clean (S (length s.(uobjects))) (live_objects s) s.(hw) answers).2.
Proof.
  intros Hinv Hq Hc Hreason. unfold uverbs_destroy_ufile_hw, mbind, option_bind. rewrite Hc. cbn [negb].
  destruct (passes_refine (S (length s.(uobjects))) s reason answers Hinv Hq Hreason ltac:(lia)) as (s1 & -> & Hi & Hq1 & Hk & Hs & Hp).
  rewrite <- Hp. cbn [snd]. destruct (decide (uobjects s1 = [])) as [Hnil|Hnil]; [by exists s1|].
  destruct (failure_refines s1 (fun _ _ => 0) Hi Hq1) as (s' & -> & Hi' & Hq' & Hk' & Hl' & Hhw).
  exists s'. split_and!; try done. apply (kept_trans s s1 s'); try done. rewrite Hl'. by intros u ?%elem_of_nil.
Qed.

Lemma set_ucontext_keeps s : inv s -> quiet s -> s.(uobjects) = [] -> s.(ib_dev) = false \/ s.(closed) = true -> good (set_ucontext s false).
Proof.
  intros Hinv Hq Hl Hd. destruct Hinv as [Ho Hh Ht Hf]. pose proof (Build_inv _ Ho Hh Ht Hf) as Hinv. split; [|done]. split.
  - intros u o Hu. destruct (Ho u o Hu). by split.
  - intros t h Hth u Hu. destruct (hold_object s t h u Hinv Hth Hu) as [o Huo]. destruct (quiet_hold s t h Hinv Hq Hth) as (_ & Hw & _).
    exact (hold_ok_trivial (set_ucontext s false) h u o Hu Huo Hw u Hu).
  - by destruct Ht.
  - destruct Hf. split; try done. cbn. intros _. split; [done|]. split; [done|]. intros t h Hth.
    destruct (quiet_hold s t h Hinv Hq Hth) as (Hr & Hw & _). by destruct h as [| ? [| |] | | | | | | | |].
Qed.

Lemma cleanup_keeps s reason answers :
  good s -> enabled s (CleanUp reason answers) -> exists s', uverbs_destroy_ufile_hw s reason answers = Some s' /\ good s'.
Proof.
  intros [Hinv Hset] [Hq Hreason]. destruct (ucontext s) eqn:Hc.
  - destruct (destroy_ufile_refines s reason answers Hinv Hq Hc) as (s' & -> & Hi & Hq' & Hk & Hl & _); [tauto|].
    eexists. split; [done|]. apply set_ucontext_keeps; try done. rewrite (kp_ib_dev _ _ Hk), (kp_closed _ _ Hk). tauto.
  - unfold uverbs_destroy_ufile_hw. rewrite Hc. by exists s.
Qed.
