(* ===== verification/UobjectLive.v ===== *)
(** What the user objects of a file guarantee: safety of every run, what the
    counters mean, what creation and destruction do to a handle, and that closing
    a file or removing its device leaves nothing behind. *)

From S2P Require Import Prelude Counting Uobject UobjectSafe UobjectRun UobjectAssign UobjectClean.
#[local] Open Scope Z_scope.

(** ** Runs *)

Lemma ustep_keeps s e : good s -> enabled s e -> exists s', exec s e = Some s' /\ good s'.
Proof.
  intros Hg He. destruct e; cbn [exec]; unfold mbind, option_bind.
  - eexists. split; [done|]. by apply alloc_begin_keeps.
  - destruct He as (Ht & Hh & o & Hu & Ho). by apply (creates_keeps s t u h o).
  - destruct He as (Ht & o & Hu & Ho). by apply (unwinds_keeps s t u o).
  - destruct He as (Ht & o & Hu & Ho). by apply (commit_keeps s t u o).
  - destruct He as (Ht & o & Hu & Ho). by apply (abort_keeps s t u o).
  - by apply up_read_keeps.
  - destruct He as [Hc Ht]. destruct (lookup_keeps s t i mode want Hg Hc Ht) as (s' & ret & -> & Hg'). by exists s'.
  - destruct (check_lock_keeps s t u mode want Hg He) as (s' & ret & -> & Hg'). by exists s'.
  - destruct He as [Ht Hm]. exists s. split; [|done]. by apply (uses_keeps s t u mode).
  - by apply unlock_keeps.
  - by apply drop_keeps.
  - by apply destroy_begin_keeps.
  - by apply destroy_try_keeps.
  - by apply destroy_hw_keeps.
  - by apply destroy_handle_keeps.
  - by apply destroy_list_keeps.
  - by apply (destroy_up_keeps s t u ret).
  - by apply (assign_keeps s t u t' v ret).
  - eexists. split; [done|]. destruct Hg as [Hinv Hset]. split; [|exact Hset]. destruct Hinv as [Ho Hh Ht [Hs Hgn Hc]]. split.
    + intros u o Hu. destruct (Ho u o Hu). by split.
    + exact Hh.
    + by destruct Ht.
    + split; [done| |done]. cbn. intros Hx. destruct (Hgn Hx) as (? & _ & ?). split; [done|]. split; [by left|done].
  - eexists. split; [done|]. destruct Hg as [Hinv Hset]. split; [|exact Hset]. destruct Hinv as [Ho Hh Ht [Hs Hgn Hc]]. split.
    + intros u o Hu. destruct (Ho u o Hu). by split.
    + exact Hh.
    + by destruct Ht.
    + split; [done| |done]. cbn. intros Hx. destruct (Hgn Hx) as (? & _ & ?). split; [done|]. split; [by right|done].
  - by apply cleanup_keeps.
Qed.

Lemma good_opened : good opened.
Proof.
  assert (He : forall (A : Type) (i : Z) (x : A), (∅ : gmap Z A) !! i = Some x -> False) by (intros A i x; by rewrite lookup_empty).
  split; [|by intros _ u o Hu%He]. split; cbn; try (by intros ? ? ?%He).
  - split; cbn; try (by intros ? ? ?%He); try (by intros ? ?%He).
    + by intros i t t' h h' ?%He.
    + constructor.
    + by intros u ?%elem_of_nil.
    + by intros u u' o o' h ?%He.
  - by split.
Qed.

(** Every run of a file, from when it was opened. *)
Inductive reachable : ib_uverbs_file -> Prop :=
  | reachable_opened : reachable opened
  | reachable_step s e s' : reachable s -> enabled s e -> exec s e = Some s' -> reachable s'.

Lemma reachable_good s : reachable s -> good s.
Proof.
  induction 1 as [|s e s' _ IH He Hs]; [apply good_opened|]. destruct (ustep_keeps s e IH He) as (s1 & Hs1 & Hg). by simplify_eq.
Qed.

(** ** Safety *)

(** C10: Using user objects is safe, whatever the order in which commands look
    objects up, create and destroy them, devices are removed and files closed. No
    enabled step uses an object that was freed, destroys hardware twice, or hits
    a warning. A command that has an object for reading or writing has its
    hardware object: nobody destroys it before the command lets go. A command
    that has it for writing, or creates or destroys it, is alone. And no two
    objects have one hardware object. *)
Theorem user_objects_safe s e : reachable s -> enabled s e ->
  (exists s', exec s e = Some s') /\
  (forall t u mode, at_hold s t (Locked u mode) -> mode <> UVERBS_LOOKUP_DESTROY ->
     exists o h, s.(uobjs) !! u = Some o /\ o.(object) = Some h /\ h ∈ s.(hw)) /\
  (forall t t' h h' u, at_hold s t h -> at_hold s t' h' -> about h = Some u -> about h' = Some u -> writer h = true -> t' <> t ->
     reader h' = false /\ writer h' = false) /\
  (forall u u' o o' h, s.(uobjs) !! u = Some o -> s.(uobjs) !! u' = Some o' -> o.(object) = Some h -> o'.(object) = Some h -> u = u').
Proof.
  intros Hr He. pose proof (reachable_good s Hr) as Hg. pose proof Hg as [Hinv _]. split; [|split; [|split]].
  - destruct (ustep_keeps s e Hg He) as (s' & Hs & _). by exists s'.
  - intros t u mode Ht Hm. pose proof (uses_keeps s t u mode Hg Ht Hm) as Huse. unfold handler_uses, mbind, option_bind in Huse.
    destruct (uobjs s !! u) as [o|] eqn:Hu; [|done]. destruct (object o) as [h|] eqn:Ho; [|done]. case_decide; [|done]. by exists o, h.
  - intros t t' h h' u Ht Ht' Ha Ha' Hw Hne. by apply (writer_alone s t t' h h' u).
  - apply (inv_table _ Hinv).
Qed.

(** C11: What the counters of a user object mean. Its reference count is the number
    of commands that have it, one for its handle and one for its place in the
    list of the file. Its lock is -1 when a command writes it, or when it is gone
    and stays locked until its last reference; otherwise it is the number of
    commands that read it, and then the object has its handle, and hardware as
    long as it is in the list. A handle leads to the object that was given it. *)
Theorem user_object_counts s : reachable s ->
  (forall u o, s.(uobjs) !! u = Some o ->
     o.(ref) = count (refers u) s.(holds) + c_bool (bool_decide (s.(idr) !! o.(id) = Some (Some u))) + c_bool (bool_decide (u ∈ s.(uobjects))) /\
     0 < o.(ref) /\
     (o.(usecnt) = -1 /\ readers s u = 0 /\
        (writers s u = 1 \/ writers s u = 0 /\ s.(idr) !! o.(id) <> Some (Some u) /\ u ∉ s.(uobjects) /\ o.(object) = None) \/
      o.(usecnt) = readers s u /\ writers s u = 0 /\ s.(idr) !! o.(id) = Some (Some u) /\ (u ∈ s.(uobjects) <-> is_Some o.(object)))) /\
  (forall t h u, at_hold s t h -> about h = Some u -> is_Some (s.(uobjs) !! u)) /\
  (forall i u, s.(idr) !! i = Some (Some u) -> exists o, s.(uobjs) !! u = Some o /\ o.(id) = i) /\
  (forall i, s.(idr) !! i = Some None -> exists t u o, at_hold s t (Creating u) /\ s.(uobjs) !! u = Some o /\ o.(id) = i).
Proof.
  intros Hr. destruct (reachable_good s Hr) as [Hinv _]. split; [|split; [|split]].
  - intros u o Hu. destruct (inv_objs _ Hinv u o Hu) as [Oref Opos Olock _]. split; [|split; [done|]].
    + rewrite Oref. unfold refs, in_idr, listed. lia.
    + unfold lock_ok, in_idr, listed, has_hw in Olock.
      rewrite !bool_decide_eq_false in Olock. rewrite bool_decide_eq_true in Olock.
      destruct Olock as [(? & ? & [?|(? & ? & ? & Hn)])|(? & ? & ? & E)].
      * left. split_and!; try done. by left.
      * left. split_and!; try done. right. split_and!; try done. destruct (object o); [|done]. destruct Hn. by eexists.
      * right. split_and!; try done. rewrite <- (bool_decide_eq_true (u ∈ _)), E. apply bool_decide_eq_true.
  - intros t h u Ht Ha. destruct (hold_object s t h u Hinv Ht Ha) as [o Ho]. by exists o.
  - apply (inv_table _ Hinv).
  - intros i Hi. destruct (to_reserved _ (inv_table _ Hinv) i Hi) as (t & h & Ht & u & o & -> & Hu & Hid). by exists t, u, o.
Qed.

(** ** Destroying one object *)

(** Holds are not looked at. *)
Lemma put_hold_over s x t h : put_hold (set_holds s x) t h = set_holds s (<[t := h]> x).
Proof. done. Qed.

Lemma destroy_object_holds s x u reason ret :
  destroy_object (set_holds s x) u reason ret = (fun r => (set_holds r.1 x, r.2)) <$> destroy_object s u reason ret.
Proof.
  unfold destroy_object, destroy_hw_idr_uobject, alloc_abort_idr_uobject, mbind, option_bind. cbn.
  destruct (uobjs s !! u) as [o|]; [|done]. repeat case_match; simplify_eq/=; try done; congruence.
Qed.

Lemma release_object_holds s x u reason : release_object (set_holds s x) u reason = (fun s => set_holds s x) <$> release_object s u reason.
Proof.
  unfold release_object, remove_handle_idr_uobject, uverbs_uobject_put, mbind, option_bind. cbn.
  destruct (uobjs s !! u) as [o|]; [|done]. case_decide; [|done]. cbn. rewrite !lookup_insert_eq. cbn. by case_match.
Qed.

Lemma unlist_object_holds s x u : unlist_object (set_holds s x) u = (fun s => set_holds s x) <$> unlist_object s u.
Proof.
  unfold unlist_object, uverbs_uobject_put, mbind, option_bind. cbn.
  destruct (uobjs s !! u) as [o|] eqn:Hu; [|done]. case_decide; [|done]. cbn. rewrite ?Hu. by case_match.
Qed.

Lemma destroy_keeps_holds s u reason ret s' r : destroy_object s u reason ret = Some (s', r) -> s'.(holds) = s.(holds).
Proof.
  unfold destroy_object, destroy_hw_idr_uobject, alloc_abort_idr_uobject, mbind, option_bind.
  destruct (uobjs s !! u) as [o|]; [|done]. repeat case_match; intros; simplify_eq/=; done.
Qed.

Lemma release_keeps_holds s u reason s' : release_object s u reason = Some s' -> s'.(holds) = s.(holds).
Proof.
  unfold release_object, remove_handle_idr_uobject, uverbs_uobject_put, mbind, option_bind.
  destruct (uobjs s !! u) as [o|]; [|done]. cbn. rewrite lookup_insert_eq. cbn. repeat case_match; intros; simplify_eq/=; done.
Qed.

Lemma unlist_keeps_holds s u s' : unlist_object s u = Some s' -> s'.(holds) = s.(holds).
Proof.
  unfold unlist_object, uverbs_uobject_put, mbind, option_bind.
  destruct (uobjs s !! u) as [o|] eqn:Hu; [|done]. cbn. rewrite ?Hu. repeat case_match; intros; simplify_eq/=; done.
Qed.

(** The steps of [uobj_destroy] one after the other, by the command that holds [t],
    with nobody in between. *)
Definition destroy_alone (s : ib_uverbs_file) (t u ret : Z) : option (ib_uverbs_file * Z) :=
  s ← destroy_begin s t u;
  s ← destroy_try s t u;
  s ← match s.(holds) !! t with
      | Some (DestroyHw _) =>
          s ← destroy_hw_step s t u ret;
          match s.(holds) !! t with
          | Some (DestroyHandle _) => s ← destroy_handle_step s t u; destroy_list_step s t u
          | _ => Some s
          end
      | _ => Some s
      end;
  match s.(holds) !! t with
  | Some (DestroyUp _ ret) => s ← destroy_up s t u; Some (s, ret)
  | _ => None
  end.


Lemma set_holds_same s x : s.(holds) = x -> set_holds s x = s.
Proof. intros <-. by destruct s. Qed.

(** The steps into which a destruction is divided are the function: run with
    nobody in between, they do what [uobj_destroy] does, from the semaphore to
    the result. *)
Theorem uobj_destroy_steps s t u ret : at_hold s t (Locked u UVERBS_LOOKUP_DESTROY) ->
  destroy_alone s t u ret = uobj_destroy s u ret.
Proof.
  unfold at_hold. intros Ht. set (h := Locked u UVERBS_LOOKUP_DESTROY) in *.
  assert (Hback : forall x y, <[t := h]> (<[t := y]> (<[t := x]> (<[t := DestroyTry u]> s.(holds)))) = s.(holds)).
  { intros x y. by rewrite !insert_insert_eq, insert_id. }
  unfold destroy_alone, uobj_destroy, destroy_begin, mbind, option_bind. destruct (hw_destroy_rwsem s <? 0); [done|].
  unfold destroy_try, mbind, option_bind. cbn. destruct (uobjs s !! u) as [o|] eqn:Hu; [|done].
  set (s0 := down_read s). destruct (usecnt o =? 0); cbn -[put_hold set_holds down_read].
  - set (s1 := put_uobj s0 u (with_usecnt o (-1))). set (x := <[t := DestroyHw u]> (<[t := DestroyTry u]> s.(holds))).
    change (put_hold (put_uobj (put_hold s0 t (DestroyTry u)) u (with_usecnt o (-1))) t (DestroyHw u)) with (set_holds s1 x).
    cbn [holds set_holds]. unfold x at 1. rewrite lookup_insert_eq. unfold destroy_hw_step, uverbs_destroy_uobject, mbind, option_bind.
    assert (Hs1 : s1.(uobjs) !! u = Some (with_usecnt o (-1))) by apply lookup_insert_eq.
    cbn [uobjs set_holds]. rewrite Hs1. cbn [assert_uverbs_usecnt usecnt with_usecnt].
    change (negb (-1 =? -1)) with false. cbn iota. rewrite destroy_object_holds.
    destruct (destroy_object s1 u RDMA_REMOVE_DESTROY ret) as [[s2 r]|] eqn:Hd; [|done]. apply destroy_keeps_holds in Hd.
    cbn -[put_hold set_holds]. destruct (c_true r) eqn:Hr; cbn -[put_hold set_holds].
    + rewrite Hr. cbn [uobjs set_holds]. destruct (uobjs s2 !! u) as [o2|]; [|done].
      cbn. rewrite !lookup_insert_eq. unfold put_hold, set_holds, up_read, set_sem. cbn. rewrite lookup_insert_eq.
      unfold h, x. by rewrite Hback, Hd.
    + rewrite put_hold_over. cbn [holds set_holds]. rewrite lookup_insert_eq.
      unfold destroy_handle_step, destroy_list_step, mbind, option_bind. rewrite release_object_holds.
      destruct (release_object s2 u RDMA_REMOVE_DESTROY) as [s3|] eqn:Hrel; [|done]. apply release_keeps_holds in Hrel.
      cbn -[put_hold set_holds]. rewrite put_hold_over, unlist_object_holds.
      destruct (unlist_object s3 u) as [s4|] eqn:Hul; [|done]. apply unlist_keeps_holds in Hul.
      cbn. rewrite !lookup_insert_eq. unfold put_hold, set_holds, up_read, set_sem. cbn.
      unfold h, x. change (holds s1) with (holds s) in Hd. rewrite !insert_insert_eq, insert_id by done. rewrite decide_False by done. by rewrite <- Hd, <- Hrel, <- Hul.
  - change (c_true (- EBUSY)) with true. cbn. rewrite !lookup_insert_eq. unfold put_hold, set_holds, up_read, set_sem. cbn.
    by rewrite lookup_insert_eq, !insert_insert_eq, (insert_id (holds s)).
Qed.

Lemma up_down s : up_read (down_read s) = s.
Proof. unfold up_read, down_read, set_sem. cbn. rewrite Z.add_simpl_r. by destruct s. Qed.

Lemma put_uobj_back s u o : s.(uobjs) !! u = Some o -> put_uobj s u o = s.
Proof. intros Hu. unfold put_uobj, set_uobjs. rewrite insert_id by done. by destruct s. Qed.

Section outcomes.
Variables (s : ib_uverbs_file) (t u ret : Z) (o : ib_uobject).
Hypotheses (Hg : good s) (Ht : at_hold s t (Locked u UVERBS_LOOKUP_DESTROY)) (Hu : s.(uobjs) !! u = Some o).

Lemma sem_read : hw_destroy_rwsem s <? 0 = false.
Proof.
  pose proof (proj1 (count_pos in_sem s.(holds))) as Hp. rewrite <- (fo_sem _ (inv_file _ (proj1 Hg))) in Hp. apply Z.ltb_ge. lia.
Qed.

Lemma destroy_busy : o.(usecnt) <> 0 -> uobj_destroy s u ret = Some (s, - EBUSY).
Proof.
  intros Hn. unfold uobj_destroy, mbind, option_bind. rewrite sem_read. cbn -[down_read]. change (uobjs (down_read s)) with (uobjs s). rewrite Hu.
  rewrite (proj2 (Z.eqb_neq _ _)) by done. cbn iota beta. change (c_true (- EBUSY)) with true. cbn iota.
  rewrite put_uobj_back by done. by rewrite up_down.
Qed.

Lemma destroy_refused_back h : o.(usecnt) = 0 -> o.(object) = Some h -> ret <> 0 -> uobj_destroy s u ret = Some (s, ret).
Proof.
  intros Hn Ho Hret%c_true_spec. unfold uobj_destroy, mbind, option_bind. rewrite sem_read. cbn -[down_read].
  change (uobjs (down_read s)) with (uobjs s). rewrite Hu, Hn. change (0 =? 0) with true. cbn iota beta. change (c_true 0) with false. cbn iota.
  unfold uverbs_destroy_uobject, destroy_object, destroy_hw_idr_uobject, mbind, option_bind. cbn. rewrite lookup_insert_eq. cbn.
  rewrite decide_False, Ho, Hret by done. cbn iota beta. rewrite Hret. cbn iota beta. rewrite Hret. cbn. rewrite Hret, lookup_insert_eq. cbn.
  assert (E : with_usecnt (with_usecnt o (-1)) 0 = o) by (destruct o; cbn in *; by subst).
  unfold put_uobj, set_uobjs, up_read, down_read, set_sem. cbn. rewrite insert_insert_eq, E, insert_id, Z.add_simpl_r by done. by destruct s.
Qed.

Lemma destroy_succeeds : o.(usecnt) = 0 -> o.(object) = None \/ ret = 0 -> uobj_destroy s u ret = Some (destroyed s u o, 0).
Proof.
  intros Hn Hor. pose proof (inv_objs _ (proj1 Hg) u o Hu) as [Oref _ Olock Ohw].
  destruct Olock as [(? & _)|(_ & _ & Hi & _)]; [lia|]. pose proof (hold_refs s t _ u o (proj1 Hg) Ht eq_refl Hu) as Hr. rewrite Hi in Hr.
  unfold uobj_destroy, mbind, option_bind. rewrite sem_read. cbn -[down_read].
  change (uobjs (down_read s)) with (uobjs s). rewrite Hu, Hn. change (0 =? 0) with true. cbn iota beta. change (c_true 0) with false. cbn iota.
  rewrite (destroy_uobject_done _ u (with_usecnt o (-1))); [|apply lookup_insert_eq|done|done|done|done].
  change (c_true 0) with false. unfold destroyed, up_read, set_sem. cbn. by rewrite insert_insert_eq, Z.add_simpl_r.
Qed.

End outcomes.

(** The three ends of a destruction. An object that another command has, or
    that is gone already, is busy and nothing changes. When the driver refuses,
    the object is again what it was, and unlocked. Otherwise the hardware object
    is destroyed, the object is out of the list and without its handle - a lookup
    fails from then on - and it stays locked, so that who still has a reference
    cannot get at it; no other object changes. *)
Theorem uobj_destroy_outcomes s t u ret o :
  reachable s -> at_hold s t (Locked u UVERBS_LOOKUP_DESTROY) -> s.(uobjs) !! u = Some o ->
  (o.(usecnt) <> 0 -> uobj_destroy s u ret = Some (s, - EBUSY)) /\
  (o.(usecnt) = 0 -> is_Some o.(object) -> ret <> 0 -> uobj_destroy s u ret = Some (s, ret)) /\
  (o.(usecnt) = 0 -> o.(object) = None \/ ret = 0 ->
     exists s' o', uobj_destroy s u ret = Some (s', 0) /\
       (forall v, v <> u -> s'.(uobjs) !! v = s.(uobjs) !! v) /\
       s'.(uobjs) !! u = Some o' /\ o'.(object) = None /\ o'.(usecnt) = -1 /\
       o'.(ref) = o.(ref) - 1 - c_bool (bool_decide (u ∈ s.(uobjects))) /\
       s'.(uobjects) = filter (.≠ u) s.(uobjects) /\
       (forall h, h ∈ s'.(hw) <-> h ∈ s.(hw) /\ o.(object) <> Some h) /\
       (forall i, s'.(idr) !! i = if decide (i = o.(id)) then None else s.(idr) !! i) /\
       (forall t' mode want, 0 <= o.(id) -> lookup_get_idr_uobject s' t' o.(id) mode want = Some (s', - ENOENT))).
Proof.
  intros Hr Ht Hu. pose proof (reachable_good s Hr) as Hg. split; [|split].
  - by eapply destroy_busy.
  - intros Hn [h Ho] Hret. by eapply destroy_refused_back.
  - intros Hn Hor. eexists (destroyed s u o), _. split; [by apply (destroy_succeeds s t)|]. cbn.
    split; [intros v Hne; by rewrite lookup_insert_ne|]. split; [apply lookup_insert_eq|]. split_and!; try done.
    + intros h. destruct (object o) as [h0|]; [rewrite elem_of_difference, elem_of_singleton; naive_solver|naive_solver].
    + intros i. case_decide as Hi; [subst; apply lookup_delete_eq|by apply lookup_delete_ne].
    + intros t' mode want Hi. unfold lookup_get_idr_uobject. rewrite (proj2 (Z.ltb_ge _ _)) by done. cbn. by rewrite lookup_delete_eq.
Qed.

(** ** Creating one object *)

(** The file with an object under construction, and with it committed. *)
Definition creating (s : ib_uverbs_file) (t u obj i : Z) : ib_uverbs_file :=
  put_hold (set_idr (put_uobj (down_read s) u (mk_uobj obj true None i 1 (-1))) (<[i := None]> s.(idr))) t (Creating u).

Definition committed (s : ib_uverbs_file) (u obj i h : Z) : ib_uverbs_file :=
  mk_ufile (<[u := mk_uobj obj true (Some h) i 2 0]> s.(uobjs)) (<[i := Some u]> s.(idr)) (u :: s.(uobjects)) s.(hw_destroy_rwsem)
    s.(ucontext) s.(ib_dev) s.(closed) (s.(hw) ∪ {[h]}) s.(holds).

Lemma begin_creates s t obj a u i :
  hw_destroy_rwsem s <? 0 = false -> a.(a_kzalloc) = Some u -> a.(a_xa_alloc) = inr i -> a.(a_charge) = 0 ->
  a.(a_has_context) = true \/ s.(ib_dev) = true /\ s.(ucontext) = true ->
  rdma_alloc_begin_uobject s t obj a = (creating s t u obj i, 0).
Proof.
  intros Hs Hu Hi Hc Hctx. unfold rdma_alloc_begin_uobject, alloc_begin_idr_uobject, alloc_uobj. rewrite Hs, Hu, Hi, Hc. cbn.
  by destruct Hctx as [-> | [-> ->]]; cbn; rewrite ?andb_false_r.
Qed.

Lemma begin_fails s t obj a : s.(holds) !! t = None ->
  (rdma_alloc_begin_uobject s t obj a).1.(holds) !! t = None -> (rdma_alloc_begin_uobject s t obj a).1 = s.
Proof.
  intros Ht. unfold rdma_alloc_begin_uobject. case_match; [done|]. destruct (alloc_begin_idr_uobject (down_read s) obj a) as [s1 [e|u]] eqn:Ha.
  - intros _. cbn. unfold alloc_begin_idr_uobject in Ha. repeat case_match; simplify_eq; apply up_down.
  - cbn. by rewrite lookup_insert_eq.
Qed.

Lemma creates_then s t u obj i h :
  handler_creates (creating s t u obj i) u h =
    Some (set_hw (put_uobj (creating s t u obj i) u (mk_uobj obj true (Some h) i 1 (-1))) (s.(hw) ∪ {[h]})).
Proof. unfold handler_creates, mbind, option_bind. cbn. rewrite lookup_insert_eq. done. Qed.

(** Undoing the creation of an object of a file that had neither it nor its handle. *)
Lemma abort_undoes s t u obj i o1 hs : s.(holds) !! t = None -> s.(uobjs) !! u = None -> s.(idr) !! i = None -> u ∉ s.(uobjects) ->
  o1 = mk_uobj obj true o1.(object) i 1 (-1) ->
  ('(s1, _) ← uverbs_destroy_uobject (set_hw (put_uobj (creating s t u obj i) u o1) hs) u RDMA_REMOVE_ABORT 0;
   up_read_hold (put_hold s1 t UpRead) t) = Some (set_hw s hs).
Proof.
  intros Ht Hu Hi Hl ->. unfold uverbs_destroy_uobject, destroy_object, alloc_abort_idr_uobject, mbind, option_bind. cbn.
  rewrite lookup_insert_eq. cbn. rewrite decide_True, decide_False by done. cbn.
  unfold release_object, mbind, option_bind. cbn. rewrite lookup_insert_eq, decide_False by done. cbn.
  unfold unlist_object, mbind, option_bind. cbn. rewrite lookup_insert_eq, decide_False by done. cbn.
  unfold uverbs_uobject_put, mbind, option_bind. cbn. rewrite lookup_insert_eq, decide_True by done. cbn [ref with_usecnt with_context].
  change (1 - 1 =? 0) with true. cbn. unfold up_read_hold, end_hold, set_holds, set_hw. cbn. rewrite !delete_insert_eq, !delete_id, Z.add_simpl_r by done. done.
Qed.

(** Creating an object: all or nothing. A command that cannot begin leaves
    the file as it was. While the object is being made its handle leads nowhere.
    When the handler fails and undoes what it did, or has the hardware object
    destroyed, the file is exactly what it was before. When it succeeds, the
    object is in the file under its handle, first of the list and unlocked, and
    nothing else has changed. *)
Theorem creation_all_or_nothing s t obj a : reachable s -> enabled s (AllocBegin t obj a) ->
  ((rdma_alloc_begin_uobject s t obj a).1.(holds) !! t = None -> (rdma_alloc_begin_uobject s t obj a).1 = s) /\
  (forall u i h, a.(a_kzalloc) = Some u -> a.(a_xa_alloc) = inr i -> a.(a_charge) = 0 ->
     a.(a_has_context) = true \/ s.(ib_dev) = true /\ s.(ucontext) = true -> h ∉ s.(hw) ->
     exists s1, rdma_alloc_begin_uobject s t obj a = (s1, 0) /\
       (forall t' mode want, 0 <= i -> lookup_get_idr_uobject s1 t' i mode want = Some (s1, - ENOENT)) /\
       (s2 ← rdma_alloc_abort_uobject s1 t u false 0; up_read_hold s2 t) = Some s /\
       (s2 ← handler_creates s1 u h; s3 ← rdma_alloc_abort_uobject s2 t u true 0; up_read_hold s3 t) = Some s /\
       (s2 ← handler_creates s1 u h; s3 ← rdma_alloc_commit_uobject s2 t u; up_read_hold s3 t) = Some (committed s u obj i h)).
Proof.
  intros Hr (Hcl & Ht & Hctx & Hk & Hx). pose proof (reachable_good s Hr) as Hg. split; [by apply begin_fails|].
  intros u i h Hu Hi Hch Hc Hh. specialize (Hk u Hu). specialize (Hx i Hi). destruct (unborn s u (proj1 Hg) Hk) as (Hl & _).
  apply bool_decide_eq_false in Hl. exists (creating s t u obj i).
  split; [apply begin_creates; auto; by apply (sem_read s)|]. split; [|split; [|split]].
  - intros t' mode want Hi0. unfold lookup_get_idr_uobject. rewrite (proj2 (Z.ltb_ge _ _)) by done. cbn. by rewrite lookup_insert_eq.
  - pose proof (abort_undoes s t u obj i (mk_uobj obj true None i 1 (-1)) s.(hw) Ht Hk Hx Hl eq_refl) as Ha.
    rewrite (put_uobj_back (creating s t u obj i)) in Ha by (cbn; by rewrite lookup_insert_eq).
    change (set_hw (creating s t u obj i) (hw s)) with (creating s t u obj i) in Ha.
    unfold rdma_alloc_abort_uobject, mbind, option_bind in *. cbn iota beta. change (c_true 0) with false. cbn iota.
    destruct (uverbs_destroy_uobject _ u RDMA_REMOVE_ABORT 0) as [[s2 r]|]; [|done]. rewrite Ha. by destruct s.
  - pose proof (abort_undoes s t u obj i (mk_uobj obj true (Some h) i 1 (-1)) ((s.(hw) ∪ {[h]}) ∖ {[h]}) Ht Hk Hx Hl eq_refl) as Ha.
    rewrite creates_then. unfold rdma_alloc_abort_uobject, destroy_hw_idr_uobject, mbind, option_bind in *. cbn iota beta.
    cbn [uobjs set_hw put_uobj set_uobjs]. rewrite lookup_insert_eq. cbn [object]. change (c_true 0) with false. cbn iota.
    cbn [hw set_hw]. rewrite decide_True by set_solver. cbn iota beta. change (c_true 0) with false. cbn iota. unfold set_hw in *. cbn in *.
    destruct (uverbs_destroy_uobject _ u RDMA_REMOVE_ABORT 0) as [[s2 r]|]; [|done]. rewrite Ha. f_equal.
    replace ((hw s ∪ {[h]}) ∖ {[h]}) with (hw s) by set_solver. by destruct s.
  - rewrite creates_then. unfold mbind, option_bind. unfold rdma_alloc_commit_uobject, uverbs_uobject_get, alloc_commit_idr_uobject, mbind, option_bind.
    cbn. rewrite !lookup_insert_eq. cbn. rewrite ?lookup_insert_eq. cbn. rewrite ?lookup_insert_eq, decide_True by done.
    unfold up_read_hold, end_hold, set_holds, up_read, set_sem, put_hold, set_idr, committed. cbn.
    rewrite !insert_insert_eq, !delete_insert_eq, delete_id, Z.add_simpl_r by done. done.
Qed.

(** ** Replacing an object *)

(** An object is replaced under its handle. The hardware of the old object is
    destroyed and its handle leads nowhere until the new object is committed; then
    it leads to the new object. The handle that the new object had is free, and
    no other handle changes. *)
Theorem assign_replaces s t u t' v (o n : ib_uobject) h : reachable s -> enabled s (Assign t u t' v 0) ->
  s.(uobjs) !! u = Some o -> s.(uobjs) !! v = Some n -> n.(object) = Some h ->
  exists s1 s2 : ib_uverbs_file, rdma_assign_uobject s t u v 0 = Some s1 /\ rdma_alloc_commit_uobject s1 t' v = Some s2 /\
    (forall h', h' ∈ s1.(hw) <-> h' ∈ s.(hw) /\ o.(object) <> Some h') /\ h ∈ s2.(hw) /\
    u ∉ s1.(uobjects) /\ s2.(uobjects) = v :: s1.(uobjects) /\
    (forall t0 mode want, 0 <= o.(id) -> lookup_get_idr_uobject s1 t0 o.(id) mode want = Some (s1, - ENOENT)) /\
    (forall i, s2.(idr) !! i = if decide (i = o.(id)) then Some (Some v) else if decide (i = n.(id)) then None else s.(idr) !! i).
Proof.
  intros Hr He Hu Hv Hh. pose proof (reachable_good s Hr) as Hg. pose proof Hg as [Hinv Hset].
  destruct (assign_keeps s t u t' v 0 Hg He) as (s1 & E1 & Hg1). destruct He as (Ht & Ht' & _ & o0 & n0 & Hu0 & Hv0 & Htype).
  assert (o0 = o) as -> by congruence. assert (n0 = n) as -> by congruence.
  destruct (swap_entries s t t' u v o n Hinv Ht Ht' Hu Hv) as (Hi & Hj & Hne & Huv).
  destruct (writer_lock s t' _ v n Hinv Hv Ht' eq_refl eq_refl) as (Hn & _).
  assert (Htt : t' <> t) by (intros ->; unfold at_hold in *; congruence).
  set (sw := swapped s u v o n). assert (Hsu : sw.(uobjs) !! u = Some (with_id o n.(id))) by (cbn; by rewrite lookup_insert_ne, lookup_insert_eq).
  assert (E : s1 = put_hold (destroyed sw u (with_id o n.(id))) t (Locked u UVERBS_LOOKUP_DESTROY)).
  { unfold rdma_assign_uobject, mbind, option_bind in E1. rewrite Hu, Hv in E1. cbn [assert_uverbs_usecnt] in E1. rewrite Hn in E1.
    change (negb (-1 =? -1)) with false in E1. cbn iota in E1. rewrite Htype, Z.eqb_refl in E1. cbn [negb] in E1.
    rewrite (swap_eq s t t' u v o n) in E1 by done. fold sw in E1.
    assert (Hgs : good sw) by (split; [by apply (inv_swap s t t')|by apply settled_swap]).
    rewrite (proj1 (destroyed_keeps sw t u _ Hgs Ht Hsu)) in E1. by injection E1 as <-. }
  assert (Hv1 : s1.(uobjs) !! v = Some (with_id n o.(id))) by (rewrite E; cbn; by rewrite lookup_insert_ne, lookup_insert_eq).
  assert (Ht1 : s1.(holds) !! t' = Some (Creating v)) by (rewrite E; cbn; by rewrite lookup_insert_ne).
  exists s1, (mk_ufile (<[v := with_usecnt (with_ref (with_id n o.(id)) (n.(ref) + 1)) 0]> s1.(uobjs)) (<[o.(id) := Some v]> s1.(idr)) (v :: s1.(uobjects)) s1.(hw_destroy_rwsem)
    s1.(ucontext) s1.(ib_dev) s1.(closed) s1.(hw) (<[t' := UpRead]> s1.(holds))).
  split; [done|]. split; [by apply (commit_eq s1 t' v _ (proj1 Hg1) Ht1 Hv1)|].
  assert (Hhw : forall h', h' ∈ s1.(hw) <-> h' ∈ s.(hw) /\ o.(object) <> Some h').
  { intros h'. rewrite E. cbn. destruct (object o) as [h0|]; [rewrite elem_of_difference, elem_of_singleton; naive_solver|naive_solver]. }
  assert (Hids : forall i, s1.(idr) !! i = if decide (i = n.(id)) then None else if decide (i = o.(id)) then Some None else s.(idr) !! i).
  { intros i. rewrite E. cbn. rewrite delete_insert_eq. repeat case_decide; subst; [by rewrite lookup_delete_eq| |].
    - by rewrite lookup_delete_ne, lookup_insert_eq by done.
    - by rewrite lookup_delete_ne, lookup_insert_ne by done. }
  split; [done|]. split.
  { cbn. apply Hhw. split; [by apply (oo_hw s v n); [apply (inv_objs _ Hinv v n Hv)|]|]. intros Ho. apply Huv.
    by apply (to_hw _ (inv_table _ Hinv) u v o n h). }
  split; [rewrite E; cbn; rewrite list_elem_of_filter; tauto|]. split; [done|]. split.
  - intros t0 mode want Hi0. unfold lookup_get_idr_uobject. rewrite (proj2 (Z.ltb_ge _ _)) by done. by rewrite Hids, decide_False, decide_True by done.
  - intros i. cbn. destruct (decide (i = o.(id))) as [->|Hio]; [by rewrite lookup_insert_eq|]. rewrite lookup_insert_ne by done.
    rewrite Hids. destruct (decide (i = n.(id))); [done|by rewrite decide_False].
Qed.

(** ** The clean-up of a file *)

(** C25: Whatever the driver answers, [uverbs_destroy_ufile_hw] comes to an end -
    every pass but the last destroys an object - and does not warn about locks.
    What it does to the hardware is [hw_clean]: passes over the objects, newest
    first, in which what the driver refuses is asked for again as long as a pass
    destroys something. Afterwards no object has hardware or is in the list, the
    context is gone, and handles and commands are as they were; hardware that is
    left was refused. A file without context is left alone. *)
Theorem destroy_ufile_hw_refines s reason answers : reachable s -> enabled s (CleanUp reason answers) ->
  (s.(ucontext) = false -> uverbs_destroy_ufile_hw s reason answers = Some s) /\
  (s.(ucontext) = true -> exists s', uverbs_destroy_ufile_hw s reason answers = Some s' /\
     s'.(uobjects) = [] /\ s'.(ucontext) = false /\
     (forall u o, s'.(uobjs) !! u = Some o -> o.(object) = None) /\
     (forall u, is_Some (s'.(uobjs) !! u) <-> is_Some (s.(uobjs) !! u)) /\
     s'.(idr) = s.(idr) /\ s'.(holds) = s.(holds) /\
     s'.(hw) = (hw_clean (S (length s.(uobjects))) (live_objects s) s.(hw) answers).2).
Proof.
  intros Hr [Hq Hreason]. destruct (reachable_good s Hr) as [Hinv _]. split; intros Hc.
  - unfold uverbs_destroy_ufile_hw. by rewrite Hc.
  - destruct (destroy_ufile_refines s reason answers Hinv Hq Hc) as (s' & E & Hi & Hq' & Hk & Hl & Hhw); [tauto|].
    eexists. split; [done|]. cbn. split_and!; try done.
    + intros u o Hu. pose proof (inv_objs _ Hi u o Hu) as [_ _ Hlock _]. destruct (quiet_counts s' u Hi Hq') as [_ Hw].
      assert (Hnl : listed s' u = false) by (apply bool_decide_eq_false; rewrite Hl; apply not_elem_of_nil).
      assert (Hn : has_hw o = false) by (destruct Hlock as [(_ & _ & [?|(_ & _ & _ & ?)])|(_ & _ & _ & ?)]; [lia|done|congruence]).
      unfold has_hw in Hn. apply bool_decide_eq_false in Hn. destruct (object o); [|done]. destruct Hn. by eexists.
    + intros u. by rewrite <- !elem_of_dom, (kp_dom _ _ Hk).
    + apply Hk.
    + apply Hk.
Qed.

(** When the driver takes each object once the newer ones are gone. *)
Lemma hw_pass_all l hs answers :
  (forall pre u h post hs', l = pre ++ (u, h) :: post -> (forall v hv, (v, hv) ∈ pre -> hv ∉ hs') -> answers hs' u = 0) ->
  hw_pass l hs answers = ([], hs ∖ list_to_set (map snd l)).
Proof.
  intros Ha. assert (Hgen : forall l0 pre hs, l = pre ++ l0 -> (forall v hv, (v, hv) ∈ pre -> hv ∉ hs) ->
    hw_pass l0 hs answers = ([], hs ∖ list_to_set (map snd l0))).
  { clear hs. induction l0 as [|[u h] l0 IH]; intros pre hs Hl Hpre; cbn.
    - f_equal. set_solver.
    - rewrite (Ha pre u h l0 hs Hl Hpre). change (c_true 0) with false. cbn iota. rewrite (IH (pre ++ [(u, h)])).
      + f_equal. set_solver.
      + by rewrite <- (assoc_L (++)).
      + intros v hv [Hin|Hin]%list.elem_of_app; [specialize (Hpre v hv Hin); set_solver|].
        apply list_elem_of_singleton in Hin as [= -> ->]. set_solver. }
  apply (Hgen l []); [done|]. by intros v hv ?%elem_of_nil.
Qed.

(** The list is in the order in which the clean-up must go, newest object
    first. A driver that refuses to destroy an object only as long as hardware of
    a newer one is there - a queue pair uses its completion queue, that uses its
    context - has everything destroyed in the first pass: no hardware of the file
    is left, and nothing else is touched. *)
Theorem destroy_ufile_hw_newest_first s reason answers : reachable s -> enabled s (CleanUp reason answers) -> s.(ucontext) = true ->
  (forall k hs pre u post, s.(uobjects) = pre ++ u :: post ->
     (forall v o h, v ∈ pre -> s.(uobjs) !! v = Some o -> o.(object) = Some h -> h ∉ hs) -> answers k hs u = 0) ->
  exists s', uverbs_destroy_ufile_hw s reason answers = Some s' /\ s'.(uobjects) = [] /\
    forall h, h ∈ s'.(hw) <-> h ∈ s.(hw) /\ ~ exists u o, s.(uobjs) !! u = Some o /\ o.(object) = Some h /\ u ∈ s.(uobjects).
Proof.
  intros Hr [Hq Hreason] Hc Ha. destruct (reachable_good s Hr) as [Hinv _].
  destruct (destroy_ufile_refines s reason answers Hinv Hq Hc) as (s' & E & _ & _ & _ & Hl & Hhw); [tauto|].
  eexists. split; [done|]. split; [done|]. cbn. rewrite Hhw. intros h.
  assert (Hof : forall u o h, u ∈ s.(uobjects) -> s.(uobjs) !! u = Some o -> o.(object) = Some h -> hw_of s u = h).
  { intros u o h' _ Hu Ho. unfold hw_of. rewrite Hu. cbn. by rewrite Ho. }
  assert (Hpass : forall k, hw_pass (live_objects s) s.(hw) (answers k) = ([], s.(hw) ∖ list_to_set (map snd (live_objects s)))).
  { intros k. apply hw_pass_all. intros pre u h0 post hs Hl0 Hpre.
    apply map_eq_app in Hl0 as (pre' & l1 & Hl1 & <- & (u' & post' & -> & [= <- _] & _)%map_eq_cons). 
    apply (Ha k hs pre' u' post'); [done|]. intros v o h1 Hv Hu Ho. apply (Hpre v h1). apply list_elem_of_fmap. exists v.
    split; [|done]. f_equal. symmetry. apply (Hof v o h1); [rewrite Hl1; apply list.elem_of_app; by left|done|done]. }
  cbn [hw_clean]. rewrite Hpass. assert (Hend : forall n hs, hw_clean n [] hs answers = ([], hs)) by (by intros []).
  assert (E' : (if (length (@nil (Z * Z)) <? length (live_objects s))%nat then hw_clean (length (uobjects s)) [] (hw s ∖ list_to_set (map snd (live_objects s))) answers
     else ([], hw s ∖ list_to_set (map snd (live_objects s)))) = ([], hw s ∖ list_to_set (map snd (live_objects s)))) by (by rewrite Hend; destruct (_ <? _)%nat).
  rewrite E'. cbn [snd]. rewrite elem_of_difference, elem_of_list_to_set. apply and_iff_compat_l, not_iff_compat.
  unfold live_objects. rewrite map_map, list_elem_of_fmap. split.
  - intros (u & -> & Hin). destruct (quiet_listed s u Hinv Hq Hin) as (o & h & Hu & Ho & _). exists u, o. cbn. by rewrite (Hof u o h).
  - intros (u & o & Hu & Ho & Hin). exists u. cbn. by rewrite (Hof u o h).
Qed.

(** ** The end of a file *)

(** The objects of a list of handles go with their handle. *)
Lemma put_entries_frees s l :
  NoDup (omap snd l) ->
  (forall i u, (i, Some u) ∈ l -> exists o, s.(uobjs) !! u = Some o /\ o.(ref) = 1 /\ o.(object) = None) ->
  exists s', put_entries s l = Some s' /\ s'.(idr) = s.(idr) /\ s'.(hw) = s.(hw) /\
    (forall u, s'.(uobjs) !! u = if decide (u ∈ omap snd l) then None else s.(uobjs) !! u).
Proof.
  revert s. induction l as [|[i [u|]] l IH]; intros s Hnd Hl; cbn in *.
  - exists s. split_and!; try done. 
  - apply list.NoDup_cons in Hnd as [Hnu Hnd]. destruct (Hl i u) as (o & Hu & Href & Ho); [by left|].
    unfold uverbs_uobject_put, mbind, option_bind. rewrite Hu, Ho, Href. change (1 - 1 =? 0) with true. cbn iota.
    destruct (IH (set_uobjs s (delete u s.(uobjs))) Hnd) as (s' & E & Ei & Eh & Eu).
    + intros j v Hv. destruct (Hl j v) as (ov & Hov & Hrest); [by right|]. exists ov. cbn. rewrite lookup_delete_ne; [done|].
      intros <-. apply Hnu. apply list_elem_of_omap. by exists (j, Some u).
    + exists s'. split_and!; try done. intros v. rewrite Eu. cbn.
      destruct (decide (v ∈ omap snd l)) as [Hin|Hin], (decide (v ∈ u :: omap snd l)) as [Hin'|Hin']; try done.
      * destruct Hin'. by right.
      * apply list.elem_of_cons in Hin' as [->|?]; [by rewrite lookup_delete_eq|done].
      * rewrite lookup_delete_ne; [done|]. intros ->. apply Hin'. by left.
  - destruct (IH s Hnd) as (s' & E & Ei & Eh & Eu); [|by exists s'].
    intros j v Hv. apply (Hl j v). by right.
Qed.

Lemma NoDup_omap_entries (l : list (Z * option Z)) :
  NoDup l -> (forall i j u, (i, Some u) ∈ l -> (j, Some u) ∈ l -> i = j) -> NoDup (omap snd l).
Proof.
  induction l as [|[i [u|]] l IH]; cbn; intros Hnd Hinj; [constructor| |].
  - apply list.NoDup_cons in Hnd as [Hn Hnd]. apply list.NoDup_cons. split.
    + intros ([j v] & Hin & [= ->])%list_elem_of_omap. apply Hn. assert (i = j) as ->; [|done].
      apply (Hinj i j u); [by left|by right].
    + apply IH; [done|]. intros i' j' u' Hi Hj. apply (Hinj i' j' u'); by right.
  - apply list.NoDup_cons in Hnd as [_ Hnd]. apply IH; [done|]. intros i' j' u' Hi Hj. apply (Hinj i' j' u'); by right.
Qed.

(** C26: A closed file leaves nothing behind. After the clean-up of a closed file
    every object that is left is held by its handle alone and has no hardware, so
    that [release_ufile_idr_uobject] does not warn, and frees every object and
    every handle. *)
Theorem release_ufile_frees_all s : reachable s -> s.(closed) = true -> s.(ucontext) = false ->
  (forall u o, s.(uobjs) !! u = Some o -> o.(ref) = 1 /\ o.(object) = None /\ s.(idr) !! o.(id) = Some (Some u)) /\
  exists s', release_ufile_idr_uobject s = Some s' /\ s'.(uobjs) = ∅ /\ s'.(idr) = ∅ /\ s'.(hw) = s.(hw).
Proof.
  intros Hr Hcl Hc. destruct (reachable_good s Hr) as [Hinv _].
  pose proof (fo_closed _ (inv_file _ Hinv) Hcl) as Hh. destruct (fo_gone _ (inv_file _ Hinv) Hc) as (Hl & _).
  assert (Hobj : forall u o, s.(uobjs) !! u = Some o -> o.(ref) = 1 /\ o.(object) = None /\ s.(idr) !! o.(id) = Some (Some u)).
  { intros u o Hu. destruct (inv_objs _ Hinv u o Hu) as [Oref Opos Olock _].
    assert (Hnl : listed s u = false) by (apply bool_decide_eq_false; rewrite Hl; apply not_elem_of_nil).
    assert (Hz : forall P, count P s.(holds) = 0) by (intros P; rewrite Hh; apply count_none; by intros ? ? ?%lookup_empty_Some).
    unfold refs in Oref. rewrite Hnl, Hz in Oref. cbn in Oref.
    destruct (in_idr s u o) eqn:Hi; cbn in Oref; [|lia]. split; [lia|]. apply bool_decide_eq_true in Hi. split; [|done].
    unfold lock_ok, readers, writers in Olock. rewrite !Hz in Olock.
    assert (Hn : has_hw o = false) by (destruct Olock as [(_ & _ & [?|(_ & _ & _ & ?)])|(_ & _ & _ & ?)]; [lia|done|congruence]).
    unfold has_hw in Hn. apply bool_decide_eq_false in Hn. destruct (object o); [|done]. destruct Hn. by eexists. }
  split; [done|]. unfold release_ufile_idr_uobject, mbind, option_bind.
  assert (Hent : forall i u, (i, Some u) ∈ map_to_list s.(idr) -> exists o, s.(uobjs) !! u = Some o /\ o.(id) = i).
  { intros i u Hi%elem_of_map_to_list. by apply (inv_table _ Hinv). }
  destruct (put_entries_frees s (map_to_list s.(idr))) as (s' & -> & Ei & Eh & Eu).
  - apply NoDup_omap_entries; [apply NoDup_map_to_list|]. intros i j u Hi Hj.
    destruct (Hent i u Hi) as (o & Hu & <-), (Hent j u Hj) as (o' & Hu' & <-). congruence.
  - intros i u Hi. destruct (Hent i u Hi) as (o & Hu & _). exists o. split; [done|]. by destruct (Hobj u o Hu) as (? & ? & _).
  - eexists. split; [done|]. cbn. split; [|done]. apply map_eq. intros u. rewrite Eu, lookup_empty. case_decide as Hin; [done|].
    destruct (uobjs s !! u) as [o|] eqn:Hu; [|done]. destruct (Hobj u o Hu) as (_ & _ & Hi). destruct Hin.
    apply list_elem_of_omap. exists (o.(id), Some u). split; [by apply elem_of_map_to_list|done].
Qed.

(** ** Concrete runs *)

#[export] Instance hold_eq_dec : EqDecision hold.
Proof. solve_decision. Defined.

Definition uses_object (h : hold) : bool :=
  match h with Locked _ (UVERBS_LOOKUP_READ | UVERBS_LOOKUP_WRITE) => true | _ => false end.

(** A check of [enabled]. *)
Definition enabledb (s : ib_uverbs_file) (e : step) : bool :=
  let at_ t h := bool_decide (s.(holds) !! t = Some h) in
  let object_is u (p : ib_uobject -> bool) := from_option p false (s.(uobjs) !! u) in
  match e with
  | AllocBegin t _ a => negb s.(closed) && bool_decide (s.(holds) !! t = None) && implb a.(a_has_context) s.(ucontext) &&
      (match a.(a_kzalloc) with Some u => bool_decide (s.(uobjs) !! u = None) | None => true end) &&
      (match a.(a_xa_alloc) with inr i => bool_decide (s.(idr) !! i = None) | inl _ => true end)
  | HandlerCreates t u h => at_ t (Creating u) && bool_decide (h ∉ s.(hw)) && object_is u (fun o => bool_decide (o.(object) = None))
  | HandlerUnwinds t u | Commit t u => at_ t (Creating u) && object_is u has_hw
  | AbortCreate t u valid _ => at_ t (Creating u) && object_is u (fun o => Bool.eqb (has_hw o) valid)
  | DoUpRead t => at_ t UpRead
  | Lookup t _ _ _ => negb s.(closed) && bool_decide (s.(holds) !! t = None)
  | CheckLock t u mode want => at_ t (Looked u mode want)
  | Use t u mode => at_ t (Locked u mode) && bool_decide (mode <> UVERBS_LOOKUP_DESTROY)
  | Unlock t u mode => at_ t (Locked u mode)
  | DropHold t u => at_ t (Dropping u)
  | DestroyBegin t u => at_ t (Locked u UVERBS_LOOKUP_DESTROY)
  | TryDestroy t u => at_ t (DestroyTry u)
  | DoDestroyHw t u _ => at_ t (DestroyHw u)
  | DoDestroyHandle t u => at_ t (DestroyHandle u)
  | DoDestroyList t u => at_ t (DestroyList u)
  | DoDestroyUp t u ret => at_ t (DestroyUp u ret)
  | Assign t u t' v ret => at_ t (Locked u UVERBS_LOOKUP_WRITE) && at_ t' (Creating v) && (ret =? 0) &&
      object_is u (fun o => object_is v (fun n => o.(uapi_object) =? n.(uapi_object)))
  | RemoveDevice => true
  | CloseFile => bool_decide (s.(holds) = ∅)
  | CleanUp reason _ => (s.(hw_destroy_rwsem) =? 0) && forallb (fun p => negb (uses_object p.2)) (map_to_list s.(holds)) &&
      (bool_decide (reason = RDMA_REMOVE_CLOSE) && s.(closed) || bool_decide (reason = RDMA_REMOVE_DRIVER_REMOVE) && negb s.(ib_dev))
  end.

Lemma from_option_true {A} (p : A -> bool) (o : option A) : from_option p false o = true -> exists x, o = Some x /\ p x = true.
Proof. destruct o as [x|]; [by exists x|done]. Qed.

Lemma uenabledb_sound s e : enabledb s e = true -> enabled s e.
Proof.
  destruct e; cbn; rewrite ?andb_true_iff, ?negb_true_iff, ?bool_decide_eq_true; try done.
  - intros ((((Hc & Ht) & Hctx) & Hk) & Hx). split_and!; try done.
    + by destruct (a_has_context a).
    + intros u Hu. rewrite Hu in Hk. by apply bool_decide_eq_true in Hk.
    + intros i Hi. rewrite Hi in Hx. by apply bool_decide_eq_true in Hx.
  - intros [[Ht Hh] (o & Hu & Ho%bool_decide_eq_true)%from_option_true]. split_and!; try done. by exists o.
  - intros [Ht (o & Hu & Ho)%from_option_true]. split; [done|by exists o].
  - intros [Ht (o & Hu & Ho)%from_option_true]. split; [done|by exists o].
  - intros [Ht (o & Hu & Ho%Bool.eqb_prop)%from_option_true]. split; [done|by exists o].
  - intros [[[Ht Ht'] Hret%Z.eqb_eq] (o & Hu & (n & Hn & E%Z.eqb_eq)%from_option_true)%from_option_true].
    split_and!; try done. by exists o, n.
  - intros [[Hs%Z.eqb_eq Hq] Hr]. split.
    + split; [done|]. intros t h Ht%elem_of_map_to_list%list_elem_of_In. rewrite forallb_forall in Hq.
      specialize (Hq _ Ht). by destruct h as [| ? [| |] | | | | | | | |].
    + rewrite orb_true_iff, !andb_true_iff, !bool_decide_eq_true, negb_true_iff in Hr. tauto.
Qed.

Fixpoint checked (s : ib_uverbs_file) (l : list step) : option ib_uverbs_file :=
  match l with [] => Some s | e :: l => if enabledb s e then s ← exec s e; checked s l else None end.

Lemma uchecked_reachable l s s' : reachable s -> checked s l = Some s' -> reachable s'.
Proof.
  revert s. induction l as [|e l IH]; intros s Hr; cbn; [by intros [= <-]|]. destruct (enabledb s e) eqn:He; [|done].
  unfold mbind, option_bind. destruct (exec s e) as [s1|] eqn:Hs; [|done]. apply IH. apply (reachable_step s e); [done| |done].
  by apply uenabledb_sound.
Qed.

Definition state_of (l : list step) : ib_uverbs_file := default opened (checked opened l).

(** A protection domain (object 1, hardware 101, handle 0), then a completion queue
    (object 2, hardware 102, handle 1). *)
Definition makes (t u obj h i : Z) : list step :=
  [AllocBegin t obj {| a_has_context := false; a_kzalloc := Some u; a_xa_alloc := inr i; a_charge := 0 |};
   HandlerCreates t u h; Commit t u; DoUpRead t].
Definition two_objects : list step := makes 7 1 1 101 0 ++ makes 7 2 3 102 1.
Definition with_two : ib_uverbs_file := Eval vm_compute in state_of two_objects.

Lemma with_two_reachable : reachable with_two.
Proof. apply (uchecked_reachable two_objects opened _ reachable_opened). vm_compute. reflexivity. Qed.

(** A command reads object 1, another comes to destroy it. *)
Definition contended : list step :=
  two_objects ++ [Lookup 8 0 UVERBS_LOOKUP_READ (Some 1); CheckLock 8 1 UVERBS_LOOKUP_READ (Some 1);
                  Lookup 9 0 UVERBS_LOOKUP_DESTROY (Some 1); CheckLock 9 1 UVERBS_LOOKUP_DESTROY (Some 1)].
Definition with_contention : ib_uverbs_file := Eval vm_compute in state_of contended.

Lemma with_contention_reachable : reachable with_contention.
Proof. apply (uchecked_reachable contended opened _ reachable_opened). vm_compute. reflexivity. Qed.

Lemma user_objects_safe_witness :
  at_hold with_contention 8 (Locked 1 UVERBS_LOOKUP_READ) /\ (exists s', exec with_contention (DestroyBegin 9 1) = Some s').
Proof.
  split; [vm_compute; reflexivity|].
  apply (user_objects_safe with_contention (DestroyBegin 9 1) with_contention_reachable). apply uenabledb_sound. vm_compute. reflexivity.
Defined.

Definition object_one (s : ib_uverbs_file) : ib_uobject := default (mk_uobj 0 false None 0 0 0) (s.(uobjs) !! 1).
Definition contended_one : ib_uobject := Eval vm_compute in object_one with_contention.

Lemma user_object_counts_witness : with_contention.(uobjs) !! 1 = Some contended_one /\
  contended_one.(ref) = 4 /\ count (refers 1) with_contention.(holds) = 2 /\ 0 < contended_one.(ref).
Proof.
  assert (Hu : with_contention.(uobjs) !! 1 = Some contended_one) by (vm_compute; reflexivity).
  split; [exact Hu|]. split; [vm_compute; reflexivity|]. split; [vm_compute; reflexivity|].
  apply (proj1 (user_object_counts with_contention with_contention_reachable) 1 contended_one Hu).
Defined.

Lemma uobj_destroy_steps_witness : at_hold with_contention 9 (Locked 1 UVERBS_LOOKUP_DESTROY) /\
  destroy_alone with_contention 9 1 0 = uobj_destroy with_contention 1 0.
Proof. split; [vm_compute; reflexivity|]. apply uobj_destroy_steps. vm_compute. reflexivity. Defined.

Lemma uobj_destroy_outcomes_witness : contended_one.(usecnt) = 1 /\ uobj_destroy with_contention 1 0 = Some (with_contention, - EBUSY).
Proof.
  split; [vm_compute; reflexivity|].
  apply (uobj_destroy_outcomes with_contention 9 1 0 contended_one with_contention_reachable); [vm_compute; reflexivity..|].
  vm_compute. discriminate.
Defined.

Definition third : begin_answers := {| a_has_context := false; a_kzalloc := Some 3; a_xa_alloc := inr 2; a_charge := 0 |}.

Lemma third_enabled : enabled with_two (AllocBegin 7 5 third).
Proof. apply uenabledb_sound. vm_compute. reflexivity. Qed.

Lemma creation_all_or_nothing_witness : exists s1, rdma_alloc_begin_uobject with_two 7 5 third = (s1, 0) /\
  (s2 ← handler_creates s1 3 103; s3 ← rdma_alloc_abort_uobject s2 7 3 true 0; up_read_hold s3 7) = Some with_two.
Proof.
  destruct (proj2 (creation_all_or_nothing with_two 7 5 third with_two_reachable third_enabled)
    3 2 103 eq_refl eq_refl eq_refl (or_intror (conj eq_refl eq_refl))) as (s1 & E & _ & _ & H & _).
  - apply (bool_decide_unpack _). vm_compute. exact I.
  - exists s1. split; [exact E|exact H].
Defined.

(** The driver refuses to destroy the protection domain while the queue is there. *)
Definition keeps_order : nat -> gset Z -> Z -> Z := fun _ hs u => if bool_decide (u = 1 /\ 102 ∈ hs) then - EBUSY else 0.
Definition removing : ib_uverbs_file := Eval vm_compute in state_of (two_objects ++ [RemoveDevice]).

Lemma removing_reachable : reachable removing.
Proof. apply (uchecked_reachable (two_objects ++ [RemoveDevice]) opened _ reachable_opened). vm_compute. reflexivity. Qed.

Lemma removing_enabled answers : enabled removing (CleanUp RDMA_REMOVE_DRIVER_REMOVE answers).
Proof. apply uenabledb_sound. vm_compute. reflexivity. Qed.

(** A driver that never takes the protection domain: its hardware stays. *)
Definition stubborn : nat -> gset Z -> Z -> Z := fun _ _ u => if u =? 1 then - EBUSY else 0.

Lemma destroy_ufile_hw_refines_witness :
  exists s', uverbs_destroy_ufile_hw removing RDMA_REMOVE_DRIVER_REMOVE stubborn = Some s' /\ s'.(uobjects) = [] /\ s'.(hw) = {[101]}.
Proof.
  destruct (proj2 (destroy_ufile_hw_refines removing RDMA_REMOVE_DRIVER_REMOVE stubborn removing_reachable (removing_enabled _)) eq_refl)
    as (s' & E & Hl & _ & _ & _ & _ & _ & Hh).
  exists s'. split; [exact E|]. split; [exact Hl|]. rewrite Hh. apply (bool_decide_unpack _). vm_compute. exact I.
Defined.

Lemma destroy_ufile_hw_newest_first_witness : removing.(uobjects) = [2; 1] /\
  exists s', uverbs_destroy_ufile_hw removing RDMA_REMOVE_DRIVER_REMOVE keeps_order = Some s' /\ s'.(uobjects) = [].
Proof.
  split; [reflexivity|].
  destruct (destroy_ufile_hw_newest_first removing RDMA_REMOVE_DRIVER_REMOVE keeps_order removing_reachable (removing_enabled _) eq_refl)
    as (s' & E & Hl & _).
  - intros k hs pre u post Hl Hpre. unfold keeps_order. rewrite bool_decide_false; [reflexivity|]. intros [-> Hin].
    assert (H2 : 2 ∈ pre).
    { destruct pre as [|v [|v' pre]]; injection Hl; [discriminate| |].
      - intros _ <-. by left.
      - intros _ _ <-. by left. }
    apply (Hpre 2 (mk_uobj 3 true (Some 102) 1 2 0) 102 H2); [vm_compute; reflexivity|reflexivity|exact Hin].
  - exists s'. split; [exact E|exact Hl].
Defined.

Definition closed_steps : list step := two_objects ++ [CloseFile; CleanUp RDMA_REMOVE_CLOSE keeps_order].
Definition closed_file : ib_uverbs_file := Eval vm_compute in state_of closed_steps.

Lemma release_ufile_frees_all_witness : size closed_file.(uobjs) = 2%nat /\
  exists s', release_ufile_idr_uobject closed_file = Some s' /\ s'.(uobjs) = ∅.
Proof.
  split; [vm_compute; reflexivity|].
  destruct (release_ufile_frees_all closed_file) as [_ (s' & E & Hu & _)].
  - apply (uchecked_reachable closed_steps opened _ reachable_opened). vm_compute. reflexivity.
  - reflexivity.
  - reflexivity.
  - exists s'. split; [exact E|exact Hu].
Defined.

(** A memory region (object 1, handle 0) is replaced by object 3 (hardware 103). *)
Definition replacing_steps : list step :=
  makes 7 1 7 101 0 ++
  [Lookup 8 0 UVERBS_LOOKUP_WRITE (Some 7); CheckLock 8 1 UVERBS_LOOKUP_WRITE (Some 7);
   AllocBegin 9 7 {| a_has_context := true; a_kzalloc := Some 3; a_xa_alloc := inr 2; a_charge := 0 |}; HandlerCreates 9 3 103].
Definition replacing : ib_uverbs_file := Eval vm_compute in state_of replacing_steps.

Lemma replacing_reachable : reachable replacing.
Proof. apply (uchecked_reachable replacing_steps opened _ reachable_opened). vm_compute. reflexivity. Qed.

Lemma assign_replaces_witness : exists s1 s2, rdma_assign_uobject replacing 8 1 3 0 = Some s1 /\
  rdma_alloc_commit_uobject s1 9 3 = Some s2 /\ s2.(idr) !! 0 = Some (Some 3).
Proof.
  destruct (assign_replaces replacing 8 1 9 3 (object_one replacing) (default (object_one replacing) (replacing.(uobjs) !! 3)) 103 replacing_reachable)
    as (s1 & s2 & E1 & E2 & _ & _ & _ & _ & _ & Hids); [apply uenabledb_sound|..]; try (vm_compute; reflexivity).
  exists s1, s2. split; [exact E1|]. split; [exact E2|]. rewrite (Hids 0). vm_compute. reflexivity.
Defined.

(** The driver refuses to destroy the replaced region; the command goes on, the new
    region is destroyed, and the file is closed. *)
Definition goes_on : list step :=
  [Commit 9 3; DoUpRead 9; Unlock 8 1 UVERBS_LOOKUP_DESTROY; DropHold 8 1;
   Lookup 8 0 UVERBS_LOOKUP_DESTROY (Some 7); CheckLock 8 3 UVERBS_LOOKUP_DESTROY (Some 7); DestroyBegin 8 3; TryDestroy 8 3;
   DoDestroyHw 8 3 0; DoDestroyHandle 8 3; DoDestroyList 8 3; DoDestroyUp 8 3 0; Unlock 8 3 UVERBS_LOOKUP_DESTROY; DropHold 8 3;
   CloseFile].
Definition refused : ib_uverbs_file := Eval vm_compute in default opened (rdma_assign_uobject replacing 8 1 3 (- EBUSY)).
Definition refused_closed : ib_uverbs_file := Eval vm_compute in default opened (checked refused goes_on).

(** The region is replaced, and another command destroys the new region before the
    first returns. *)
Definition overtaken_steps : list step :=
  replacing_steps ++
  [Assign 8 1 9 3 0; Commit 9 3; DoUpRead 9; Unlock 8 1 UVERBS_LOOKUP_DESTROY; DropHold 8 1;
   Lookup 10 0 UVERBS_LOOKUP_DESTROY (Some 7); CheckLock 10 3 UVERBS_LOOKUP_DESTROY (Some 7); DestroyBegin 10 3; TryDestroy 10 3;
   DoDestroyHw 10 3 0].
Definition overtaken : ib_uverbs_file := Eval vm_compute in state_of overtaken_steps.

(** Where a replacement goes wrong. When the driver refuses to destroy the
    replaced object, [rdma_assign_uobject] drops the error and the object is
    locked for ever: it has its hardware, is in the list, nobody holds it, no
    destruction can take it, and the clean-up of the file trips over the lock.
    And a command that has replaced an object and put it back has no claim on the
    new one: another command can destroy the new hardware before the first
    returns. *)
Theorem assign_flaws :
  (reachable replacing /\ rdma_assign_uobject replacing 8 1 3 (- EBUSY) = Some refused /\ checked refused goes_on = Some refused_closed /\
   refused_closed.(holds) = ∅ /\ (object_one refused_closed).(usecnt) = -1 /\ (object_one refused_closed).(object) = Some 101 /\
   101 ∈ refused_closed.(hw) /\ 1 ∈ refused_closed.(uobjects) /\
   (forall ret, uobj_destroy refused_closed 1 ret = Some (refused_closed, - EBUSY)) /\
   (forall answers, enabled refused_closed (CleanUp RDMA_REMOVE_CLOSE answers) /\
      exec refused_closed (CleanUp RDMA_REMOVE_CLOSE answers) = None)) /\
  (reachable overtaken /\ 103 ∈ replacing.(hw) /\ 103 ∉ overtaken.(hw)).
Proof.
  split; [|split; [|split; apply (bool_decide_unpack _); vm_compute; exact I]].
  - split; [apply replacing_reachable|]. do 5 (split; [vm_compute; reflexivity|]).
    do 2 (split; [apply (bool_decide_unpack _); vm_compute; exact I|]). split; [intros ret; vm_compute; reflexivity|].
    intros answers. split; [apply uenabledb_sound; vm_compute; reflexivity|].
    vm_compute. reflexivity.
  - apply (uchecked_reachable overtaken_steps opened _ reachable_opened). vm_compute. reflexivity.
Qed.
