(* ===== verification/GidCache.v ===== *)
(** The GID cache: drivers/infiniband/core/cache.c, the table of one port, and the
    P_Key cache and the update of both.

    The memory is a map of entries. The mutex of the table is held by writers from
    beginning to end, so that a writer is one step; readers, who hold the rwlock,
    and the reference counts are steps of their own. [users] counts the references
    that were handed out. Using an entry that was freed is [None]. What the
    allocator and the driver answer are arguments. *)

From S2P Require Import Prelude.
#[local] Open Scope Z_scope.

(** ** Data *)

Definition ENODATA : Z := 61.

Definition IB_GID_TYPE_IB : Z := 0.
Definition IB_GID_TYPE_ROCE : Z := 1.
Definition IB_GID_TYPE_ROCE_UDP_ENCAP : Z := 2.
Definition IB_GID_TYPE_SIZE : Z := 3.

Definition GID_ATTR_FIND_MASK_GID : Z := Z.shiftl 1 0.
Definition GID_ATTR_FIND_MASK_NETDEV : Z := Z.shiftl 1 1.
Definition GID_ATTR_FIND_MASK_DEFAULT : Z := Z.shiftl 1 2.
Definition GID_ATTR_FIND_MASK_GID_TYPE : Z := Z.shiftl 1 3.

Inductive gid_table_entry_state := GID_TABLE_ENTRY_INVALID | GID_TABLE_ENTRY_VALID | GID_TABLE_ENTRY_PENDING_DEL.

#[export] Instance gid_table_entry_state_eq_dec : EqDecision gid_table_entry_state.
Proof. solve_decision. Defined.

(** A GID is a number of 128 bits; device and port are those of the table. *)
Record ib_gid_attr := mk_attr { ndev : option Z; gid : Z; gid_type : Z; index : Z }.

(** [del_work] says that the work is queued; the storage of the net device is the
    device it refers to. *)
Record ib_gid_table_entry := mk_entry {
  kref : Z;
  attr : ib_gid_attr;
  ndev_storage : option Z;
  state : gid_table_entry_state;
  del_work : bool
}.

(** What a port supports: the two encapsulations of RoCE, and whether the driver
    has [add_gid] and [del_gid]. *)
Record port_caps := mk_caps { eth_encap : bool; udp_encap : bool; gid_ops : bool }.

Definition rdma_protocol_roce (c : port_caps) : bool := c.(eth_encap) || c.(udp_encap).
Definition rdma_cap_roce_gid_table (c : port_caps) : bool := rdma_protocol_roce c && c.(gid_ops).

(** In roce_gid_mgmt.c. *)
Definition roce_gid_type_mask_support (c : port_caps) : Z :=
  if negb (rdma_protocol_roce c) then Z.shiftl 1 IB_GID_TYPE_IB
  else Z.lor (if c.(eth_encap) then Z.shiftl 1 IB_GID_TYPE_ROCE else 0) (if c.(udp_encap) then Z.shiftl 1 IB_GID_TYPE_ROCE_UDP_ENCAP else 0).

(** The cache of a port. [hw_gids] is the table of the driver, [rcu] are the net
    devices that wait for [put_gid_ndev], [dev_refs] the references the cache has
    to each. *)
Record ib_gid_table := mk_table {
  entries : gmap Z ib_gid_table_entry;
  data_vec : list (option Z);
  default_gid_indices : Z;
  caps : port_caps;
  hw_gids : gmap Z Z;
  users : gmap Z Z;
  rcu : list Z;
  dev_refs : gmap Z Z
}.

Definition set_entries (t : ib_gid_table) m := mk_table m t.(data_vec) t.(default_gid_indices) t.(caps) t.(hw_gids) t.(users) t.(rcu) t.(dev_refs).
Definition set_vec (t : ib_gid_table) v := mk_table t.(entries) v t.(default_gid_indices) t.(caps) t.(hw_gids) t.(users) t.(rcu) t.(dev_refs).
Definition set_default (t : ib_gid_table) n := mk_table t.(entries) t.(data_vec) n t.(caps) t.(hw_gids) t.(users) t.(rcu) t.(dev_refs).
Definition set_hw_gids (t : ib_gid_table) m := mk_table t.(entries) t.(data_vec) t.(default_gid_indices) t.(caps) m t.(users) t.(rcu) t.(dev_refs).
Definition set_users (t : ib_gid_table) m := mk_table t.(entries) t.(data_vec) t.(default_gid_indices) t.(caps) t.(hw_gids) m t.(rcu) t.(dev_refs).
Definition set_rcu (t : ib_gid_table) l := mk_table t.(entries) t.(data_vec) t.(default_gid_indices) t.(caps) t.(hw_gids) t.(users) l t.(dev_refs).
Definition set_dev_refs (t : ib_gid_table) m := mk_table t.(entries) t.(data_vec) t.(default_gid_indices) t.(caps) t.(hw_gids) t.(users) t.(rcu) m.

Definition put_entry (t : ib_gid_table) (e : Z) (en : ib_gid_table_entry) : ib_gid_table := set_entries t (<[e := en]> t.(entries)).

Definition with_kref (en : ib_gid_table_entry) n := mk_entry n en.(attr) en.(ndev_storage) en.(state) en.(del_work).
Definition with_state (en : ib_gid_table_entry) s := mk_entry en.(kref) en.(attr) en.(ndev_storage) s en.(del_work).
Definition with_work (en : ib_gid_table_entry) b := mk_entry en.(kref) en.(attr) en.(ndev_storage) en.(state) b.
Definition without_ndev (en : ib_gid_table_entry) :=
  mk_entry en.(kref) (mk_attr None en.(attr).(gid) en.(attr).(gid_type) en.(attr).(index)) None en.(state) en.(del_work).

Definition users_of (t : ib_gid_table) (e : Z) : Z := default 0 (t.(users) !! e).
Definition dev_refs_of (t : ib_gid_table) (d : Z) : Z := default 0 (t.(dev_refs) !! d).
Definition dev_hold (t : ib_gid_table) (d : Z) : ib_gid_table := set_dev_refs t (<[d := dev_refs_of t d + 1]> t.(dev_refs)).
Definition dev_put (t : ib_gid_table) (d : Z) : ib_gid_table := set_dev_refs t (<[d := dev_refs_of t d - 1]> t.(dev_refs)).
Definition call_rcu (t : ib_gid_table) (d : Z) : ib_gid_table := set_rcu t (d :: t.(rcu)).

(** ** Entries *)

Definition rdma_is_zero_gid (g : Z) : bool := g =? 0.

Definition is_gid_index_default (t : ib_gid_table) (index : Z) : bool :=
  (index <? 32) && c_true (Z.land (Z.shiftl 1 index) t.(default_gid_indices)).

Definition is_gid_entry_free (slot : option Z) : bool := match slot with None => true | Some _ => false end.

Definition is_gid_entry_valid (t : ib_gid_table) (slot : option Z) : option bool :=
  match slot with
  | None => Some false
  | Some e => en ← t.(entries) !! e; Some (bool_decide (en.(state) = GID_TABLE_ENTRY_VALID))
  end.

Definition schedule_free_gid (t : ib_gid_table) (e : Z) : option ib_gid_table :=
  en ← t.(entries) !! e; Some (put_entry t e (with_work en true)).

Fixpoint remove_one (d : Z) (l : list Z) : list Z :=
  match l with [] => [] | x :: l => if x =? d then l else x :: remove_one d l end.

(** The callback for a device that waits. *)
Definition put_gid_ndev (t : ib_gid_table) (d : Z) : ib_gid_table := dev_put (set_rcu t (remove_one d t.(rcu))) d.

Definition free_gid_entry_locked (t : ib_gid_table) (e : Z) : option ib_gid_table :=
  en ← t.(entries) !! e;
  slot ← arr_get t.(data_vec) en.(attr).(index);
  t ← (if decide (slot = Some e) then v ← arr_set t.(data_vec) en.(attr).(index) None; Some (set_vec t v) else Some t);
  let t := match en.(ndev_storage) with Some d => call_rcu t d | None => t end in
  Some (set_entries t (delete e t.(entries))).

Definition free_gid_work (t : ib_gid_table) (e : Z) : option ib_gid_table := free_gid_entry_locked t e.

(** The allocator gives an entry, and the storage when there is a net device. *)
Record alloc_answers := { a_entry : option Z; a_storage : bool }.

Definition alloc_gid_entry (t : ib_gid_table) (at_ : ib_gid_attr) (a : alloc_answers) : ib_gid_table * option Z :=
  match a.(a_entry) with
  | None => (t, None)
  | Some e =>
      match at_.(ndev) with
      | Some d =>
          if negb a.(a_storage) then (t, None)
          else (put_entry (dev_hold t d) e (mk_entry 1 at_ (Some d) GID_TABLE_ENTRY_INVALID false), Some e)
      | None => (put_entry t e (mk_entry 1 at_ None GID_TABLE_ENTRY_INVALID false), Some e)
      end
  end.

Definition store_gid_entry (t : ib_gid_table) (e : Z) : option ib_gid_table :=
  en ← t.(entries) !! e;
  v ← arr_set t.(data_vec) en.(attr).(index) (Some e);
  Some (set_vec (put_entry t e (with_state en GID_TABLE_ENTRY_VALID)) v).

Definition get_gid_entry (t : ib_gid_table) (e : Z) : option ib_gid_table :=
  en ← t.(entries) !! e; Some (put_entry t e (with_kref en (en.(kref) + 1))).

Definition put_gid_entry (t : ib_gid_table) (e : Z) : option ib_gid_table :=
  en ← t.(entries) !! e;
  let t := put_entry t e (with_kref en (en.(kref) - 1)) in
  if en.(kref) - 1 =? 0 then schedule_free_gid t e else Some t.

Definition put_gid_entry_locked (t : ib_gid_table) (e : Z) : option ib_gid_table :=
  en ← t.(entries) !! e;
  let t := put_entry t e (with_kref en (en.(kref) - 1)) in
  if en.(kref) - 1 =? 0 then free_gid_entry_locked t e else Some t.

(** ** Writers *)

(** The driver answers [ret]. *)
Definition add_roce_gid (t : ib_gid_table) (e ret : Z) : option (ib_gid_table * Z) :=
  en ← t.(entries) !! e;
  match en.(attr).(ndev) with
  | None => Some (t, - EINVAL)
  | Some _ =>
      if rdma_cap_roce_gid_table t.(caps)
      then if c_true ret then Some (t, ret) else Some (set_hw_gids t (<[en.(attr).(index) := en.(attr).(gid)]> t.(hw_gids)), 0)
      else Some (t, 0)
  end.

Definition del_gid (t : ib_gid_table) (ix : Z) : option ib_gid_table :=
  slot ← arr_get t.(data_vec) ix;
  e ← slot;
  en ← t.(entries) !! e;
  let t := put_entry t e (with_state en GID_TABLE_ENTRY_PENDING_DEL) in
  t ← (if rdma_protocol_roce t.(caps) then Some t else v ← arr_set t.(data_vec) ix None; Some (set_vec t v));
  let t := if rdma_cap_roce_gid_table t.(caps) then set_hw_gids t (delete en.(attr).(index) t.(hw_gids)) else t in
  let t := match en.(ndev_storage) with
           | Some d => call_rcu (put_entry t e (without_ndev (with_state en GID_TABLE_ENTRY_PENDING_DEL))) d
           | None => t
           end in
  put_gid_entry_locked t e.

(** The state, and 0 or the error. *)
Definition add_modify_gid (t : ib_gid_table) (at_ : ib_gid_attr) (a : alloc_answers) (ret : Z) : option (ib_gid_table * Z) :=
  slot ← arr_get t.(data_vec) at_.(index);
  valid ← is_gid_entry_valid t slot;
  t ← (if (valid : bool) then del_gid t at_.(index) else Some t);
  if rdma_is_zero_gid at_.(gid) then Some (t, 0) else
  let '(t, entry) := alloc_gid_entry t at_ a in
  match entry return option (ib_gid_table * Z) with
  | None => Some (t, - ENOMEM)
  | Some e =>
      '(t, ret) ← (if rdma_protocol_roce t.(caps) then add_roce_gid t e ret else Some (t, 0));
      if c_true ret then t ← put_gid_entry t e; Some (t, ret)
      else t ← store_gid_entry t e; Some (t, 0)
  end.

(** Whether a valid entry is the one that is looked for. *)
Definition gid_matches (t : ib_gid_table) (g : Z) (val : ib_gid_attr) (default_gid : bool) (mask : Z) (i : Z) (at_ : ib_gid_attr) : bool :=
  negb (c_true (Z.land mask GID_ATTR_FIND_MASK_GID_TYPE) && negb (at_.(gid_type) =? val.(gid_type))) &&
  negb (c_true (Z.land mask GID_ATTR_FIND_MASK_GID) && negb (g =? at_.(gid))) &&
  negb (c_true (Z.land mask GID_ATTR_FIND_MASK_NETDEV) && negb (bool_decide (at_.(ndev) = val.(ndev)))) &&
  negb (c_true (Z.land mask GID_ATTR_FIND_MASK_DEFAULT) && negb (Bool.eqb (is_gid_index_default t i) default_gid)).

Fixpoint find_loop (t : ib_gid_table) (g : Z) (val : ib_gid_attr) (default_gid : bool) (mask : Z) (pempty : bool)
    (slots : list (option Z)) (i found empty : Z) : option (Z * Z) :=
  match slots with
  | [] => Some (found, empty)
  | data :: slots =>
      if (found <? 0) || (empty <? 0) then
        let empty := if pempty && (empty <? 0) && is_gid_entry_free data && Bool.eqb default_gid (is_gid_index_default t i) then i else empty in
        valid ← is_gid_entry_valid t data;
        found ← (if negb valid then Some found
                 else if 0 <=? found then Some found
                 else e ← data; en ← t.(entries) !! e;
                      Some (if gid_matches t g val default_gid mask i en.(attr) then i else found));
        find_loop t g val default_gid mask pempty slots (i + 1) found empty
      else Some (found, empty)
  end.

(** The index found, or -1; and the free index, or -1, when one is asked for. *)
Definition find_gid (t : ib_gid_table) (g : Z) (val : ib_gid_attr) (default_gid : bool) (mask : Z) (pempty : bool) : option (Z * Z) :=
  find_loop t g val default_gid mask pempty t.(data_vec) 0 (-1) (if pempty then -1 else 0).

Definition __ib_cache_gid_add (t : ib_gid_table) (g : Z) (at_ : ib_gid_attr) (mask : Z) (default_gid : bool) (a : alloc_answers) (ret : Z) :
    option (ib_gid_table * Z) :=
  if rdma_is_zero_gid g then Some (t, - EINVAL) else
  '(ix, empty) ← find_gid t g at_ default_gid mask true;
  if 0 <=? ix then Some (t, 0)
  else if empty <? 0 then Some (t, - ENOSPC)
  else add_modify_gid t (mk_attr at_.(ndev) g at_.(gid_type) (u16 empty)) a ret.

Definition ib_cache_gid_add (t : ib_gid_table) (g : Z) (at_ : ib_gid_attr) (a : alloc_answers) (ret : Z) : option (ib_gid_table * Z) :=
  __ib_cache_gid_add t g at_ (Z.lor (Z.lor GID_ATTR_FIND_MASK_GID GID_ATTR_FIND_MASK_GID_TYPE) GID_ATTR_FIND_MASK_NETDEV) false a ret.

Definition _ib_cache_gid_del (t : ib_gid_table) (g : Z) (at_ : ib_gid_attr) (mask : Z) (default_gid : bool) : option (ib_gid_table * Z) :=
  '(ix, _) ← find_gid t g at_ default_gid mask false;
  if ix <? 0 then Some (t, - EINVAL) else t ← del_gid t ix; Some (t, 0).

Definition ib_cache_gid_del (t : ib_gid_table) (g : Z) (at_ : ib_gid_attr) : option (ib_gid_table * Z) :=
  _ib_cache_gid_del t g at_
    (Z.lor (Z.lor (Z.lor GID_ATTR_FIND_MASK_GID GID_ATTR_FIND_MASK_GID_TYPE) GID_ATTR_FIND_MASK_DEFAULT) GID_ATTR_FIND_MASK_NETDEV) false.

(** Deleting the valid entries that [p] picks, by increasing index. *)
Fixpoint del_gids (t : ib_gid_table) (p : ib_gid_attr -> bool) (ixs : list Z) : option ib_gid_table :=
  match ixs with
  | [] => Some t
  | ix :: ixs =>
      slot ← arr_get t.(data_vec) ix;
      valid ← is_gid_entry_valid t slot;
      t ← (if (valid : bool) then e ← slot; en ← t.(entries) !! e; if p en.(attr) then del_gid t ix else Some t else Some t);
      del_gids t p ixs
  end.

Definition indices (t : ib_gid_table) : list Z := seqZ 0 (Z.of_nat (length t.(data_vec))).

Definition ib_cache_gid_del_all_netdev_gids (t : ib_gid_table) (d : option Z) : option ib_gid_table :=
  del_gids t (fun at_ => bool_decide (at_.(ndev) = d)) (indices t).

Definition cleanup_gid_table_port (t : ib_gid_table) : option ib_gid_table := del_gids t (fun _ => true) (indices t).

(** [eui48] is the interface identifier of a net device. *)
Definition make_default_gid (eui48 : Z -> Z) (d : Z) : Z := Z.lor (Z.shiftl 0xfe80000000000000 64) (eui48 d).

Inductive ib_cache_gid_default_mode := IB_CACHE_GID_DEFAULT_MODE_SET | IB_CACHE_GID_DEFAULT_MODE_DELETE.

Definition default_mask : Z := Z.lor (Z.lor GID_ATTR_FIND_MASK_GID_TYPE GID_ATTR_FIND_MASK_DEFAULT) GID_ATTR_FIND_MASK_NETDEV.

(** The types from [n] on; the answers differ by type. *)
Fixpoint set_default_gids (fuel : nat) (t : ib_gid_table) (n : Z) (eui48 : Z -> Z) (d : Z) (gid_type_mask : Z) (mode : ib_cache_gid_default_mode)
    (a : Z -> alloc_answers) (ret : Z -> Z) : option ib_gid_table :=
  match fuel with
  | O => Some t
  | S fuel =>
      if n <? IB_GID_TYPE_SIZE then
        t ← (if c_true (Z.land (Z.shiftl 1 n) (Z.lnot gid_type_mask)) then Some t
             else match mode with
                  | IB_CACHE_GID_DEFAULT_MODE_SET =>
                      r ← __ib_cache_gid_add t (make_default_gid eui48 d) (mk_attr (Some d) 0 n 0) default_mask true (a n) (ret n); Some r.1
                  | IB_CACHE_GID_DEFAULT_MODE_DELETE => r ← _ib_cache_gid_del t 0 (mk_attr (Some d) 0 n 0) default_mask true; Some r.1
                  end);
        set_default_gids fuel t (n + 1) eui48 d gid_type_mask mode a ret
      else Some t
  end.

Definition ib_cache_gid_set_default_gid (t : ib_gid_table) (eui48 : Z -> Z) (d gid_type_mask : Z) (mode : ib_cache_gid_default_mode)
    (a : Z -> alloc_answers) (ret : Z -> Z) : option ib_gid_table :=
  set_default_gids 3 t 0 eui48 d gid_type_mask mode a ret.

(** [update_gid] of roce_gid_mgmt.c, from type [n] on. *)
Inductive gid_op_type := GID_DEL | GID_ADD.

Fixpoint update_gids (fuel : nat) (t : ib_gid_table) (gid_op : gid_op_type) (n : Z) (g : Z) (d : option Z) (a : Z -> alloc_answers) (ret : Z -> Z) :
    option ib_gid_table :=
  match fuel with
  | O => Some t
  | S fuel =>
      if n <? IB_GID_TYPE_SIZE then
        t ← (if c_true (Z.land (Z.shiftl 1 n) (roce_gid_type_mask_support t.(caps))) then
               match gid_op with
               | GID_ADD => r ← ib_cache_gid_add t g (mk_attr d 0 n 0) (a n) (ret n); Some r.1
               | GID_DEL => r ← ib_cache_gid_del t g (mk_attr d 0 n 0); Some r.1
               end
             else Some t);
        update_gids fuel t gid_op (n + 1) g d a ret
      else Some t
  end.

Definition update_gid (t : ib_gid_table) (gid_op : gid_op_type) (g : Z) (d : option Z) (a : Z -> alloc_answers) (ret : Z -> Z) : option ib_gid_table :=
  update_gids 3 t gid_op 0 g d a ret.

(** What the driver and the allocator answer for a GID of a port without RoCE:
    the error or 0, the GID, and the net device of an iWARP port. *)
Record gid_answers := { q_ret : Z; q_gid : Z; q_ndev : option Z; q_alloc : alloc_answers }.

(** One round of the loop: the state, and the error that ends it or 0, and the
    subnet prefix if the round sets it. *)
Definition config_one (t : ib_gid_table) (iwarp : bool) (i : Z) (q : gid_answers) : option (ib_gid_table * Z * option Z) :=
  if c_true q.(q_ret) then Some (t, q.(q_ret), None)
  else if iwarp && bool_decide (q.(q_ndev) = None) then Some (t, 0, None)
  else
    r ← add_modify_gid t (mk_attr (if iwarp then q.(q_ndev) else None) q.(q_gid) 0 (u16 i)) q.(q_alloc) 0;
    Some (r.1, 0, Some (Z.shiftr q.(q_gid) 64)).

Fixpoint config_loop (t : ib_gid_table) (iwarp : bool) (i : Z) (answers : list gid_answers) (prefix : Z) : option (ib_gid_table * Z * Z) :=
  match answers with
  | [] => Some (t, 0, prefix)
  | q :: answers =>
      '(t, ret, prefix') ← config_one t iwarp i q;
      let prefix := default prefix prefix' in
      if c_true ret then Some (t, ret, prefix) else config_loop t iwarp (i + 1) answers prefix
  end.

(** One answer for each index; the subnet prefix is that of [tprops]. *)
Definition config_non_roce_gid_cache (t : ib_gid_table) (query_gid iwarp : bool) (answers : list gid_answers) (prefix : Z) : option (ib_gid_table * Z * Z) :=
  if query_gid then config_loop t iwarp 0 answers prefix else Some (t, 0, prefix).

(** ** Readers *)

(** The entry found, with a reference for the caller. *)
Definition take (t : ib_gid_table) (slot : option Z) : option (ib_gid_table * (Z + Z)) :=
  e ← slot; t ← get_gid_entry t e; Some (set_users t (<[e := users_of t e + 1]> t.(users)), inr e).

Definition find_mask (d : option Z) : Z :=
  let mask := Z.lor GID_ATTR_FIND_MASK_GID GID_ATTR_FIND_MASK_GID_TYPE in
  if d then Z.lor mask GID_ATTR_FIND_MASK_NETDEV else mask.

Definition rdma_find_gid_by_port (t : ib_gid_table) (g ty : Z) (d : option Z) : option (ib_gid_table * (Z + Z)) :=
  '(local_index, _) ← find_gid t g (mk_attr d 0 ty 0) false (find_mask d) false;
  if 0 <=? local_index then slot ← arr_get t.(data_vec) local_index; take t slot else Some (t, inl (- ENOENT)).

(** The ports of a device in order; the result says which. *)
Fixpoint rdma_find_gid (ports : list ib_gid_table) (g ty : Z) (d : option Z) : option (list ib_gid_table * (Z + Z * Z)) :=
  match ports with
  | [] => Some ([], inl (- ENOENT))
  | t :: ports =>
      '(ix, _) ← find_gid t g (mk_attr d 0 ty 0) false (find_mask d) false;
      if 0 <=? ix then
        slot ← arr_get t.(data_vec) ix;
        '(t, r) ← take t slot;
        Some (t :: ports, match r with inr e => inr (0, e) | inl err => inl err end)
      else
        '(ports, r) ← rdma_find_gid ports g ty d;
        Some (t :: ports, match r with inr (p, e) => inr (p + 1, e) | inl err => inl err end)
  end.

Fixpoint filter_loop (t : ib_gid_table) (g : Z) (filter : ib_gid_attr -> bool) (slots : list (option Z)) : option (ib_gid_table * (Z + Z)) :=
  match slots with
  | [] => Some (t, inl (- ENOENT))
  | entry :: slots =>
      valid ← is_gid_entry_valid t entry;
      if negb valid then filter_loop t g filter slots
      else e ← entry; en ← t.(entries) !! e;
           if negb (g =? en.(attr).(gid)) then filter_loop t g filter slots
           else if filter en.(attr) then take t entry else filter_loop t g filter slots
  end.

Definition rdma_find_gid_by_filter (t : ib_gid_table) (g : Z) (filter : ib_gid_attr -> bool) : option (ib_gid_table * (Z + Z)) :=
  filter_loop t g filter t.(data_vec).

Definition rdma_query_gid (t : ib_gid_table) (i : Z) : option (Z + Z) :=
  if (i <? 0) || (Z.of_nat (length t.(data_vec)) <=? i) then Some (inl (- EINVAL)) else
  slot ← arr_get t.(data_vec) i;
  valid ← is_gid_entry_valid t slot;
  if negb valid then Some (inl (- ENOENT)) else e ← slot; en ← t.(entries) !! e; Some (inr en.(attr).(gid)).

Definition rdma_get_gid_attr (t : ib_gid_table) (i : Z) : option (ib_gid_table * (Z + Z)) :=
  if (i <? 0) || (Z.of_nat (length t.(data_vec)) <=? i) then Some (t, inl (- EINVAL)) else
  slot ← arr_get t.(data_vec) i;
  valid ← is_gid_entry_valid t slot;
  if negb valid then Some (t, inl (- ENODATA)) else take t slot.

Definition rdma_put_gid_attr (t : ib_gid_table) (e : Z) : option ib_gid_table :=
  t ← put_gid_entry t e; Some (set_users t (<[e := users_of t e - 1]> t.(users))).

Definition rdma_hold_gid_attr (t : ib_gid_table) (e : Z) : option ib_gid_table :=
  t ← get_gid_entry t e; Some (set_users t (<[e := users_of t e + 1]> t.(users))).

Definition rdma_is_gid_attr_valid (t : ib_gid_table) (e : Z) : option bool :=
  en ← t.(entries) !! e; slot ← arr_get t.(data_vec) en.(attr).(index); is_gid_entry_valid t slot.

Definition rdma_read_gid_attr_ndev_rcu (t : ib_gid_table) (e : Z) : option (Z + Z) :=
  valid ← rdma_is_gid_attr_valid t e;
  en ← t.(entries) !! e;
  Some (if (valid : bool) then match en.(attr).(ndev) with Some d => inr d | None => inl (- ENODEV) end else inl (- EINVAL)).

(** The GIDs of a port in the form of [rdma_query_gid_table], at most
    [max_entries] in all, of which [num] are there. *)
Fixpoint query_port_gids (t : ib_gid_table) (slots : list (option Z)) (num max_entries : Z) : option (Z + list ib_gid_attr) :=
  match slots with
  | [] => Some (inr [])
  | slot :: slots =>
      valid ← is_gid_entry_valid t slot;
      if negb valid then query_port_gids t slots num max_entries
      else if max_entries <=? num then Some (inl (- EINVAL))
      else e ← slot; en ← t.(entries) !! e;
           r ← query_port_gids t slots (num + 1) max_entries;
           Some (match r with inl err => inl err | inr l => inr (en.(attr) :: l) end)
  end.

Fixpoint rdma_query_gid_table (ports : list ib_gid_table) (num max_entries : Z) : option (Z + list ib_gid_attr) :=
  match ports with
  | [] => Some (inr [])
  | t :: ports =>
      r ← query_port_gids t t.(data_vec) num max_entries;
      match r with
      | inl err => Some (inl err)
      | inr l =>
          r ← rdma_query_gid_table ports (num + Z.of_nat (length l)) max_entries;
          Some (match r with inl err => inl err | inr l' => inr (l ++ l') end)
      end
  end.

(** ** The table itself *)

Definition alloc_gid_table (sz : nat) (c : port_caps) : ib_gid_table := mk_table ∅ (replicate sz None) 0 c ∅ ∅ [] ∅.

(** [hweight_long] of a mask of the three types. *)
Definition hweight (mask : Z) : nat := length (filter (fun i => Z.testbit mask i = true) (seqZ 0 64)).

Fixpoint reserve_loop (t : ib_gid_table) (num : nat) (i : Z) : ib_gid_table :=
  match num with
  | O => t
  | S num =>
      if i <? Z.of_nat (length t.(data_vec))
      then reserve_loop (set_default t (Z.lor t.(default_gid_indices) (Z.shiftl 1 i))) num (i + 1)
      else t
  end.

Definition gid_table_reserve_default (t : ib_gid_table) : ib_gid_table := reserve_loop t (hweight (roce_gid_type_mask_support t.(caps))) 0.

(** A port's part of [_gid_table_setup_one]. *)
Definition gid_table_setup (sz : nat) (c : port_caps) : ib_gid_table := gid_table_reserve_default (alloc_gid_table sz c).

(** Whether the table is freed: unless an entry looks leaked. *)
Fixpoint no_leak (t : ib_gid_table) (slots : list (option Z)) : option bool :=
  match slots with
  | [] => Some true
  | None :: slots => no_leak t slots
  | Some e :: slots => en ← t.(entries) !! e; r ← no_leak t slots; Some (negb (1 <? en.(kref)) && r)
  end.

Definition release_gid_table (t : ib_gid_table) : option bool := no_leak t t.(data_vec).

(** ** Steps *)

(** [Work] is the queued work of an entry, [Rcu] the callback of a net device. *)
Inductive step :=
  | Add (g : Z) (at_ : ib_gid_attr) (a : alloc_answers) (ret : Z)
  | Del (g : Z) (at_ : ib_gid_attr)
  | AddDefault (g : Z) (d ty : Z) (a : alloc_answers) (ret : Z)
  | DelDefault (d ty : Z)
  | DelAll (d : option Z)
  | Cleanup
  | Config (iwarp : bool) (i : Z) (q : gid_answers)
  | Find (g ty : Z) (d : option Z)
  | FindFilter (g : Z) (p : ib_gid_attr -> bool)
  | Get (i : Z)
  | Hold (e : Z)
  | Put (e : Z)
  | Work (e : Z)
  | Rcu (d : Z).

Definition exec (t : ib_gid_table) (s : step) : option ib_gid_table :=
  match s with
  | Add g at_ a ret => r ← ib_cache_gid_add t g at_ a ret; Some r.1
  | Del g at_ => r ← ib_cache_gid_del t g at_; Some r.1
  | AddDefault g d ty a ret => r ← __ib_cache_gid_add t g (mk_attr (Some d) 0 ty 0) default_mask true a ret; Some r.1
  | DelDefault d ty => r ← _ib_cache_gid_del t 0 (mk_attr (Some d) 0 ty 0) default_mask true; Some r.1
  | DelAll d => ib_cache_gid_del_all_netdev_gids t d
  | Cleanup => cleanup_gid_table_port t
  | Config iwarp i q => r ← config_one t iwarp i q; Some r.1.1
  | Find g ty d => r ← rdma_find_gid_by_port t g ty d; Some r.1
  | FindFilter g p => r ← rdma_find_gid_by_filter t g p; Some r.1
  | Get i => r ← rdma_get_gid_attr t i; Some r.1
  | Hold e => rdma_hold_gid_attr t e
  | Put e => rdma_put_gid_attr t e
  | Work e => free_gid_work t e
  | Rcu d => Some (put_gid_ndev t d)
  end.

Fixpoint run (t : ib_gid_table) (l : list step) : option ib_gid_table :=
  match l with [] => Some t | s :: l => t ← exec t s; run t l end.
