(* ===== verification/GidCacheSafe.v ===== *)
(** The GID cache, proved: the contract of its callers, the invariant of a table,
    and that every operation of GidCache.v keeps it.

    A writer or a reader changes one entry and the slot of its index at most
    ([change]); the invariant says of each entry how its count, its state and its
    slot go together, and of the net devices that their references are counted. *)

From S2P Require Import Prelude Counting GidCache.
#[local] Open Scope Z_scope.

Definition valid (en : ib_gid_table_entry) : bool := bool_decide (en.(state) = GID_TABLE_ENTRY_VALID).

Definition is_roce (t : ib_gid_table) : bool := rdma_protocol_roce t.(caps).

Definition slot (t : ib_gid_table) (i : Z) : option (option Z) := arr_get t.(data_vec) i.

Definition size (t : ib_gid_table) : Z := Z.of_nat (length t.(data_vec)).

(** ** The invariant *)

Definition slot_ok (t : ib_gid_table) (e : Z) (en : ib_gid_table_entry) : Prop :=
  match en.(state) with
  | GID_TABLE_ENTRY_VALID => slot t en.(attr).(index) = Some (Some e) /\ en.(ndev_storage) = en.(attr).(ndev) /\
      (is_roce t = true -> en.(attr).(ndev) <> None)
  | GID_TABLE_ENTRY_PENDING_DEL =>
      (if is_roce t then slot t en.(attr).(index) = Some (Some e) else slot t en.(attr).(index) <> Some (Some e)) /\
      en.(ndev_storage) = None /\ en.(attr).(ndev) = None
  | GID_TABLE_ENTRY_INVALID => slot t en.(attr).(index) <> Some (Some e) /\ users_of t e = 0
  end.

Record entry_ok (t : ib_gid_table) (e : Z) (en : ib_gid_table_entry) : Prop := {
  eo_index : 0 <= en.(attr).(index) < size t;
  eo_kref : en.(kref) = c_bool (valid en) + users_of t e;
  eo_users : 0 <= users_of t e;
  eo_work : en.(del_work) = true <-> en.(kref) = 0;
  eo_slot : slot_ok t e en
}.

Definition stores (d : Z) (en : ib_gid_table_entry) : bool := bool_decide (en.(ndev_storage) = Some d).

Definition waiting (l : list Z) (d : Z) : Z := Z.of_nat (count_occ Z.eq_dec l d).

(** The GID that readers find at an index. *)
Definition cached (t : ib_gid_table) (i : Z) : option Z :=
  match slot t i with
  | Some (Some e) => en ← t.(entries) !! e; if valid en then Some en.(attr).(gid) else None
  | _ => None
  end.

(** What no two valid entries of a RoCE port share. *)
Definition same_key (t : ib_gid_table) (at1 at2 : ib_gid_attr) : Prop :=
  at1.(gid_type) = at2.(gid_type) /\ at1.(ndev) = at2.(ndev) /\
  is_gid_index_default t at1.(index) = is_gid_index_default t at2.(index) /\
  (is_gid_index_default t at1.(index) = false -> at1.(gid) = at2.(gid)).

Record inv (t : ib_gid_table) : Prop := {
  i_size : size t <= 65536;
  i_entries : forall e en, t.(entries) !! e = Some en -> entry_ok t e en;
  i_slots : forall i e, slot t i = Some (Some e) ->
    exists en, t.(entries) !! e = Some en /\ en.(attr).(index) = i /\ en.(state) <> GID_TABLE_ENTRY_INVALID;
  i_users : forall e, t.(entries) !! e = None -> users_of t e = 0;
  i_refs : forall d, dev_refs_of t d = count (stores d) t.(entries) + waiting t.(rcu) d;
  i_hw : rdma_cap_roce_gid_table t.(caps) = true -> forall i, t.(hw_gids) !! i = cached t i;
  i_unique : is_roce t = true -> forall e1 en1 e2 en2,
    t.(entries) !! e1 = Some en1 -> t.(entries) !! e2 = Some en2 -> valid en1 = true -> valid en2 = true ->
    same_key t en1.(attr) en2.(attr) -> e1 = e2
}.

(** ** Changes *)

Definition own_slot (e : Z) (s : option (option Z)) : Prop := s = Some None \/ s = Some (Some e).

(** [t'] differs from [t] in the entry [e], whose index is [ix], and that slot. *)
Record change (t t' : ib_gid_table) (e ix : Z) : Prop := {
  ch_caps : t'.(caps) = t.(caps);
  ch_default : t'.(default_gid_indices) = t.(default_gid_indices);
  ch_size : size t' = size t;
  ch_entries : forall e', e' <> e -> t'.(entries) !! e' = t.(entries) !! e';
  ch_users : forall e', e' <> e -> users_of t' e' = users_of t e';
  ch_slots : forall i, i <> ix -> slot t' i = slot t i;
  ch_slot : slot t' ix = slot t ix \/ own_slot e (slot t ix) /\ own_slot e (slot t' ix);
  ch_hw : forall i, i <> ix -> t'.(hw_gids) !! i = t.(hw_gids) !! i;
  ch_index : forall en, t.(entries) !! e = Some en -> en.(attr).(index) = ix;
  ch_index' : forall en, t'.(entries) !! e = Some en -> en.(attr).(index) = ix
}.

Lemma slot_other t t' e ix i e' : change t t' e ix -> e' <> e -> slot t' i = Some (Some e') <-> slot t i = Some (Some e').
Proof.
  intros Hc Hne. destruct (decide (i = ix)) as [->|Hi]; [|by rewrite (ch_slots _ _ _ _ Hc)].
  destruct (ch_slot _ _ _ _ Hc) as [->|[[E|E] [E'|E']]]; [done|..]; rewrite E, E'; naive_solver.
Qed.

Lemma is_roce_change t t' e ix : change t t' e ix -> is_roce t' = is_roce t.
Proof. intros Hc. unfold is_roce. by rewrite (ch_caps _ _ _ _ Hc). Qed.

Lemma slot_ok_other t t' e ix e' en : change t t' e ix -> e' <> e -> slot_ok t e' en -> slot_ok t' e' en.
Proof.
  intros Hc Hne. unfold slot_ok. rewrite (is_roce_change _ _ _ _ Hc), (ch_users _ _ _ _ Hc) by done.
  pose proof (slot_other t t' e ix en.(attr).(index) e' Hc Hne) as Hs.
  destruct en.(state), (is_roce t); rewrite ?Hs; done.
Qed.

Lemma entry_ok_other t t' e ix e' en : change t t' e ix -> e' <> e -> entry_ok t e' en -> entry_ok t' e' en.
Proof.
  intros Hc Hne [Hi Hk Hu Hw Hs]. constructor; rewrite ?(ch_size _ _ _ _ Hc), ?(ch_users _ _ _ _ Hc) by done; try done.
  by eapply slot_ok_other.
Qed.

Lemma default_change t t' e ix i : change t t' e ix -> is_gid_index_default t' i = is_gid_index_default t i.
Proof. intros Hc. unfold is_gid_index_default. by rewrite (ch_default _ _ _ _ Hc). Qed.

Lemma same_key_change t t' e ix a b : change t t' e ix -> same_key t' a b <-> same_key t a b.
Proof. intros Hc. unfold same_key. by rewrite !(default_change _ _ _ _ _ Hc). Qed.

Lemma cached_other t t' e ix i : change t t' e ix -> inv t -> i <> ix -> cached t' i = cached t i.
Proof.
  intros Hc Hi Hne. unfold cached. rewrite (ch_slots _ _ _ _ Hc) by done. destruct (slot t i) as [[e'|]|] eqn:E; [|done..].
  destruct (i_slots _ Hi _ _ E) as (en & Hen & Hix & _).
  assert (e' <> e) by (intros ->; by rewrite (ch_index _ _ _ _ Hc _ Hen) in Hix). by rewrite (ch_entries _ _ _ _ Hc).
Qed.

Lemma refs_change t t' e : (forall e', e' <> e -> t'.(entries) !! e' = t.(entries) !! e') -> inv t ->
  (forall d, dev_refs_of t' d - dev_refs_of t d =
     c_bool (from_option (stores d) false (t'.(entries) !! e)) - c_bool (from_option (stores d) false (t.(entries) !! e)) +
     (waiting t'.(rcu) d - waiting t.(rcu) d)) ->
  forall d, dev_refs_of t' d = count (stores d) t'.(entries) + waiting t'.(rcu) d.
Proof.
  intros He Hi Hd d. specialize (Hd d). pose proof (i_refs _ Hi d). pose proof (count_diff (stores d) _ _ e He). lia.
Qed.

(** The entry is as valid as before, or no other valid entry has its key. *)
Definition key_ok (t t' : ib_gid_table) (e : Z) : Prop :=
  is_roce t = true -> forall en', t'.(entries) !! e = Some en' -> valid en' = true ->
    (exists en, t.(entries) !! e = Some en /\ valid en = true /\ en.(attr) = en'.(attr)) \/
    forall e2 en2, e2 <> e -> t.(entries) !! e2 = Some en2 -> valid en2 = true -> ~ same_key t en'.(attr) en2.(attr).

Lemma same_key_sym t a b : same_key t a b -> same_key t b a.
Proof. unfold same_key. intros (-> & -> & E & Hg). split_and!; [done..|]. rewrite <- E. intros H. by rewrite (Hg H). Qed.

Lemma unique_change t t' e ix : change t t' e ix -> inv t -> key_ok t t' e -> is_roce t' = true -> forall e1 en1 e2 en2,
    t'.(entries) !! e1 = Some en1 -> t'.(entries) !! e2 = Some en2 -> valid en1 = true -> valid en2 = true ->
    same_key t' en1.(attr) en2.(attr) -> e1 = e2.
Proof.
  intros Hc Hi Hk Hr e1 en1 e2 en2 H1 H2 Hv1 Hv2 Hs. rewrite (is_roce_change _ _ _ _ Hc) in Hr.
  rewrite (same_key_change _ _ _ _ _ _ Hc) in Hs. specialize (Hk Hr).
  destruct (decide (e1 = e)) as [->|N1], (decide (e2 = e)) as [->|N2]; [done|..].
  - rewrite (ch_entries _ _ _ _ Hc) in H2 by done. destruct (Hk _ H1 Hv1) as [(en & He & Hv & Ea)|Hno]; [|by destruct (Hno _ _ N2 H2 Hv2)].
    rewrite <- Ea in Hs. by eapply (i_unique _ Hi Hr e en e2 en2).
  - rewrite (ch_entries _ _ _ _ Hc) in H1 by done.
    destruct (Hk _ H2 Hv2) as [(en & He & Hv & Ea)|Hno]; [|by destruct (Hno _ _ N1 H1 Hv1); apply same_key_sym].
    rewrite <- Ea in Hs. by eapply (i_unique _ Hi Hr e1 en1 e en).
  - rewrite (ch_entries _ _ _ _ Hc) in H1 by done. rewrite (ch_entries _ _ _ _ Hc) in H2 by done. by eapply (i_unique _ Hi Hr e1 en1 e2 en2).
Qed.

Lemma gid_inv_change t t' e ix : change t t' e ix -> inv t ->
  (forall en, t'.(entries) !! e = Some en -> entry_ok t' e en) ->
  (slot t' ix = Some (Some e) -> exists en, t'.(entries) !! e = Some en /\ en.(state) <> GID_TABLE_ENTRY_INVALID) ->
  (t'.(entries) !! e = None -> users_of t' e = 0) ->
  (forall d, dev_refs_of t' d = count (stores d) t'.(entries) + waiting t'.(rcu) d) ->
  (rdma_cap_roce_gid_table t'.(caps) = true -> t'.(hw_gids) !! ix = cached t' ix) ->
  key_ok t t' e -> inv t'.
Proof.
  intros Hc Hi He Hs Hu Hd Hh Hk. constructor.
  - rewrite (ch_size _ _ _ _ Hc). apply Hi.
  - intros e' en Hen. destruct (decide (e' = e)) as [->|Hne]; [by apply He|].
    rewrite (ch_entries _ _ _ _ Hc) in Hen by done. eapply entry_ok_other; [done..|]. by apply Hi.
  - intros i e' Hs'. destruct (decide (e' = e)) as [->|Hne].
    + destruct (decide (i = ix)) as [->|Hix].
      * destruct (Hs Hs') as (en & Hen & Hst). exists en. split_and!; [done| |done]. by apply (ch_index' _ _ _ _ Hc).
      * rewrite (ch_slots _ _ _ _ Hc) in Hs' by done. destruct (i_slots _ Hi _ _ Hs') as (en & Hen & <- & _).
        destruct Hix. by apply (ch_index _ _ _ _ Hc).
    + apply (slot_other _ _ _ _ _ _ Hc Hne) in Hs'. rewrite (ch_entries _ _ _ _ Hc) by done. by apply Hi.
  - intros e' Hn. destruct (decide (e' = e)) as [->|Hne]; [by apply Hu|].
    rewrite (ch_entries _ _ _ _ Hc) in Hn by done. rewrite (ch_users _ _ _ _ Hc) by done. by apply Hi.
  - done.
  - intros Hcap i. destruct (decide (i = ix)) as [->|Hne]; [by apply Hh|].
    rewrite (ch_hw _ _ _ _ Hc), (cached_other _ _ _ _ _ Hc Hi) by done. apply Hi. by rewrite <- (ch_caps _ _ _ _ Hc).
  - by eapply unique_change.
Qed.

(** ** Slots *)

Lemma slot_Some t i : 0 <= i < size t -> exists s, slot t i = Some s.
Proof. intros Hi. by apply arr_get_Some. Qed.

Lemma slot_inv t i s : slot t i = Some s -> 0 <= i < size t.
Proof. apply arr_get_inv. Qed.

Definition put_slot (t : ib_gid_table) (i : Z) (s : option Z) : ib_gid_table := set_vec t (<[Z.to_nat i := s]> t.(data_vec)).

Lemma put_slot_eq t i s : 0 <= i < size t -> arr_set t.(data_vec) i s = Some (put_slot t i s).(data_vec).
Proof. intros Hi. by apply arr_set_Some. Qed.

Lemma slot_put t i s j : 0 <= i < size t -> slot (put_slot t i s) j = if decide (i = j) then Some s else slot t j.
Proof. intros Hi. unfold slot. apply (arr_get_set t.(data_vec) i s). by apply put_slot_eq. Qed.

Lemma size_put t i s : size (put_slot t i s) = size t.
Proof. unfold size. cbn. by rewrite length_insert. Qed.

(** ** Freeing an entry *)

Definition freed (t : ib_gid_table) (e : Z) (en : ib_gid_table_entry) : ib_gid_table :=
  let t' := set_entries t (delete e t.(entries)) in
  let t' := match en.(ndev_storage) with Some d => call_rcu t' d | None => t' end in
  if decide (slot t en.(attr).(index) = Some (Some e)) then put_slot t' en.(attr).(index) None else t'.

Lemma free_eq t e en : t.(entries) !! e = Some en -> 0 <= en.(attr).(index) < size t ->
  free_gid_entry_locked t e = Some (freed t e en).
Proof.
  intros He Hi. unfold free_gid_entry_locked, freed, mbind, option_bind. rewrite He.
  destruct (slot_Some _ _ Hi) as (s & Hs). fold (slot t en.(attr).(index)). rewrite Hs.
  rewrite (put_slot_eq t _ None) by done.
  destruct (decide (s = Some e)) as [->|Hne].
  - rewrite decide_True by done. by destruct en.(ndev_storage).
  - rewrite decide_False by congruence. by destruct en.(ndev_storage).
Qed.

Definition cleared (t : ib_gid_table) (ix e : Z) : option (option Z) :=
  if decide (slot t ix = Some (Some e)) then Some None else slot t ix.

Lemma freed_fields t e en : 0 <= en.(attr).(index) < size t ->
  let t' := freed t e en in
  t'.(caps) = t.(caps) /\ t'.(default_gid_indices) = t.(default_gid_indices) /\ t'.(users) = t.(users) /\ t'.(hw_gids) = t.(hw_gids) /\
  t'.(dev_refs) = t.(dev_refs) /\ t'.(entries) = delete e t.(entries) /\ size t' = size t /\
  t'.(rcu) = option_list en.(ndev_storage) ++ t.(rcu) /\
  forall j, slot t' j = if decide (j = en.(attr).(index)) then cleared t j e else slot t j.
Proof.
  intros Hi. unfold freed, cleared. destruct (decide (slot t _ = _)) as [E|E].
  - split_and!; try (by destruct en.(ndev_storage)). { rewrite size_put. by destruct en.(ndev_storage). }
    intros j. rewrite slot_put by by destruct en.(ndev_storage). destruct (decide (j = _)) as [->|Hj].
    + by rewrite !decide_True.
    + rewrite decide_False by congruence. by destruct en.(ndev_storage).
  - split_and!; try (by destruct en.(ndev_storage)).
    intros j. destruct (decide (j = _)) as [->|Hj]; [rewrite decide_False by done|]; by destruct en.(ndev_storage).
Qed.

Lemma cleared_own t ix e : cleared t ix e = slot t ix \/ own_slot e (slot t ix) /\ own_slot e (cleared t ix e).
Proof. unfold cleared, own_slot. case_decide; [right; naive_solver|by left]. Qed.

Lemma cleared_not t ix e : cleared t ix e <> Some (Some e).
Proof. unfold cleared. by case_decide. Qed.

Lemma waiting_app l1 l2 d : waiting (l1 ++ l2) d = waiting l1 d + waiting l2 d.
Proof. unfold waiting. rewrite count_occ_app. lia. Qed.

Lemma waiting_option o d : waiting (option_list o) d = c_bool (bool_decide (o = Some d)).
Proof.
  unfold waiting. destruct o as [x|]; cbn; [|done]. destruct (Z.eq_dec x d) as [->|Hne]; [by rewrite bool_decide_true|].
  by rewrite bool_decide_false by congruence.
Qed.

Lemma freed_change t e en : inv t -> t.(entries) !! e = Some en -> change t (freed t e en) e en.(attr).(index).
Proof.
  intros Hi He. pose proof (i_entries _ Hi _ _ He) as [Hix _ _ _ _].
  destruct (freed_fields t e en Hix) as (F1 & F2 & F3 & F4 & F5 & F6 & F7 & F8 & F9). constructor; try done.
  - intros e' Hne. rewrite F6. by apply lookup_delete_ne.
  - intros e' _. unfold users_of. by rewrite F3.
  - intros i Hne. rewrite F9. by rewrite decide_False.
  - rewrite F9, decide_True by done. apply cleared_own.
  - intros i _. by rewrite F4.
  - intros en' He'. by simplify_eq.
  - intros en'. rewrite F6, lookup_delete_eq. done.
Qed.

Lemma cached_invalid t e en : inv t -> t.(entries) !! e = Some en -> valid en = false -> slot t en.(attr).(index) = Some (Some e) ->
  cached t en.(attr).(index) = None.
Proof. intros Hi He Hv Hs. unfold cached, mbind, option_bind. by rewrite Hs, He, Hv. Qed.

Lemma freed_keeps t e en : inv t -> t.(entries) !! e = Some en -> valid en = false -> users_of t e = 0 -> inv (freed t e en).
Proof.
  intros Hi He Hv Hu. pose proof (i_entries _ Hi _ _ He) as Hok. pose proof (eo_index _ _ _ Hok) as Hix.
  destruct (freed_fields t e en Hix) as (F1 & F2 & F3 & F4 & F5 & F6 & F7 & F8 & F9).
  assert (Hn : (freed t e en).(entries) !! e = None) by (rewrite F6; apply lookup_delete_eq).
  assert (Hsl : slot (freed t e en) en.(attr).(index) = cleared t en.(attr).(index) e) by (by rewrite F9, decide_True).
  eapply gid_inv_change; [by apply freed_change|done|..].
  - intros en'. by rewrite Hn.
  - intros E. rewrite Hsl in E. by destruct (cleared_not _ _ _ E).
  - intros _. unfold users_of. by rewrite F3.
  - eapply (refs_change t _ e); [by apply (ch_entries _ _ _ _ (freed_change _ _ _ Hi He))|done|].
    intros d. unfold dev_refs_of. rewrite F5, Hn, He, F8, waiting_app, waiting_option. unfold stores. cbn. lia.
  - rewrite F1, F4. intros Hcap. rewrite (i_hw _ Hi Hcap).
    unfold cached at 2. rewrite Hsl. unfold cleared. destruct (decide (slot t _ = _)) as [E|E]; [by apply (cached_invalid t e en)|].
    unfold cached, mbind, option_bind. destruct (slot t _) as [[e'|]|] eqn:Es; [|done..]. rewrite F6, lookup_delete_ne by congruence. done.
  - intros _ en'. by rewrite Hn.
Qed.

(** ** Deleting a GID *)

Definition pending (en : ib_gid_table_entry) : ib_gid_table_entry :=
  mk_entry (en.(kref) - 1) (mk_attr None en.(attr).(gid) en.(attr).(gid_type) en.(attr).(index)) None GID_TABLE_ENTRY_PENDING_DEL en.(del_work).

Definition deleted (t : ib_gid_table) (e : Z) (en : ib_gid_table_entry) : ib_gid_table :=
  mk_table (if users_of t e =? 0 then delete e t.(entries) else <[e := pending en]> t.(entries))
    (if is_roce t && negb (users_of t e =? 0) then t.(data_vec) else <[Z.to_nat en.(attr).(index) := None]> t.(data_vec))
    t.(default_gid_indices) t.(caps)
    (if rdma_cap_roce_gid_table t.(caps) then delete en.(attr).(index) t.(hw_gids) else t.(hw_gids))
    t.(users) (option_list en.(ndev_storage) ++ t.(rcu)) t.(dev_refs).

(** The part of [del_gid] before the reference is put. *)
Definition unlinked (t : ib_gid_table) (e : Z) (en : ib_gid_table_entry) : ib_gid_table :=
  mk_table (<[e := mk_entry en.(kref) (mk_attr None en.(attr).(gid) en.(attr).(gid_type) en.(attr).(index)) None GID_TABLE_ENTRY_PENDING_DEL en.(del_work)]> t.(entries))
    (if is_roce t then t.(data_vec) else <[Z.to_nat en.(attr).(index) := None]> t.(data_vec))
    t.(default_gid_indices) t.(caps)
    (if rdma_cap_roce_gid_table t.(caps) then delete en.(attr).(index) t.(hw_gids) else t.(hw_gids))
    t.(users) (option_list en.(ndev_storage) ++ t.(rcu)) t.(dev_refs).

Lemma del_gid_unlinked t e en : t.(entries) !! e = Some en -> slot t en.(attr).(index) = Some (Some e) -> en.(ndev_storage) = en.(attr).(ndev) ->
  del_gid t en.(attr).(index) = put_gid_entry_locked (unlinked t e en) e.
Proof.
  intros He Hs Hn. unfold del_gid, mbind, option_bind. fold (slot t en.(attr).(index)). rewrite Hs, He. cbn [data_vec put_entry set_entries caps].
  pose proof (slot_inv _ _ _ Hs) as Hix. rewrite (put_slot_eq t _ None) by done. fold (is_roce t). unfold unlinked.
  destruct en as [k [n g ty ix] s st w]. cbn in *. subst n.
  destruct (is_roce t), (rdma_cap_roce_gid_table t.(caps)) eqn:Ec, s as [d|]; cbn; rewrite ?Ec; cbn; unfold call_rcu, put_entry, set_entries, set_rcu; cbn;
    rewrite ?insert_insert_eq; reflexivity.
Qed.

Lemma del_gid_eq t e en : t.(entries) !! e = Some en -> slot t en.(attr).(index) = Some (Some e) -> en.(ndev_storage) = en.(attr).(ndev) ->
  en.(kref) = 1 + users_of t e -> del_gid t en.(attr).(index) = Some (deleted t e en).
Proof.
  intros He Hs Hn Hk. rewrite (del_gid_unlinked t e en He Hs Hn). unfold put_gid_entry_locked, mbind, option_bind.
  pose proof (slot_inv _ _ _ Hs) as Hix.
  assert (E0 : (unlinked t e en).(entries) !! e = Some (mk_entry en.(kref) (mk_attr None en.(attr).(gid) en.(attr).(gid_type) en.(attr).(index)) None GID_TABLE_ENTRY_PENDING_DEL en.(del_work)))
    by apply lookup_insert_eq.
  rewrite E0. cbn [kref]. replace (en.(kref) - 1 =? 0) with (users_of t e =? 0) by (rewrite Hk; destruct (Z.eqb_spec (users_of t e) 0); lia).
  unfold deleted, put_entry, set_entries, with_kref, pending. cbn. rewrite insert_insert_eq. destruct (Z.eqb_spec (users_of t e) 0) as [Hu|Hu].
  - rewrite andb_false_r. erewrite free_eq; [|cbn; apply lookup_insert_eq|cbn; unfold size; cbn; destruct (is_roce t); [|rewrite length_insert]; exact Hix].
    f_equal. unfold freed. cbn. rewrite delete_insert_eq. unfold slot at 1. cbn. destruct (is_roce t).
    + rewrite decide_True by exact Hs. reflexivity.
    + rewrite decide_False; [reflexivity|]. unfold unlinked. cbn. fold (put_slot t en.(attr).(index) None).
      change (slot (put_slot t en.(attr).(index) None) en.(attr).(index) <> Some (Some e)). rewrite slot_put by done. by rewrite decide_True.
  - by rewrite andb_true_r.
Qed.

Lemma valid_spec en : valid en = true <-> en.(state) = GID_TABLE_ENTRY_VALID.
Proof. unfold valid. by rewrite bool_decide_eq_true. Qed.

Lemma valid_facts t e en : inv t -> t.(entries) !! e = Some en -> valid en = true ->
  slot t en.(attr).(index) = Some (Some e) /\ en.(ndev_storage) = en.(attr).(ndev) /\ en.(kref) = 1 + users_of t e /\ 0 <= users_of t e /\
  en.(del_work) = false /\ (is_roce t = true -> en.(attr).(ndev) <> None).
Proof.
  intros Hi He Hv. destruct (i_entries _ Hi _ _ He) as [Hix Hk Hu Hw Hs]. rewrite Hv in Hk. cbn in Hk.
  apply valid_spec in Hv. unfold slot_ok in Hs. rewrite Hv in Hs. destruct Hs as (? & ? & ?). split_and!; [done..| |done].
  destruct en.(del_work); [|done]. destruct Hw as [Hw _]. specialize (Hw eq_refl). lia.
Qed.

Lemma deleted_entry t e en : (deleted t e en).(entries) !! e = if users_of t e =? 0 then None else Some (pending en).
Proof. unfold deleted. cbn. destruct (users_of t e =? 0); [apply lookup_delete_eq|apply lookup_insert_eq]. Qed.

Lemma deleted_slot t e en j : 0 <= en.(attr).(index) < size t ->
  slot (deleted t e en) j = if decide (j = en.(attr).(index)) then (if is_roce t && negb (users_of t e =? 0) then slot t j else Some None) else slot t j.
Proof.
  intros Hi. unfold deleted. destruct (is_roce t && _).
  - change (slot t j = if decide (j = en.(attr).(index)) then slot t j else slot t j). by case_decide.
  - change (slot (put_slot t en.(attr).(index) None) j = if decide (j = en.(attr).(index)) then Some None else slot t j).
    rewrite slot_put by done. destruct (decide (j = _)) as [->|]; [by rewrite decide_True|by rewrite decide_False by congruence].
Qed.

Lemma deleted_change t e en : inv t -> t.(entries) !! e = Some en -> valid en = true -> change t (deleted t e en) e en.(attr).(index).
Proof.
  intros Hi He Hv. pose proof (valid_facts t e en Hi He Hv) as (Hs & Hn & Hk & Hu & Hw & Hr). pose proof (slot_inv _ _ _ Hs) as Hix. constructor; try done.
  - unfold size, deleted. cbn. case_match; by rewrite ?length_insert.
  - intros e' Hne. unfold deleted. cbn. case_match; [by apply lookup_delete_ne|by apply lookup_insert_ne].
  - intros i Hne. rewrite deleted_slot by done. by rewrite decide_False.
  - rewrite deleted_slot, decide_True by done. destruct (is_roce t && _); [by left|right; unfold own_slot; naive_solver].
  - intros i Hne. unfold deleted. cbn. case_match; [by apply lookup_delete_ne|done].
  - intros en' He'. by simplify_eq.
  - intros en'. rewrite deleted_entry. case_match; [done|]. by intros [= <-].
Qed.

Lemma pending_ok t e en : inv t -> t.(entries) !! e = Some en -> valid en = true -> users_of t e <> 0 -> entry_ok (deleted t e en) e (pending en).
Proof.
  intros Hi He Hv Hne. pose proof (valid_facts t e en Hi He Hv) as (Hs & Hn & Hk & Hu & Hw & Hr). pose proof (slot_inv _ _ _ Hs) as Hix.
  pose proof (deleted_change t e en Hi He Hv) as Hc. constructor; cbn.
  - by rewrite (ch_size _ _ _ _ Hc).
  - change (valid (pending en)) with false. change (users_of (deleted t e en) e) with (users_of t e). cbn. lia.
  - exact Hu.
  - rewrite Hw. split; [done|lia].
  - unfold slot_ok. cbn. rewrite (is_roce_change _ _ _ _ Hc), deleted_slot, decide_True by done.
    rewrite (proj2 (Z.eqb_neq _ 0)) by done. by destruct (is_roce t).
Qed.

Lemma stores_pending d en : stores d (pending en) = false.
Proof. done. Qed.

Lemma deleted_keeps t e en : inv t -> t.(entries) !! e = Some en -> valid en = true -> inv (deleted t e en).
Proof.
  intros Hi He Hv. pose proof (valid_facts t e en Hi He Hv) as (Hs & Hn & Hk & Hu & Hw & Hr). pose proof (slot_inv _ _ _ Hs) as Hix.
  pose proof (deleted_change t e en Hi He Hv) as Hc. pose proof (deleted_entry t e en) as Ed. eapply gid_inv_change; [done|done|..].
  - intros en'. rewrite Ed. destruct (Z.eqb_spec (users_of t e) 0); [done|]. intros [= <-]. by apply pending_ok.
  - rewrite deleted_slot, decide_True, Ed by done. destruct (Z.eqb_spec (users_of t e) 0); cbn; [by rewrite andb_false_r|].
    intros _. exists (pending en). done.
  - rewrite Ed. destruct (Z.eqb_spec (users_of t e) 0); [done|done].
  - eapply (refs_change t _ e); [by apply (ch_entries _ _ _ _ Hc)|done|]. intros d. rewrite He, Ed.
    change (dev_refs_of (deleted t e en) d) with (dev_refs_of t d). change ((deleted t e en).(rcu)) with (option_list en.(ndev_storage) ++ t.(rcu)).
    rewrite waiting_app, waiting_option. cbn [from_option]. unfold stores at 2.
    destruct (users_of t e =? 0); cbn [from_option]; [|rewrite stores_pending]; cbn; lia.
  - intros Hcap. change (rdma_cap_roce_gid_table t.(caps) = true) in Hcap. unfold deleted at 1. cbn. rewrite Hcap, lookup_delete_eq.
    unfold cached. rewrite deleted_slot, decide_True by done. destruct (is_roce t && negb (users_of t e =? 0)) eqn:E; [|done].
    rewrite Hs. unfold mbind, option_bind. rewrite Ed. apply andb_prop in E as [_ E]. apply negb_true_iff in E. by rewrite E.
  - intros _ en'. rewrite Ed. case_match; [done|]. by intros [= <-].
Qed.

Lemma del_gid_valid t e en : inv t -> t.(entries) !! e = Some en -> valid en = true ->
  del_gid t en.(attr).(index) = Some (deleted t e en) /\ inv (deleted t e en).
Proof.
  intros Hi He Hv. pose proof (valid_facts t e en Hi He Hv) as (Hs & Hn & Hk & _). split; [by apply del_gid_eq|by apply deleted_keeps].
Qed.

(** ** Searching *)

Definition live_slot (t : ib_gid_table) (s : option Z) : Prop := forall e, s = Some e -> is_Some (t.(entries) !! e).

Lemma slots_live t : inv t -> Forall (live_slot t) t.(data_vec).
Proof.
  intros Hi. apply Forall_lookup_2. intros i s Hs e ->. destruct (i_slots _ Hi (Z.of_nat i) e) as (en & Hen & _); [|by eexists].
  unfold slot, arr_get. rewrite decide_True by lia. by rewrite Nat2Z.id.
Qed.

(** The attributes of a slot whose entry is valid. *)
Definition valid_attr (t : ib_gid_table) (s : option Z) : option ib_gid_attr :=
  e ← s; en ← t.(entries) !! e; if valid en then Some en.(attr) else None.

Lemma is_valid_eq t s : live_slot t s -> is_gid_entry_valid t s = Some (is_some (valid_attr t s)).
Proof.
  intros Hl. destruct s as [e|]; [|done]. destruct (Hl e eq_refl) as [en He]. unfold is_gid_entry_valid, valid_attr, mbind, option_bind. rewrite He.
  change (bool_decide (en.(state) = GID_TABLE_ENTRY_VALID)) with (valid en). by destruct (valid en).
Qed.

Lemma valid_attr_Some t i s at_ : inv t -> slot t i = Some s -> valid_attr t s = Some at_ ->
  exists e en, s = Some e /\ t.(entries) !! e = Some en /\ valid en = true /\ en.(attr) = at_ /\ at_.(index) = i.
Proof.
  intros Hi Hs. unfold valid_attr, mbind, option_bind. destruct s as [e|]; [|done]. destruct (t.(entries) !! e) as [en|] eqn:He; [|done].
  destruct (valid en) eqn:Hv; [|done]. intros [= <-]. exists e, en. split_and!; try done.
  destruct (i_slots _ Hi _ _ Hs) as (en' & He' & Hix & _). by simplify_eq.
Qed.

(** The first index from [i] on whose slot satisfies [P], or -1. *)
Fixpoint first (P : Z -> option Z -> bool) (slots : list (option Z)) (i : Z) : Z :=
  match slots with
  | [] => -1
  | s :: slots => if P i s then i else first P slots (i + 1)
  end.

Definition matching (t : ib_gid_table) (p : Z -> ib_gid_attr -> bool) (i : Z) (s : option Z) : bool :=
  match valid_attr t s with Some at_ => p i at_ | None => false end.

Definition free_slot (t : ib_gid_table) (default_gid : bool) (i : Z) (s : option Z) : bool :=
  is_gid_entry_free s && Bool.eqb default_gid (is_gid_index_default t i).

Lemma find_loop_step t g val dg mask pe s slots i found empty : live_slot t s ->
  find_loop t g val dg mask pe (s :: slots) i found empty =
  if (found <? 0) || (empty <? 0) then
    find_loop t g val dg mask pe slots (i + 1)
      (if 0 <=? found then found else if matching t (gid_matches t g val dg mask) i s then i else found)
      (if pe && (empty <? 0) && free_slot t dg i s then i else empty)
  else Some (found, empty).
Proof.
  intros Hl. cbn [find_loop]. destruct ((found <? 0) || (empty <? 0)); [|done]. rewrite (is_valid_eq _ _ Hl). unfold mbind, option_bind, free_slot.
  rewrite andb_assoc. unfold matching, valid_attr, mbind, option_bind. destruct s as [e|]; cbn [is_some negb]; [|by destruct (0 <=? found)].
  destruct (Hl e eq_refl) as [en Hen]. rewrite Hen. destruct (valid en); cbn [is_some negb]; by destruct (0 <=? found).
Qed.

Lemma find_loop_first t g val dg mask pe slots : Forall (live_slot t) slots -> forall i found empty, 0 <= i -> -1 <= found -> -1 <= empty ->
  find_loop t g val dg mask pe slots i found empty =
  Some (if 0 <=? found then found else first (matching t (gid_matches t g val dg mask)) slots i,
        if pe && (empty <? 0) then first (free_slot t dg) slots i else empty).
Proof.
  induction 1 as [|s slots Hl _ IH]; intros i found empty Hi Hf He.
  - cbn [find_loop first]. f_equal. f_equal; [destruct (Z.leb_spec 0 found); lia|]. destruct pe; [|done]. cbn. destruct (Z.ltb_spec empty 0); lia.
  - rewrite find_loop_step by done. cbn [first]. set (m := matching _ _ _ _). set (f := free_slot _ _ _ _).
    destruct ((found <? 0) || (empty <? 0)) eqn:Ee; [|apply orb_false_elim in Ee as [E1 E2]].
    + rewrite IH; [|lia|repeat case_match; lia|repeat case_match; lia]. f_equal. f_equal.
      * destruct (Z.leb_spec 0 found) as [Hp|Hp]; [by rewrite (proj2 (Z.leb_le 0 found))|].
        destruct m; [by rewrite (proj2 (Z.leb_le 0 i))|by rewrite (proj2 (Z.leb_gt 0 found))].
      * destruct pe; cbn [andb]; [|done]. destruct (Z.ltb_spec empty 0) as [Hn|Hn]; cbn [andb]; [|by rewrite (proj2 (Z.ltb_ge empty 0))].
        destruct f; [by rewrite (proj2 (Z.ltb_ge i 0))|by rewrite (proj2 (Z.ltb_lt empty 0))].
    + rewrite E2, andb_false_r. apply Z.ltb_ge in E1. by rewrite (proj2 (Z.leb_le 0 found)).
Qed.

Lemma find_gid_first t g val dg mask pe : inv t -> find_gid t g val dg mask pe =
  Some (first (matching t (gid_matches t g val dg mask)) t.(data_vec) 0, if (pe : bool) then first (free_slot t dg) t.(data_vec) 0 else 0).
Proof. intros Hi. unfold find_gid. rewrite find_loop_first; [by destruct pe|by apply slots_live|lia..|by destruct pe]. Qed.

Lemma first_spec P slots i : 0 <= i ->
  (exists s, i <= first P slots i < i + Z.of_nat (length slots) /\ slots !! Z.to_nat (first P slots i - i) = Some s /\ P (first P slots i) s = true /\
    forall j s', i <= j < first P slots i -> slots !! Z.to_nat (j - i) = Some s' -> P j s' = false) \/
  first P slots i = -1 /\ forall j s', i <= j -> slots !! Z.to_nat (j - i) = Some s' -> P j s' = false.
Proof.
  revert i. induction slots as [|s slots IH]; intros i Hi; cbn [first length]; [by right|]. destruct (P i s) eqn:E.
  - left. exists s. rewrite Z.sub_diag. split_and!; [lia..|done|done|lia].
  - assert (Hrest : forall j s', i + 1 <= j -> (s :: slots) !! Z.to_nat (j - i) = Some s' -> slots !! Z.to_nat (j - (i + 1)) = Some s').
    { intros j s' Hj. replace (Z.to_nat (j - i)) with (S (Z.to_nat (j - (i + 1)))) by lia. done. }
    destruct (IH (i + 1) ltac:(lia)) as [(s' & Hb & Hs & HP & Hno)|[-> Hno]].
    + left. exists s'. split_and!; [lia..| |done|].
      * replace (Z.to_nat (_ - i)) with (S (Z.to_nat (first P slots (i + 1) - (i + 1)))) by lia. done.
      * intros j s'' Hj Hs''. destruct (decide (j = i)) as [->|Hne]; [rewrite Z.sub_diag in Hs''; by simplify_eq/=|].
        apply (Hno j); [lia|apply Hrest; [lia|done]].
    + right. split; [done|]. intros j s'' Hj Hs''. destruct (decide (j = i)) as [->|Hne]; [rewrite Z.sub_diag in Hs''; by simplify_eq/=|].
      apply (Hno j); [lia|apply Hrest; [lia|done]].
Qed.

(** What a search over the slots of a table answers. *)
Lemma first_slot P t :
  (exists s, slot t (first P t.(data_vec) 0) = Some s /\ 0 <= first P t.(data_vec) 0 /\ P (first P t.(data_vec) 0) s = true /\
    forall j s', j < first P t.(data_vec) 0 -> slot t j = Some s' -> P j s' = false) \/
  first P t.(data_vec) 0 = -1 /\ forall j s', slot t j = Some s' -> P j s' = false.
Proof.
  assert (Hsl : forall j s', slot t j = Some s' <-> 0 <= j /\ t.(data_vec) !! Z.to_nat (j - 0) = Some s').
  { intros j s'. unfold slot, arr_get. rewrite Z.sub_0_r. case_decide; naive_solver. }
  destruct (first_spec P t.(data_vec) 0 ltac:(lia)) as [(s & Hb & Hs & HP & Hno)|[-> Hno]].
  - left. exists s. split_and!; [by apply Hsl; split; [lia|]|lia|done|]. intros j s' Hj Hs'. apply Hsl in Hs' as [? ?]. by apply (Hno j s').
  - right. split; [done|]. intros j s' Hs'. apply Hsl in Hs' as [? ?]. by apply (Hno j s').
Qed.

(** ** Adding a GID *)

(** The allocator gives memory that is not in use. *)
Definition fresh (t : ib_gid_table) (a : alloc_answers) : Prop := forall e, a.(a_entry) = Some e -> t.(entries) !! e = None.

Definition held_ndev (t : ib_gid_table) (d : option Z) : gmap Z Z :=
  match d with Some d => (dev_hold t d).(dev_refs) | None => t.(dev_refs) end.

Definition added (t : ib_gid_table) (at_ : ib_gid_attr) (e : Z) : ib_gid_table :=
  mk_table (<[e := mk_entry 1 at_ at_.(ndev) GID_TABLE_ENTRY_VALID false]> t.(entries)) (<[Z.to_nat at_.(index) := Some e]> t.(data_vec))
    t.(default_gid_indices) t.(caps) (if rdma_cap_roce_gid_table t.(caps) then <[at_.(index) := at_.(gid)]> t.(hw_gids) else t.(hw_gids))
    t.(users) t.(rcu) (held_ndev t at_.(ndev)).

(** The driver refused: the entry waits for its work. *)
Definition refused (t : ib_gid_table) (at_ : ib_gid_attr) (e : Z) : ib_gid_table :=
  mk_table (<[e := mk_entry 0 at_ at_.(ndev) GID_TABLE_ENTRY_INVALID true]> t.(entries)) t.(data_vec)
    t.(default_gid_indices) t.(caps) t.(hw_gids) t.(users) t.(rcu) (held_ndev t at_.(ndev)).

Definition is_none {A} (o : option A) : bool := negb (is_some o).

Definition add_outcome (t : ib_gid_table) (at_ : ib_gid_attr) (a : alloc_answers) (ret : Z) : ib_gid_table * Z :=
  if at_.(gid) =? 0 then (t, 0) else
  match a.(a_entry) with
  | None => (t, - ENOMEM)
  | Some e =>
      if is_some at_.(ndev) && negb a.(a_storage) then (t, - ENOMEM)
      else if is_roce t && is_none at_.(ndev) then (refused t at_ e, - EINVAL)
      else if rdma_cap_roce_gid_table t.(caps) && c_true ret then (refused t at_ e, ret)
      else (added t at_ e, 0)
  end.

(** The table with the new entry, before it is registered. *)
Definition with_new (t : ib_gid_table) (at_ : ib_gid_attr) (e : Z) : ib_gid_table :=
  mk_table (<[e := mk_entry 1 at_ at_.(ndev) GID_TABLE_ENTRY_INVALID false]> t.(entries)) t.(data_vec)
    t.(default_gid_indices) t.(caps) t.(hw_gids) t.(users) t.(rcu) (held_ndev t at_.(ndev)).

Lemma alloc_eq t at_ a : alloc_gid_entry t at_ a =
  match a.(a_entry) with
  | Some e => if is_some at_.(ndev) && negb a.(a_storage) then (t, None) else (with_new t at_ e, Some e)
  | None => (t, None)
  end.
Proof.
  unfold alloc_gid_entry. destruct a.(a_entry) as [e|]; [|done]. destruct at_ as [[d|] g ty ix]; cbn; [|done]. by destruct a.(a_storage).
Qed.

Lemma roce_cap c : rdma_protocol_roce c = false -> rdma_cap_roce_gid_table c = false.
Proof. intros Hr. unfold rdma_cap_roce_gid_table. by rewrite Hr. Qed.

Lemma store_new t at_ e hw : 0 <= at_.(index) < size t ->
  store_gid_entry (set_hw_gids (with_new t at_ e) hw) e =
  Some (mk_table (added t at_ e).(entries) (added t at_ e).(data_vec) t.(default_gid_indices) t.(caps) hw t.(users) t.(rcu) (held_ndev t at_.(ndev))).
Proof.
  intros Hix. unfold store_gid_entry, mbind, option_bind. cbn. rewrite lookup_insert_eq. cbn. rewrite arr_set_Some by exact Hix.
  unfold set_vec, put_entry, set_entries, with_state. cbn. by rewrite insert_insert_eq.
Qed.

Lemma put_new t at_ e : put_gid_entry (with_new t at_ e) e = Some (refused t at_ e).
Proof.
  unfold put_gid_entry, schedule_free_gid, mbind, option_bind. cbn. rewrite lookup_insert_eq. cbn.
  unfold put_entry, set_entries, with_kref, with_work. cbn. rewrite lookup_insert_eq. cbn. by rewrite !insert_insert_eq.
Qed.

(** From a slot that is free. *)
Lemma add_modify_free t at_ a ret : slot t at_.(index) = Some None ->
  add_modify_gid t at_ a ret = Some (add_outcome t at_ a ret).
Proof.
  intros Hs. pose proof (slot_inv _ _ _ Hs) as Hix. unfold add_modify_gid, add_outcome, mbind, option_bind. fold (slot t at_.(index)). rewrite Hs.
  cbn [is_gid_entry_valid]. unfold rdma_is_zero_gid. destruct (at_.(gid) =? 0); [done|]. rewrite alloc_eq.
  destruct a.(a_entry) as [e|]; [|done]. destruct (is_some at_.(ndev) && negb a.(a_storage)); [done|].
  change ((with_new t at_ e).(caps)) with t.(caps). fold (is_roce t). unfold is_none.
  pose proof (store_new t at_ e t.(hw_gids) Hix) as E1. pose proof (store_new t at_ e (<[at_.(index) := at_.(gid)]> t.(hw_gids)) Hix) as E2.
  change (set_hw_gids (with_new t at_ e) t.(hw_gids)) with (with_new t at_ e) in E1.
  destruct (is_roce t) eqn:Er; cbn [andb].
  - unfold add_roce_gid, mbind, option_bind. cbn [entries with_new]. rewrite lookup_insert_eq. cbn [attr].
    destruct at_.(ndev) as [d|] eqn:En; cbn [is_some negb].
    + change ((with_new t at_ e).(caps)) with t.(caps). unfold added. destruct (rdma_cap_roce_gid_table t.(caps)) eqn:Ec; cbn [andb].
      * destruct (c_true ret) eqn:Ert; [by rewrite Ert, put_new|]. change (c_true 0) with false. cbn iota. change ((with_new t at_ e).(hw_gids)) with t.(hw_gids).
        rewrite E2. cbn. by rewrite ?En.
      * change (c_true 0) with false. cbn iota. rewrite E1. cbn. by rewrite ?En.
    + change (c_true (- EINVAL)) with true. cbn iota. rewrite put_new. cbn. by rewrite ?En.
  - change (c_true 0) with false. cbn iota. rewrite E1. unfold added. rewrite (roce_cap _ Er). reflexivity.
Qed.

Definition no_key (t : ib_gid_table) (at_ : ib_gid_attr) : Prop :=
  is_roce t = true -> forall e en, t.(entries) !! e = Some en -> valid en = true -> ~ same_key t at_ en.(attr).

Lemma held_ndev_refs t d d' : default 0 (held_ndev t d !! d') = dev_refs_of t d' + c_bool (bool_decide (d = Some d')).
Proof.
  unfold held_ndev. destruct d as [x|]; cbn.
  - destruct (decide (x = d')) as [->|Hne]; [by rewrite lookup_insert_eq, bool_decide_true|].
    rewrite lookup_insert_ne, bool_decide_false by congruence. cbn. fold (dev_refs_of t d'). lia.
  - rewrite bool_decide_false by done. unfold dev_refs_of. cbn. lia.
Qed.

Lemma new_refs t t' e at_ en' : inv t -> t.(entries) !! e = None -> t'.(entries) = <[e := en']> t.(entries) -> en'.(ndev_storage) = at_.(ndev) ->
  t'.(rcu) = t.(rcu) -> t'.(dev_refs) = held_ndev t at_.(ndev) ->
  forall d, dev_refs_of t' d = count (stores d) t'.(entries) + waiting t'.(rcu) d.
Proof.
  intros Hi Hn He Hs Hr Hd d. unfold dev_refs_of. rewrite Hd, held_ndev_refs, He, Hr, count_new, (i_refs _ Hi) by done.
  unfold stores at 2. rewrite Hs. lia.
Qed.

Lemma fresh_slot t e i : inv t -> t.(entries) !! e = None -> slot t i <> Some (Some e).
Proof. intros Hi Hn Hs. destruct (i_slots _ Hi _ _ Hs) as (en & He & _). congruence. Qed.

Lemma refused_change t at_ e : inv t -> t.(entries) !! e = None -> slot t at_.(index) = Some None -> change t (refused t at_ e) e at_.(index).
Proof.
  intros Hi Hn Hs. constructor; try done.
  - intros e' Hne. by apply lookup_insert_ne.
  - by left.
  - by rewrite Hn.
  - intros en. cbn. rewrite lookup_insert_eq. by intros [= <-].
Qed.

Lemma refused_keeps t at_ e : inv t -> t.(entries) !! e = None -> slot t at_.(index) = Some None -> inv (refused t at_ e).
Proof.
  intros Hi Hn Hs. pose proof (refused_change t at_ e Hi Hn Hs) as Hc. eapply gid_inv_change; [done|done|..].
  - intros en. cbn. rewrite lookup_insert_eq. intros [= <-]. pose proof (i_users _ Hi _ Hn) as Hu. constructor; cbn.
    + by apply (slot_inv t _ None).
    + change (users_of (refused t at_ e) e) with (users_of t e). rewrite Hu. done.
    + change (users_of (refused t at_ e) e) with (users_of t e). lia.
    + done.
    + split; [exact (fresh_slot t e _ Hi Hn)|exact Hu].
  - intros E. by destruct (fresh_slot t e at_.(index) Hi Hn).
  - cbn. by rewrite lookup_insert_eq.
  - by eapply (new_refs t _ e at_).
  - cbn. intros Hcap. rewrite (i_hw _ Hi Hcap). unfold cached. change (slot (refused t at_ e) at_.(index)) with (slot t at_.(index)). by rewrite Hs.
  - intros _ en. cbn. rewrite lookup_insert_eq. by intros [= <-].
Qed.

Lemma added_slot t at_ e j : 0 <= at_.(index) < size t -> slot (added t at_ e) j = if decide (at_.(index) = j) then Some (Some e) else slot t j.
Proof. intros Hi. by apply (slot_put t at_.(index) (Some e) j). Qed.

Lemma added_change t at_ e : inv t -> t.(entries) !! e = None -> slot t at_.(index) = Some None -> change t (added t at_ e) e at_.(index).
Proof.
  intros Hi Hn Hs. pose proof (slot_inv _ _ _ Hs) as Hix. constructor; try done.
  - unfold size. cbn. by rewrite length_insert.
  - intros e' Hne. by apply lookup_insert_ne.
  - intros i Hne. by rewrite added_slot, decide_False by done.
  - right. rewrite added_slot, decide_True by done. unfold own_slot. naive_solver.
  - intros i Hne. cbn. case_match; [by apply lookup_insert_ne|done].
  - by rewrite Hn.
  - intros en. cbn. rewrite lookup_insert_eq. by intros [= <-].
Qed.

Lemma added_keeps t at_ e : inv t -> t.(entries) !! e = None -> slot t at_.(index) = Some None ->
  (is_roce t = true -> at_.(ndev) <> None) -> no_key t at_ -> inv (added t at_ e).
Proof.
  intros Hi Hn Hs Hd Hk. pose proof (slot_inv _ _ _ Hs) as Hix. pose proof (added_change t at_ e Hi Hn Hs) as Hc.
  assert (He : (added t at_ e).(entries) !! e = Some (mk_entry 1 at_ at_.(ndev) GID_TABLE_ENTRY_VALID false)) by apply lookup_insert_eq.
  eapply gid_inv_change; [done|done|..].
  - intros en. rewrite He. intros [= <-]. pose proof (i_users _ Hi _ Hn) as Hu. constructor; cbn.
    + by rewrite (ch_size _ _ _ _ Hc).
    + change (users_of (added t at_ e) e) with (users_of t e). rewrite Hu. done.
    + change (users_of (added t at_ e) e) with (users_of t e). lia.
    + done.
    + unfold slot_ok. cbn. by rewrite added_slot, decide_True.
  - intros _. eexists. split; [done|]. done.
  - by rewrite He.
  - by eapply (new_refs t _ e at_).
  - intros Hcap. change (rdma_cap_roce_gid_table t.(caps) = true) in Hcap. unfold added at 1. cbn. rewrite Hcap, lookup_insert_eq.
    unfold cached. by rewrite added_slot, decide_True; unfold mbind, option_bind; rewrite ?He.
  - intros Hr en. rewrite He. intros [= <-] _. right. intros e2 en2 _ He2 Hv2. cbn. by apply (Hk Hr e2 en2).
Qed.

(** Adding to a free slot. *)
Lemma add_outcome_keeps t at_ a ret : inv t -> fresh t a -> slot t at_.(index) = Some None -> no_key t at_ -> inv (add_outcome t at_ a ret).1.
Proof.
  intros Hi Hf Hs Hk. unfold add_outcome. destruct (at_.(gid) =? 0); [done|]. destruct a.(a_entry) as [e|] eqn:Ea; [|done]. specialize (Hf _ Ea).
  destruct (is_some _ && _); [done|]. destruct (is_roce t && is_none at_.(ndev)) eqn:E; [by apply refused_keeps|].
  destruct (_ && c_true ret); [by apply refused_keeps|]. apply added_keeps; [done..| |done].
  intros Hr Hno. rewrite Hr in E. unfold is_none in E. rewrite Hno in E. done.
Qed.

(** A port without RoCE: a slot is empty or its entry is valid. *)
Lemma plain_slot t i s : inv t -> is_roce t = false -> slot t i = Some s ->
  s = None \/ exists e en, s = Some e /\ t.(entries) !! e = Some en /\ valid en = true /\ en.(attr).(index) = i.
Proof.
  intros Hi Hr Hs. destruct s as [e|]; [right|by left]. destruct (i_slots _ Hi _ _ Hs) as (en & He & Hix & Hst). exists e, en. split_and!; try done.
  apply valid_spec. pose proof (eo_slot _ _ _ (i_entries _ Hi _ _ He)) as Hok. unfold slot_ok in Hok. rewrite Hr, Hix in Hok.
  destruct en.(state); [done|done|]. by destruct Hok.
Qed.

Lemma no_key_plain t at_ : is_roce t = false -> no_key t at_.
Proof. unfold no_key. by intros ->. Qed.

Lemma fresh_deleted t e en a : t.(entries) !! e = Some en -> fresh t a -> fresh (deleted t e en) a.
Proof.
  intros He Hf e' Ha. specialize (Hf e' Ha). assert (e' <> e) by congruence. unfold deleted. cbn.
  case_match; [by rewrite lookup_delete_ne|by rewrite lookup_insert_ne].
Qed.

Lemma add_modify_valid t e en a ret at_ : inv t -> t.(entries) !! e = Some en -> valid en = true -> en.(attr).(index) = at_.(index) ->
  is_roce t = false -> add_modify_gid t at_ a ret = Some (add_outcome (deleted t e en) at_ a ret).
Proof.
  intros Hi He Hv Hix Hr. pose proof (valid_facts t e en Hi He Hv) as (Hs & _). destruct (del_gid_valid t e en Hi He Hv) as [Hd _].
  pose proof (slot_inv _ _ _ Hs) as Hb.
  assert (Hs' : slot (deleted t e en) at_.(index) = Some None) by (rewrite deleted_slot, Hix, decide_True, Hr by done; done).
  rewrite <- (add_modify_free _ _ a ret Hs'). rewrite Hix in Hs, Hd. unfold add_modify_gid at 1, mbind, option_bind. fold (slot t at_.(index)). rewrite Hs.
  unfold is_gid_entry_valid at 1, mbind, option_bind. rewrite He. fold (valid en). rewrite Hv, Hd. unfold add_modify_gid, mbind, option_bind.
  fold (slot (deleted t e en) at_.(index)). rewrite Hs'. cbn [is_gid_entry_valid]. reflexivity.
Qed.

Lemma add_modify_keeps t at_ a ret : inv t -> is_roce t = false -> 0 <= at_.(index) < size t -> fresh t a ->
  exists r, add_modify_gid t at_ a ret = Some r /\ inv r.1.
Proof.
  intros Hi Hr Hix Hf. destruct (slot_Some _ _ Hix) as (s & Hs).
  destruct (plain_slot _ _ _ Hi Hr Hs) as [->|(e & en & -> & He & Hv & Hen)].
  - rewrite add_modify_free by done. eexists. split; [done|]. apply add_outcome_keeps; [done..|by apply no_key_plain].
  - rewrite (add_modify_valid t e en) by done. eexists. split; [done|]. pose proof (deleted_change t e en Hi He Hv) as Hc.
    apply add_outcome_keeps; [by apply deleted_keeps|by apply fresh_deleted| |apply no_key_plain; by rewrite (is_roce_change _ _ _ _ Hc)].
    rewrite deleted_slot, Hen, decide_True, Hr by (rewrite ?Hen; done). done.
Qed.

(** ** Adding by search *)

Lemma first_none t p e en : inv t -> first (matching t p) t.(data_vec) 0 < 0 -> t.(entries) !! e = Some en -> valid en = true ->
  p en.(attr).(index) en.(attr) = false.
Proof.
  intros Hi Hn He Hv. pose proof (valid_facts t e en Hi He Hv) as (Hs & _). destruct (first_slot (matching t p) t) as [(s & _ & ? & _)|[_ Hno]]; [lia|].
  specialize (Hno _ _ Hs). unfold matching, valid_attr, mbind, option_bind in Hno. by rewrite He, Hv in Hno.
Qed.

Lemma first_free t dg : 0 <= first (free_slot t dg) t.(data_vec) 0 ->
  slot t (first (free_slot t dg) t.(data_vec) 0) = Some None /\ is_gid_index_default t (first (free_slot t dg) t.(data_vec) 0) = dg.
Proof.
  destruct (first_slot (free_slot t dg) t) as [(s & Hs & _ & HP & _)|[-> _]]; [|lia]. intros _. unfold free_slot in HP.
  apply andb_prop in HP as [H1 H2]. apply eqb_prop in H2. destruct s; [done|]. by split.
Qed.

Definition add_mask : Z := Z.lor (Z.lor GID_ATTR_FIND_MASK_GID GID_ATTR_FIND_MASK_GID_TYPE) GID_ATTR_FIND_MASK_NETDEV.

(** The masks of the two ways to add make the searches exact. *)
Definition exact_mask (mask : Z) (dg : bool) : Prop := (mask = add_mask /\ dg = false) \/ (mask = default_mask /\ dg = true).

Lemma exact_key t g val mask dg at_ i : exact_mask mask dg -> is_gid_index_default t i = dg ->
  gid_matches t g val dg mask at_.(index) at_ = false -> ~ same_key t (mk_attr val.(ndev) g val.(gid_type) i) at_.
Proof.
  unfold same_key. cbn. intros [[-> ->]|[-> ->]] Hd Hm (Ht & Hn & He & Hg); rewrite Hd in *.
  - specialize (Hg eq_refl). unfold gid_matches in Hm. rewrite Ht, Hn, Hg, !Z.eqb_refl, bool_decide_true in Hm by done. done.
  - unfold gid_matches in Hm. rewrite Ht, Hn, <- He, !Z.eqb_refl, bool_decide_true in Hm by done. done.
Qed.

Lemma u16_size t i : inv t -> 0 <= i < size t -> u16 i = i.
Proof. intros Hi Hb. pose proof (i_size _ Hi). apply wrap_small. unfold fits. lia. Qed.

(** What [__ib_cache_gid_add] does. *)
Definition gid_add_outcome (t : ib_gid_table) (g : Z) (at_ : ib_gid_attr) (mask : Z) (dg : bool) (a : alloc_answers) (ret : Z) : ib_gid_table * Z :=
  if g =? 0 then (t, - EINVAL)
  else if 0 <=? first (matching t (gid_matches t g at_ dg mask)) t.(data_vec) 0 then (t, 0)
  else if first (free_slot t dg) t.(data_vec) 0 <? 0 then (t, - ENOSPC)
  else add_outcome t (mk_attr at_.(ndev) g at_.(gid_type) (first (free_slot t dg) t.(data_vec) 0)) a ret.

Lemma gid_add_eq t g at_ mask dg a ret : inv t -> __ib_cache_gid_add t g at_ mask dg a ret = Some (gid_add_outcome t g at_ mask dg a ret).
Proof.
  intros Hi. unfold __ib_cache_gid_add, gid_add_outcome, rdma_is_zero_gid. destruct (g =? 0); [done|]. unfold mbind, option_bind.
  rewrite find_gid_first by done. cbn iota beta. destruct (0 <=? _); [done|]. destruct (Z.ltb_spec (first (free_slot t dg) t.(data_vec) 0) 0) as [|Hf]; [done|].
  destruct (first_free t dg Hf) as [Hs _]. rewrite (u16_size t) by (try done; by eapply slot_inv). by rewrite add_modify_free.
Qed.

Lemma gid_add_keeps t g at_ mask dg a ret : inv t -> fresh t a -> exact_mask mask dg -> inv (gid_add_outcome t g at_ mask dg a ret).1.
Proof.
  intros Hi Hf Hm. unfold gid_add_outcome. destruct (g =? 0); [done|]. destruct (Z.leb_spec 0 (first (matching t (gid_matches t g at_ dg mask)) t.(data_vec) 0)) as [|Hn]; [done|].
  destruct (Z.ltb_spec (first (free_slot t dg) t.(data_vec) 0) 0) as [|Hp]; [done|]. destruct (first_free t dg Hp) as [Hs Hd].
  apply add_outcome_keeps; [done..|]. intros _ e en He Hv. eapply exact_key; [done|done|]. by eapply first_none.
Qed.
