(* ===== verification/GidCacheRun.v ===== *)
(** The GID cache: every step of its contract returns and keeps the invariant. *)

From S2P Require Import Prelude Counting GidCache GidCacheSafe.
#[local] Open Scope Z_scope.

(** ** Deleting *)

Lemma valid_slot t i s at_ : inv t -> slot t i = Some s -> valid_attr t s = Some at_ ->
  exists e en, s = Some e /\ t.(entries) !! e = Some en /\ valid en = true /\ en.(attr) = at_ /\ en.(attr).(index) = i /\
    del_gid t i = Some (deleted t e en) /\ inv (deleted t e en).
Proof.
  intros Hi Hs Ha. destruct (valid_attr_Some t i s at_ Hi Hs Ha) as (e & en & -> & He & Hv & <- & Hix). exists e, en.
  destruct (del_gid_valid t e en Hi He Hv) as [Hd Hk]. by rewrite Hix in Hd.
Qed.

Lemma slot_live t i s : inv t -> slot t i = Some s -> live_slot t s.
Proof. intros Hi Hs e ->. destruct (i_slots _ Hi _ _ Hs) as (en & He & _). by eexists. Qed.

Lemma first_matching t p : inv t ->
  (exists s at_, slot t (first (matching t p) t.(data_vec) 0) = Some s /\ 0 <= first (matching t p) t.(data_vec) 0 /\ valid_attr t s = Some at_ /\
     p (first (matching t p) t.(data_vec) 0) at_ = true) \/ first (matching t p) t.(data_vec) 0 = -1.
Proof.
  intros Hi. destruct (first_slot (matching t p) t) as [(s & Hs & H0 & HP & _)|[-> _]]; [left|by right].
  unfold matching in HP. destruct (valid_attr t s) as [at_|] eqn:E; [|done]. by exists s, at_.
Qed.

Lemma gid_del_keeps t g at_ mask dg : inv t -> exists r, _ib_cache_gid_del t g at_ mask dg = Some r /\ inv r.1.
Proof.
  intros Hi. unfold _ib_cache_gid_del, mbind, option_bind. rewrite find_gid_first by done. cbn iota beta.
  destruct (first_matching t (gid_matches t g at_ dg mask) Hi) as [(s & at' & Hs & H0 & Ha & _)| ->]; [|by eexists].
  rewrite (proj2 (Z.ltb_ge _ 0)) by done. destruct (valid_slot _ _ _ _ Hi Hs Ha) as (e & en & _ & _ & _ & _ & _ & -> & Hk). by eexists.
Qed.

Lemma del_gids_keeps p ixs : forall t, inv t -> Forall (fun i => 0 <= i < size t) ixs ->
  exists t', del_gids t p ixs = Some t' /\ inv t' /\ size t' = size t.
Proof.
  induction ixs as [|i ixs IH]; intros t Hi Hb; cbn [del_gids]; [by exists t|]. apply Forall_cons_iff in Hb as [Hix Hb]. unfold mbind, option_bind.
  destruct (slot_Some _ _ Hix) as (s & Hs). pose proof (slot_live _ _ _ Hi Hs) as Hl. fold (slot t i). rewrite Hs, (is_valid_eq t s Hl).
  destruct (valid_attr t s) as [at_|] eqn:Ha; cbn [is_some]; [|by apply IH].
  destruct (valid_slot _ _ _ _ Hi Hs Ha) as (e & en & -> & He & Hv & Hat & Hen & Hd & Hk). rewrite He. destruct (p en.(attr)); [|by apply IH].
  rewrite Hd. assert (Hsz : size (deleted t e en) = size t) by (by eapply ch_size, deleted_change). destruct (IH (deleted t e en) Hk) as (t' & Ht' & Hi' & Hs').
  - by rewrite Hsz.
  - exists t'. split_and!; [done..|]. by rewrite Hs', Hsz.
Qed.

Lemma indices_bound t : Forall (fun i => 0 <= i < size t) (indices t).
Proof. apply Forall_forall. intros i Hi%list_elem_of_In. apply elem_of_seqZ in Hi. unfold size. lia. Qed.

(** ** References *)

Definition counted (t : ib_gid_table) (e : Z) (en : ib_gid_table_entry) (n : Z) : ib_gid_table :=
  mk_table (<[e := mk_entry (en.(kref) + n) en.(attr) en.(ndev_storage) en.(state) (bool_decide (en.(kref) + n = 0))]> t.(entries))
    t.(data_vec) t.(default_gid_indices) t.(caps) t.(hw_gids) (<[e := users_of t e + n]> t.(users)) t.(rcu) t.(dev_refs).

Lemma counted_change t e en n : t.(entries) !! e = Some en -> change t (counted t e en n) e en.(attr).(index).
Proof.
  intros He. constructor; try done.
  - intros e' Hne. by apply lookup_insert_ne.
  - intros e' Hne. unfold users_of. cbn. by rewrite lookup_insert_ne.
  - by left.
  - intros en' He'. by simplify_eq.
  - intros en'. cbn. rewrite lookup_insert_eq. by intros [= <-].
Qed.

Lemma counted_users t e en n : users_of (counted t e en n) e = users_of t e + n.
Proof. unfold users_of at 1. cbn. by rewrite lookup_insert_eq. Qed.

(** Users take and put references to entries that are not freed. *)
Lemma counted_keeps t e en n : inv t -> t.(entries) !! e = Some en -> 0 <= users_of t e + n -> 0 < en.(kref) -> inv (counted t e en n).
Proof.
  intros Hi He Hn Hp. pose proof (counted_change t e en n He) as Hc. pose proof (counted_users t e en n) as Hu.
  destruct (i_entries _ Hi _ _ He) as [Hix Hk Hu0 Hw Hs].
  assert (E : (counted t e en n).(entries) !! e = Some (mk_entry (en.(kref) + n) en.(attr) en.(ndev_storage) en.(state) (bool_decide (en.(kref) + n = 0))))
    by apply lookup_insert_eq.
  eapply gid_inv_change; [done|done|..].
  - intros en'. rewrite E. intros [= <-]. constructor; cbn; rewrite ?Hu; try done.
    + change (valid (mk_entry _ _ _ en.(state) _)) with (valid en). lia.
    + by rewrite bool_decide_eq_true.
    + unfold slot_ok in *. cbn. rewrite Hu. change (slot (counted t e en n)) with (slot t). change (is_roce (counted t e en n)) with (is_roce t).
      unfold valid in Hk. destruct en.(state); [rewrite bool_decide_false in Hk by done; cbn in Hk|done|done]. destruct Hs as [_ Hs]. lia.
  - intros Hsl. eexists. split; [done|]. cbn. change (slot t en.(attr).(index) = Some (Some e)) in Hsl.
    destruct (i_slots _ Hi _ _ Hsl) as (en' & He' & _ & Hst). by simplify_eq.
  - by rewrite E.
  - eapply (refs_change t _ e); [by apply (ch_entries _ _ _ _ Hc)|done|]. intros d. rewrite E, He. cbn. change (dev_refs_of (counted t e en n) d) with (dev_refs_of t d).
    unfold stores. cbn. lia.
  - intros Hcap. change (t.(hw_gids) !! en.(attr).(index) = cached (counted t e en n) en.(attr).(index)). rewrite (i_hw _ Hi Hcap).
    unfold cached. change (slot (counted t e en n)) with (slot t). destruct (slot t en.(attr).(index)) as [[e'|]|]; [|done..]. unfold mbind, option_bind.
    destruct (decide (e' = e)) as [->|Hne]; [rewrite E, He; done|]. by rewrite (ch_entries _ _ _ _ Hc).
  - intros _ en'. rewrite E. intros [= <-] Hv. left. by exists en.
Qed.

Lemma held_exists t e : inv t -> 0 < users_of t e -> exists en, t.(entries) !! e = Some en /\ 0 < en.(kref) /\ en.(del_work) = false.
Proof.
  intros Hi Hu. destruct (t.(entries) !! e) as [en|] eqn:He; [|by rewrite (i_users _ Hi _ He) in Hu]. exists en.
  destruct (i_entries _ Hi _ _ He) as [_ Hk _ Hw _]. assert (0 <= c_bool (valid en)) by (by destruct (valid en)). split_and!; [done|lia|].
  destruct en.(del_work); [|done]. destruct Hw as [Hw _]. specialize (Hw eq_refl). lia.
Qed.

Lemma take_eq t e en : t.(entries) !! e = Some en -> en.(del_work) = false -> 0 < en.(kref) -> take t (Some e) = Some (counted t e en 1, inr e).
Proof.
  intros He Hw Hk. unfold take, get_gid_entry, mbind, option_bind. rewrite He. unfold counted, set_users, put_entry, set_entries, with_kref, users_of. cbn.
  rewrite bool_decide_false by lia. by rewrite Hw.
Qed.

Lemma hold_eq t e en : t.(entries) !! e = Some en -> en.(del_work) = false -> 0 < en.(kref) -> rdma_hold_gid_attr t e = Some (counted t e en 1).
Proof.
  intros He Hw Hk. unfold rdma_hold_gid_attr, get_gid_entry, mbind, option_bind. rewrite He. unfold counted, set_users, put_entry, set_entries, with_kref, users_of. cbn.
  rewrite bool_decide_false by lia. by rewrite Hw.
Qed.

Lemma put_eq t e en : t.(entries) !! e = Some en -> en.(del_work) = false -> rdma_put_gid_attr t e = Some (counted t e en (-1)).
Proof.
  intros He Hw. unfold rdma_put_gid_attr, put_gid_entry, schedule_free_gid, mbind, option_bind. rewrite He.
  unfold counted, set_users, put_entry, set_entries, with_kref, with_work, users_of. cbn. replace (en.(kref) + -1) with (en.(kref) - 1) by lia.
  destruct (Z.eqb_spec (en.(kref) - 1) 0) as [E|E]; cbn.
  - rewrite lookup_insert_eq. cbn. rewrite insert_insert_eq, bool_decide_true by done. done.
  - rewrite bool_decide_false by done. by rewrite Hw.
Qed.

(** ** Readers *)

Lemma take_valid t i s at_ : inv t -> slot t i = Some s -> valid_attr t s = Some at_ ->
  exists e en, s = Some e /\ t.(entries) !! e = Some en /\ en.(attr) = at_ /\ take t s = Some (counted t e en 1, inr e) /\ inv (counted t e en 1).
Proof.
  intros Hi Hs Ha. destruct (valid_attr_Some t i s at_ Hi Hs Ha) as (e & en & -> & He & Hv & Hat & _). exists e, en.
  pose proof (valid_facts t e en Hi He Hv) as (_ & _ & Hk & Hu & Hw & _). split_and!; [done..| |]; [apply take_eq|apply counted_keeps]; (done || lia).
Qed.

Lemma find_by_port_keeps t g ty d : inv t -> exists r, rdma_find_gid_by_port t g ty d = Some r /\ inv r.1.
Proof.
  intros Hi. unfold rdma_find_gid_by_port, mbind, option_bind. rewrite find_gid_first by done. cbn iota beta.
  destruct (first_matching t (gid_matches t g (mk_attr d 0 ty 0) false (find_mask d)) Hi) as [(s & at' & Hs & H0 & Ha & _)| ->]; [|by eexists].
  rewrite (proj2 (Z.leb_le 0 _)) by done. unfold slot in Hs. rewrite Hs. destruct (take_valid _ _ _ _ Hi Hs Ha) as (e & en & _ & _ & _ & -> & Hk). by eexists.
Qed.

Lemma filter_loop_keeps t g p slots : inv t -> Forall (fun s => exists i, slot t i = Some s) slots ->
  exists r, filter_loop t g p slots = Some r /\ inv r.1.
Proof.
  intros Hi Hb. induction Hb as [|s slots (i & Hs) _ IH]; cbn [filter_loop]; [by eexists|]. unfold mbind, option_bind in *.
  rewrite (is_valid_eq _ _ (slot_live _ _ _ Hi Hs)). destruct (valid_attr t s) as [at_|] eqn:Ha; cbn [is_some negb]; [|done].
  destruct (take_valid _ _ _ _ Hi Hs Ha) as (e & en & -> & He & _ & Ht & Hk). rewrite He. destruct (negb _); [done|]. destruct (p en.(attr)); [|done].
  by eexists.
Qed.

Lemma vec_slots t : Forall (fun s => exists i, slot t i = Some s) t.(data_vec).
Proof.
  apply Forall_lookup_2. intros i s Hs. exists (Z.of_nat i). unfold slot, arr_get. rewrite decide_True by lia. by rewrite Nat2Z.id.
Qed.

Lemma get_attr_keeps t i : inv t -> exists r, rdma_get_gid_attr t i = Some r /\ inv r.1.
Proof.
  intros Hi. unfold rdma_get_gid_attr. destruct ((i <? 0) || _) eqn:E; [by eexists|]. bool_arith. unfold mbind, option_bind.
  destruct (slot_Some t i) as (s & Hs); [unfold size; lia|]. pose proof (slot_live _ _ _ Hi Hs) as Hl. fold (slot t i). rewrite Hs, (is_valid_eq t s Hl).
  destruct (valid_attr t s) as [at_|] eqn:Ha; cbn [is_some negb]; [|by eexists].
  destruct (take_valid _ _ _ _ Hi Hs Ha) as (e & en & _ & _ & _ & -> & Hk). by eexists.
Qed.

(** ** Callbacks *)

Lemma waiting_pos l d : d ∈ l -> 0 < waiting l d.
Proof. intros Hd%list_elem_of_In. unfold waiting. apply (count_occ_In Z.eq_dec) in Hd. lia. Qed.

Lemma waiting_remove l d d' : d ∈ l -> waiting (remove_one d l) d' = waiting l d' - c_bool (bool_decide (d = d')).
Proof.
  unfold waiting. induction l as [|x l IH]; intros Hd; [by apply elem_of_nil in Hd|]. cbn [remove_one].
  destruct (Z.eqb_spec x d) as [->|Hne].
  - destruct (decide (d = d')) as [->|Hn]; [rewrite count_occ_cons_eq, bool_decide_true by done|rewrite count_occ_cons_neq, bool_decide_false by done]; cbn [c_bool]; lia.
  - apply list.elem_of_cons in Hd as [->|Hd]; [done|]. specialize (IH Hd). cbn. destruct (Z.eq_dec x d'); lia.
Qed.

Lemma rcu_keeps t d : inv t -> d ∈ t.(rcu) -> inv (put_gid_ndev t d).
Proof.
  intros [I1 I2 I3 I4 I5 I6 I7] Hd. constructor; try done.
  - intros e en He. destruct (I2 e en He) as [A B C D E]. by constructor.
  - intros d'. unfold put_gid_ndev, dev_put, set_dev_refs, dev_refs_of. cbn [rcu dev_refs entries set_rcu]. rewrite waiting_remove by done. specialize (I5 d').
    destruct (decide (d = d')) as [->|Hne]; [rewrite lookup_insert_eq, bool_decide_true by done|rewrite lookup_insert_ne, bool_decide_false by done];
      cbn [default from_option id c_bool]; unfold dev_refs_of in *; cbn; lia.
Qed.

(** ** Steps *)

(** What callers, the allocator and the work queue promise. *)
Definition enabled (t : ib_gid_table) (s : step) : Prop :=
  match s with
  | Add _ _ a _ | AddDefault _ _ _ a _ => fresh t a
  | Config _ i q => is_roce t = false /\ 0 <= i < size t /\ fresh t q.(q_alloc)
  | Hold e | Put e => 0 < users_of t e
  | Work e => exists en, t.(entries) !! e = Some en /\ en.(del_work) = true
  | Rcu d => d ∈ t.(rcu)
  | _ => True
  end.

Lemma work_freed t e en : inv t -> t.(entries) !! e = Some en -> en.(del_work) = true -> valid en = false /\ users_of t e = 0.
Proof.
  intros Hi He Hw. destruct (i_entries _ Hi _ _ He) as [_ Hk Hu [H0 _] _]. specialize (H0 Hw). destruct (valid en); cbn in Hk; [lia|]. split; [done|lia].
Qed.

Lemma config_keeps t iwarp i q : inv t -> is_roce t = false -> 0 <= i < size t -> fresh t q.(q_alloc) ->
  exists r, config_one t iwarp i q = Some r /\ inv r.1.1.
Proof.
  intros Hi Hr Hix Hf. unfold config_one. destruct (c_true _); [by eexists|]. destruct (iwarp && _); [by eexists|]. unfold mbind, option_bind.
  destruct (add_modify_keeps t (mk_attr (if iwarp then q.(q_ndev) else None) q.(q_gid) 0 (u16 i)) q.(q_alloc) 0 Hi Hr) as (r & -> & Hk); [|done|by eexists].
  cbn. by rewrite (u16_size t).
Qed.

Lemma exec_keeps t s : inv t -> enabled t s -> exists t', exec t s = Some t' /\ inv t'.
Proof.
  intros Hi. destruct s; cbn [enabled exec]; unfold mbind, option_bind; intros He.
  - unfold ib_cache_gid_add. rewrite gid_add_eq by done. eexists. split; [done|]. apply gid_add_keeps; [done..|by left].
  - unfold ib_cache_gid_del. edestruct gid_del_keeps as (r & -> & Hk); [done|]. by eexists.
  - rewrite gid_add_eq by done. eexists. split; [done|]. apply gid_add_keeps; [done..|by right].
  - edestruct gid_del_keeps as (r & -> & Hk); [done|]. by eexists.
  - edestruct (del_gids_keeps (fun at_ => bool_decide (at_.(ndev) = d)) (indices t) t Hi) as (t' & E & Hk & _); [apply indices_bound|]. by eexists.
  - edestruct (del_gids_keeps (fun _ => true) (indices t) t Hi) as (t' & E & Hk & _); [apply indices_bound|]. by eexists.
  - destruct He as (Hr & Hix & Hf). destruct (config_keeps t iwarp i q Hi Hr Hix Hf) as (r & -> & Hk). by eexists.
  - destruct (find_by_port_keeps t g ty d Hi) as (r & -> & Hk). by eexists.
  - destruct (filter_loop_keeps t g p t.(data_vec) Hi (vec_slots t)) as (r & E & Hk). unfold rdma_find_gid_by_filter. rewrite E. by eexists.
  - destruct (get_attr_keeps t i Hi) as (r & -> & Hk). by eexists.
  - destruct (held_exists t e Hi He) as (en & Hen & Hk & Hw). rewrite (hold_eq t e en) by done. eexists. split; [done|]. apply counted_keeps; (done || lia).
  - destruct (held_exists t e Hi He) as (en & Hen & Hk & Hw). rewrite (put_eq t e en) by done. eexists. split; [done|]. apply counted_keeps; (done || lia).
  - destruct He as (en & Hen & Hw). destruct (work_freed t e en Hi Hen Hw). unfold free_gid_work. rewrite (free_eq t e en) by (try done; by apply (eo_index t e), Hi).
    eexists. split; [done|]. by apply freed_keeps.
  - eexists. split; [done|]. by apply rcu_keeps.
Qed.

(** Runs that keep the contract. *)
Fixpoint allowed (t : ib_gid_table) (l : list step) : Prop :=
  match l with
  | [] => True
  | s :: l => enabled t s /\ forall t', exec t s = Some t' -> allowed t' l
  end.

Lemma run_keeps l : forall t, inv t -> allowed t l -> exists t', run t l = Some t' /\ inv t'.
Proof.
  induction l as [|s l IH]; intros t Hi Ha; cbn [run]; [by exists t|]. destruct Ha as [He Ha]. destruct (exec_keeps t s Hi He) as (t' & E & Hi').
  unfold mbind, option_bind. rewrite E. by apply IH, Ha.
Qed.

(** ** The table as it is set up *)

Lemma reserve_inv t n : forall i, inv t -> t.(entries) = ∅ -> inv (reserve_loop t n i) /\ (reserve_loop t n i).(entries) = ∅ /\
  (reserve_loop t n i).(data_vec) = t.(data_vec) /\ (reserve_loop t n i).(caps) = t.(caps) /\ (reserve_loop t n i).(rcu) = t.(rcu).
Proof.
  revert t. induction n as [|n IH]; intros t i Hi He; cbn [reserve_loop]; [by split_and!|]. destruct (_ <? _); [|by split_and!].
  destruct (IH (set_default t (Z.lor t.(default_gid_indices) (Z.shiftl 1 i))) (i + 1)) as (? & ? & ? & ? & ?); [|done|by split_and!].
  destruct Hi as [I1 I2 I3 I4 I5 I6 I7]. constructor; try done; cbn [entries set_default]; rewrite He; intros; by simplify_map_eq.
Qed.

Lemma setup_inv sz c : Z.of_nat sz <= 65536 -> inv (gid_table_setup sz c).
Proof.
  intros Hsz. apply reserve_inv; [|done].
  assert (Hs : forall i s, slot (alloc_gid_table sz c) i = Some s -> s = None).
  { intros i s. unfold slot, arr_get. cbn. case_decide; [|done]. intros Hl. by apply lookup_replicate in Hl as [-> _]. }
  constructor; try done.
  - unfold size. cbn. by rewrite length_replicate.
  - intros i e E. by apply Hs in E.
  - intros _ i. cbn. rewrite lookup_empty. unfold cached. destruct (slot _ i) as [[e|]|] eqn:E; [|done..]. by apply Hs in E.
Qed.
