(* ===== verification/GidCacheLive.v ===== *)
(** The GID cache: what follows for whole runs. Memory is safe and references are
    counted, a RoCE port has no GID twice, readers see the table of the driver,
    searches find the first match, and a table that is cleaned up drains. *)

From S2P Require Import Prelude Counting GidCache GidCacheSafe GidCacheRun.
#[local] Open Scope Z_scope.

(** Tables that runs of the contract reach. *)
Definition reachable (sz : nat) (c : port_caps) (t : ib_gid_table) : Prop :=
  Z.of_nat sz <= 65536 /\ exists l, allowed (gid_table_setup sz c) l /\ run (gid_table_setup sz c) l = Some t.

Lemma gid_reachable_inv sz c t : reachable sz c t -> inv t.
Proof. intros (Hsz & l & Ha & Hr). destruct (run_keeps l _ (setup_inv sz c Hsz) Ha) as (t' & E & Hi). by rewrite Hr in E; injection E as <-. Qed.

(** ** Draining *)

Lemma del_gids_none ixs : forall t t', inv t -> Forall (fun i => 0 <= i < size t) ixs -> del_gids t (fun _ => true) ixs = Some t' ->
  forall e en, t'.(entries) !! e = Some en -> valid en = true -> t.(entries) !! e = Some en /\ en.(attr).(index) ∉ ixs.
Proof.
  induction ixs as [|i ixs IH]; intros t t' Hi Hb; cbn [del_gids]; [intros [= <-]; intros e en He _; split; [done|apply not_elem_of_nil]|].
  apply Forall_cons_iff in Hb as [Hix Hb]. unfold mbind, option_bind. destruct (slot_Some _ _ Hix) as (s & Hs). fold (slot t i).
  pose proof (slot_live _ _ _ Hi Hs) as Hl. rewrite Hs, (is_valid_eq t s Hl). destruct (valid_attr t s) as [at_|] eqn:Ha; cbn [is_some].
  - destruct (valid_slot _ _ _ _ Hi Hs Ha) as (e0 & en0 & -> & He0 & Hv0 & _ & Hen0 & Hd & Hk). rewrite He0, Hd. intros Hr e en He Hv.
    assert (Hc : change t (deleted t e0 en0) e0 i) by (rewrite <- Hen0; by apply deleted_change).
    destruct (IH _ _ Hk ltac:(by rewrite (ch_size _ _ _ _ Hc)) Hr e en He Hv) as [He1 Hno].
    assert (Hne : e <> e0) by (intros ->; rewrite deleted_entry in He1; destruct (users_of t e0 =? 0); [done|by injection He1 as <-]).
    rewrite (ch_entries _ _ _ _ Hc) in He1 by done. split; [done|]. apply list.not_elem_of_cons. split; [|done].
    pose proof (valid_facts t e en Hi He1 Hv) as (Hs1 & _). intros Heq. rewrite Heq in Hs1. congruence.
  - intros Hr e en He Hv. destruct (IH _ _ Hi Hb Hr e en He Hv) as [He1 Hno]. split; [done|]. apply list.not_elem_of_cons. split; [|done].
    intros Heq. pose proof (valid_facts t e en Hi He1 Hv) as (Hs1 & _). rewrite Heq, Hs in Hs1. injection Hs1 as ->.
    unfold valid_attr, mbind, option_bind in Ha. by rewrite He1, Hv in Ha.
Qed.

Definition no_valid (t : ib_gid_table) : Prop := forall e en, t.(entries) !! e = Some en -> valid en = false.

Lemma cleanup_no_valid t t' : inv t -> exec t Cleanup = Some t' -> no_valid t'.
Proof.
  intros Hi E e en He. destruct (valid en) eqn:Hv; [|done]. destruct (del_gids_none _ _ _ Hi (indices_bound t) E e en He Hv) as [He1 Hno].
  destruct Hno. unfold indices. apply elem_of_seqZ. pose proof (eo_index _ _ _ (i_entries _ Hi _ _ He1)) as Hb. unfold size in Hb. lia.
Qed.

(** What users, the work queue and the grace periods still do. *)
Definition release (s : step) : bool := match s with Put _ | Work _ | Rcu _ => true | _ => false end.

Definition measure (t : ib_gid_table) : Z := total (fun en => en.(kref) + 2) t.(entries) + Z.of_nat (length t.(rcu)).

Lemma kref_nonneg t e en : inv t -> t.(entries) !! e = Some en -> 0 <= en.(kref).
Proof. intros Hi He. destruct (i_entries _ Hi _ _ He) as [_ Hk Hu _ _]. assert (0 <= c_bool (valid en)) by (by destruct (valid en)). lia. Qed.

Lemma measure_nonneg t : inv t -> 0 <= measure t.
Proof.
  intros Hi. unfold measure. assert (0 <= total (fun en => en.(kref) + 2) t.(entries)); [|lia]. apply total_nonneg. intros e en He.
  pose proof (kref_nonneg t e en Hi He). lia.
Qed.

Lemma length_remove l d : d ∈ l -> S (length (remove_one d l)) = length l.
Proof.
  induction l as [|x l IH]; intros Hd; [by apply elem_of_nil in Hd|]. cbn [remove_one]. destruct (Z.eqb_spec x d) as [->|Hne]; [done|].
  apply list.elem_of_cons in Hd as [->|Hd]; [done|]. cbn. by rewrite (IH Hd).
Qed.

Lemma release_step t s t' : inv t -> no_valid t -> release s = true -> enabled t s -> exec t s = Some t' ->
  inv t' /\ no_valid t' /\ measure t' < measure t.
Proof.
  intros Hi Hn Hs He E. destruct (exec_keeps t s Hi He) as (t1 & E1 & Hi1). assert (t1 = t') as -> by congruence. split; [done|].
  unfold measure. destruct s; try done; cbn [enabled exec] in *.
  - destruct (held_exists t e Hi He) as (en & Hen & Hk & Hw). rewrite (put_eq t e en) in E by done. injection E as <-. cbn. rewrite (total_update _ _ _ en) by done. cbn. split; [|lia].
    intros e' en'. cbn. intros [[<- <-]|[_ He']]%lookup_insert_Some; [exact (Hn e en Hen)|by apply (Hn e')].
  - destruct He as (en & Hen & Hw). pose proof (eo_index _ _ _ (i_entries _ Hi _ _ Hen)) as Hix. unfold free_gid_work in E. rewrite (free_eq t e en) in E by done. injection E as <-.
    destruct (freed_fields t e en Hix) as (_ & _ & _ & _ & _ & F6 & _ & F8 & _). rewrite F6, F8. split.
    + intros e' en'. rewrite F6. intros [_ He']%lookup_delete_Some. by apply (Hn e').
    + rewrite (total_delete _ _ _ en) by done. pose proof (kref_nonneg t e en Hi Hen). rewrite length_app. destruct en.(ndev_storage); cbn; lia.
  - injection E as <-. cbn. pose proof (length_remove _ _ He). split; [done|lia].
Qed.

Lemma release_run l : forall t t', inv t -> no_valid t -> Forall (fun s => release s = true) l -> allowed t l -> run t l = Some t' ->
  inv t' /\ no_valid t' /\ Z.of_nat (length l) + measure t' <= measure t.
Proof.
  induction l as [|s l IH]; intros t t' Hi Hn Hr Ha; cbn [run length]; [intros [= <-]; split_and!; [done..|lia]|].
  apply Forall_cons_iff in Hr as [Hs Hr]. destruct Ha as [He Ha]. unfold mbind, option_bind. destruct (exec t s) as [t1|] eqn:E; [|done]. intros Ht'.
  destruct (release_step t s t1 Hi Hn Hs He E) as (Hi1 & Hn1 & Hm). destruct (IH _ _ Hi1 Hn1 Hr (Ha _ eq_refl) Ht') as (? & ? & ?). split_and!; [done..|lia].
Qed.

(** Nothing is left to release. *)
Lemma released_empty t : inv t -> no_valid t -> (forall s, release s = true -> ~ enabled t s) ->
  t.(entries) = ∅ /\ (forall i s, slot t i = Some s -> s = None) /\ forall d, dev_refs_of t d = 0.
Proof.
  intros Hi Hn Hno. assert (He : t.(entries) = ∅).
  { apply map_empty. intros e. destruct (t.(entries) !! e) as [en|] eqn:E; [exfalso|done]. destruct (i_entries _ Hi _ _ E) as [_ Hk Hu [_ Hw] _].
    rewrite (Hn e en E) in Hk. cbn in Hk. destruct (decide (users_of t e = 0)) as [E0|Hne].
    - apply (Hno (Work e) eq_refl). exists en. split; [done|]. apply Hw. lia.
    - apply (Hno (Put e) eq_refl). cbn. lia. }
  split_and!; [done| |].
  - intros i [e|] Hs; [|done]. destruct (i_slots _ Hi _ _ Hs) as (en & E & _). by rewrite He in E; apply lookup_empty_Some in E.
  - intros d. rewrite (i_refs _ Hi), He. destruct t.(rcu) as [|x l] eqn:E; [done|]. destruct (Hno (Rcu x) eq_refl). cbn. rewrite E. apply list.elem_of_cons. by left.
Qed.

(** ** Outcomes *)

Definition is_gid (g : Z) (at_ : ib_gid_attr) (at' : ib_gid_attr) : Prop :=
  at'.(gid) = g /\ at'.(gid_type) = at_.(gid_type) /\ at'.(ndev) = at_.(ndev).

Lemma add_mask_matches t g val i at_ : gid_matches t g val false add_mask i at_ = true <-> is_gid g val at_.
Proof.
  unfold gid_matches, is_gid. change (c_true (Z.land add_mask GID_ATTR_FIND_MASK_GID_TYPE)) with true.
  change (c_true (Z.land add_mask GID_ATTR_FIND_MASK_GID)) with true. change (c_true (Z.land add_mask GID_ATTR_FIND_MASK_NETDEV)) with true.
  change (c_true (Z.land add_mask GID_ATTR_FIND_MASK_DEFAULT)) with false. cbn [andb negb]. rewrite !negb_involutive, andb_true_r, !andb_true_iff, !Z.eqb_eq, bool_decide_eq_true.
  naive_solver.
Qed.

Definition del_mask : Z := Z.lor (Z.lor (Z.lor GID_ATTR_FIND_MASK_GID GID_ATTR_FIND_MASK_GID_TYPE) GID_ATTR_FIND_MASK_DEFAULT) GID_ATTR_FIND_MASK_NETDEV.

Lemma del_mask_matches t g val i at_ : gid_matches t g val false del_mask i at_ = true <-> is_gid g val at_ /\ is_gid_index_default t i = false.
Proof.
  unfold gid_matches, is_gid. change (c_true (Z.land del_mask GID_ATTR_FIND_MASK_GID_TYPE)) with true.
  change (c_true (Z.land del_mask GID_ATTR_FIND_MASK_GID)) with true. change (c_true (Z.land del_mask GID_ATTR_FIND_MASK_NETDEV)) with true.
  change (c_true (Z.land del_mask GID_ATTR_FIND_MASK_DEFAULT)) with true. cbn [andb negb]. rewrite !negb_involutive, !andb_true_iff, !Z.eqb_eq, bool_decide_eq_true, eqb_true_iff.
  naive_solver.
Qed.

Lemma find_mask_matches t g ty d i at_ :
  gid_matches t g (mk_attr d 0 ty 0) false (find_mask d) i at_ = true <-> at_.(gid) = g /\ at_.(gid_type) = ty /\ (d <> None -> at_.(ndev) = d).
Proof.
  destruct d as [d|]; [change (find_mask (Some d)) with add_mask; rewrite add_mask_matches; unfold is_gid; naive_solver|].
  unfold gid_matches. change (c_true (Z.land (find_mask None) GID_ATTR_FIND_MASK_GID_TYPE)) with true.
  change (c_true (Z.land (find_mask None) GID_ATTR_FIND_MASK_GID)) with true. change (c_true (Z.land (find_mask None) GID_ATTR_FIND_MASK_NETDEV)) with false.
  change (c_true (Z.land (find_mask None) GID_ATTR_FIND_MASK_DEFAULT)) with false. cbn [andb negb].
  rewrite !negb_involutive, !andb_true_r, andb_true_iff, !Z.eqb_eq. naive_solver.
Qed.

Lemma first_found t p e en : inv t -> t.(entries) !! e = Some en -> valid en = true -> p en.(attr).(index) en.(attr) = true ->
  exists e' en', slot t (first (matching t p) t.(data_vec) 0) = Some (Some e') /\ 0 <= first (matching t p) t.(data_vec) 0 /\
    t.(entries) !! e' = Some en' /\ valid en' = true /\ p en'.(attr).(index) en'.(attr) = true /\ en'.(attr).(index) = first (matching t p) t.(data_vec) 0.
Proof.
  intros Hi He Hv Hp. destruct (first_matching t p Hi) as [(s & at_ & Hs & H0 & Ha & HP)|Hn].
  - destruct (valid_attr_Some _ _ _ _ Hi Hs Ha) as (e' & en' & -> & He' & Hv' & <- & Hix). exists e', en'. by rewrite Hix.
  - pose proof (first_none t p e en Hi ltac:(lia) He Hv). congruence.
Qed.

Lemma find_found t g ty d e en : inv t -> t.(entries) !! e = Some en -> valid en = true -> en.(attr).(gid) = g -> en.(attr).(gid_type) = ty ->
  (d <> None -> en.(attr).(ndev) = d) ->
  exists t2 e2 en2, rdma_find_gid_by_port t g ty d = Some (t2, inr e2) /\ t.(entries) !! e2 = Some en2 /\ valid en2 = true /\
    en2.(attr).(gid) = g /\ en2.(attr).(gid_type) = ty /\ (d <> None -> en2.(attr).(ndev) = d) /\ users_of t2 e2 = users_of t e2 + 1.
Proof.
  intros Hi He Hv Hg Ht Hd. destruct (first_found t (gid_matches t g (mk_attr d 0 ty 0) false (find_mask d)) e en Hi He Hv) as (e2 & en2 & Hs & H0 & He2 & Hv2 & HP & Hix).
  { by apply find_mask_matches. }
  apply find_mask_matches in HP as (? & ? & ?). pose proof (valid_facts t e2 en2 Hi He2 Hv2) as (_ & _ & Hk & Hu & Hw & _).
  exists (counted t e2 en2 1), e2, en2. split_and!; [|done..|by apply counted_users]. unfold rdma_find_gid_by_port, mbind, option_bind.
  rewrite find_gid_first by done. cbn iota beta. rewrite (proj2 (Z.leb_le 0 _)) by done. unfold slot in Hs. rewrite Hs. by rewrite (take_eq t e2 en2) by (done || lia).
Qed.

(** What readers see does not change when adding fails. *)
Lemma refused_readers t at_ e i : inv t -> t.(entries) !! e = None -> slot t at_.(index) = Some None -> cached (refused t at_ e) i = cached t i.
Proof.
  intros Hi Hn Hs. destruct (decide (i = at_.(index))) as [->|Hne]; [|by eapply cached_other, Hne; [apply refused_change|]].
  unfold cached. change (slot (refused t at_ e) at_.(index)) with (slot t at_.(index)). by rewrite Hs.
Qed.

Lemma add_outcome_cases t at_ a ret : inv t -> fresh t a -> slot t at_.(index) = Some None -> at_.(gid) <> 0 ->
  let r := add_outcome t at_ a ret in
  (r.2 <> 0 /\ (forall i, slot r.1 i = slot t i) /\ (forall i, cached r.1 i = cached t i) /\ r.1.(hw_gids) = t.(hw_gids)) \/
  exists e, t.(entries) !! e = None /\ r = (added t at_ e, 0).
Proof.
  intros Hi Hf Hs Hg. unfold add_outcome. rewrite (proj2 (Z.eqb_neq _ 0)) by done. destruct a.(a_entry) as [e|] eqn:Ea; [|by left]. specialize (Hf _ Ea).
  destruct (is_some _ && _); [by left|]. destruct (is_roce t && _); [left; split_and!; [done|done|intros i; by apply refused_readers|done]|].
  destruct (_ && c_true ret) eqn:E; [|right; by exists e]. left. apply andb_prop in E as [_ E]. apply c_true_spec in E. split_and!; [done|done|intros i; by apply refused_readers|done].
Qed.

(** ** The claims *)





(** C32: [find_gid] is the search it stands for. The first result is the least
    index whose slot holds a valid entry that agrees with what the mask selects, or
    -1; the second, when it is asked for, the least index whose slot is empty and
    of the kind that is wanted, reserved or not, or -1: the one loop that stops
    early does what two complete searches would. *)
Theorem find_gid_equiv sz c t g val dg mask pe : reachable sz c t ->
  find_gid t g val dg mask pe = Some (first (matching t (gid_matches t g val dg mask)) t.(data_vec) 0,
    if (pe : bool) then first (free_slot t dg) t.(data_vec) 0 else 0).
Proof. intros Hr. apply find_gid_first. by eapply gid_reachable_inv. Qed.

(** C33: A table that is cleaned up drains. After [cleanup_gid_table_port] only
    users putting their references, the work queue and the RCU callbacks are left;
    every sequence of these is finite, and when none is possible any more no entry
    is left, every slot is empty and no reference to a net device is held. *)
Theorem gid_cache_drains sz c t t1 l t' : reachable sz c t -> exec t Cleanup = Some t1 ->
  Forall (fun s => release s = true) l -> allowed t1 l -> run t1 l = Some t' ->
  Z.of_nat (length l) <= measure t1 /\
  ((forall s, release s = true -> ~ enabled t' s) ->
     t'.(entries) = ∅ /\ (forall i s, slot t' i = Some s -> s = None) /\ forall d, dev_refs_of t' d = 0).
Proof.
  intros Hr Hc Hl Ha E. pose proof (gid_reachable_inv _ _ _ Hr) as Hi. destruct (exec_keeps t Cleanup Hi I) as (t2 & E2 & Hi2).
  assert (t2 = t1) as -> by congruence. pose proof (cleanup_no_valid t t1 Hi Hc) as Hn.
  destruct (release_run l t1 t' Hi2 Hn Hl Ha E) as (Hi' & Hn' & Hm). pose proof (measure_nonneg t' Hi'). split; [lia|]. intros Hno. by apply released_empty.
Qed.

(** What adding a GID does. It always answers; when the answer is an error the
    slots, the cached GIDs and the driver's table are what they were; when it is
    success, whether the GID was there or not, a search by GID, type and net device
    finds such an entry and takes a reference. *)
Theorem gid_add_outcomes sz c t g at_ a ret : reachable sz c t -> fresh t a ->
  exists t' r, ib_cache_gid_add t g at_ a ret = Some (t', r) /\
    (r <> 0 -> (forall i, slot t' i = slot t i) /\ (forall i, cached t' i = cached t i) /\ t'.(hw_gids) = t.(hw_gids)) /\
    (r = 0 -> exists t2 e2 en2, rdma_find_gid_by_port t' g at_.(gid_type) at_.(ndev) = Some (t2, inr e2) /\
       t'.(entries) !! e2 = Some en2 /\ valid en2 = true /\ en2.(attr).(gid) = g /\ en2.(attr).(gid_type) = at_.(gid_type) /\
       (at_.(ndev) <> None -> en2.(attr).(ndev) = at_.(ndev)) /\ users_of t2 e2 = users_of t' e2 + 1).
Proof.
  intros Hr Hf. pose proof (gid_reachable_inv _ _ _ Hr) as Hi. unfold ib_cache_gid_add. fold add_mask. rewrite gid_add_eq by done.
  destruct (gid_add_outcome t g at_ add_mask false a ret) as [t' r] eqn:E. exists t', r. split; [done|].
  pose proof (gid_add_keeps t g at_ add_mask false a ret Hi Hf (or_introl (conj eq_refl eq_refl))) as Hi'. rewrite E in Hi'. cbn in Hi'.
  unfold gid_add_outcome in E. destruct (Z.eqb_spec g 0) as [->|Hg]; [by injection E as <- <-|].
  destruct (Z.leb_spec 0 (first (matching t (gid_matches t g at_ false add_mask)) t.(data_vec) 0)) as [Hp|Hn].
  - injection E as <- <-. split; [done|]. intros _. destruct (first_matching t (gid_matches t g at_ false add_mask) Hi) as [(s & at' & Hs & _ & Ha & HP)|Hn]; [|lia].
    destruct (valid_attr_Some _ _ _ _ Hi Hs Ha) as (e & en & _ & He & Hv & <- & _). apply add_mask_matches in HP as (? & ? & ?).
    by apply (find_found t g _ _ e en).
  - destruct (Z.ltb_spec (first (free_slot t false) t.(data_vec) 0) 0) as [|H0]; [by injection E as <- <-|]. destruct (first_free t false H0) as [Hs _].
    destruct (add_outcome_cases t (mk_attr at_.(ndev) g at_.(gid_type) (first (free_slot t false) t.(data_vec) 0)) a ret Hi Hf Hs Hg) as [(H1 & H2 & H3 & H4)|(e & He & E')].
    + rewrite E in *. cbn in *. by split; [|intros; congruence].
    + rewrite E in E'. injection E' as -> ->. split; [done|]. intros _. eapply (find_found _ _ _ _ e); [done|cbn; apply lookup_insert_eq|done..].
Qed.

(** What deleting a GID does on a RoCE port: it answers 0 if a valid entry
    outside the reserved indices has this GID, type and net device, and [-EINVAL]
    and changes nothing if none has; afterwards none has. An entry that users still
    reference is there, without its net device, and its slot is kept. *)
Theorem gid_del_outcomes sz c t g at_ : reachable sz c t -> is_roce t = true ->
  exists t' r, ib_cache_gid_del t g at_ = Some (t', r) /\
    (r = 0 <-> exists e en, t.(entries) !! e = Some en /\ valid en = true /\ is_gid g at_ en.(attr) /\ is_gid_index_default t en.(attr).(index) = false) /\
    (r <> 0 -> t' = t /\ r = - EINVAL) /\
    (forall e en, t'.(entries) !! e = Some en -> valid en = true -> is_gid g at_ en.(attr) -> is_gid_index_default t' en.(attr).(index) = true) /\
    (forall e en, t.(entries) !! e = Some en -> 0 < users_of t e -> exists en', t'.(entries) !! e = Some en' /\
       slot t' en.(attr).(index) = Some (Some e) /\ (en' = en \/ en' = pending en)).
Proof.
  intros Hr Hroce. pose proof (gid_reachable_inv _ _ _ Hr) as Hi. unfold ib_cache_gid_del, _ib_cache_gid_del. fold del_mask. unfold mbind, option_bind.
  rewrite find_gid_first by done. cbn iota beta. set (p := gid_matches t g at_ false del_mask).
  assert (Hheld : forall e en, t.(entries) !! e = Some en -> 0 < users_of t e -> slot t en.(attr).(index) = Some (Some e)).
  { intros e en He Hu. pose proof (eo_slot _ _ _ (i_entries _ Hi _ _ He)) as Hs. unfold slot_ok in Hs. rewrite Hroce in Hs. destruct en.(state); [lia|apply Hs..]. }
  destruct (first_matching t p Hi) as [(s & at' & Hs & H0 & Ha & HP)|Hn].
  - rewrite (proj2 (Z.ltb_ge _ 0)) by done. destruct (valid_slot _ _ _ _ Hi Hs Ha) as (e & en & -> & He & Hv & <- & Hix & -> & Hk).
    apply del_mask_matches in HP as [HG HD]. exists (deleted t e en), 0. split; [done|]. rewrite <- Hix in HD.
    assert (Hc : change t (deleted t e en) e en.(attr).(index)) by (by apply deleted_change).
    split_and!; [split; [intros _; by exists e, en|done]|done|..].
    + intros e' en' He' Hv' HG'. rewrite (default_change _ _ _ _ _ Hc). destruct (is_gid_index_default t en'.(attr).(index)) eqn:E; [done|exfalso].
      assert (Hne : e' <> e) by (intros ->; rewrite deleted_entry in He'; destruct (users_of t e =? 0); [done|by injection He' as <-]).
      rewrite (ch_entries _ _ _ _ Hc) in He' by done. destruct HG as (G1 & G2 & G3), HG' as (G1' & G2' & G3').
      apply Hne, (i_unique _ Hi Hroce e' en' e en He' He Hv' Hv). unfold same_key. split_and!; congruence.
    + intros e' en' He' Hu. destruct (decide (e' = e)) as [->|Hne].
      * assert (en' = en) as -> by congruence. exists (pending en). rewrite deleted_entry, deleted_slot, decide_True, Hroce, (proj2 (Z.eqb_neq (users_of t e) 0)) by (done || lia || by apply (eo_index t e), Hi). cbn.
        split_and!; [done|by apply Hheld|by right].
      * exists en'. rewrite (ch_entries _ _ _ _ Hc) by done. split_and!; [done|apply (slot_other _ _ _ _ _ _ Hc Hne); by apply Hheld|by left].
  - rewrite Hn. cbn. exists t, (- EINVAL). assert (Hno : forall e en, t.(entries) !! e = Some en -> valid en = true -> is_gid g at_ en.(attr) -> is_gid_index_default t en.(attr).(index) = true).
    { intros e en He Hv HG. destruct (is_gid_index_default t en.(attr).(index)) eqn:E; [done|]. pose proof (first_none t p e en Hi ltac:(lia) He Hv) as HF.
      unfold p in HF. by rewrite (proj2 (del_mask_matches t g at_ en.(attr).(index) en.(attr)) (conj HG E)) in HF. }
    split_and!; [done| |done|done|].
    + split; [done|]. intros (e & en & He & Hv & HG & HD). rewrite (Hno e en He Hv HG) in HD. done.
    + intros e en He Hu. exists en. split_and!; [done|by apply Hheld|by left].
Qed.

(** ** Concrete runs *)

Definition gid_enabledb (t : ib_gid_table) (s : step) : bool :=
  let freshb a := match a.(a_entry) with Some e => negb (is_some (t.(entries) !! e)) | None => true end in
  match s with
  | Add _ _ a _ | AddDefault _ _ _ a _ => freshb a
  | Config _ i q => negb (is_roce t) && (0 <=? i) && (i <? size t) && freshb q.(q_alloc)
  | Hold e | Put e => 0 <? users_of t e
  | Work e => match t.(entries) !! e with Some en => en.(del_work) | None => false end
  | Rcu d => bool_decide (d ∈ t.(rcu))
  | _ => true
  end.

Lemma freshb_sound t a : match a.(a_entry) with Some e => negb (is_some (t.(entries) !! e)) | None => true end = true -> fresh t a.
Proof. intros H e He. rewrite He in H. by destruct (t.(entries) !! e). Qed.

Lemma gid_enabledb_sound t s : gid_enabledb t s = true -> enabled t s.
Proof.
  destruct s; cbn [gid_enabledb enabled]; try done; try apply freshb_sound; try (by intros ?%Z.ltb_lt).
  - intros [[[Hr H0]%andb_prop H1]%andb_prop Hf]%andb_prop. split_and!; [by apply negb_true_iff|by apply Z.leb_le|by apply Z.ltb_lt|by apply freshb_sound].
  - destruct (t.(entries) !! e) as [en|]; [|done]. by exists en.
  - apply bool_decide_eq_true.
Qed.

Fixpoint gid_checked (t : ib_gid_table) (l : list step) : bool :=
  match l with
  | [] => true
  | s :: l => gid_enabledb t s && match exec t s with Some t' => gid_checked t' l | None => false end
  end.

Lemma gid_checked_allowed l : forall t, gid_checked t l = true -> allowed t l.
Proof.
  induction l as [|s l IH]; intros t; cbn [gid_checked allowed]; [done|]. intros [He Hl]%andb_prop. split; [by apply gid_enabledb_sound|].
  intros t' E. rewrite E in Hl. by apply IH.
Qed.

Definition after (sz : nat) (c : port_caps) (l : list step) : ib_gid_table := default (gid_table_setup sz c) (run (gid_table_setup sz c) l).

Lemma after_reachable sz c l : Z.of_nat sz <= 65536 -> gid_checked (gid_table_setup sz c) l = true -> is_some (run (gid_table_setup sz c) l) = true ->
  reachable sz c (after sz c l).
Proof.
  intros Hsz Hc Hs. split; [done|]. exists l. split; [by apply gid_checked_allowed|]. unfold after. by destruct (run (gid_table_setup sz c) l).
Qed.

Definition roce_port : port_caps := mk_caps true true true.
Definition ib_port : port_caps := mk_caps false false true.

Definition gives (e : Z) : alloc_answers := {| a_entry := Some e; a_storage := true |}.

(** Four slots, two of them reserved; a default GID and another one, which a user
    references; the driver refuses a third. *)
Definition two_gids : list step :=
  [AddDefault 50 7 1 (gives 1) 0; Add 60 (mk_attr (Some 7) 0 2 0) (gives 2) 0; Find 60 2 (Some 7); Add 61 (mk_attr (Some 7) 0 2 0) (gives 3) (-5)].

Definition two_table : ib_gid_table := Eval vm_compute in after 4 roce_port two_gids.

Lemma two_reachable : reachable 4 roce_port two_table.
Proof. apply (after_reachable 4 roce_port two_gids); vm_compute; done. Qed.


Definition entry_at (t : ib_gid_table) (e : Z) : ib_gid_table_entry :=
  default (mk_entry 0 (mk_attr None 0 0 0) None GID_TABLE_ENTRY_INVALID false) (t.(entries) !! e).



Lemma find_gid_equiv_witness : find_gid two_table 60 (mk_attr (Some 7) 0 2 0) false add_mask true = Some (2, 3).
Proof. rewrite (find_gid_equiv 4 roce_port two_table _ _ _ _ _ two_reachable). vm_compute. reflexivity. Defined.

Lemma gid_add_outcomes_witness : exists t' r, ib_cache_gid_add two_table 62 (mk_attr (Some 7) 0 2 0) (gives 9) 0 = Some (t', r) /\
  (r = 0 -> exists t2 e2, rdma_find_gid_by_port t' 62 2 (Some 7) = Some (t2, inr e2)).
Proof.
  destruct (gid_add_outcomes 4 roce_port two_table 62 (mk_attr (Some 7) 0 2 0) (gives 9) 0 two_reachable) as (t' & r & E & _ & Hok).
  - intros e [= <-]. vm_compute. reflexivity.
  - exists t', r. split; [exact E|]. intros Hr. destruct (Hok Hr) as (t2 & e2 & en2 & Hf & _). by exists t2, e2.
Defined.

Lemma gid_del_outcomes_witness : exists t' r, ib_cache_gid_del two_table 60 (mk_attr (Some 7) 0 2 0) = Some (t', r) /\ (r <> 0 -> t' = two_table).
Proof.
  destruct (gid_del_outcomes 4 roce_port two_table 60 (mk_attr (Some 7) 0 2 0) two_reachable) as (t' & r & E & _ & Hr & _); [vm_compute; reflexivity|].
  exists t', r. split; [exact E|]. intros Hne. by apply Hr.
Defined.

Definition draining : list step := [Put 2; Work 2; Rcu 7; Work 3; Rcu 7; Rcu 7].

Definition cleaned : ib_gid_table := Eval vm_compute in default two_table (exec two_table Cleanup).
Definition drained : ib_gid_table := Eval vm_compute in default cleaned (run cleaned draining).

Lemma gid_cache_drains_witness : 6 <= measure cleaned.
Proof.
  apply (gid_cache_drains 4 roce_port two_table cleaned draining drained two_reachable).
  - vm_compute. reflexivity.
  - repeat constructor.
  - apply gid_checked_allowed. vm_compute. reflexivity.
  - vm_compute. reflexivity.
Defined.

(** ** What the code gets wrong *)

Definition answer (g e : Z) : gid_answers := {| q_ret := 0; q_gid := g; q_ndev := None; q_alloc := gives e |}.

(** A GID that is referenced, and then replaced by the driver. *)
Definition replaced : ib_gid_table := Eval vm_compute in after 2 ib_port [Config false 0 (answer 50 1); Get 0; Config false 0 (answer 51 2)].

Definition doubled : ib_gid_table := Eval vm_compute in
  after 4 roce_port [Add 50 (mk_attr (Some 7) 0 1 0) (gives 1) 0; AddDefault 50 7 1 (gives 2) 0].

(** Four places where the cache does not do what it says.
    [rdma_is_gid_attr_valid] looks at the slot, not at the entry it is asked about:
    on a port without RoCE it calls an entry valid that was replaced. The check of
    [release_gid_table] counts a leak from two references on, so that a table whose
    deleted entry still has a user is freed under it. A default GID can be added
    next to the same GID that is cached already. And the subnet prefix that is
    cached is that of the last GID of the port, 0 if the last GID is not in use. *)
Theorem gid_cache_flaws :
  (reachable 2 ib_port replaced /\ users_of replaced 1 = 1 /\ valid (entry_at replaced 1) = false /\ rdma_is_gid_attr_valid replaced 1 = Some true) /\
  (reachable 4 roce_port two_table /\ exec two_table Cleanup = Some cleaned /\ users_of cleaned 2 = 1 /\ release_gid_table cleaned = Some true) /\
  (reachable 4 roce_port doubled /\ valid (entry_at doubled 1) = true /\ valid (entry_at doubled 2) = true /\
     is_gid 50 (entry_at doubled 1).(attr) (entry_at doubled 2).(attr)) /\
  (let g := Z.lor (Z.shiftl 0xfe80000000000000 64) 1 in exists t,
     config_non_roce_gid_cache (gid_table_setup 2 ib_port) true false [answer g 1; answer 0 2] 0xfe80000000000000 = Some (t, 0, 0) /\ cached t 0 = Some g).
Proof.
  split_and!.
  - apply (after_reachable 2 ib_port [Config false 0 (answer 50 1); Get 0; Config false 0 (answer 51 2)]); vm_compute; done.
  - vm_compute. reflexivity.
  - vm_compute. reflexivity.
  - vm_compute. reflexivity.
  - apply two_reachable.
  - vm_compute. reflexivity.
  - vm_compute. reflexivity.
  - vm_compute. reflexivity.
  - apply (after_reachable 4 roce_port [Add 50 (mk_attr (Some 7) 0 1 0) (gives 1) 0; AddDefault 50 7 1 (gives 2) 0]); vm_compute; done.
  - vm_compute. reflexivity.
  - vm_compute. reflexivity.
  - vm_compute. done.
  - eexists. split; vm_compute; reflexivity.
Qed.
