(* ===== verification/PortCache.v ===== *)
(** The cache of a device: drivers/infiniband/core/cache.c beyond the GID table.
    The P_Key cache of a port and its lookups, the port's LMC, state and subnet
    prefix, their update, the events that cause it, and the lookups that go over
    the ports of a device. *)

From S2P Require Import Prelude Counting GidCache GidCacheSafe GidCacheRun GidCacheLive.
#[local] Open Scope Z_scope.

(** ** Data *)

(** The cache of one port; the P_Key table is the driver's at its last update. *)
Record ib_port_cache := mk_cache {
  gid_table : ib_gid_table;
  pkey : option (list Z);
  lmc : Z;
  port_state : Z;
  subnet_prefix : Z
}.

(** A device: the ports from [rdma_start_port] on. *)
Record ib_device := mk_device { rdma_cap_ib_switch : bool; port_data : list ib_port_cache }.

Definition rdma_start_port (dev : ib_device) : Z := if dev.(rdma_cap_ib_switch) then 0 else 1.

(** [phys_port_cnt] is the number of ports that is not a switch. *)
Definition rdma_end_port (dev : ib_device) : Z := if dev.(rdma_cap_ib_switch) then 0 else Z.of_nat (length dev.(port_data)).

Definition rdma_is_port_valid (dev : ib_device) (port : Z) : bool := (rdma_start_port dev <=? port) && (port <=? rdma_end_port dev).

Definition port_cache (dev : ib_device) (port : Z) : option ib_port_cache := arr_get dev.(port_data) (port - rdma_start_port dev).

Definition with_port (dev : ib_device) (port : Z) (c : ib_port_cache) : option ib_device :=
  l ← arr_set dev.(port_data) (port - rdma_start_port dev) c; Some (mk_device dev.(rdma_cap_ib_switch) l).

(** ** P_Keys *)

Definition ib_get_cached_pkey (dev : ib_device) (port_num i : Z) : option (Z + Z) :=
  if negb (rdma_is_port_valid dev port_num) then Some (inl (- EINVAL)) else
  c ← port_cache dev port_num;
  match c.(pkey) with
  | None => Some (inl (- EINVAL))
  | Some table =>
      if (i <? 0) || (Z.of_nat (length table) <=? i) then Some (inl (- EINVAL)) else k ← arr_get table i; Some (inr k)
  end.

(** The loop: the index of a full member, or the last index of a limited one, or -1. *)
Fixpoint pkey_loop (table : list Z) (k i partial_ix : Z) : Z + Z :=
  match table with
  | [] => inl partial_ix
  | x :: table =>
      if Z.land x 0x7fff =? Z.land k 0x7fff then
        if c_true (Z.land x 0x8000) then inr i else pkey_loop table k (i + 1) i
      else pkey_loop table k (i + 1) partial_ix
  end.

(** The answer, and the index if it is written; a [u16] holds -1 as 65535. *)
Definition ib_find_cached_pkey (dev : ib_device) (port_num k : Z) : option (Z * option Z) :=
  if negb (rdma_is_port_valid dev port_num) then Some (- EINVAL, None) else
  c ← port_cache dev port_num;
  match c.(pkey) with
  | None => Some (- EINVAL, None)
  | Some table =>
      match pkey_loop table k 0 (-1) with
      | inr i => Some (0, Some (u16 i))
      | inl partial_ix => if 0 <=? partial_ix then Some (0, Some (u16 partial_ix)) else Some (- ENOENT, Some (u16 (-1)))
      end
  end.

Fixpoint exact_loop (table : list Z) (k i : Z) : option Z :=
  match table with
  | [] => None
  | x :: table => if x =? k then Some i else exact_loop table k (i + 1)
  end.

Definition ib_find_exact_cached_pkey (dev : ib_device) (port_num k : Z) : option (Z * option Z) :=
  if negb (rdma_is_port_valid dev port_num) then Some (- EINVAL, None) else
  c ← port_cache dev port_num;
  match c.(pkey) with
  | None => Some (- EINVAL, None)
  | Some table =>
      match exact_loop table k 0 with Some i => Some (0, Some (u16 i)) | None => Some (- ENOENT, Some (u16 (-1))) end
  end.

Definition ib_get_cached_lmc (dev : ib_device) (port_num : Z) : option (Z + Z) :=
  if negb (rdma_is_port_valid dev port_num) then Some (inl (- EINVAL)) else c ← port_cache dev port_num; Some (inr c.(lmc)).

Definition ib_get_cached_port_state (dev : ib_device) (port_num : Z) : option (Z + Z) :=
  if negb (rdma_is_port_valid dev port_num) then Some (inl (- EINVAL)) else c ← port_cache dev port_num; Some (inr c.(port_state)).

Definition ib_get_cached_subnet_prefix (dev : ib_device) (port_num : Z) : option Z := c ← port_cache dev port_num; Some c.(subnet_prefix).

(** ** Update *)

(** What [ib_query_port] tells of a port. *)
Record ib_port_attr := mk_port_attr { t_subnet_prefix : Z; t_state : Z; t_lmc : Z; t_gid_tbl_len : nat; t_pkey_tbl_len : nat }.

(** What the allocator and the driver answer: [kmalloc] of the attributes, the
    port, whether there is [query_gid] and iWARP and the GID of each index,
    [kmalloc] of the P_Key table and the P_Key of each index. *)
Record update_answers := {
  u_tprops : bool;
  u_port : Z * ib_port_attr;
  u_query_gid : bool;
  u_iwarp : bool;
  u_gids : Z -> gid_answers;
  u_pkeys_mem : bool;
  u_pkeys : Z -> Z * Z
}.

Definition gid_list (u : update_answers) : list gid_answers := map u.(u_gids) (seqZ 0 (Z.of_nat u.(u_port).2.(t_gid_tbl_len))).

(** The P_Keys of the driver, or its first error. *)
Fixpoint query_pkeys (answers : list (Z * Z)) : Z + list Z :=
  match answers with
  | [] => inr []
  | (ret, k) :: answers =>
      if c_true ret then inl ret else match query_pkeys answers with inl ret => inl ret | inr l => inr (k :: l) end
  end.

Definition with_gid_table (c : ib_port_cache) (t : ib_gid_table) : ib_port_cache := mk_cache t c.(pkey) c.(lmc) c.(port_state) c.(subnet_prefix).

(** The cache of the port, the result, and what [ib_security_cache_change] is told
    if it is called. *)
Definition update_port (c : ib_port_cache) (update_gids update_pkeys enforce_security : bool) (u : update_answers) : option (ib_port_cache * Z * option Z) :=
  if negb u.(u_tprops) then Some (c, - ENOMEM, None) else
  let '(ret, tprops) := u.(u_port) in
  if c_true ret then Some (c, ret, None) else
  '(t, ret, prefix) ← (if negb (rdma_protocol_roce c.(gid_table).(caps)) && update_gids
                       then config_non_roce_gid_cache c.(gid_table) u.(u_query_gid) u.(u_iwarp) (gid_list u) tprops.(t_subnet_prefix)
                       else Some (c.(gid_table), 0, tprops.(t_subnet_prefix)));
  let c := with_gid_table c t in
  if c_true ret then Some (c, ret, None) else
  if update_pkeys && negb (Nat.eqb tprops.(t_pkey_tbl_len) 0) then
    if negb u.(u_pkeys_mem) then Some (c, - ENOMEM, None) else
    match query_pkeys (map u.(u_pkeys) (seqZ 0 (Z.of_nat tprops.(t_pkey_tbl_len)))) with
    | inl ret => Some (c, ret, None)
    | inr table => Some (mk_cache t (Some table) tprops.(t_lmc) tprops.(t_state) prefix, 0, if enforce_security then Some prefix else None)
    end
  else Some (mk_cache t c.(pkey) tprops.(t_lmc) tprops.(t_state) prefix, 0, if enforce_security then Some prefix else None).

Definition ib_cache_update (dev : ib_device) (port : Z) (update_gids update_pkeys enforce_security : bool) (u : update_answers) :
    option (ib_device * Z * option Z) :=
  if negb (rdma_is_port_valid dev port) then Some (dev, - EINVAL, None) else
  c ← port_cache dev port;
  '(c, ret, sec) ← update_port c update_gids update_pkeys enforce_security u;
  dev ← with_port dev port c;
  Some (dev, ret, sec).

(** ** Events *)

Inductive ib_event_type := IB_EVENT_PORT_ERR | IB_EVENT_PORT_ACTIVE | IB_EVENT_LID_CHANGE | IB_EVENT_PKEY_CHANGE | IB_EVENT_CLIENT_REREGISTER
  | IB_EVENT_GID_CHANGE | IB_EVENT_OTHER.

#[export] Instance ib_event_type_eq_dec : EqDecision ib_event_type.
Proof. solve_decision. Defined.

Definition is_cache_update_event (event : ib_event_type) : bool := match event with IB_EVENT_OTHER => false | _ => true end.

Definition enforces_security (event : ib_event_type) : bool := match event with IB_EVENT_PKEY_CHANGE | IB_EVENT_GID_CHANGE => true | _ => false end.

(** The device, and whether the clients are told of the event. *)
Definition ib_cache_event_task (dev : ib_device) (port : Z) (event : ib_event_type) (u : update_answers) : option (ib_device * bool) :=
  '(dev, ret, _) ← ib_cache_update dev port (bool_decide (event = IB_EVENT_GID_CHANGE)) (bool_decide (event = IB_EVENT_PKEY_CHANGE)) (enforces_security event) u;
  Some (dev, negb (c_true ret) && negb (bool_decide (event = IB_EVENT_GID_CHANGE))).

(** [ib_dispatch_event] and the work it queues, which runs later: [kzalloc] of the work. *)
Definition ib_dispatch_event (dev : ib_device) (port : Z) (event : ib_event_type) (kzalloc : bool) (u : update_answers) : option (ib_device * bool) :=
  if negb kzalloc then Some (dev, false)
  else if is_cache_update_event event then ib_cache_event_task dev port event u
  else Some (dev, true).

(** ** The whole device *)

(** From port [p] on, up to the first error. *)
Fixpoint update_ports (dev : ib_device) (p : Z) (answers : list update_answers) : option (ib_device * Z) :=
  match answers with
  | [] => Some (dev, 0)
  | u :: answers =>
      '(dev, err, _) ← ib_cache_update dev p true true true u;
      if c_true err then Some (dev, err) else update_ports dev (p + 1) answers
  end.

Definition new_port (sz : nat) (c : port_caps) : ib_port_cache := mk_cache (gid_table_setup sz c) None 0 0 0.

(** [gid_table_setup_one]: the port whose table could not be allocated, if any,
    undoes the others. *)
Definition gid_table_setup_one (switch : bool) (ports : list (nat * port_caps)) (kzalloc : bool) : option ib_device :=
  if kzalloc then Some (mk_device switch (map (fun p => new_port p.1 p.2) ports)) else None.

(** A device without its tables is [None]; [rdma_roce_rescan_device] is not in it. *)
Definition ib_cache_setup_one (switch : bool) (ports : list (nat * port_caps)) (kzalloc : bool) (answers : list update_answers) : option (option ib_device * Z) :=
  match gid_table_setup_one switch ports kzalloc with
  | None => Some (None, - ENOMEM)
  | Some dev => '(dev, err) ← update_ports dev (rdma_start_port dev) answers; Some (Some dev, err)
  end.

Fixpoint cleanup_ports (ports : list ib_port_cache) : option (list ib_port_cache) :=
  match ports with
  | [] => Some []
  | c :: ports => t ← cleanup_gid_table_port c.(gid_table); ports ← cleanup_ports ports; Some (with_gid_table c t :: ports)
  end.

Definition gid_table_cleanup_one (dev : ib_device) : option ib_device :=
  ports ← cleanup_ports dev.(port_data); Some (mk_device dev.(rdma_cap_ib_switch) ports).

(** ** P_Key lookups *)

Definition member (k x : Z) : bool := Z.land x 0x7fff =? Z.land k 0x7fff.
Definition full (x : Z) : bool := c_true (Z.land x 0x8000).

(** What a lookup finds in the table from index [i] on: the first full member, or
    else the last limited one. *)
Definition best (k : Z) (table : list Z) (i : Z) (r : Z + Z) (partial_ix : Z) : Prop :=
  match r with
  | inr j => exists x, i <= j /\ table !! Z.to_nat (j - i) = Some x /\ member k x = true /\ full x = true /\
      forall n y, table !! n = Some y -> (Z.of_nat n < j - i) -> member k y && full y = false
  | inl j => (forall n y, table !! n = Some y -> member k y && full y = false) /\
      (exists x, i <= j /\ table !! Z.to_nat (j - i) = Some x /\ member k x = true /\ forall n y, table !! n = Some y -> member k y = true -> Z.of_nat n <= j - i) \/
      j = partial_ix /\ forall n y, table !! n = Some y -> member k y = false
  end.

Lemma best_cons k x table i r p : member k x && full x = false ->
  best k table (i + 1) r (if member k x then i else p) -> best k (x :: table) i r p.
Proof.
  intros Hx Hb. assert (Hs : forall j, i + 1 <= j -> Z.to_nat (j - i) = S (Z.to_nat (j - (i + 1)))) by lia. destruct r as [j|j]; cbn in *.
  - destruct Hb as [[Hno (y & Hj & Hy & Hm & Hl)]|[-> Hno]].
    + left. split; [intros [|n] z Hz; [by injection Hz as <-|by apply (Hno n)]|]. exists y. rewrite Hs by lia. split_and!; [lia|done..|].
      intros [|n] z Hz Hmz; [lia|]. specialize (Hl n z Hz Hmz). lia.
    + destruct (member k x) eqn:Em.
      * left. split; [intros [|n] z Hz; [by injection Hz as <-; rewrite Em|by rewrite (Hno n)]|]. exists x. rewrite Z.sub_diag. split_and!; [lia|done..|].
        intros [|n] z Hz Hmz; [lia|]. by rewrite (Hno n z) in Hmz.
      * right. split; [done|]. intros [|n] z Hz; [by injection Hz as <-|by apply (Hno n)].
  - destruct Hb as (y & Hj & Hy & Hm & Hf & Hl). exists y. rewrite Hs by lia. split_and!; [lia|done..|].
    intros [|n] z Hz Hn; [by injection Hz as <-|]. apply (Hl n); [done|lia].
Qed.

Lemma pkey_loop_best (k : Z) table : forall i p, best k table i (pkey_loop table k i p) p.
Proof.
  induction table as [|x table IH]; intros i p; cbn [pkey_loop]; [right; split; [done|by intros n y]|]. fold (member k x). fold (full x).
  destruct (member k x) eqn:Em; [destruct (full x) eqn:Ef|].
  - exists x. rewrite Z.sub_diag. split_and!; [lia|done..|]. intros n y _ Hn. lia.
  - apply best_cons; [by rewrite Em, Ef|]. rewrite Em. apply IH.
  - apply best_cons; [by rewrite Em|]. rewrite Em. apply IH.
Qed.

Lemma best_bound (table : list Z) j x : table !! Z.to_nat (j - 0) = Some x -> 0 <= j -> j < Z.of_nat (length table).
Proof. intros Hx Hj. apply lookup_lt_Some in Hx. lia. Qed.

(** The P_Key lookup prefers full membership. On a valid port whose P_Keys are
    cached (their number is a [u16]) it answers 0 and the least index of a full
    member of the partition; if there is none, the greatest index of a limited
    member; and [-ENOENT] and 65535 if the table has no member at all. *)
Theorem find_cached_pkey_spec dev port_num c table k : rdma_is_port_valid dev port_num = true -> port_cache dev port_num = Some c ->
  c.(pkey) = Some table -> Z.of_nat (length table) <= 65535 ->
  exists ret i, ib_find_cached_pkey dev port_num k = Some (ret, Some i) /\
    ((ret = - ENOENT /\ i = 65535 /\ forall n y, table !! n = Some y -> member k y = false) \/
     (ret = 0 /\ exists x, 0 <= i /\ table !! Z.to_nat i = Some x /\ member k x = true /\
        if full x then forall n y, table !! n = Some y -> Z.of_nat n < i -> member k y && full y = false
        else forall n y, table !! n = Some y -> member k y = true -> full y = false /\ Z.of_nat n <= i)).
Proof.
  intros Hv Hc Hp Hl. unfold ib_find_cached_pkey, mbind, option_bind. rewrite Hv, Hc, Hp. cbn [negb]. pose proof (pkey_loop_best k table 0 (-1)) as Hb.
  assert (Hu : forall j x, table !! Z.to_nat (j - 0) = Some x -> 0 <= j -> u16 j = j).
  { intros j x Hx Hj. pose proof (best_bound table j x Hx Hj). apply wrap_small. unfold fits. lia. }
  destruct (pkey_loop table k 0 (-1)) as [j|j]; cbn [best] in Hb.
  - destruct Hb as [[Hno (x & Hj & Hx & Hm & Hlast)]|[-> Hno]].
    + rewrite (proj2 (Z.leb_le 0 j)), (Hu j x) by done. exists 0, j. split; [done|]. right. split; [done|]. exists x. rewrite Z.sub_0_r in *. split_and!; [done..|].
      pose proof (Hno _ _ Hx) as Hf. rewrite Hm in Hf. cbn in Hf. rewrite Hf. intros n y Hy Hmy. pose proof (Hno _ _ Hy) as Hfy. rewrite Hmy in Hfy. split; [done|].
      by apply (Hlast n y).
    + cbn. exists (- ENOENT), 65535. split; [done|]. by left.
  - destruct Hb as (x & Hj & Hx & Hm & Hf & Hfirst). rewrite (Hu j x) by done. exists 0, j. split; [done|]. right. split; [done|]. exists x.
    rewrite Z.sub_0_r in *. split_and!; [done..|]. by rewrite Hf.
Qed.

Lemma exact_loop_spec (k : Z) table : forall i,
  match exact_loop table k i with
  | Some j => i <= j /\ table !! Z.to_nat (j - i) = Some k /\ forall n, table !! n = Some k -> j - i <= Z.of_nat n
  | None => k ∉ table
  end.
Proof.
  induction table as [|x table IH]; intros i; cbn [exact_loop]; [apply not_elem_of_nil|]. destruct (Z.eqb_spec x k) as [->|Hne].
  - rewrite Z.sub_diag. split_and!; [lia|done|lia].
  - specialize (IH (i + 1)). destruct (exact_loop table k (i + 1)) as [j|]; [|by apply list.not_elem_of_cons]. destruct IH as (Hj & Hk & Hl).
    replace (Z.to_nat (j - i)) with (S (Z.to_nat (j - (i + 1)))) by lia. split_and!; [lia|done|]. intros [|n] Hn; [by injection Hn as ->|]. specialize (Hl n Hn). lia.
Qed.

(** The exact lookup answers the least index of the P_Key. *)
Lemma find_exact_cached_pkey_spec dev port_num c table k : rdma_is_port_valid dev port_num = true -> port_cache dev port_num = Some c ->
  c.(pkey) = Some table -> Z.of_nat (length table) <= 65535 ->
  exists ret i, ib_find_exact_cached_pkey dev port_num k = Some (ret, Some i) /\
    ((ret = - ENOENT /\ i = 65535 /\ k ∉ table) \/
     (ret = 0 /\ 0 <= i /\ ib_get_cached_pkey dev port_num i = Some (inr k) /\ forall n, table !! n = Some k -> i <= Z.of_nat n)).
Proof.
  intros Hv Hc Hp Hl. unfold ib_find_exact_cached_pkey, ib_get_cached_pkey, mbind, option_bind. rewrite Hv, Hc, Hp. cbn [negb]. pose proof (exact_loop_spec k table 0) as Hs.
  destruct (exact_loop table k 0) as [j|]; [|exists (- ENOENT), 65535; split; [done|by left]]. rewrite Z.sub_0_r in Hs. destruct Hs as (Hj & Hk & Hfirst).
  pose proof (lookup_lt_Some _ _ _ Hk) as Hb. exists 0, j. split; [f_equal; f_equal; f_equal; apply wrap_small; unfold fits; lia|]. right.
  split_and!; [done|done| |intros n Hn; specialize (Hfirst n Hn); lia]. rewrite (proj2 (orb_false_iff _ _)) by (split; [apply Z.ltb_ge|apply Z.leb_gt]; lia).
  by rewrite arr_get_lookup, Hk.
Qed.

(** ** Update *)


Definition update_gids_of (c : ib_port_cache) (u : update_answers) : option (ib_gid_table * Z * Z) :=
  config_non_roce_gid_cache c.(gid_table) u.(u_query_gid) u.(u_iwarp) (gid_list u) u.(u_port).2.(t_subnet_prefix).









(** ** Lookups over the ports *)

Definition valid_attrs (t : ib_gid_table) : list ib_gid_attr := omap (valid_attr t) t.(data_vec).

Lemma query_port_eq t slots max : Forall (live_slot t) slots -> forall num, num <= max ->
  query_port_gids t slots num max =
  Some (if num + Z.of_nat (length (omap (valid_attr t) slots)) <=? max then inr (omap (valid_attr t) slots) else inl (- EINVAL)).
Proof.
  induction 1 as [|s slots Hl _ IH]; intros num Hn; cbn [query_port_gids]; [cbn; by rewrite (proj2 (Z.leb_le _ _)) by lia|]. unfold mbind, option_bind in *.
  rewrite (is_valid_eq _ _ Hl). cbn [omap list_omap]. destruct (valid_attr t s) as [at_|] eqn:Ha; cbn [is_some negb]; [|by apply IH].
  destruct (Z.leb_spec max num) as [Hm|Hm].
  - rewrite (proj2 (Z.leb_gt _ _)); [done|]. cbn [length]. lia.
  - unfold valid_attr, mbind, option_bind in Ha. destruct s as [e|]; [|done]. destruct (t.(entries) !! e) as [en|]; [|done]. destruct (valid en); [|done].
    injection Ha as <-. rewrite IH by lia. cbn [length]. replace (num + Z.of_nat (S (length (omap (valid_attr t) slots)))) with (num + 1 + Z.of_nat (length (omap (valid_attr t) slots))) by lia.
    by destruct (_ <=? max).
Qed.

(** [rdma_query_gid_table] lists the valid entries of all ports, in order, if there
    is room for them, and is an error if there is not. *)
Lemma query_gid_table_spec ports max : Forall inv ports -> forall num, num <= max ->
  rdma_query_gid_table ports num max =
  Some (if num + Z.of_nat (length (concat (map valid_attrs ports))) <=? max then inr (concat (map valid_attrs ports)) else inl (- EINVAL)).
Proof.
  induction 1 as [|t ports Hi _ IH]; intros num Hn; cbn [rdma_query_gid_table map concat]; [cbn; by rewrite (proj2 (Z.leb_le _ _)) by lia|].
  unfold mbind, option_bind. rewrite query_port_eq by (by try apply slots_live). rewrite length_app. fold (valid_attrs t).
  destruct (Z.leb_spec (num + Z.of_nat (length (valid_attrs t))) max) as [Hm|Hm].
  - rewrite IH by lia. rewrite Nat2Z.inj_add, Z.add_assoc. by destruct (_ <=? max).
  - rewrite (proj2 (Z.leb_gt _ _)); [done|]. lia.
Qed.

(** [rdma_find_gid] answers for the first port that has the GID, and takes a
    reference there; the other ports are untouched. *)
Lemma find_gid_ports ports g ty d : Forall inv ports ->
  exists ports' r, rdma_find_gid ports g ty d = Some (ports', r) /\ length ports' = length ports /\
    match r with
    | inl err => err = - ENOENT /\ ports' = ports /\ Forall (fun t => first (matching t (gid_matches t g (mk_attr d 0 ty 0) false (find_mask d))) t.(data_vec) 0 < 0) ports
    | inr (p, e) => 0 <= p /\ exists t t' en, ports !! Z.to_nat p = Some t /\ t.(entries) !! e = Some en /\ valid en = true /\ en.(attr).(gid) = g /\
        en.(attr).(gid_type) = ty /\ (d <> None -> en.(attr).(ndev) = d) /\ t' = counted t e en 1 /\ ports' = <[Z.to_nat p := t']> ports /\
        Forall (fun t => first (matching t (gid_matches t g (mk_attr d 0 ty 0) false (find_mask d))) t.(data_vec) 0 < 0) (firstn (Z.to_nat p) ports)
    end.
Proof.
  induction 1 as [|t ports Hi _ IH]; cbn [rdma_find_gid]; [by exists [], (inl (- ENOENT))|]. unfold mbind, option_bind. rewrite find_gid_first by done. cbn iota beta.
  destruct (first_matching t (gid_matches t g (mk_attr d 0 ty 0) false (find_mask d)) Hi) as [(s & at_ & Hs & H0 & Ha & HP)|Hn].
  - rewrite (proj2 (Z.leb_le 0 _)) by done. unfold slot in Hs. rewrite Hs. destruct (valid_attr_Some _ _ _ _ Hi Hs Ha) as (e & en & -> & He & Hv & <- & _).
    pose proof (valid_facts t e en Hi He Hv) as (_ & _ & Hk & Hu & Hw & _). rewrite (take_eq t e en) by (done || lia).
    exists (counted t e en 1 :: ports), (inr (0, e)). split_and!; [done..|]. apply find_mask_matches in HP as (? & ? & ?).
    exists t, (counted t e en 1), en. by split_and!.
  - rewrite Hn. cbn. destruct IH as (ports' & r & E & Hl & Hr). rewrite E. destruct r as [err|[p e]].
    + exists (t :: ports'), (inl err). destruct Hr as (-> & -> & Hr). split_and!; [done..|]. constructor; [by rewrite Hn|done].
    + destruct Hr as (Hp & t0 & t1 & en & Ht & He & Hv & Hg & Hty & Hd & Ht1 & -> & Hf). exists (t :: <[Z.to_nat p := t1]> ports), (inr (p + 1, e)).
      replace (Z.to_nat (p + 1)) with (S (Z.to_nat p)) by lia. split_and!; [done|by cbn; rewrite length_insert|lia|]. exists t0, t1, en. split_and!; try done.
      cbn [firstn]. constructor; [by rewrite Hn|done].
Qed.

(** ** A device with two ports *)

Definition pkey_port : ib_port_cache := mk_cache (gid_table_setup 2 ib_port) (Some [0x7fff; 0x8001; 0x0001; 0xffff]) 3 4 5.
Definition two_ports : ib_device := mk_device false [pkey_port; new_port 2 ib_port].

Lemma find_cached_pkey_spec_witness : exists ret i, ib_find_cached_pkey two_ports 1 0x7fff = Some (ret, Some i) /\
  ib_find_cached_pkey two_ports 1 0x7fff = Some (0, Some 3).
Proof.
  destruct (find_cached_pkey_spec two_ports 1 pkey_port [0x7fff; 0x8001; 0x0001; 0xffff] 0x7fff) as (ret & i & E & _); [vm_compute; reflexivity..|vm_compute; discriminate|].
  exists ret, i. split; [exact E|vm_compute; reflexivity].
Defined.



