(* ===== verification/MadReg.v ===== *)
(** Registration of MAD agents and routing of received MADs (drivers/infiniband/core/mad.c),
    first part: the tables of a port by class version, class, OUI and method, how a
    request is added and removed, and how a MAD is looked up.

    An array of pointers is a map without its null entries; the tables own what
    they point to, so that a table is a value. What allocators answer is an
    argument. *)

From S2P Require Import Prelude RmppRecv RmppSend.
#[local] Open Scope Z_scope.

Definition EPROTONOSUPPORT : Z := 93.

Definition IB_MGMT_MAX_METHODS : Z := 128.
Definition MAX_MGMT_CLASS : Z := 80.
Definition MAX_MGMT_VERSION : Z := 0x83.
Definition MAX_MGMT_OUI : Z := 8.
Definition IB_MGMT_CLASS_SUBN_LID_ROUTED : Z := 0x01.
Definition IB_MGMT_CLASS_SUBN_DIRECTED_ROUTE : Z := 0x81.
Definition IB_MGMT_CLASS_CM : Z := 0x07.
Definition MAX_MGMT_VENDOR_RANGE2 : Z := IB_MGMT_CLASS_VENDOR_RANGE2_END - IB_MGMT_CLASS_VENDOR_RANGE2_START + 1.
Definition IB_MGMT_METHOD_SEND : Z := 0x03.
Definition IB_MGMT_CLASSPORTINFO_ATTR_ID : Z := 1.
Definition IB_MGMT_BASE_VERSION : Z := 1.
Definition OPA_MGMT_BASE_VERSION : Z := 0x80.

(** ** Data *)

(** What an agent asks for; the OUI is a number of three bytes, the mask of 128 bits. *)
Record ib_mad_reg_req := mk_reg { mgmt_class : Z; mgmt_class_version : Z; oui : Z; method_mask : Z }.

(** The fields of a received MAD that routing looks at, in host order, and the OUI
    that a vendor MAD has. *)
Record ib_mad_hdr := mk_hdr {
  base_version : Z; h_mgmt_class : Z; class_version : Z; method : Z; tid : Z; attr_id : Z; attr_mod : Z; h_oui : Z
}.

(** The agents by method. *)
Abbreviation ib_mad_mgmt_method_table := (gmap Z Z).

(** The method tables by class. *)
Abbreviation ib_mad_mgmt_class_table := (gmap Z ib_mad_mgmt_method_table).

(** The OUIs of a vendor class, with the method tables. *)
Abbreviation ib_mad_mgmt_vendor_class := (list (Z * option ib_mad_mgmt_method_table)).

Abbreviation ib_mad_mgmt_vendor_class_table := (gmap Z ib_mad_mgmt_vendor_class).

(** The tables of a port by class version. *)
Record ib_mad_port_private := mk_port_private {
  class : gmap Z ib_mad_mgmt_class_table;
  vendor : gmap Z ib_mad_mgmt_vendor_class_table
}.

Definition set_class (p : ib_mad_port_private) (m : gmap Z ib_mad_mgmt_class_table) := mk_port_private m p.(vendor).
Definition set_vendor (p : ib_mad_port_private) (m : gmap Z ib_mad_mgmt_vendor_class_table) := mk_port_private p.(class) m.

(** What [kzalloc] answers for a class table, a method table, a vendor class table
    and a vendor class. *)
Record reg_memory := { m_class : bool; m_method : bool; m_vendor : bool; m_vclass : bool }.

(** ** Classes and methods *)

Definition convert_mgmt_class (c : Z) : Z := if c =? IB_MGMT_CLASS_SUBN_DIRECTED_ROUTE then 0 else c.

Definition vendor_class_index (c : Z) : Z := c - IB_MGMT_CLASS_VENDOR_RANGE2_START.

Definition is_vendor_class (c : Z) : bool :=
  if (c <? IB_MGMT_CLASS_VENDOR_RANGE2_START) || (IB_MGMT_CLASS_VENDOR_RANGE2_END <? c) then false else true.

Definition is_vendor_oui (o : Z) : bool := c_true o.

Definition ib_response_mad (hdr : ib_mad_hdr) : bool :=
  c_true (Z.land hdr.(method) IB_MGMT_METHOD_RESP) || (hdr.(method) =? IB_MGMT_METHOD_TRAP_REPRESS) ||
  ((hdr.(h_mgmt_class) =? IB_MGMT_CLASS_BM) && c_true (Z.land hdr.(attr_mod) IB_BM_ATTR_MOD_RESP)).

(** [for_each_set_bit] *)
Definition set_bits (mask : Z) : list Z := filter (fun i => Z.testbit mask i = true) (seqZ 0 IB_MGMT_MAX_METHODS).

Definition method_in_use (t : ib_mad_mgmt_method_table) (r : ib_mad_reg_req) : bool :=
  existsb (fun i => is_some (t !! i)) (set_bits r.(method_mask)).

(** The methods of a request added to a table. *)
Definition add_methods (t : ib_mad_mgmt_method_table) (r : ib_mad_reg_req) (agent : Z) : ib_mad_mgmt_method_table :=
  foldl (fun t i => <[i := agent]> t) t (set_bits r.(method_mask)).

Definition check_method_table (t : ib_mad_mgmt_method_table) : bool := existsb (fun i => is_some (t !! i)) (seqZ 0 IB_MGMT_MAX_METHODS).

Definition check_class_table (c : ib_mad_mgmt_class_table) : bool := existsb (fun i => is_some (c !! i)) (seqZ 0 MAX_MGMT_CLASS).

Definition check_vendor_class (v : ib_mad_mgmt_vendor_class) : bool := existsb (fun s => is_some s.2) v.

Definition check_vendor_table (v : ib_mad_mgmt_vendor_class_table) : bool := existsb (fun i => is_some (v !! i)) (seqZ 0 MAX_MGMT_VENDOR_RANGE2).

Definition remove_methods_mad_agent (t : ib_mad_mgmt_method_table) (agent : Z) : ib_mad_mgmt_method_table :=
  foldl (fun t i => if bool_decide (t !! i = Some agent) then delete i t else t) t (seqZ 0 IB_MGMT_MAX_METHODS).

(** The index of an OUI from [i] on. *)
Fixpoint find_oui (v : ib_mad_mgmt_vendor_class) (o : Z) (i : Z) : Z :=
  match v with [] => -1 | s :: v => if s.1 =? o then i else find_oui v o (i + 1) end.

Definition find_vendor_oui (v : ib_mad_mgmt_vendor_class) (o : Z) : Z := find_oui v o 0.

(** The first slot of the OUI that has a table decides. *)
Fixpoint is_vendor_method_in_use (v : ib_mad_mgmt_vendor_class) (r : ib_mad_reg_req) : bool :=
  match v with
  | [] => false
  | (o, t) :: v =>
      if o =? r.(oui) then match t with Some t => method_in_use t r | None => is_vendor_method_in_use v r end
      else is_vendor_method_in_use v r
  end.

(** A vendor class as [kzalloc] gives it. *)
Definition new_vendor_class : ib_mad_mgmt_vendor_class := replicate (Z.to_nat MAX_MGMT_OUI) (0, None).

(** ** Adding and removing a request *)

(** [None] for the null method table under the address that is looked at. *)
Definition add_nonoui_reg_req (p : ib_mad_port_private) (r : ib_mad_reg_req) (agent c : Z) (mem : reg_memory) : ib_mad_port_private * Z :=
  let ver := r.(mgmt_class_version) in
  let install ct t :=
    if method_in_use t r then
      let t := remove_methods_mad_agent t agent in
      (set_class p (<[ver := if check_method_table t then <[c := t]> ct else delete c ct]> p.(class)), - EINVAL)
    else (set_class p (<[ver := <[c := add_methods t r agent]> ct]> p.(class)), 0) in
  match p.(class) !! ver with
  | None =>
      if negb mem.(m_class) then (p, - ENOMEM)
      else if negb mem.(m_method) then (set_class p (delete ver (<[ver := ∅]> p.(class))), - ENOMEM)
      else install ∅ ∅
  | Some ct =>
      match ct !! c with
      | None => if negb mem.(m_method) then (p, - ENOMEM) else install ct ∅
      | Some t => install ct t
      end
  end.

(** The slot of a vendor class the methods go to: its index and method table, and
    the class with the table and the OUI filled in; or the error. *)
Definition oui_slot (v : ib_mad_mgmt_vendor_class) (o : Z) (mem : reg_memory) : Z + Z * ib_mad_mgmt_method_table * ib_mad_mgmt_vendor_class :=
  let i := find_oui v o 0 in
  if 0 <=? i then
    match v !! Z.to_nat i with
    | Some (_, Some t) => inr (i, t, v)
    | _ => inl (- ENOMEM)
    end
  else
    let i := find_oui v 0 0 in
    if 0 <=? i then
      match v !! Z.to_nat i with
      | Some (_, Some t) => inr (i, t, <[Z.to_nat i := (o, Some t)]> v)
      | _ => if negb mem.(m_method) then inl (- ENOMEM) else inr (i, ∅, <[Z.to_nat i := (o, Some ∅)]> v)
      end
    else inl (- ENOMEM).

(** Taking back the tables that were made for the request. *)
Definition undo_oui (p : ib_mad_port_private) (ver vc : Z) (new_vendor new_class : bool) : ib_mad_port_private :=
  let p := if (new_class : bool) then set_vendor p (alter (fun vt => delete vc vt) ver p.(vendor)) else p in
  if (new_vendor : bool) then set_vendor p (delete ver p.(vendor)) else p.

Definition add_oui_reg_req (p : ib_mad_port_private) (r : ib_mad_reg_req) (agent : Z) (mem : reg_memory) : ib_mad_port_private * Z :=
  let vc := vendor_class_index r.(mgmt_class) in
  let ver := r.(mgmt_class_version) in
  let new_vendor := negb (is_some (p.(vendor) !! ver)) in
  if new_vendor && negb mem.(m_vendor) then (p, - ENOMEM) else
  let vt := default ∅ (p.(vendor) !! ver) in
  let p := if new_vendor then set_vendor p (<[ver := vt]> p.(vendor)) else p in
  let new_class := negb (is_some (vt !! vc)) in
  if new_class && negb mem.(m_vclass) then (undo_oui p ver vc new_vendor false, - ENOMEM) else
  let v := default new_vendor_class (vt !! vc) in
  let p := if new_class then set_vendor p (<[ver := <[vc := v]> vt]> p.(vendor)) else p in
  match oui_slot v r.(oui) mem with
  | inl ret => (undo_oui p ver vc new_vendor new_class, ret)
  | inr (i, t, v) =>
      if method_in_use t r then
        let t := remove_methods_mad_agent t agent in
        let v := if check_method_table t then <[Z.to_nat i := (r.(oui), Some t)]> v else <[Z.to_nat i := (r.(oui), None)]> v in
        (undo_oui (set_vendor p (<[ver := <[vc := v]> vt]> p.(vendor))) ver vc new_vendor new_class, - EINVAL)
      else
        (set_vendor p (<[ver := <[vc := <[Z.to_nat i := (r.(oui), Some (add_methods t r agent))]> v]> vt]> p.(vendor)), 0)
  end.

(** [remove_mad_reg_req], up to the label [vendor_check]. *)
Definition remove_class_req (p : ib_mad_port_private) (r : ib_mad_reg_req) (agent : Z) : ib_mad_port_private :=
  let c := convert_mgmt_class r.(mgmt_class) in
  let ver := r.(mgmt_class_version) in
  match p.(class) !! ver with
  | None => p
  | Some ct =>
      match ct !! c with
      | None => p
      | Some t =>
          let t := remove_methods_mad_agent t agent in
          if check_method_table t then set_class p (<[ver := <[c := t]> ct]> p.(class))
          else
            let ct := delete c ct in
            if check_class_table ct then set_class p (<[ver := ct]> p.(class)) else set_class p (delete ver p.(class))
      end
  end.

Definition remove_vendor_req (p : ib_mad_port_private) (r : ib_mad_reg_req) (agent : Z) : ib_mad_port_private :=
  let c := vendor_class_index r.(mgmt_class) in
  let ver := r.(mgmt_class_version) in
  match p.(vendor) !! ver with
  | None => p
  | Some vt =>
      match vt !! c with
      | None => p
      | Some v =>
          let i := find_vendor_oui v r.(oui) in
          if i <? 0 then p else
          match v !! Z.to_nat i with
          | Some (o, Some t) =>
              let t := remove_methods_mad_agent t agent in
              if check_method_table t then set_vendor p (<[ver := <[c := <[Z.to_nat i := (o, Some t)]> v]> vt]> p.(vendor))
              else
                let v := <[Z.to_nat i := (0, None)]> v in
                if check_vendor_class v then set_vendor p (<[ver := <[c := v]> vt]> p.(vendor))
                else
                  let vt := delete c vt in
                  if check_vendor_table vt then set_vendor p (<[ver := vt]> p.(vendor)) else set_vendor p (delete ver p.(vendor))
          | _ => p
          end
      end
  end.

Definition remove_mad_reg_req (p : ib_mad_port_private) (reg_req : option ib_mad_reg_req) (agent : Z) : ib_mad_port_private :=
  match reg_req with
  | None => p
  | Some r =>
      let p := remove_class_req p r agent in
      if is_vendor_class (convert_mgmt_class r.(mgmt_class)) then remove_vendor_req p r agent else p
  end.

(** ** Registering and routing *)

(** The part of [ib_register_mad_agent] under [reg_lock]. *)
Definition register_request (p : ib_mad_port_private) (r : ib_mad_reg_req) (agent : Z) (mem : reg_memory) : ib_mad_port_private * Z :=
  let c := convert_mgmt_class r.(mgmt_class) in
  let ver := r.(mgmt_class_version) in
  if negb (is_vendor_class c) then
    if match ct ← p.(class) !! ver; (ct : ib_mad_mgmt_class_table) !! c with Some t => method_in_use t r | None => false end then (p, - EINVAL)
    else add_nonoui_reg_req p r agent c mem
  else
    if match vt ← p.(vendor) !! ver; (vt : ib_mad_mgmt_vendor_class_table) !! vendor_class_index c with Some v => is_vendor_method_in_use v r | None => false end then (p, - EINVAL)
    else add_oui_reg_req p r agent mem.

(** The search of [find_mad_agent] for a MAD that is no response. *)
Definition find_in_tables (p : ib_mad_port_private) (hdr : ib_mad_hdr) : option Z :=
  let m := Z.land hdr.(method) (Z.lnot IB_MGMT_METHOD_RESP) in
  if MAX_MGMT_VERSION <=? hdr.(class_version) then None else
  if negb (is_vendor_class hdr.(h_mgmt_class)) then
    ct ← p.(class) !! hdr.(class_version);
    if MAX_MGMT_CLASS <=? convert_mgmt_class hdr.(h_mgmt_class) then None else
    t ← (ct : ib_mad_mgmt_class_table) !! convert_mgmt_class hdr.(h_mgmt_class);
    (t : ib_mad_mgmt_method_table) !! m
  else
    vt ← p.(vendor) !! hdr.(class_version);
    v ← (vt : ib_mad_mgmt_vendor_class_table) !! vendor_class_index hdr.(h_mgmt_class);
    let index := find_vendor_oui v hdr.(h_oui) in
    if index =? -1 then None else
    s ← (v : ib_mad_mgmt_vendor_class) !! Z.to_nat index;
    t ← s.2; (t : ib_mad_mgmt_method_table) !! m.

(** Which MADs a queue pair takes at all. *)
Definition validate_mad (hdr : ib_mad_hdr) (qp_num : Z) (opa : bool) : bool :=
  if negb (hdr.(base_version) =? IB_MGMT_BASE_VERSION) && (negb opa || negb (hdr.(base_version) =? OPA_MGMT_BASE_VERSION)) then false else
  if (hdr.(h_mgmt_class) =? IB_MGMT_CLASS_SUBN_LID_ROUTED) || (hdr.(h_mgmt_class) =? IB_MGMT_CLASS_SUBN_DIRECTED_ROUTE) then qp_num =? 0 else
  if (hdr.(h_mgmt_class) =? IB_MGMT_CLASS_CM) && negb (hdr.(attr_id) =? IB_MGMT_CLASSPORTINFO_ATTR_ID) && negb (hdr.(method) =? IB_MGMT_METHOD_SEND) then false else
  negb (qp_num =? 0).
