(* ===== verification/MadRegTables.v ===== *)
(** The registration tables of MadReg.v, proved: what the tables hold is exactly
    what the registered agents asked for, adding a request is all or nothing, and
    tables without agents do not exist. *)

From S2P Require Import Prelude RmppRecv RmppSend MadReg.
#[local] Open Scope Z_scope.

(** ** Method tables *)

Definition bit_of (mask m : Z) : bool := (0 <=? m) && (m <? IB_MGMT_MAX_METHODS) && Z.testbit mask m.

Lemma set_bits_spec mask m : m ∈ set_bits mask <-> bit_of mask m = true.
Proof.
  unfold set_bits, bit_of. rewrite list_elem_of_filter, elem_of_seqZ, !andb_true_iff, Z.leb_le, Z.ltb_lt. naive_solver lia.
Qed.

Lemma existsb_some {A} (f : Z -> option A) l : existsb (fun i => is_some (f i)) l = true <-> exists i x, i ∈ l /\ f i = Some x.
Proof.
  rewrite existsb_exists. split.
  - intros (i & Hi & Hs). destruct (f i) as [x|] eqn:E; [|done]. exists i, x. split; [by apply list_elem_of_In|done].
  - intros (i & x & Hi & E). exists i. rewrite E. split; [by apply list_elem_of_In|done].
Qed.

Lemma in_use_spec (t : ib_mad_mgmt_method_table) r :
  method_in_use t r = true <-> exists m a, bit_of r.(method_mask) m = true /\ t !! m = Some a.
Proof.
  unfold method_in_use. rewrite (existsb_some (fun i => t !! i)). split; intros (m & a & Hm & Ha); exists m, a; by rewrite set_bits_spec in *.
Qed.

Lemma foldl_insert (a : Z) l : forall t : ib_mad_mgmt_method_table, forall m,
  foldl (fun t i => <[i := a]> t) t l !! m = if bool_decide (m ∈ l) then Some a else t !! m.
Proof.
  induction l as [|i l IH]; intros t m; cbn [foldl]; [by rewrite bool_decide_false by apply not_elem_of_nil|]. rewrite IH.
  destruct (decide (m ∈ l)) as [Hl|Hl].
  - rewrite !bool_decide_true; [done| |done]. apply list.elem_of_cons. by right.
  - rewrite (bool_decide_false (m ∈ l)) by done. destruct (decide (m = i)) as [->|Hne].
    + rewrite lookup_insert_eq, bool_decide_true; [done|]. apply list.elem_of_cons. by left.
    + rewrite lookup_insert_ne, bool_decide_false; [done| |congruence]. rewrite list.elem_of_cons. naive_solver.
Qed.

Lemma add_methods_lookup t r a m : add_methods t r a !! m = if bit_of r.(method_mask) m then Some a else t !! m.
Proof.
  unfold add_methods. rewrite foldl_insert. destruct (bit_of r.(method_mask) m) eqn:E.
  - by rewrite bool_decide_true by by apply set_bits_spec.
  - rewrite bool_decide_false; [done|]. rewrite set_bits_spec. congruence.
Qed.

Lemma foldl_delete (a : Z) l : NoDup l -> forall t : ib_mad_mgmt_method_table, forall m,
  foldl (fun t i => if bool_decide (t !! i = Some a) then delete i t else t) t l !! m =
  if bool_decide (m ∈ l) && bool_decide (t !! m = Some a) then None else t !! m.
Proof.
  induction 1 as [|i l Hi _ IH]; intros t m; cbn [foldl]; [by rewrite bool_decide_false by apply not_elem_of_nil|]. rewrite IH.
  destruct (decide (m = i)) as [->|Hne].
  - rewrite (bool_decide_false (i ∈ l)), (bool_decide_true (i ∈ i :: l)) by (done || (apply list.elem_of_cons; by left)). cbn [andb].
    destruct (bool_decide (t !! i = Some a)); [apply lookup_delete_eq|done].
  - assert (E : (if bool_decide (t !! i = Some a) then delete i t else t) !! m = t !! m) by (case_match; [by rewrite lookup_delete_ne|done]).
    rewrite E. by rewrite (bool_decide_ext (m ∈ i :: l) (m ∈ l)) by (rewrite list.elem_of_cons; naive_solver).
Qed.

(** The methods of a table are below 128. *)
Definition methods_ok (t : ib_mad_mgmt_method_table) : Prop := forall m a, t !! m = Some a -> 0 <= m < IB_MGMT_MAX_METHODS.

Lemma remove_methods_lookup t a m : methods_ok t -> remove_methods_mad_agent t a !! m = if bool_decide (t !! m = Some a) then None else t !! m.
Proof.
  intros Ht. unfold remove_methods_mad_agent. rewrite foldl_delete by apply NoDup_seqZ. destruct (t !! m) as [a'|] eqn:E.
  - specialize (Ht _ _ E). rewrite bool_decide_true by (apply elem_of_seqZ; unfold IB_MGMT_MAX_METHODS in *; lia). done.
  - rewrite (bool_decide_false (None = Some a)) by done. by rewrite andb_false_r.
Qed.

Lemma check_method_spec t : methods_ok t -> check_method_table t = false -> t = ∅.
Proof.
  intros Ht Hc. apply map_empty. intros m. destruct (t !! m) as [a|] eqn:E; [|done]. specialize (Ht _ _ E).
  assert (check_method_table t = true); [|congruence]. apply (existsb_some (fun i => t !! i)). exists m, a. split; [|done]. apply elem_of_seqZ. lia.
Qed.

Lemma check_method_true t : check_method_table t = true -> exists m a, t !! m = Some a.
Proof. intros Hc. apply (existsb_some (fun i => t !! i)) in Hc as (m & a & _ & E). by exists m, a. Qed.

(** ** The OUIs of a vendor class *)

Lemma find_oui_spec v o : forall i, 0 <= i ->
  (find_oui v o i = -1 /\ forall k s, v !! k = Some s -> s.1 <> o) \/
  (i <= find_oui v o i /\ exists t, v !! Z.to_nat (find_oui v o i - i) = Some (o, t)).
Proof.
  induction v as [|[o' t] v IH]; intros i Hi; cbn [find_oui fst]; [by left|]. destruct (Z.eqb_spec o' o) as [->|Hne].
  - right. rewrite Z.sub_diag. split; [lia|]. by exists t.
  - destruct (IH (i + 1) ltac:(lia)) as [[-> Hno]|[Hge [t' Ht]]].
    + left. split; [done|]. intros [|k] s Hs; [by injection Hs as <-|by apply (Hno k)].
    + right. split; [lia|]. exists t'. by replace (Z.to_nat (find_oui v o (i + 1) - i)) with (S (Z.to_nat (find_oui v o (i + 1) - (i + 1)))) by lia.
Qed.

Record vendor_ok (v : ib_mad_mgmt_vendor_class) : Prop := {
  vo_table : forall k o t, v !! k = Some (o, t) -> o <> 0 <-> is_Some t;
  vo_once : forall k k' o t t', v !! k = Some (o, t) -> v !! k' = Some (o, t') -> o <> 0 -> k = k'
}.

(** The method table of an OUI. *)
Definition oui_table (v : ib_mad_mgmt_vendor_class) (o : Z) : option ib_mad_mgmt_method_table :=
  let i := find_vendor_oui v o in if i <? 0 then None else s ← v !! Z.to_nat i; s.2.

Lemma oui_table_spec v o t : vendor_ok v -> o <> 0 -> oui_table v o = Some t <-> exists k, v !! k = Some (o, Some t).
Proof.
  intros Hv Ho. unfold oui_table, find_vendor_oui, mbind, option_bind. destruct (find_oui_spec v o 0 ltac:(lia)) as [[-> Hno]|[Hge [t' Ht]]].
  - cbn. split; [done|]. intros (k & Hk). by destruct (Hno _ _ Hk).
  - rewrite (proj2 (Z.ltb_ge _ 0)) by done. rewrite Z.sub_0_r in Ht. rewrite Ht. cbn. split; [intros ->; by eexists|]. intros (k & Hk).
    pose proof (vo_once v Hv _ _ _ _ _ Ht Hk Ho) as E. rewrite <- E, Ht in Hk. by injection Hk as ->.
Qed.

Lemma new_vendor_ok : vendor_ok new_vendor_class.
Proof.
  split.
  - intros k o t [[= -> ->] _]%lookup_replicate. split; [done|]. by intros [? ?].
  - intros k k' o t t' [[= -> ->] _]%lookup_replicate _ Ho. done.
Qed.

(** Replacing the slot at [k]. *)
Lemma vendor_ok_insert v k o t : vendor_ok v -> (o <> 0 <-> is_Some t) ->
  (o <> 0 -> forall k' t', v !! k' = Some (o, t') -> k' = k) -> vendor_ok (<[k := (o, t)]> v).
Proof.
  intros [Ht Ho] Hot Huniq. split.
  - intros k' o' t' [(-> & [= -> ->] & _)|[_ Hk']]%list_lookup_insert_Some; [done|by eapply Ht].
  - intros k1 k2 o' t1 t2 [(-> & [= <- <-] & _)|[N1 H1]]%list_lookup_insert_Some [(-> & E & _)|[N2 H2]]%list_lookup_insert_Some Hne; [done|..].
    + symmetry. by eapply Huniq.
    + injection E as <- <-. by eapply Huniq.
    + by eapply Ho.
Qed.

Lemma oui_table_insert v k o t o' : vendor_ok v -> vendor_ok (<[k := (o, Some t)]> v) -> (k < length v)%nat -> o' <> 0 ->
  (forall o0 t0, v !! k = Some (o0, t0) -> o0 = o \/ o0 = 0) -> o <> 0 ->
  oui_table (<[k := (o, Some t)]> v) o' = if decide (o' = o) then Some t else oui_table v o'.
Proof.
  intros Hv Hv' Hk Ho' Hold Ho. apply option_eq. intros t'. rewrite oui_table_spec by done. destruct (decide (o' = o)) as [->|Hne].
  - split.
    + intros (k' & Hk'). assert (Hk0 : <[k := (o, Some t)]> v !! k = Some (o, Some t)) by by apply list_lookup_insert_eq.
      pose proof (vo_once _ Hv' _ _ _ _ _ Hk0 Hk' Ho) as ->. rewrite Hk0 in Hk'. by injection Hk' as ->.
    + intros [= <-]. exists k. by apply list_lookup_insert_eq.
  - rewrite oui_table_spec by done. split; intros (k' & Hk'); exists k'.
    + apply list_lookup_insert_Some in Hk' as [(-> & E & _)|[_ Hk']]; [by injection E as <- _|done].
    + apply list_lookup_insert_Some. right. split; [|done]. intros ->. destruct (Hold _ _ Hk'); done.
Qed.

Lemma oui_table_clear v k o t o' : vendor_ok v -> v !! k = Some (o, t) -> o <> 0 -> o' <> 0 ->
  vendor_ok (<[k := (0, None)]> v) /\ oui_table (<[k := (0, None)]> v) o' = if decide (o' = o) then None else oui_table v o'.
Proof.
  intros Hv Hk Ho Ho'. assert (Hv' : vendor_ok (<[k := (0, None)]> v)).
  { apply vendor_ok_insert; [done| |done]. split; [done|by intros [? ?]]. }
  split; [done|]. apply option_eq. intros t'. rewrite oui_table_spec by done. destruct (decide (o' = o)) as [->|Hne].
  - split; [|done]. intros (k' & [(-> & E & _)|[Hne Hk']]%list_lookup_insert_Some); [congruence|]. destruct Hne. by eapply (vo_once v Hv).
  - rewrite oui_table_spec by done. split; intros (k' & Hk'); exists k'.
    + apply list_lookup_insert_Some in Hk' as [(-> & E & _)|[_ Hk']]; [congruence|done].
    + apply list_lookup_insert_Some. right. split; [|done]. intros ->. congruence.
Qed.

(** ** The invariant *)

Definition req_ok (r : ib_mad_reg_req) : Prop :=
  (0 < r.(mgmt_class) < MAX_MGMT_CLASS \/ r.(mgmt_class) = IB_MGMT_CLASS_SUBN_DIRECTED_ROUTE) /\
  0 <= r.(mgmt_class_version) < MAX_MGMT_VERSION /\ (is_vendor_class r.(mgmt_class) = true -> r.(oui) <> 0).

Definition for_vendor (r : ib_mad_reg_req) : bool := is_vendor_class (convert_mgmt_class r.(mgmt_class)).

Definition asks (r : ib_mad_reg_req) (ver c : Z) : Prop := for_vendor r = false /\ r.(mgmt_class_version) = ver /\ convert_mgmt_class r.(mgmt_class) = c.

Definition asks_vendor (r : ib_mad_reg_req) (ver vc o : Z) : Prop :=
  for_vendor r = true /\ r.(mgmt_class_version) = ver /\ vendor_class_index r.(mgmt_class) = vc /\ r.(oui) = o.

(** The agent under a class and method, and under a vendor class, OUI and method. *)
Definition cell (cl : gmap Z ib_mad_mgmt_class_table) (ver c m : Z) : option Z := ct ← cl !! ver; t ← (ct : ib_mad_mgmt_class_table) !! c; (t : ib_mad_mgmt_method_table) !! m.

Definition vcell (vn : gmap Z ib_mad_mgmt_vendor_class_table) (ver vc o m : Z) : option Z :=
  vt ← vn !! ver; v ← (vt : ib_mad_mgmt_vendor_class_table) !! vc; t ← oui_table v o; (t : ib_mad_mgmt_method_table) !! m.

Record class_ok (cl : gmap Z ib_mad_mgmt_class_table) (regs : gmap Z ib_mad_reg_req) : Prop := {
  co_cells : forall ver c m a, cell cl ver c m = Some a <-> exists r, regs !! a = Some r /\ asks r ver c /\ bit_of r.(method_mask) m = true;
  co_used : forall ver ct, cl !! ver = Some ct -> exists c t, ct !! c = Some t;
  co_table : forall ver ct c t, cl !! ver = Some ct -> ct !! c = Some t ->
    methods_ok t /\ 0 <= c < MAX_MGMT_CLASS /\ exists a r, regs !! a = Some r /\ asks r ver c
}.

Record vendors_ok (vn : gmap Z ib_mad_mgmt_vendor_class_table) (regs : gmap Z ib_mad_reg_req) : Prop := {
  vn_cells : forall ver vc o m a, o <> 0 -> vcell vn ver vc o m = Some a <-> exists r, regs !! a = Some r /\ asks_vendor r ver vc o /\ bit_of r.(method_mask) m = true;
  vn_used : forall ver vt, vn !! ver = Some vt -> exists vc v, vt !! vc = Some v;
  vn_class : forall ver vt vc v, vn !! ver = Some vt -> vt !! vc = Some v ->
    vendor_ok v /\ 0 <= vc < MAX_MGMT_VENDOR_RANGE2 /\ exists k o t, v !! k = Some (o, Some t);
  vn_table : forall ver vt vc v k o t, vn !! ver = Some vt -> vt !! vc = Some v -> v !! k = Some (o, Some t) ->
    methods_ok t /\ exists a r, regs !! a = Some r /\ asks_vendor r ver vc o;
  vn_length : forall ver vt vc v, vn !! ver = Some vt -> vt !! vc = Some v -> Z.of_nat (length v) = MAX_MGMT_OUI
}.

Record tables_ok (p : ib_mad_port_private) (regs : gmap Z ib_mad_reg_req) : Prop := {
  to_class : class_ok p.(class) regs;
  to_vendor : vendors_ok p.(vendor) regs;
  to_reqs : forall a r, regs !! a = Some r -> req_ok r
}.

(** Each half depends on its own requests only. *)
Lemma class_ok_ext cl regs regs' : (forall a r, for_vendor r = false -> regs !! a = Some r <-> regs' !! a = Some r) -> class_ok cl regs -> class_ok cl regs'.
Proof.
  intros He [H1 H2 H3]. split; [|done|].
  - intros ver c m a. rewrite H1. split; intros (r & Hr & Hk & Hb); exists r; (split_and!; [|done..]); apply He; (done || apply Hk).
  - intros ver ct c t Hv Ht. destruct (H3 _ _ _ _ Hv Ht) as (? & ? & a & r & Hr & Hk). do 2 (split; [done|]). exists a, r. split; [|done]. apply He; [apply Hk|done].
Qed.

Lemma vendors_ok_ext vn regs regs' : (forall a r, for_vendor r = true -> regs !! a = Some r <-> regs' !! a = Some r) -> vendors_ok vn regs -> vendors_ok vn regs'.
Proof.
  intros He [H1 H2 H3 H4 H5]. split; [|done|done| |done].
  - intros ver vc o m a Ho. rewrite H1 by done. split; intros (r & Hr & Hk & Hb); exists r; (split_and!; [|done..]); apply He; (done || apply Hk).
  - intros ver vt vc v k o t Hv Ht Hk0. destruct (H4 _ _ _ _ _ _ _ Hv Ht Hk0) as (? & a & r & Hr & Hk). split; [done|]. exists a, r. split; [|done]. apply He; [apply Hk|done].
Qed.

Lemma insert_other (regs : gmap Z ib_mad_reg_req) a r b : regs !! a = None -> for_vendor r = negb b ->
  forall a' r', for_vendor r' = b -> regs !! a' = Some r' <-> <[a := r]> regs !! a' = Some r'.
Proof.
  intros Ha Hr a' r' Hr'. destruct (decide (a' = a)) as [->|Hne]; [rewrite lookup_insert_eq|by rewrite lookup_insert_ne].
  split; [congruence|]. intros [= ->]. destruct b; cbn in Hr; congruence.
Qed.

Lemma delete_other (regs : gmap Z ib_mad_reg_req) a r b : regs !! a = Some r -> for_vendor r = negb b ->
  forall a' r', for_vendor r' = b -> regs !! a' = Some r' <-> delete a regs !! a' = Some r'.
Proof.
  intros Ha Hr a' r' Hr'. destruct (decide (a' = a)) as [->|Hne]; [rewrite lookup_delete_eq|by rewrite lookup_delete_ne].
  split; [|done]. intros E. assert (r' = r) as -> by congruence. destruct b; cbn in Hr; congruence.
Qed.

(** ** Adding a request to a class *)

Lemma cell_default cl ver c m : cell cl ver c m = default ∅ (default ∅ (cl !! ver) !! c) !! m.
Proof.
  unfold cell, mbind, option_bind. destruct (cl !! ver) as [ct|]; cbn; [|by rewrite !lookup_empty]. destruct (ct !! c); cbn; [done|by rewrite lookup_empty].
Qed.

Definition put_methods (cl : gmap Z ib_mad_mgmt_class_table) (ver c : Z) (t : ib_mad_mgmt_method_table) := <[ver := <[c := t]> (default ∅ (cl !! ver))]> cl.

Lemma cell_put cl ver c t ver' c' m : cell (put_methods cl ver c t) ver' c' m = if decide (ver' = ver /\ c' = c) then t !! m else cell cl ver' c' m.
Proof.
  rewrite !cell_default. unfold put_methods. destruct (decide (ver' = ver)) as [->|Hv].
  - rewrite lookup_insert_eq. cbn. destruct (decide (c' = c)) as [->|Hc].
    + rewrite lookup_insert_eq, decide_True by done. done.
    + rewrite lookup_insert_ne, decide_False by (congruence || naive_solver). done.
  - rewrite lookup_insert_ne, decide_False by (congruence || naive_solver). done.
Qed.

Lemma convert_range r : req_ok r -> 0 <= convert_mgmt_class r.(mgmt_class) < MAX_MGMT_CLASS.
Proof. intros [[Hc|Hc] _]; unfold convert_mgmt_class; [case_match; unfold MAX_MGMT_CLASS in *; lia|rewrite Hc; done]. Qed.

(** The table a request goes to, old or new. *)
Definition table_of (cl : gmap Z ib_mad_mgmt_class_table) (ver c : Z) : ib_mad_mgmt_method_table := default ∅ (default ∅ (cl !! ver) !! c).

Lemma table_methods_ok cl regs ver c : class_ok cl regs -> methods_ok (table_of cl ver c).
Proof.
  intros Hc. unfold table_of. destruct (cl !! ver) as [ct|] eqn:E; cbn; [|rewrite lookup_empty; by intros ? ?].
  destruct (ct !! c) as [t|] eqn:Et; cbn; [by apply (co_table _ _ Hc _ _ _ _ E Et)|by intros ? ?].
Qed.

Lemma install_class cl regs r a : class_ok cl regs -> regs !! a = None -> req_ok r -> for_vendor r = false ->
  let ver := r.(mgmt_class_version) in let c := convert_mgmt_class r.(mgmt_class) in
  method_in_use (table_of cl ver c) r = false ->
  class_ok (put_methods cl ver c (add_methods (table_of cl ver c) r a)) (<[a := r]> regs).
Proof.
  intros Hc Ha Hr Hv ver c Hu. assert (Hask : asks r ver c) by done. pose proof (table_methods_ok cl regs ver c Hc) as Hm.
  assert (Hnew : forall a' r', regs !! a' = Some r' -> <[a := r]> regs !! a' = Some r') by (intros a' r' E; rewrite lookup_insert_ne; [done|congruence]).
  split.
  - intros ver' c' m a'. rewrite cell_put. destruct (decide (ver' = ver /\ c' = c)) as [[-> ->]|Hne].
    + rewrite add_methods_lookup. destruct (bit_of r.(method_mask) m) eqn:Eb.
      * split; [intros [= <-]; exists r; by rewrite lookup_insert_eq|]. intros (r' & Hr' & Hk & Hb).
        apply lookup_insert_Some in Hr' as [[-> _]|[_ Hr']]; [done|]. exfalso. assert (Hcell : cell cl ver c m = Some a') by (apply (co_cells _ _ Hc); by exists r').
        rewrite cell_default in Hcell. assert (method_in_use (table_of cl ver c) r = true); [|congruence]. apply in_use_spec. by exists m, a'.
      * change (table_of cl ver c !! m) with (default ∅ (default ∅ (cl !! ver) !! c) !! m). rewrite <- (cell_default cl ver c m), (co_cells _ _ Hc). split; intros (r' & Hr' & Hk & Hb); exists r'; (split_and!; [|done..]); [by apply Hnew|].
        apply lookup_insert_Some in Hr' as [[-> ->]|[_ Hr']]; [congruence|done].
    + rewrite (co_cells _ _ Hc). split; intros (r' & Hr' & Hk & Hb); exists r'; (split_and!; [|done..]); [by apply Hnew|].
      apply lookup_insert_Some in Hr' as [[-> ->]|[_ Hr']]; [|done]. destruct Hk as (_ & E1 & E2). by destruct Hne.
  - intros ver' ct E. unfold put_methods in E. apply lookup_insert_Some in E as [[<- <-]|[_ E]]; [|by apply (co_used _ _ Hc ver')]. eexists c, _. apply lookup_insert_eq.
  - intros ver' ct c' t E Ht. unfold put_methods in E. apply lookup_insert_Some in E as [[<- <-]|[_ E]]; [apply lookup_insert_Some in Ht as [[<- <-]|[_ Ht]]|].
    + split; [|split; [by apply convert_range|exists a, r; by rewrite lookup_insert_eq]]. intros m a'. rewrite add_methods_lookup. destruct (bit_of _ m) eqn:Eb; [|apply Hm].
      intros _. unfold bit_of in Eb. bool_arith. lia.
    + destruct (cl !! ver) as [ct|] eqn:E; cbn in Ht; [|by rewrite lookup_empty in Ht]. destruct (co_table _ _ Hc _ _ _ _ E Ht) as (? & ? & a' & r' & Hr' & Hk). do 2 (split; [done|]). exists a', r'. split; [by apply Hnew|done].
    + destruct (co_table _ _ Hc _ _ _ _ E Ht) as (? & ? & a' & r' & Hr' & Hk). do 2 (split; [done|]). exists a', r'. split; [by apply Hnew|done].
Qed.

Lemma add_nonoui_eq p r a mem : let ver := r.(mgmt_class_version) in let c := convert_mgmt_class r.(mgmt_class) in
  method_in_use (table_of p.(class) ver c) r = false ->
  add_nonoui_reg_req p r a c mem = (p, - ENOMEM) \/
  add_nonoui_reg_req p r a c mem = (set_class p (put_methods p.(class) ver c (add_methods (table_of p.(class) ver c) r a)), 0).
Proof.
  intros ver c Hu. unfold add_nonoui_reg_req, put_methods. fold ver. unfold table_of in *. destruct (p.(class) !! ver) as [ct|] eqn:E; cbn in Hu |- *.
  - destruct (ct !! c) as [t|] eqn:Et; cbn in Hu |- *; [rewrite Hu; by right|]. destruct mem.(m_method); cbn; [rewrite Hu; by right|by left].
  - rewrite lookup_empty in Hu |- *. cbn in Hu |- *. destruct mem.(m_class); cbn; [|by left]. destruct mem.(m_method); cbn; [rewrite Hu; by right|].
    left. rewrite delete_insert_id by done. by destruct p.
Qed.

(** ** Removing a request from a class *)

Lemma asks_not_vendor r ver c : asks r ver c -> is_vendor_class c = false.
Proof. by intros (Hv & _ & <-). Qed.

Lemma remove_class_vendor p regs r a : class_ok p.(class) regs -> for_vendor r = true -> remove_class_req p r a = p.
Proof.
  intros Hc Hv. unfold remove_class_req. destruct (p.(class) !! _) as [ct|] eqn:E; [|done]. destruct (ct !! _) as [t|] eqn:Et; [|done].
  destruct (co_table _ _ Hc _ _ _ _ E Et) as (_ & _ & a' & r' & _ & Hk). apply asks_not_vendor in Hk. unfold for_vendor in Hv. congruence.
Qed.

Lemma check_class_spec cl regs ver ct : class_ok cl regs -> cl !! ver = Some ct -> forall c,
  check_class_table (delete c ct) = false -> forall c' t, ct !! c' = Some t -> c' = c.
Proof.
  intros Hc Hv c Hch c' t Ht. destruct (decide (c' = c)) as [|Hne]; [done|]. exfalso.
  assert (check_class_table (delete c ct) = true); [|congruence]. apply (existsb_some (fun i => delete c ct !! i)). exists c', t.
  rewrite lookup_delete_ne by done. split; [|done]. apply elem_of_seqZ. destruct (co_table _ _ Hc _ _ _ _ Hv Ht) as (_ & Hb & _). lia.
Qed.

Lemma check_class_true (ct : ib_mad_mgmt_class_table) : check_class_table ct = true -> exists c t, ct !! c = Some t.
Proof. intros Hc. apply (existsb_some (fun i => ct !! i)) in Hc as (c & t & _ & E). by exists c, t. Qed.

(** The class tables after the removal, when the request has a table. *)
Definition removed_class (cl : gmap Z ib_mad_mgmt_class_table) (ver c : Z) (ct : ib_mad_mgmt_class_table) (t' : ib_mad_mgmt_method_table) :=
  if check_method_table t' then <[ver := <[c := t']> ct]> cl else if check_class_table (delete c ct) then <[ver := delete c ct]> cl else delete ver cl.

Lemma cell_removed cl regs ver c ct t' : class_ok cl regs -> cl !! ver = Some ct -> methods_ok t' -> forall ver' c' m,
  cell (removed_class cl ver c ct t') ver' c' m = if decide (ver' = ver /\ c' = c) then t' !! m else cell cl ver' c' m.
Proof.
  intros Hc Hv Ht' ver' c' m. unfold removed_class, cell, mbind, option_bind. destruct (check_method_table t') eqn:E1; [|destruct (check_class_table (delete c ct)) eqn:E2].
  - destruct (decide (ver' = ver)) as [->|Hne]; [rewrite lookup_insert_eq, Hv|by rewrite lookup_insert_ne, decide_False by naive_solver].
    destruct (decide (c' = c)) as [->|Hne]; [by rewrite lookup_insert_eq, decide_True|by rewrite lookup_insert_ne, decide_False by naive_solver].
  - apply check_method_spec in E1 as ->; [|done]. destruct (decide (ver' = ver)) as [->|Hne]; [rewrite lookup_insert_eq, Hv|by rewrite lookup_insert_ne, decide_False by naive_solver].
    destruct (decide (c' = c)) as [->|Hne]; [by rewrite lookup_delete_eq, decide_True, lookup_empty|by rewrite lookup_delete_ne, decide_False by naive_solver].
  - apply check_method_spec in E1 as ->; [|done]. destruct (decide (ver' = ver)) as [->|Hne]; [rewrite lookup_delete_eq, Hv|by rewrite lookup_delete_ne, decide_False by naive_solver].
    destruct (decide (c' = c)) as [->|Hne]; [by rewrite decide_True, lookup_empty|]. rewrite decide_False by naive_solver.
    destruct (ct !! c') as [t|] eqn:Et; [|done]. by destruct Hne; eapply check_class_spec.
Qed.

Lemma delete_regs (regs : gmap Z ib_mad_reg_req) a a' r' : delete a regs !! a' = Some r' <-> a' <> a /\ regs !! a' = Some r'.
Proof. rewrite lookup_delete_Some. naive_solver. Qed.

(** Tables from which the methods of [a] are gone, and with them what is empty. *)
Lemma class_ok_remove cl cl' regs r a : class_ok cl regs -> regs !! a = Some r -> for_vendor r = false ->
  let here ver' c' := ver' = r.(mgmt_class_version) /\ c' = convert_mgmt_class r.(mgmt_class) in
  (forall ver' c' m, cell cl' ver' c' m = if bool_decide (cell cl ver' c' m = Some a) then None else cell cl ver' c' m) ->
  (forall ver' ct', cl' !! ver' = Some ct' -> exists c' t', ct' !! c' = Some t') ->
  (forall ver' ct' c' t', cl' !! ver' = Some ct' -> ct' !! c' = Some t' ->
     (~ here ver' c' /\ exists ct0, cl !! ver' = Some ct0 /\ ct0 !! c' = Some t') \/
     (methods_ok t' /\ 0 <= c' < MAX_MGMT_CLASS /\ exists m a', t' !! m = Some a')) ->
  class_ok cl' (delete a regs).
Proof.
  intros Hc Ha Hv here Hcell Hused Htab.
  assert (Hcells : forall ver c m a', cell cl' ver c m = Some a' <-> exists r', delete a regs !! a' = Some r' /\ asks r' ver c /\ bit_of r'.(method_mask) m = true).
  { intros ver c m a'. rewrite Hcell. destruct (bool_decide (cell cl ver c m = Some a)) eqn:Eb.
    - apply bool_decide_eq_true in Eb. split; [done|]. intros (r' & [Hne Hr']%delete_regs & Hk & Hb). assert (Hx : cell cl ver c m = Some a') by (apply (co_cells _ _ Hc); by exists r'). congruence.
    - apply bool_decide_eq_false in Eb. rewrite (co_cells _ _ Hc). split; intros (r' & Hr' & Hk & Hb); exists r'; (split; [|by split]).
      + apply delete_regs. split; [|done]. intros ->. destruct Eb. apply (co_cells _ _ Hc). by exists r'.
      + by apply delete_regs in Hr' as [_ ?]. }
  split; [done..|]. intros ver ct c t E Et. destruct (Htab _ _ _ _ E Et) as [[Hne (ct0 & E0 & Et0)]|(Hm & Hb & m & a' & Hma)].
  - destruct (co_table _ _ Hc _ _ _ _ E0 Et0) as (Hm & Hb & a' & r' & Hr' & Hk). do 2 (split; [done|]). exists a', r'. split; [|done]. apply delete_regs. split; [|done].
    intros ->. assert (r' = r) as -> by congruence. destruct Hk as (_ & <- & <-). by apply Hne.
  - do 2 (split; [done|]). assert (Hx : cell cl' ver c m = Some a') by (unfold cell, mbind, option_bind; by rewrite E, Et).
    apply Hcells in Hx as (r' & Hr' & Hk & _). by exists a', r'.
Qed.

Lemma cell_here cl regs r a ver c m : class_ok cl regs -> regs !! a = Some r -> cell cl ver c m = Some a ->
  ver = r.(mgmt_class_version) /\ c = convert_mgmt_class r.(mgmt_class).
Proof. intros Hc Ha Hx. apply (co_cells _ _ Hc) in Hx as (r' & Hr' & (_ & <- & <-) & _). assert (r' = r) as -> by congruence. done. Qed.

Lemma removed_tables cl regs ver c ct t t' : class_ok cl regs -> cl !! ver = Some ct -> ct !! c = Some t -> methods_ok t' ->
  (forall ver' ct', removed_class cl ver c ct t' !! ver' = Some ct' -> exists c' t'', ct' !! c' = Some t'') /\
  (forall ver' ct' c' t'', removed_class cl ver c ct t' !! ver' = Some ct' -> ct' !! c' = Some t'' ->
     (~ (ver' = ver /\ c' = c) /\ exists ct0, cl !! ver' = Some ct0 /\ ct0 !! c' = Some t'') \/
     (methods_ok t'' /\ 0 <= c' < MAX_MGMT_CLASS /\ exists m a', t'' !! m = Some a')).
Proof.
  intros Hc E Et Ht'. pose proof (co_table _ _ Hc _ _ _ _ E Et) as (_ & Hb & _). unfold removed_class.
  destruct (check_method_table t') eqn:E1; [|destruct (check_class_table (delete c ct)) eqn:E2]; split.
  - intros ver' ct' [[<- <-]|[_ E']]%lookup_insert_Some; [eexists c, _; apply lookup_insert_eq|by apply (co_used _ _ Hc ver')].
  - intros ver' ct' c' t'' [[<- <-]|[Hne E']]%lookup_insert_Some Ht''; [apply lookup_insert_Some in Ht'' as [[<- <-]|[Hne Ht'']]|].
    + right. do 2 (split; [done|]). by apply check_method_true.
    + left. split; [naive_solver|by exists ct].
    + left. split; [naive_solver|by exists ct'].
  - intros ver' ct' [[<- <-]|[_ E']]%lookup_insert_Some; [by apply check_class_true|by apply (co_used _ _ Hc ver')].
  - intros ver' ct' c' t'' [[<- <-]|[Hne E']]%lookup_insert_Some Ht''; [apply lookup_delete_Some in Ht'' as [Hne Ht'']|]; left; (split; [naive_solver|]); [by exists ct|by exists ct'].
  - intros ver' ct' [_ E']%lookup_delete_Some. by apply (co_used _ _ Hc ver').
  - intros ver' ct' c' t'' [Hne E']%lookup_delete_Some Ht''. left. split; [naive_solver|]. by exists ct'.
Qed.

Lemma remove_class_eq p r a ct t : p.(class) !! r.(mgmt_class_version) = Some ct -> ct !! convert_mgmt_class r.(mgmt_class) = Some t ->
  remove_class_req p r a = set_class p (removed_class p.(class) r.(mgmt_class_version) (convert_mgmt_class r.(mgmt_class)) ct (remove_methods_mad_agent t a)).
Proof. intros E Et. unfold remove_class_req, removed_class. rewrite E, Et. by repeat case_match. Qed.

Lemma remove_class_ok p regs r a : class_ok p.(class) regs -> regs !! a = Some r -> for_vendor r = false ->
  class_ok (remove_class_req p r a).(class) (delete a regs) /\ (remove_class_req p r a).(vendor) = p.(vendor).
Proof.
  intros Hc Ha Hv. destruct (p.(class) !! r.(mgmt_class_version)) as [ct|] eqn:E; [destruct (ct !! convert_mgmt_class r.(mgmt_class)) as [t|] eqn:Et|].
  - rewrite (remove_class_eq p r a ct t E Et). split; [|done]. cbn. destruct (co_table _ _ Hc _ _ _ _ E Et) as (Hm & _).
    assert (Hm' : methods_ok (remove_methods_mad_agent t a)).
    { intros m a'. rewrite remove_methods_lookup by done. case_match; [done|]. apply Hm. }
    destruct (removed_tables _ _ _ _ _ _ _ Hc E Et Hm') as [Hu Htab]. apply (class_ok_remove p.(class) _ regs r a); [done..| |exact Hu|exact Htab].
    intros ver' c' m. rewrite (cell_removed _ _ _ _ _ _ Hc E Hm'). destruct (decide _) as [[-> ->]|Hne].
    + rewrite remove_methods_lookup by done. unfold cell, mbind, option_bind. by rewrite E, Et.
    + rewrite bool_decide_false; [done|]. intros Hx. destruct Hne. by eapply cell_here.
  - unfold remove_class_req. rewrite E, Et. split; [|done]. apply (class_ok_remove p.(class) _ regs r a); [done..| |apply Hc|].
    + intros ver' c' m. rewrite bool_decide_false; [done|]. intros Hx. destruct (cell_here _ _ _ _ _ _ _ Hc Ha Hx) as [-> ->].
      unfold cell, mbind, option_bind in Hx. by rewrite E, Et in Hx.
    + intros ver' ct' c' t' Hv' Ht'. left. split; [intros [-> ->]; congruence|by exists ct'].
  - unfold remove_class_req. rewrite E. split; [|done]. apply (class_ok_remove p.(class) _ regs r a); [done..| |apply Hc|].
    + intros ver' c' m. rewrite bool_decide_false; [done|]. intros Hx. destruct (cell_here _ _ _ _ _ _ _ Hc Ha Hx) as [-> ->].
      unfold cell, mbind, option_bind in Hx. by rewrite E in Hx.
    + intros ver' ct' c' t' Hv' Ht'. left. split; [intros [-> ->]; congruence|by exists ct'].
Qed.
