(* ===== verification/MadRegVendor.v ===== *)
(** The vendor half of the registration tables of MadReg.v, proved: vendor classes
    with their OUIs, on the pattern of MadRegTables.v. *)

From S2P Require Import Prelude RmppRecv RmppSend MadReg MadRegTables.
#[local] Open Scope Z_scope.

(** ** The slot of an OUI *)

Lemma in_use_vendor v r : vendor_ok v -> r.(oui) <> 0 -> is_vendor_method_in_use v r = method_in_use (default ∅ (oui_table v r.(oui))) r.
Proof.
  intros Hv Ho. assert (Hgen : forall l, (forall k o t, l !! k = Some (o, t) -> o <> 0 <-> is_Some t) ->
    (forall k k' o t t', l !! k = Some (o, t) -> l !! k' = Some (o, t') -> o <> 0 -> k = k') ->
    is_vendor_method_in_use l r = method_in_use (default ∅ (oui_table l r.(oui))) r).
  { intros l H1 H2. assert (Hl : vendor_ok l) by by split. destruct (oui_table l r.(oui)) as [t|] eqn:E.
    - apply oui_table_spec in E as (k & Hk); [|done..]. cbn. clear Hv Hl. revert l H1 H2 Hk. induction k as [|k IH]; intros [|[o t0] l] H1 H2 Hk; try done; cbn [is_vendor_method_in_use].
      + injection Hk as -> ->. by rewrite Z.eqb_refl.
      + destruct (Z.eqb_spec o r.(oui)) as [->|Hne]; [by pose proof (H2 0%nat (S k) _ _ _ eq_refl Hk Ho)|].
        apply IH; [intros k' o' t'; apply (H1 (S k'))| |done]. intros k1 k2 o' t1 t2 E1 E2 Hn. pose proof (H2 (S k1) (S k2) o' t1 t2 E1 E2 Hn). lia.
    - cbn. assert (Hno : forall k t, l !! k <> Some (r.(oui), Some t)) by (intros k t Hk; assert (Hx : oui_table l r.(oui) = Some t) by (apply oui_table_spec; [done..|by exists k]); congruence).
      assert (Hemp : method_in_use ∅ r = false).
      { destruct (method_in_use ∅ r) eqn:Eu; [|done]. apply in_use_spec in Eu as (m & a & _ & Hm). by rewrite lookup_empty in Hm. }
      rewrite Hemp. clear -Hno. revert Hno. induction l as [|[o t] l IH]; intros Hno; cbn [is_vendor_method_in_use]; [done|].
      destruct (Z.eqb_spec o r.(oui)) as [->|Hne]; [destruct t as [t|]; [by destruct (Hno 0%nat t)|]|]; apply IH; intros k; apply (Hno (S k)). }
  apply Hgen; apply Hv.
Qed.

(** What [oui_slot] answers. *)
Lemma oui_slot_ok v o mem i t v' : vendor_ok v -> o <> 0 -> oui_slot v o mem = inr (i, t, v') ->
  t = default ∅ (oui_table v o) /\ forall t', vendor_ok (<[Z.to_nat i := (o, Some t')]> v') /\
    <[Z.to_nat i := (o, Some t')]> v' !! Z.to_nat i = Some (o, Some t') /\
    (forall k o0 t0, <[Z.to_nat i := (o, Some t')]> v' !! k = Some (o0, Some t0) -> k <> Z.to_nat i -> v !! k = Some (o0, Some t0) /\ o0 <> o) /\
    forall o', o' <> 0 -> oui_table (<[Z.to_nat i := (o, Some t')]> v') o' = if decide (o' = o) then Some t' else oui_table v o'.
Proof.
  intros Hv Ho. unfold oui_slot. pose proof (find_oui_spec v o 0 ltac:(lia)) as Hf. pose proof (find_oui_spec v 0 0 ltac:(lia)) as Hf0.
  assert (Hput : forall k s t', v !! k = Some s -> s.1 = o \/ s.1 = 0 /\ (forall k' s', v !! k' = Some s' -> s'.1 <> o) ->
    vendor_ok (<[k := (o, Some t')]> v) /\ <[k := (o, Some t')]> v !! k = Some (o, Some t') /\
    (forall k0 o0 t0, <[k := (o, Some t')]> v !! k0 = Some (o0, Some t0) -> k0 <> k -> v !! k0 = Some (o0, Some t0) /\ o0 <> o) /\
    forall o', o' <> 0 -> oui_table (<[k := (o, Some t')]> v) o' = if decide (o' = o) then Some t' else oui_table v o').
  { intros k [o1 t1] t' Hk Hcase. cbn in Hcase. pose proof (lookup_lt_Some _ _ _ Hk) as Hlt.
    assert (Hu : o <> 0 -> forall k' t0, v !! k' = Some (o, t0) -> k' = k).
    { intros _ k' t0 Hk'. destruct Hcase as [->|[_ Hno]]; [by eapply (vo_once v Hv)|by destruct (Hno _ _ Hk')]. }
    assert (Hv' : vendor_ok (<[k := (o, Some t')]> v)) by (apply vendor_ok_insert; [done|by split; [eexists|]|done]).
    split; [done|]. split; [by apply list_lookup_insert_eq|]. split.
    - intros k0 o0 t0 Hk0 Hne. apply list_lookup_insert_Some in Hk0 as [(-> & _)|[_ Hk0]]; [done|]. split; [done|]. intros ->. by destruct Hne; eapply Hu.
    - intros o' Ho'. apply oui_table_insert; try done. intros o0 t0 E. rewrite Hk in E. injection E as -> ->. destruct Hcase as [->|[-> _]]; [by left|by right]. }
  destruct Hf as [[-> Hno]|[Hge [t0 Ht0]]].
  - cbn. destruct Hf0 as [[-> _]|[Hge0 [t0 Ht0]]]; [done|]. rewrite Z.sub_0_r in Ht0. rewrite (proj2 (Z.leb_le 0 _)) by done. rewrite Ht0.
    destruct t0 as [t0|]; [by pose proof (proj2 (vo_table v Hv _ _ _ Ht0) ltac:(by eexists))|]. destruct (negb mem.(m_method)); [done|]. intros [= <- <- <-].
    assert (En : oui_table v o = None).
    { destruct (oui_table v o) as [t'|] eqn:E; [|done]. apply oui_table_spec in E as (k & Hk); [|done..]. by destruct (Hno _ _ Hk). }
    rewrite En. split; [done|]. intros t'. rewrite list_insert_insert_eq. eapply Hput; [done|]. right. split; [done|]. intros k' s'. apply Hno.
  - rewrite Z.sub_0_r in Ht0. rewrite (proj2 (Z.leb_le 0 _)) by done. rewrite Ht0. destruct t0 as [t0|]; [|done]. intros [= <- <- <-].
    assert (Et : oui_table v o = Some t0) by (apply oui_table_spec; [done..|by eexists]). rewrite Et. split; [done|]. intros t'. eapply Hput; [done|by left].
Qed.

(** ** Adding a request *)

Definition vclass_of (vn : gmap Z ib_mad_mgmt_vendor_class_table) (ver vc : Z) : ib_mad_mgmt_vendor_class := default new_vendor_class (default ∅ (vn !! ver) !! vc).

Definition put_vclass (vn : gmap Z ib_mad_mgmt_vendor_class_table) (ver vc : Z) (v : ib_mad_mgmt_vendor_class) := <[ver := <[vc := v]> (default ∅ (vn !! ver))]> vn.

Lemma new_oui_table o : o <> 0 -> oui_table new_vendor_class o = None.
Proof.
  intros Ho. destruct (oui_table new_vendor_class o) as [t|] eqn:E; [|done]. apply oui_table_spec in E as (k & Hk); [|apply new_vendor_ok|done].
  apply lookup_replicate in Hk as [? _]. congruence.
Qed.

Lemma vcell_default vn ver vc o m : o <> 0 -> vcell vn ver vc o m = default ∅ (oui_table (vclass_of vn ver vc) o) !! m.
Proof.
  intros Ho. unfold vcell, vclass_of, mbind, option_bind. destruct (vn !! ver) as [vt|]; cbn [default from_option id];
    [|rewrite lookup_empty; cbn [default from_option id]; rewrite new_oui_table by done; symmetry; apply lookup_empty].
  destruct (vt !! vc) as [v|]; cbn [default from_option id]; [|rewrite new_oui_table by done; symmetry; apply lookup_empty].
  destruct (oui_table v o); [done|]. symmetry. apply lookup_empty.
Qed.

Lemma vclass_put vn ver vc v ver' vc' : vclass_of (put_vclass vn ver vc v) ver' vc' = if decide (ver' = ver /\ vc' = vc) then v else vclass_of vn ver' vc'.
Proof.
  unfold vclass_of, put_vclass. destruct (decide (ver' = ver)) as [->|Hne]; [rewrite lookup_insert_eq; cbn|by rewrite lookup_insert_ne, decide_False by naive_solver].
  destruct (decide (vc' = vc)) as [->|Hne]; [by rewrite lookup_insert_eq, decide_True|by rewrite lookup_insert_ne, decide_False by naive_solver].
Qed.

Lemma vclass_ok vn regs ver vc : vendors_ok vn regs -> vendor_ok (vclass_of vn ver vc).
Proof.
  intros Hc. unfold vclass_of. destruct (vn !! ver) as [vt|] eqn:E; cbn [default from_option id]; [|rewrite lookup_empty; apply new_vendor_ok].
  destruct (vt !! vc) as [v|] eqn:Ev; cbn; [by apply (vn_class _ _ Hc _ _ _ _ E Ev)|apply new_vendor_ok].
Qed.

Lemma vclass_slot vn regs ver vc k o t : vendors_ok vn regs -> vclass_of vn ver vc !! k = Some (o, Some t) ->
  methods_ok t /\ exists a r, regs !! a = Some r /\ asks_vendor r ver vc o.
Proof.
  intros Hc. unfold vclass_of. destruct (vn !! ver) as [vt|] eqn:E; cbn [default from_option id].
  - destruct (vt !! vc) as [v|] eqn:Ev; cbn; [intros Hk; by apply (vn_table _ _ Hc _ _ _ _ _ _ _ E Ev Hk)|]. intros Hk. apply lookup_replicate in Hk as [? _]. congruence.
  - rewrite lookup_empty. cbn [default from_option id]. intros Hk. apply lookup_replicate in Hk as [? _]. congruence.
Qed.

Lemma vclass_length vn regs ver vc : vendors_ok vn regs -> Z.of_nat (length (vclass_of vn ver vc)) = MAX_MGMT_OUI.
Proof.
  intros Hc. unfold vclass_of. destruct (vn !! ver) as [vt|] eqn:E; cbn [default from_option id]; [|by rewrite lookup_empty].
  destruct (vt !! vc) as [v|] eqn:Ev; cbn [default from_option id]; [by apply (vn_length _ _ Hc _ _ _ _ E Ev)|done].
Qed.

Lemma oui_slot_length v o mem i t v' : oui_slot v o mem = inr (i, t, v') -> length v' = length v.
Proof.
  unfold oui_slot. intros E. repeat (case_match; try discriminate); injection E as <- <- <-; by rewrite ?length_insert.
Qed.

Lemma oui_methods_ok vn regs ver vc o : vendors_ok vn regs -> o <> 0 -> methods_ok (default ∅ (oui_table (vclass_of vn ver vc) o)).
Proof.
  intros Hc Ho. destruct (oui_table (vclass_of vn ver vc) o) as [t|] eqn:E; cbn [default from_option id]; [|by intros ? ?].
  apply oui_table_spec in E as (k & Hk); [|by eapply vclass_ok|done]. by eapply vclass_slot.
Qed.

Lemma vendor_index_range r : for_vendor r = true -> 0 <= vendor_class_index r.(mgmt_class) < MAX_MGMT_VENDOR_RANGE2 /\ is_vendor_class r.(mgmt_class) = true.
Proof.
  unfold for_vendor, convert_mgmt_class. destruct (r.(mgmt_class) =? _); [done|]. intros Hv. split; [|done]. revert Hv.
  unfold is_vendor_class, vendor_class_index, MAX_MGMT_VENDOR_RANGE2, IB_MGMT_CLASS_VENDOR_RANGE2_START, IB_MGMT_CLASS_VENDOR_RANGE2_END.
  destruct ((_ <? _) || _) eqn:E; [done|]. intros _. bool_arith. lia.
Qed.

Lemma install_vendor vn regs r a i v' : vendors_ok vn regs -> regs !! a = None -> for_vendor r = true -> r.(oui) <> 0 ->
  let ver := r.(mgmt_class_version) in let vc := vendor_class_index r.(mgmt_class) in let t := default ∅ (oui_table (vclass_of vn ver vc) r.(oui)) in
  method_in_use t r = false -> (exists mem, oui_slot (vclass_of vn ver vc) r.(oui) mem = inr (i, t, v')) ->
  vendors_ok (put_vclass vn ver vc (<[Z.to_nat i := (r.(oui), Some (add_methods t r a))]> v')) (<[a := r]> regs).
Proof.
  intros Hc Ha Hv Ho ver vc t Hu (mem & Hslot). destruct (oui_slot_ok _ _ _ _ _ _ (vclass_ok vn regs ver vc Hc) Ho Hslot) as [_ Hput].
  destruct (Hput (add_methods t r a)) as (Hv2 & Hat & Hother & Htab). set (v2 := <[Z.to_nat i := _]> v') in *.
  assert (Hask : asks_vendor r ver vc r.(oui)) by done. assert (Hnew : forall a' r', regs !! a' = Some r' -> <[a := r]> regs !! a' = Some r') by (intros a' r' E; rewrite lookup_insert_ne; [done|congruence]).
  assert (Hm : methods_ok t) by by eapply oui_methods_ok.
  assert (Hm2 : methods_ok (add_methods t r a)).
  { intros m a'. rewrite add_methods_lookup. destruct (bit_of _ m) eqn:Eb; [|apply Hm]. intros _. unfold bit_of in Eb. bool_arith. lia. }
  assert (Hcell : forall ver' vc' o m, o <> 0 -> vcell (put_vclass vn ver vc v2) ver' vc' o m =
    if decide (ver' = ver /\ vc' = vc /\ o = r.(oui)) then add_methods t r a !! m else vcell vn ver' vc' o m).
  { intros ver' vc' o m Ho'. rewrite !vcell_default by done. rewrite vclass_put. destruct (decide (ver' = ver /\ vc' = vc)) as [[-> ->]|Hne]; [|by rewrite decide_False by naive_solver].
    rewrite Htab by done. destruct (decide (o = r.(oui))) as [->|Hne]; [by rewrite decide_True|by rewrite decide_False by naive_solver]. }
  split.
  - intros ver' vc' o m a' Ho'. rewrite Hcell by done. destruct (decide (ver' = ver /\ vc' = vc /\ o = r.(oui))) as [(-> & -> & ->)|Hne].
    + rewrite add_methods_lookup. destruct (bit_of r.(method_mask) m) eqn:Eb.
      * split; [intros [= <-]; exists r; by rewrite lookup_insert_eq|]. intros (r' & Hr' & Hk & Hb). apply lookup_insert_Some in Hr' as [[-> _]|[_ Hr']]; [done|]. exfalso.
        assert (Hx : vcell vn ver vc r.(oui) m = Some a') by (apply (vn_cells _ _ Hc); [done|by exists r']). rewrite vcell_default in Hx by done.
        assert (method_in_use t r = true); [|congruence]. apply in_use_spec. by exists m, a'.
      * unfold t. rewrite <- vcell_default, (vn_cells _ _ Hc) by done. split; intros (r' & Hr' & Hk & Hb); exists r'; (split; [|by split]); [by apply Hnew|].
        apply lookup_insert_Some in Hr' as [[-> ->]|[_ Hr']]; [congruence|done].
    + rewrite (vn_cells _ _ Hc) by done. split; intros (r' & Hr' & Hk & Hb); exists r'; (split; [|by split]); [by apply Hnew|].
      apply lookup_insert_Some in Hr' as [[-> ->]|[_ Hr']]; [|done]. destruct Hk as (_ & E1 & E2 & E3). by destruct Hne.
  - intros ver' vt E. unfold put_vclass in E. apply lookup_insert_Some in E as [[<- <-]|[_ E]]; [eexists vc, _; apply lookup_insert_eq|by apply (vn_used _ _ Hc ver')].
  - intros ver' vt vc' v E Ev. unfold put_vclass in E. apply lookup_insert_Some in E as [[<- <-]|[_ E]]; [apply lookup_insert_Some in Ev as [[<- <-]|[_ Ev]]|by apply (vn_class _ _ Hc _ _ _ _ E Ev)].
    + split; [done|]. split; [by apply vendor_index_range|]. eexists _, _, _. exact Hat.
    + destruct (vn !! ver) as [vt|] eqn:E; cbn [default from_option id] in Ev; [|by rewrite lookup_empty in Ev]. by apply (vn_class _ _ Hc _ _ _ _ E Ev).
  - intros ver' vt vc' v k o t0 E Ev Hk. unfold put_vclass in E.
    assert (Hold : methods_ok t0 /\ (exists a' r', regs !! a' = Some r' /\ asks_vendor r' ver' vc' o) -> methods_ok t0 /\ exists a' r', <[a := r]> regs !! a' = Some r' /\ asks_vendor r' ver' vc' o).
    { intros [? (a' & r' & Hr' & Hk')]. split; [done|]. exists a', r'. split; [by apply Hnew|done]. }
    apply lookup_insert_Some in E as [[<- <-]|[_ E]]; [apply lookup_insert_Some in Ev as [[<- <-]|[_ Ev]]|by apply Hold, (vn_table _ _ Hc _ _ _ _ _ _ _ E Ev Hk)].
    + destruct (decide (k = Z.to_nat i)) as [->|Hne]; [rewrite Hat in Hk; injection Hk as <- <-; split; [done|]; exists a, r; by rewrite lookup_insert_eq|].
      destruct (Hother _ _ _ Hk Hne) as [Hk' _]. apply Hold. by eapply vclass_slot.
    + destruct (vn !! ver) as [vt|] eqn:E; cbn [default from_option id] in Ev; [|by rewrite lookup_empty in Ev]. by apply Hold, (vn_table _ _ Hc _ _ _ _ _ _ _ E Ev Hk).
  - intros ver' vt vc' v E Ev. unfold put_vclass in E. apply lookup_insert_Some in E as [[<- <-]|[_ E]]; [apply lookup_insert_Some in Ev as [[<- <-]|[_ Ev]]|by apply (vn_length _ _ Hc _ _ _ _ E Ev)].
    + unfold v2. rewrite length_insert, (oui_slot_length _ _ _ _ _ _ Hslot). by eapply vclass_length.
    + destruct (vn !! ver) as [vt|] eqn:E; cbn [default from_option id] in Ev; [|by rewrite lookup_empty in Ev]. by apply (vn_length _ _ Hc _ _ _ _ E Ev).
Qed.

(** Memory is there, or the allocations that may be needed succeed. *)
Definition all_memory (mem : reg_memory) : Prop := mem.(m_class) = true /\ mem.(m_method) = true /\ mem.(m_vendor) = true /\ mem.(m_vclass) = true.

(** No slot of the class is free or has the OUI. *)
Definition oui_full (v : ib_mad_mgmt_vendor_class) (o : Z) : Prop := forall k s, v !! k = Some s -> s.1 <> 0 /\ s.1 <> o.

(** The state after the allocations, before the OUI is looked for. *)
Lemma undo_allocated p ver vc : let vt := default ∅ (p.(vendor) !! ver) in let v := default new_vendor_class (vt !! vc) in
  let new_vendor := negb (is_some (p.(vendor) !! ver)) in let new_class := negb (is_some (vt !! vc)) in
  let q := if new_vendor then set_vendor p (<[ver := vt]> p.(vendor)) else p in
  undo_oui q ver vc new_vendor false = p /\
  undo_oui (if new_class then set_vendor q (<[ver := <[vc := v]> vt]> q.(vendor)) else q) ver vc new_vendor new_class = p.
Proof.
  cbn zeta. destruct p as [cl vn]. unfold undo_oui, set_vendor. cbn [vendor class]. destruct (vn !! ver) as [vt|] eqn:E; cbn [default from_option id is_some negb].
  - split; [done|]. destruct (vt !! vc) as [w|] eqn:Ew; cbn [default from_option id is_some negb vendor class]; [done|].
    rewrite alter_insert_eq, delete_insert_id by done. by rewrite insert_id.
  - rewrite lookup_empty. cbn [default from_option id is_some negb vendor class]. rewrite delete_insert_id by done. split; [done|].
    by rewrite insert_insert_eq, alter_insert_eq, delete_insert_eq, delete_id.
Qed.

Lemma put_allocated p ver vc v' : let vt := default ∅ (p.(vendor) !! ver) in let v := default new_vendor_class (vt !! vc) in
  let new_vendor := negb (is_some (p.(vendor) !! ver)) in let new_class := negb (is_some (vt !! vc)) in
  let q := if new_vendor then set_vendor p (<[ver := vt]> p.(vendor)) else p in
  let q := if new_class then set_vendor q (<[ver := <[vc := v]> vt]> q.(vendor)) else q in
  set_vendor q (<[ver := <[vc := v']> vt]> q.(vendor)) = set_vendor p (put_vclass p.(vendor) ver vc v').
Proof.
  cbn zeta. destruct p as [cl vn]. unfold set_vendor, put_vclass. cbn [vendor class]. do 2 (case_match; cbn [vendor class]); by rewrite ?insert_insert_eq.
Qed.

Lemma oui_slot_error v o mem ret : vendor_ok v -> o <> 0 -> oui_slot v o mem = inl ret -> ret = - ENOMEM /\ (mem.(m_method) = false \/ oui_full v o).
Proof.
  intros Hv Ho. unfold oui_slot. destruct (find_oui_spec v o 0 ltac:(lia)) as [[-> Hno]|[Hge [t Ht]]].
  - cbn [Z.leb]. change (0 <=? -1) with false. cbn iota. destruct (find_oui_spec v 0 0 ltac:(lia)) as [[-> Hn0]|[Hge0 [t0 Ht0]]].
    + cbn. intros [= <-]. split; [done|]. right. intros k s Hk. split; [by eapply Hn0|by eapply Hno].
    + rewrite Z.sub_0_r in Ht0. rewrite (proj2 (Z.leb_le 0 _)) by done. rewrite Ht0. destruct t0; [done|]. destruct mem.(m_method); cbn; [done|]. intros [= <-]. split; [done|by left].
  - rewrite Z.sub_0_r in Ht. rewrite (proj2 (Z.leb_le 0 _)) by done. rewrite Ht. destruct t as [t|]; [done|]. exfalso. destruct (proj1 (vo_table v Hv _ _ _ Ht) Ho). congruence.
Qed.

Lemma add_oui_eq p regs r a mem : vendors_ok p.(vendor) regs -> r.(oui) <> 0 ->
  let ver := r.(mgmt_class_version) in let vc := vendor_class_index r.(mgmt_class) in let v := vclass_of p.(vendor) ver vc in
  let t := default ∅ (oui_table v r.(oui)) in
  method_in_use t r = false ->
  (add_oui_reg_req p r a mem = (p, - ENOMEM) /\ (~ all_memory mem \/ oui_full v r.(oui))) \/
  exists i v', oui_slot v r.(oui) mem = inr (i, t, v') /\
    add_oui_reg_req p r a mem = (set_vendor p (put_vclass p.(vendor) ver vc (<[Z.to_nat i := (r.(oui), Some (add_methods t r a))]> v')), 0).
Proof.
  intros Hc Ho ver vc v t Hu. pose proof (undo_allocated p ver vc) as Hundo. pose proof (put_allocated p ver vc) as Hput. cbn zeta in Hundo, Hput. destruct Hundo as [Hundo1 Hundo2].
  unfold add_oui_reg_req. fold ver vc. cbn zeta. destruct (negb _ && negb mem.(m_vendor)) eqn:E1; [left; split; [done|left]|].
  { apply andb_true_iff in E1 as [_ E1%negb_true_iff]. unfold all_memory. rewrite E1. naive_solver. }
  destruct (negb _ && negb mem.(m_vclass)) eqn:E2; [left; rewrite Hundo1; split; [done|left]|].
  { apply andb_true_iff in E2 as [_ E2%negb_true_iff]. unfold all_memory. rewrite E2. naive_solver. }
  fold (vclass_of p.(vendor) ver vc). fold v. destruct (oui_slot v r.(oui) mem) as [ret|[[i t'] v']] eqn:Es.
  - left. apply oui_slot_error in Es as [-> Hf]; [|by eapply vclass_ok|done]. unfold v, vclass_of. rewrite Hundo2. split; [done|].
    destruct Hf as [Hf|Hf]; [|by right]. left. unfold all_memory. rewrite Hf. naive_solver.
  - right. exists i, v'. destruct (oui_slot_ok _ _ _ _ _ _ (vclass_ok _ _ ver vc Hc) Ho Es) as [Et _]. assert (t' = t) as -> by done. split; [done|]. rewrite Hu. unfold v, vclass_of. by rewrite Hput.
Qed.

(** ** Removing a request *)

(** A vendor class whose slot [k] of the OUI [o] keeps the methods [t'], if any. *)
Definition slot_after (v : ib_mad_mgmt_vendor_class) (k : nat) (o : Z) (t' : ib_mad_mgmt_method_table) : ib_mad_mgmt_vendor_class :=
  if check_method_table t' then <[k := (o, Some t')]> v else <[k := (0, None)]> v.

(** The vendor tables with [v'] at its place, or without it when it is empty. *)
Definition put_or_prune (vn : gmap Z ib_mad_mgmt_vendor_class_table) (ver vc : Z) (vt : ib_mad_mgmt_vendor_class_table) (v' : ib_mad_mgmt_vendor_class) :=
  if check_vendor_class v' then <[ver := <[vc := v']> vt]> vn else
  if check_vendor_table (delete vc vt) then <[ver := delete vc vt]> vn else delete ver vn.

Lemma check_class_slots (v : ib_mad_mgmt_vendor_class) : check_vendor_class v = true <-> exists k o t, v !! k = Some (o, Some t).
Proof.
  unfold check_vendor_class. rewrite existsb_exists. split.
  - intros ([o [t|]] & Hin & Hs); [|done]. apply list_elem_of_In, list_elem_of_lookup in Hin as [k Hk]. by exists k, o, t.
  - intros (k & o & t & Hk). exists (o, Some t). split; [|done]. apply list_elem_of_In, list_elem_of_lookup. by exists k.
Qed.

Lemma slot_after_ok v k o t t' : vendor_ok v -> o <> 0 -> methods_ok t' -> v !! k = Some (o, Some t) ->
  vendor_ok (slot_after v k o t') /\ length (slot_after v k o t') = length v /\
  (forall k' o' t0, slot_after v k o t' !! k' = Some (o', Some t0) -> (o' <> o /\ v !! k' = Some (o', Some t0)) \/ (o' = o /\ t0 = t' /\ exists m a, t' !! m = Some a)) /\
  forall o', o' <> 0 -> oui_table (slot_after v k o t') o' = if decide (o' = o) then (if check_method_table t' then Some t' else None) else oui_table v o'.
Proof.
  intros Hv Ho Hm Hk. pose proof (lookup_lt_Some _ _ _ Hk) as Hlt. unfold slot_after.
  assert (Hother : forall k' o' t0, v !! k' = Some (o', Some t0) -> k <> k' -> o' <> o) by (intros k' o' t0 Hk' Hne ->; by destruct Hne; eapply (vo_once v Hv)).
  destruct (check_method_table t') eqn:E.
  - assert (Hv' : vendor_ok (<[k := (o, Some t')]> v)).
    { apply vendor_ok_insert; [done|by split; [eexists|]|]. intros _ k' t0 Hk'. by eapply (vo_once v Hv). }
    split; [done|]. split; [apply length_insert|]. split.
    + intros k' o' t0 [(-> & E' & _)|[Hne Hk']]%list_lookup_insert_Some.
      * injection E' as <- <-. right. split; [done|]. split; [done|]. by apply check_method_true.
      * left. split; [by eapply Hother|done].
    + intros o' Ho'. apply oui_table_insert; try done. intros o0 t0 E0. rewrite Hk in E0. injection E0 as -> _. by left.
  - split; [|split; [apply length_insert|split]].
    + by apply (oui_table_clear v k o (Some t) o).
    + intros k' o' t0 [(-> & E' & _)|[Hne Hk']]%list_lookup_insert_Some; [done|]. left. split; [by eapply Hother|done].
    + intros o' Ho'. by apply (oui_table_clear v k o (Some t) o').
Qed.

Lemma check_vendor_spec vn regs ver vt vc : vendors_ok vn regs -> vn !! ver = Some vt -> check_vendor_table (delete vc vt) = false ->
  forall vc' v, vt !! vc' = Some v -> vc' = vc.
Proof.
  intros Hc Hv Hch vc' v Hvc. destruct (decide (vc' = vc)) as [|Hne]; [done|]. exfalso.
  assert (check_vendor_table (delete vc vt) = true); [|congruence]. apply (existsb_some (fun i => delete vc vt !! i)). exists vc', v.
  rewrite lookup_delete_ne by done. split; [|done]. apply elem_of_seqZ. destruct (vn_class _ _ Hc _ _ _ _ Hv Hvc) as (_ & Hb & _). lia.
Qed.

Lemma vcell_pruned vn regs ver vc vt v' o m ver' vc' : vendors_ok vn regs -> vn !! ver = Some vt -> vendor_ok v' -> o <> 0 ->
  vcell (put_or_prune vn ver vc vt v') ver' vc' o m = if decide (ver' = ver /\ vc' = vc) then (t ← oui_table v' o; (t : ib_mad_mgmt_method_table) !! m) else vcell vn ver' vc' o m.
Proof.
  intros Hc Hv Hok Ho. unfold put_or_prune.
  assert (Hnone : check_vendor_class v' = false -> (t ← oui_table v' o; (t : ib_mad_mgmt_method_table) !! m) = None).
  { intros E. destruct (oui_table v' o) as [t|] eqn:Et; [|done]. apply oui_table_spec in Et as (k & Hk); [|done..].
    assert (check_vendor_class v' = true); [|congruence]. apply check_class_slots. by exists k, o, t. }
  unfold vcell, mbind, option_bind in *. destruct (check_vendor_class v') eqn:E1; [|rewrite Hnone by done; destruct (check_vendor_table (delete vc vt)) eqn:E2].
  - destruct (decide (ver' = ver)) as [->|Hne]; [rewrite lookup_insert_eq, Hv|by rewrite lookup_insert_ne, decide_False by naive_solver].
    destruct (decide (vc' = vc)) as [->|Hne]; [by rewrite lookup_insert_eq, decide_True|by rewrite lookup_insert_ne, decide_False by naive_solver].
  - destruct (decide (ver' = ver)) as [->|Hne]; [rewrite lookup_insert_eq, Hv|by rewrite lookup_insert_ne, decide_False by naive_solver].
    destruct (decide (vc' = vc)) as [->|Hne]; [by rewrite lookup_delete_eq, decide_True|by rewrite lookup_delete_ne, decide_False by naive_solver].
  - destruct (decide (ver' = ver)) as [->|Hne]; [rewrite lookup_delete_eq, Hv|by rewrite lookup_delete_ne, decide_False by naive_solver].
    destruct (decide (vc' = vc)) as [->|Hne]; [by rewrite decide_True|]. rewrite decide_False by naive_solver.
    destruct (vt !! vc') as [v|] eqn:Ev; [|done]. by destruct Hne; eapply check_vendor_spec.
Qed.

(** Where a class of the pruned tables comes from. *)
Lemma pruned_class vn regs ver vc vt v v' : vendors_ok vn regs -> vn !! ver = Some vt -> vt !! vc = Some v ->
  (forall ver' vt', put_or_prune vn ver vc vt v' !! ver' = Some vt' -> exists vc' w, vt' !! vc' = Some w) /\
  forall ver' vt' vc' w, put_or_prune vn ver vc vt v' !! ver' = Some vt' -> vt' !! vc' = Some w ->
    (ver' = ver /\ vc' = vc /\ w = v' /\ exists k o t, v' !! k = Some (o, Some t)) \/
    (~ (ver' = ver /\ vc' = vc) /\ exists vt0, vn !! ver' = Some vt0 /\ vt0 !! vc' = Some w).
Proof.
  intros Hc Hv Hvc. unfold put_or_prune. destruct (check_vendor_class v') eqn:E1; [|destruct (check_vendor_table (delete vc vt)) eqn:E2]; split.
  - intros ver' vt' [[<- <-]|[_ E]]%lookup_insert_Some; [eexists vc, _; apply lookup_insert_eq|by apply (vn_used _ _ Hc ver')].
  - intros ver' vt' vc' w [[<- <-]|[Hne E]]%lookup_insert_Some Hw; [apply lookup_insert_Some in Hw as [[<- <-]|[Hne Hw]]|].
    + left. split_and!; [done..|]. by apply check_class_slots.
    + right. split; [naive_solver|by exists vt].
    + right. split; [naive_solver|by exists vt'].
  - intros ver' vt' [[<- <-]|[_ E]]%lookup_insert_Some; [|by apply (vn_used _ _ Hc ver')].
    apply (existsb_some (fun i => delete vc vt !! i)) in E2 as (c & w & _ & E). by exists c, w.
  - intros ver' vt' vc' w [[<- <-]|[Hne E]]%lookup_insert_Some Hw; right; [apply lookup_delete_Some in Hw as [Hne Hw]; split; [naive_solver|by exists vt]|].
    split; [naive_solver|by exists vt'].
  - intros ver' vt' [_ E]%lookup_delete_Some. by apply (vn_used _ _ Hc ver').
  - intros ver' vt' vc' w [Hne E]%lookup_delete_Some Hw. right. split; [naive_solver|by exists vt'].
Qed.

(** Tables from which the methods of [a] are gone, and with them what is empty. *)
Lemma vendors_ok_remove vn vn' regs r a : vendors_ok vn regs -> regs !! a = Some r ->
  (forall ver vc o m, o <> 0 -> vcell vn' ver vc o m = if bool_decide (vcell vn ver vc o m = Some a) then None else vcell vn ver vc o m) ->
  (forall ver vt, vn' !! ver = Some vt -> exists vc v, vt !! vc = Some v) ->
  (forall ver vt vc v, vn' !! ver = Some vt -> vt !! vc = Some v ->
     (vendor_ok v /\ 0 <= vc < MAX_MGMT_VENDOR_RANGE2 /\ exists k o t, v !! k = Some (o, Some t)) /\ Z.of_nat (length v) = MAX_MGMT_OUI) ->
  (forall ver vt vc v k o t, vn' !! ver = Some vt -> vt !! vc = Some v -> v !! k = Some (o, Some t) ->
     (~ asks_vendor r ver vc o /\ exists vt0 v0 k0, vn !! ver = Some vt0 /\ vt0 !! vc = Some v0 /\ v0 !! k0 = Some (o, Some t)) \/
     (methods_ok t /\ exists m a', t !! m = Some a')) ->
  vendors_ok vn' (delete a regs).
Proof.
  intros Hc Ha Hcell Hused Hclass Hslot.
  assert (Hcells : forall ver vc o m a', o <> 0 -> vcell vn' ver vc o m = Some a' <-> exists r', delete a regs !! a' = Some r' /\ asks_vendor r' ver vc o /\ bit_of r'.(method_mask) m = true).
  { intros ver vc o m a' Ho. rewrite Hcell by done. destruct (bool_decide (vcell vn ver vc o m = Some a)) eqn:Eb.
    - apply bool_decide_eq_true in Eb. split; [done|]. intros (r' & [Hne Hr']%delete_regs & Hk & Hb).
      assert (Hx : vcell vn ver vc o m = Some a') by (apply (vn_cells _ _ Hc); [done|by exists r']). congruence.
    - apply bool_decide_eq_false in Eb. rewrite (vn_cells _ _ Hc) by done. split; intros (r' & Hr' & Hk & Hb); exists r'; (split; [|by split]).
      + apply delete_regs. split; [|done]. intros ->. destruct Eb. apply (vn_cells _ _ Hc); [done|]. by exists r'.
      + by apply delete_regs in Hr' as [_ ?]. }
  split; [done..| | |by intros; eapply Hclass].
  { intros ver vt vc v E Ev. by destruct (Hclass _ _ _ _ E Ev). }
  intros ver vt vc v k o t E Ev Hk. destruct (Hslot _ _ _ _ _ _ _ E Ev Hk) as [[Hne (vt0 & v0 & k0 & E0 & Ev0 & Hk0)]|(Hm & m & a' & Hma)].
  - destruct (vn_table _ _ Hc _ _ _ _ _ _ _ E0 Ev0 Hk0) as (Hm & a' & r' & Hr' & Hk'). split; [done|]. exists a', r'. split; [|done]. apply delete_regs. split; [|done].
    intros ->. assert (r' = r) as -> by congruence. done.
  - split; [done|]. destruct (Hclass _ _ _ _ E Ev) as [(Hok & _) _]. assert (Ho : o <> 0) by (apply (vo_table v Hok _ _ _ Hk); by eexists).
    assert (Hx : vcell vn' ver vc o m = Some a').
    { unfold vcell, mbind, option_bind. rewrite E, Ev. assert (Et : oui_table v o = Some t) by (apply oui_table_spec; [done..|by exists k]). by rewrite Et. }
    apply Hcells in Hx as (r' & Hr' & Hk' & _); [|done]. by exists a', r'.
Qed.

Lemma vcell_here vn regs r a ver vc o m : vendors_ok vn regs -> regs !! a = Some r -> o <> 0 -> vcell vn ver vc o m = Some a -> asks_vendor r ver vc o.
Proof. intros Hc Ha Ho Hx. apply (vn_cells _ _ Hc) in Hx as (r' & Hr' & Hk & _); [|done]. by assert (r' = r) as -> by congruence. Qed.

(** Without a table for its OUI the agent has no methods. *)
Lemma remove_vendor_absent vn regs r a : vendors_ok vn regs -> regs !! a = Some r ->
  (forall vt v, vn !! r.(mgmt_class_version) = Some vt -> vt !! vendor_class_index r.(mgmt_class) = Some v -> oui_table v r.(oui) = None) ->
  vendors_ok vn (delete a regs).
Proof.
  intros Hc Ha Hno. apply (vendors_ok_remove vn vn regs r a); [done..| |apply Hc| |].
  - intros ver vc o m Ho. rewrite bool_decide_false; [done|]. intros Hx. destruct (vcell_here _ _ _ _ _ _ _ _ Hc Ha Ho Hx) as (_ & <- & <- & <-).
    unfold vcell, mbind, option_bind in Hx. destruct (vn !! _) as [vt|] eqn:E; [|done]. destruct (vt !! _) as [v|] eqn:Ev; [|done]. by rewrite (Hno vt v eq_refl Ev) in Hx.
  - intros ver vt vc v E Ev. split; [by apply (vn_class _ _ Hc _ _ _ _ E Ev)|by apply (vn_length _ _ Hc _ _ _ _ E Ev)].
  - intros ver vt vc v k o t E Ev Hk. left. split; [|by exists vt, v, k]. intros (_ & <- & <- & <-). destruct (vn_class _ _ Hc _ _ _ _ E Ev) as (Hok & _).
    assert (Ho : r.(oui) <> 0) by (apply (vo_table v Hok _ _ _ Hk); by eexists). specialize (Hno vt v E Ev).
    assert (Et : oui_table v r.(oui) = Some t) by (apply oui_table_spec; [done..|by exists k]). congruence.
Qed.

Lemma remove_vendor_present vn regs r a vt v k t : vendors_ok vn regs -> regs !! a = Some r -> r.(oui) <> 0 ->
  let ver := r.(mgmt_class_version) in let vc := vendor_class_index r.(mgmt_class) in
  vn !! ver = Some vt -> vt !! vc = Some v -> v !! k = Some (r.(oui), Some t) ->
  vendors_ok (put_or_prune vn ver vc vt (slot_after v k r.(oui) (remove_methods_mad_agent t a))) (delete a regs).
Proof.
  intros Hc Ha Ho ver vc E Ev Hk. destruct (vn_class _ _ Hc _ _ _ _ E Ev) as (Hok & Hvc & _). destruct (vn_table _ _ Hc _ _ _ _ _ _ _ E Ev Hk) as [Hm _].
  set (t' := remove_methods_mad_agent t a). assert (Ht' : forall m, t' !! m = if bool_decide (t !! m = Some a) then None else t !! m) by (intros m; by apply remove_methods_lookup).
  assert (Hm' : methods_ok t') by (intros m a'; rewrite Ht'; case_match; [done|apply Hm]).
  destruct (slot_after_ok v k r.(oui) t t' Hok Ho Hm' Hk) as (Hok' & Hlen & Hslots & Htab).
  destruct (pruned_class vn regs ver vc vt v (slot_after v k r.(oui) t') Hc E Ev) as [Hused Hfrom].
  assert (Et : oui_table v r.(oui) = Some t) by (apply oui_table_spec; [done..|by exists k]).
  apply (vendors_ok_remove vn _ regs r a); [done..| |exact Hused| |].
  - intros ver' vc' o m Ho'. rewrite (vcell_pruned _ _ _ _ _ _ _ _ _ _ Hc E Hok' Ho'). destruct (decide (ver' = ver /\ vc' = vc)) as [[-> ->]|Hne].
    + assert (Ecell : vcell vn ver vc o m = t0 ← oui_table v o; (t0 : ib_mad_mgmt_method_table) !! m) by (unfold vcell, mbind, option_bind; by rewrite E, Ev).
      rewrite Htab by done. destruct (decide (o = r.(oui))) as [->|Hne].
      * rewrite Ecell, Et. cbn. rewrite <- Ht'. destruct (check_method_table t') eqn:Ech; [done|]. cbn. apply check_method_spec in Ech as ->; [|done]. by rewrite lookup_empty.
      * rewrite bool_decide_false; [by rewrite <- Ecell|]. intros Hx. by destruct (vcell_here _ _ _ _ _ _ _ _ Hc Ha Ho' Hx) as (_ & _ & _ & ?).
    + rewrite bool_decide_false; [done|]. intros Hx. destruct (vcell_here _ _ _ _ _ _ _ _ Hc Ha Ho' Hx) as (_ & ? & ? & _). by destruct Hne.
  - intros ver' vt' vc' w E' Ew. destruct (Hfrom _ _ _ _ E' Ew) as [(-> & -> & -> & Hs)|(_ & vt0 & E0 & Ew0)].
    + rewrite Hlen. split; [|by apply (vn_length _ _ Hc _ _ _ _ E Ev)]. split; [done|]. by split.
    + split; [by apply (vn_class _ _ Hc _ _ _ _ E0 Ew0)|by apply (vn_length _ _ Hc _ _ _ _ E0 Ew0)].
  - intros ver' vt' vc' w k' o t0 E' Ew Hk'. destruct (Hfrom _ _ _ _ E' Ew) as [(-> & -> & -> & Hs)|(Hne & vt0 & E0 & Ew0)].
    + destruct (Hslots _ _ _ Hk') as [[Hne Hk0]|(-> & -> & Hex)]; [left|by right]. split; [intros (_ & _ & _ & ?); congruence|by exists vt, v, k'].
    + left. split; [intros (_ & ? & ? & _); by destruct Hne|by exists vt0, w, k'].
Qed.

Lemma remove_vendor_none p r a : (forall vt v, p.(vendor) !! r.(mgmt_class_version) = Some vt -> vt !! vendor_class_index r.(mgmt_class) = Some v -> find_vendor_oui v r.(oui) = -1) ->
  remove_vendor_req p r a = p.
Proof.
  intros Hno. unfold remove_vendor_req. destruct (p.(vendor) !! r.(mgmt_class_version)) as [vt|]; [|done].
  destruct (vt !! vendor_class_index r.(mgmt_class)) as [v|] eqn:Ev; [|done]. by rewrite (Hno vt v eq_refl Ev).
Qed.

Lemma remove_vendor_eq p r a vt v t : let ver := r.(mgmt_class_version) in let vc := vendor_class_index r.(mgmt_class) in
  p.(vendor) !! ver = Some vt -> vt !! vc = Some v -> 0 <= find_vendor_oui v r.(oui) -> v !! Z.to_nat (find_vendor_oui v r.(oui)) = Some (r.(oui), Some t) ->
  remove_vendor_req p r a = set_vendor p (put_or_prune p.(vendor) ver vc vt (slot_after v (Z.to_nat (find_vendor_oui v r.(oui))) r.(oui) (remove_methods_mad_agent t a))).
Proof.
  intros ver vc E Ev Hge Hk. unfold remove_vendor_req. fold ver vc. rewrite E, Ev, (proj2 (Z.ltb_ge _ 0)), Hk by done.
  unfold put_or_prune, slot_after. destruct (check_method_table (remove_methods_mad_agent t a)) eqn:Ech.
  - assert (Hs : check_vendor_class (<[Z.to_nat (find_vendor_oui v r.(oui)) := (r.(oui), Some (remove_methods_mad_agent t a))]> v) = true).
    { apply check_class_slots. eexists _, _, _. apply list_lookup_insert_eq. by apply lookup_lt_Some in Hk. }
    by rewrite Hs.
  - destruct (check_vendor_class _); [reflexivity|]. destruct (check_vendor_table _); reflexivity.
Qed.

Lemma remove_vendor_ok p regs r a : vendors_ok p.(vendor) regs -> regs !! a = Some r -> r.(oui) <> 0 ->
  vendors_ok (remove_vendor_req p r a).(vendor) (delete a regs) /\ (remove_vendor_req p r a).(class) = p.(class).
Proof.
  intros Hc Ha Ho.
  assert (Hcases : (exists vt v t, p.(vendor) !! r.(mgmt_class_version) = Some vt /\ vt !! vendor_class_index r.(mgmt_class) = Some v /\
      0 <= find_vendor_oui v r.(oui) /\ v !! Z.to_nat (find_vendor_oui v r.(oui)) = Some (r.(oui), Some t)) \/
    forall vt v, p.(vendor) !! r.(mgmt_class_version) = Some vt -> vt !! vendor_class_index r.(mgmt_class) = Some v -> find_vendor_oui v r.(oui) = -1).
  { destruct (p.(vendor) !! r.(mgmt_class_version)) as [vt|] eqn:E; [|right; congruence].
    destruct (vt !! vendor_class_index r.(mgmt_class)) as [v|] eqn:Ev; [|right; intros; congruence].
    destruct (vn_class _ _ Hc _ _ _ _ E Ev) as (Hok & _). unfold find_vendor_oui. destruct (find_oui_spec v r.(oui) 0 ltac:(lia)) as [[Ef Hno]|[Hge [t Ht]]].
    - right. intros vt' v' [= <-] Ev'. by assert (v' = v) as -> by congruence.
    - left. rewrite Z.sub_0_r in Ht. destruct (proj1 (vo_table v Hok _ _ _ Ht) Ho) as [t' ->]. by exists vt, v, t'. }
  destruct Hcases as [(vt & v & t & E & Ev & Hge & Ht)|Hno].
  - rewrite (remove_vendor_eq p r a vt v t) by done. split; [|done]. by apply (remove_vendor_present _ _ r a _ _ _ t).
  - rewrite remove_vendor_none by done. split; [|done]. apply (remove_vendor_absent _ _ r); [done..|]. intros vt v E Ev. unfold oui_table. by rewrite (Hno vt v E Ev).
Qed.
