(* ===== verification/MadRegSpec.v ===== *)
(** The registry that the tables of MadReg.v implement: a map from agents to the
    requests they registered. Adding, removing and looking up against it. *)

From S2P Require Import Prelude RmppRecv RmppSend MadReg MadRegTables MadRegVendor.
#[local] Open Scope Z_scope.

(** ** The registry *)

(** Two requests that one MAD could match. *)
Definition same_place (r r' : ib_mad_reg_req) : Prop :=
  for_vendor r = for_vendor r' /\ r.(mgmt_class_version) = r'.(mgmt_class_version) /\ convert_mgmt_class r.(mgmt_class) = convert_mgmt_class r'.(mgmt_class) /\
  (for_vendor r = true -> r.(oui) = r'.(oui)).

Definition overlap (r r' : ib_mad_reg_req) : Prop := same_place r r' /\ exists m, bit_of r.(method_mask) m = true /\ bit_of r'.(method_mask) m = true.

(** The MAD [hdr] is of the version, class, OUI and method of the request. *)
Definition covers (r : ib_mad_reg_req) (hdr : ib_mad_hdr) : bool :=
  (r.(mgmt_class_version) =? hdr.(class_version)) && (convert_mgmt_class r.(mgmt_class) =? convert_mgmt_class hdr.(h_mgmt_class)) &&
  (negb (is_vendor_class hdr.(h_mgmt_class)) || (r.(oui) =? hdr.(h_oui))) && bit_of r.(method_mask) (Z.land hdr.(method) (Z.lnot IB_MGMT_METHOD_RESP)).

(** The agents of other OUIs in the vendor class of [r] fill its eight slots. *)
Definition ouis_exhausted (regs : gmap Z ib_mad_reg_req) (r : ib_mad_reg_req) : Prop :=
  exists ouis, NoDup ouis /\ Z.of_nat (length ouis) = MAX_MGMT_OUI /\
    forall o, o ∈ ouis -> o <> r.(oui) /\ exists a r', regs !! a = Some r' /\ asks_vendor r' r.(mgmt_class_version) (vendor_class_index r.(mgmt_class)) o.

(** ** Adding *)

Lemma vendor_convert r : for_vendor r = true -> convert_mgmt_class r.(mgmt_class) = r.(mgmt_class).
Proof. unfold for_vendor, convert_mgmt_class. by destruct (_ =? _). Qed.

Lemma asks_overlap r r' ver c : asks r ver c -> asks r' ver c -> same_place r r'.
Proof. intros (H1 & <- & <-) (H2 & E1 & E2). unfold same_place. split_and!; congruence. Qed.

Lemma same_place_asks r r' : same_place r r' -> for_vendor r = false -> asks r' r.(mgmt_class_version) (convert_mgmt_class r.(mgmt_class)).
Proof. intros (H1 & H2 & H3 & _) Hv. unfold asks. split_and!; congruence. Qed.

Lemma same_place_vendor r r' : for_vendor r = true -> same_place r r' <-> asks_vendor r' r.(mgmt_class_version) (vendor_class_index r.(mgmt_class)) r.(oui).
Proof.
  intros Hv. unfold same_place, asks_vendor, vendor_class_index. rewrite Hv. split.
  - intros (H1 & H2 & H3 & H4). rewrite (vendor_convert r), (vendor_convert r') in H3 by congruence. split_and!; [congruence..|by symmetry; apply H4].
  - intros (H1 & H2 & H3 & H4). rewrite (vendor_convert r), (vendor_convert r') by congruence. split_and!; [congruence..|lia|done].
Qed.

Lemma class_in_use p regs r : class_ok p.(class) regs -> for_vendor r = false ->
  method_in_use (table_of p.(class) r.(mgmt_class_version) (convert_mgmt_class r.(mgmt_class))) r = true <-> exists a r', regs !! a = Some r' /\ overlap r r'.
Proof.
  intros Hc Hv. rewrite in_use_spec. unfold table_of. setoid_rewrite <- cell_default. setoid_rewrite (co_cells _ _ Hc). split.
  - intros (m & a & Hm & r' & Hr' & Hk & Hb). exists a, r'. split; [done|]. split; [by eapply asks_overlap; [|exact Hk]|by exists m].
  - intros (a & r' & Hr' & Hp & m & Hm & Hb). exists m, a. split; [done|]. exists r'. split_and!; [done|by apply same_place_asks|done].
Qed.

Lemma vendor_in_use p regs r : vendors_ok p.(vendor) regs -> for_vendor r = true -> r.(oui) <> 0 ->
  method_in_use (default ∅ (oui_table (vclass_of p.(vendor) r.(mgmt_class_version) (vendor_class_index r.(mgmt_class))) r.(oui))) r = true <->
  exists a r', regs !! a = Some r' /\ overlap r r'.
Proof.
  intros Hc Hv Ho. rewrite in_use_spec. setoid_rewrite <- vcell_default; [|done]. setoid_rewrite (vn_cells _ _ Hc); [|done]. split.
  - intros (m & a & Hm & r' & Hr' & Hk & Hb). exists a, r'. split; [done|]. split; [by apply same_place_vendor|by exists m].
  - intros (a & r' & Hr' & Hp & m & Hm & Hb). exists m, a. split; [done|]. exists r'. split_and!; [done|by apply same_place_vendor|done].
Qed.

Lemma full_exhausted p regs r : vendors_ok p.(vendor) regs -> oui_full (vclass_of p.(vendor) r.(mgmt_class_version) (vendor_class_index r.(mgmt_class))) r.(oui) ->
  ouis_exhausted regs r.
Proof.
  intros Hc Hfull. set (v := vclass_of _ _ _) in *. pose proof (vclass_ok _ _ r.(mgmt_class_version) (vendor_class_index r.(mgmt_class)) Hc) as Hok. fold v in Hok.
  exists v.*1. split_and!.
  - apply NoDup_alt. intros i j o Hi Hj. rewrite list_lookup_fmap in Hi, Hj. destruct (v !! i) as [[o1 t1]|] eqn:Ei; [|done]. destruct (v !! j) as [[o2 t2]|] eqn:Ej; [|done].
    cbn in Hi, Hj. assert (o1 = o /\ o2 = o) as [-> ->] by (split; congruence). eapply (vo_once v Hok); [done..|]. by apply (Hfull _ _ Ei).
  - rewrite length_fmap. by eapply vclass_length.
  - intros o Hin. apply list_elem_of_fmap in Hin as ([o' t] & -> & Hin). apply list_elem_of_lookup in Hin as [k Hk]. destruct (Hfull _ _ Hk) as [H0 H1]. cbn in H0, H1 |- *.
    split; [done|]. destruct (proj1 (vo_table v Hok _ _ _ Hk) H0) as [t' ->]. by eapply vclass_slot.
Qed.

(** What [register_request] answers. *)
Definition add_result (p : ib_mad_port_private) (regs : gmap Z ib_mad_reg_req) (r : ib_mad_reg_req) (a : Z) (mem : reg_memory) (res : ib_mad_port_private * Z) : Prop :=
  (res.2 = 0 /\ tables_ok res.1 (<[a := r]> regs) /\ ~ exists a' r', regs !! a' = Some r' /\ overlap r r') \/
  (res = (p, - EINVAL) /\ exists a' r', regs !! a' = Some r' /\ overlap r r') \/
  (res = (p, - ENOMEM) /\ (~ exists a' r', regs !! a' = Some r' /\ overlap r r') /\ (~ all_memory mem \/ for_vendor r = true /\ ouis_exhausted regs r)).

Lemma reqs_insert (regs : gmap Z ib_mad_reg_req) a r : (forall a r, regs !! a = Some r -> req_ok r) -> req_ok r -> forall a' r', <[a := r]> regs !! a' = Some r' -> req_ok r'.
Proof. intros H Hr a' r' [[<- <-]|[_ E]]%lookup_insert_Some; [done|by eapply H]. Qed.

Lemma add_nonoui_full p r a c mem : add_nonoui_reg_req p r a c mem = (p, - ENOMEM) -> ~ all_memory mem.
Proof.
  intros E (H1 & H2 & _). unfold add_nonoui_reg_req in E. rewrite H1, H2 in E. cbn [negb] in E. destruct (p.(class) !! _) as [ct|]; [destruct (ct !! c)|]; cbn [negb] in E;
    (destruct (method_in_use _ r); [discriminate (f_equal snd E)|discriminate (f_equal snd E)]).
Qed.

Lemma add_class p regs r a mem : tables_ok p regs -> regs !! a = None -> req_ok r -> for_vendor r = false -> add_result p regs r a mem (register_request p r a mem).
Proof.
  intros [Hc Hn Hr] Ha Hok Hv. unfold register_request. unfold for_vendor in Hv. rewrite Hv. cbn [negb]. fold (for_vendor r) in Hv. pose proof (class_in_use p regs r Hc Hv) as Hu.
  assert (E : match ct ← p.(class) !! r.(mgmt_class_version); (ct : ib_mad_mgmt_class_table) !! convert_mgmt_class r.(mgmt_class) with Some t => method_in_use t r | None => false end =
    method_in_use (table_of p.(class) r.(mgmt_class_version) (convert_mgmt_class r.(mgmt_class))) r).
  { assert (Hemp : method_in_use ∅ r = false) by (apply not_true_iff_false; rewrite in_use_spec; intros (m & b & _ & Hb); by rewrite lookup_empty in Hb).
    unfold table_of, mbind, option_bind. destruct (p.(class) !! _) as [ct|]; cbn [default from_option id]; [|by rewrite lookup_empty]. by destruct (ct !! _). }
  rewrite E. destruct (method_in_use _ r) eqn:Eu; [right; left; split; [done|by apply Hu]|].
  assert (Hno : ~ exists a' r', regs !! a' = Some r' /\ overlap r r') by (rewrite <- Hu; by intros ?).
  destruct (add_nonoui_eq p r a mem Eu) as [Ea|Ea].
  - rewrite Ea. right. right. split_and!; [done..|]. left. by eapply add_nonoui_full.
  - rewrite Ea. left. split; [done|]. split; [|done]. split; [by apply install_class| |by apply reqs_insert].
    apply (vendors_ok_ext _ regs); [|done]. by apply insert_other.
Qed.

Lemma add_vendor p regs r a mem : tables_ok p regs -> regs !! a = None -> req_ok r -> for_vendor r = true -> add_result p regs r a mem (register_request p r a mem).
Proof.
  intros [Hc Hn Hr] Ha Hok Hv. destruct (vendor_index_range r Hv) as [_ Hvc]. assert (Ho : r.(oui) <> 0) by by apply Hok.
  unfold register_request. unfold for_vendor in Hv. rewrite Hv. cbn [negb]. fold (for_vendor r) in Hv. rewrite (vendor_convert r Hv). pose proof (vendor_in_use p regs r Hn Hv Ho) as Hu.
  set (ver := r.(mgmt_class_version)) in *. set (vc := vendor_class_index r.(mgmt_class)) in *.
  assert (E : match vt ← p.(vendor) !! ver; (vt : ib_mad_mgmt_vendor_class_table) !! vc with Some v => is_vendor_method_in_use v r | None => false end =
    method_in_use (default ∅ (oui_table (vclass_of p.(vendor) ver vc) r.(oui))) r).
  { rewrite <- in_use_vendor by (done || by eapply vclass_ok).
    assert (Hemp : is_vendor_method_in_use new_vendor_class r = false).
    { rewrite in_use_vendor, new_oui_table by (done || apply new_vendor_ok). apply not_true_iff_false. rewrite in_use_spec. intros (m & b & _ & Hb). cbn [default from_option id] in Hb. by rewrite lookup_empty in Hb. }
    unfold vclass_of, mbind, option_bind. destruct (p.(vendor) !! ver) as [vt|]; cbn [default from_option id]; [|by rewrite lookup_empty]. by destruct (vt !! vc). }
  rewrite E. destruct (method_in_use _ r) eqn:Eu; [right; left; split; [done|by apply Hu]|].
  assert (Hno : ~ exists a' r', regs !! a' = Some r' /\ overlap r r') by (rewrite <- Hu; by intros ?).
  destruct (add_oui_eq p regs r a mem Hn Ho Eu) as [[Ea Hf]|(i & v' & Hslot & Ea)].
  - rewrite Ea. right. right. split_and!; [done..|]. destruct Hf as [Hf|Hf]; [by left|right]. split; [done|]. by apply (full_exhausted p).
  - rewrite Ea. left. split; [done|]. split; [|done]. split; [|apply (install_vendor p.(vendor) regs r a); [done..|by exists mem]|by apply reqs_insert].
    apply (class_ok_ext _ regs); [|done]. by apply insert_other.
Qed.

Lemma register_request_ok p regs r a mem : tables_ok p regs -> regs !! a = None -> req_ok r -> add_result p regs r a mem (register_request p r a mem).
Proof. intros Ht Ha Hr. destruct (for_vendor r) eqn:E; [by apply add_vendor|by apply add_class]. Qed.

(** ** Removing *)

Lemma remove_request_ok p regs r a : tables_ok p regs -> regs !! a = Some r -> tables_ok (remove_mad_reg_req p (Some r) a) (delete a regs).
Proof.
  intros [Hc Hn Hr] Ha. unfold remove_mad_reg_req. fold (for_vendor r). destruct (for_vendor r) eqn:Hv.
  - rewrite (remove_class_vendor p regs r a Hc Hv). assert (Ho : r.(oui) <> 0) by (apply (Hr _ _ Ha), vendor_index_range; done).
    destruct (remove_vendor_ok p regs r a Hn Ha Ho) as [H1 H2]. split; [|done|].
    + rewrite H2. apply (class_ok_ext _ regs); [|done]. by eapply delete_other.
    + intros a' r' [_ E]%delete_regs. by eapply Hr.
  - destruct (remove_class_ok p regs r a Hc Ha Hv) as [H1 H2]. split; [done| |].
    + rewrite H2. apply (vendors_ok_ext _ regs); [|done]. by eapply delete_other.
    + intros a' r' [_ E]%delete_regs. by eapply Hr.
Qed.

Lemma empty_tables_ok : tables_ok (mk_port_private ∅ ∅) ∅.
Proof.
  assert (Hn : forall a r, ¬ (∅ : gmap Z ib_mad_reg_req) !! a = Some r) by (intros a r; by rewrite lookup_empty).
  split; [split|split|]; cbn [class vendor].
  - intros ver c m a. unfold cell, mbind, option_bind. rewrite lookup_empty. split; [done|]. intros (r & E & _). by destruct (Hn a r).
  - intros ver ct. by rewrite lookup_empty.
  - intros ver ct c t. by rewrite lookup_empty.
  - intros ver vc o m a _. unfold vcell, mbind, option_bind. rewrite lookup_empty. split; [done|]. intros (r & E & _). by destruct (Hn a r).
  - intros ver vt. by rewrite lookup_empty.
  - intros ver vt vc v. by rewrite lookup_empty.
  - intros ver vt vc v k o t. by rewrite lookup_empty.
  - intros ver vt vc v. by rewrite lookup_empty.
  - intros a r E. by destruct (Hn a r).
Qed.

(** Without registrations there are no tables. *)
Lemma no_requests_no_tables p : tables_ok p ∅ -> p = mk_port_private ∅ ∅.
Proof.
  intros [Hc Hn _]. destruct p as [cl vn]. cbn in Hc, Hn. f_equal; apply map_empty; intros ver.
  - destruct (cl !! ver) as [ct|] eqn:E; [|done]. destruct (co_used _ _ Hc _ _ E) as (c & t & Et).
    destruct (co_table _ _ Hc _ _ _ _ E Et) as (_ & _ & a & r & Hr & _). by rewrite lookup_empty in Hr.
  - destruct (vn !! ver) as [vt|] eqn:E; [|done]. destruct (vn_used _ _ Hn _ _ E) as (vc & v & Ev).
    destruct (vn_class _ _ Hn _ _ _ _ E Ev) as (_ & _ & k & o & t & Hk).
    destruct (vn_table _ _ Hn _ _ _ _ _ _ _ E Ev Hk) as (_ & a & r & Hr & _). by rewrite lookup_empty in Hr.
Qed.

(** ** Routing *)

Definition hdr_ok (hdr : ib_mad_hdr) : Prop := fits 8 hdr.(h_mgmt_class) /\ fits 8 hdr.(class_version) /\ fits 8 hdr.(method) /\ fits 24 hdr.(h_oui) /\ fits 64 hdr.(tid).

Lemma req_class_range r : req_ok r -> for_vendor r = is_vendor_class r.(mgmt_class).
Proof.
  intros [[Hc|Hc] _]; unfold for_vendor, convert_mgmt_class; [|by rewrite Hc]. case_match; [|done]. bool_arith. unfold MAX_MGMT_CLASS, IB_MGMT_CLASS_SUBN_DIRECTED_ROUTE in *. lia.
Qed.

Lemma convert_vendor c : is_vendor_class c = true -> convert_mgmt_class c = c.
Proof. intros H. unfold convert_mgmt_class. case_match; [|done]. bool_arith. by subst. Qed.

Lemma convert_not_vendor c : is_vendor_class c = false -> is_vendor_class (convert_mgmt_class c) = false.
Proof. unfold convert_mgmt_class. by case_match. Qed.

Lemma find_class p regs hdr a : tables_ok p regs -> is_vendor_class hdr.(h_mgmt_class) = false ->
  find_in_tables p hdr = Some a <-> exists r, regs !! a = Some r /\ covers r hdr = true.
Proof.
  intros [Hc _ Hr] Hv. set (m := Z.land hdr.(method) (Z.lnot IB_MGMT_METHOD_RESP)).
  assert (Hcov : (exists r, regs !! a = Some r /\ covers r hdr = true) <-> cell p.(class) hdr.(class_version) (convert_mgmt_class hdr.(h_mgmt_class)) m = Some a).
  { rewrite (co_cells _ _ Hc). unfold covers, asks. rewrite Hv. cbn [negb orb]. fold m. split; intros (r & Ha & Hk); exists r; (split; [done|]).
    - rewrite !andb_true_iff, !Z.eqb_eq in Hk. destruct Hk as (((E1 & E2) & _) & Hb). split_and!; try done.
      unfold for_vendor. rewrite E2. by apply convert_not_vendor.
    - destruct Hk as ((Hf & <- & ->) & Hb). by rewrite Hb, !Z.eqb_refl. }
  rewrite Hcov. unfold find_in_tables, cell. rewrite Hv. cbn [negb]. fold m. destruct (Z.leb_spec MAX_MGMT_VERSION hdr.(class_version)) as [Hge|Hlt].
  - split; [done|]. intros Hx. fold (cell p.(class) hdr.(class_version) (convert_mgmt_class hdr.(h_mgmt_class)) m) in Hx. apply Hcov in Hx as (r & Ha & Hk).
    destruct (Hr _ _ Ha) as (_ & Hver & _). unfold covers in Hk. bool_arith. lia.
  - unfold mbind, option_bind. destruct (p.(class) !! hdr.(class_version)) as [ct|] eqn:E; [|done].
    destruct (Z.leb_spec MAX_MGMT_CLASS (convert_mgmt_class hdr.(h_mgmt_class))) as [Hge|]; [|done]. split; [done|]. destruct (ct !! _) as [t|] eqn:Et; [|done].
    destruct (co_table _ _ Hc _ _ _ _ E Et) as (_ & ? & _). lia.
Qed.

Lemma find_vendor p regs hdr a : tables_ok p regs -> is_vendor_class hdr.(h_mgmt_class) = true ->
  find_in_tables p hdr = Some a <-> exists r, regs !! a = Some r /\ covers r hdr = true.
Proof.
  intros [_ Hn Hr] Hv. set (m := Z.land hdr.(method) (Z.lnot IB_MGMT_METHOD_RESP)). set (vc := vendor_class_index hdr.(h_mgmt_class)).
  assert (Hcov : (exists r, regs !! a = Some r /\ covers r hdr = true) <-> hdr.(h_oui) <> 0 /\ vcell p.(vendor) hdr.(class_version) vc hdr.(h_oui) m = Some a).
  { unfold covers. rewrite Hv. cbn [negb orb]. rewrite (convert_vendor _ Hv). split.
    - intros (r & Ha & Hk). fold m in Hk. rewrite !andb_true_iff, !Z.eqb_eq in Hk. destruct Hk as (((E1 & E2) & E3) & Hb).
      assert (Hfv : for_vendor r = true) by (unfold for_vendor; by rewrite E2). assert (Ho : r.(oui) <> 0) by (apply (Hr _ _ Ha), vendor_index_range; done).
      rewrite (vendor_convert r Hfv) in E2. split; [congruence|]. apply (vn_cells _ _ Hn); [congruence|]. exists r. split; [done|]. split; [|done].
      unfold asks_vendor, vc. by rewrite E2.
    - intros [Ho Hx]. apply (vn_cells _ _ Hn) in Hx as (r & Ha & (Hf & E1 & E2 & E3) & Hb); [|done]. exists r. split; [done|]. fold m. rewrite Hb, (vendor_convert r Hf), E1, E3.
      unfold vc, vendor_class_index in E2. rewrite !Z.eqb_refl. rewrite (proj2 (Z.eqb_eq r.(mgmt_class) _)) by lia. done. }
  rewrite Hcov. unfold find_in_tables. rewrite Hv. cbn [negb]. fold m vc. destruct (Z.leb_spec MAX_MGMT_VERSION hdr.(class_version)) as [Hge|Hlt].
  - split; [done|]. intros Hx. apply Hcov in Hx as (r & Ha & Hk). destruct (Hr _ _ Ha) as (_ & Hver & _). unfold covers in Hk. bool_arith. lia.
  - unfold vcell, mbind, option_bind. destruct (p.(vendor) !! hdr.(class_version)) as [vt|] eqn:E; [|naive_solver].
    destruct (vt !! vc) as [v|] eqn:Ev; [|naive_solver]. destruct (vn_class _ _ Hn _ _ _ _ E Ev) as (Hok & _). unfold oui_table, mbind, option_bind, find_vendor_oui.
    destruct (find_oui_spec v hdr.(h_oui) 0 ltac:(lia)) as [[-> _]|[Hge [t Ht]]]; [cbn; naive_solver|].
    rewrite (proj2 (Z.eqb_neq _ (-1))), (proj2 (Z.ltb_ge _ 0)) by lia. rewrite Z.sub_0_r in Ht. rewrite Ht. cbn [snd]. destruct t as [t|]; [|naive_solver].
    assert (hdr.(h_oui) <> 0) by (apply (vo_table v Hok _ _ _ Ht); by eexists). naive_solver.
Qed.

Lemma find_in_tables_spec p regs hdr a : tables_ok p regs -> find_in_tables p hdr = Some a <-> exists r, regs !! a = Some r /\ covers r hdr = true.
Proof. intros Ht. destruct (is_vendor_class hdr.(h_mgmt_class)) eqn:E; [by apply find_vendor|by apply find_class]. Qed.
