(* ===== verification/MadAgent.v ===== *)
(** Registration of MAD agents and routing of received MADs (drivers/infiniband/core/mad.c),
    second part: the agents of the ports of a device, the array of clients by
    transaction identifier, reference counts, the life of an agent from
    [ib_register_mad_agent] to the end of [unregister_mad_agent], and received MADs on
    their way through [find_mad_agent].

    What is done under a port's [reg_lock], and each access to the array of clients or
    to a reference count, is one step; threads are the stages of agents and of
    received MADs. Agents are on a heap: [None] is the use of freed memory or the
    call of a null handler. What allocators, the security layer and the device answer
    is an argument. *)

From S2P Require Import Prelude QpState RmppRecv RmppSend MadReg.
#[local] Open Scope Z_scope.

Definition IB_MAD_USER_RMPP : Z := 1.

(** ** Data *)

(** Where the thread that registers or unregisters an agent stands: between the
    array of clients and the tables; done; failed, before and after [xa_erase]; removed
    from the tables; erased; waiting for the last reference; waiting for the readers. *)
Inductive stage := Creating | Live | Failing | Failed | Removing | Erased | Waiting | Grace (readers : gset Z).

#[global] Instance stage_eq_dec : EqDecision stage.
Proof. solve_decision. Defined.

Record ib_mad_agent_private := mk_agent {
  agent : mad_agent; reg_req : option ib_mad_reg_req; port_num : Z; qpn : Z;
  recv_handler : bool; send_handler : bool; refcount : Z; comp : bool; life : stage
}.

Definition with_life (a : ib_mad_agent_private) (l : stage) :=
  mk_agent a.(agent) a.(reg_req) a.(port_num) a.(qpn) a.(recv_handler) a.(send_handler) a.(refcount) a.(comp) l.
Definition with_refcount (a : ib_mad_agent_private) (n : Z) (c : bool) :=
  mk_agent a.(agent) a.(reg_req) a.(port_num) a.(qpn) a.(recv_handler) a.(send_handler) n c a.(life).

(** A received MAD in [find_mad_agent] and after: the agent loaded in an RCU section;
    referenced, before the test of its handler; handed to [ib_mad_complete_recv]. *)
Inductive receive := Loaded (a : Z) | Found (a : Z) | Holding (a : Z).

(** The ports of a device with the queue pairs they have, the array of clients, the
    agents, the MADs under way. *)
Record mads := mk_mads {
  ports : gmap Z ib_mad_port_private; ib_mad_clients : gmap Z Z; agents : gmap Z ib_mad_agent_private; receives : gmap Z receive
}.

Definition set_ports (s : mads) p := mk_mads p s.(ib_mad_clients) s.(agents) s.(receives).
Definition set_clients (s : mads) c := mk_mads s.(ports) c s.(agents) s.(receives).
Definition set_agents (s : mads) a := mk_mads s.(ports) s.(ib_mad_clients) a s.(receives).
Definition set_receives (s : mads) r := mk_mads s.(ports) s.(ib_mad_clients) s.(agents) r.

Definition put_agent (s : mads) (a : Z) (ag : ib_mad_agent_private) := set_agents s (<[a := ag]> s.(agents)).
Definition put_receive (s : mads) (i : Z) (r : receive) := set_receives s (<[i := r]> s.(receives)).

(** ** Registration *)

Record reg_args := mk_args { qp_type : Z; mad_reg_req : option ib_mad_reg_req; rmpp_version : Z; has_send : bool; has_recv : bool; registration_flags : Z }.

(** What the device says of a port: its capabilities and which special queue pairs it has. *)
Record port_device := mk_device { cap_ib_smi : bool; cap_ib_cm : bool; cap_opa : bool; has_qp : Z -> bool }.

(** Answers of the allocators of the agent and of the copy of the request, of the
    security layer, and the identifier from [xa_alloc_cyclic] or its error. *)
Record reg_answers := mk_answers { agent_memory : bool; req_memory : bool; security : Z; tid_answer : Z + Z }.

Definition get_spl_qp_index (t : Z) : Z := if t =? IB_QPT_SMI then 0 else if t =? IB_QPT_GSI then 1 else -1.

Definition is_smp_class (c : Z) : bool := (c =? IB_MGMT_CLASS_SUBN_LID_ROUTED) || (c =? IB_MGMT_CLASS_SUBN_DIRECTED_ROUTE).

(** The tests of a request that is supplied; [true] for those that pass. *)
Definition check_request (args : reg_args) (r : ib_mad_reg_req) : bool :=
  if MAX_MGMT_VERSION <=? r.(mgmt_class_version) then false else
  if negb args.(has_recv) then false else
  if (if MAX_MGMT_CLASS <=? r.(mgmt_class) then negb (r.(mgmt_class) =? IB_MGMT_CLASS_SUBN_DIRECTED_ROUTE)
      else if r.(mgmt_class) =? 0 then true
      else if is_vendor_class r.(mgmt_class) then negb (is_vendor_oui r.(oui)) else false) then false else
  if negb (ib_is_mad_class_rmpp r.(mgmt_class)) && c_true args.(rmpp_version) then false else
  if args.(qp_type) =? IB_QPT_SMI then is_smp_class r.(mgmt_class) else negb (is_smp_class r.(mgmt_class)).

Definition check_registration (args : reg_args) (dev : port_device) (port_found : bool) : Z :=
  if ((args.(qp_type) =? IB_QPT_SMI) && negb dev.(cap_ib_smi)) || ((args.(qp_type) =? IB_QPT_GSI) && negb dev.(cap_ib_cm)) then - EPROTONOSUPPORT else
  let qpn := get_spl_qp_index args.(qp_type) in
  if qpn =? -1 then - EINVAL else
  if c_true args.(rmpp_version) && negb (args.(rmpp_version) =? IB_MGMT_RMPP_VERSION) then - EINVAL else
  if negb (match args.(mad_reg_req) with
           | Some r => check_request args r
           | None => args.(has_send) && negb (c_true (Z.land args.(registration_flags) IB_MAD_USER_RMPP))
           end) then - EINVAL else
  if negb port_found then - ENODEV else
  if negb (dev.(has_qp) qpn) then - EPROTONOSUPPORT else 0.

Definition new_agent (args : reg_args) (dev : port_device) (port hi : Z) : ib_mad_agent_private :=
  mk_agent (mk_magent dev.(cap_opa) args.(rmpp_version) (c_true (Z.land args.(registration_flags) IB_MAD_USER_RMPP)) hi) args.(mad_reg_req) port
    (get_spl_qp_index args.(qp_type)) args.(has_recv) args.(has_send) 1 false Creating.

(** Up to and with [xa_alloc_cyclic]; the agent will be at [a]. *)
Definition ib_register_mad_agent (s : mads) (port : Z) (dev : port_device) (args : reg_args) (ans : reg_answers) (a : Z) : mads * Z :=
  let err := check_registration args dev (is_some (s.(ports) !! port)) in
  if c_true err then (s, err) else
  if negb ans.(agent_memory) then (s, - ENOMEM) else
  if is_some args.(mad_reg_req) && negb ans.(req_memory) then (s, - ENOMEM) else
  if c_true ans.(security) then (s, ans.(security)) else
  match ans.(tid_answer) with
  | inl err => (s, err)
  | inr hi => (set_clients (put_agent s a (new_agent args dev port hi)) (<[hi := a]> s.(ib_mad_clients)), 0)
  end.

(** The part under [reg_lock]. *)
Definition register_install (s : mads) (a : Z) (mem : reg_memory) : option (mads * Z) :=
  ag ← s.(agents) !! a;
  match ag.(reg_req) with
  | None => Some (put_agent s a (with_life ag Live), 0)
  | Some r =>
      p ← s.(ports) !! ag.(port_num);
      let '(p, ret) := register_request p r a mem in
      let s := set_ports s (<[ag.(port_num) := p]> s.(ports)) in
      Some (put_agent s a (with_life ag (if c_true ret then Failing else Live)), ret)
  end.

(** [xa_erase], on the way out of a failed registration and of [unregister_mad_agent]. *)
Definition erase_client (s : mads) (a : Z) (next : stage) : option mads :=
  ag ← s.(agents) !! a;
  Some (set_clients (put_agent s a (with_life ag next)) (delete ag.(agent).(hi_tid) s.(ib_mad_clients))).

(** ** Unregistration *)

Definition unregister_mad_agent (s : mads) (a : Z) : option mads :=
  ag ← s.(agents) !! a;
  p ← s.(ports) !! ag.(port_num);
  Some (put_agent (set_ports s (<[ag.(port_num) := remove_mad_reg_req p ag.(reg_req) a]> s.(ports))) a (with_life ag Removing)).

Definition deref_mad_agent (s : mads) (a : Z) : option mads :=
  ag ← s.(agents) !! a;
  Some (put_agent s a (with_refcount ag (ag.(refcount) - 1) (if ag.(refcount) - 1 =? 0 then true else ag.(comp)))).

(** The reference the agent was created with. *)
Definition drop_own (s : mads) (a : Z) : option mads :=
  s ← deref_mad_agent s a;
  ag ← s.(agents) !! a;
  Some (put_agent s a (with_life ag Waiting)).

Definition is_loaded (r : receive) : bool := match r with Loaded _ => true | _ => false end.

(** The received MADs in an RCU section. *)
Definition rcu_readers (s : mads) : gset Z := dom (filter (fun x : Z * receive => is_loaded x.2 = true) s.(receives)).

(** From the end of [wait_for_completion] to [kfree_rcu]. *)
Definition kfree_rcu (s : mads) (a : Z) : option mads :=
  ag ← s.(agents) !! a;
  Some (put_agent s a (with_life ag (Grace (rcu_readers s)))).

Definition kfree (s : mads) (a : Z) : option mads :=
  _ ← s.(agents) !! a; Some (set_agents s (delete a s.(agents))).

(** ** Received MADs *)

(** [find_mad_agent] for requests, under [reg_lock]. *)
Definition find_mad_agent_request (s : mads) (i port : Z) (hdr : ib_mad_hdr) : option mads :=
  p ← s.(ports) !! port;
  match find_in_tables p hdr with
  | None => Some s
  | Some a => ag ← s.(agents) !! a; Some (put_receive (put_agent s a (with_refcount ag (ag.(refcount) + 1) ag.(comp))) i (Found a))
  end.

(** For responses: the load from the array, and the reference if there still is one. *)
Definition find_mad_agent_load (s : mads) (i : Z) (hdr : ib_mad_hdr) : option mads :=
  match s.(ib_mad_clients) !! Z.shiftr hdr.(tid) 32 with
  | None => Some s
  | Some a => Some (put_receive s i (Loaded a))
  end.

Definition find_mad_agent_take (s : mads) (i : Z) : option mads :=
  match s.(receives) !! i with
  | Some (Loaded a) =>
      ag ← s.(agents) !! a;
      if ag.(refcount) =? 0 then Some (set_receives s (delete i s.(receives)))
      else Some (put_receive (put_agent s a (with_refcount ag (ag.(refcount) + 1) ag.(comp))) i (Found a))
  | _ => Some s
  end.

(** The test for a handler. *)
Definition find_mad_agent_check (s : mads) (i : Z) : option mads :=
  match s.(receives) !! i with
  | Some (Found a) =>
      ag ← s.(agents) !! a;
      if negb ag.(recv_handler) then deref_mad_agent (set_receives s (delete i s.(receives))) a
      else Some (put_receive s i (Holding a))
  | _ => Some s
  end.

(** [ib_mad_complete_recv] calls the handler and drops the reference. *)
Definition call_handler (s : mads) (i : Z) : option mads :=
  match s.(receives) !! i with
  | Some (Holding a) => ag ← s.(agents) !! a; if ag.(recv_handler) : bool then Some s else None
  | _ => Some s
  end.

Definition complete_recv (s : mads) (i : Z) : option mads :=
  match s.(receives) !! i with
  | Some (Holding a) => deref_mad_agent (set_receives s (delete i s.(receives))) a
  | _ => Some s
  end.

(** ** Steps *)

Inductive step :=
  | Register (port : Z) (dev : port_device) (args : reg_args) (ans : reg_answers) (a : Z)
  | Install (a : Z) (mem : reg_memory)
  | FailErase (a : Z)
  | FailFree (a : Z)
  | Unregister (a : Z)
  | Erase (a : Z)
  | DropOwn (a : Z)
  | WaitDone (a : Z)
  | Rcu (a : Z)
  | Request (i port : Z) (hdr : ib_mad_hdr)
  | Load (i : Z) (hdr : ib_mad_hdr)
  | Take (i : Z)
  | CheckHandler (i : Z)
  | Handle (i : Z)
  | Complete (i : Z).

Definition exec (s : mads) (st : step) : option mads :=
  match st with
  | Register port dev args ans a => Some (ib_register_mad_agent s port dev args ans a).1
  | Install a mem => fst <$> register_install s a mem
  | FailErase a => erase_client s a Failed
  | FailFree a => kfree s a
  | Unregister a => unregister_mad_agent s a
  | Erase a => erase_client s a Erased
  | DropOwn a => drop_own s a
  | WaitDone a => kfree_rcu s a
  | Rcu a => kfree s a
  | Request i port hdr => find_mad_agent_request s i port hdr
  | Load i hdr => find_mad_agent_load s i hdr
  | Take i => find_mad_agent_take s i
  | CheckHandler i => find_mad_agent_check s i
  | Handle i => call_handler s i
  | Complete i => complete_recv s i
  end.

Fixpoint run (s : mads) (l : list step) : option mads :=
  match l with [] => Some s | st :: l => s ← exec s st; run s l end.
