(* ===== verification/MadAgentSafe.v ===== *)
(** The agents of MadAgent.v, proved: the invariant, and that every step of its
    contract returns and keeps it. *)

From S2P Require Import Prelude Counting QpState RmppRecv RmppSend MadReg MadRegTables MadRegVendor MadRegSpec MadAgent.
#[local] Open Scope Z_scope.

(** ** The invariant *)

Definition agent_of (r : receive) : Z := match r with Loaded a | Found a | Holding a => a end.

Definition holds (a : Z) (r : receive) : bool := match r with Loaded _ => false | Found b | Holding b => bool_decide (b = a) end.

Definition holders (s : mads) (a : Z) : Z := count (holds a) s.(receives).

(** The reference of the agent itself. *)
Definition own (l : stage) : Z := match l with Waiting | Grace _ => 0 | _ => 1 end.

Definition in_array (l : stage) : bool := match l with Creating | Live | Failing | Removing => true | _ => false end.

(** No received MAD may know the agent. *)
Definition private (l : stage) : bool := match l with Creating | Failing | Failed => true | _ => false end.

Definition registered (p : Z) (ag : ib_mad_agent_private) : option ib_mad_reg_req :=
  if bool_decide (ag.(life) = Live /\ ag.(port_num) = p) then ag.(reg_req) else None.

(** What the agents of a port have registered. *)
Definition regs_of (s : mads) (p : Z) : gmap Z ib_mad_reg_req := omap (registered p) s.(agents).

#[global] Arguments regs_of : simpl never.
#[global] Arguments holders : simpl never.

(** What the tests of [ib_register_mad_agent] make sure of. *)
Definition agent_typed (ag : ib_mad_agent_private) : Prop :=
  (ag.(qpn) = 0 \/ ag.(qpn) = 1) /\ (ag.(agent).(RmppSend.rmpp_version) = 0 \/ ag.(agent).(RmppSend.rmpp_version) = IB_MGMT_RMPP_VERSION) /\
  match ag.(reg_req) with
  | Some r => req_ok r /\ ag.(recv_handler) = true /\ is_smp_class r.(mgmt_class) = (ag.(qpn) =? 0) /\
      (ag.(agent).(RmppSend.rmpp_version) <> 0 -> ib_is_mad_class_rmpp r.(mgmt_class) = true)
  | None => ag.(send_handler) = true /\ ag.(agent).(user_rmpp) = false
  end.

Record agent_ok (s : mads) (a : Z) (ag : ib_mad_agent_private) : Prop := {
  ao_port : is_Some (s.(ports) !! ag.(port_num));
  ao_count : ag.(refcount) = own ag.(life) + holders s a;
  ao_comp : own ag.(life) = 0 -> ag.(comp) = true <-> ag.(refcount) = 0;
  ao_nocomp : own ag.(life) = 1 -> ag.(comp) = false;
  ao_grace : forall rs, ag.(life) = Grace rs -> ag.(refcount) = 0;
  ao_private : private ag.(life) = true -> forall i r, s.(receives) !! i = Some r -> agent_of r <> a;
  ao_typed : agent_typed ag;
  ao_tid : 0 <= ag.(agent).(hi_tid) < 2 ^ 24
}.

Definition receive_ok (s : mads) (i : Z) (r : receive) : Prop :=
  exists ag, s.(agents) !! agent_of r = Some ag /\
    match r with Loaded _ => forall rs, ag.(life) = Grace rs -> i ∈ rs | Found _ => True | Holding _ => ag.(recv_handler) = true end.

Definition clients_ok (s : mads) : Prop :=
  forall h a, s.(ib_mad_clients) !! h = Some a <-> exists ag, s.(agents) !! a = Some ag /\ ag.(agent).(hi_tid) = h /\ in_array ag.(life) = true.

Record inv (s : mads) : Prop := {
  i_ports : forall p port, s.(ports) !! p = Some port -> tables_ok port (regs_of s p);
  i_agents : forall a ag, s.(agents) !! a = Some ag -> agent_ok s a ag;
  i_clients : clients_ok s;
  i_receives : forall i r, s.(receives) !! i = Some r -> receive_ok s i r
}.

(** ** Steps change one agent *)

Lemma regs_lookup s p a r : regs_of s p !! a = Some r <-> exists ag, s.(agents) !! a = Some ag /\ ag.(life) = Live /\ ag.(port_num) = p /\ ag.(reg_req) = Some r.
Proof.
  unfold regs_of. rewrite lookup_omap_Some. unfold registered. split; intros (ag & H1 & H2).
  - exists ag. destruct (bool_decide _) eqn:E in H1; [|done]. apply bool_decide_eq_true in E as [? ?]. done.
  - exists ag. destruct H2 as (? & ? & ?). rewrite bool_decide_true by done. done.
Qed.

Lemma regs_update s s' a p : (forall b, b <> a -> s'.(agents) !! b = s.(agents) !! b) ->
  regs_of s' p = match s'.(agents) !! a ≫= registered p with Some r => <[a := r]> (regs_of s p) | None => delete a (regs_of s p) end.
Proof.
  intros Ho. unfold regs_of. apply map_eq. intros b. rewrite lookup_omap. destruct (decide (b = a)) as [->|Hne].
  - destruct (s'.(agents) !! a) as [ag|]; cbn; [|by rewrite lookup_delete_eq]. destruct (registered p ag); [by rewrite lookup_insert_eq|by rewrite lookup_delete_eq].
  - rewrite Ho by done. destruct (s'.(agents) !! a ≫= registered p); [rewrite lookup_insert_ne by done|rewrite lookup_delete_ne by done]; by rewrite lookup_omap.
Qed.

Lemma regs_same s s' a p : (forall b, b <> a -> s'.(agents) !! b = s.(agents) !! b) ->
  s'.(agents) !! a ≫= registered p = s.(agents) !! a ≫= registered p -> regs_of s' p = regs_of s p.
Proof.
  intros Ho Ha. unfold regs_of. apply map_eq. intros b. rewrite !lookup_omap. destruct (decide (b = a)) as [->|Hne]; [done|by rewrite Ho].
Qed.

Record change (s s' : mads) (a : Z) : Prop := {
  ch_agents : forall b, b <> a -> s'.(agents) !! b = s.(agents) !! b;
  ch_receives : forall i r, agent_of r <> a -> s'.(receives) !! i = Some r <-> s.(receives) !! i = Some r;
  ch_ports : forall p, is_Some (s.(ports) !! p) -> is_Some (s'.(ports) !! p)
}.

Lemma change_holders s s' a b : change s s' a -> b <> a -> holders s' b = holders s b.
Proof.
  intros Hc Hne. apply count_ext. intros i.
  assert (Hb : forall r, holds b r = true -> agent_of r <> a) by (intros [c|c|c]; cbn; [done|..]; intros E%bool_decide_eq_true; congruence).
  destruct (from_option (holds b) false (s'.(receives) !! i)) eqn:E1, (from_option (holds b) false (s.(receives) !! i)) eqn:E2; try done.
  - destruct (s'.(receives) !! i) as [r|] eqn:E; [|done]. cbn in E1. apply (ch_receives _ _ _ Hc) in E; [|by apply Hb]. rewrite E in E2. cbn in E2. congruence.
  - destruct (s.(receives) !! i) as [r|] eqn:E; [|done]. cbn in E2. apply (ch_receives _ _ _ Hc) in E; [|by apply Hb]. rewrite E in E1. cbn in E1. congruence.
Qed.

Lemma mad_inv_change s s' a : inv s -> change s s' a ->
  (forall p port, s'.(ports) !! p = Some port -> tables_ok port (regs_of s' p)) -> clients_ok s' ->
  (forall ag, s'.(agents) !! a = Some ag -> agent_ok s' a ag) ->
  (forall i r, s'.(receives) !! i = Some r -> agent_of r = a -> receive_ok s' i r) -> inv s'.
Proof.
  intros Hi Hc Hp Hcl Ha Hr. split; [done| |done|].
  - intros b ag Hb. destruct (decide (b = a)) as [->|Hne]; [by apply Ha|]. rewrite (ch_agents _ _ _ Hc) in Hb by done.
    destruct (i_agents _ Hi _ _ Hb) as [H1 H2 H3 H4 H5 H6 H7 H8]. constructor; try done.
    + by apply (ch_ports _ _ _ Hc).
    + by rewrite (change_holders _ _ _ _ Hc).
    + intros Hpr i r Hir Hag. apply (ch_receives _ _ _ Hc) in Hir; [|congruence]. by apply (H6 Hpr i r).
  - intros i r Hir. destruct (decide (agent_of r = a)) as [|Hne]; [by apply Hr|]. pose proof Hir as Hir'. apply (ch_receives _ _ _ Hc) in Hir'; [|done].
    destruct (i_receives _ Hi _ _ Hir') as (ag & Hag & Hk). exists ag. by rewrite (ch_agents _ _ _ Hc).
Qed.

(** The clients while the array keeps the agent, or does not have it. *)
Lemma clients_same s s' a : clients_ok s -> (forall b, b <> a -> s'.(agents) !! b = s.(agents) !! b) -> s'.(ib_mad_clients) = s.(ib_mad_clients) ->
  (forall h, (exists ag, s'.(agents) !! a = Some ag /\ ag.(agent).(hi_tid) = h /\ in_array ag.(life) = true) <->
     exists ag, s.(agents) !! a = Some ag /\ ag.(agent).(hi_tid) = h /\ in_array ag.(life) = true) -> clients_ok s'.
Proof.
  intros Hc Ho E Ha h b. rewrite E, (Hc h b). destruct (decide (b = a)) as [->|Hne]; [by rewrite Ha|by rewrite Ho].
Qed.

(** An agent whose stage and references alone change keeps tables and clients. *)
Lemma tables_same s s' a : inv s -> (forall b, b <> a -> s'.(agents) !! b = s.(agents) !! b) -> s'.(ports) = s.(ports) ->
  (forall p, s'.(agents) !! a ≫= registered p = s.(agents) !! a ≫= registered p) -> forall p port, s'.(ports) !! p = Some port -> tables_ok port (regs_of s' p).
Proof. intros Hi Ho Hp Ha p port E. rewrite (regs_same s s' a) by done. apply (i_ports _ Hi). by rewrite <- Hp. Qed.

(** ** The contract of the steps *)

Definition req_typed (r : ib_mad_reg_req) : Prop := fits 8 r.(mgmt_class) /\ fits 8 r.(mgmt_class_version) /\ fits 24 r.(oui).

Definition agent_at (s : mads) (a : Z) (l : stage) : Prop := exists ag, s.(agents) !! a = Some ag /\ ag.(life) = l.

(** What callers, allocators and the network promise: an agent is unregistered once;
    memory and identifiers are handed out once; the waiter waits; RCU waits; and a response
    has the identifier of an agent whose registration is over. *)
Definition enabled (s : mads) (st : step) : Prop :=
  match st with
  | Register port dev args ans a => s.(agents) !! a = None /\ (forall r, args.(mad_reg_req) = Some r -> req_typed r) /\
      match ans.(tid_answer) with inl err => err < 0 | inr h => s.(ib_mad_clients) !! h = None /\ 0 <= h < 2 ^ 24 end
  | Install a _ => agent_at s a Creating
  | FailErase a => agent_at s a Failing
  | FailFree a => agent_at s a Failed
  | Unregister a => agent_at s a Live
  | Erase a => agent_at s a Removing
  | DropOwn a => agent_at s a Erased
  | WaitDone a => exists ag, s.(agents) !! a = Some ag /\ ag.(life) = Waiting /\ ag.(comp) = true
  | Rcu a => exists rs, agent_at s a (Grace rs) /\ rs ## rcu_readers s
  | Request i port hdr => s.(receives) !! i = None /\ is_Some (s.(ports) !! port)
  | Load i hdr => s.(receives) !! i = None /\
      forall a ag, s.(ib_mad_clients) !! Z.shiftr hdr.(tid) 32 = Some a -> s.(agents) !! a = Some ag -> private ag.(life) = false
  | Take i => exists a, s.(receives) !! i = Some (Loaded a)
  | CheckHandler i => exists a, s.(receives) !! i = Some (Found a)
  | Handle i | Complete i => exists a, s.(receives) !! i = Some (Holding a)
  end.

Lemma check_request_ok args r : check_request args r = true -> req_typed r ->
  req_ok r /\ args.(has_recv) = true /\ (args.(rmpp_version) <> 0 -> ib_is_mad_class_rmpp r.(mgmt_class) = true) /\
  (if args.(qp_type) =? IB_QPT_SMI then is_smp_class r.(mgmt_class) else negb (is_smp_class r.(mgmt_class))) = true.
Proof.
  intros E (Hc8 & Hv8 & Ho). unfold check_request in E. destruct (Z.leb_spec MAX_MGMT_VERSION r.(mgmt_class_version)); [done|]. destruct args.(has_recv); cbn [negb] in E; [|done].
  unfold fits in *. destruct (if MAX_MGMT_CLASS <=? _ then _ else _) eqn:E3 in E; [done|]. destruct (negb (ib_is_mad_class_rmpp _) && _) eqn:E4; [done|]. split_and!; [|done| |done].
  - split; [|split; [lia|]].
    + destruct (Z.leb_spec MAX_MGMT_CLASS r.(mgmt_class)); [right|left].
      * by apply negb_false_iff, Z.eqb_eq in E3.
      * destruct (Z.eqb_spec r.(mgmt_class) 0); [done|]. lia.
    + intros Hv. rewrite Hv in E3. assert (r.(mgmt_class) <= 79).
      { unfold is_vendor_class, IB_MGMT_CLASS_VENDOR_RANGE2_END in Hv. destruct (_ || _) eqn:Ex in Hv; [done|]. bool_arith. lia. }
      destruct (Z.leb_spec MAX_MGMT_CLASS r.(mgmt_class)); [unfold MAX_MGMT_CLASS in *; lia|]. destruct (_ =? 0); [done|]. unfold is_vendor_oui in E3.
      apply negb_false_iff in E3. by apply c_true_spec.
  - intros Hn%c_true_spec. rewrite Hn, andb_true_r in E4. by apply negb_false_iff.
Qed.

Lemma check_registration_ok args dev port hi : check_registration args dev true = 0 -> (forall r, args.(mad_reg_req) = Some r -> req_typed r) ->
  agent_typed (new_agent args dev port hi).
Proof.
  unfold check_registration, agent_typed. cbn [new_agent reg_req qpn agent RmppSend.rmpp_version user_rmpp send_handler recv_handler].
  destruct (_ || _) eqn:E0; [done|]. destruct (get_spl_qp_index args.(qp_type) =? -1) eqn:E1; [done|].
  destruct (c_true args.(rmpp_version) && negb (args.(rmpp_version) =? IB_MGMT_RMPP_VERSION)) eqn:E2; [done|]. destruct (negb (match args.(mad_reg_req) with Some _ => _ | None => _ end)) eqn:E; [done|].
  intros _ Ht. apply negb_false_iff in E. assert (Hq : get_spl_qp_index args.(qp_type) = if args.(qp_type) =? IB_QPT_SMI then 0 else 1).
  { unfold get_spl_qp_index in *. destruct (args.(qp_type) =? IB_QPT_SMI); [done|]. by destruct (args.(qp_type) =? IB_QPT_GSI). }
  split; [rewrite Hq; case_match; auto|]. split.
  { destruct (Z.eqb_spec args.(rmpp_version) IB_MGMT_RMPP_VERSION); [by right|]. cbn in E2. rewrite andb_true_r in E2. left. by apply c_true_false. }
  destruct args.(mad_reg_req) as [r|]; [|by apply andb_true_iff in E as [? ?%negb_true_iff]].
  destruct (check_request_ok args r E (Ht r eq_refl)) as (Hr & Hh & Hv & Hs). split_and!; [done..| |done].
  rewrite Hq. destruct (args.(qp_type) =? IB_QPT_SMI); [done|]. by apply negb_true_iff.
Qed.

Definition keeps (s : mads) (st : step) : Prop := exists s', exec s st = Some s' /\ inv s'.

Lemma no_receives s a : inv s -> s.(agents) !! a = None -> forall i r, s.(receives) !! i = Some r -> agent_of r <> a.
Proof. intros Hi Ha i r Hir Ho. destruct (i_receives _ Hi _ _ Hir) as (ag & Hag & _). congruence. Qed.

Lemma no_holders s a : (forall i r, s.(receives) !! i = Some r -> agent_of r <> a) -> holders s a = 0.
Proof.
  intros Hn. apply count_none. intros i r Hir. specialize (Hn i r Hir). destruct r as [b|b|b]; cbn in *; [done|..]; by apply bool_decide_eq_false.
Qed.

Lemma register_keeps s port dev args ans a : inv s -> enabled s (Register port dev args ans a) -> keeps s (Register port dev args ans a).
Proof.
  intros Hi (Ha & Ht & Hans). eexists. split; [done|]. unfold ib_register_mad_agent. destruct (c_true _) eqn:Ec; [done|]. apply c_true_false in Ec.
  destruct (s.(ports) !! port) as [p|] eqn:Ep; cbn [is_some] in Ec; [|by unfold check_registration in Ec; repeat case_match].
  destruct (negb ans.(agent_memory)); [done|]. destruct (_ && negb ans.(req_memory)); [done|]. destruct (c_true ans.(security)); [done|]. destruct ans.(tid_answer) as [err|hi]; [done|]. destruct Hans as [Hfree Hhi]. cbn [fst].
  pose proof (no_receives _ _ Hi Ha) as Hn. apply (mad_inv_change s _ a Hi).
  - split; cbn; [|done..]. intros b Hne. by apply lookup_insert_ne.
  - intros p' port' E. cbn in E. rewrite (regs_same s _ a); [by apply (i_ports _ Hi)|..]; cbn; [intros b Hne; by apply lookup_insert_ne|].
    rewrite lookup_insert_eq, Ha. done.
  - intros h b. cbn. destruct (decide (h = hi)) as [->|Hh].
    + rewrite lookup_insert_eq. split.
      * intros [= <-]. eexists. by rewrite lookup_insert_eq.
      * intros (ag & Hag & Htid & Hin). apply lookup_insert_Some in Hag as [[<- _]|[Hne Hag]]; [done|].
        assert (Hx : s.(ib_mad_clients) !! hi = Some b) by (apply (i_clients _ Hi); by exists ag). congruence.
    + rewrite lookup_insert_ne by done. rewrite (i_clients _ Hi h b). split; intros (ag & Hag & Htid & Hin); exists ag; (split; [|done]).
      * rewrite lookup_insert_ne; [done|]. congruence.
      * apply lookup_insert_Some in Hag as [[<- <-]|[_ Hag]]; [|done]. cbn in Htid. congruence.
  - cbn. rewrite lookup_insert_eq. intros ag [= <-]. constructor; cbn; try done.
    + change (holders _ a) with (holders s a). by rewrite (no_holders s a Hn).
    + by apply check_registration_ok.
  - cbn. intros i r Hir Ho. by destruct (Hn _ _ Hir).
Qed.

(** ** Steps of the thread that owns an agent *)

Lemma put_change s s' a ag : s'.(agents) = <[a := ag]> s.(agents) -> s'.(receives) = s.(receives) ->
  (forall p, is_Some (s.(ports) !! p) -> is_Some (s'.(ports) !! p)) -> change s s' a.
Proof. intros E1 E2 Hp. split; [|by rewrite E2|done]. intros b Hne. rewrite E1. by apply lookup_insert_ne. Qed.

(** A new stage with the reference of the agent as it was. *)
Lemma stage_agent_ok s s' a ag l : agent_ok s a ag -> s'.(receives) = s.(receives) -> (forall p, is_Some (s.(ports) !! p) -> is_Some (s'.(ports) !! p)) ->
  own l = own ag.(life) -> (forall rs, l = Grace rs -> ag.(refcount) = 0) -> (private l = true -> private ag.(life) = true) -> agent_ok s' a (with_life ag l).
Proof.
  intros [H1 H2 H3 H4 H5 H6 H7 H8] Er Hp Ho Hg Hpr. constructor; cbn [port_num with_life refcount life comp reg_req recv_handler qpn agent]; rewrite ?Ho; try done.
  - by apply Hp.
  - unfold holders. by rewrite Er.
  - rewrite Er. intros Hl. by apply H6, Hpr.
Qed.

(** Received MADs know the agent as before. *)
Lemma stage_receives s s' a ag ag' : inv s -> s.(agents) !! a = Some ag -> s'.(agents) !! a = Some ag' -> s'.(receives) = s.(receives) -> ag'.(recv_handler) = ag.(recv_handler) ->
  (forall i rs, s.(receives) !! i = Some (Loaded a) -> ag'.(life) = Grace rs -> i ∈ rs) -> forall i r, s'.(receives) !! i = Some r -> agent_of r = a -> receive_ok s' i r.
Proof.
  intros Hi Ha Ha' Er Eh Hg i r Hir <-. rewrite Er in Hir. destruct (i_receives _ Hi _ _ Hir) as (ag0 & Hag & Hk). assert (ag0 = ag) as -> by congruence.
  exists ag'. split; [done|]. destruct r as [b|b|b]; [intros rs; by apply Hg|done|by rewrite Eh].
Qed.

Lemma install_keeps s a mem : inv s -> enabled s (Install a mem) -> keeps s (Install a mem).
Proof.
  intros Hi (ag & Ha & Hl). pose proof (i_agents _ Hi _ _ Ha) as Hok. pose proof (ao_port _ _ _ Hok) as [p Hp]. pose proof (ao_typed _ _ _ Hok) as H7.
  assert (Hnone : regs_of s ag.(port_num) !! a = None).
  { destruct (regs_of s ag.(port_num) !! a) as [r|] eqn:E; [|done]. apply regs_lookup in E as (ag' & E & El & _). congruence. }
  unfold keeps. cbn [exec]. unfold register_install, mbind, option_bind. rewrite Ha. destruct ag.(reg_req) as [r|] eqn:Er.
  - rewrite Hp. unfold agent_typed in H7. rewrite Er in H7. destruct H7 as (_ & _ & Hr & _). pose proof (register_request_ok p _ r a mem (i_ports _ Hi _ _ Hp) Hnone Hr) as Hres.
    destruct (register_request p r a mem) as [p' ret]. eexists. split; [done|]. cbn [fst]. set (l := if c_true ret then Failing else Live). set (s' := put_agent _ _ _).
    assert (Hports : forall q, is_Some (s.(ports) !! q) -> is_Some (s'.(ports) !! q)) by (intros q Hq; cbn; apply lookup_insert_is_Some'; by right).
    assert (Ho : forall b, b <> a -> s'.(agents) !! b = s.(agents) !! b) by (intros b Hne; by apply lookup_insert_ne).
    assert (Hat : s'.(agents) !! a = Some (with_life ag l)) by apply lookup_insert_eq.
    apply (mad_inv_change s s' a Hi); [by apply (put_change s s' a (with_life ag l))|..].
    + intros q port E. rewrite (regs_update s s' a) by done. rewrite Hat. cbn [mbind option_bind]. unfold registered. cbn [life with_life port_num reg_req]. rewrite Er.
      cbn in E. apply lookup_insert_Some in E as [[<- <-]|[Hne E]].
      * unfold l. destruct Hres as [(E0 & Ht & _)|[(E0 & _)|(E0 & _)]]; cbn in E0; [rewrite E0; by rewrite bool_decide_true|..]; injection E0 as -> ->;
          (rewrite bool_decide_false by (cbn; naive_solver); rewrite delete_id by done; by apply (i_ports _ Hi)).
      * rewrite bool_decide_false by (intros [_ ?]; done). rewrite delete_id; [by apply (i_ports _ Hi)|].
        destruct (regs_of s q !! a) as [r'|] eqn:E'; [|done]. apply regs_lookup in E' as (ag' & E' & El & _). congruence.
    + apply (clients_same s s' a (i_clients _ Hi)); [done..|]. intros h. rewrite Hat, Ha. unfold l. split; intros (x & [= <-] & E1 & E2); (eexists; split; [done|]; split; [done|]); [by rewrite Hl|].
      cbn. by destruct (c_true ret).
    + rewrite Hat. intros x [= <-]. apply (stage_agent_ok s); [done..| | |]; unfold l; rewrite ?Hl; by destruct (c_true ret).
    + apply (stage_receives s s' a ag (with_life ag l) Hi Ha Hat); [done..|]. intros i rs _. cbn. unfold l. by destruct (c_true ret).
  - eexists. split; [done|]. cbn [fst]. set (s' := put_agent s a _).
    assert (Hat : s'.(agents) !! a = Some (with_life ag Live)) by apply lookup_insert_eq.
    apply (mad_inv_change s s' a Hi); [by apply (put_change s s' a (with_life ag Live))|..].
    + apply (tables_same s s' a Hi); [intros b Hne; by apply lookup_insert_ne|done|]. intros q. rewrite Hat, Ha. cbn. unfold registered. cbn. rewrite Er. by do 2 case_match.
    + apply (clients_same s s' a (i_clients _ Hi)); [intros b Hne; by apply lookup_insert_ne|done|]. intros h. rewrite Hat, Ha. split; intros (x & [= <-] & E1 & E2); (eexists; split; [done|]; split; [done|]); [by rewrite Hl|done].
    + rewrite Hat. intros x [= <-]. apply (stage_agent_ok s); [done..| | |]; by rewrite ?Hl.
    + by apply (stage_receives s s' a ag (with_life ag Live) Hi Ha Hat).
Qed.

Lemma stage_keeps s s' a ag ag' : inv s -> s.(agents) !! a = Some ag -> ag.(life) <> Live -> ag'.(life) <> Live ->
  s'.(agents) = <[a := ag']> s.(agents) -> s'.(receives) = s.(receives) -> s'.(ports) = s.(ports) -> ag'.(recv_handler) = ag.(recv_handler) ->
  clients_ok s' -> agent_ok s' a ag' -> (forall i rs, s.(receives) !! i = Some (Loaded a) -> ag'.(life) = Grace rs -> i ∈ rs) -> inv s'.
Proof.
  intros Hi Ha Hl Hl' Eg Er Ep Eh Hc Hok Hg. assert (Hat : s'.(agents) !! a = Some ag') by (rewrite Eg; apply lookup_insert_eq).
  assert (Hch : change s s' a) by (apply (put_change s s' a ag'); [done..|]; by rewrite Ep). apply (mad_inv_change s s' a Hi Hch); [|done| |].
  - apply (tables_same s s' a Hi); [apply Hch|done|]. intros q. rewrite Hat, Ha. cbn. unfold registered. rewrite !bool_decide_false by (intros [? _]; done). done.
  - rewrite Hat. by intros x [= <-].
  - by apply (stage_receives s s' a ag ag' Hi Ha Hat).
Qed.

Lemma erased_clients s s' a ag ag' : inv s -> s.(agents) !! a = Some ag -> in_array ag.(life) = true -> in_array ag'.(life) = false ->
  s'.(agents) = <[a := ag']> s.(agents) -> s'.(ib_mad_clients) = delete ag.(agent).(hi_tid) s.(ib_mad_clients) -> clients_ok s'.
Proof.
  intros Hi Ha Hin Hout Eg Ec h b. rewrite Ec, Eg, lookup_delete_Some, (i_clients _ Hi h b). split.
  - intros (Hne & x & Hx & Htid & Hix). exists x. split; [|done]. rewrite lookup_insert_ne; [done|]. intros <-. congruence.
  - intros (x & Hx & Htid & Hix). apply lookup_insert_Some in Hx as [[<- <-]|[Hne Hx]]; [congruence|]. split; [|by exists x]. intros Heq.
    assert (H1 : s.(ib_mad_clients) !! h = Some b) by (apply (i_clients _ Hi); by exists x).
    assert (H2 : s.(ib_mad_clients) !! h = Some a) by (apply (i_clients _ Hi); by exists ag). congruence.
Qed.

Lemma erase_keeps s a (from to : stage) st : inv s -> agent_at s a from -> exec s st = erase_client s a to -> in_array from = true -> in_array to = false ->
  from <> Live -> to <> Live -> own to = own from -> (forall rs, to <> Grace rs) -> (private to = true -> private from = true) -> keeps s st.
Proof.
  intros Hi (ag & Ha & <-) Ex H1 H2 H3 H4 H5 H6 H7. unfold keeps. rewrite Ex. unfold erase_client, mbind, option_bind. rewrite Ha. eexists. split; [done|].
  eapply (stage_keeps s _ a ag (with_life ag to)); try done.
  - by eapply (erased_clients s _ a ag (with_life ag to)).
  - eapply stage_agent_ok; [by apply (i_agents _ Hi)|done..| |done]. intros rs ->. by destruct (H6 rs).
  - cbn. intros i rs _ ->. by destruct (H6 rs).
Qed.

Lemma not_array_clients s s' a ag ag' : inv s -> s.(agents) !! a = Some ag -> in_array ag.(life) = false -> in_array ag'.(life) = false ->
  s'.(agents) = <[a := ag']> s.(agents) -> s'.(ib_mad_clients) = s.(ib_mad_clients) -> clients_ok s'.
Proof.
  intros Hi Ha H1 H2 Eg Ec. apply (clients_same s s' a (i_clients _ Hi)); [intros b Hne; rewrite Eg; by apply lookup_insert_ne|done|].
  intros h. rewrite Eg, lookup_insert_eq, Ha. split; intros (x & [= <-] & _ & E); congruence.
Qed.

Lemma drop_own_keeps s a : inv s -> agent_at s a Erased -> keeps s (DropOwn a).
Proof.
  intros Hi (ag & Ha & Hl). unfold keeps. cbn [exec]. unfold drop_own, deref_mad_agent, mbind, option_bind. rewrite Ha. cbn [agents put_agent set_agents]. rewrite lookup_insert_eq.
  eexists. split; [done|]. set (ag' := with_life _ Waiting). destruct (i_agents _ Hi _ _ Ha) as [H1 H2 H3 H4 H5 H6 H7 H8]. rewrite Hl in H2, H4. cbn in H2. specialize (H4 eq_refl).
  assert (Eg : <[a := ag']> (<[a := with_refcount ag (ag.(refcount) - 1) (if ag.(refcount) - 1 =? 0 then true else ag.(comp))]> s.(agents)) = <[a := ag']> s.(agents)) by apply insert_insert_eq.
  eapply (stage_keeps s _ a ag ag'); try done; [by rewrite Hl|..].
  - eapply (not_array_clients s _ a ag ag'); try done. by rewrite Hl.
  - constructor; cbn; try done.
    + change (holders _ a) with (holders s a). lia.
    + intros _. rewrite H4. destruct (Z.eqb_spec (ag.(refcount) - 1) 0); naive_solver.
Qed.

Lemma readers_loaded s i a : s.(receives) !! i = Some (Loaded a) -> i ∈ rcu_readers s.
Proof.
  intros Hir. unfold rcu_readers. apply elem_of_dom. exists (Loaded a). by apply map_lookup_filter_Some.
Qed.

Lemma wait_done_keeps s a : inv s -> enabled s (WaitDone a) -> keeps s (WaitDone a).
Proof.
  intros Hi (ag & Ha & Hl & Hcomp). unfold keeps. cbn [exec]. unfold kfree_rcu, mbind, option_bind. rewrite Ha. eexists. split; [done|].
  pose proof (i_agents _ Hi _ _ Ha) as Hok. assert (E0 : ag.(refcount) = 0) by (apply (ao_comp _ _ _ Hok); [by rewrite Hl|done]).
  eapply (stage_keeps s _ a ag (with_life ag (Grace (rcu_readers s)))); try done; [by rewrite Hl|..].
  - eapply (not_array_clients s _ a ag (with_life ag (Grace (rcu_readers s)))); try done. by rewrite Hl.
  - eapply stage_agent_ok; [done|done|done|by rewrite Hl|done|done].
  - cbn. intros i rs Hir [= <-]. by eapply readers_loaded.
Qed.

Lemma agent_free_keeps s a ag st : inv s -> exec s st = kfree s a -> s.(agents) !! a = Some ag -> in_array ag.(life) = false -> (forall i r, s.(receives) !! i = Some r -> agent_of r <> a) -> keeps s st.
Proof.
  intros Hi Ex Ha Hin Hn. unfold keeps. rewrite Ex. unfold kfree, mbind, option_bind. rewrite Ha. eexists. split; [done|]. set (s' := set_agents s _).
  assert (Ho : forall b, b <> a -> s'.(agents) !! b = s.(agents) !! b) by (intros b Hne; by apply lookup_delete_ne).
  assert (Hat : s'.(agents) !! a = None) by apply lookup_delete_eq. apply (mad_inv_change s s' a Hi).
  - by split.
  - apply (tables_same s s' a Hi); [done..|]. intros q. rewrite Hat, Ha. cbn. unfold registered. rewrite bool_decide_false; [done|]. intros [E _]. by rewrite E in Hin.
  - apply (clients_same s s' a (i_clients _ Hi)); [done..|]. intros h. rewrite Hat, Ha. split; intros (x & E & _ & Hx); [done|]. injection E as <-. congruence.
  - rewrite Hat. done.
  - intros i r Hir E. by destruct (Hn _ _ Hir).
Qed.

Lemma fail_free_keeps s a : inv s -> agent_at s a Failed -> keeps s (FailFree a).
Proof.
  intros Hi (ag & Ha & Hl). eapply (agent_free_keeps s a ag); [done..|by rewrite Hl|]. apply (ao_private _ _ _ (i_agents _ Hi _ _ Ha)). by rewrite Hl.
Qed.

Lemma agent_rcu_keeps s a : inv s -> enabled s (Rcu a) -> keeps s (Rcu a).
Proof.
  intros Hi (rs & (ag & Ha & Hl) & Hd). eapply (agent_free_keeps s a ag); [done..|by rewrite Hl|]. intros i r Hir <-. destruct (i_agents _ Hi _ _ Ha) as [_ H2 _ _ H5 _ _ _].
  specialize (H5 rs Hl). rewrite Hl in H2. cbn in H2. assert (H0 : holders s (agent_of r) = 0) by lia. pose proof (count_zero _ _ _ _ H0 Hir) as Hh.
  destruct r as [b|b|b]; cbn in Hh; [|by rewrite bool_decide_true in Hh..]. destruct (i_receives _ Hi _ _ Hir) as (ag' & Ha' & Hk). assert (ag' = ag) as -> by (cbn in *; congruence).
  specialize (Hk rs Hl). apply (Hd i); [done|]. by eapply readers_loaded.
Qed.

Lemma unregister_keeps s a : inv s -> agent_at s a Live -> keeps s (Unregister a).
Proof.
  intros Hi (ag & Ha & Hl). pose proof (i_agents _ Hi _ _ Ha) as Hok. destruct (ao_port _ _ _ Hok) as [p Hp].
  unfold keeps. cbn [exec]. unfold unregister_mad_agent, mbind, option_bind. rewrite Ha, Hp. eexists. split; [done|]. set (s' := put_agent _ _ _).
  assert (Hports : forall q, is_Some (s.(ports) !! q) -> is_Some (s'.(ports) !! q)) by (intros q Hq; cbn; apply lookup_insert_is_Some'; by right).
  assert (Ho : forall b, b <> a -> s'.(agents) !! b = s.(agents) !! b) by (intros b Hne; by apply lookup_insert_ne).
  assert (Hat : s'.(agents) !! a = Some (with_life ag Removing)) by apply lookup_insert_eq.
  assert (Hreg : forall q, regs_of s' q = delete a (regs_of s q)).
  { intros q. rewrite (regs_update s s' a) by done. rewrite Hat. cbn. unfold registered. by rewrite bool_decide_false by (intros [? _]; done). }
  apply (mad_inv_change s s' a Hi); [by apply (put_change s s' a (with_life ag Removing))|..].
  - intros q port E. rewrite Hreg. cbn in E. apply lookup_insert_Some in E as [[<- <-]|[Hne E]].
    + destruct ag.(reg_req) as [r|] eqn:Er; [apply remove_request_ok; [by apply (i_ports _ Hi)|apply regs_lookup; by exists ag]|].
      cbn. rewrite delete_id; [by apply (i_ports _ Hi)|]. destruct (regs_of s ag.(port_num) !! a) as [r|] eqn:E; [|done]. apply regs_lookup in E as (x & Hx & _ & _ & Ex). congruence.
    + rewrite delete_id; [by apply (i_ports _ Hi)|]. destruct (regs_of s q !! a) as [r|] eqn:E'; [|done]. apply regs_lookup in E' as (x & Hx & _ & Ex & _). congruence.
  - apply (clients_same s s' a (i_clients _ Hi)); [done..|]. intros h. rewrite Hat, Ha. split; intros (x & [= <-] & E1 & E2); (eexists; split; [done|]; split; [done|]); [by rewrite Hl|done].
  - rewrite Hat. intros x [= <-]. apply (stage_agent_ok s); [done..|by rewrite Hl|done|done].
  - by apply (stage_receives s s' a ag (with_life ag Removing) Hi Ha Hat).
Qed.

(** ** Received MADs *)

Lemma holders_nonneg s a : 0 <= holders s a.
Proof. apply count_pos. Qed.

(** A received MAD of the agent [a] moves, and with it the references of the agent. *)
Lemma receive_keeps s s' a ag n c i : inv s -> s.(agents) !! a = Some ag -> private ag.(life) = false ->
  s'.(agents) = <[a := with_refcount ag n c]> s.(agents) -> s'.(ports) = s.(ports) -> s'.(ib_mad_clients) = s.(ib_mad_clients) ->
  (forall j, j <> i -> s'.(receives) !! j = s.(receives) !! j) -> (forall r, s.(receives) !! i = Some r -> agent_of r = a) ->
  (forall r, s'.(receives) !! i = Some r -> agent_of r = a /\ receive_ok s' i r) ->
  n = ag.(refcount) + c_bool (from_option (holds a) false (s'.(receives) !! i)) - c_bool (from_option (holds a) false (s.(receives) !! i)) ->
  (own ag.(life) = 0 -> c = true <-> n = 0) -> (own ag.(life) = 1 -> c = false) -> ((exists rs, ag.(life) = Grace rs) -> n = 0) -> inv s'.
Proof.
  intros Hi Ha Hpr Eg Ep Ec Hoth Hbef Haft En Hc0 Hc1 Hgr. assert (Hat : s'.(agents) !! a = Some (with_refcount ag n c)) by (rewrite Eg; apply lookup_insert_eq).
  assert (Ho : forall b, b <> a -> s'.(agents) !! b = s.(agents) !! b) by (intros b Hne; rewrite Eg; by apply lookup_insert_ne).
  assert (Hch : change s s' a).
  { split; [done| |by rewrite Ep]. intros j r Hne. destruct (decide (j = i)) as [->|Hj]; [|by rewrite Hoth]. split; intros E; [by destruct (Haft _ E)|by destruct Hne; apply Hbef]. }
  apply (mad_inv_change s s' a Hi Hch).
  - apply (tables_same s s' a Hi Ho Ep). intros q. by rewrite Hat, Ha.
  - apply (clients_same s s' a (i_clients _ Hi) Ho Ec). intros h. rewrite Hat, Ha. split; intros (x & [= <-] & E1 & E2); by eexists.
  - rewrite Hat. intros x [= <-]. destruct (i_agents _ Hi _ _ Ha) as [H1 H2 H3 H4 H5 H6 H7 H8]. constructor; cbn [refcount life comp port_num reg_req recv_handler qpn agent with_refcount]; try done.
    + by rewrite Ep.
    + unfold holders in *. rewrite (count_at _ s.(receives) s'.(receives) i) by done. lia.
    + intros rs Hrs. apply Hgr. by exists rs.
    + congruence.
  - intros j r Hj E. destruct (decide (j = i)) as [->|Hne]; [by apply Haft|]. rewrite Hoth in Hj by done. destruct (i_receives _ Hi _ _ Hj) as (x & Hx & Hk). rewrite E in Hx.
    assert (x = ag) as -> by congruence. exists (with_refcount ag n c). rewrite E. split; [done|]. by destruct r.
Qed.

Lemma take_agent s a ag : inv s -> s.(agents) !! a = Some ag -> ag.(refcount) <> 0 -> ag.(comp) = false /\ 0 < ag.(refcount) /\ ~ exists rs, ag.(life) = Grace rs.
Proof.
  intros Hi Ha Hn. destruct (i_agents _ Hi _ _ Ha) as [_ H2 H3 H4 H5 _ _ _]. pose proof (holders_nonneg s a). split_and!.
  - destruct (own ag.(life)) as [|[| |]|] eqn:Eo; destruct ag.(life); try done; cbn in *; try (by apply H4); destruct ag.(comp); try done; by destruct Hn; apply H3.
  - destruct ag.(life); cbn in H2; lia.
  - intros [rs Hrs]. by destruct Hn; eapply H5.
Qed.

(** Taking and dropping references. *)
Lemma take_keeps s a ag i : inv s -> s.(agents) !! a = Some ag -> private ag.(life) = false -> ag.(refcount) <> 0 ->
  (forall r, s.(receives) !! i = Some r -> r = Loaded a) -> inv (put_receive (put_agent s a (with_refcount ag (ag.(refcount) + 1) ag.(comp))) i (Found a)).
Proof.
  intros Hi Ha Hpr Hn Hbef. destruct (take_agent _ _ _ Hi Ha Hn) as (Hcomp & Hpos & Hgr).
  eapply (receive_keeps s _ a ag (ag.(refcount) + 1) ag.(comp) i); try done.
  - intros j Hne. cbn. by rewrite lookup_insert_ne.
  - intros r Hr. by rewrite (Hbef _ Hr).
  - cbn. rewrite lookup_insert_eq. intros r [= <-]. split; [done|]. eexists. cbn. rewrite lookup_insert_eq. done.
  - cbn. rewrite lookup_insert_eq. cbn. rewrite bool_decide_true by done. destruct (s.(receives) !! i) as [r|] eqn:E; [rewrite (Hbef _ eq_refl)|]; cbn; lia.
  - rewrite Hcomp. split; [done|lia].
Qed.

Lemma recv_drop_keeps s a ag i r : inv s -> s.(agents) !! a = Some ag -> s.(receives) !! i = Some r -> holds a r = true ->
  exists s', deref_mad_agent (set_receives s (delete i s.(receives))) a = Some s' /\ inv s'.
Proof.
  intros Hi Ha Hr Hh. unfold deref_mad_agent, mbind, option_bind. cbn [agents set_receives]. rewrite Ha. eexists. split; [done|]. pose proof (i_agents _ Hi _ _ Ha) as Hok.
  assert (Hag : agent_of r = a) by (destruct r; cbn in *; [done|..]; by apply bool_decide_eq_true in Hh).
  assert (Hpos : 0 < holders s a) by by eapply (count_pos (holds a)). assert (Hn : ag.(refcount) <> 0) by (rewrite (ao_count _ _ _ Hok); destruct ag.(life); cbn; lia).
  destruct (take_agent _ _ _ Hi Ha Hn) as (Hcomp & _ & Hgr). eapply (receive_keeps s _ a ag (ag.(refcount) - 1) _ i); try done.
  - destruct (private ag.(life)) eqn:E; [|done]. by destruct (ao_private _ _ _ Hok E _ _ Hr).
  - intros j Hne. cbn. by rewrite lookup_delete_ne.
  - intros r' Hr'. congruence.
  - cbn. by rewrite lookup_delete_eq.
  - cbn. rewrite lookup_delete_eq, Hr. cbn. rewrite Hh. cbn. lia.
  - rewrite Hcomp. destruct (Z.eqb_spec (ag.(refcount) - 1) 0); naive_solver.
  - intros Ho. rewrite Hcomp. destruct (Z.eqb_spec (ag.(refcount) - 1) 0); [|done]. rewrite (ao_count _ _ _ Hok), Ho in *. lia.
Qed.

(** A received MAD moves on without its agent. *)
Lemma move_keeps s a ag i o : inv s -> s.(agents) !! a = Some ag -> private ag.(life) = false -> (forall r, s.(receives) !! i = Some r -> agent_of r = a) ->
  (forall r, o = Some r -> agent_of r = a /\ receive_ok s i r) -> from_option (holds a) false o = from_option (holds a) false (s.(receives) !! i) ->
  inv (set_receives s (partial_alter (fun _ => o) i s.(receives))).
Proof.
  intros Hi Ha Hpr Hbef Haft Hh. pose proof (i_agents _ Hi _ _ Ha) as Hok. eapply (receive_keeps s _ a ag ag.(refcount) ag.(comp) i); try done.
  - cbn. symmetry. rewrite insert_id; [done|]. rewrite Ha. by destruct ag.
  - intros j Hne. cbn. by rewrite lookup_partial_alter_ne.
  - cbn. rewrite lookup_partial_alter_eq. exact Haft.
  - cbn. rewrite lookup_partial_alter_eq, Hh. lia.
  - apply Hok.
  - apply Hok.
  - intros [rs Hrs]. by eapply (ao_grace _ _ _ Hok).
Qed.

Lemma request_keeps s i port hdr : inv s -> enabled s (Request i port hdr) -> keeps s (Request i port hdr).
Proof.
  intros Hi (Hr & p & Hp). unfold keeps. cbn [exec]. unfold find_mad_agent_request, mbind, option_bind. rewrite Hp. destruct (find_in_tables p hdr) as [a|] eqn:E; [|by eexists].
  apply (find_in_tables_spec p (regs_of s port)) in E as (r & Hreg & _); [|by apply (i_ports _ Hi)]. apply regs_lookup in Hreg as (ag & Ha & Hl & _). rewrite Ha.
  eexists. split; [done|]. apply take_keeps; [done|done|by rewrite Hl| |intros r' Hr'; congruence]. rewrite (ao_count _ _ _ (i_agents _ Hi _ _ Ha)), Hl. cbn. pose proof (holders_nonneg s a). lia.
Qed.

Lemma load_keeps s i hdr : inv s -> enabled s (Load i hdr) -> keeps s (Load i hdr).
Proof.
  intros Hi (Hr & Hpr). unfold keeps. cbn [exec]. unfold find_mad_agent_load. destruct (s.(ib_mad_clients) !! _) as [a|] eqn:E; [|by eexists]. eexists. split; [done|].
  pose proof E as E'. apply (i_clients _ Hi) in E' as (ag & Ha & _ & Hin). specialize (Hpr a ag eq_refl Ha). apply (move_keeps s a ag i (Some (Loaded a))); [done..|intros r Hr'; congruence| |by rewrite Hr].
  intros r [= <-]. split; [done|]. exists ag. split; [done|]. intros rs Hrs. by rewrite Hrs in Hin.
Qed.

Lemma receive_private s i r ag : inv s -> s.(receives) !! i = Some r -> s.(agents) !! agent_of r = Some ag -> private ag.(life) = false.
Proof. intros Hi Hr Ha. destruct (private ag.(life)) eqn:E; [|done]. by destruct (ao_private _ _ _ (i_agents _ Hi _ _ Ha) E _ _ Hr). Qed.

Lemma take_step_keeps s i : inv s -> enabled s (Take i) -> keeps s (Take i).
Proof.
  intros Hi (a & Hr). unfold keeps. cbn [exec]. unfold find_mad_agent_take, mbind, option_bind. rewrite Hr. destruct (i_receives _ Hi _ _ Hr) as (ag & Ha & _). cbn in Ha. rewrite Ha.
  pose proof (receive_private _ _ _ _ Hi Hr Ha) as Hpr. destruct (Z.eqb_spec ag.(refcount) 0); eexists; (split; [done|]).
  - apply (move_keeps s a ag i None); try done; [rewrite Hr; by intros r [= <-]|]. by rewrite Hr.
  - apply take_keeps; [done..|]. intros r Hr'. congruence.
Qed.

Lemma check_keeps s i : inv s -> enabled s (CheckHandler i) -> keeps s (CheckHandler i).
Proof.
  intros Hi (a & Hr). unfold keeps. cbn [exec]. unfold find_mad_agent_check, mbind, option_bind. rewrite Hr. destruct (i_receives _ Hi _ _ Hr) as (ag & Ha & _). cbn in Ha. rewrite Ha.
  destruct ag.(recv_handler) eqn:Eh; cbn [negb].
  - eexists. split; [done|]. apply (move_keeps s a ag i (Some (Holding a))); [done|done|by eapply receive_private|rewrite Hr; by intros r [= <-]| |by rewrite Hr].
    intros r [= <-]. split; [done|]. by exists ag.
  - eapply (recv_drop_keeps s a ag i); [done..|]. cbn. by apply bool_decide_true.
Qed.

Lemma complete_keeps s i : inv s -> enabled s (Complete i) -> keeps s (Complete i).
Proof.
  intros Hi (a & Hr). unfold keeps. cbn [exec]. unfold complete_recv. rewrite Hr. destruct (i_receives _ Hi _ _ Hr) as (ag & Ha & _). cbn in Ha.
  eapply (recv_drop_keeps s a ag i); [done..|]. cbn. by apply bool_decide_true.
Qed.

Lemma handle_keeps s i : inv s -> enabled s (Handle i) -> keeps s (Handle i).
Proof.
  intros Hi (a & Hr). unfold keeps. cbn [exec]. unfold call_handler, mbind, option_bind. rewrite Hr. destruct (i_receives _ Hi _ _ Hr) as (ag & Ha & Hh). cbn in Ha. rewrite Ha, Hh. by eexists.
Qed.

Lemma mad_exec_keeps s st : inv s -> enabled s st -> keeps s st.
Proof.
  intros Hi He. destruct st.
  - by apply register_keeps.
  - by apply install_keeps.
  - by apply (erase_keeps s a Failing Failed).
  - by apply fail_free_keeps.
  - by apply unregister_keeps.
  - by apply (erase_keeps s a Removing Erased).
  - by apply drop_own_keeps.
  - by apply wait_done_keeps.
  - by apply agent_rcu_keeps.
  - by apply request_keeps.
  - by apply load_keeps.
  - by apply take_step_keeps.
  - by apply check_keeps.
  - by apply handle_keeps.
  - by apply complete_keeps.
Qed.

(** ** Runs *)

Fixpoint allowed (s : mads) (l : list step) : Prop :=
  match l with [] => True | st :: l => enabled s st /\ forall s', exec s st = Some s' -> allowed s' l end.

Lemma mad_run_keeps l : forall s, inv s -> allowed s l -> exists s', run s l = Some s' /\ inv s'.
Proof.
  induction l as [|st l IH]; intros s Hi Ha; cbn [run]; [by exists s|]. destruct Ha as [He Ha]. destruct (mad_exec_keeps s st Hi He) as (s' & E & Hi').
  unfold mbind, option_bind. rewrite E. by apply IH, Ha.
Qed.

(** The ports as they are opened. *)
Definition open_ports (ps : gset Z) : mads := mk_mads (gset_to_gmap (mk_port_private ∅ ∅) ps) ∅ ∅ ∅.

Lemma open_inv ps : inv (open_ports ps).
Proof.
  split.
  - intros p port E. cbn in E. apply lookup_gset_to_gmap_Some in E as [_ <-]. assert (Hr : regs_of (open_ports ps) p = ∅) by apply omap_empty. rewrite Hr. apply empty_tables_ok.
  - intros a ag E. cbn in E. by rewrite lookup_empty in E.
  - intros h a. cbn. rewrite lookup_empty. split; [done|]. intros (ag & E & _). by rewrite lookup_empty in E.
  - intros i r E. cbn in E. by rewrite lookup_empty in E.
Qed.

Definition reachable (s : mads) : Prop := exists ps l, allowed (open_ports ps) l /\ run (open_ports ps) l = Some s.

Lemma mad_reachable_inv s : reachable s -> inv s.
Proof. intros (ps & l & Ha & E). destruct (mad_run_keeps l _ (open_inv ps) Ha) as (s' & E' & Hi). congruence. Qed.

(** ** Steps that release *)

(** What follows a failed registration, an unregistration or a received MAD without
    anyone else's doing. *)
Definition releasing (st : step) : bool :=
  match st with FailErase _ | FailFree _ | Erase _ | DropOwn _ | WaitDone _ | Rcu _ | Take _ | CheckHandler _ | Complete _ => true | _ => false end.

Definition stage_rank (l : stage) : Z :=
  match l with Creating | Live => 0 | Failing => 2 | Failed => 1 | Removing => 4 | Erased => 3 | Waiting => 2 | Grace _ => 1 end.

Definition agent_rank (ag : ib_mad_agent_private) : Z := stage_rank ag.(life).
Definition receive_rank (r : receive) : Z := match r with Loaded _ => 3 | Found _ => 2 | Holding _ => 1 end.

Definition measure (s : mads) : Z := total agent_rank s.(agents) + total receive_rank s.(receives).

Lemma mad_measure_nonneg s : 0 <= measure s.
Proof.
  unfold measure. assert (0 <= total agent_rank s.(agents)) by (apply total_nonneg; intros a ag _; unfold agent_rank; by destruct ag.(life)).
  assert (0 <= total receive_rank s.(receives)) by (apply total_nonneg; by intros i [] _). lia.
Qed.

Lemma deref_measure s a s' : deref_mad_agent s a = Some s' -> measure s' = measure s.
Proof.
  unfold deref_mad_agent, mbind, option_bind. destruct (s.(agents) !! a) as [ag|] eqn:Ha; [|done]. intros [= <-]. unfold measure. cbn.
  rewrite (total_update _ _ _ _ _ Ha). unfold agent_rank. cbn. lia.
Qed.

Lemma stage_measure s s' a ag ag' : s.(agents) !! a = Some ag -> s'.(agents) = <[a := ag']> s.(agents) -> s'.(receives) = s.(receives) ->
  measure s' = measure s - agent_rank ag + agent_rank ag'.
Proof. intros Ha Eg Er. unfold measure. rewrite Eg, Er, (total_update _ _ _ _ _ Ha). lia. Qed.

Lemma free_measure s a ag s' : s.(agents) !! a = Some ag -> kfree s a = Some s' -> measure s' = measure s - agent_rank ag.
Proof. intros Ha. unfold kfree, mbind, option_bind. rewrite Ha. intros [= <-]. unfold measure. cbn. rewrite (total_delete _ _ _ _ Ha). lia. Qed.

Lemma erase_measure s a from to s' : agent_at s a from -> erase_client s a to = Some s' -> measure s' = measure s - stage_rank from + stage_rank to.
Proof.
  intros (ag & Ha & <-). unfold erase_client, mbind, option_bind. rewrite Ha. intros [= <-].
  by rewrite (stage_measure s _ a ag (with_life ag to) Ha).
Qed.

Lemma receive_measure s i r : s.(receives) !! i = Some r -> measure (set_receives s (delete i s.(receives))) = measure s - receive_rank r.
Proof. intros Hr. unfold measure. cbn. rewrite (total_delete _ _ _ _ Hr). lia. Qed.

Lemma move_measure s i r r' : s.(receives) !! i = Some r -> measure (put_receive s i r') = measure s - receive_rank r + receive_rank r'.
Proof. intros Hr. unfold measure. cbn. rewrite (total_update _ _ _ _ _ Hr). lia. Qed.

Lemma release_decreases s st s' : releasing st = true -> enabled s st -> exec s st = Some s' -> measure s' < measure s.
Proof.
  destruct st; try done; intros _; cbn [enabled exec].
  - intros Ha E. rewrite (erase_measure _ _ _ _ _ Ha E). cbn. lia.
  - intros (ag & Ha & Hl) E. rewrite (free_measure _ _ _ _ Ha E). unfold agent_rank. rewrite Hl. cbn. lia.
  - intros Ha E. rewrite (erase_measure _ _ _ _ _ Ha E). cbn. lia.
  - intros (ag & Ha & Hl). unfold drop_own, mbind, option_bind. destruct (deref_mad_agent s a) as [s1|] eqn:E1; [|done]. pose proof (deref_measure _ _ _ E1) as Em.
    revert E1. unfold deref_mad_agent, mbind, option_bind. rewrite Ha. intros [= <-]. cbn [agents put_agent set_agents]. rewrite lookup_insert_eq. intros [= <-]. rewrite <- Em.
    rewrite (stage_measure _ _ a (with_refcount ag (ag.(refcount) - 1) (if ag.(refcount) - 1 =? 0 then true else ag.(comp)))
      (with_life (with_refcount ag (ag.(refcount) - 1) (if ag.(refcount) - 1 =? 0 then true else ag.(comp))) Waiting) (lookup_insert_eq _ _ _)) by done.
    unfold agent_rank. cbn. rewrite Hl. cbn. lia.
  - intros (ag & Ha & Hl & _). unfold kfree_rcu, mbind, option_bind. rewrite Ha. intros [= <-]. rewrite (stage_measure s _ a ag (with_life ag (Grace (rcu_readers s))) Ha) by done.
    unfold agent_rank. rewrite Hl. cbn. lia.
  - intros (rs & (ag & Ha & Hl) & _) E. rewrite (free_measure _ _ _ _ Ha E). unfold agent_rank. rewrite Hl. cbn. lia.
  - intros (a & Hr). unfold find_mad_agent_take, mbind, option_bind. rewrite Hr. destruct (s.(agents) !! a) as [ag|] eqn:Ha; [|done]. destruct (_ =? 0); intros [= <-].
    + rewrite (receive_measure s i (Loaded a)) by done. cbn. lia.
    + rewrite (move_measure _ i (Loaded a)) by done. rewrite (stage_measure s _ a ag (with_refcount ag (ag.(refcount) + 1) ag.(comp)) Ha) by done. unfold agent_rank. cbn. lia.
  - intros (a & Hr). unfold find_mad_agent_check, mbind, option_bind. rewrite Hr. destruct (s.(agents) !! a) as [ag|] eqn:Ha; [|done]. destruct (negb _).
    + intros E. rewrite (deref_measure _ _ _ E), (receive_measure s i (Found a)) by done. cbn. lia.
    + intros [= <-]. rewrite (move_measure _ i (Found a)) by done. cbn. lia.
  - intros (a & Hr). unfold complete_recv. rewrite Hr. intros E. rewrite (deref_measure _ _ _ E), (receive_measure s i (Holding a)) by done. cbn. lia.
Qed.

(** Nothing is left to release: no received MAD is under way and every agent is
    registered or about to be. *)
Definition quiet (s : mads) : Prop := s.(receives) = ∅ /\ forall a ag, s.(agents) !! a = Some ag -> ag.(life) = Live \/ ag.(life) = Creating.

Lemma blocked_quiet s : inv s -> (forall st, releasing st = true -> ~ enabled s st) -> quiet s.
Proof.
  intros Hi Hb. assert (Hr : s.(receives) = ∅).
  { apply map_empty. intros i. destruct (s.(receives) !! i) as [[a|a|a]|] eqn:E; [| | |done]; exfalso.
    - apply (Hb (Take i) eq_refl). by exists a.
    - apply (Hb (CheckHandler i) eq_refl). by exists a.
    - apply (Hb (Complete i) eq_refl). by exists a. }
  split; [done|]. intros a ag Ha. destruct ag.(life) as [| | | | | | |rs] eqn:Hl; auto; exfalso.
  - apply (Hb (FailErase a) eq_refl). by exists ag.
  - apply (Hb (FailFree a) eq_refl). by exists ag.
  - apply (Hb (Erase a) eq_refl). by exists ag.
  - apply (Hb (DropOwn a) eq_refl). by exists ag.
  - apply (Hb (WaitDone a) eq_refl). exists ag. split_and!; [done..|]. pose proof (i_agents _ Hi _ _ Ha) as Hok. apply (ao_comp _ _ _ Hok); [by rewrite Hl|].
    rewrite (ao_count _ _ _ Hok), Hl. unfold holders. rewrite Hr. done.
  - apply (Hb (Rcu a) eq_refl). exists rs. split; [by exists ag|]. intros i _ Hin. unfold rcu_readers in Hin. apply elem_of_dom in Hin as [r Hin].
    apply map_lookup_filter_Some in Hin as [Hin _]. by rewrite Hr, lookup_empty in Hin.
Qed.
