(* ===== verification/MadAgentLive.v ===== *)
(** What registration and routing of MADs (MadAgent.v) promise: theorems, runs at which they
    apply, and the runs in which the code fails. *)

From S2P Require Import Prelude Counting Packer Bytes QpState RmppRecv RmppSend MadReg MadRegTables MadRegVendor MadRegSpec MadAgent MadAgentSafe.
#[local] Open Scope Z_scope.

(** The agent [a] is registered at the port with the request [r]. *)
Definition registered_at (s : mads) (p a : Z) (r : ib_mad_reg_req) : Prop := regs_of s p !! a = Some r.

(** Someone at the port has a registration that overlaps. *)
Definition taken (s : mads) (p : Z) (r : ib_mad_reg_req) : Prop := exists a r', registered_at s p a r' /\ overlap r r'.

(** ** Theorems *)

(** C12: Agents and received MADs are memory safe: in every interleaving of registrations,
    unregistrations, receive paths and RCU in which responses carry identifiers of
    agents whose registration is over, no freed agent is used and no null handler is
    called; an agent that a received MAD refers to exists, its reference count is exact, and
    no two agents of the array have one identifier. *)
Theorem mad_agents_safe ps l : allowed (open_ports ps) l ->
  exists s, run (open_ports ps) l = Some s /\
    (forall i r, s.(receives) !! i = Some r -> exists ag, s.(agents) !! agent_of r = Some ag /\ forall a, r = Holding a -> ag.(recv_handler) = true) /\
    (forall a ag, s.(agents) !! a = Some ag -> ag.(refcount) = own ag.(life) + holders s a) /\
    (forall a b ag bg, s.(agents) !! a = Some ag -> s.(agents) !! b = Some bg -> in_array ag.(life) = true -> in_array bg.(life) = true ->
       ag.(agent).(hi_tid) = bg.(agent).(hi_tid) -> a = b).
Proof.
  intros Ha. destruct (mad_run_keeps l _ (open_inv ps) Ha) as (s & E & Hi). exists s. split_and!; [done|..].
  - intros i r Hr. destruct (i_receives _ Hi _ _ Hr) as (ag & Hag & Hk). exists ag. split; [done|]. by intros a ->.
  - intros a ag Hag. apply (i_agents _ Hi _ _ Hag).
  - intros a b ag bg H1 H2 H3 H4 Heq.
    assert (E1 : s.(ib_mad_clients) !! ag.(agent).(hi_tid) = Some a) by (apply (i_clients _ Hi); by exists ag).
    assert (E2 : s.(ib_mad_clients) !! ag.(agent).(hi_tid) = Some b) by (apply (i_clients _ Hi); by exists bg). congruence.
Qed.

(** C13: The tables implement the registry: in every reachable state a MAD that is no
    response goes to exactly the agent that is registered at the port with a request
    for the version, the class, the method and, for a vendor class, the OUI of the MAD;
    there is at most one, and it gets a reference. *)
Theorem mad_request_routing s i p hdr : reachable s -> is_Some (s.(ports) !! p) -> s.(receives) !! i = None ->
  exists s', find_mad_agent_request s i p hdr = Some s' /\
    (forall a, s'.(receives) !! i = Some (Found a) <-> exists r, registered_at s p a r /\ covers r hdr = true) /\
    (forall a b r r', registered_at s p a r -> registered_at s p b r' -> covers r hdr = true -> covers r' hdr = true -> a = b) /\
    (forall a, s'.(receives) !! i = Some (Found a) -> holders s' a = holders s a + 1).
Proof.
  intros Hr [port Hp] Hn. pose proof (mad_reachable_inv _ Hr) as Hi. pose proof (i_ports _ Hi _ _ Hp) as Ht.
  destruct (request_keeps s i p hdr Hi) as (s' & E & Hi'); [split; [done|by exists port]|]. exists s'. split; [done|].
  cbn [exec] in E. unfold find_mad_agent_request, mbind, option_bind in E. rewrite Hp in E. unfold registered_at.
  assert (Hto : forall a, s'.(receives) !! i = Some (Found a) <-> find_in_tables port hdr = Some a).
  { destruct (find_in_tables port hdr) as [b|]; [|injection E as <-; rewrite Hn; naive_solver].
    destruct (s.(agents) !! b) as [ag|] eqn:Hb; [|done]. injection E as <-. intros a. cbn. rewrite lookup_insert_eq. naive_solver. }
  split_and!.
  - intros a. rewrite Hto. by apply find_in_tables_spec.
  - intros a b r r' H1 H2 H3 H4. assert (E1 : find_in_tables port hdr = Some a) by (apply (find_in_tables_spec _ _ _ _ Ht); by exists r).
    assert (E2 : find_in_tables port hdr = Some b) by (apply (find_in_tables_spec _ _ _ _ Ht); by exists r'). congruence.
  - intros a Ha. apply Hto in Ha. rewrite Ha in E. destruct (s.(agents) !! a) as [ag|]; [|done]. injection E as <-. unfold holders. cbn.
    rewrite count_new by done. cbn. rewrite bool_decide_true by done. cbn. lia.
Qed.

(** C14: Registration is all or nothing. Under the lock a request succeeds only
    if no registration of the port overlaps it, and is then registered; it is refused
    with EINVAL exactly if one does, and with ENOMEM only if memory is short or eight
    other OUIs fill the vendor class. A refusal leaves all tables as they were. *)
Theorem register_outcomes s a ag r mem : reachable s -> s.(agents) !! a = Some ag -> ag.(life) = Creating -> ag.(reg_req) = Some r ->
  exists s' ret, register_install s a mem = Some (s', ret) /\
    ((ret = 0 /\ ~ taken s ag.(port_num) r /\ registered_at s' ag.(port_num) a r) \/
     (ret = - EINVAL /\ taken s ag.(port_num) r /\ s'.(ports) = s.(ports) /\ agent_at s' a Failing) \/
     (ret = - ENOMEM /\ ~ taken s ag.(port_num) r /\ s'.(ports) = s.(ports) /\ agent_at s' a Failing /\
        (~ all_memory mem \/ for_vendor r = true /\ ouis_exhausted (regs_of s ag.(port_num)) r))).
Proof.
  intros Hreach Ha Hl Hr. pose proof (mad_reachable_inv _ Hreach) as Hi. pose proof (i_agents _ Hi _ _ Ha) as Hok. destruct (ao_port _ _ _ Hok) as [p Hp].
  pose proof (ao_typed _ _ _ Hok) as (_ & _ & Ht). rewrite Hr in Ht. destruct Ht as (Hreq & _).
  assert (Hnone : regs_of s ag.(port_num) !! a = None).
  { destruct (regs_of s ag.(port_num) !! a) as [r'|] eqn:E; [|done]. apply regs_lookup in E as (x & Hx & El & _). congruence. }
  pose proof (register_request_ok p _ r a mem (i_ports _ Hi _ _ Hp) Hnone Hreq) as Hres.
  unfold register_install, mbind, option_bind. rewrite Ha, Hr, Hp. destruct (register_request p r a mem) as [p' ret]. eexists _, _. split; [reflexivity|].
  destruct Hres as [(E & _ & Hno)|[(E & Hov)|(E & Hno & Hwhy)]]; cbn in E.
  - left. rewrite E. split_and!; [done..|]. apply regs_lookup. exists (with_life ag Live). cbn. by rewrite lookup_insert_eq.
  - right. left. injection E as -> ->. split_and!; [done|done| |eexists; cbn; by rewrite lookup_insert_eq]. cbn. by rewrite insert_id.
  - right. right. injection E as -> ->. split_and!; [done|done| |eexists; cbn; by rewrite lookup_insert_eq|done]. cbn. by rewrite insert_id.
Qed.

(** Unregistering an agent takes exactly its request out of the tables of its port,
    and a port none of whose agents registered a request has no tables at all. *)
Theorem unregister_exact s a ag : reachable s -> s.(agents) !! a = Some ag -> ag.(life) = Live ->
  exists s' port, unregister_mad_agent s a = Some s' /\ s'.(ports) !! ag.(port_num) = Some port /\
    (forall p b r, registered_at s' p b r <-> b <> a /\ registered_at s p b r) /\
    (forall hdr b, find_in_tables port hdr = Some b <-> b <> a /\ exists r, registered_at s ag.(port_num) b r /\ covers r hdr = true) /\
    ((forall b r, registered_at s ag.(port_num) b r -> b = a) -> port = mk_port_private ∅ ∅).
Proof.
  intros Hreach Ha Hl. pose proof (mad_reachable_inv _ Hreach) as Hi. destruct (unregister_keeps s a Hi) as (s' & E & Hi'); [by exists ag|]. cbn [exec] in E.
  destruct (ao_port _ _ _ (i_agents _ Hi _ _ Ha)) as [p Hp]. exists s', (remove_mad_reg_req p ag.(reg_req) a). split; [done|].
  unfold unregister_mad_agent, mbind, option_bind in E. rewrite Ha, Hp in E. injection E as <-. set (s' := put_agent _ _ _) in *.
  assert (Hp' : s'.(ports) !! ag.(port_num) = Some (remove_mad_reg_req p ag.(reg_req) a)) by apply lookup_insert_eq. split; [done|].
  assert (Hreg : forall q b r, registered_at s' q b r <-> b <> a /\ registered_at s q b r).
  { intros q b r. unfold registered_at. rewrite (regs_update s s' a) by (intros c Hne; by apply lookup_insert_ne).
    replace (s'.(agents) !! a) with (Some (with_life ag Removing)) by (symmetry; apply lookup_insert_eq). cbn. unfold registered.
    rewrite bool_decide_false by (intros [? _]; done). rewrite lookup_delete_Some. naive_solver. }
  pose proof (i_ports _ Hi' _ _ Hp') as Ht. split_and!; [done| |].
  - intros hdr b. rewrite (find_in_tables_spec _ _ hdr b Ht). split.
    + intros (r & Hr%Hreg & Hc). split; [apply Hr|]. by exists r; split; [apply Hr|].
    + intros (Hne & r & Hr & Hc). exists r. split; [|done]. by apply Hreg.
  - intros Hall. apply no_requests_no_tables. assert (Hemp : regs_of s' ag.(port_num) = ∅); [|by rewrite <- Hemp].
    apply map_empty. intros b. destruct (regs_of s' ag.(port_num) !! b) as [r|] eqn:E; [|done]. apply Hreg in E as [Hne E]. by destruct Hne; eapply Hall.
Qed.

(** C17: Every agent is what the tests of its registration let through: on queue pair
    0 or 1, with RMPP version 0 or 1; a request has a legal class and version, a handler, an SMP class
    exactly on queue pair 0, an OUI in a vendor class, and RMPP only for a class that has it;
    without a request there is a send handler and no user RMPP. *)
Theorem mad_agents_typed s a ag : reachable s -> s.(agents) !! a = Some ag -> agent_typed ag /\ 0 <= ag.(agent).(hi_tid) < 2 ^ 24.
Proof. intros Hr Ha. pose proof (i_agents _ (mad_reachable_inv _ Hr) _ _ Ha) as Hok. split; apply Hok. Qed.

(** Queue pairs are apart: a MAD that is no response, that [validate_mad] lets through and
    whose class is not the reserved class 0, goes to an agent of queue pair 0 exactly if it
    came on queue pair 0. *)
Theorem mad_qp_isolation s i p hdr qp_num opa s' a : reachable s -> s.(receives) !! i = None -> validate_mad hdr qp_num opa = true -> hdr.(h_mgmt_class) <> 0 ->
  find_mad_agent_request s i p hdr = Some s' -> s'.(receives) !! i = Some (Found a) ->
  exists ag, s'.(agents) !! a = Some ag /\ ag.(life) = Live /\ ag.(port_num) = p /\ (ag.(qpn) = 0 <-> qp_num = 0).
Proof.
  intros Hreach Hn Hv H0 E Hf. pose proof (mad_reachable_inv _ Hreach) as Hi. unfold find_mad_agent_request, mbind, option_bind in E.
  destruct (s.(ports) !! p) as [port|] eqn:Hp; [|done]. destruct (find_in_tables port hdr) as [b|] eqn:Ef; [|injection E as <-; congruence].
  destruct (s.(agents) !! b) as [ag|] eqn:Hb; [|done]. injection E as <-. cbn in Hf. rewrite lookup_insert_eq in Hf. injection Hf as ->. eexists. cbn. rewrite lookup_insert_eq. split; [done|]. cbn.
  apply (find_in_tables_spec port (regs_of s p)) in Ef as (r & Hr & Hc); [|by apply (i_ports _ Hi)]. apply regs_lookup in Hr as (x & Hx & Hl & Hport & Hreq). assert (x = ag) as -> by congruence.
  split_and!; [done..|]. pose proof (ao_typed _ _ _ (i_agents _ Hi _ _ Hb)) as (_ & _ & Ht). rewrite Hreq in Ht. destruct Ht as ([Hclass _] & _ & Hs & _).
  rewrite <- Z.eqb_eq, <- Hs. assert (Hcl : r.(mgmt_class) = hdr.(h_mgmt_class)).
  { unfold covers in Hc. rewrite !andb_true_iff, !Z.eqb_eq in Hc. destruct Hc as (((_ & Hcc) & _) & _). unfold convert_mgmt_class in Hcc. repeat case_match; bool_arith; lia. }
  rewrite Hcl. unfold is_smp_class, validate_mad in *. destruct (negb _ && _); [done|]. destruct (_ || _); [split; [intros _; lia|done]|].
  destruct (_ && _); [done|]. apply negb_true_iff, Z.eqb_neq in Hv. done.
Qed.

Lemma tid_high hi t : 0 <= hi < 2 ^ 24 -> Z.shiftr (u64 (Z.lor (Z.shiftl hi 32) (Z.land t 0xffffffff))) 32 = hi.
Proof.
  intros Hh. apply Z.bits_inj'. intros n Hn. rewrite Z.shiftr_spec, wrap_testbit, Z.lor_spec, Z.shiftl_spec, Z.land_spec by lia. replace (n + 32 - 32) with n by lia.
  change 0xffffffff with (Z.ones 32). rewrite ones_testbit by lia. replace (n + 32 <? 32) with false by (symmetry; apply Z.ltb_ge; lia). rewrite andb_false_r, andb_false_r, orb_false_r.
  destruct (Z.ltb_spec (n + 32) 64); [done|]. cbn. symmetry. destruct (Z.eq_dec hi 0) as [->|Hne]; [apply Z.bits_0|]. apply Z.bits_above_log2; [lia|].
  assert (Z.log2 hi < 24) by (apply Z.log2_lt_pow2; lia). lia.
Qed.

(** C15: Responses come home: a response whose transaction identifier is the one that was put
    into a request of a registered agent is handed to this agent, whatever other agents
    and tables there are, and the agent gets a reference; a response with any other
    high half never reaches the agent. *)
Theorem response_returns s i a ag m m' t hdr : reachable s -> s.(receives) !! i = None -> s.(agents) !! a = Some ag -> ag.(life) = Live ->
  RmppSend.ib_response_mad m = Some false -> set_hi_tid ag.(agent) m = Some m' -> be_get m' 8 8 = Some t -> hdr.(tid) = t ->
  (exists s1 s2, find_mad_agent_load s i hdr = Some s1 /\ find_mad_agent_take s1 i = Some s2 /\ s2.(receives) !! i = Some (Found a) /\ holders s2 a = holders s a + 1) /\
  forall hdr' s1, Z.shiftr hdr'.(tid) 32 <> Z.shiftr t 32 -> find_mad_agent_load s i hdr' = Some s1 -> s1.(receives) !! i <> Some (Loaded a).
Proof.
  intros Hreach Hn Ha Hl Hreq Hset Ht Htid. pose proof (mad_reachable_inv _ Hreach) as Hi. pose proof (i_agents _ Hi _ _ Ha) as Hok.
  assert (Hh : Z.shiftr t 32 = ag.(agent).(hi_tid)).
  { unfold set_hi_tid, mbind, option_bind in Hset. rewrite Hreq in Hset. destruct (be_get m 8 8) as [t0|]; [|done].
    rewrite (be_get_put_same _ _ _ _ _ 8 Hset eq_refl) in Ht. injection Ht as <-. apply tid_high, Hok. }
  assert (Hc : s.(ib_mad_clients) !! Z.shiftr t 32 = Some a) by (apply (i_clients _ Hi); exists ag; by rewrite Hl). split.
  - unfold find_mad_agent_load. rewrite Htid, Hc. eexists _, _. split; [done|]. unfold find_mad_agent_take, mbind, option_bind. cbn [receives put_receive set_receives agents].
    rewrite lookup_insert_eq, Ha. assert (Hr : ag.(refcount) <> 0) by (rewrite (ao_count _ _ _ Hok), Hl; cbn; pose proof (holders_nonneg s a); lia).
    rewrite (proj2 (Z.eqb_neq _ 0)) by done. split; [done|]. cbn. rewrite lookup_insert_eq. split; [done|]. unfold holders. cbn. rewrite insert_insert_eq, count_new by done.
    cbn. rewrite bool_decide_true by done. cbn. lia.
  - intros hdr' s1 Hne E Hr. unfold find_mad_agent_load in E. destruct (s.(ib_mad_clients) !! Z.shiftr hdr'.(tid) 32) as [b|] eqn:Eb; [|injection E as <-; congruence]. injection E as <-. cbn in Hr.
    rewrite lookup_insert_eq in Hr. injection Hr as ->. apply (i_clients _ Hi) in Eb as (x & Hx & Hxt & _). assert (x = ag) as -> by congruence. congruence.
Qed.

(** C16: Unregistering ends and leaves nothing: from every reachable state each sequence of
    releasing steps has at most [measure s] steps, and where none is possible no
    received MAD is under way and every agent is registered or being registered; the array
    has exactly these agents, and without any agent all tables are gone. *)
Theorem mad_agents_drain s l s' : reachable s -> allowed s l -> Forall (fun st => releasing st = true) l -> run s l = Some s' ->
  Z.of_nat (length l) <= measure s /\
  ((forall st, releasing st = true -> ~ enabled s' st) -> quiet s' /\
     (forall h a, s'.(ib_mad_clients) !! h = Some a <-> exists ag, s'.(agents) !! a = Some ag /\ ag.(agent).(hi_tid) = h) /\
     (s'.(agents) = ∅ -> forall p port, s'.(ports) !! p = Some port -> port = mk_port_private ∅ ∅)).
Proof.
  intros Hreach Hall Hrel Hrun. pose proof (mad_reachable_inv _ Hreach) as Hi. clear Hreach.
  assert (Hmain : inv s' /\ Z.of_nat (length l) + measure s' <= measure s).
  { revert s Hi Hall Hrun. induction l as [|st l IH]; intros s Hi Hall Hrun; cbn [run] in Hrun; [injection Hrun as <-; split; [done|cbn; lia]|].
    apply Forall_cons_iff in Hrel as [Hst Hrel]. destruct Hall as [He Hall]. destruct (mad_exec_keeps s st Hi He) as (s1 & E & Hi1). unfold mbind, option_bind in Hrun. rewrite E in Hrun.
    destruct (IH Hrel s1 Hi1 (Hall _ E) Hrun) as [Hi' Hm]. pose proof (release_decreases _ _ _ Hst He E). split; [done|]. cbn [length]. lia. }
  destruct Hmain as [Hi' Hm]. pose proof (mad_measure_nonneg s'). split; [lia|]. intros Hb. pose proof (blocked_quiet _ Hi' Hb) as Hq. split; [done|]. split.
  - intros h a. rewrite (i_clients _ Hi' h a). split; intros (ag & Ha & Ht); exists ag; [naive_solver|]. split_and!; [done..|]. by destruct (proj2 Hq a ag Ha) as [->| ->].
  - intros He p port Hp. apply no_requests_no_tables. pose proof (i_ports _ Hi' _ _ Hp) as Ht. unfold regs_of in Ht. rewrite He in Ht. by rewrite omap_empty in Ht.
Qed.

(** ** Checking runs by evaluation *)

Definition req_typedb (r : ib_mad_reg_req) : bool := bool_decide (fits 8 r.(mgmt_class)) && bool_decide (fits 8 r.(mgmt_class_version)) && bool_decide (fits 24 r.(oui)).

Definition at_stage (s : mads) (a : Z) (p : ib_mad_agent_private -> bool) : bool := from_option p false (s.(agents) !! a).

Definition is_stage (l : stage) (ag : ib_mad_agent_private) : bool := bool_decide (ag.(life) = l).

(** [enabled], as a test; [guess] lets responses carry any identifier. *)
Definition enabledb (guess : bool) (s : mads) (st : step) : bool :=
  match st with
  | Register _ _ args ans a => negb (is_some (s.(agents) !! a)) && from_option req_typedb true args.(mad_reg_req) &&
      match ans.(tid_answer) with inl err => err <? 0 | inr h => negb (is_some (s.(ib_mad_clients) !! h)) && (0 <=? h) && (h <? 2 ^ 24) end
  | Install a _ => at_stage s a (is_stage Creating)
  | FailErase a => at_stage s a (is_stage Failing)
  | FailFree a => at_stage s a (is_stage Failed)
  | Unregister a => at_stage s a (is_stage Live)
  | Erase a => at_stage s a (is_stage Removing)
  | DropOwn a => at_stage s a (is_stage Erased)
  | WaitDone a => at_stage s a (fun ag => is_stage Waiting ag && ag.(comp))
  | Rcu a => at_stage s a (fun ag => match ag.(life) with Grace rs => forallb (fun x => negb (is_loaded x.2 && bool_decide (x.1 ∈ rs))) (map_to_list s.(receives)) | _ => false end)
  | Request i port _ => negb (is_some (s.(receives) !! i)) && is_some (s.(ports) !! port)
  | Load i hdr => negb (is_some (s.(receives) !! i)) &&
      (guess || from_option (fun a => from_option (fun ag => negb (private ag.(life))) true (s.(agents) !! a)) true (s.(ib_mad_clients) !! Z.shiftr hdr.(tid) 32))
  | Take i => match s.(receives) !! i with Some (Loaded _) => true | _ => false end
  | CheckHandler i => match s.(receives) !! i with Some (Found _) => true | _ => false end
  | Handle i | Complete i => match s.(receives) !! i with Some (Holding _) => true | _ => false end
  end.

Fixpoint allowedb (guess : bool) (s : mads) (l : list step) : bool :=
  match l with [] => true | st :: l => enabledb guess s st && from_option (fun s' => allowedb guess s' l) true (exec s st) end.

Lemma is_some_false {A} (o : option A) : negb (is_some o) = true -> o = None.
Proof. by destruct o. Qed.

Lemma at_stage_spec s a l : at_stage s a (is_stage l) = true -> agent_at s a l.
Proof. unfold at_stage. destruct (s.(agents) !! a) as [ag|] eqn:E; [|done]. intros H%bool_decide_eq_true. by exists ag. Qed.

Lemma mad_enabledb_sound s st : enabledb false s st = true -> enabled s st.
Proof.
  destruct st; cbn [enabledb enabled]; try apply at_stage_spec.
  - intros H. rewrite !andb_true_iff in H. destruct H as [[Ha%is_some_false Ht] Hans]. split; [done|]. split.
    + intros r Er. rewrite Er in Ht. cbn in Ht. unfold req_typedb in Ht. rewrite !andb_true_iff, !bool_decide_eq_true in Ht. unfold req_typed. tauto.
    + destruct ans.(tid_answer); [by apply Z.ltb_lt|]. rewrite !andb_true_iff in Hans. destruct Hans as [[Hc%is_some_false ?%Z.leb_le] ?%Z.ltb_lt]. done.
  - unfold at_stage. destruct (s.(agents) !! a) as [ag|]; [|done]. intros [H%bool_decide_eq_true Hc]%andb_true_iff. by exists ag.
  - unfold at_stage. destruct (s.(agents) !! a) as [ag|] eqn:Ha; [|done]. cbn. destruct ag.(life) as [| | | | | | |rs] eqn:E; try done. intros H. exists rs. split; [by exists ag|].
    intros i Hin Hr. unfold rcu_readers in Hr. apply elem_of_dom in Hr as [r Hr]. apply map_lookup_filter_Some in Hr as [Hr Hl]. cbn in Hl. rewrite forallb_forall in H.
    specialize (H (i, r)). cbn [fst snd] in H. rewrite Hl, bool_decide_true in H by done. discriminate H. by apply list_elem_of_In, elem_of_map_to_list.
  - intros [Hn%is_some_false Hp]%andb_true_iff. split; [done|]. by destruct (s.(ports) !! port) as [p|]; [exists p|].
  - cbn [orb]. intros [Hn%is_some_false Hp]%andb_true_iff. split; [done|]. intros a ag Hc Ha. rewrite Hc in Hp. cbn in Hp. rewrite Ha in Hp. by apply negb_true_iff.
  - destruct (s.(receives) !! i) as [[a|a|a]|]; try done. by exists a.
  - destruct (s.(receives) !! i) as [[a|a|a]|]; try done. by exists a.
  - destruct (s.(receives) !! i) as [[a|a|a]|]; try done. by exists a.
  - destruct (s.(receives) !! i) as [[a|a|a]|]; try done. by exists a.
Qed.

Lemma allowedb_sound l : forall s, allowedb false s l = true -> allowed s l.
Proof.
  induction l as [|st l IH]; intros s; cbn [allowedb allowed]; [done|]. intros [He Hl]%andb_true_iff. split; [by apply mad_enabledb_sound|].
  intros s' E. rewrite E in Hl. by apply IH.
Qed.

(** ** A sample port *)

Definition sample_device : port_device := mk_device true true false (fun _ => true).
Definition sample_memory : reg_memory := {| m_class := true; m_method := true; m_vendor := true; m_vclass := true |}.
Definition sample_answers (hi : Z) : reg_answers := mk_answers true true 0 (inr hi).
Definition sample_args (ty class ver o mask : Z) : reg_args := mk_args ty (Some (mk_reg class ver o mask)) 0 true true 0.

(** Subnet administration, a vendor class and directed-route SMPs, each with two methods; and
    an agent that only sends. *)
Definition sample_start : list step := [
  Register 1 sample_device (sample_args IB_QPT_GSI 0x03 2 0 6) (sample_answers 10) 100; Install 100 sample_memory;
  Register 1 sample_device (sample_args IB_QPT_GSI 0x30 1 0x1405 6) (sample_answers 11) 101; Install 101 sample_memory;
  Register 1 sample_device (sample_args IB_QPT_SMI 0x81 1 0 6) (sample_answers 12) 102; Install 102 sample_memory;
  Register 1 sample_device (mk_args IB_QPT_GSI None 0 true false 0) (sample_answers 13) 103; Install 103 sample_memory ].

Definition request_hdr (class ver m o : Z) : ib_mad_hdr := mk_hdr 1 class ver m 0 2 0 o.
Definition response_hdr (hi : Z) : ib_mad_hdr := mk_hdr 1 0x03 2 0x81 (Z.shiftl hi 32 + 7) 2 0 0.

Definition sample_state : mads := Eval vm_compute in default (open_ports {[1]}) (run (open_ports {[1]}) sample_start).

(** The vendor agent goes while a request for it and a response for it are under way. *)
Definition sample_busy : list step := [
  Request 0 1 (request_hdr 0x30 1 1 0x1405); Load 1 (response_hdr 11); Load 2 (response_hdr 13); Unregister 101; CheckHandler 0; Erase 101; Take 2; DropOwn 101; Handle 0 ].

Definition sample_busy_state : mads := Eval vm_compute in default (open_ports {[1]}) (run (open_ports {[1]}) (sample_start ++ sample_busy)).

Definition sample_end : list step := [ Take 1; Complete 0; CheckHandler 1; CheckHandler 2; Complete 1; WaitDone 101; Rcu 101 ].

Lemma sample_reachable : reachable sample_state.
Proof. exists {[1]}, sample_start. split; [apply allowedb_sound; vm_compute; reflexivity|vm_compute; reflexivity]. Qed.

Lemma sample_busy_reachable : reachable sample_busy_state.
Proof. exists {[1]}, (sample_start ++ sample_busy). split; [apply allowedb_sound; vm_compute; reflexivity|vm_compute; reflexivity]. Qed.

Lemma quiet_blocked s : quiet s -> forall st, releasing st = true -> ~ enabled s st.
Proof.
  intros [Hr Ha]. assert (Hno : forall a l, agent_at s a l -> l = Live \/ l = Creating) by (intros a l (ag & E & <-); by apply (Ha a)).
  intros [] Hst; try done; cbn [enabled]; rewrite ?Hr; try (by intros [? E]; rewrite lookup_empty in E); try (intros Hx; destruct (Hno _ _ Hx); done).
  - intros (ag & E & El & _). destruct (Ha a ag E); congruence.
  - intros (rs & Hx & _). by destruct (Hno _ _ Hx).
Qed.

Definition quietb (s : mads) : bool := bool_decide (map_to_list s.(receives) = []) && forallb (fun x => is_stage Live x.2) (map_to_list s.(agents)).

#[global] Instance receive_eq_dec : EqDecision receive.
Proof. solve_decision. Defined.

Lemma quietb_sound s : quietb s = true -> quiet s.
Proof.
  unfold quietb. rewrite andb_true_iff, bool_decide_eq_true, forallb_forall. intros [Hr Ha]. split; [by apply map_to_list_empty_iff|].
  intros a ag E. left. specialize (Ha (a, ag)). unfold is_stage in Ha. rewrite bool_decide_eq_true in Ha. apply Ha. by apply list_elem_of_In, elem_of_map_to_list.
Qed.

(** ** Instances *)

Lemma mad_agents_safe_witness : exists s, run (open_ports {[1]}) (sample_start ++ sample_busy ++ sample_end) = Some s.
Proof.
  destruct (mad_agents_safe {[1]} (sample_start ++ sample_busy ++ sample_end)) as (s & E & _); [apply allowedb_sound; vm_compute; reflexivity|]. exists s. exact E.
Defined.

Lemma mad_request_routing_witness : exists s', find_mad_agent_request sample_state 0 1 (request_hdr 0x30 1 2 0x1405) = Some s' /\ s'.(receives) !! 0 = Some (Found 101).
Proof.
  destruct (mad_request_routing sample_state 0 1 (request_hdr 0x30 1 2 0x1405) sample_reachable) as (s' & E & H & _); [eexists; vm_compute; reflexivity|vm_compute; reflexivity|].
  exists s'. split; [exact E|]. apply H. exists (mk_reg 0x30 1 0x1405 6). split; vm_compute; reflexivity.
Defined.

(** A second agent wants one of the methods of subnet administration. *)
Definition sample_rival : list step := sample_start ++ [Register 1 sample_device (sample_args IB_QPT_GSI 0x03 2 0 4) (sample_answers 14) 104].
Definition sample_rival_state : mads := Eval vm_compute in default (open_ports {[1]}) (run (open_ports {[1]}) sample_rival).

Lemma sample_rival_reachable : reachable sample_rival_state.
Proof. exists {[1]}, sample_rival. split; [apply allowedb_sound; vm_compute; reflexivity|vm_compute; reflexivity]. Qed.

Lemma register_outcomes_witness : exists s' ret, register_install sample_rival_state 104 sample_memory = Some (s', ret) /\ (ret = 0 \/ s'.(ports) = sample_rival_state.(ports)).
Proof.
  destruct (register_outcomes sample_rival_state 104 (new_agent (sample_args IB_QPT_GSI 0x03 2 0 4) sample_device 1 14) (mk_reg 0x03 2 0 4) sample_memory sample_rival_reachable)
    as (s' & ret & E & H); [vm_compute; reflexivity..|]. exists s', ret. split; [exact E|]. destruct H as [(H & _)|[(_ & _ & H & _)|(_ & _ & H & _)]]; [left; exact H|right; exact H|right; exact H].
Defined.

Lemma unregister_exact_witness : exists s', unregister_mad_agent sample_state 101 = Some s' /\ forall r, ~ registered_at s' 1 101 r.
Proof.
  destruct (unregister_exact sample_state 101 (with_life (new_agent (sample_args IB_QPT_GSI 0x30 1 0x1405 6) sample_device 1 11) Live) sample_reachable)
    as (s' & port & E & _ & H & _); [vm_compute; reflexivity..|]. exists s'. split; [exact E|]. intros r Hr. apply H in Hr as [Hne _]. apply Hne. reflexivity.
Defined.

Lemma mad_agents_typed_witness : agent_typed (with_life (new_agent (sample_args IB_QPT_SMI 0x81 1 0 6) sample_device 1 12) Live).
Proof. apply (mad_agents_typed sample_state 102); [exact sample_reachable|vm_compute; reflexivity]. Defined.

Lemma mad_qp_isolation_witness : exists s', find_mad_agent_request sample_state 0 1 (request_hdr 0x81 1 1 0) = Some s' /\ exists ag, s'.(agents) !! 102 = Some ag /\ (ag.(qpn) = 0 <-> 0 = 0).
Proof.
  eexists. split; [vm_compute; reflexivity|].
  destruct (mad_qp_isolation sample_state 0 1 (request_hdr 0x81 1 1 0) 0 false _ 102 sample_reachable eq_refl eq_refl ltac:(discriminate) eq_refl eq_refl) as (ag & E & _ & _ & H).
  exists ag. split; [exact E|exact H].
Defined.

Definition sample_request : list Z := [1; 0x30; 1; 1] ++ replicate 8 0 ++ [0; 0; 0; 7] ++ replicate 240 0.
Definition sample_sent : list Z := Eval vm_compute in
  default [] (set_hi_tid (mk_magent false 0 false 11) sample_request).

Lemma response_returns_witness : exists s1 s2, find_mad_agent_load sample_state 5 (response_hdr 11) = Some s1 /\ find_mad_agent_take s1 5 = Some s2 /\
  s2.(receives) !! 5 = Some (Found 101).
Proof.
  destruct (response_returns sample_state 5 101 (with_life (new_agent (sample_args IB_QPT_GSI 0x30 1 0x1405 6) sample_device 1 11) Live) sample_request sample_sent
    (Z.shiftl 11 32 + 7) (response_hdr 11) sample_reachable) as [(s1 & s2 & H1 & H2 & H3 & _) _]; [vm_compute; reflexivity..|].
  exists s1, s2. split; [exact H1|]. split; [exact H2|exact H3].
Defined.

Definition sample_end_state : mads := Eval vm_compute in default (open_ports {[1]}) (run sample_busy_state sample_end).

Lemma mad_agents_drain_witness : Z.of_nat (length sample_end) <= measure sample_busy_state /\ quiet sample_end_state.
Proof.
  destruct (mad_agents_drain sample_busy_state sample_end sample_end_state sample_busy_reachable) as [H1 H2];
    [apply allowedb_sound; vm_compute; reflexivity|repeat (constructor; [reflexivity|]); constructor|vm_compute; reflexivity|].
  split; [exact H1|]. apply H2. apply quiet_blocked, quietb_sound. vm_compute. reflexivity.
Defined.

(** ** Where the code fails *)

(** A registration that fails under the lock, while a response carries its identifier. *)
Definition guessed : list step := [
  Register 1 sample_device (sample_args IB_QPT_GSI 0x03 2 0 4) (sample_answers 14) 104; Load 5 (response_hdr 14); Take 5; Install 104 sample_memory; FailErase 104; FailFree 104; CheckHandler 5 ].

(** Two runs in which routing goes wrong. An agent is in the array before its registration is
    decided: a response that carries its identifier takes a reference, the registration fails and
    frees the agent without waiting for references or readers, and the receive path uses freed memory.
    And class 0, which nobody can register, is the slot of directed-route SMPs: a MAD of class 0
    that comes on queue pair 1 passes [validate_mad] and goes to the agent of queue pair 0. *)
Theorem mad_agent_flaws :
  (allowedb true sample_state guessed = true /\ run sample_state guessed = None /\ is_some (run sample_state (removelast guessed)) = true) /\
  (exists s' ag, validate_mad (request_hdr 0 1 1 0) 1 false = true /\ find_mad_agent_request sample_state 0 1 (request_hdr 0 1 1 0) = Some s' /\
     s'.(receives) !! 0 = Some (Found 102) /\ s'.(agents) !! 102 = Some ag /\ ag.(qpn) = 0).
Proof.
  split; [split_and!; vm_compute; reflexivity|]. eexists _, _. split; [reflexivity|]. split; [vm_compute; reflexivity|]. split; [vm_compute; reflexivity|].
  split; [vm_compute; reflexivity|reflexivity].
Qed.
