(* ===== verification/IwCm.v ===== *)
(** The iWARP connection manager (drivers/infiniband/core/iwcm.c): connection identifiers
    with their state, events from the provider, the work that processes them, and the calls of
    a client.

    An identifier is one record. Besides the fields of [struct iwcm_id_private] it has
    the places where threads stand with it: the call of a client that is between
    two critical sections, the work, and the provider's endpoint; and the history
    of what was done to the outside. A step is a critical section or what a
    provider or client answers. [None] is a BUG, or the use of a freed identifier. The
    identifiers of a map are never used twice; a freed one stays in it.

    Addresses and the port mapper are left out: [iw_cm_map] counts as part of the
    provider's call that follows it. *)

From S2P Require Import Prelude.
#[local] Open Scope Z_scope.

(** ** Data *)

Inductive iw_cm_state :=
  | IW_CM_STATE_IDLE | IW_CM_STATE_LISTEN | IW_CM_STATE_CONN_RECV | IW_CM_STATE_CONN_SENT
  | IW_CM_STATE_ESTABLISHED | IW_CM_STATE_CLOSING | IW_CM_STATE_DESTROYING.

(** The type of an event, its status, and whether it has private data. *)
Inductive iw_cm_event :=
  | IW_CM_EVENT_CONNECT_REQUEST (data : bool)
  | IW_CM_EVENT_CONNECT_REPLY (status : Z) (data : bool)
  | IW_CM_EVENT_ESTABLISHED
  | IW_CM_EVENT_DISCONNECT
  | IW_CM_EVENT_CLOSE.

(** What is done to the outside: references to queue pairs, copies of private data,
    callbacks begun, and the return of [iw_destroy_cm_id]. *)
Inductive effect :=
  | AddRef (q : Z) | RemRef (q : Z) | CopyData | FreeData | Callback (ev : iw_cm_event) | Destroyed.

(** Where a call stands: in the provider; before references and the flag are
    given back; in the stages of [destroy_cm_id]. *)
Inductive call :=
  | NoCall
  | ListenCall
  | ConnectCall | ConnectUndo (q : option Z)
  | AcceptCall | AcceptFail | AcceptUndo (q : option Z)
  | RejectStart | RejectCall
  | DestroyWait | DestroyMark | DestroyLock | DestroyCall (q : option Z) | DestroyPut (q : option Z).

(** Where [cm_work_handler] stands with the identifier, [last] being its variable
    [empty]; and where [cm_conn_req_handler] stands with the identifier it created. *)
Inductive work :=
  | Idle
  | Loop
  | Got (ev : iw_cm_event) (last : bool)
  | Process (ev : iw_cm_event) (last : bool)
  | Unlocked (ev : iw_cm_event) (last : bool) (q : option Z) (notify : bool)
  | InCallback (ev : iw_cm_event) (last : bool)
  | InDestroy (last : bool)
  | InChild (child : Z) (data last : bool)
  | Deref (last : bool)
  | ChildCheck (parent : Z) (data : bool)
  | ChildCallback
  | ChildReject
  | ChildDestroy.

(** The provider's endpoint; all but the first and the last hold a reference. *)
Inductive endpoint := EpNone | EpListening | EpConnecting | EpAccepting | EpConnected | EpDisconnected | EpLeaving | EpGone.

#[global] Instance state_eq_dec : EqDecision iw_cm_state.
Proof. solve_decision. Defined.
#[global] Instance event_eq_dec : EqDecision iw_cm_event.
Proof. solve_decision. Defined.
#[global] Instance effect_eq_dec : EqDecision effect.
Proof. solve_decision. Defined.
#[global] Instance call_eq_dec : EqDecision call.
Proof. solve_decision. Defined.
#[global] Instance work_eq_dec : EqDecision work.
Proof. solve_decision. Defined.
#[global] Instance endpoint_eq_dec : EqDecision endpoint.
Proof. solve_decision. Defined.

(** [wait] and [drop] are the flags IWCM_F_CONNECT_WAIT and IWCM_F_DROP_EVENTS;
    [free] is the length of [work_free_list]; [queued] tells that the work is on the
    work queue, [held] that the reference of [iw_create_cm_id] is still there. *)
Record iwcm_id_private := mk_id {
  state : iw_cm_state; wait : bool; drop : bool; qp : option Z; work_list : list iw_cm_event; free : Z; refcount : Z;
  queued : bool; held : bool; at_call : call; at_work : work; ep : endpoint; history : list effect
}.

Definition set_state (c : iwcm_id_private) x := mk_id x c.(wait) c.(drop) c.(qp) c.(work_list) c.(free) c.(refcount) c.(queued) c.(held) c.(at_call) c.(at_work) c.(ep) c.(history).
Definition set_wait (c : iwcm_id_private) x := mk_id c.(state) x c.(drop) c.(qp) c.(work_list) c.(free) c.(refcount) c.(queued) c.(held) c.(at_call) c.(at_work) c.(ep) c.(history).
Definition set_drop (c : iwcm_id_private) x := mk_id c.(state) c.(wait) x c.(qp) c.(work_list) c.(free) c.(refcount) c.(queued) c.(held) c.(at_call) c.(at_work) c.(ep) c.(history).
Definition set_qp (c : iwcm_id_private) x := mk_id c.(state) c.(wait) c.(drop) x c.(work_list) c.(free) c.(refcount) c.(queued) c.(held) c.(at_call) c.(at_work) c.(ep) c.(history).
Definition set_work_list (c : iwcm_id_private) x := mk_id c.(state) c.(wait) c.(drop) c.(qp) x c.(free) c.(refcount) c.(queued) c.(held) c.(at_call) c.(at_work) c.(ep) c.(history).
Definition set_free (c : iwcm_id_private) x := mk_id c.(state) c.(wait) c.(drop) c.(qp) c.(work_list) x c.(refcount) c.(queued) c.(held) c.(at_call) c.(at_work) c.(ep) c.(history).
Definition set_refcount (c : iwcm_id_private) x := mk_id c.(state) c.(wait) c.(drop) c.(qp) c.(work_list) c.(free) x c.(queued) c.(held) c.(at_call) c.(at_work) c.(ep) c.(history).
Definition set_queued (c : iwcm_id_private) x := mk_id c.(state) c.(wait) c.(drop) c.(qp) c.(work_list) c.(free) c.(refcount) x c.(held) c.(at_call) c.(at_work) c.(ep) c.(history).
Definition set_held (c : iwcm_id_private) x := mk_id c.(state) c.(wait) c.(drop) c.(qp) c.(work_list) c.(free) c.(refcount) c.(queued) x c.(at_call) c.(at_work) c.(ep) c.(history).
Definition set_call (c : iwcm_id_private) x := mk_id c.(state) c.(wait) c.(drop) c.(qp) c.(work_list) c.(free) c.(refcount) c.(queued) c.(held) x c.(at_work) c.(ep) c.(history).
Definition set_work (c : iwcm_id_private) x := mk_id c.(state) c.(wait) c.(drop) c.(qp) c.(work_list) c.(free) c.(refcount) c.(queued) c.(held) c.(at_call) x c.(ep) c.(history).
Definition set_ep (c : iwcm_id_private) x := mk_id c.(state) c.(wait) c.(drop) c.(qp) c.(work_list) c.(free) c.(refcount) c.(queued) c.(held) c.(at_call) c.(at_work) x c.(history).
Definition emit (c : iwcm_id_private) (l : list effect) :=
  mk_id c.(state) c.(wait) c.(drop) c.(qp) c.(work_list) c.(free) c.(refcount) c.(queued) c.(held) c.(at_call) c.(at_work) c.(ep) (c.(history) ++ l).

(** A freed identifier is kept as it was: a thread that still stands with it would use it after the free. *)
Inductive cm_id := Alive (c : iwcm_id_private) | Freed (c : iwcm_id_private).

(** ** Work entries and references *)

Definition iw_create_cm_id : iwcm_id_private := mk_id IW_CM_STATE_IDLE false false None [] 0 1 false true NoCall Idle EpNone [].

(** [None] is the BUG on a free list that is not empty. *)
Definition alloc_work_entries (c : iwcm_id_private) (count : Z) (memory : bool) : option (iwcm_id_private * Z) :=
  if c_true c.(free) then None else if (memory : bool) then Some (set_free c count, 0) else Some (c, - ENOMEM).

Definition iwcm_deref_id (c : iwcm_id_private) : option cm_id :=
  let c := set_refcount c (c.(refcount) - 1) in
  if c.(refcount) =? 0 then match c.(work_list) with [] => Some (Freed c) | _ => None end else Some (Alive c).

Definition put_qp (c : iwcm_id_private) (q : option Z) : iwcm_id_private := match q with Some q => emit c [RemRef q] | None => c end.

(** Clearing the flag and waking who waits ends the call. *)
Definition end_call (c : iwcm_id_private) : iwcm_id_private := set_call (set_wait c false) NoCall.

(** ** Calls of a client *)

(** What the sysctl starts with. *)
Definition default_backlog : Z := 256.

Definition iw_cm_listen (c : iwcm_id_private) (backlog : Z) (memory : bool) : option (iwcm_id_private * Z) :=
  let backlog := if backlog =? 0 then default_backlog else backlog in
  '(c, ret) ← alloc_work_entries c backlog memory;
  if c_true ret then Some (c, ret) else
  match c.(state) with
  | IW_CM_STATE_IDLE => Some (set_call (set_state c IW_CM_STATE_LISTEN) ListenCall, 0)
  | _ => Some (c, - EINVAL)
  end.

Definition listen_return (c : iwcm_id_private) (ret : Z) : iwcm_id_private :=
  set_call (if c_true ret then set_state c IW_CM_STATE_IDLE else c) NoCall.

(** [q] is what [iw_get_qp] answers. *)
Definition iw_cm_connect (c : iwcm_id_private) (q : option Z) (memory : bool) : option (iwcm_id_private * Z) :=
  '(c, ret) ← alloc_work_entries c 4 memory;
  if c_true ret then Some (c, ret) else
  let c := set_wait c true in
  match c.(state), q with
  | IW_CM_STATE_IDLE, Some q => Some (set_call (set_state (set_qp (emit c [AddRef q]) (Some q)) IW_CM_STATE_CONN_SENT) ConnectCall, 0)
  | _, _ => Some (end_call c, - EINVAL)
  end.

Definition connect_return (c : iwcm_id_private) (ret : Z) : iwcm_id_private :=
  if c_true ret then set_call (set_state (set_qp c None) IW_CM_STATE_IDLE) (ConnectUndo c.(qp)) else set_call c NoCall.

Definition iw_cm_accept (c : iwcm_id_private) (q : option Z) : iwcm_id_private * Z :=
  let c := set_wait c true in
  match c.(state), q with
  | IW_CM_STATE_CONN_RECV, Some q => (set_call (set_qp (emit c [AddRef q]) (Some q)) AcceptCall, 0)
  | _, _ => (end_call c, - EINVAL)
  end.

Definition accept_return (c : iwcm_id_private) (ret : Z) : option iwcm_id_private :=
  if c_true ret then
    match c.(state) with IW_CM_STATE_CONN_RECV => Some (set_call (set_state c IW_CM_STATE_IDLE) AcceptFail) | _ => None end
  else Some (set_call c NoCall).

Definition accept_fail (c : iwcm_id_private) : iwcm_id_private := set_call (set_qp c None) (AcceptUndo c.(qp)).

Definition iw_cm_reject (c : iwcm_id_private) : iwcm_id_private * Z :=
  let c := set_wait c true in
  match c.(state) with
  | IW_CM_STATE_CONN_RECV => (set_call (set_state c IW_CM_STATE_IDLE) RejectCall, 0)
  | _ => (end_call c, - EINVAL)
  end.

(** After the wait: the answer and the queue pair to modify. *)
Definition iw_cm_disconnect (c : iwcm_id_private) : option (iwcm_id_private * Z * option Z) :=
  match c.(state) with
  | IW_CM_STATE_ESTABLISHED => Some (set_state c IW_CM_STATE_CLOSING, if c.(qp) then 0 else - EINVAL, c.(qp))
  | IW_CM_STATE_LISTEN => Some (c, - EINVAL, None)
  | IW_CM_STATE_CLOSING | IW_CM_STATE_IDLE | IW_CM_STATE_CONN_RECV => Some (c, 0, None)
  | IW_CM_STATE_CONN_SENT | IW_CM_STATE_DESTROYING => None
  end.

(** The critical section of [destroy_cm_id]. *)
Definition destroy_locked (c : iwcm_id_private) : option iwcm_id_private :=
  let q := c.(qp) in
  let c := set_qp c None in
  match c.(state) with
  | IW_CM_STATE_LISTEN | IW_CM_STATE_ESTABLISHED | IW_CM_STATE_CONN_RECV => Some (set_call (set_state c IW_CM_STATE_DESTROYING) (DestroyCall q))
  | IW_CM_STATE_IDLE | IW_CM_STATE_CLOSING => Some (set_call (set_state c IW_CM_STATE_DESTROYING) (DestroyPut q))
  | IW_CM_STATE_CONN_SENT | IW_CM_STATE_DESTROYING => None
  end.

(** The end of [destroy_cm_id], in a client or in the work. *)
Definition destroy_end (c : iwcm_id_private) (q : option Z) : option cm_id :=
  let c := set_held (set_call (put_qp c q) NoCall) false in
  match c.(at_work) with
  | InDestroy last => iwcm_deref_id (set_work c (Deref last))
  | ChildDestroy => iwcm_deref_id (set_work c Idle)
  | _ => iwcm_deref_id (emit c [Destroyed])
  end.

(** ** Events and the work *)

Definition has_data (ev : iw_cm_event) : bool :=
  match ev with IW_CM_EVENT_CONNECT_REQUEST d | IW_CM_EVENT_CONNECT_REPLY _ d => d | _ => false end.

Definition cm_event_handler (c : iwcm_id_private) (ev : iw_cm_event) (memory : bool) : iwcm_id_private * Z :=
  if c.(free) =? 0 then (c, - ENOMEM) else
  if has_data ev && negb memory then (c, - ENOMEM) else
  let c := if has_data ev then emit c [CopyData] else c in
  let c := set_free (set_refcount c (c.(refcount) + 1)) (c.(free) - 1) in
  let c := match c.(work_list) with [] => set_queued c true | _ => c end in
  (set_work_list c (c.(work_list) ++ [ev]), 0).

(** Taking the first event off the list. *)
Definition work_next (c : iwcm_id_private) : iwcm_id_private :=
  match c.(work_list) with
  | [] => set_work c Idle
  | ev :: l => set_work (set_free (set_work_list c l) (c.(free) + 1)) (Got ev (match l with [] => true | _ => false end))
  end.

Definition test_drop (c : iwcm_id_private) (ev : iw_cm_event) (last : bool) : iwcm_id_private :=
  set_work c (if c.(drop) then Deref last else Process ev last).

Definition cm_conn_rep_handler (c : iwcm_id_private) (status : Z) (data last : bool) : option iwcm_id_private :=
  let ev := IW_CM_EVENT_CONNECT_REPLY status data in
  let c := set_wait c false in
  match c.(state) with
  | IW_CM_STATE_CONN_SENT =>
      if status =? 0 then Some (set_work (set_state c IW_CM_STATE_ESTABLISHED) (Unlocked ev last None true))
      else Some (set_work (set_state (set_qp c None) IW_CM_STATE_IDLE) (Unlocked ev last c.(qp) true))
  | _ => None
  end.

Definition cm_conn_est_handler (c : iwcm_id_private) (last : bool) : option iwcm_id_private :=
  let c := set_wait c false in
  match c.(state) with
  | IW_CM_STATE_CONN_RECV => Some (set_work (set_state c IW_CM_STATE_ESTABLISHED) (Unlocked IW_CM_EVENT_ESTABLISHED last None true))
  | _ => None
  end.

Definition cm_disconnect_handler (c : iwcm_id_private) (last : bool) : iwcm_id_private :=
  set_work (match c.(state) with IW_CM_STATE_ESTABLISHED => set_state c IW_CM_STATE_CLOSING | _ => c end) (Deref last).

Definition cm_close_handler (c : iwcm_id_private) (last : bool) : option iwcm_id_private :=
  let q := c.(qp) in
  let c := set_qp c None in
  match c.(state) with
  | IW_CM_STATE_ESTABLISHED | IW_CM_STATE_CLOSING => Some (set_work (set_state c IW_CM_STATE_IDLE) (Unlocked IW_CM_EVENT_CLOSE last q true))
  | IW_CM_STATE_DESTROYING => Some (set_work c (Unlocked IW_CM_EVENT_CLOSE last q false))
  | _ => None
  end.

(** The handlers but that of connection requests. *)
Definition process_event (c : iwcm_id_private) (ev : iw_cm_event) (last : bool) : option iwcm_id_private :=
  match ev with
  | IW_CM_EVENT_CONNECT_REQUEST _ => Some c
  | IW_CM_EVENT_CONNECT_REPLY status data => cm_conn_rep_handler c status data last
  | IW_CM_EVENT_ESTABLISHED => cm_conn_est_handler c last
  | IW_CM_EVENT_DISCONNECT => Some (cm_disconnect_handler c last)
  | IW_CM_EVENT_CLOSE => cm_close_handler c last
  end.

(** After the critical section: the queue pair is put and the client called. *)
Definition call_client (c : iwcm_id_private) (ev : iw_cm_event) (last : bool) (q : option Z) (notify : bool) : iwcm_id_private :=
  let c := put_qp c q in
  if (notify : bool) then set_work (emit c [Callback ev]) (InCallback ev last) else set_work c (Deref last).

Definition free_data (c : iwcm_id_private) (data : bool) : iwcm_id_private := if (data : bool) then emit c [FreeData] else c.

(** The client returns; anything but 0 destroys the identifier. *)
Definition client_return (c : iwcm_id_private) (ev : iw_cm_event) (last : bool) (ret : Z) : iwcm_id_private :=
  let c := free_data c (has_data ev) in
  if c_true ret then set_call (set_work c (InDestroy last)) DestroyWait else set_work c (Deref last).

Definition work_deref (c : iwcm_id_private) (last : bool) : option cm_id :=
  iwcm_deref_id (set_work c (if last then Idle else Loop)).

(** ** Connection requests *)

(** A new identifier for a connection request, before the listener is looked at. *)
Definition child_create (parent : Z) (data : bool) : iwcm_id_private :=
  set_work (set_state iw_create_cm_id IW_CM_STATE_CONN_RECV) (ChildCheck parent data).

Definition child_check (c : iwcm_id_private) (listener : iw_cm_state) (data memory : bool) : option iwcm_id_private :=
  match listener with
  | IW_CM_STATE_LISTEN =>
      '(c, ret) ← alloc_work_entries c 3 memory;
      if c_true ret then Some (set_call (set_work c ChildReject) RejectStart)
      else Some (set_work (emit c [Callback (IW_CM_EVENT_CONNECT_REQUEST data)]) ChildCallback)
  | _ => Some (set_call (set_work c ChildReject) RejectStart)
  end.

Definition child_return (c : iwcm_id_private) (ret : Z) : iwcm_id_private :=
  if c_true ret then set_call (set_work c ChildReject) RejectStart else set_work c Idle.

(** [iw_cm_reject] is over: the work goes on to destroy the identifier. *)
Definition reject_end (c : iwcm_id_private) : iwcm_id_private :=
  match c.(at_work) with ChildReject => set_call (set_work c ChildDestroy) DestroyWait | _ => c end.

(** ** The provider *)

(** What an event makes of the endpoint. *)
Definition after_event (e : endpoint) (ev : iw_cm_event) : endpoint :=
  match ev with
  | IW_CM_EVENT_CONNECT_REQUEST _ => e
  | IW_CM_EVENT_CONNECT_REPLY status _ => if status =? 0 then EpConnected else EpLeaving
  | IW_CM_EVENT_ESTABLISHED => EpConnected
  | IW_CM_EVENT_DISCONNECT => EpDisconnected
  | IW_CM_EVENT_CLOSE => EpLeaving
  end.

(** The endpoint a provider makes in a call, with a reference to the identifier. *)
Definition made_endpoint (k : call) : endpoint :=
  match k with ListenCall => EpListening | ConnectCall => EpConnecting | AcceptCall => EpAccepting | _ => EpNone end.

Definition add_ref (c : iwcm_id_private) (e : endpoint) : iwcm_id_private := set_ep (set_refcount c (c.(refcount) + 1)) e.

Definition rem_ref (c : iwcm_id_private) : option cm_id :=
  iwcm_deref_id (set_ep c (match c.(ep) with EpConnecting | EpAccepting => EpNone | _ => EpGone end)).

(** ** Steps *)

Inductive step :=
  | Create | Listen (backlog : Z) (memory : bool) | ListenReturn (ret : Z)
  | Connect (q : option Z) (memory : bool) | ConnectReturn (ret : Z) | ConnectEnd
  | Accept (q : option Z) | AcceptReturn (ret : Z) | AcceptLock | AcceptEnd
  | Reject | RejectReturn | Disconnect
  | Destroy | DestroyWaited | DestroyDrop | DestroyLocked | DestroyReturn | DestroyEnd
  | Take | Untake | Event (ev : iw_cm_event) (memory : bool)
  | WorkStart | WorkNext | WorkTest | WorkProcess | WorkCall | WorkReturn (ret : Z) | WorkDeref
  | NewChild (child : Z) (memory : bool) | CheckChild (memory : bool) | ChildReturn (ret : Z) | RejectChild | ChildDone.

(** A step of one identifier; [other] is the state of the listener it came from. *)
Definition id_exec (c : iwcm_id_private) (other : iw_cm_state) (s : step) : option cm_id :=
  match s with
  | Listen backlog memory => r ← iw_cm_listen c backlog memory; Some (Alive r.1)
  | ListenReturn ret => Some (Alive (listen_return c ret))
  | Connect q memory => r ← iw_cm_connect c q memory; Some (Alive r.1)
  | ConnectReturn ret => Some (Alive (connect_return c ret))
  | ConnectEnd => match c.(at_call) with ConnectUndo q => Some (Alive (end_call (put_qp c q))) | _ => Some (Alive c) end
  | Accept q => Some (Alive (iw_cm_accept c q).1)
  | AcceptReturn ret => Alive <$> accept_return c ret
  | AcceptLock => Some (Alive (accept_fail c))
  | AcceptEnd => match c.(at_call) with AcceptUndo q => Some (Alive (end_call (put_qp c q))) | _ => Some (Alive c) end
  | Reject => Some (Alive (iw_cm_reject c).1)
  | RejectReturn => Some (Alive (reject_end (end_call c)))
  | Disconnect => r ← iw_cm_disconnect c; Some (Alive r.1.1)
  | Destroy => Some (Alive (set_call c DestroyWait))
  | DestroyWaited => Some (Alive (set_call c DestroyMark))
  | DestroyDrop => Some (Alive (set_call (set_drop c true) DestroyLock))
  | DestroyLocked => Alive <$> destroy_locked c
  | DestroyReturn => match c.(at_call) with DestroyCall q => Some (Alive (set_call c (DestroyPut q))) | _ => Some (Alive c) end
  | DestroyEnd => match c.(at_call) with DestroyPut q => destroy_end c q | _ => Some (Alive c) end
  | Take => Some (Alive (add_ref c (made_endpoint c.(at_call))))
  | Untake => rem_ref c
  | Event ev memory => let r := cm_event_handler c ev memory in Some (Alive (if c_true r.2 then r.1 else set_ep r.1 (after_event c.(ep) ev)))
  | WorkStart => Some (Alive (set_work (set_queued c false) Loop))
  | WorkNext => Some (Alive (work_next c))
  | WorkTest => match c.(at_work) with Got ev last => Some (Alive (test_drop c ev last)) | _ => Some (Alive c) end
  | WorkProcess => match c.(at_work) with Process ev last => Alive <$> process_event c ev last | _ => Some (Alive c) end
  | WorkCall => match c.(at_work) with Unlocked ev last q notify => Some (Alive (call_client c ev last q notify)) | _ => Some (Alive c) end
  | WorkReturn ret => match c.(at_work) with InCallback ev last => Some (Alive (client_return c ev last ret)) | _ => Some (Alive c) end
  | WorkDeref => match c.(at_work) with Deref last => work_deref c last | _ => Some (Alive c) end
  | NewChild child memory =>
      match c.(at_work) with
      | Process ev last => Some (Alive (if (memory : bool) then set_work c (InChild child (has_data ev) last) else set_work (free_data c (has_data ev)) (Deref last)))
      | _ => Some (Alive c)
      end
  | CheckChild memory => match c.(at_work) with ChildCheck _ data => Alive <$> child_check c other data memory | _ => Some (Alive c) end
  | ChildReturn ret => Some (Alive (child_return c ret))
  | RejectChild => let r := iw_cm_reject c in Some (Alive (if c_true r.2 then reject_end r.1 else r.1))
  | ChildDone => match c.(at_work) with InChild _ data last => Some (Alive (set_work (free_data c data) (Deref last))) | _ => Some (Alive c) end
  | Create => None
  end.

Abbreviation cm_ids := (gmap Z cm_id).

(** The state of the listener that a new identifier comes from; a freed one is an error. *)
Definition other_state (ids : cm_ids) (c : iwcm_id_private) : option iw_cm_state :=
  match c.(at_work) with
  | ChildCheck p _ => match ids !! p with Some (Alive l) => Some l.(state) | _ => None end
  | _ => Some IW_CM_STATE_IDLE
  end.

(** The identifier that [iw_create_cm_id] made for a connection request, if it had memory. *)
Definition spawned (c : iwcm_id_private) (s : step) : option (Z * bool) :=
  match s, c.(at_work) with NewChild child true, Process ev _ => Some (child, has_data ev) | _, _ => None end.

Definition exec_id (ids : cm_ids) (i : Z) (s : step) : option cm_ids :=
  match ids !! i with
  | Some (Alive c) =>
      other ← other_state ids c;
      x ← id_exec c other s;
      Some (match spawned c s with
            | Some (child, data) => <[child := Alive (child_create i data)]> (<[i := x]> ids)
            | None => <[i := x]> ids
            end)
  | _ => None
  end.

Definition exec (ids : cm_ids) (i : Z) (s : step) : option cm_ids :=
  match s with Create => Some (<[i := Alive iw_create_cm_id]> ids) | _ => exec_id ids i s end.

Fixpoint run (ids : cm_ids) (l : list (Z * step)) : option cm_ids :=
  match l with [] => Some ids | (i, s) :: l => ids ← exec ids i s; run ids l end.
