(* ===== verification/IwCmSafe.v ===== *)
(** The iWARP connection manager of IwCm.v, proved: the contract of clients and
    providers, the invariant, and that every step of the contract returns and keeps it. *)

From S2P Require Import Prelude IwCm.
#[local] Open Scope Z_scope.

(** ** The contract *)

(** A new identifier, on which nothing was tried. *)
Definition untried (c : iwcm_id_private) : Prop := c.(at_call) = NoCall /\ c.(state) = IW_CM_STATE_IDLE /\ c.(free) = 0 /\ c.(history) = [] /\ c.(held) = true /\ c.(at_work) = Idle /\ c.(ep) = EpNone.

Definition is_check (w : work) : bool := match w with ChildCheck _ _ => true | _ => false end.

Definition destroy_call (k : call) : bool := match k with DestroyWait | DestroyMark | DestroyLock | DestroyCall _ | DestroyPut _ => true | _ => false end.

(** Which events a provider posts at an endpoint. *)
Definition posts (e : endpoint) (ev : iw_cm_event) : bool :=
  match ev with
  | IW_CM_EVENT_CONNECT_REQUEST _ => bool_decide (e = EpListening)
  | IW_CM_EVENT_CONNECT_REPLY _ _ => bool_decide (e = EpConnecting)
  | IW_CM_EVENT_ESTABLISHED => bool_decide (e = EpAccepting)
  | IW_CM_EVENT_DISCONNECT => bool_decide (e = EpConnected)
  | IW_CM_EVENT_CLOSE => bool_decide (e = EpConnected) || bool_decide (e = EpDisconnected)
  end.

Definition is_request (ev : iw_cm_event) : bool := match ev with IW_CM_EVENT_CONNECT_REQUEST _ => true | _ => false end.

(** A call fails exactly if the provider has no endpoint for it. *)
Definition answers (c : iwcm_id_private) (ret : Z) : Prop := c_true ret = match c.(ep) with EpNone => true | _ => false end.

Definition drops_ref (k : call) (e : endpoint) : bool :=
  match k, e with ConnectCall, EpConnecting | AcceptCall, EpAccepting | DestroyCall _, EpListening => true | _, EpLeaving => true | _, _ => false end.

(** What clients and providers promise of one identifier: it is used for one connection; calls do not
    overlap with each other; it is destroyed once, and not by a client whose callback
    returned an error; a provider reports each connection once. *)
Definition id_enabled (c : iwcm_id_private) (s : step) : Prop :=
  match s with
  | Create => False
  | Listen backlog _ => untried c /\ 0 <= backlog
  | Connect _ _ => untried c
  | ListenReturn ret => c.(at_call) = ListenCall /\ answers c ret
  | ConnectReturn ret => c.(at_call) = ConnectCall /\ answers c ret
  | AcceptReturn ret => c.(at_call) = AcceptCall /\ answers c ret
  | ConnectEnd => exists q, c.(at_call) = ConnectUndo q
  | AcceptLock => c.(at_call) = AcceptFail
  | AcceptEnd => exists q, c.(at_call) = AcceptUndo q
  | Accept _ | Reject => c.(at_call) = NoCall /\ c.(held) = true /\ c.(wait) = false /\ is_check c.(at_work) = false
  | RejectReturn => c.(at_call) = RejectCall
  | Disconnect => c.(wait) = false /\ c.(held) = true /\ destroy_call c.(at_call) = false
  | Destroy => c.(at_call) = NoCall /\ c.(held) = true /\ is_check c.(at_work) = false /\ c.(at_work) <> ChildCallback
  | DestroyWaited => c.(at_call) = DestroyWait /\ c.(wait) = false
  | DestroyDrop => c.(at_call) = DestroyMark
  | DestroyLocked => c.(at_call) = DestroyLock
  | DestroyReturn => exists q, c.(at_call) = DestroyCall q /\ c.(ep) <> EpListening
  | DestroyEnd => exists q, c.(at_call) = DestroyPut q
  | Take => c.(ep) = EpNone /\ made_endpoint c.(at_call) <> EpNone
  | Untake => drops_ref c.(at_call) c.(ep) = true
  | Event ev _ => posts c.(ep) ev = true
  | WorkStart => c.(queued) = true /\ c.(at_work) = Idle
  | WorkNext => c.(at_work) = Loop
  | WorkTest => exists ev last, c.(at_work) = Got ev last
  | WorkProcess => exists ev last, c.(at_work) = Process ev last /\ is_request ev = false
  | WorkCall => exists ev last q n, c.(at_work) = Unlocked ev last q n
  | WorkReturn ret => exists ev last, c.(at_work) = InCallback ev last /\ (ret <> 0 -> c.(held) = true /\ c.(at_call) = NoCall)
  | WorkDeref => exists last, c.(at_work) = Deref last
  | NewChild _ _ => exists ev last, c.(at_work) = Process ev last /\ is_request ev = true
  | CheckChild _ => is_check c.(at_work) = true
  | ChildReturn ret => c.(at_work) = ChildCallback /\ (ret <> 0 -> c.(held) = true /\ c.(at_call) = NoCall /\ c.(wait) = false)
  | RejectChild => c.(at_call) = RejectStart
  | ChildDone => exists child data last, c.(at_work) = InChild child data last
  end.

(** ** The invariant of an identifier *)

Definition ep_ref (e : endpoint) : Z := match e with EpNone | EpGone => 0 | _ => 1 end.

Definition work_ref (w : work) : Z :=
  match w with Got _ _ | Process _ _ | Unlocked _ _ _ _ | InCallback _ _ | InDestroy _ | InChild _ _ _ | Deref _ => 1 | _ => 0 end.

(** The work will look at the list again. *)
Definition again (w : work) : bool :=
  match w with
  | Loop => true
  | Got _ last | Process _ last | Unlocked _ last _ _ | InCallback _ last | InDestroy last | InChild _ _ last | Deref last => negb last
  | _ => false
  end.

(** Events that are not processed yet. *)
Definition events_of (w : work) (l : list iw_cm_event) : list iw_cm_event := match w with Got ev _ | Process ev _ => ev :: l | _ => l end.
Definition pending (c : iwcm_id_private) : list iw_cm_event := events_of c.(at_work) c.(work_list).

Definition left_ep (e : endpoint) : bool := match e with EpLeaving | EpGone => true | _ => false end.

Definition coming_up (e : endpoint) : bool := match e with EpConnecting | EpAccepting => true | _ => false end.

Definition listening (e : endpoint) : bool := match e with EpListening => true | _ => false end.

(** Events of a connection that is up, and where they leave the endpoint. *)
Definition up (p : list iw_cm_event) (e : endpoint) : bool :=
  match p with
  | [] => match e with EpConnected | EpDisconnected => true | _ => false end
  | [IW_CM_EVENT_DISCONNECT] => bool_decide (e = EpDisconnected)
  | [IW_CM_EVENT_CLOSE] | [IW_CM_EVENT_DISCONNECT; IW_CM_EVENT_CLOSE] => left_ep e
  | _ => false
  end.

(** The same after a reply with status [s]. *)
Definition replied (s : Z) (p : list iw_cm_event) (e : endpoint) : bool := if s =? 0 then up p e else match p with [] => left_ep e | _ => false end.

Definition waiting_call (k : call) : bool := match k with ConnectUndo _ | AcceptFail | AcceptUndo _ | RejectCall => true | _ => false end.

(** Calls that may overlap with a connection that comes up. *)
Definition active_call (k own : call) : bool :=
  match k, own with NoCall, _ | DestroyWait, _ | ConnectCall, ConnectCall | AcceptCall, AcceptCall => true | _, _ => false end.

Definition no_child_yet (w : work) : bool := match w with ChildCheck _ _ | ChildReject => true | _ => false end.

Definition early_destroy (k : call) : bool := match k with NoCall | DestroyWait | DestroyMark => true | _ => false end.

(** The state against the events to come, the endpoint and the call, while no event is dropped. *)
Definition state_ok (c : iwcm_id_private) : Prop :=
  match c.(state) with
  | IW_CM_STATE_IDLE =>
      pending c = [] /\ c.(wait) = waiting_call c.(at_call) /\ (c.(qp) = None \/ c.(at_call) = AcceptFail) /\
      match c.(at_call) with
      | ListenCall => False
      | ConnectCall | AcceptCall => left_ep c.(ep) = true
      | _ => c.(ep) = EpNone \/ left_ep c.(ep) = true
      end
  | IW_CM_STATE_LISTEN =>
      c.(wait) = false /\ c.(qp) = None /\ forallb is_request (pending c) = true /\
      ((c.(ep) = EpNone /\ c.(at_call) = ListenCall /\ pending c = []) \/ (c.(ep) = EpListening /\ (c.(at_call) = ListenCall \/ early_destroy c.(at_call) = true)))
  | IW_CM_STATE_CONN_RECV =>
      (c.(wait) = false /\ pending c = [] /\ c.(ep) = EpNone /\ c.(qp) = None /\ (no_child_yet c.(at_work) = false -> 3 <= c.(free)) /\
         (c.(at_call) = RejectStart \/ early_destroy c.(at_call) = true)) \/
      (c.(wait) = true /\ no_child_yet c.(at_work) = false /\
         ((pending c = [] /\ c.(ep) = EpNone /\ c.(at_call) = AcceptCall /\ 3 <= c.(free)) \/
          (pending c = [] /\ c.(ep) = EpAccepting /\ active_call c.(at_call) AcceptCall = true) \/
          (exists p, pending c = IW_CM_EVENT_ESTABLISHED :: p /\ up p c.(ep) = true /\ active_call c.(at_call) AcceptCall = true)))
  | IW_CM_STATE_CONN_SENT =>
      c.(wait) = true /\
        ((pending c = [] /\ c.(ep) = EpNone /\ c.(at_call) = ConnectCall /\ 3 <= c.(free)) \/
         (pending c = [] /\ c.(ep) = EpConnecting /\ active_call c.(at_call) ConnectCall = true) \/
         (exists s d p, pending c = IW_CM_EVENT_CONNECT_REPLY s d :: p /\ replied s p c.(ep) = true /\
            active_call c.(at_call) ConnectCall = true))
  | IW_CM_STATE_ESTABLISHED | IW_CM_STATE_CLOSING =>
      c.(wait) = false /\ up (pending c) c.(ep) = true /\ (c.(at_call) = ConnectCall \/ c.(at_call) = AcceptCall \/ early_destroy c.(at_call) = true)
  | IW_CM_STATE_DESTROYING => False
  end.

(** And when they are: the last event that is processed finds a state it knows. *)
Definition drop_ok (c : iwcm_id_private) : Prop :=
  c.(wait) = false /\ c.(state) <> IW_CM_STATE_CONN_SENT /\ coming_up c.(ep) = false /\
  match c.(at_call) with
  | DestroyLock => c.(held) = true /\ (listening c.(ep) = false \/ c.(state) = IW_CM_STATE_LISTEN)
  | DestroyCall _ => c.(held) = true
  | DestroyPut _ => c.(held) = true /\ listening c.(ep) = false
  | NoCall => c.(held) = false /\ listening c.(ep) = false
  | _ => False
  end /\
  match c.(at_work) with
  | Process (IW_CM_EVENT_CONNECT_REPLY _ _) _ | Process IW_CM_EVENT_ESTABLISHED _ => False
  | Process IW_CM_EVENT_CLOSE _ => c.(state) = IW_CM_STATE_ESTABLISHED \/ c.(state) = IW_CM_STATE_CLOSING \/ c.(state) = IW_CM_STATE_DESTROYING
  | _ => True
  end.

Definition holds (o : option Z) (q : Z) : Z := c_bool (bool_decide (o = Some q)).

Definition call_qp (k : call) : option Z := match k with ConnectUndo q | AcceptUndo q | DestroyCall q | DestroyPut q => q | _ => None end.
Definition work_qp (w : work) : option Z := match w with Unlocked _ _ q _ => q | _ => None end.

(** References to a queue pair that were taken and not given back. *)
Definition ref_effect (q : Z) (e : effect) : Z :=
  match e with AddRef q' => c_bool (bool_decide (q' = q)) | RemRef q' => - c_bool (bool_decide (q' = q)) | _ => 0 end.

Fixpoint balance (h : list effect) (q : Z) : Z := match h with [] => 0 | e :: h => ref_effect q e + balance h q end.

(** The callbacks of a history, and one that is about to begin. *)
Fixpoint callbacks (h : list effect) : list iw_cm_event := match h with [] => [] | Callback ev :: h => ev :: callbacks h | _ :: h => callbacks h end.

Definition to_call (w : work) : list iw_cm_event := match w with Unlocked ev _ _ true => [ev] | _ => [] end.

(** What a client sees of an identifier, and the state that goes with it. *)
Inductive protocol : list iw_cm_event -> iw_cm_state -> Prop :=
  | seen_nothing s : s = IW_CM_STATE_IDLE \/ s = IW_CM_STATE_LISTEN \/ s = IW_CM_STATE_CONN_SENT \/ s = IW_CM_STATE_CONN_RECV -> protocol [] s
  | seen_request d s : s = IW_CM_STATE_CONN_RECV \/ s = IW_CM_STATE_IDLE -> protocol [IW_CM_EVENT_CONNECT_REQUEST d] s
  | seen_refusal r d : r <> 0 -> protocol [IW_CM_EVENT_CONNECT_REPLY r d] IW_CM_STATE_IDLE
  | seen_reply d s : s = IW_CM_STATE_ESTABLISHED \/ s = IW_CM_STATE_CLOSING -> protocol [IW_CM_EVENT_CONNECT_REPLY 0 d] s
  | seen_established d s : s = IW_CM_STATE_ESTABLISHED \/ s = IW_CM_STATE_CLOSING -> protocol [IW_CM_EVENT_CONNECT_REQUEST d; IW_CM_EVENT_ESTABLISHED] s
  | seen_close l s : protocol l s -> s = IW_CM_STATE_ESTABLISHED \/ s = IW_CM_STATE_CLOSING -> protocol (l ++ [IW_CM_EVENT_CLOSE]) IW_CM_STATE_IDLE
  | seen_destroy l s : protocol l s -> protocol l IW_CM_STATE_DESTROYING.

(** Callbacks that begin after [iw_destroy_cm_id] has returned. *)
Fixpoint late (h : list effect) : list iw_cm_event := match h with [] => [] | Destroyed :: h => callbacks h | _ :: h => late h end.

(** The client knows of the connection, and the work is not done with the event that told it. *)
Definition called (w : work) : bool := match w with Unlocked _ _ _ _ | InCallback _ _ | InDestroy _ | ChildDestroy => true | _ => false end.

Definition connecting (s : iw_cm_state) : bool := match s with IW_CM_STATE_CONN_SENT | IW_CM_STATE_CONN_RECV => true | _ => false end.

(** Work entries that the provider's events may still need. *)
Definition to_come (e : endpoint) : Z := match e with EpConnecting | EpAccepting => 3 | EpConnected => 2 | EpDisconnected => 1 | _ => 0 end.

(** From the critical section of [destroy_cm_id] on. *)
Definition destroying (c : iwcm_id_private) : bool := match c.(at_call) with DestroyCall _ | DestroyPut _ => true | _ => negb c.(held) end.

Record core_ok (c : iwcm_id_private) : Prop := {
  io_free : 0 <= c.(free) /\ to_come c.(ep) <= c.(free);
  io_queue : c.(queued) = negb (again c.(at_work)) && (match c.(work_list) with [] => false | _ => true end);
  io_again : again c.(at_work) = true -> c.(work_list) <> [];
  io_state : if c.(drop) then drop_ok c else state_ok c /\ c.(held) = true /\ c.(at_call) <> DestroyLock;
  io_destroying : match c.(state) with IW_CM_STATE_DESTROYING => true | _ => false end = destroying c;
  io_gone : c.(state) = IW_CM_STATE_DESTROYING -> c.(qp) = None;
  io_work : match c.(at_work) with
            | InDestroy _ | ChildDestroy => destroy_call c.(at_call) = true /\ c.(held) = true
            | ChildReject => (c.(at_call) = RejectStart \/ c.(at_call) = RejectCall) /\ (c.(state) = IW_CM_STATE_CONN_RECV \/ c.(state) = IW_CM_STATE_IDLE)
            | ChildCheck _ _ => c.(at_call) = NoCall /\ c.(free) = 0 /\ c.(state) = IW_CM_STATE_CONN_RECV /\ c.(history) = []
            | ChildCallback => destroy_call c.(at_call) = false /\ c.(held) = true /\ (c.(state) = IW_CM_STATE_CONN_RECV \/ c.(state) = IW_CM_STATE_IDLE)
            | _ => True
            end;
  io_reject : c.(at_call) = RejectStart -> c.(at_work) = ChildReject;
  io_qp : forall q, balance c.(history) q = holds c.(qp) q + holds (call_qp c.(at_call)) q + holds (work_qp c.(at_work)) q;
  io_calls : protocol (callbacks c.(history) ++ to_call c.(at_work)) c.(state);
  io_seen : c.(state) = IW_CM_STATE_CONN_RECV -> no_child_yet c.(at_work) = false -> callbacks c.(history) <> [];
  io_late : Destroyed ∈ c.(history) -> Z.of_nat (length (late c.(history)) + length (to_call c.(at_work))) <= 1;
  io_destroyed : Destroyed ∈ c.(history) -> c.(held) = false;
  io_called : called c.(at_work) = true -> connecting c.(state) = false
}.

(** The references that are accounted for. *)
Definition refs (c : iwcm_id_private) : Z := c_bool c.(held) + Z.of_nat (length c.(work_list)) + work_ref c.(at_work) + ep_ref c.(ep).

Definition id_ok (c : iwcm_id_private) : Prop := core_ok c /\ c.(refcount) = refs c /\ 0 < c.(refcount).

(** A freed identifier has no reference left. *)
Definition obj_ok (x : cm_id) : Prop :=
  match x with Alive c => id_ok c | Freed c => core_ok c /\ refs c = 0 end.

(** ** Histories *)

Lemma balance_app h h' q : balance (h ++ h') q = balance h q + balance h' q.
Proof. induction h as [|e h IH]; cbn; [done|]. rewrite IH. lia. Qed.

Lemma callbacks_app h h' : callbacks (h ++ h') = callbacks h ++ callbacks h'.
Proof. induction h as [|e h IH]; cbn; [done|]. destruct e; cbn; by rewrite IH. Qed.

Lemma late_none h : Destroyed ∉ h -> late h = [].
Proof. induction h as [|e h IH]; cbn; [done|]. intros [He Hh]%list.not_elem_of_cons. destruct e; try done; by apply IH. Qed.

Lemma late_app h h' : Destroyed ∈ h -> late (h ++ h') = late h ++ callbacks h'.
Proof.
  induction h as [|e h IH]; cbn; [by intros ?%elem_of_nil|]. intros [<-|Hh]%list.elem_of_cons; [by rewrite callbacks_app|].
  destruct e; cbn; try (by apply IH). by rewrite callbacks_app.
Qed.

Lemma balance_one e q : balance [e] q = ref_effect q e.
Proof. cbn. lia. Qed.

Lemma holds_none q : holds None q = 0.
Proof. done. Qed.

Lemma holds_some q q' : holds (Some q) q' = c_bool (bool_decide (q = q')).
Proof. unfold holds. by rewrite (bool_decide_ext (Some q = Some q') (q = q')) by naive_solver. Qed.

Lemma destroyed_app h h' : Destroyed ∈ h ++ h' <-> Destroyed ∈ h \/ Destroyed ∈ h'.
Proof. apply list.elem_of_app. Qed.

Lemma to_call_length w : (length (to_call w) <= 1)%nat.
Proof. destruct w as [| | | |ev l q [] | | | | | | | | ]; cbn; lia. Qed.

Definition quiet (e : effect) : bool := match e with Callback _ | Destroyed => false | _ => true end.

Lemma callbacks_quiet h e : quiet e = true -> callbacks (h ++ [e]) = callbacks h.
Proof. intros He. rewrite callbacks_app. destruct e; try done; cbn; by rewrite app_nil_r. Qed.

Lemma late_quiet h e : quiet e = true -> late (h ++ [e]) = late h.
Proof. intros He. induction h as [|e' h IH]; [by destruct e|]. destruct e'; cbn; try done. by apply callbacks_quiet. Qed.

Lemma destroyed_quiet h e : quiet e = true -> (Destroyed ∈ h ++ [e] <-> Destroyed ∈ h).
Proof. intros He. rewrite destroyed_app, list.elem_of_cons, elem_of_nil. destruct e; naive_solver. Qed.

Lemma callbacks_callback h ev : callbacks (h ++ [Callback ev]) = callbacks h ++ [ev].
Proof. by rewrite callbacks_app. Qed.

Lemma late_callback h ev : Destroyed ∈ h -> late (h ++ [Callback ev]) = late h ++ [ev].
Proof. intros H. by rewrite late_app. Qed.

Lemma destroyed_callback h ev : Destroyed ∈ h ++ [Callback ev] <-> Destroyed ∈ h.
Proof. rewrite destroyed_app, list.elem_of_cons, elem_of_nil. naive_solver. Qed.

Lemma late_end h : Destroyed ∉ h -> late (h ++ [Destroyed]) = [].
Proof. induction h as [|e h IH]; cbn; [done|]. intros [He Hh]%list.not_elem_of_cons. destruct e; try done; by apply IH. Qed.

Lemma not_destroyed_one h e : e <> Destroyed -> Destroyed ∉ h -> Destroyed ∉ h ++ [e].
Proof. intros He Hh [?|[<-|[]%elem_of_nil]%list.elem_of_cons]%destroyed_app; done. Qed.

Lemma not_destroyed (h : list effect) (P : Prop) : (Destroyed ∈ h -> true = false) -> Destroyed ∈ h -> P.
Proof. intros H Hi. by specialize (H Hi). Qed.

(** ** What a client sees *)

Lemma protocol_idle l s :
  protocol l s -> match s with IW_CM_STATE_LISTEN | IW_CM_STATE_CONN_SENT | IW_CM_STATE_CONN_RECV => true | _ => false end = true -> protocol l IW_CM_STATE_IDLE.
Proof. intros H E. destruct H as [s|d s H|r d|d s H|d s H|l s _ H|]; try done; try (constructor; by auto); by destruct H as [->| ->]. Qed.

Lemma protocol_closing l : protocol l IW_CM_STATE_ESTABLISHED -> protocol l IW_CM_STATE_CLOSING.
Proof. intros H. remember IW_CM_STATE_ESTABLISHED as s eqn:E. destruct H; try done; subst; try naive_solver; constructor; by auto. Qed.

Lemma protocol_first s s' :
  protocol [] s -> match s' with IW_CM_STATE_LISTEN | IW_CM_STATE_CONN_SENT | IW_CM_STATE_CONN_RECV | IW_CM_STATE_IDLE => true | _ => false end = true -> protocol [] s'.
Proof. intros _ E. constructor. destruct s'; naive_solver. Qed.

Lemma protocol_sent l : protocol l IW_CM_STATE_CONN_SENT -> l = [].
Proof. intros H. remember IW_CM_STATE_CONN_SENT as s eqn:E. destruct H; try done; subst; naive_solver. Qed.

Lemma protocol_recv l : protocol l IW_CM_STATE_CONN_RECV -> l = [] \/ exists d, l = [IW_CM_EVENT_CONNECT_REQUEST d].
Proof. intros H. remember IW_CM_STATE_CONN_RECV as s eqn:E. destruct H; try done; subst; naive_solver. Qed.

(** ** Events to come *)

Definition was_up (e : endpoint) : bool := match e with EpConnected | EpDisconnected | EpLeaving | EpGone => true | _ => false end.

Lemma up_ep p e : up p e = true -> was_up e = true.
Proof. destruct p as [|[] [|[] []]]; cbn; try done; destruct e; done. Qed.

Lemma up_head ev p e : up (ev :: p) e = true -> ev = IW_CM_EVENT_DISCONNECT /\ up p e = true \/ ev = IW_CM_EVENT_CLOSE /\ p = [] /\ left_ep e = true.
Proof. unfold up. destruct ev, p as [|[] []]; cbn; intros H; auto; try done. left. split; [done|]. apply bool_decide_eq_true in H as ->. done. Qed.

Lemma up_posts p e ev : up p e = true -> posts e ev = true -> up (p ++ [ev]) (after_event e ev) = true.
Proof. destruct e; try done; destruct ev; try done; destruct p as [|[] [|[] []]]; done. Qed.

Lemma replied_ep s p e : replied s p e = true -> was_up e = true.
Proof. unfold replied. case_match; [apply up_ep|]. by destruct p, e. Qed.

Lemma replied_reply s : replied s [] (if s =? 0 then EpConnected else EpLeaving) = true.
Proof. unfold replied. by destruct (s =? 0). Qed.

Lemma replied_refused s p e : replied s p e = true -> s <> 0 -> p = [] /\ left_ep e = true.
Proof. unfold replied. intros H E%Z.eqb_neq. rewrite E in H. by destruct p. Qed.

Lemma replied_posts s p e ev : replied s p e = true -> posts e ev = true -> replied s (p ++ [ev]) (after_event e ev) = true.
Proof. unfold replied. destruct (s =? 0); [apply up_posts|]. destruct p, e; try done; by destruct ev. Qed.

Lemma events_snoc w l ev : events_of w (l ++ [ev]) = events_of w l ++ [ev].
Proof. by destruct w. Qed.

Lemma ep_ref_posts e ev : posts e ev = true -> ep_ref (after_event e ev) = ep_ref e.
Proof. destruct e; try done; destruct ev; try done; cbn; by try case_match. Qed.

Lemma to_come_posts e ev f : posts e ev = true -> 0 <= f -> to_come e <= f -> f <> 0 -> to_come (after_event e ev) <= f - 1.
Proof. destruct e; try done; destruct ev; try done; cbn; try case_match; cbn; lia. Qed.

Lemma c_true_ne z : c_true z = true -> z <> 0.
Proof. by intros E ->. Qed.

Lemma no_memory : c_true (- ENOMEM) = true.
Proof. done. Qed.

(** ** Dropping a reference *)

Lemma refs_pos c : 0 <= refs c.
Proof. unfold refs. destruct c.(held), c.(at_work), c.(ep); cbn; lia. Qed.

Lemma deref_ok c : core_ok c -> c.(refcount) = refs c + 1 -> exists x, iwcm_deref_id c = Some x /\ obj_ok x.
Proof.
  intros Hc Hn. unfold iwcm_deref_id. cbn [refcount set_refcount work_list]. pose proof (refs_pos c) as Hr.
  destruct (Z.eqb_spec (c.(refcount) - 1) 0) as [E|E].
  - assert (E0 : refs c = 0) by lia. destruct c.(work_list) as [|ev l] eqn:El.
    + eexists. split; [done|]. split; [by destruct Hc|done].
    + exfalso. unfold refs in E0. rewrite El in E0. destruct c.(held), c.(at_work), c.(ep); cbn in E0; lia.
  - eexists. split; [done|]. split; [by destruct Hc|]. split; cbn; [unfold refs in *; cbn; lia|lia].
Qed.
