(* ===== verification/IwCmCalls.v ===== *)
(** The iWARP connection manager of IwCm.v: every step of a client's call, of
    [destroy_cm_id] and of a provider's reference returns and keeps the invariant
    of IwCmSafe.v. The tactics of these proofs open a record in the hypotheses and
    split the cases of its state, its call and its work. *)

From S2P Require Import Prelude IwCm IwCmSafe.
#[local] Open Scope Z_scope.

(** A step that the contract allows returns, and the invariant is kept. *)
Definition ok_step (s : step) : Prop := forall c other, id_ok c -> id_enabled c s -> exists x, id_exec c other s = Some x /\ obj_ok x.

(** ** Tactics *)

#[global] Arguments holds : simpl never.
#[global] Arguments up : simpl never.
#[global] Arguments events_of : simpl never.
#[global] Arguments no_child_yet : simpl never.
#[global] Arguments replied : simpl never.
#[global] Arguments iwcm_deref_id : simpl never.

Ltac views := unfold state_ok, drop_ok, pending, active_call, early_destroy, answers, untried, was_up in *; cbn in *.

Ltac opens := repeat match goal with
  | H : _ /\ _ |- _ => destruct H
  | H : exists _, _ |- _ => destruct H
  | H : False |- _ => destruct H
  | H : ?x = ?x |- _ => clear H
  | H : _ \/ _ |- _ => destruct H
  end.

Ltac cases := opens; try simplify_eq/=; opens; try simplify_eq/=; try done.

Ltac prove := first [done | lia | match goal with
  | |- _ /\ _ => split; prove
  | |- _ \/ _ => (left; solve [prove]) || (right; solve [prove])
  | |- forall _, _ => intro; prove
  | |- exists _, _ => eexists; solve [prove]
  end].

(** The fields of an identifier and of its invariant. *)
Ltac start :=
  let c := fresh "c" in
  intros c other (Hc & Hn & Hp) He; destruct Hc as [Hfree Hqueue Hagain Hstate Hdes Hgone Hwork Hrej Hqp Hcalls Hseen Hlate Hdest Hcalled];
  destruct c as [st w d qu l f n qd h k wk e hi]; cbn in *; cases; cbn in *; subst.

Ltac flat := cbv [set_state set_wait set_drop set_qp set_work_list set_free set_refcount set_queued set_held set_call set_work set_ep emit end_call put_qp free_data add_ref
  state wait drop qp work_list free refcount queued held at_call at_work ep history].

Ltac balances := match goal with
  | H : forall q, balance _ q = _ |- forall q, _ =>
      let x := fresh "x" in intros x; specialize (H x); rewrite ?balance_app, ?balance_one; cbn in *; rewrite ?holds_none, ?holds_some in *; cbn; lia
  end.

(** The invariant after the step, with the fields that the step leaves alone. *)
Ltac core := constructor; cbn; try done; try balances; rewrite ?callbacks_quiet, ?late_quiet, ?destroyed_quiet by done; try done;
  try (eapply seen_destroy; eassumption); try (eapply protocol_idle; [eassumption|done]); try (apply protocol_closing; assumption);
  try match goal with H : ?k = RejectStart -> _ |- ?k = RejectStart -> _ => let E := fresh in intros E; by specialize (H E) end.

Ltac ok := flat; eexists; split; [done|]; cbn; split; [|unfold refs in *; split; cbn in *; lia].

Ltac ends := repeat match goal with H : up _ _ = true |- _ => apply up_ep in H | H : replied _ _ _ = true |- _ => apply replied_ep in H end;
  match goal with e : endpoint |- _ => destruct e | _ => idtac end; cbn in *; cases; prove.

Ltac crunch := views; cases; try solve [prove | views; prove | ends].

(** By the cases of the flag and of the state. *)
Ltac by_state := match goal with d : bool, H : (if ?d then drop_ok _ else _) |- _ => destruct d; [crunch|destruct H as (H & Hheld & Hlock)] end;
  match goal with H : state_ok ?c |- _ => let st := eval cbn in (state c) in first [is_var st; destruct st | idtac]; crunch | _ => crunch end.

(** By where the work stands. *)
Ltac by_work := match goal with wk : work |- _ => destruct wk as [| | |[]| | | | | | | | |] end; cases;
  try match goal with H : no_child_yet _ = false -> _ |- _ => specialize (H eq_refl) end; try solve [prove | views; prove | ends].

Ltac open_state := match goal with d : bool, H : (if ?d then drop_ok _ else _) |- _ => destruct d; [views|destruct H as (H & Hheld & Hlock)] end;
  match goal with H : state_ok ?c |- _ => let st := eval cbn in (state c) in destruct st; views | _ => idtac end; cases; try solve [ends].

Ltac split_call := match goal with k : call |- _ => destruct k | _ => idtac end; cases.

(** An identifier on which nothing was tried. *)
Ltac new := match goal with d : bool, H : (if ?d then drop_ok _ else _) |- _ => destruct d; [by views; cases|destruct H as (H & _ & _)]; views; unfold events_of in *; cases end.

(** ** Listening and connecting *)

Lemma listens backlog memory : ok_step (Listen backlog memory).
Proof.
  start. new. unfold id_exec, iw_cm_listen, alloc_work_entries. assert (Hb : 0 <= if backlog =? 0 then default_backlog else backlog) by (by case_match).
  destruct memory; cbn; rewrite ?no_memory; cbn.
  all: ok; core; crunch; try lia; try (eapply protocol_first; done).
Qed.

Lemma listen_returns ret : ok_step (ListenReturn ret).
Proof. start. unfold id_exec, listen_return, answers in *. destruct (c_true ret); open_state; ok; core; crunch; by_work. Qed.

Lemma connects q memory : ok_step (Connect q memory).
Proof.
  start. new. unfold id_exec, iw_cm_connect, alloc_work_entries. destruct memory; cbn; rewrite ?no_memory; cbn; [destruct q as [q|]; cbn|].
  all: ok; core; crunch; try lia; try (eapply protocol_first; done).
  - intros x. by rewrite !holds_none, holds_some, !Z.add_0_r.
  - by intros [?|[]%elem_of_nil]%list.elem_of_cons.
Qed.

Lemma connect_returns ret : ok_step (ConnectReturn ret).
Proof. start. unfold id_exec, connect_return, answers in *. destruct (c_true ret); open_state; ok; core; crunch; by_work. Qed.

Lemma connect_ends : ok_step ConnectEnd.
Proof. start. unfold id_exec. destruct x as [x|]; cbn; ok; core; try by_state; by_work. Qed.

(** ** Accepting, rejecting and disconnecting *)

Lemma accepts q : ok_step (Accept q).
Proof. start. unfold id_exec, iw_cm_accept; cbn. open_state; destruct q as [q|]; ok; core; crunch; by_work. Qed.

Lemma accept_returns ret : ok_step (AcceptReturn ret).
Proof. start. unfold id_exec, accept_return, answers in *. destruct (c_true ret); open_state; ok; core; crunch; by_work. Qed.

Lemma accept_locks : ok_step AcceptLock.
Proof. start. unfold id_exec, accept_fail; cbn. open_state; ok; core; crunch; by_work. Qed.

Lemma accept_ends : ok_step AcceptEnd.
Proof. start. unfold id_exec. destruct x as [x|]; cbn; ok; core; try by_state; by_work. Qed.

Lemma rejects : ok_step Reject.
Proof. start. unfold id_exec, iw_cm_reject; cbn. open_state; ok; core; crunch; by_work. Qed.

Lemma reject_returns : ok_step RejectReturn.
Proof. start. unfold id_exec, reject_end; cbn. open_state; destruct wk; cbn; ok; core; crunch; by_work. Qed.

Lemma child_rejects : ok_step RejectChild.
Proof. start. specialize (Hrej eq_refl) as ->. unfold id_exec, iw_cm_reject, reject_end; cbn. open_state; ok; core; crunch; by_work. Qed.

Lemma disconnects : ok_step Disconnect.
Proof. start. unfold id_exec, iw_cm_disconnect; cbn. open_state; try (destruct st, k; cases); ok; core; crunch; by_work. Qed.

(** ** Destroying *)

Lemma destroy_begins : ok_step Destroy.
Proof. start. ok. core; [by_state|by_work]. Qed.

Lemma destroy_waited : ok_step DestroyWaited.
Proof. start. ok. core; [by_state|by_work]. Qed.

Lemma destroy_drops : ok_step DestroyDrop.
Proof. start. ok. core; [|by_work]. by_state; destruct wk as [| | |[]| | | | | | | | |]; crunch. Qed.

Lemma destroy_section : ok_step DestroyLocked.
Proof.
  start. destruct d; [|by destruct Hstate as (_ & _ & [])]. views. cases.
  all: unfold destroy_locked; cbn; try destruct st; cbn; cases; ok; core; by_work.
Qed.

Lemma destroy_returns : ok_step DestroyReturn.
Proof. start. ok. core; [by_state|by_work]. Qed.

Ltac calls := rewrite ?callbacks_app, ?app_nil_r in *; cbn; rewrite ?app_nil_r in *; try done; eapply seen_destroy; eassumption.

Ltac lates := match goal with H : Destroyed ∉ ?h |- Destroyed ∈ ?h' -> _ =>
  first [ assert (Destroyed ∉ h') by first [done | by apply not_destroyed_one]; done
        | intros _; rewrite late_end by first [done | by apply not_destroyed_one]; cbn; try lia; match goal with |- context [if ?b then _ else _] => destruct b; cbn; lia end ]
  end.

Lemma destroy_ends : ok_step DestroyEnd.
Proof.
  start. destruct d; [|destruct st; cbn in *; try done; by destruct Hstate as [[] _]]. views. cases. destruct st; try done. clear Hdes. specialize (Hgone eq_refl) as ->.
  assert (Hd : Destroyed ∉ hi) by (intros Hi; by specialize (Hdest Hi)).
  unfold destroy_end. destruct x as [x|]; cbn; destruct wk; cbn.
  all: apply deref_ok; [core|unfold refs in *; cbn in *; lia].
  all: solve [calls | lates | cbn in *; cases].
Qed.

(** ** The provider's reference *)

Lemma takes : ok_step Take.
Proof. start. unfold id_exec, add_ref. open_state; split_call; ok; core; crunch; by_work. Qed.

Lemma untakes : ok_step Untake.
Proof.
  start. destruct e; try done; destruct k; try done; (apply deref_ok; [|by unfold refs in *; cbn in *; lia]); core; try lia.
  all: by_state; by_work.
Qed.
