(* ===== verification/IwCmWork.v ===== *)
(** The iWARP connection manager of IwCm.v: every step of [cm_event_handler], of
    [cm_work_handler] and of the handlers returns and keeps the invariant of IwCmSafe.v. *)

From S2P Require Import Prelude IwCm IwCmSafe IwCmCalls.
#[local] Open Scope Z_scope.

(** ** Posting an event *)

Lemma state_posts st w (d : bool) qu l l' f f' n n' qd qd' h k wk e e' hi hi' ev :
  (if d then drop_ok (mk_id st w d qu l f n qd h k wk e hi) else state_ok (mk_id st w d qu l f n qd h k wk e hi) /\ h = true /\ k <> DestroyLock) ->
  posts e ev = true -> l' = l ++ [ev] -> e' = after_event e ev -> f' = f - 1 ->
  if d then drop_ok (mk_id st w d qu l' f' n' qd' h k wk e' hi') else state_ok (mk_id st w d qu l' f' n' qd' h k wk e' hi') /\ h = true /\ k <> DestroyLock.
Proof.
  intros Hstate He -> -> ->. destruct d.
  - destruct e; try (by destruct ev); destruct ev; try done; cbn; try case_match; views; cases; split_and!; done.
  - destruct Hstate as (Hstate & Hheld & Hlock). split; [|done]. destruct e; try (by destruct ev).
    all: destruct st; views; rewrite ?events_snoc, ?forallb_app; cases; try (by destruct k).
    all: try match goal with H : events_of _ _ = _ |- _ => rewrite H end; cbn.
    all: try match goal with H : up ?p ?e = true |- _ => pose proof (up_posts p e ev H He) end.
    all: try match goal with H : replied ?s ?p ?e = true |- _ => pose proof (replied_posts s p e ev H He) end.
    all: try solve [prove | ends].
    all: destruct ev; try done; cbn in *; rewrite ?andb_true_r; try solve [prove]; try solve [destruct k; cases].
    split; [done|]. do 2 right. eexists _, _, _. split; [done|]. split; [apply replied_reply|done].
Qed.

Lemma events ev memory : ok_step (Event ev memory).
Proof.
  start. unfold id_exec, cm_event_handler. cbn. destruct (Z.eqb_spec f 0) as [->|Ef]; cbn; [rewrite no_memory; cbn; ok; core|].
  destruct (has_data ev && negb memory); cbn; [rewrite no_memory; cbn; ok; core|].
  pose proof (ep_ref_posts e ev He) as Hr. pose proof (to_come_posts e ev f He H H0 Ef) as Ht.
  destruct (has_data ev), l as [|ev' l]; cbn; flat; (eexists; split; [done|]); cbn; (split; [|unfold refs in *; cbn in *; rewrite ?length_app; cbn; split; lia]).
  all: core; try lia; try (by eapply state_posts).
  all: try (destruct (again wk); [by specialize (Hagain eq_refl)|done]).
  all: by_work.
Qed.

(** ** The loop of [cm_work_handler] *)

Lemma work_starts : ok_step WorkStart.
Proof. start. destruct l; [done|]. ok; core. Qed.

Lemma work_nexts : ok_step WorkNext.
Proof. start. unfold id_exec, work_next; cbn. destruct l as [|ev [|ev' l]]; [by specialize (Hagain eq_refl)|..]; ok; core; by_state. Qed.

Lemma work_tests : ok_step WorkTest.
Proof. start. unfold test_drop; cbn. destruct d; ok; core; by_state. Qed.

Lemma work_calls : ok_step WorkCall.
Proof.
  start. unfold call_client, put_qp; cbn.
  destruct x1 as [q|], x2; ok; core; rewrite ?callbacks_callback, ?app_nil_r, ?destroyed_callback, ?callbacks_quiet, ?destroyed_quiet in * by done; try done; try by_state.
  all: try (intros Hd; rewrite late_callback, ?late_quiet, ?length_app by (rewrite ?destroyed_quiet; done); specialize (Hlate Hd); cbn in *; lia).
  all: intros; by destruct (callbacks hi).
Qed.

(** What the contract says of a client that returns an error. *)
Ltac refuses ret := match goal with H : ret <> 0 -> _ |- _ => specialize (H ltac:(done)); cases end.

Lemma work_returns ret : ok_step (WorkReturn ret).
Proof.
  start. unfold client_return, free_data; cbn. destruct (c_true ret) eqn:Er; [apply c_true_ne in Er; refuses ret|].
  all: destruct (has_data x); ok; core; by_state.
Qed.

Lemma work_derefs : ok_step WorkDeref.
Proof.
  start. unfold work_deref. apply deref_ok; [|by unfold refs in *; cbn in *; destruct x; cbn in *; lia]. destruct x; core; by_state.
Qed.

(** ** The handlers *)

Definition processes (ev : iw_cm_event) : Prop :=
  forall last c other, id_ok c -> c.(at_work) = Process ev last -> exists x, id_exec c other WorkProcess = Some x /\ obj_ok x.

Ltac heads := match goal with H : up (_ :: _) _ = true |- _ => apply up_head in H; cases end.

(** The states in which the event at the head of the list is processed. *)
Ltac by_head Hstate := let Hl := fresh "Hlock" in destruct Hstate as (Hstate & -> & Hl); unfold state_ok, pending, events_of in Hstate;
  match goal with st : iw_cm_state |- _ => match type of Hstate with context [st] => destruct st end end; views; cases; try heads.

Lemma replies_processed r da : processes (IW_CM_EVENT_CONNECT_REPLY r da).
Proof.
  intros la. start. rewrite app_nil_r in Hcalls. destruct d; [by destruct Hstate as (_ & _ & _ & _ & [])|]. by_head Hstate. apply protocol_sent in Hcalls as Hnone.
  unfold id_exec; cbn.
  match goal with H : replied ?s _ _ = true |- context [?s =? 0] => destruct (Z.eqb_spec s 0) as [->|Es]; [unfold replied in H|apply replied_refused in H as [-> He]; [|done]] end; cbn.
  all: ok; core; crunch; try (by apply not_destroyed); rewrite ?Hnone; try (by constructor; auto); unfold events_of; destruct k; cases; crunch.
Qed.

Lemma established_processed : processes IW_CM_EVENT_ESTABLISHED.
Proof.
  intros la. start. rewrite app_nil_r in Hcalls. destruct d; [by destruct Hstate as (_ & _ & _ & _ & [])|]. by_head Hstate. specialize (Hseen eq_refl eq_refl).
  apply protocol_recv in Hcalls as [?|[da Hone]]; [done|]. unfold id_exec; cbn.
  ok; core; crunch; try (by apply not_destroyed); rewrite ?Hone; try (by constructor; auto); unfold events_of; destruct k; cases; crunch.
Qed.

Lemma disconnect_processed : processes IW_CM_EVENT_DISCONNECT.
Proof.
  intros la. start. unfold id_exec; cbn. destruct d.
  - destruct st; cbn; ok; core; views; split_call; prove.
  - by_head Hstate; ok; core; crunch.
Qed.

Lemma close_processed : processes IW_CM_EVENT_CLOSE.
Proof.
  intros la. start. unfold id_exec, cm_close_handler; cbn. rewrite app_nil_r in Hcalls. destruct d.
  - views; split_call; ok; core; crunch; try (by rewrite app_nil_r); try (by eapply seen_close; [eassumption|auto]).
    all: intros Hd; by specialize (Hdest Hd).
  - by_head Hstate; ok; core; crunch; try (by eapply seen_close; [eassumption|auto]); try (by apply not_destroyed).
    all: destruct k; crunch.
Qed.

Lemma work_processes : ok_step WorkProcess.
Proof.
  intros c other Hc (ev & last & E & Hr).
  destruct ev; [done|by eapply replies_processed|by eapply established_processed|by eapply disconnect_processed|by eapply close_processed].
Qed.

(** ** Connection requests *)

Lemma new_child child memory : ok_step (NewChild child memory).
Proof. start. destruct x as [data| | | |]; try done. destruct memory, data; cbn; ok; core; by_state. Qed.

Lemma check_child memory : ok_step (CheckChild memory).
Proof.
  start. destruct wk; try done. unfold child_check, alloc_work_entries; cbn. cases. destruct other, memory; cbn; rewrite ?no_memory; cbn; ok; core; try by_state.
  all: first [by constructor; auto | by intros [?|[]%elem_of_nil]%list.elem_of_cons].
Qed.

Lemma child_returns ret : ok_step (ChildReturn ret).
Proof.
  start; unfold child_return; cbn; (destruct (c_true ret) eqn:Er; [apply c_true_ne in Er; refuses ret|]); ok; core; by_state.
Qed.

Lemma child_done : ok_step ChildDone.
Proof. start. unfold free_data. destruct x0; ok; core; by_state. Qed.

(** ** All steps *)

Lemma iw_step_ok s : ok_step s.
Proof.
  destruct s; first [by intros c other _ [] | apply listens | apply listen_returns | apply connects | apply connect_returns | apply connect_ends | apply accepts
    | apply accept_returns | apply accept_locks | apply accept_ends | apply rejects | apply reject_returns | apply disconnects | apply destroy_begins
    | apply destroy_waited | apply destroy_drops | apply destroy_section | apply destroy_returns | apply destroy_ends | apply takes | apply untakes
    | apply events | apply work_starts | apply work_nexts | apply work_tests | apply work_processes | apply work_calls | apply work_returns
    | apply work_derefs | apply new_child | apply check_child | apply child_returns | apply child_rejects | apply child_done].
Qed.
