(* ===== verification/IwCmRun.v ===== *)
(** The iWARP connection manager of IwCm.v on a map of identifiers: which steps the
    threads can take, runs, the link between a listener and the identifier of a
    connection request, and the measure of what is left to do. *)

From S2P Require Import Prelude Counting IwCm IwCmSafe IwCmCalls IwCmWork.
#[local] Open Scope Z_scope.

(** ** Runs *)

Definition record (x : cm_id) : iwcm_id_private := match x with Alive c | Freed c => c end.

Definition in_child (w : work) : bool := match w with ChildCheck _ _ | ChildCallback | ChildReject | ChildDestroy => true | _ => false end.

(** [cm_conn_req_handler] returns when it is done with the identifier it created. *)
Definition joined (ids : cm_ids) (c : iwcm_id_private) (s : step) : Prop :=
  match s with
  | NewChild child _ => ids !! child = None
  | ChildDone => match c.(at_work) with InChild child _ _ => forall x, ids !! child = Some (Alive x) -> in_child x.(at_work) = false | _ => True end
  | _ => True
  end.

(** A thread takes its next step whether its identifier is still there or not. *)
Definition enabled_id (ids : cm_ids) (i : Z) (s : step) : Prop :=
  exists x, ids !! i = Some x /\ id_enabled (record x) s /\ joined ids (record x) s.

Definition enabled (ids : cm_ids) (i : Z) (s : step) : Prop :=
  match s with Create => ids !! i = None | _ => enabled_id ids i s end.

Fixpoint allowed (ids : cm_ids) (l : list (Z * step)) : Prop :=
  match l with [] => True | (i, s) :: l => enabled ids i s /\ forall ids', exec ids i s = Some ids' -> allowed ids' l end.

Definition reachable (ids : cm_ids) : Prop := exists l, allowed ∅ l /\ run ∅ l = Some ids.

(** ** A freed identifier *)

(** Nobody is left with it. *)
Record over (c : iwcm_id_private) : Prop := {
  ov_held : c.(held) = false;
  ov_list : c.(work_list) = [];
  ov_call : c.(at_call) = NoCall;
  ov_work : c.(at_work) = Idle;
  ov_queued : c.(queued) = false;
  ov_ep : c.(ep) = EpNone \/ c.(ep) = EpGone;
  ov_state : c.(state) = IW_CM_STATE_DESTROYING
}.

Lemma refs_zero c : refs c = 0 -> c.(held) = false /\ c.(work_list) = [] /\ work_ref c.(at_work) = 0 /\ ep_ref c.(ep) = 0.
Proof. unfold refs. destruct c.(held), c.(work_list), c.(at_work), c.(ep); cbn; intros; split_and!; done || lia. Qed.

Lemma freed_over c : core_ok c -> refs c = 0 -> over c.
Proof.
  intros Hc (Hh & Hl & Hw & He)%refs_zero. destruct Hc as [_ Hq Ha Hst Hdes _ Hwk _ _ _ _ _ _ _]. unfold destroying in Hdes. rewrite Hh in Hdes.
  assert (Hs : c.(state) = IW_CM_STATE_DESTROYING) by (destruct c.(state), c.(at_call); done).
  assert (Hk : c.(at_call) = NoCall).
  { destruct c.(drop); [|destruct Hst as (_ & ? & _); congruence]. unfold drop_ok in Hst. rewrite Hh in Hst. destruct Hst as (_ & _ & _ & Hst & _).
    destruct c.(at_call); try done; by destruct Hst. }
  assert (Hwi : c.(at_work) = Idle).
  { rewrite Hh, Hk, Hs, Hl in *. destruct c.(at_work); try done; try (by destruct Hwk); [by specialize (Ha eq_refl)|naive_solver..]. }
  split; try done; [rewrite Hq, Hwi, Hl; done|]. destruct c.(ep); try done; auto.
Qed.

Lemma over_blocked c s : over c -> ~ id_enabled c s.
Proof. intros [Hh Hl Hk Hw Hq He _]. destruct c; cbn in *; subst. destruct s; cbn; unfold untried; cbn; try naive_solver; by destruct He as [->| ->]; try destruct ev. Qed.

Lemma freed_balance c q : core_ok c -> refs c = 0 -> balance c.(history) q = 0.
Proof. intros Hc Hr. destruct (freed_over c Hc Hr) as [_ _ Hk Hw _ _ Hs]. by rewrite (io_qp _ Hc), (io_gone _ Hc Hs), Hk, Hw. Qed.

(** ** The identifier of a connection request *)


(** A step, opened in the goal. *)
Ltac open_step := cbn; unfold iw_cm_listen, listen_return, iw_cm_connect, connect_return, iw_cm_accept, accept_return, iw_cm_reject, reject_end,
  iw_cm_disconnect, destroy_locked, destroy_end, rem_ref, work_deref, iwcm_deref_id, cm_event_handler, work_next, test_drop, process_event, cm_conn_rep_handler,
  cm_conn_est_handler, cm_disconnect_handler, cm_close_handler, client_return, call_client, put_qp, free_data, child_check, child_return, alloc_work_entries,
  mbind, option_bind, fmap, option_fmap, option_map; cbn; repeat (case_match; cbn).

Lemma no_new_check c other s c' p d : id_exec c other s = Some (Alive c') -> c'.(at_work) = ChildCheck p d -> c.(at_work) = ChildCheck p d.
Proof.
  destruct s; open_step; intros E Hw; simplify_eq/=; try done; try congruence.
Qed.

Lemma put_held c q : core_ok c -> c.(at_call) = DestroyPut q -> c.(held) = true.
Proof.
  intros Hc Hk. pose proof (io_state _ Hc) as H. destruct c.(drop); [|tauto]. unfold drop_ok in H. rewrite Hk in H. tauto.
Qed.

Lemma drops_ep k e : drops_ref k e = true -> ep_ref e = 1.
Proof. by destruct k, e. Qed.

Lemma deref_alive c : 2 <= c.(refcount) -> iwcm_deref_id c = Some (Alive (set_refcount c (c.(refcount) - 1))).
Proof. intros H. unfold iwcm_deref_id. cbn. by rewrite (proj2 (Z.eqb_neq _ 0)) by lia. Qed.

Lemma keeps_parent c other s x child data last :
  id_ok c -> c.(at_work) = InChild child data last -> id_enabled c s -> s <> ChildDone -> id_exec c other s = Some x ->
  exists c', x = Alive c' /\ c'.(at_work) = InChild child data last.
Proof.
  intros (Hc & Hn & Hp) Hw He Hs. assert (Hr : 1 + c_bool c.(held) + ep_ref c.(ep) <= refs c) by (unfold refs; rewrite Hw; cbn; lia).
  destruct s; try done; cbn in He; try (rewrite Hw in He; naive_solver).
  all: match goal with
    | |- id_exec _ _ DestroyEnd = _ -> _ => destruct He as [q Hq]; rewrite (put_held c q Hc Hq) in Hr; cbn; rewrite Hq; unfold destroy_end; destruct q; cbn; rewrite Hw;
        rewrite deref_alive by (cbn in *; destruct c.(ep); cbn in Hr; lia); intros [= <-]; eauto
    | |- id_exec _ _ Untake = _ -> _ => apply drops_ep in He; rewrite He in Hr; cbn; unfold rem_ref;
        rewrite deref_alive by (cbn; destruct c.(held); cbn in Hr; lia); intros [= <-]; eauto
    | _ => clear Hr; try destruct He as [q He]; open_step; try congruence; intros E; simplify_eq/=; eauto
    end.
Qed.

(** ** The invariant of the map *)

Definition linked (ids : cm_ids) (i : Z) (c : iwcm_id_private) : Prop :=
  forall p d, c.(at_work) = ChildCheck p d -> exists l data last, ids !! p = Some (Alive l) /\ l.(at_work) = InChild i data last.

Definition inv (ids : cm_ids) : Prop := forall i x, ids !! i = Some x -> obj_ok x /\ forall c, x = Alive c -> linked ids i c.

Lemma iw_create_ok : id_ok iw_create_cm_id.
Proof. split; [|done]. constructor; cbn; try done; try (by intros ?%elem_of_nil); try (by apply seen_nothing; auto). split; [|done]. unfold state_ok. cbn. split_and!; auto. Qed.

Lemma child_create_ok p d : id_ok (child_create p d).
Proof.
  split; [|done]. constructor; cbn; try done; try (by intros ?%elem_of_nil); try (by apply seen_nothing; auto).
  split; [|done]. unfold state_ok. cbn. left. split_and!; try done. by right.
Qed.

Lemma no_inv : inv ∅.
Proof. by intros i x ?%lookup_empty_Some. Qed.

(** The other identifiers, when [i] takes a step. *)
Lemma linked_others ids ids' i j cj : linked ids j cj ->
  (forall p l, p <> i -> ids !! p = Some (Alive l) -> ids' !! p = Some (Alive l)) ->
  (forall l data last, ids !! i = Some (Alive l) -> l.(at_work) = InChild j data last -> exists l', ids' !! i = Some (Alive l') /\ l'.(at_work) = InChild j data last) ->
  linked ids' j cj.
Proof.
  intros Hl Ho Hi p d Hw. destruct (Hl p d Hw) as (l & data & last & Hp & Hc). destruct (decide (p = i)) as [->|Hne].
  - destruct (Hi l data last Hp Hc) as (l' & Hl' & Hc'). by exists l', data, last.
  - exists l, data, last. split; [by apply Ho|done].
Qed.

Lemma other_state_some ids i c : inv ids -> ids !! i = Some (Alive c) -> is_Some (other_state ids c).
Proof.
  intros Hi Hc. unfold other_state. destruct c.(at_work) eqn:Ew; try by eexists.
  destruct (Hi i _ Hc) as [_ Hl]. destruct (Hl c eq_refl _ _ Ew) as (l & da & la & -> & _). by eexists.
Qed.

Lemma spawned_new ids c s child data : joined ids c s -> spawned c s = Some (child, data) ->
  ids !! child = None /\ exists ev last, s = NewChild child true /\ c.(at_work) = Process ev last /\ data = has_data ev.
Proof. unfold spawned. destruct s; try done. destruct memory; [|done]. destruct c.(at_work) eqn:E; try done. intros Hj [= <- <-]. split; [done|by eexists _, _]. Qed.

Lemma spawned_child c other s child data x : spawned c s = Some (child, data) -> id_exec c other s = Some x ->
  exists c' last, x = Alive c' /\ c'.(at_work) = InChild child data last.
Proof.
  unfold spawned. destruct s; try done. destruct memory; [|done]. destruct c.(at_work) eqn:E; try done. intros [= <- <-]. cbn. rewrite E. intros [= <-]. by eexists _, _.
Qed.

(** The next map: [i] has taken its step, and [child] may be there. *)
Definition next (ids : cm_ids) (i : Z) (c : iwcm_id_private) (s : step) (x : cm_id) : cm_ids :=
  match spawned c s with Some (child, data) => <[child := Alive (child_create i data)]> (<[i := x]> ids) | None => <[i := x]> ids end.

Lemma next_other ids i c s x j : joined ids c s -> j <> i -> is_Some (ids !! j) -> next ids i c s x !! j = ids !! j.
Proof.
  intros Hj Hne [y Hy]. unfold next. destruct (spawned c s) as [[child data]|] eqn:Es; [|by rewrite lookup_insert_ne].
  destruct (spawned_new _ _ _ _ _ Hj Es) as [Hn _]. rewrite !lookup_insert_ne; [done|congruence..].
Qed.

Lemma next_self ids i c s x : joined ids c s -> is_Some (ids !! i) -> next ids i c s x !! i = Some x.
Proof.
  intros Hj [y Hy]. unfold next. destruct (spawned c s) as [[child data]|] eqn:Es; [|by rewrite lookup_insert_eq].
  destruct (spawned_new _ _ _ _ _ Hj Es) as [Hn _]. rewrite lookup_insert_ne by congruence. by rewrite lookup_insert_eq.
Qed.

Lemma next_new ids i c s x j y : joined ids c s -> next ids i c s x !! j = Some y -> j <> i -> ids !! j = None ->
  exists data, spawned c s = Some (j, data) /\ y = Alive (child_create i data).
Proof.
  unfold next. intros Hj. destruct (spawned c s) as [[child data]|] eqn:Es; [|intros E Hne Hn; rewrite lookup_insert_ne in E by done; congruence].
  intros E Hne Hn. destruct (decide (child = j)) as [->|Hc]; [rewrite lookup_insert_eq in E; injection E as <-; by exists data|].
  rewrite !lookup_insert_ne in E by done. congruence.
Qed.

Lemma inv_next ids i c other s x : inv ids -> ids !! i = Some (Alive c) -> id_enabled c s -> joined ids c s ->
  id_exec c other s = Some x -> obj_ok x -> inv (next ids i c s x).
Proof.
  intros Hi Hc He Hj Ex Hx. destruct (Hi i _ Hc) as [Hok Hl]. specialize (Hl c eq_refl).
  intros j y Hy. destruct (decide (j = i)) as [->|Hne].
  - rewrite next_self in Hy by eauto. injection Hy as ->. split; [done|]. intros c' -> p d Hw.
    pose proof (no_new_check _ _ _ _ _ _ Ex Hw) as Hw0. destruct (Hl p d Hw0) as (l & da & la & Hp & Hin). exists l, da, la. split; [|done].
    rewrite next_other; [done|done|congruence|by eexists].
  - destruct (ids !! j) as [z|] eqn:Ez.
    + rewrite next_other in Hy by eauto. assert (z = y) as -> by congruence. destruct (Hi j y Ez) as [Hoky Hly]. split; [done|]. intros d -> p dt Hw.
      destruct (Hly d eq_refl p dt Hw) as (l & da & la & Hp & Hin). destruct (decide (p = i)) as [->|Hpi].
      * assert (l = c) as -> by congruence. rewrite next_self by eauto.
        destruct (keeps_parent c other s x j da la Hok Hin He) as (c' & -> & Hin'); [|done|by exists c', da, la].
        intros ->. cbn in Hj. rewrite Hin in Hj. specialize (Hj d Ez). by rewrite Hw in Hj.
      * exists l, da, la. split; [|done]. rewrite next_other by eauto. done.
    + destruct (next_new _ _ _ _ _ _ _ Hj Hy Hne Ez) as (data & Es & ->). split; [apply child_create_ok|]. intros d [= <-] p dt [= <- <-].
      destruct (spawned_child _ _ _ _ _ _ Es Ex) as (c' & last & -> & Hin). exists c', data, last. split; [|done]. by rewrite next_self by eauto.
Qed.

(** Every step a thread can take returns. *)
Lemma iw_exec_ok ids i s : inv ids -> enabled ids i s -> exists ids', exec ids i s = Some ids' /\ inv ids'.
Proof.
  intros Hi He. assert (Hid : enabled_id ids i s -> exists ids', exec_id ids i s = Some ids' /\ inv ids').
  { intros (x & Hx & Hen & Hj). destruct (Hi i x Hx) as [Hok Hl]. destruct x as [c|c]; cbn in Hen, Hj.
    - destruct (other_state_some ids i c Hi Hx) as [other Ho]. destruct (iw_step_ok s c other Hok Hen) as (x & Ex & Hox).
      exists (next ids i c s x). split; [|by eapply inv_next]. unfold exec_id, mbind, option_bind. by rewrite Hx, Ho, Ex.
    - destruct Hok as [Hc Hr]. by apply (over_blocked c s (freed_over c Hc Hr)) in Hen. }
  destruct s; try by apply Hid. cbn in He |- *. eexists. split; [done|]. intros j y Hy. destruct (decide (j = i)) as [->|Hne].
  - rewrite lookup_insert_eq in Hy. injection Hy as <-. split; [apply iw_create_ok|]. by intros c [= <-].
  - rewrite lookup_insert_ne in Hy by done. destruct (Hi j y Hy) as [Hok Hl]. split; [done|]. intros c -> p d Hw.
    destruct (Hl c eq_refl p d Hw) as (l & da & la & Hp & Hin). exists l, da, la. rewrite lookup_insert_ne; [done|congruence].
Qed.

Lemma iw_run_ok l : forall ids, inv ids -> allowed ids l -> exists ids', run ids l = Some ids' /\ inv ids'.
Proof.
  induction l as [|[i s] l IH]; intros ids Hi Ha; cbn; [by exists ids|]. destruct Ha as [He Ha].
  destruct (iw_exec_ok ids i s Hi He) as (ids' & E & Hi'). unfold mbind, option_bind. rewrite E. by apply IH, Ha.
Qed.

Lemma iw_reachable_inv ids : reachable ids -> inv ids.
Proof. intros (l & Ha & Hr). destruct (iw_run_ok l ∅ no_inv Ha) as (ids' & E & Hi). rewrite Hr in E. by injection E as <-. Qed.

(** ** What is left to do *)

(** The steps by which calls, events and work come to an end: they take no new call of a
    client and no new connection request. *)
Definition releasing (s : step) : bool :=
  match s with
  | Create | Listen _ _ | Connect _ _ | Accept _ | Reject | Disconnect | Destroy | Take => false
  | Event ev memory => negb (is_request ev) && memory
  | _ => true
  end.

Definition call_rank (k : call) : Z :=
  match k with
  | NoCall => 0 | ListenCall => 1 | ConnectCall => 3 | ConnectUndo _ => 2 | AcceptCall => 5 | AcceptFail => 4 | AcceptUndo _ => 3 | RejectStart => 4 | RejectCall => 3
  | DestroyWait => 7 | DestroyMark => 6 | DestroyLock => 5 | DestroyCall _ => 4 | DestroyPut _ => 3
  end.

Definition work_rank (w : work) : Z :=
  match w with
  | Idle => 0 | Loop => 1 | Got _ _ => 60 | Process _ _ => 59 | Unlocked _ _ _ _ => 6 | InCallback _ _ => 5 | InDestroy _ => 3 | InChild _ _ _ => 3 | Deref _ => 2
  | ChildCheck _ _ => 20 | ChildCallback => 15 | ChildReject => 10 | ChildDestroy => 2
  end.

Definition ep_rank (e : endpoint) : Z :=
  match e with EpNone | EpGone => 0 | EpListening => 5 | EpLeaving => 10 | EpDisconnected => 100 | EpConnected => 190 | EpConnecting | EpAccepting => 280 end.

(** The destruction that a callback may still ask for. *)
Definition destroy_rank (c : iwcm_id_private) : Z := 10 * c_bool (c.(held) && negb (destroy_call c.(at_call))).

Definition rank (c : iwcm_id_private) : Z :=
  call_rank c.(at_call) + work_rank c.(at_work) + 70 * Z.of_nat (length c.(work_list)) + 2 * c_bool c.(queued) + destroy_rank c + ep_rank c.(ep).

Definition obj_rank (x : cm_id) : Z := match x with Alive c => rank c | Freed _ => 0 end.

Definition measure (ids : cm_ids) : Z := total obj_rank ids.

Lemma rank_nonneg c : 0 <= rank c.
Proof. unfold rank, destroy_rank. destruct c.(at_call), c.(at_work), c.(ep), c.(queued), (c.(held) && _); cbn; lia. Qed.

Lemma obj_rank_nonneg x : 0 <= obj_rank x.
Proof. destruct x; [apply rank_nonneg|done]. Qed.

Lemma deref_rank c x : iwcm_deref_id c = Some x -> obj_rank x <= rank c.
Proof. unfold iwcm_deref_id. pose proof (rank_nonneg c). cbn. repeat case_match; intros [= <-]; cbn; try lia. by unfold rank, destroy_rank. Qed.

Lemma ep_rank_posts e ev : posts e ev = true -> is_request ev = false -> 0 < to_come e /\ ep_rank (after_event e ev) + 90 <= ep_rank e.
Proof. destruct e; try (by destruct ev); destruct ev; try done; cbn; try case_match; cbn; lia. Qed.

Lemma post_returns c ev : core_ok c -> posts c.(ep) ev = true -> is_request ev = false ->
  exists c', cm_event_handler c ev true = (c', 0) /\ rank (set_ep c' (after_event c.(ep) ev)) < rank c.
Proof.
  intros Hc Hp Hr. destruct (io_free _ Hc) as [H0 Hf]. destruct (ep_rank_posts _ _ Hp Hr) as [Hcome He]. unfold cm_event_handler.
  rewrite (proj2 (Z.eqb_neq _ 0)), andb_false_r by lia. eexists. split; [done|]. clear Hc Hp Hr. destruct c as [st w d qu l f n qd h k wk e hi]. cbn in *.
  unfold rank, destroy_rank. destruct (has_data ev), l; cbn; rewrite ?length_app; cbn; destruct qd; cbn; lia.
Qed.

Ltac ranks := unfold rank, destroy_rank; cbn; repeat match goal with |- context [c_bool (?b && _)] => is_var b; destruct b; cbn end; try lia.

(** A step of a record, by its definition. *)
Ltac ranked := open_step; intros E; simplify_eq/=; cases; ranks.

Ltac open_id c He Hw := destruct c as [st w d qu l f n qd h k wk e hi]; cbn in He, Hw; cases.

Lemma refusal_rank c other s ret x : id_ok c -> s = WorkReturn ret \/ s = ChildReturn ret -> id_enabled c s -> id_exec c other s = Some x -> obj_rank x < rank c.
Proof.
  intros (Hc & _) Hs He. pose proof (io_work _ Hc) as Hw. clear Hc. destruct Hs as [-> | ->]; open_id c He Hw; cbn.
  all: unfold client_return, child_return; destruct (c_true ret) eqn:Er; [apply c_true_ne in Er; refuses ret|]; ranked.
Qed.

Lemma deref_step_rank c s other x : id_enabled c s -> s = DestroyEnd \/ s = Untake \/ s = WorkDeref -> id_exec c other s = Some x -> obj_rank x < rank c.
Proof.
  intros He [-> | [-> | ->]]; cbn in He.
  - destruct He as [q Hq]. cbn. rewrite Hq. unfold destroy_end.
    destruct q; cbn; repeat (case_match; cbn); intros E%deref_rank; (eapply Z.le_lt_trans; [exact E|]); clear E; destruct c as [st w d qu l f n qd h k wk e hi]; cbn in *; subst; ranks.
  - cbn. unfold rem_ref. intros E%deref_rank. eapply Z.le_lt_trans; [exact E|]. clear E. apply drops_ep in He.
    destruct c as [st w d qu l f n qd h k wk e hi]; cbn in *. destruct e; try done; ranks.
  - destruct He as [last Hl]. cbn. rewrite Hl. unfold work_deref. intros E%deref_rank. eapply Z.le_lt_trans; [exact E|]. clear E.
    destruct c as [st w d qu l f n qd h k wk e hi]; cbn in *; subst. destruct last; ranks.
Qed.

Lemma step_rank c other s x : id_ok c -> id_enabled c s -> releasing s = true -> id_exec c other s = Some x ->
  obj_rank x + (if spawned c s then 30 else 0) < rank c.
Proof.
  intros Hid He Hs. pose proof (post_returns c) as Hpost. pose proof (io_work _ (proj1 Hid)) as Hw. destruct s; try done; cbn in Hs; cbn [spawned].
  all: try (rewrite Z.add_0_r; first [eapply refusal_rank; [done| |done]; by auto | eapply deref_step_rank; [done|by auto]]).
  all: cbn in He; match goal with
    | |- id_exec _ _ (Event ?ev ?m) = _ -> _ => destruct m; [|by rewrite andb_false_r in Hs]; rewrite andb_true_r in Hs; apply negb_true_iff in Hs;
        destruct (Hpost ev (proj1 Hid) He Hs) as (c' & E & Hr); cbn; rewrite E; cbn; intros [= <-]; cbn; lia
    | _ => clear Hpost Hid Hs; open_id c He Hw; ranked
    end.
Qed.
