(* ===== verification/IwCmQuiet.v ===== *)
(** The iWARP connection manager of IwCm.v: where no call, event or work is under way
    nothing but identifiers at rest is left, and everything else can go on. *)

From S2P Require Import Prelude Counting IwCm IwCmSafe IwCmCalls IwCmWork IwCmRun.
#[local] Open Scope Z_scope.

(** ** The measure decreases *)

Lemma iw_measure_nonneg ids : 0 <= measure ids.
Proof. apply total_nonneg. intros i x _. apply obj_rank_nonneg. Qed.

Lemma next_measure ids i c s x : ids !! i = Some (Alive c) -> joined ids c s ->
  measure (next ids i c s x) = measure ids - rank c + obj_rank x + (if spawned c s then 30 else 0).
Proof.
  intros Hc Hj. unfold next, measure. destruct (spawned c s) as [[child data]|] eqn:Es.
  - destruct (spawned_new _ _ _ _ _ Hj Es) as [Hn _]. rewrite total_new, (total_update _ _ _ _ _ Hc) by (rewrite lookup_insert_ne; congruence).
    replace (obj_rank (Alive (child_create i data))) with 30 by done. cbn. lia.
  - rewrite (total_update _ _ _ _ _ Hc). cbn. lia.
Qed.

Lemma iw_release_decreases ids i s ids' : inv ids -> enabled ids i s -> releasing s = true -> exec ids i s = Some ids' -> measure ids' < measure ids.
Proof.
  intros Hi He Hs. assert (Hid : enabled_id ids i s -> exec_id ids i s = Some ids' -> measure ids' < measure ids).
  { intros (y & Hy & Hen & Hj). unfold exec_id, mbind, option_bind. rewrite Hy. destruct y as [c|c]; [|done]. cbn in Hen, Hj. destruct (Hi i _ Hy) as [Hok _].
    destruct (other_state ids c) as [other|]; [|done]. destruct (id_exec c other s) as [x|] eqn:Ex; [|done]. intros [= <-].
    pose proof (step_rank c other s x Hok Hen Hs Ex). fold (next ids i c s x). rewrite (next_measure ids i c s x Hy Hj). lia. }
  destruct s; try done; by apply Hid.
Qed.

(** ** What can go on *)

(** An identifier at rest: the client has it, and no call, event or work is under way. *)
Record at_rest (c : iwcm_id_private) : Prop := {
  ar_held : c.(held) = true;
  ar_call : c.(at_call) = NoCall;
  ar_work : c.(at_work) = Idle;
  ar_list : c.(work_list) = [];
  ar_queued : c.(queued) = false;
  ar_wait : c.(wait) = false;
  ar_ep : c.(ep) = EpNone \/ c.(ep) = EpListening \/ c.(ep) = EpGone
}.

(** A step that needs no other identifier. *)
Definition alone (s : step) : bool := match s with NewChild _ _ | ChildDone => false | _ => true end.

Definition can_go (c : iwcm_id_private) : Prop := exists s, releasing s = true /\ alone s = true /\ id_enabled c s.

Lemma go c s : releasing s = true -> alone s = true -> id_enabled c s -> can_go c.
Proof. intros. by exists s. Qed.

(** A provider reports what becomes of a connection. *)
Lemma ep_go c : coming_up c.(ep) = true \/ c.(ep) = EpConnected \/ c.(ep) = EpDisconnected \/ c.(ep) = EpLeaving -> can_go c.
Proof.
  intros H. destruct c.(ep) eqn:E; try (by naive_solver).
  - apply (go c (Event (IW_CM_EVENT_CONNECT_REPLY 0 false) true)); cbn; by rewrite ?E.
  - apply (go c (Event IW_CM_EVENT_ESTABLISHED true)); cbn; by rewrite ?E.
  - apply (go c (Event IW_CM_EVENT_CLOSE true)); cbn; by rewrite ?E.
  - apply (go c (Event IW_CM_EVENT_CLOSE true)); cbn; by rewrite ?E.
  - apply (go c Untake); cbn; try done. rewrite E. by destruct c.(at_call).
Qed.

(** Who waits for the flag waits for the answer of the provider or for an event. *)
Lemma waits_for c : core_ok c -> c.(wait) = true ->
  waiting_call c.(at_call) = true \/
  (connecting c.(state) = true /\ (c.(at_call) = ConnectCall \/ c.(at_call) = AcceptCall \/ coming_up c.(ep) = true \/ pending c <> [])).
Proof.
  intros Hc Hw. pose proof (io_state _ Hc) as Hs. destruct c.(drop); [unfold drop_ok in Hs; rewrite Hw in Hs; by destruct Hs|]. destruct Hs as (Hs & _ & _). unfold state_ok in Hs.
  destruct c.(state); rewrite ?Hw in Hs.
  - left. symmetry. tauto.
  - by destruct Hs.
  - right. split; [done|]. destruct Hs as [(? & _)|(_ & _ & [(_ & _ & ? & _)|[(_ & -> & _)|(p & -> & _)]])]; auto.
  - right. split; [done|]. destruct Hs as (_ & [(_ & _ & ? & _)|[(_ & -> & _)|(s & d & p & -> & _)]]); auto.
  - by destruct Hs.
  - by destruct Hs.
  - done.
Qed.

Lemma destroy_go c : core_ok c -> destroy_call c.(at_call) = true -> called c.(at_work) = true \/ pending c = [] -> can_go c.
Proof.
  intros Hc Hk Hw. destruct c.(at_call) eqn:E; try done.
  - destruct c.(wait) eqn:Ew; [|by apply (go c DestroyWaited); cbn].
    destruct (waits_for c Hc Ew) as [H|(Hconn & [H|[H|[H|H]]])]; try (rewrite E in H; done); [apply ep_go; by left|].
    destruct Hw as [Hw|Hw]; [|done]. rewrite (io_called _ Hc Hw) in Hconn. done.
  - by apply (go c DestroyDrop).
  - by apply (go c DestroyLocked).
  - destruct (decide (c.(ep) = EpListening)) as [Ee|Ee]; [apply (go c Untake); cbn; try done; by rewrite E, Ee|]. apply (go c DestroyReturn); cbn; try done. by exists q.
  - apply (go c DestroyEnd); cbn; try done. by exists q.
Qed.

(** The provider can always answer. *)
Lemma answer_go c : exists ret, answers c ret.
Proof. unfold answers. destruct c.(ep); [by exists 1|by exists 0..]. Qed.

Lemma call_go c : core_ok c -> called c.(at_work) = true \/ pending c = [] -> c.(at_call) <> NoCall -> can_go c.
Proof.
  intros Hc Hw Hk. destruct (destroy_call c.(at_call)) eqn:Ed; [by apply destroy_go|]. destruct (answer_go c) as [ret Hr].
  destruct c.(at_call) eqn:E; try done; [by apply (go c (ListenReturn ret))|by apply (go c (ConnectReturn ret))|apply (go c ConnectEnd)|by apply (go c (AcceptReturn ret))
    |by apply (go c AcceptLock)|apply (go c AcceptEnd)|by apply (go c RejectChild)|by apply (go c RejectReturn)]; try done; by exists q.
Qed.

(** Everything but an identifier at rest can go on; a listener that processes a
    request goes on with the new identifier. *)
Lemma id_goes c : id_ok c -> at_rest c \/ can_go c \/ (exists ev last, c.(at_work) = Process ev last /\ is_request ev = true) \/
  exists child data last, c.(at_work) = InChild child data last.
Proof.
  intros (Hc & Hn & Hp). destruct c.(at_work) as [| |ev la|ev la|ev la q n|ev la|la|ch da la|la|p da| | |] eqn:Ew.
  - destruct c.(queued) eqn:Eq; [right; left; by apply (go c WorkStart)|]. pose proof (io_queue _ Hc) as Hq. rewrite Eq, Ew in Hq. cbn in Hq.
    assert (Hl : c.(work_list) = []) by (by destruct c.(work_list)). assert (Hpend : pending c = []) by (unfold pending; rewrite Ew, Hl; done).
    destruct (decide (c.(at_call) = NoCall)) as [Ek|Ek]; [|right; left; apply call_go; auto].
    destruct (coming_up c.(ep)) eqn:Ec; [right; left; apply ep_go; auto|]. pose proof (io_state _ Hc) as Hs. unfold drop_ok in Hs. rewrite Ek in Hs.
    destruct (decide (c.(ep) = EpConnected \/ c.(ep) = EpDisconnected \/ c.(ep) = EpLeaving)) as [He|He]; [right; left; apply ep_go; tauto|].
    left. assert (Hheld : c.(held) = true).
    { destruct c.(held) eqn:Eh; [done|exfalso]. assert (Hz : refs c = ep_ref c.(ep)) by (unfold refs; rewrite Eh, Hl, Ew; cbn; lia).
      destruct c.(drop); [|by destruct Hs as (_ & ? & _)]. destruct Hs as (_ & _ & _ & (_ & Hli) & _). destruct c.(ep); cbn in Hz; try done; tauto || lia. }
    assert (Hd : c.(wait) = false).
    { destruct c.(wait) eqn:Ewt; [exfalso|done]. destruct (waits_for c Hc Ewt) as [H|(_ & [H|[H|[H|H]]])]; congruence || (rewrite Ek in H; done). }
    split; try done. destruct c.(ep); try done; tauto.
  - right. left. by apply (go c WorkNext).
  - right. left. apply (go c WorkTest); cbn; eauto.
  - destruct (is_request ev) eqn:Er; [right; right; left; eauto|]. right. left. apply (go c WorkProcess); cbn; eauto.
  - right. left. apply (go c WorkCall); cbn; eauto.
  - right. left. apply (go c (WorkReturn 0)); cbn; eauto. eexists _, _. split; [done|]. done.
  - right. left. apply destroy_go; [done| |by rewrite Ew; left]. pose proof (io_work _ Hc) as H. rewrite Ew in H. tauto.
  - right. right. right. eauto.
  - right. left. apply (go c WorkDeref); cbn; eauto.
  - right. left. apply (go c (CheckChild true)); cbn; try done. by rewrite Ew.
  - right. left. apply (go c (ChildReturn 0)); cbn; try done.
  - right. left. pose proof (io_work _ Hc) as H. rewrite Ew in H. destruct H as [[H|H] _]; [by apply (go c RejectChild)|by apply (go c RejectReturn)].
  - right. left. apply destroy_go; [done| |by rewrite Ew; left]. pose proof (io_work _ Hc) as H. rewrite Ew in H. tauto.
Qed.

Definition quiet_ids (ids : cm_ids) : Prop := forall i c, ids !! i = Some (Alive c) -> at_rest c.

Lemma goes_enabled ids i c s : ids !! i = Some (Alive c) -> alone s = true -> releasing s = true -> id_enabled c s -> enabled ids i s.
Proof. intros Hc Ha Hr He. assert (Hid : enabled_id ids i s) by (exists (Alive c); split_and!; [done|done|by destruct s]). by destruct s. Qed.

Lemma iw_blocked_quiet ids : inv ids -> (forall i s, releasing s = true -> ~ enabled ids i s) -> quiet_ids ids.
Proof.
  intros Hi Hb i c Hc. destruct (Hi i _ Hc) as [Hok _]. destruct (id_goes c Hok) as [H|[(s & Hs & Ha & He)|[(ev & last & Hw & Hr)|(child & da & la & Hw)]]]; [done|exfalso..].
  - apply (Hb i s Hs). by eapply goes_enabled.
  - apply (Hb i (NewChild (fresh (dom ids : gset Z)) true) eq_refl). exists (Alive c). split; [done|]. split; [by eexists _, _|]. cbn. apply not_elem_of_dom, is_fresh.
  - destruct (match ids !! child with Some (Alive x) => in_child x.(at_work) | _ => false end) eqn:Ein.
    + destruct (ids !! child) as [[x|]|] eqn:Hx; try done. destruct (Hi child _ Hx) as [Hokx _].
      destruct (id_goes x Hokx) as [H|[(s & Hs & Ha & He)|[(ev & last & Hwx & _)|(ch & d & l & Hwx)]]]; [by rewrite (ar_work _ H) in Ein| |by rewrite Hwx in Ein..].
      apply (Hb child s Hs). by eapply goes_enabled.
    + apply (Hb i ChildDone eq_refl). exists (Alive c). split; [done|]. split; [by eexists _, _, _|]. cbn. rewrite Hw. intros x Hx. by rewrite Hx in Ein.
Qed.
