(* ===== verification/IwCmLive.v ===== *)
(** The iWARP connection manager of IwCm.v: the theorems about all its runs, runs that
    are checked by evaluation, and where the code fails. *)

From S2P Require Import Prelude IwCm IwCmSafe IwCmCalls IwCmWork IwCmRun IwCmQuiet.
#[local] Open Scope Z_scope.

(** C18: The connection manager is safe: in every interleaving of calls, provider's answers,
    events and work that the contract allows no BUG is hit and no freed identifier is used.
    The reference count of an identifier is exactly what is accounted for and positive; its
    references to queue pairs are those of [qp] and of the threads about to give one back.
    With a freed identifier no thread is left, and it gave back every queue pair. *)
Theorem iw_cm_safe l : allowed ∅ l ->
  exists ids, run ∅ l = Some ids /\
    (forall i c, ids !! i = Some (Alive c) -> 0 < c.(refcount) /\ c.(refcount) = refs c /\
       forall q, balance c.(history) q = holds c.(qp) q + holds (call_qp c.(at_call)) q + holds (work_qp c.(at_work)) q) /\
    (forall i c, ids !! i = Some (Freed c) -> (forall s, ~ id_enabled c s) /\ forall q, balance c.(history) q = 0).
Proof.
  intros Ha. destruct (iw_run_ok l ∅ no_inv Ha) as (ids & E & Hi). exists ids. split_and!; [done|..].
  - intros i c Hc. destruct (Hi i _ Hc) as [(Hco & Hn & Hp) _]. split_and!; [done..|]. apply (io_qp _ Hco).
  - intros i c Hc. destruct (Hi i _ Hc) as [[Hco Hr] _]. split; [intros s; by apply over_blocked, freed_over|]. intros q. by apply freed_balance.
Qed.

(** C19: What a client sees of a connection: its callbacks, one that is about to begin
    included, are nothing, a connection request, a reply or a request followed by
    [ESTABLISHED], and after these at most one [CLOSE]; the state of the identifier is the one
    this protocol gives. After [iw_destroy_cm_id] has returned at most one callback begins. *)
Theorem iw_client_view ids i x : reachable ids -> ids !! i = Some x ->
  protocol (callbacks (record x).(history) ++ to_call (record x).(at_work)) (record x).(state) /\
  (Destroyed ∈ (record x).(history) -> (record x).(state) = IW_CM_STATE_DESTROYING /\
     Z.of_nat (length (late (record x).(history)) + length (to_call (record x).(at_work))) <= 1).
Proof.
  intros Hr Hx. destruct (iw_reachable_inv _ Hr i x Hx) as [Hok _]. assert (Hc : core_ok (record x)) by (by destruct x as [c|c]; destruct Hok).
  split; [apply (io_calls _ Hc)|]. intros Hd. split; [|by apply (io_late _ Hc)]. pose proof (io_destroyed _ Hc Hd) as Hh. pose proof (io_destroying _ Hc) as Hs.
  unfold destroying in Hs. rewrite Hh in Hs. destruct (record x).(state), (record x).(at_call); done.
Qed.

(** C21: No event of a connection is lost for lack of a work entry: whenever a provider may
    post one, an entry is free, and only the copy of private data can fail. A connection request
    is refused exactly if the backlog is used up or the copy fails. A refused event
    changes nothing; any other is last in the list, with a reference, and work that will see it is
    queued or running. *)
Theorem iw_event_room ids i c ev memory : reachable ids -> ids !! i = Some (Alive c) -> posts c.(ep) ev = true ->
  exists c' ret, cm_event_handler c ev memory = (c', ret) /\
    (ret = - ENOMEM <-> (is_request ev = true /\ c.(free) = 0) \/ (has_data ev = true /\ memory = false)) /\
    (ret = - ENOMEM -> c' = c) /\
    (ret <> - ENOMEM -> ret = 0 /\ c'.(work_list) = c.(work_list) ++ [ev] /\ c'.(free) = c.(free) - 1 /\ 0 <= c'.(free) /\
       c'.(refcount) = c.(refcount) + 1 /\ (c'.(queued) = true \/ again c'.(at_work) = true)).
Proof.
  intros Hr Hx Hp. destruct (iw_reachable_inv _ Hr i _ Hx) as [(Hc & _) _]. destruct (io_free _ Hc) as [H0 Hf]. pose proof (io_queue _ Hc) as Hq. unfold cm_event_handler.
  assert (Hroom : is_request ev = false -> 0 < c.(free)) by (intros E; pose proof (ep_rank_posts _ _ Hp E); lia).
  destruct (Z.eqb_spec c.(free) 0) as [Ez|Ez].
  { eexists _, _. split; [done|]. split; [split; [intros _; left|done]|done]. split; [|done]. destruct (is_request ev); [done|]. specialize (Hroom eq_refl). lia. }
  destruct (has_data ev) eqn:Ed, memory; cbn.
  2: { eexists _, _. split; [done|]. split; [|done]. split; [by right|done]. }
  all: eexists _, _; (split; [done|]); (split; [split; [done|naive_solver]|]); (split; [done|]); intros _.
  all: destruct c.(work_list) eqn:El; cbn; rewrite ?El; split_and!; try done; try lia; auto.
  all: rewrite Hq, ?El, andb_true_r; destruct (again c.(at_work)); auto.
Qed.

(** C20: Destroying ends and leaves nothing: from every reachable state each sequence of steps
    by which calls, events and work come to an end has at most [measure ids] steps, and where
    none is possible every identifier that is not freed is at rest: its client has not destroyed
    it, nobody waits for IWCM_F_CONNECT_WAIT and no work, event or connection is left. *)
Theorem iw_cm_drains ids l ids' : reachable ids -> allowed ids l -> Forall (fun s => releasing s.2 = true) l -> run ids l = Some ids' ->
  Z.of_nat (length l) <= measure ids /\
  ((forall i s, releasing s = true -> ~ enabled ids' i s) -> forall i c, ids' !! i = Some (Alive c) -> at_rest c).
Proof.
  intros Hreach Hall Hrel Hrun. pose proof (iw_reachable_inv _ Hreach) as Hi. clear Hreach.
  assert (Hmain : inv ids' /\ Z.of_nat (length l) + measure ids' <= measure ids).
  { revert ids Hi Hall Hrun. induction l as [|[i s] l IH]; intros ids Hi Hall Hrun; cbn [run] in Hrun; [injection Hrun as <-; split; [done|cbn; lia]|].
    apply Forall_cons_iff in Hrel as [Hs Hrel]. destruct Hall as [He Hall]. destruct (iw_exec_ok ids i s Hi He) as (ids1 & E & Hi1). unfold mbind, option_bind in Hrun. rewrite E in Hrun.
    destruct (IH Hrel ids1 Hi1 (Hall _ E) Hrun) as [Hi' Hm]. pose proof (iw_release_decreases _ _ _ _ Hi He Hs E). split; [done|]. cbn [length]. lia. }
  destruct Hmain as [Hi' Hm]. pose proof (iw_measure_nonneg ids'). split; [lia|]. by apply iw_blocked_quiet.
Qed.

(** ** Checking runs by evaluation *)

Definition untriedb (c : iwcm_id_private) : bool :=
  bool_decide (c.(at_call) = NoCall) && bool_decide (c.(state) = IW_CM_STATE_IDLE) && (c.(free) =? 0) && bool_decide (c.(history) = []) && c.(held) &&
  bool_decide (c.(at_work) = Idle) && bool_decide (c.(ep) = EpNone).

Definition answersb (c : iwcm_id_private) (k : call) (ret : Z) : bool :=
  bool_decide (c.(at_call) = k) && Bool.eqb (c_true ret) (match c.(ep) with EpNone => true | _ => false end).

(** [id_enabled], as a test. *)
Definition id_enabledb (c : iwcm_id_private) (s : step) : bool :=
  match s with
  | Create => false
  | Listen backlog _ => untriedb c && (0 <=? backlog)
  | Connect _ _ => untriedb c
  | ListenReturn ret => answersb c ListenCall ret
  | ConnectReturn ret => answersb c ConnectCall ret
  | AcceptReturn ret => answersb c AcceptCall ret
  | ConnectEnd => match c.(at_call) with ConnectUndo _ => true | _ => false end
  | AcceptLock => bool_decide (c.(at_call) = AcceptFail)
  | AcceptEnd => match c.(at_call) with AcceptUndo _ => true | _ => false end
  | Accept _ | Reject => bool_decide (c.(at_call) = NoCall) && c.(held) && negb c.(wait) && negb (is_check c.(at_work))
  | RejectReturn => bool_decide (c.(at_call) = RejectCall)
  | Disconnect => negb c.(wait) && c.(held) && negb (destroy_call c.(at_call))
  | Destroy => bool_decide (c.(at_call) = NoCall) && c.(held) && negb (is_check c.(at_work)) && bool_decide (c.(at_work) <> ChildCallback)
  | DestroyWaited => bool_decide (c.(at_call) = DestroyWait) && negb c.(wait)
  | DestroyDrop => bool_decide (c.(at_call) = DestroyMark)
  | DestroyLocked => bool_decide (c.(at_call) = DestroyLock)
  | DestroyReturn => match c.(at_call) with DestroyCall _ => bool_decide (c.(ep) <> EpListening) | _ => false end
  | DestroyEnd => match c.(at_call) with DestroyPut _ => true | _ => false end
  | Take => bool_decide (c.(ep) = EpNone) && bool_decide (made_endpoint c.(at_call) <> EpNone)
  | Untake => drops_ref c.(at_call) c.(ep)
  | Event ev _ => posts c.(ep) ev
  | WorkStart => c.(queued) && bool_decide (c.(at_work) = Idle)
  | WorkNext => bool_decide (c.(at_work) = Loop)
  | WorkTest => match c.(at_work) with Got _ _ => true | _ => false end
  | WorkProcess => match c.(at_work) with Process ev _ => negb (is_request ev) | _ => false end
  | WorkCall => match c.(at_work) with Unlocked _ _ _ _ => true | _ => false end
  | WorkReturn ret => match c.(at_work) with InCallback _ _ => (ret =? 0) || (c.(held) && bool_decide (c.(at_call) = NoCall)) | _ => false end
  | WorkDeref => match c.(at_work) with Deref _ => true | _ => false end
  | NewChild _ _ => match c.(at_work) with Process ev _ => is_request ev | _ => false end
  | CheckChild _ => is_check c.(at_work)
  | ChildReturn ret => bool_decide (c.(at_work) = ChildCallback) && ((ret =? 0) || (c.(held) && bool_decide (c.(at_call) = NoCall) && negb c.(wait)))
  | RejectChild => bool_decide (c.(at_call) = RejectStart)
  | ChildDone => match c.(at_work) with InChild _ _ _ => true | _ => false end
  end.

Definition joinedb (ids : cm_ids) (c : iwcm_id_private) (s : step) : bool :=
  match s with
  | NewChild child _ => negb (is_some (ids !! child))
  | ChildDone => match c.(at_work) with InChild child _ _ => match ids !! child with Some (Alive x) => negb (in_child x.(at_work)) | _ => true end | _ => true end
  | _ => true
  end.

Definition enabledb (ids : cm_ids) (i : Z) (s : step) : bool :=
  match s with
  | Create => negb (is_some (ids !! i))
  | _ => match ids !! i with Some x => id_enabledb (record x) s && joinedb ids (record x) s | None => false end
  end.

Fixpoint allowedb (ids : cm_ids) (l : list (Z * step)) : bool :=
  match l with [] => true | (i, s) :: l => enabledb ids i s && from_option (fun ids' => allowedb ids' l) true (exec ids i s) end.

Lemma answersb_sound c k ret : answersb c k ret = true -> c.(at_call) = k /\ answers c ret.
Proof. unfold answersb. by intros [?%bool_decide_eq_true ?%Bool.eqb_prop]%andb_true_iff. Qed.

Lemma untriedb_sound c : untriedb c = true -> untried c.
Proof. unfold untriedb, untried. rewrite !andb_true_iff, !bool_decide_eq_true, Z.eqb_eq. naive_solver. Qed.

Lemma id_enabledb_sound c s : id_enabledb c s = true -> id_enabled c s.
Proof.
  destruct s; cbn; try apply answersb_sound; try apply untriedb_sound; try done.
  all: rewrite ?andb_true_iff, ?negb_true_iff, ?bool_decide_eq_true; try tauto.
  - intros [H%untriedb_sound Hb%Z.leb_le]. done.
  - destruct c.(at_call); try done; eauto.
  - destruct c.(at_call); try done; eauto.
  - destruct c.(at_call); try done. intros H%bool_decide_eq_true. eauto.
  - destruct c.(at_call); try done; eauto.
  - destruct c.(at_work); try done; eauto.
  - destruct c.(at_work); try done. intros H%negb_true_iff. eauto.
  - destruct c.(at_work); try done. eauto 6.
  - destruct c.(at_work); try done. intros [H%Z.eqb_eq|H]%orb_true_iff; eexists _, _; (split; [done|]); [done|]. apply andb_true_iff in H as [? ?%bool_decide_eq_true]. done.
  - destruct c.(at_work); try done; eauto.
  - destruct c.(at_work); try done; eauto.
  - intros [H [Hr%Z.eqb_eq|Hr]%orb_true_iff]; (split; [done|]); [done|]. rewrite !andb_true_iff, bool_decide_eq_true, negb_true_iff in Hr. tauto.
  - destruct c.(at_work); try done; eauto.
Qed.

Lemma joinedb_sound ids c s : joinedb ids c s = true -> joined ids c s.
Proof.
  destruct s; cbn; try done; [by destruct (ids !! child)|]. destruct c.(at_work); try done. intros H x Hx. rewrite Hx in H. by apply negb_true_iff.
Qed.

Lemma iw_enabledb_sound ids i s : enabledb ids i s = true -> enabled ids i s.
Proof.
  assert (Hid : match ids !! i with Some x => id_enabledb (record x) s && joinedb ids (record x) s | None => false end = true -> enabled_id ids i s).
  { destruct (ids !! i) as [x|] eqn:E; [|done]. intros [H1%id_enabledb_sound H2%joinedb_sound]%andb_true_iff. by exists x. }
  destruct s; try done. cbn. by destruct (ids !! i).
Qed.

Lemma iw_allowedb_sound l : forall ids, allowedb ids l = true -> allowed ids l.
Proof.
  induction l as [|[i s] l IH]; intros ids; cbn [allowedb allowed]; [done|]. intros [He Hl]%andb_true_iff. split; [by apply iw_enabledb_sound|].
  intros ids' E. rewrite E in Hl. by apply IH.
Qed.

(** ** Runs *)

Definition on (i : Z) (l : list step) : list (Z * step) := (fun s => (i, s)) <$> l.

(** One event, to the callback and back; and one that is dropped. *)
Definition one_event (ev : iw_cm_event) : list step := [Event ev true; WorkStart; WorkNext; WorkTest; WorkProcess; WorkCall; WorkReturn 0; WorkDeref].
Definition dropped_event (ev : iw_cm_event) : list step := [Event ev true; WorkStart; WorkNext; WorkTest; WorkDeref].

(** 1 listens; a request arrives, and the client accepts the new identifier 3 with queue pair 7
    in its callback; 2 connects with queue pair 8. *)
Definition sample_listen : list (Z * step) :=
  on 1 [Create; Listen 2 true; Take; ListenReturn 0; Event (IW_CM_EVENT_CONNECT_REQUEST true) true; WorkStart; WorkNext; WorkTest; NewChild 3 true] ++
  on 3 [CheckChild true; Accept (Some 7); Take; AcceptReturn 0; ChildReturn 0] ++ on 1 [ChildDone; WorkDeref].

Definition sample_connect : list (Z * step) := on 2 [Create; Connect (Some 8) true; Take; ConnectReturn 0].

Definition sample_up : list (Z * step) := sample_listen ++ sample_connect ++ on 3 (one_event IW_CM_EVENT_ESTABLISHED) ++ on 2 (one_event (IW_CM_EVENT_CONNECT_REPLY 0 true)).

(** The client destroys all three. *)
Definition sample_destroy : list (Z * step) := [(1, Destroy); (2, Destroy); (3, Destroy)].

Definition destroy_connection : list step :=
  [DestroyWaited; DestroyDrop; DestroyLocked; DestroyReturn; DestroyEnd] ++ dropped_event IW_CM_EVENT_CLOSE ++ [Untake].

Definition sample_release : list (Z * step) :=
  on 1 [DestroyWaited; DestroyDrop; DestroyLocked; Untake; DestroyReturn; DestroyEnd] ++ on 2 destroy_connection ++ on 3 destroy_connection.

Definition state_after (l : list (Z * step)) : cm_ids := default ∅ (run ∅ l).

Definition sample_state : cm_ids := Eval vm_compute in state_after sample_up.
Definition sample_busy_state : cm_ids := Eval vm_compute in state_after (sample_up ++ sample_destroy).
Definition sample_end_state : cm_ids := Eval vm_compute in state_after (sample_up ++ sample_destroy ++ sample_release).

Lemma run_reachable l ids : allowedb ∅ l = true -> run ∅ l = Some ids -> reachable ids.
Proof. intros Ha%iw_allowedb_sound Hr. by exists l. Qed.

Lemma iw_sample_reachable : reachable sample_state.
Proof. apply (run_reachable sample_up); vm_compute; reflexivity. Qed.

Lemma iw_sample_busy_reachable : reachable sample_busy_state.
Proof. apply (run_reachable (sample_up ++ sample_destroy)); vm_compute; reflexivity. Qed.

(** The identifier [i] of a state. *)
Definition id_of (ids : cm_ids) (i : Z) : iwcm_id_private := from_option record iw_create_cm_id (ids !! i).

Lemma iw_cm_safe_witness : exists ids, run ∅ (sample_up ++ sample_destroy ++ sample_release) = Some ids.
Proof.
  destruct (iw_cm_safe (sample_up ++ sample_destroy ++ sample_release)) as (ids & E & _); [apply iw_allowedb_sound; vm_compute; reflexivity|]. exists ids. exact E.
Defined.

Lemma iw_client_view_witness : protocol [IW_CM_EVENT_CONNECT_REQUEST true; IW_CM_EVENT_ESTABLISHED] IW_CM_STATE_ESTABLISHED.
Proof. exact (proj1 (iw_client_view sample_state 3 (Alive (id_of sample_state 3)) iw_sample_reachable eq_refl)). Defined.

Lemma iw_event_room_witness : exists c', cm_event_handler (id_of sample_state 2) IW_CM_EVENT_DISCONNECT false = (c', 0).
Proof.
  destruct (iw_event_room sample_state 2 (id_of sample_state 2) IW_CM_EVENT_DISCONNECT false iw_sample_reachable eq_refl eq_refl) as (c' & ret & E & _ & _ & H).
  exists c'. rewrite E. f_equal. apply H. intros ->. vm_compute in E. discriminate E.
Defined.

Lemma rest_blocked c s : at_rest c -> releasing s = true -> ~ id_enabled c s.
Proof.
  intros [Hh Hk Hw Hl Hq Hwt He]. destruct c; cbn in *; subst. destruct s; try done; cbn; try naive_solver; destruct He as [->|[->| ->]]; try done; by destruct ev.
Qed.

Definition at_restb (c : iwcm_id_private) : bool :=
  c.(held) && bool_decide (c.(at_call) = NoCall) && bool_decide (c.(at_work) = Idle) && bool_decide (c.(work_list) = []) && negb c.(queued) && negb c.(wait) &&
  match c.(ep) with EpNone | EpListening | EpGone => true | _ => false end.

Definition overb (c : iwcm_id_private) : bool :=
  negb c.(held) && bool_decide (c.(work_list) = []) && bool_decide (c.(at_call) = NoCall) && bool_decide (c.(at_work) = Idle) && negb c.(queued) &&
  match c.(ep) with EpNone | EpGone => true | _ => false end && bool_decide (c.(state) = IW_CM_STATE_DESTROYING).

Definition stillb (ids : cm_ids) : bool := forallb (fun x => match x.2 with Alive c => at_restb c | Freed c => overb c end) (map_to_list ids).

Lemma still_blocked ids : stillb ids = true -> forall i s, releasing s = true -> ~ enabled ids i s.
Proof.
  unfold stillb. rewrite forallb_forall. intros Hb i s Hs He. assert (Hid : enabled_id ids i s) by (by destruct s). destruct Hid as (x & Hx & He' & _).
  specialize (Hb (i, x)). cbn [snd] in Hb. rewrite <- list_elem_of_In, elem_of_map_to_list in Hb. specialize (Hb Hx). revert He'. destruct x as [c|c]; cbn [record].
  - apply rest_blocked; [|done]. unfold at_restb in Hb. rewrite !andb_true_iff, !negb_true_iff, !bool_decide_eq_true in Hb. split; try tauto. destruct c.(ep); tauto || (by destruct Hb).
  - apply over_blocked. unfold overb in Hb. rewrite !andb_true_iff, !negb_true_iff, !bool_decide_eq_true in Hb. split; try tauto. destruct c.(ep); try tauto; by destruct Hb as [[_ ?] _].
Qed.

Lemma iw_cm_drains_witness : Z.of_nat (length sample_release) <= measure sample_busy_state /\
  forall i c, sample_end_state !! i = Some (Alive c) -> at_rest c.
Proof.
  destruct (iw_cm_drains sample_busy_state sample_release sample_end_state iw_sample_busy_reachable) as [H1 H2];
    [apply iw_allowedb_sound; vm_compute; reflexivity|repeat (constructor; [reflexivity|]); constructor|vm_compute; reflexivity|].
  split; [exact H1|]. apply H2. apply still_blocked. vm_compute. reflexivity.
Defined.

(** The run frees all three identifiers. *)
Example sample_all_freed : forallb (fun x => match x.2 with Freed _ => true | Alive _ => false end) (map_to_list sample_end_state) = true.
Proof. vm_compute. reflexivity. Qed.

(** ** Where the code fails *)

(** [iw_destroy_cm_id] returns between the critical section of [cm_close_handler] and its callback. *)
Definition late_callback_run : list (Z * step) :=
  sample_connect ++ on 2 (one_event (IW_CM_EVENT_CONNECT_REPLY 0 false)) ++
  on 2 [Event IW_CM_EVENT_CLOSE true; WorkStart; WorkNext; WorkTest; WorkProcess; Destroy; DestroyWaited; DestroyDrop; DestroyLocked; DestroyEnd; WorkCall].

(** A listener is destroyed while a connection request is in its list. *)
Definition dropped_request_run : list (Z * step) :=
  on 1 [Create; Listen 2 true; Take; ListenReturn 0; Event (IW_CM_EVENT_CONNECT_REQUEST true) true; Destroy; DestroyWaited; DestroyDrop; DestroyLocked; Untake; DestroyReturn;
        DestroyEnd; WorkStart; WorkNext; WorkTest; WorkDeref].

(** Four flaws, each shown by a run. A callback begins after [iw_destroy_cm_id] has
    returned. A connection request that is dropped is not rejected, and the copy of its private data is
    not freed. Connecting again after an error that came after the allocation of the work
    entries hits the BUG of [alloc_work_entries]. Rejecting in a wrong state clears
    IWCM_F_CONNECT_WAIT of a running connect, and disconnecting then hits a BUG. *)
Theorem iw_cm_flaws :
  (allowed ∅ late_callback_run /\ exists c, state_after late_callback_run !! 2 = Some (Alive c) /\ late c.(history) = [IW_CM_EVENT_CLOSE]) /\
  (allowed ∅ dropped_request_run /\ exists c, state_after dropped_request_run !! 1 = Some (Freed c) /\ c.(history) = [CopyData; Destroyed]) /\
  (allowed ∅ (on 2 [Create; Connect None true]) /\ is_Some (run ∅ (on 2 [Create; Connect None true])) /\
     run ∅ (on 2 [Create; Connect None true; Connect (Some 8) true]) = None) /\
  (allowed ∅ sample_connect /\ is_Some (run ∅ (sample_connect ++ on 2 [Reject])) /\ run ∅ (sample_connect ++ on 2 [Reject; Disconnect]) = None).
Proof.
  split_and!; try (apply iw_allowedb_sound; vm_compute; reflexivity); try (vm_compute; reflexivity); try (eexists; vm_compute; reflexivity).
  - exists (id_of (state_after late_callback_run) 2). split; vm_compute; reflexivity.
  - exists (id_of (state_after dropped_request_run) 1). split; vm_compute; reflexivity.
Qed.
